(* ===== verification/_CoqProject ===== *)
-Q . S2P
Prelude.v
Allocator.v
Bitmap.v
Lists.v
Stacks.v
MachineSim.v
MipsSim.v
Disasm.v
Interp.v
DiskSim.v
FileHdr.v
OpenFile.v
Directory.v
FileSys.v
FsLayout.v
FsSpec.v
FsTest.v
ContextSwitch.v
ContextSwitchRisc.v
Threads.v
InterruptSim.v
AddrSpace.v
Locality.v
UserThreads.v
UserSystem.v
ConsoleDev.v
Demos.v
Syscalls.v
UserStrings.v
Processes.v
ProcessProtocol.v
STables.v
Startup.v
HostFiles.v
Converter.v
FileCalls.v
ProcessCalls.v
CallFrames.v
KernelEntry.v
StartCode.v
FileService.v
Shell.v
WaterStation.v
WaterRun.v
UserPrograms.v
NetworkDev.v
PostOffice.v
PostProtocol.v
NetTest.v
