(* ===== verification/Prelude.v ===== *)
(** * Nachos 3.4 with multiprogramming: a verification development

    Nachos is an instructional operating system: a kernel, in C++, that runs as
    one UNIX process on top of a simulated machine (a MIPS processor with memory
    and address translation, a clock, a disk, a console).  This repository adds
    multiprogramming to it: a bitmap of physical pages and address spaces that
    use any free page, a process table with exec, join and exit, named
    semaphores, a synchronous console, and the system calls on all of these.
    The sources are under code/ of nachos-3.4; the paths below are relative to
    that directory.

    ** How the code is modelled

    Every class is a record, every method a function on it.  A method that can
    fail is in the monad [outcome] of this file: [Ok] with the results, or
    [Fault] with the reason (a failed [ASSERT], an access outside an array or
    through a null or freed pointer, a trap of the host, a halt of the machine,
    a wait that only others can end).  C integers are numbers in [Z] that are
    reduced to their width ([u32], [s32], ...) where the code computes with
    them.  Not reduced are the clock and the tick counts of the simulation, loop
    indices and sizes that stay below the length of an array, and the counters of
    the semaphores outside of [Threads.v] (in a PCB, a device or a mailbox).  Arrays are lists with checked accesses [rd] and [wr]; memory from
    [new] that the code reads before it writes is an argument.  Objects that are
    shared or freed live in a heap ([gmap Z _]).  Printing and the debugging
    output are left out.

    ** The files

    - [Prelude.v]: the monad, C integers, byte strings, lemmas and tactics.
    - [Allocator.v]: the interface of an allocator of numbered slots, a type
      class with laws, which [Bitmap.v] implements and the file header, the file
      system, address spaces, the process table and the semaphore table use.
    - [Bitmap.v], [Lists.v]: userprog/bitmap.cc (bits packed into words) and
      threads/list.cc (linked elements on a heap), each a refinement of the
      obvious sequence.
    - [Stacks.v]: c++example/: the stack on an array, on a list and as a template,
      each a sequence with a bound.
    - [MachineSim.v]: machine/machine.cc and machine/translate.cc: registers,
      delayed loads, byte order, page table and TLB, memory accesses.
    - [MipsSim.v]: machine/mipssim.cc: decoding and executing an instruction,
      against the MIPS architecture; multiplication.
    - [Disasm.v], [Interp.v]: bin/d.c, bin/opstrings.c and bin/execute.c: the
      disassembler and the interpreter that come with the cross compiler, and the
      trace of machine/mipssim.cc, compared with the simulator.
    - [InterruptSim.v]: machine/interrupt.cc and machine/timer.cc: simulated time
      and the interrupts that are due at it.  What the handlers do is a
      parameter with a contract, which the timer of the kernel meets.
    - [DiskSim.v]: machine/disk.cc and filesys/synchdisk.cc: the device with its
      latencies, and the synchronous disk, an instance of the block-device
      interface the file system is proved against.  A call of [SynchDisk] is one
      step, from its lock to the completion interrupt: the lock is empty in the
      sources, and two threads in the calls at once, which could meet
      [ASSERT(!active)], are not modelled.
    - [FileHdr.v], [OpenFile.v], [Directory.v], [FileSys.v]: filesys/: file headers
      as maps from bytes to sectors, reads and writes of any range, the
      directory as a finite map, and the operations of the file system.
    - [FsLayout.v], [FsSpec.v]: what a consistent disk is (headers, directory and
      bitmap of free sectors agree and no sector belongs to two files), and the
      file system as a finite map from names to contents that its operations
      keep on such a disk.
    - [FsTest.v]: filesys/fstest.cc: copying UNIX files in, printing files, the
      performance test.
    - [ContextSwitch.v]: threads/switch.c and threads/switch.h: the assembly of the
      context switch on the Intel host, and threads/thread.cc ([StackAllocate]),
      which prepares a thread for it.  [ContextSwitchRisc.v] has the MIPS and the PA-RISC
      host, with one proof for both.
    - [Threads.v]: threads/thread.cc, threads/scheduler.cc, threads/synch.cc: the
      threads, the ready list and the semaphores as a transition system.
    - [AddrSpace.v]: userprog/addrspace.cc: loading programs into free pages.
    - [Locality.v], [UserThreads.v], [UserSystem.v]: the registers that a context switch saves and
      restores (threads/thread.cc, threads/scheduler.cc) and the start of a
      program (userprog/progtest.cc); first that the instructions of a program
      and the accesses of its system calls depend on its own registers and
      frames only, then an interleaving of programs, and then the system in which
      programs are loaded into free pages and give them back.
    - [ConsoleDev.v]: machine/console.cc and threads/synchcons.cc.
    - [Demos.v]: threads/threadtest.cc, and [ConsoleTest] of userprog/progtest.cc.
    - [Syscalls.v], [UserStrings.v]: userprog/exception.cc: the entry point and
      the calls on numbers, characters and strings; the copies between user
      and kernel memory.
    - [Processes.v], [ProcessProtocol.v]: userprog/ptable.cc and userprog/pcb.cc:
      exec, join and exit, cut at the points where a thread can lose the
      processor, and what holds under every interleaving of the pieces; the names of
      the threads are strings that [Exec] frees.
    - [STables.v]: userprog/stable.cc: semaphores by name.
    - [Startup.v]: threads/main.cc, threads/system.cc and threads/utility.cc: what
      the command line asks for, and the objects that are made and deleted.
    - [HostFiles.v]: the file calls of machine/sysdep.cc over an interface of the
      UNIX calls with laws, and the FILESYS_STUB classes of filesys/openfile.h
      and filesys/filesys.h, which the build with user programs uses; a model of
      UNIX files that satisfies the laws.
    - [Converter.v]: bin/coff2noff.c and bin/coff2flat.c: from the object file of
      the cross compiler to the file that an address space is loaded from.
    - [FileCalls.v], [ProcessCalls.v]: userprog/exception.cc: the system calls on
      files, processes and semaphores.  [CallFrames.v] shows that no handler changes a
      register but 2, or the address translation.
    - [KernelEntry.v]: machine/mipssim.cc ([Run]) and userprog/exception.cc
      ([ExceptionHandler]): a program that calls a stub of test/start.s, through
      the exception, the handler and back.  The call of [OneTick] in [Run] is a
      parameter; the theorems are on calls during which no interrupt is due.
    - [StartCode.v]: test/start.c: the code at the start of every program, with the
      program test/halt of the repository, which is loaded and run.
    - [FileService.v]: the files that a process sees, the specification that the
      handlers of [FileCalls.v] are shown to implement.
    - [Shell.v]: test/shell.c over the handlers of the console calls.
    - [WaterStation.v], [WaterRun.v]: test/MayRotNuoc.c, test/sinhvien.c and
      test/voinuoc.c: three programs that take turns with named semaphores and
      exchange files, as transition systems over the calls of [FileService.v];
      first that they take turns, then what they write.
    - [UserPrograms.v]: test/bubblesort.c, test/sort.c, test/matmult.c,
      test/ascii.c, test/readPrintInt.c, test/help.c, test/ping.c and test/pong.c
      over the calls they make.
    - [NetworkDev.v]: machine/network.cc and the socket calls of
      machine/sysdep.cc over an interface of the UNIX calls with laws; a model of
      datagram sockets that satisfies them.
    - [PostOffice.v], [PostProtocol.v]: threads/synchlist.cc and network/post.cc:
      mailboxes, the post office and its postal worker, cut at the points where a
      thread waits, and what holds of any number of machines under every
      interleaving of the pieces.
    - [NetTest.v]: network/nettest.cc: two machines that exchange mail.

    ** What is shown

    - Threads and processes: in every state the kernel can reach each thread is
      in the one place its status names, no wake-up is lost, and every kernel
      call returns; processes that join their children before they exit never
      meet a dangling PCB (but may read the freed name of their thread in [Exec]), a
      join returns when the process it names has exited, with its code, and each
      side of a join waits no longer than it has to.
    - The context switch: a thread that is switched away from goes on where it was
      with its registers, and a new thread calls its function and then finishes.
    - Programs: no instruction, load or store of a running program changes those of
      another one; and for programs that the loader puts where they belong (code at
      address 0, no initialised data) multiprogramming is transparent: whatever the
      interleaving, each program behaves as on a machine of its own.
    - Memory: a store is read back and changes nothing else, page tables without
      common frames are isolated, loaded programs have frames of their own; a
      TLB that caches a page table answers like it; deleting an address space
      gives its frames back.
    - The processor: arithmetic agrees with the architecture, multiplication is
      exact, an instruction always ends in a machine that is well formed or in
      an exception, but for the cases that are listed.  The interpreter of bin/
      agrees with the simulator, and the disassembler prints what is executed, each
      but for the cases that are listed.
    - From source to memory: a converted object file loads, and every byte of the
      code is then at its address in the memory of the process.
    - Time: a tick fires exactly the interrupts that are due, in order; idling
      moves the clock to the next interrupt; the timer re-arms itself.
    - Storage: the synchronous disk is an array of sectors; reads and writes of a
      file are reads and writes of its bytes, and change no other sector; the
      allocator gives sectors out once; the directory and the table of
      semaphores are finite maps.  The file system as a whole is a map from names
      to contents: create and remove keep the disk consistent and undo each
      other, and writing through an open file changes that file alone; a UNIX file
      that is copied in is displayed as it was.
    - Network: the messages for a mailbox arrive once, in order and unchanged,
      and those that have not been taken are in the mailbox or on their way;
      delivery is never stuck; two machines that exchange mail print what was sent.
    - A program that is started reaches its [main], and exits when that returns.
    - System calls: a call returns to the program with its answer and changes
      nothing else; the calls on files implement an abstract file service; lines
      and numbers go through the console and user memory
      unchanged, and so do the bytes of a file; processes and semaphores are
      those of the names in user memory; what the calls answer for other input
      is stated as it is.
    - User programs: the three processes of the water station never go on at the
      same time, write for up to three time points what they are to write, and
      do not end for more; bubblesort sorts, and prints the
      non-negative numbers it sorted.
    - Start-up: a command line of known options is understood as it is written, but
      for the options of the network;
      the stacks of the examples are sequences with a bound.
    - Where the code does not do what it means to, the theorem says what it
      does: loading past the end of memory when the pages run out, segments in
      frames of other programs, exits of orphans, numbers below zero, a shell that
      executes no command.

    ** Bounds

    Loops with a counter are [for_range], which runs the iterations the source
    runs.  Loops whose end depends on data carry fuel, and the theorems show that
    it is enough: [run_next] in [Threads.v] is given one switch per thread that is
    ready ([switches]); [fire_due] in [InterruptSim.v] as many rounds as
    interrupts are pending, as handlers schedule into the future; the reads of
    the console one round per character that will be typed; [count_digits] 11
    rounds, for the ten digits of an [int]; walks of linked lists the number of
    elements on the heap.  The wait of [SynchList] has one round, as waiting
    stops the kernel.

    ** Not modelled

    The UNIX process around the simulator (machine/sysdep.cc but for its file
    and socket calls), the context switch of the SPARC, which asks the operating
    system of the host to flush the register windows, the
    debugger of the machine, statistics and printing; in
    bin/ what loads object files through the library of the host (main.c, out.c,
    disasm.c) and passes system calls on to it (system.c); the programs under
    test/ that only call the kernel.  [Lock] and [Condition] are empty in the
    sources, and so in [PostOffice.v]. *)

From stdpp Require Export base list gmap numbers.
From Stdlib Require Export ZArith Lia.

Local Open Scope Z_scope.

(** ** Faults and the error monad *)

(** How a kernel routine can fail to return normally.
    - [AssertFailed]: the macro [ASSERT] of threads/utility.h called [Abort()];
    - [BadAccess]: the code dereferenced a null or freed pointer or indexed an
      array outside its bounds (undefined in C++, never given a value here);
    - [OutOfFuel]: a loop of the model ran past its bound (the theorems show
      that this is never the result);
    - [DivideTrap]: the host's division instruction trapped;
    - [Halted]: [Interrupt::Halt] was called, which does not return;
    - [Blocked]: the routine waits on a semaphore whose value is 0, and only
      another thread can let it go on. *)
Inductive fault := AssertFailed | BadAccess | OutOfFuel | DivideTrap | Halted | Blocked.

Inductive outcome (A : Type) :=
| Ok (a : A)
| Fault (f : fault).
Arguments Ok {A} a.
Arguments Fault {A} f.

#[export] Instance fault_eq_dec : EqDecision fault.
Proof. solve_decision. Defined.

#[export] Instance outcome_ret : MRet outcome := fun A a => Ok a.
#[export] Instance outcome_bind : MBind outcome := fun A B f m =>
  match m with Ok a => f a | Fault e => Fault e end.

(** [#define ASSERT(condition)] of threads/utility.h: abort when it is false. *)
Definition ASSERT (b : bool) : outcome unit :=
  if b then Ok tt else Fault AssertFailed.

(** An array access [l[i]] and the assignment [l[i] = x], both undefined out
    of the array's range. *)
Definition rd {A} (l : list A) (i : Z) : outcome A :=
  if 0 <=? i then
    match l !! Z.to_nat i with Some x => Ok x | None => Fault BadAccess end
  else Fault BadAccess.

Definition wr {A} (l : list A) (i : Z) (x : A) : outcome (list A) :=
  if (0 <=? i) && (i <? Z.of_nat (length l)) then Ok (<[Z.to_nat i := x]> l)
  else Fault BadAccess.

(** [for (i = lo; i < hi; i++) body], the loop variable being passed to the
    body and the state threaded through it. *)
Fixpoint for_loop {St} (n : nat) (i : Z) (body : Z -> St -> outcome St)
    (s : St) : outcome St :=
  match n with
  | O => Ok s
  | S n' => s' ← body i s; for_loop n' (i + 1) body s'
  end.

Definition for_range {St} (lo hi : Z) (body : Z -> St -> outcome St) (s : St)
    : outcome St :=
  for_loop (Z.to_nat (hi - lo)) lo body s.

(** [wp o Q E]: [o] returns a value that satisfies [Q], or faults as [E] allows. *)
Definition wp {A} (o : outcome A) (Q : A -> Prop) (E : fault -> Prop) : Prop :=
  match o with Ok a => Q a | Fault f => E f end.

(** ** C integers *)

(** [unsigned int], [int], [unsigned short], [unsigned char] and [char] of the
    i386 host: reduction of an integer to the range of the type. *)
Definition u32 (z : Z) : Z := z mod 2 ^ 32.
Definition s32 (z : Z) : Z := (z + 2 ^ 31) mod 2 ^ 32 - 2 ^ 31.
Definition u16 (z : Z) : Z := z mod 2 ^ 16.
Definition u8 (z : Z) : Z := z mod 2 ^ 8.
Definition s8 (z : Z) : Z := (z + 2 ^ 7) mod 2 ^ 8 - 2 ^ 7.

Definition is_u32 (z : Z) : Prop := 0 <= z < 2 ^ 32.
Definition is_s32 (z : Z) : Prop := - 2 ^ 31 <= z < 2 ^ 31.
Definition is_u8 (z : Z) : Prop := 0 <= z < 2 ^ 8.

(** [#define divRoundDown] and [#define divRoundUp] of threads/utility.h; C's
    [/] and [%] truncate towards zero. *)
Definition divRoundDown (n s : Z) : Z := Z.quot n s.
Definition divRoundUp (n s : Z) : Z :=
  Z.quot n s + (if Z.rem n s >? 0 then 1 else 0).

(** ** Bytes of integers, least significant first *)

Fixpoint le_bytes (n : nat) (z : Z) : list Z :=
  match n with
  | O => []
  | S n' => z mod 2 ^ 8 :: le_bytes n' (z / 2 ^ 8)
  end.

Fixpoint le_value (bs : list Z) : Z :=
  match bs with
  | [] => 0
  | b :: bs' => b + 2 ^ 8 * le_value bs'
  end.

(** [l] with the bytes from [n] on replaced by [l'] ([bcopy] into a buffer). *)
Definition splice {A} (l : list A) (n : nat) (l' : list A) : list A :=
  take n l ++ l' ++ drop (n + length l') l.

(** The bytes [l[n .. n + k - 1]]. *)
Definition slice {A} (l : list A) (n k : nat) : list A := take k (drop n l).

(** ** Automation *)

Create HintDb nachos.

(** Run an [outcome] computation whose first step is known. *)
Ltac run_ok H := rewrite H; cbn [mbind outcome_bind].

(** Case on the boolean tests of the goal and turn them into inequalities. *)
Ltac bool_cases :=
  repeat match goal with
  | |- context [?a <? ?b] => destruct (Z.ltb_spec a b)
  | |- context [?a <=? ?b] => destruct (Z.leb_spec a b)
  | |- context [?a >? ?b] => rewrite (Z.gtb_ltb a b)
  | |- context [?a =? ?b] => destruct (Z.eqb_spec a b)
  end; cbn [andb orb negb] in *.

(** Invert an equation [bind m f = Ok x]. *)
Ltac inv_bind H :=
  match type of H with
  | mbind _ ?m = Ok _ =>
      let x := fresh "x" in let E := fresh "E" in
      destruct m as [x|] eqn:E; cbn [mbind outcome_bind] in H; [|discriminate H]
  end.

(** ** Lemmas on the error monad and on arrays *)

Lemma bind_Ok {A B} (a : A) (f : A -> outcome B) : (Ok a ≫= f) = f a.
Proof. reflexivity. Qed.

Lemma ASSERT_true (b : bool) : b = true -> ASSERT b = Ok tt.
Proof. by intros ->. Qed.

Lemma rd_lookup {A} (l : list A) (i : Z) (x : A) :
  0 <= i -> l !! Z.to_nat i = Some x -> rd l i = Ok x.
Proof. intros Hi Hl. unfold rd. rewrite Hl. by bool_cases; try lia. Qed.

Lemma rd_inv {A} (l : list A) (i : Z) (x : A) :
  rd l i = Ok x -> 0 <= i /\ l !! Z.to_nat i = Some x.
Proof.
  unfold rd. destruct (Z.leb_spec 0 i); [|done].
  destruct (l !! Z.to_nat i) eqn:E; intros [= ->]; done.
Qed.

Lemma rd_total {A} (l : list A) (i : Z) :
  0 <= i < Z.of_nat (length l) -> exists x, rd l i = Ok x /\ l !! Z.to_nat i = Some x.
Proof.
  intros Hi. destruct (lookup_lt_is_Some_2 l (Z.to_nat i)) as [x Hx]; [lia|].
  exists x. split; [|done]. apply rd_lookup; [lia|done].
Qed.

Lemma wr_ok {A} (l : list A) (i : Z) (x : A) :
  0 <= i < Z.of_nat (length l) -> wr l i x = Ok (<[Z.to_nat i := x]> l).
Proof. intros Hi. unfold wr. by bool_cases; try lia. Qed.

Lemma wr_inv {A} (l l' : list A) (i : Z) (x : A) :
  wr l i x = Ok l' -> 0 <= i < Z.of_nat (length l) /\ l' = <[Z.to_nat i := x]> l.
Proof.
  unfold wr. destruct (Z.leb_spec 0 i), (Z.ltb_spec i (Z.of_nat (length l)));
    cbn; intros [= <-]; auto with lia.
Qed.

(** The invariant rule of the for loop: it returns, and the invariant holds at
    its upper bound. *)
(** Loops with bodies that do the same. *)
Lemma for_range_ext {St} lo hi (body body' : Z -> St -> outcome St) (s : St) :
  (forall i s, body i s = body' i s) -> for_range lo hi body s = for_range lo hi body' s.
Proof.
  intros E. unfold for_range. generalize (Z.to_nat (hi - lo)) as n. intros n. revert lo s.
  induction n as [|n IH]; intros lo s; [done|]. cbn [for_loop]. rewrite E. destruct (body' lo s); cbn; [apply IH|done].
Qed.

Lemma for_range_inv {St} (P : Z -> St -> Prop) lo hi body (s : St) :
  lo <= hi ->
  P lo s ->
  (forall i s, lo <= i < hi -> P i s -> exists s', body i s = Ok s' /\ P (i + 1) s') ->
  exists s', for_range lo hi body s = Ok s' /\ P hi s'.
Proof.
  intros Hle HP Hbody. unfold for_range.
  remember (Z.to_nat (hi - lo)) as n eqn:En.
  assert (Hhi : hi = lo + Z.of_nat n) by lia.
  clear En. revert lo s Hle HP Hbody Hhi.
  induction n as [|n IH]; intros lo s Hle HP Hbody Hhi; cbn.
  - exists s. replace hi with lo by lia. done.
  - destruct (Hbody lo s) as (s' & -> & HP'); [lia|done|]. cbn.
    apply (IH (lo + 1) s'); [lia|done| |lia].
    intros i s0 Hi. apply Hbody. lia.
Qed.

(** The rules of [wp]: sequencing, consequence, assertions and array accesses. *)
Lemma wp_bind {A B} (m : outcome A) (f : A -> outcome B) Q E :
  wp m (fun a => wp (f a) Q E) E -> wp (m ≫= f) Q E.
Proof. by destruct m. Qed.

Lemma wp_mono {A} (o : outcome A) (Q Q' : A -> Prop) (E E' : fault -> Prop) :
  wp o Q E -> (forall a, Q a -> Q' a) -> (forall f, E f -> E' f) -> wp o Q' E'.
Proof. destruct o; cbn; auto. Qed.

Lemma wp_ASSERT (b : bool) (Q : unit -> Prop) (E : fault -> Prop) :
  (b = true -> Q tt) -> (b = false -> E AssertFailed) -> wp (ASSERT b) Q E.
Proof. destruct b; cbn; auto. Qed.

Lemma wp_rd {A} (l : list A) i (Q : A -> Prop) E :
  0 <= i < Z.of_nat (length l) -> (forall x, l !! Z.to_nat i = Some x -> Q x) -> wp (rd l i) Q E.
Proof. intros Hi HQ. destruct (rd_total l i Hi) as (x & -> & Hx). by apply HQ. Qed.

Lemma wp_Ok {A} (o : outcome A) Q :
  wp o Q (fun _ => False) <-> exists a, o = Ok a /\ Q a.
Proof.
  destruct o as [a|f]; cbn; [split; [by exists a|by intros (? & [= <-] & ?)]|].
  split; [done|by intros (? & ? & _)].
Qed.

(** ** Lemmas on C integers *)

Lemma u32_range z : is_u32 (u32 z).
Proof. unfold is_u32, u32. apply Z.mod_pos_bound. lia. Qed.

Lemma s32_range z : is_s32 (s32 z).
Proof.
  unfold is_s32, s32. pose proof (Z.mod_pos_bound (z + 2 ^ 31) (2 ^ 32)). lia.
Qed.

Lemma u32_small z : is_u32 z -> u32 z = z.
Proof. intros H. by apply Z.mod_small. Qed.

Lemma s32_small z : is_s32 z -> s32 z = z.
Proof.
  unfold is_s32, s32. intros H. rewrite Z.mod_small; lia.
Qed.

Lemma u32_s32 z : u32 (s32 z) = u32 z.
Proof.
  unfold u32, s32. rewrite Zminus_mod_idemp_l. f_equal. lia.
Qed.

Lemma s32_u32 z : s32 (u32 z) = s32 z.
Proof.
  unfold u32, s32. by rewrite Zplus_mod_idemp_l.
Qed.

Lemma s32_eq_mod a b : a mod 2 ^ 32 = b mod 2 ^ 32 -> s32 a = s32 b.
Proof. intros H. rewrite <- (s32_u32 a), <- (s32_u32 b). unfold u32. by rewrite H. Qed.

Lemma is_s32_dec z : (- 2 ^ 31 <=? z) && (z <? 2 ^ 31) = true <-> is_s32 z.
Proof. unfold is_s32. rewrite andb_true_iff, Z.leb_le, Z.ltb_lt. done. Qed.

#[export] Hint Resolve u32_range s32_range : nachos.

Lemma divRoundUp_spec n s :
  0 <= n -> 0 < s -> n <= divRoundUp n s * s < n + s /\ 0 <= divRoundUp n s.
Proof.
  intros Hn Hs. unfold divRoundUp.
  rewrite Z.quot_div_nonneg, Z.rem_mod_nonneg by lia.
  pose proof (Z.div_mod n s ltac:(lia)). pose proof (Z.mod_pos_bound n s Hs).
  pose proof (Z.div_pos n s Hn Hs).
  rewrite Z.gtb_ltb. destruct (Z.ltb_spec 0 (n mod s)); nia.
Qed.

(** ** Lemmas on bytes *)

Lemma length_le_bytes n z : length (le_bytes n z) = n.
Proof. revert z. induction n; intros; cbn; auto. Qed.

Lemma le_bytes_u8 n z : Forall is_u8 (le_bytes n z).
Proof.
  revert z. induction n; intros; cbn; constructor; auto.
  unfold is_u8. apply Z.mod_pos_bound. lia.
Qed.

Lemma le_value_range bs :
  Forall is_u8 bs -> 0 <= le_value bs < 2 ^ (8 * Z.of_nat (length bs)).
Proof.
  induction 1 as [|b bs Hb _ IH]; cbn [le_value length].
  - done.
  - replace (8 * Z.of_nat (S (length bs))) with (8 + 8 * Z.of_nat (length bs)) by lia.
    rewrite Z.pow_add_r by lia. unfold is_u8 in Hb. lia.
Qed.

Lemma le_value_bytes n z : le_value (le_bytes n z) = z mod 2 ^ (8 * Z.of_nat n).
Proof.
  revert z. induction n as [|n IH]; intros z; cbn [le_value le_bytes].
  - by rewrite Z.mod_1_r.
  - rewrite IH. replace (8 * Z.of_nat (S n)) with (8 + 8 * Z.of_nat n) by lia.
    rewrite Z.pow_add_r by lia. rewrite Z.rem_mul_r by lia. lia.
Qed.

Lemma le_bytes_value bs :
  Forall is_u8 bs -> le_bytes (length bs) (le_value bs) = bs.
Proof.
  induction 1 as [|b bs Hb Hbs IH]; [done|].
  cbn [le_value length le_bytes]. unfold is_u8 in Hb.
  rewrite (Z.mul_comm (2 ^ 8)), Z_mod_plus_full, Z.div_add by lia.
  rewrite (Z.mod_small b), (Z.div_small b), Z.add_0_l by lia. by rewrite IH.
Qed.

(** ** Lemmas on splices and slices *)

Lemma length_splice {A} (l : list A) n l' :
  (n + length l' <= length l)%nat -> length (splice l n l') = length l.
Proof.
  intros. unfold splice. rewrite !length_app, length_take, length_drop. lia.
Qed.

Lemma splice_nil {A} (l : list A) n : splice l n [] = l.
Proof. unfold splice. cbn. by rewrite Nat.add_0_r, take_drop. Qed.

Lemma splice_insert {A} (l : list A) n x l' :
  (n < length l)%nat -> splice (<[n := x]> l) (S n) l' = splice l n (x :: l').
Proof.
  intros Hn. unfold splice. rewrite (take_S_r _ _ x) by (by apply list_lookup_insert_eq).
  rewrite take_insert_ge by lia. rewrite drop_insert_lt by lia. cbn [length app].
  rewrite <- app_assoc. cbn [app]. by rewrite Nat.add_succ_r.
Qed.

Lemma splice_insert_end {A} (l : list A) n x l' :
  (n + length l' < length l)%nat ->
  splice (<[(n + length l')%nat := x]> l) n l' = splice l n (l' ++ [x]).
Proof.
  intros Hn. unfold splice. rewrite take_insert_ge by lia. f_equal. rewrite <- app_assoc. f_equal.
  rewrite length_app. cbn [length app].
  rewrite (drop_S _ x) by (apply list_lookup_insert_eq; lia). rewrite drop_insert_lt by lia.
  do 2 f_equal. lia.
Qed.

Lemma lookup_splice_in {A} (l : list A) n l' i :
  (n <= length l)%nat -> (n <= i < n + length l')%nat ->
  splice l n l' !! i = l' !! (i - n)%nat.
Proof.
  intros Hn Hi. unfold splice.
  rewrite lookup_app_r by (rewrite length_take; lia).
  rewrite length_take, lookup_app_l by lia. f_equal. lia.
Qed.

Lemma lookup_splice_out {A} (l : list A) n l' i :
  (n + length l' <= length l)%nat -> (i < n \/ n + length l' <= i)%nat ->
  splice l n l' !! i = l !! i.
Proof.
  intros Hn [Hi|Hi]; unfold splice.
  - rewrite lookup_app_l by (rewrite length_take; lia). by apply lookup_take_lt.
  - rewrite lookup_app_r by (rewrite length_take; lia).
    rewrite length_take, lookup_app_r by lia. rewrite lookup_drop. f_equal. lia.
Qed.

Lemma length_slice {A} (l : list A) n k :
  (n + k <= length l)%nat -> length (slice l n k) = k.
Proof. intros. unfold slice. rewrite length_take, length_drop. lia. Qed.

Lemma slice_app_left {A} (l k : list A) n m : (n + m <= length l)%nat -> slice (l ++ k) n m = slice l n m.
Proof. intros H. unfold slice. rewrite drop_app_le by lia. rewrite take_app_le; [done|]. rewrite length_drop. lia. Qed.

Lemma slice_app_mid {A} (a b c : list A) n k : length a = n -> length b = k -> slice (a ++ b ++ c) n k = b.
Proof. intros <- <-. unfold slice. by rewrite drop_app_length, take_app_length. Qed.

Lemma slice_app_start {A} (b c : list A) k : length b = k -> slice (b ++ c) 0 k = b.
Proof. exact (slice_app_mid [] b c 0 k eq_refl). Qed.

Lemma slice_splice_same {A} (l : list A) n l' :
  (n + length l' <= length l)%nat -> slice (splice l n l') n (length l') = l'.
Proof.
  intros H. unfold slice, splice.
  rewrite drop_app_length' by (rewrite length_take; lia).
  by rewrite take_app_length.
Qed.

Lemma lookup_slice {A} (l : list A) n k i :
  (i < k)%nat -> slice l n k !! i = l !! (n + i)%nat.
Proof. intros. unfold slice. by rewrite lookup_take_lt, lookup_drop. Qed.

Lemma slice_splice_disjoint {A} (l : list A) n l' m k :
  (n + length l' <= length l)%nat -> (m + k <= n \/ n + length l' <= m)%nat ->
  slice (splice l n l') m k = slice l m k.
Proof.
  intros Hn Hd. apply list_eq. intros i.
  destruct (decide (i < k)%nat) as [Hi|Hi].
  - rewrite !lookup_slice by lia. apply lookup_splice_out; lia.
  - by rewrite !lookup_ge_None_2 by (unfold slice; rewrite length_take; lia).
Qed.

Lemma Forall_splice {A} (P : A -> Prop) l n l' :
  Forall P l -> Forall P l' -> Forall P (splice l n l').
Proof.
  intros. unfold splice. rewrite !Forall_app. auto using Forall_take, Forall_drop.
Qed.
