(* ===== verification/Allocator.v ===== *)
(** * The slot allocator interface

    Several parts of the kernel share out numbered slots (disk sectors,
    physical pages, process identifiers, semaphore identifiers) through a
    [BitMap].  This file states what they rely on: an abstract view of the
    allocator as a list of bits, the specification functions on that view
    ([first_clear], [count_clear], [take_slots]) and a typeclass whose laws
    relate the operations to the view.  [Bitmap.v] discharges the laws; the
    clients are proved against the class alone. *)

From S2P Require Import Prelude.

Local Open Scope Z_scope.

(** ** Specification functions on the abstract view *)

(** The position of the first clear bit. *)
Fixpoint first_clear (bs : list bool) : option nat :=
  match bs with
  | [] => None
  | false :: _ => Some O
  | true :: bs' => S <$> first_clear bs'
  end.

(** The number of clear bits. *)
Fixpoint count_clear (bs : list bool) : nat :=
  match bs with
  | [] => O
  | b :: bs' => ((if b then 0 else 1) + count_clear bs')%nat
  end.

(** [n] successive allocations: the slots handed out, in order, and the view
    that is left. *)
Fixpoint take_slots (n : nat) (bs : list bool) : list nat * list bool :=
  match n with
  | O => ([], bs)
  | S n' =>
      match first_clear bs with
      | None => ([], bs)
      | Some i =>
          let '(ks, bs') := take_slots n' (<[i := true]> bs) in (i :: ks, bs')
      end
  end.

(** ** The interface *)

Class Allocator (T : Type) := {
  al_wf : T -> Prop;
  al_bits : T -> list bool;
  al_Find : T -> outcome (Z * T);
  al_Clear : T -> Z -> outcome T;
  al_Test : T -> Z -> outcome bool;
  al_NumClear : T -> outcome Z;
}.

Class AllocatorLaws (T : Type) `{Allocator T} := {
  al_Find_free (t : T) (i : nat) :
    al_wf t -> first_clear (al_bits t) = Some i ->
    exists t', al_Find t = Ok (Z.of_nat i, t') /\ al_wf t' /\
               al_bits t' = <[i := true]> (al_bits t);
  al_Find_full (t : T) :
    al_wf t -> first_clear (al_bits t) = None -> al_Find t = Ok (-1, t);
  al_Clear_ok (t : T) (i : nat) :
    al_wf t -> (i < length (al_bits t))%nat ->
    exists t', al_Clear t (Z.of_nat i) = Ok t' /\ al_wf t' /\
               al_bits t' = <[i := false]> (al_bits t);
  al_Test_ok (t : T) (i : nat) (b : bool) :
    al_wf t -> al_bits t !! i = Some b -> al_Test t (Z.of_nat i) = Ok b;
  al_NumClear_ok (t : T) :
    al_wf t -> al_NumClear t = Ok (Z.of_nat (count_clear (al_bits t)));
}.

(** ** Lemmas on the specification functions *)

Lemma first_clear_Some bs i :
  first_clear bs = Some i <->
  bs !! i = Some false /\ forall j, (j < i)%nat -> bs !! j = Some true.
Proof.
  revert i. induction bs as [|b bs IH]; intros i; cbn.
  - split; [done|]. intros [H _]. by rewrite lookup_nil in H.
  - destruct b.
    + destruct i as [|i].
      * split; [|by intros [? _]]. by destruct (first_clear bs).
      * rewrite fmap_Some. setoid_rewrite IH. split.
        -- intros (k & [Hk Hj] & [= ->]). split; [done|].
           intros [|j] Hlt; [done|]. apply Hj. lia.
        -- intros [Hk Hj]. exists i. split; [|done]. split; [done|].
           intros j Hlt. apply (Hj (S j)). lia.
    + split; [intros [= <-]; split; [done|lia]|].
      intros [_ Hj]. destruct i as [|i]; [done|].
      specialize (Hj O ltac:(lia)). done.
Qed.

Lemma first_clear_None bs :
  first_clear bs = None <-> count_clear bs = O.
Proof.
  induction bs as [|[] bs IH]; cbn; [done| |done].
  rewrite fmap_None. apply IH.
Qed.

Lemma first_clear_None_lookup bs i :
  first_clear bs = None -> (i < length bs)%nat -> bs !! i = Some true.
Proof.
  revert i. induction bs as [|[] bs IH]; intros i; cbn; [lia| |done].
  rewrite fmap_None. intros Hn Hi. destruct i as [|i]; [done|].
  apply IH; [done|lia].
Qed.

Lemma first_clear_lt bs i : first_clear bs = Some i -> (i < length bs)%nat.
Proof. rewrite first_clear_Some. intros [H _]. by eapply lookup_lt_Some. Qed.

Lemma count_clear_insert_true bs i :
  bs !! i = Some false ->
  count_clear bs = S (count_clear (<[i := true]> bs)).
Proof.
  revert i. induction bs as [|b bs IH]; intros [|i] H; cbn in *; try done.
  - by injection H as ->.
  - rewrite (IH i H). apply Nat.add_succ_r.
Qed.

Lemma count_clear_insert_false bs i :
  bs !! i = Some true ->
  count_clear (<[i := false]> bs) = S (count_clear bs).
Proof.
  revert i. induction bs as [|b bs IH]; intros [|i] H; cbn in *; try done.
  - by injection H as ->.
  - pose proof (IH i H) as E. etransitivity; [|apply Nat.add_succ_r].
    f_equal. exact E.
Qed.

Lemma count_clear_replicate n : count_clear (replicate n false) = n.
Proof. induction n; cbn; auto. Qed.

(** What [take_slots] hands out: exactly [n] slots when that many are clear,
    all different, all clear before and all set after, and no other bit is
    touched. *)
Lemma take_slots_spec n bs ks bs' :
  take_slots n bs = (ks, bs') -> (n <= count_clear bs)%nat ->
  length ks = n /\ NoDup ks /\
  (forall i, i ∈ ks -> bs !! i = Some false) /\
  (forall j, bs' !! j = if decide (j ∈ ks) then Some true else bs !! j) /\
  length bs' = length bs /\
  count_clear bs = (n + count_clear bs')%nat.
Proof.
  revert bs ks bs'. induction n as [|n IH]; intros bs ks bs' H Hn; cbn in H.
  - injection H as <- <-. repeat split; auto using NoDup_nil_2; set_solver.
  - destruct (first_clear bs) as [i|] eqn:Ei.
    2:{ apply first_clear_None in Ei. lia. }
    destruct (take_slots n (<[i:=true]> bs)) as [ks0 bs0] eqn:E0.
    injection H as <- <-.
    pose proof (proj1 (first_clear_Some _ _) Ei) as [Hi _].
    pose proof (count_clear_insert_true bs i Hi) as Hc.
    destruct (IH _ _ _ E0) as (Hl & Hnd & Hin & Hlk & Hlen & Hcnt); [lia|].
    assert (Hnot : i ∉ ks0).
    { intros H%Hin. rewrite list_lookup_insert_eq in H; [done|].
      by eapply lookup_lt_Some. }
    split; [cbn; lia|]. split; [by constructor|]. split; [|split; [|split]].
    + intros j [->|Hj]%elem_of_cons; [done|].
      assert (j <> i) by (intros ->; done).
      rewrite <- (Hin j Hj). by rewrite list_lookup_insert_ne.
    + intros j. rewrite Hlk. destruct (decide (j = i)) as [->|Hne].
      * rewrite decide_False by done. rewrite decide_True by set_solver.
        apply list_lookup_insert_eq. by eapply lookup_lt_Some.
      * rewrite list_lookup_insert_ne by done.
        destruct (decide (j ∈ ks0)); [by rewrite decide_True by set_solver|].
        by rewrite decide_False by set_solver.
    + by rewrite Hlen, length_insert.
    + lia.
Qed.

Lemma take_slots_S n bs i :
  first_clear bs = Some i ->
  take_slots (S n) bs =
    (i :: (take_slots n (<[i := true]> bs)).1, (take_slots n (<[i := true]> bs)).2).
Proof. intros H. cbn. rewrite H. by destruct take_slots. Qed.

(** One more allocation at the end of a sequence. *)
Lemma take_slots_snoc n bs ks bs' i :
  take_slots n bs = (ks, bs') -> (n < count_clear bs)%nat ->
  first_clear bs' = Some i ->
  take_slots (S n) bs = (ks ++ [i], <[i := true]> bs').
Proof.
  revert bs ks bs'. induction n as [|n IH]; intros bs ks bs' H Hn Hi.
  - injection H as <- <-. cbn. by rewrite Hi.
  - destruct (first_clear bs) as [k|] eqn:Ek.
    2:{ apply first_clear_None in Ek. lia. }
    rewrite (take_slots_S _ _ k Ek) in H. injection H as <- <-.
    rewrite (take_slots_S _ _ k Ek).
    pose proof (proj1 (first_clear_Some _ _) Ek) as [Hk _].
    pose proof (count_clear_insert_true bs k Hk).
    rewrite (IH _ _ _ (surjective_pairing _)); [done|lia|done].
Qed.

(** Clearing a list of slots. *)
Definition clear_slots (ks : list nat) (bs : list bool) : list bool :=
  foldl (fun bs k => <[k := false]> bs) bs ks.

Lemma clear_slots_snoc ks k bs : clear_slots (ks ++ [k]) bs = <[k := false]> (clear_slots ks bs).
Proof. unfold clear_slots. by rewrite foldl_app. Qed.

Lemma length_clear_slots ks bs : length (clear_slots ks bs) = length bs.
Proof.
  revert bs. induction ks as [|k ks IH]; intros bs; [done|].
  unfold clear_slots in *. cbn. by rewrite IH, length_insert.
Qed.

Lemma lookup_clear_slots ks bs j :
  clear_slots ks bs !! j = if decide (j ∈ ks /\ (j < length bs)%nat) then Some false else bs !! j.
Proof.
  revert bs. induction ks as [|k ks IH]; intros bs; unfold clear_slots in *; cbn.
  - by rewrite decide_False by set_solver.
  - rewrite IH, length_insert. destruct (decide (j ∈ ks /\ _)) as [[H1 H2]|Hn].
    + by rewrite decide_True by set_solver.
    + destruct (decide (k = j)) as [<-|Hne].
      * destruct (decide (k < length bs)%nat).
        -- rewrite list_lookup_insert_eq by done. by rewrite decide_True by set_solver.
        -- rewrite decide_False by naive_solver. by rewrite list_insert_ge by lia.
      * rewrite list_lookup_insert_ne by done.
        rewrite decide_False; [done|]. intros [[->|?]%elem_of_cons ?]; naive_solver.
Qed.

(** Giving back the slots that were just handed out. *)
Lemma clear_take_slots n bs ks bs' :
  take_slots n bs = (ks, bs') -> (n <= count_clear bs)%nat -> clear_slots ks bs' = bs.
Proof.
  intros Hks Hn. destruct (take_slots_spec _ _ _ _ Hks Hn) as (_ & _ & Hfree & Hlook & Hlen & _).
  apply list_eq. intros j. rewrite lookup_clear_slots, Hlook. destruct (decide (j ∈ ks)) as [Hj|Hj].
  - rewrite (Hfree j Hj). rewrite decide_True; [done|]. split; [done|].
    rewrite Hlen. by eapply lookup_lt_Some, Hfree.
  - rewrite decide_False by tauto. done.
Qed.

#[export] Hint Resolve first_clear_lt : nachos.
