(* ===== verification/Bitmap.v ===== *)
(** * userprog/bitmap.h, userprog/bitmap.cc: the bitmap of slots

    [BitMap] keeps [numBits] bits in an array of 32-bit words.  The model keeps
    the words and the masks the code computes; the abstract view is the list of
    the [numBits] bits.  The theorems show that every operation implements its
    specification on that view, and the file ends with the instance of the
    allocator interface that the clients of the bitmap use. *)

From S2P Require Import Prelude Allocator.

Local Open Scope Z_scope.

Module BitMap.

Definition BitsInByte : Z := 8.
Definition BitsInWord : Z := 32.

Record t := mk {
  numBits : Z;          (* number of bits in the bitmap *)
  numWords : Z;         (* number of words of bitmap storage *)
  bmap : list Z;        (* unsigned int *map: bit storage *)
}.

(** [1 << (which % BitsInWord)], an [int]. *)
Definition mask (which : Z) : Z := s32 (Z.shiftl 1 (Z.rem which BitsInWord)).

Definition in_range (b : t) (which : Z) : bool :=
  (which >=? 0) && (which <? numBits b).

(** [map[which / BitsInWord] |= 1 << (which % BitsInWord)] *)
Definition Mark (b : t) (which : Z) : outcome t :=
  _ ← ASSERT (in_range b which);
  w ← rd (bmap b) (Z.quot which BitsInWord);
  ws ← wr (bmap b) (Z.quot which BitsInWord) (Z.lor w (u32 (mask which)));
  Ok (mk (numBits b) (numWords b) ws).

(** [map[which / BitsInWord] &= ~(1 << (which % BitsInWord))] *)
Definition Clear (b : t) (which : Z) : outcome t :=
  _ ← ASSERT (in_range b which);
  w ← rd (bmap b) (Z.quot which BitsInWord);
  ws ← wr (bmap b) (Z.quot which BitsInWord) (Z.land w (u32 (Z.lnot (mask which))));
  Ok (mk (numBits b) (numWords b) ws).

Definition Test (b : t) (which : Z) : outcome bool :=
  _ ← ASSERT (in_range b which);
  w ← rd (bmap b) (Z.quot which BitsInWord);
  Ok (negb (Z.land w (u32 (mask which)) =? 0)).

(** The storage [new unsigned int[numWords]] returns is not initialised: [raw]
    gives the words it happens to hold. *)
Definition BitMap (raw : Z -> Z) (nitems : Z) : outcome t :=
  let nw := divRoundUp nitems BitsInWord in
  let b := mk nitems nw ((fun i => u32 (raw i)) <$> seqZ 0 nw) in
  for_range 0 nitems (fun i b => Clear b i) b.

(** The loop of [Find], with [n] positions left to examine from [i] on. *)
Fixpoint Find_from (n : nat) (i : Z) (b : t) : outcome (Z * t) :=
  match n with
  | O => Ok (-1, b)
  | S n' =>
      busy ← Test b i;
      if busy : bool then Find_from n' (i + 1) b
      else b' ← Mark b i; Ok (i, b')
  end.

Definition Find (b : t) : outcome (Z * t) := Find_from (Z.to_nat (numBits b)) 0 b.

Definition NumClear (b : t) : outcome Z :=
  for_range 0 (numBits b)
    (fun i count => busy ← Test b i; Ok (if busy : bool then count else count + 1)) 0.

(** [(char * )map] seen as [numWords * sizeof(unsigned)] bytes of the
    little-endian host, as [WriteBack] passes it to [OpenFile::WriteAt]. *)
Definition to_bytes (b : t) : list Z := flat_map (le_bytes 4) (bmap b).

Fixpoint words_of_bytes (n : nat) (bs : list Z) : list Z :=
  match n with
  | O => []
  | S n' => le_value (take 4 bs) :: words_of_bytes n' (drop 4 bs)
  end.

(** [FetchFrom] overwrites the words with the bytes that were read. *)
Definition of_bytes (b : t) (bs : list Z) : t :=
  mk (numBits b) (numWords b) (words_of_bytes (Z.to_nat (numWords b)) bs).

(** ** The abstract view and the representation invariant *)

Definition bit_at (b : t) (i : nat) : bool :=
  Z.testbit (default 0 (bmap b !! (i / 32)%nat)) (Z.of_nat (i mod 32)).

Definition bits (b : t) : list bool := bit_at b <$> seq 0 (Z.to_nat (numBits b)).

Definition wf (b : t) : Prop :=
  0 <= numBits b /\ numWords b = divRoundUp (numBits b) BitsInWord /\
  Z.of_nat (length (bmap b)) = numWords b /\ Forall is_u32 (bmap b).

(** ** Sequences of operations *)

Inductive op := OMark (which : Z) | OClear (which : Z) | OTest (which : Z) | OFind | ONumClear.

(** What an operation returns: nothing, a boolean or an integer. *)
Inductive answer := ANone | ABool (v : bool) | AInt (z : Z).

Definition run_op (o : op) (b : t) : outcome (answer * t) :=
  match o with
  | OMark i => b' ← Mark b i; Ok (ANone, b')
  | OClear i => b' ← Clear b i; Ok (ANone, b')
  | OTest i => v ← Test b i; Ok (ABool v, b)
  | OFind => '(i, b') ← Find b; Ok (AInt i, b')
  | ONumClear => n ← NumClear b; Ok (AInt n, b)
  end.

(** The same on the list of bits: an index outside it is an assertion failure. *)
Definition spec_op (o : op) (bs : list bool) : outcome (answer * list bool) :=
  let ok (i : Z) := (0 <=? i) && (i <? Z.of_nat (length bs)) in
  match o with
  | OMark i =>
      if ok i then Ok (ANone, <[Z.to_nat i := true]> bs) else Fault AssertFailed
  | OClear i =>
      if ok i then Ok (ANone, <[Z.to_nat i := false]> bs) else Fault AssertFailed
  | OTest i =>
      if ok i then Ok (ABool (default false (bs !! Z.to_nat i)), bs) else Fault AssertFailed
  | OFind =>
      match first_clear bs with
      | Some k => Ok (AInt (Z.of_nat k), <[k := true]> bs)
      | None => Ok (AInt (-1), bs)
      end
  | ONumClear => Ok (AInt (Z.of_nat (count_clear bs)), bs)
  end.

(** Run a sequence of operations and collect the answers. *)
Fixpoint runs {St} (step : op -> St -> outcome (answer * St)) (os : list op) (s : St)
    : outcome (list answer * St) :=
  match os with
  | [] => Ok ([], s)
  | o :: os' =>
      '(r, s') ← step o s;
      '(rs, s'') ← runs step os' s';
      Ok (r :: rs, s'')
  end.

(** ** Masks *)

Lemma mask_u32 (i : nat) : u32 (mask (Z.of_nat i)) = 2 ^ Z.of_nat (i mod 32).
Proof.
  unfold mask, BitsInWord. rewrite u32_s32, Z.rem_mod_nonneg by lia.
  rewrite Z.shiftl_1_l. change 32 with (Z.of_nat 32). rewrite <- Nat2Z.inj_mod.
  apply u32_small. unfold is_u32.
  pose proof (Nat.mod_upper_bound i 32 ltac:(lia)).
  split; [lia|]. apply Z.pow_lt_mono_r; lia.
Qed.

Lemma lnot_mask_testbit (i : nat) (k : Z) :
  0 <= k < 32 ->
  Z.testbit (u32 (Z.lnot (mask (Z.of_nat i)))) k = negb (k =? Z.of_nat (i mod 32)).
Proof.
  intros Hk. unfold u32. rewrite Z.mod_pow2_bits_low by lia.
  rewrite Z.lnot_spec by lia. f_equal.
  rewrite <- (Z.mod_pow2_bits_low (mask (Z.of_nat i)) 32 k) by lia.
  change (mask (Z.of_nat i) mod 2 ^ 32) with (u32 (mask (Z.of_nat i))).
  rewrite mask_u32, Z.pow2_bits_eqb by lia. apply Z.eqb_sym.
Qed.

Lemma land_mask (w : Z) (k : nat) :
  negb (Z.land w (2 ^ Z.of_nat k) =? 0) = Z.testbit w (Z.of_nat k).
Proof.
  destruct (Z.eqb_spec (Z.land w (2 ^ Z.of_nat k)) 0) as [E|E]; cbn.
  - apply (f_equal (fun z => Z.testbit z (Z.of_nat k))) in E.
    rewrite Z.land_spec, Z.pow2_bits_true, andb_true_r, Z.bits_0 in E by lia. done.
  - symmetry. apply not_false_iff_true. intros Hf. apply E.
    apply Z.bits_inj'. intros n Hn. rewrite Z.land_spec, Z.bits_0.
    rewrite Z.pow2_bits_eqb by lia.
    destruct (Z.eqb_spec (Z.of_nat k) n) as [<-|]; [by rewrite Hf|apply andb_false_r].
Qed.

Lemma lor_u32 a b : is_u32 a -> is_u32 b -> is_u32 (Z.lor a b).
Proof.
  unfold is_u32. intros Ha Hb.
  assert (Hp : 0 <= Z.lor a b) by (apply Z.lor_nonneg; lia).
  split; [done|]. destruct (Z.eq_dec (Z.lor a b) 0) as [->|]; [lia|].
  apply Z.log2_lt_pow2; [lia|]. rewrite Z.log2_lor by lia.
  pose proof (Z.log2_lt_cancel a (2 ^ 32)). pose proof (Z.log2_lt_cancel b (2 ^ 32)).
  apply Z.max_lub_lt.
  - destruct (Z.eq_dec a 0) as [->|]; [done|]. apply Z.log2_lt_pow2; lia.
  - destruct (Z.eq_dec b 0) as [->|]; [done|]. apply Z.log2_lt_pow2; lia.
Qed.

Lemma land_u32 a b : is_u32 a -> is_u32 (Z.land a b).
Proof.
  unfold is_u32. intros Ha.
  assert (Z.land a b = Z.land a b mod 2 ^ 32) as ->.
  { rewrite <- Z.land_ones by lia. apply Z.bits_inj'. intros n Hn.
    rewrite !Z.land_spec. destruct (Z.ltb_spec n 32).
    - by rewrite Z.ones_spec_low, andb_true_r by lia.
    - rewrite Z.ones_spec_high, andb_false_r by lia.
      rewrite <- (Z.mod_small a (2 ^ 32)) by lia.
      by rewrite Z.mod_pow2_bits_high by lia. }
  apply Z.mod_pos_bound. lia.
Qed.

(** ** The words hold the bits *)

Lemma word_index (b : t) (i : nat) :
  wf b -> Z.of_nat i < numBits b -> (i / 32 < length (bmap b))%nat.
Proof.
  intros (Hn & Hw & Hl & _) Hi.
  pose proof (divRoundUp_spec (numBits b) BitsInWord Hn ltac:(done)) as [Hd _].
  rewrite <- Hw, <- Hl in Hd. unfold BitsInWord in Hd.
  apply Nat.Div0.div_lt_upper_bound. lia.
Qed.

Lemma word_lookup (b : t) (i : nat) :
  wf b -> Z.of_nat i < numBits b ->
  exists w, bmap b !! (i / 32)%nat = Some w /\ is_u32 w /\
            rd (bmap b) (Z.quot (Z.of_nat i) BitsInWord) = Ok w.
Proof.
  intros Hwf Hi. destruct (lookup_lt_is_Some_2 _ _ (word_index b i Hwf Hi)) as [w Hw].
  exists w. destruct Hwf as (_ & _ & _ & Hf).
  split; [done|]. split; [by eapply Forall_lookup_1|].
  assert (Z.quot (Z.of_nat i) BitsInWord = Z.of_nat (i / 32)) as ->.
  { unfold BitsInWord. rewrite Z.quot_div_nonneg by lia.
    change 32 with (Z.of_nat 32). by rewrite <- Nat2Z.inj_div. }
  apply rd_lookup; [lia|]. by rewrite Nat2Z.id.
Qed.

Lemma in_range_true (b : t) (i : nat) :
  Z.of_nat i < numBits b -> in_range b (Z.of_nat i) = true.
Proof. intros. unfold in_range. rewrite Z.geb_leb. by bool_cases; try lia. Qed.

Lemma bits_length (b : t) : length (bits b) = Z.to_nat (numBits b).
Proof. unfold bits. by rewrite length_fmap, length_seq. Qed.

Lemma bits_lookup (b : t) (i : nat) :
  Z.of_nat i < numBits b -> bits b !! i = Some (bit_at b i).
Proof.
  intros. unfold bits. rewrite list_lookup_fmap, lookup_seq_lt by lia. done.
Qed.

(** Storing word [w'] at bit [i]'s position changes the view at [i] only, when
    [w'] differs from the old word in that bit at most. *)
Lemma bits_update (b : t) (i : nat) (w w' : Z) (v : bool) :
  wf b -> Z.of_nat i < numBits b -> bmap b !! (i / 32)%nat = Some w -> is_u32 w' ->
  (forall k, 0 <= k < 32 -> Z.testbit w' k = if k =? Z.of_nat (i mod 32) then v else Z.testbit w k) ->
  let b' := mk (numBits b) (numWords b) (<[(i / 32)%nat := w']> (bmap b)) in
  wf b' /\ bits b' = <[i := v]> (bits b).
Proof.
  intros Hwf Hi Hw Hw' Hbit b'. split.
  - destruct Hwf as (Hn & Hnw & Hl & Hf). unfold b', wf; cbn.
    rewrite length_insert. auto using Forall_insert.
  - apply list_eq. intros j. destruct (decide (j < length (bits b))%nat) as [Hj|Hj].
    2:{ rewrite !lookup_ge_None_2; [done|rewrite length_insert; lia|].
        rewrite bits_length in *. cbn. lia. }
    rewrite bits_length in Hj.
    rewrite (bits_lookup b') by (cbn; lia).
    pose proof (word_index b i Hwf Hi) as Hlt.
    pose proof (Nat.mod_upper_bound j 32 ltac:(lia)).
    destruct (decide (i = j)) as [->|Hne].
    + rewrite list_lookup_insert_eq by (rewrite bits_length; lia). f_equal.
      unfold bit_at, b'; cbn [bmap]. rewrite list_lookup_insert_eq by done.
      cbn [default]. rewrite Hbit by lia. by rewrite Z.eqb_refl.
    + rewrite list_lookup_insert_ne, bits_lookup by (done || lia). f_equal.
      unfold bit_at, b'; cbn [bmap].
      destruct (decide (i / 32 = j / 32)%nat) as [E|E].
      * rewrite <- E, list_lookup_insert_eq by done. cbn [default]. rewrite Hw.
        cbn [default]. rewrite Hbit by lia.
        destruct (Z.eqb_spec (Z.of_nat (j mod 32)) (Z.of_nat (i mod 32))); [|done].
        exfalso. apply Hne. rewrite (Nat.div_mod_eq i 32), (Nat.div_mod_eq j 32). lia.
      * by rewrite list_lookup_insert_ne.
Qed.

(** ** The operations implement their specification *)

Lemma word_of_bit (i : nat) : Z.to_nat (Z.quot (Z.of_nat i) BitsInWord) = (i / 32)%nat.
Proof.
  unfold BitsInWord. rewrite Z.quot_div_nonneg by lia.
  change 32 with (Z.of_nat 32). rewrite <- Nat2Z.inj_div. lia.
Qed.

(** The common shape of [Mark] and [Clear]: bit [i]'s word goes through [f],
    which sets that bit to [v] and keeps the others. *)
Lemma store_spec (b : t) (i : nat) (f : Z -> Z) (v : bool) :
  wf b -> Z.of_nat i < numBits b ->
  (forall w, is_u32 w -> is_u32 (f w) /\ forall k, 0 <= k < 32 ->
     Z.testbit (f w) k = if k =? Z.of_nat (i mod 32) then v else Z.testbit w k) ->
  exists b',
    (_ ← ASSERT (in_range b (Z.of_nat i));
     w ← rd (bmap b) (Z.quot (Z.of_nat i) BitsInWord);
     ws ← wr (bmap b) (Z.quot (Z.of_nat i) BitsInWord) (f w);
     Ok (mk (numBits b) (numWords b) ws)) = Ok b' /\
    wf b' /\ numBits b' = numBits b /\ bits b' = <[i := v]> (bits b).
Proof.
  intros Hwf Hi Hf. destruct (word_lookup b i Hwf Hi) as (w & Hw & Hu & Hrd).
  rewrite in_range_true by done. cbn [ASSERT mbind outcome_bind].
  rewrite Hrd. cbn [mbind outcome_bind].
  apply rd_inv in Hrd as [Hq Hl]. rewrite wr_ok.
  2:{ split; [done|]. apply lookup_lt_Some in Hl. lia. }
  cbn [mbind outcome_bind]. eexists. split; [done|]. rewrite word_of_bit.
  destruct (Hf w Hu) as [Hfw Hbit].
  destruct (bits_update b i w (f w) v) as [Hwf' Hb']; done.
Qed.

Lemma Mark_spec (b : t) (i : nat) :
  wf b -> Z.of_nat i < numBits b ->
  exists b', Mark b (Z.of_nat i) = Ok b' /\ wf b' /\ numBits b' = numBits b /\
             bits b' = <[i := true]> (bits b).
Proof.
  intros Hwf Hi. apply (store_spec b i (fun w => Z.lor w (u32 (mask (Z.of_nat i))))); auto.
  intros w Hw. split; [auto using lor_u32 with nachos|].
  intros k Hk. rewrite Z.lor_spec, mask_u32, Z.pow2_bits_eqb by lia.
  rewrite (Z.eqb_sym (Z.of_nat (i mod 32)) k).
  destruct (k =? Z.of_nat (i mod 32)); auto using orb_true_r, orb_false_r.
Qed.

Lemma Clear_spec (b : t) (i : nat) :
  wf b -> Z.of_nat i < numBits b ->
  exists b', Clear b (Z.of_nat i) = Ok b' /\ wf b' /\ numBits b' = numBits b /\
             bits b' = <[i := false]> (bits b).
Proof.
  intros Hwf Hi.
  apply (store_spec b i (fun w => Z.land w (u32 (Z.lnot (mask (Z.of_nat i)))))); auto.
  intros w Hw. split; [auto using land_u32|].
  intros k Hk. rewrite Z.land_spec, lnot_mask_testbit by lia.
  destruct (k =? Z.of_nat (i mod 32)); auto using andb_true_r, andb_false_r.
Qed.

Lemma Test_spec (b : t) (i : nat) :
  wf b -> Z.of_nat i < numBits b -> Test b (Z.of_nat i) = Ok (bit_at b i).
Proof.
  intros Hwf Hi. destruct (word_lookup b i Hwf Hi) as (w & Hw & Hu & Hrd).
  unfold Test. rewrite in_range_true by done. cbn [ASSERT mbind outcome_bind].
  rewrite Hrd. cbn [mbind outcome_bind]. rewrite mask_u32, land_mask.
  unfold bit_at. by rewrite Hw.
Qed.

(** An index outside the bitmap never reaches the storage. *)
Lemma Mark_out_of_range (b : t) (which : Z) :
  which < 0 \/ numBits b <= which -> Mark b which = Fault AssertFailed.
Proof.
  intros H. unfold Mark, in_range. rewrite Z.geb_leb. by bool_cases; try lia.
Qed.

Lemma Find_from_spec (b : t) (i n : nat) :
  wf b -> Z.of_nat (i + n) = numBits b ->
  match first_clear (drop i (bits b)) with
  | None => Find_from n (Z.of_nat i) b = Ok (-1, b)
  | Some k => exists b', Find_from n (Z.of_nat i) b = Ok (Z.of_nat (i + k), b') /\
                wf b' /\ numBits b' = numBits b /\
                bits b' = <[(i + k)%nat := true]> (bits b)
  end.
Proof.
  intros Hwf. revert i. induction n as [|n IH]; intros i Hn; cbn [Find_from].
  - rewrite drop_ge by (rewrite bits_length; lia). done.
  - rewrite (drop_S (bits b) (bit_at b i)) by (apply bits_lookup; lia).
    rewrite Test_spec by (done || lia). cbn [mbind outcome_bind first_clear].
    destruct (bit_at b i).
    + specialize (IH (S i) ltac:(lia)).
      replace (Z.of_nat i + 1) with (Z.of_nat (S i)) by lia.
      destruct (first_clear (drop (S i) (bits b))) as [k|]; cbn [fmap option_fmap option_map].
      * by rewrite <- plus_n_Sm.
      * done.
    + destruct (Mark_spec b i) as (b' & -> & Hb'); [done|lia|].
      rewrite Nat.add_0_r. exists b'. done.
Qed.

Lemma Find_spec (b : t) :
  wf b ->
  match first_clear (bits b) with
  | None => Find b = Ok (-1, b)
  | Some k => exists b', Find b = Ok (Z.of_nat k, b') /\ wf b' /\
                numBits b' = numBits b /\ bits b' = <[k := true]> (bits b)
  end.
Proof.
  intros Hwf. unfold Find. change 0 with (Z.of_nat 0).
  apply (Find_from_spec b 0 (Z.to_nat (numBits b)) Hwf). destruct Hwf. lia.
Qed.

Lemma count_clear_app l1 l2 :
  count_clear (l1 ++ l2) = (count_clear l1 + count_clear l2)%nat.
Proof. induction l1; cbn; lia. Qed.

Lemma NumClear_spec (b : t) :
  wf b -> NumClear b = Ok (Z.of_nat (count_clear (bits b))).
Proof.
  intros Hwf. pose proof Hwf as (Hn & _). unfold NumClear.
  destruct (for_range_inv (fun i c => c = Z.of_nat (count_clear (take (Z.to_nat i) (bits b))))
    0 (numBits b) (fun i count => busy ← Test b i;
                     Ok (if busy : bool then count else count + 1)) 0)
    as (c & -> & ->); [done|done| |].
  - intros i c Hi ->.
    pose proof (Test_spec b (Z.to_nat i) Hwf ltac:(lia)) as HT.
    rewrite Z2Nat.id in HT by lia. rewrite HT. cbn [mbind outcome_bind].
    eexists. split; [done|].
    replace (Z.to_nat (i + 1)) with (S (Z.to_nat i)) by lia.
    rewrite (take_S_r _ _ (bit_at b (Z.to_nat i))) by (apply bits_lookup; lia).
    rewrite count_clear_app. cbn. destruct (bit_at b (Z.to_nat i)); lia.
  - rewrite take_ge; [done|]. rewrite bits_length. lia.
Qed.

(** The constructor clears every bit, whatever the fresh storage held. *)
Lemma BitMap_spec (raw : Z -> Z) (n : Z) :
  0 <= n ->
  exists b, BitMap raw n = Ok b /\ wf b /\ numBits b = n /\
            bits b = replicate (Z.to_nat n) false.
Proof.
  intros Hn. unfold BitMap.
  pose proof (divRoundUp_spec n BitsInWord Hn ltac:(done)) as [_ Hd].
  destruct (for_range_inv (fun i b => wf b /\ numBits b = n /\
     forall j, (j < Z.to_nat i)%nat -> bits b !! j = Some false)
    0 n (fun i b => Clear b i)
    (mk n (divRoundUp n BitsInWord) ((fun i => u32 (raw i)) <$> seqZ 0 (divRoundUp n BitsInWord))))
    as (b & -> & Hwf & Hnb & Hb); [done| | |].
  - split; [|split; [done|lia]]. split; [done|]. split; [done|]. cbn.
    rewrite length_fmap, length_seqZ. split; [lia|].
    apply Forall_fmap, Forall_true. intros. apply u32_range.
  - intros i b Hi (Hwf & Hnb & Hb).
    destruct (Clear_spec b (Z.to_nat i)) as (b' & Hc & Hwf' & Hnb' & Hb'); [done|lia|].
    rewrite Z2Nat.id in Hc by lia. exists b'. split; [done|]. split; [done|].
    split; [congruence|]. intros j Hj. rewrite Hb'.
    destruct (decide (Z.to_nat i = j)) as [<-|].
    + rewrite list_lookup_insert_eq; [done|]. rewrite bits_length. lia.
    + rewrite list_lookup_insert_ne by done. apply Hb. lia.
  - exists b. split; [done|]. split; [done|]. split; [done|].
    apply list_eq. intros j. destruct (decide (j < Z.to_nat n)%nat).
    + rewrite Hb, lookup_replicate_2 by done. done.
    + rewrite !lookup_ge_None_2; [done|rewrite length_replicate; lia|].
      rewrite bits_length. lia.
Qed.

(** ** The byte image *)

Lemma words_of_bytes_app ws rest :
  Forall is_u32 ws ->
  words_of_bytes (length ws) (flat_map (le_bytes 4) ws ++ rest) = ws.
Proof.
  induction 1 as [|w ws Hw _ IH]; [done|].
  cbn [length flat_map]. rewrite <- app_assoc. cbn [words_of_bytes]. rewrite take_app_length', drop_app_length'
    by (by rewrite length_le_bytes).
  rewrite IH, le_value_bytes. by rewrite Z.mod_small.
Qed.

Lemma length_to_bytes (b : t) :
  length (to_bytes b) = (4 * length (bmap b))%nat.
Proof.
  unfold to_bytes. induction (bmap b) as [|w ws IH]; [done|].
  cbn [length flat_map]. rewrite length_app, length_le_bytes, IH. lia.
Qed.

Lemma to_bytes_u8 (b : t) : Forall is_u8 (to_bytes b).
Proof.
  unfold to_bytes. induction (bmap b) as [|w ws IH]; [constructor|].
  cbn [flat_map]. apply Forall_app; auto using le_bytes_u8.
Qed.

(** Fetching a bitmap of the same size from the bytes another one wrote back
    restores it, whatever follows those bytes in the file. *)
Lemma of_to_bytes (b c : t) (rest : list Z) :
  wf b -> numBits c = numBits b -> numWords c = numWords b ->
  of_bytes c (to_bytes b ++ rest) = b.
Proof.
  intros (_ & _ & Hl & Hf) Hn Hw. unfold of_bytes, to_bytes.
  rewrite Hn, Hw, <- Hl, Nat2Z.id, words_of_bytes_app by done. rewrite Hl. by destruct b.
Qed.

(** ** The allocator interface *)

#[export] Instance bitmap_allocator : Allocator t := {|
  al_wf := wf; al_bits := bits; al_Find := Find; al_Clear := Clear;
  al_Test := Test; al_NumClear := NumClear |}.

#[export] Instance bitmap_laws : AllocatorLaws t.
Proof.
  split; cbn.
  - intros b i Hwf Hi. pose proof (Find_spec b Hwf) as H. rewrite Hi in H.
    destruct H as (b' & ? & ? & _ & ?). eauto.
  - intros b Hwf Hn. pose proof (Find_spec b Hwf) as H. by rewrite Hn in H.
  - intros b i Hwf Hi. rewrite bits_length in Hi.
    destruct (Clear_spec b i Hwf) as (b' & ? & ? & _ & ?); [lia|]. eauto.
  - intros b i v Hwf Hv. pose proof (lookup_lt_Some _ _ _ Hv) as Hi.
    rewrite bits_length in Hi. rewrite bits_lookup in Hv by lia.
    injection Hv as <-. apply Test_spec; [done|lia].
  - apply NumClear_spec.
Qed.

(** ** Refinement *)

Lemma Clear_out_of_range (b : t) (which : Z) :
  which < 0 \/ numBits b <= which -> Clear b which = Fault AssertFailed.
Proof.
  intros H. unfold Clear, in_range. rewrite Z.geb_leb. by bool_cases; try lia.
Qed.

Lemma Test_out_of_range (b : t) (which : Z) :
  which < 0 \/ numBits b <= which -> Test b which = Fault AssertFailed.
Proof.
  intros H. unfold Test, in_range. rewrite Z.geb_leb. by bool_cases; try lia.
Qed.

(** The bits after an operation are those of the specification, which fails
    when the operation does. *)
Definition simulates (r : outcome (answer * t)) (r' : outcome (answer * list bool)) : Prop :=
  match r, r' with
  | Ok (a, b), Ok (a', bs) => a = a' /\ wf b /\ bits b = bs
  | Fault f, Fault f' => f = f'
  | _, _ => False
  end.

Lemma run_op_spec o b : wf b -> simulates (run_op o b) (spec_op o (bits b)).
Proof.
  intros Hwf. pose proof Hwf as (Hn & _).
  destruct o as [i|i|i| |]; cbn [run_op spec_op];
    try (rewrite bits_length, Z2Nat.id by done;
         destruct (Z.leb_spec 0 i), (Z.ltb_spec i (numBits b)); cbn [andb]).
  all: try (first [rewrite Mark_out_of_range by lia | rewrite Clear_out_of_range by lia
                  |rewrite Test_out_of_range by lia]; done).
  - destruct (Mark_spec b (Z.to_nat i) Hwf) as (b' & H' & ? & _ & ?); [lia|].
    rewrite Z2Nat.id in H' by done. rewrite H'. cbn. auto.
  - destruct (Clear_spec b (Z.to_nat i) Hwf) as (b' & H' & ? & _ & ?); [lia|].
    rewrite Z2Nat.id in H' by done. rewrite H'. cbn. auto.
  - pose proof (Test_spec b (Z.to_nat i) Hwf ltac:(lia)) as H'.
    rewrite Z2Nat.id in H' by done. rewrite H', bits_lookup by lia. cbn. auto.
  - pose proof (Find_spec b Hwf) as H'. destruct (first_clear (bits b)).
    + destruct H' as (b' & -> & ? & _ & ?). cbn. auto.
    + rewrite H'. cbn. auto.
  - rewrite NumClear_spec by done. cbn. auto.
Qed.

Lemma runs_spec os : forall b, wf b ->
  match runs run_op os b, runs spec_op os (bits b) with
  | Ok (rs, b'), Ok (rs', bs) => rs = rs' /\ wf b' /\ bits b' = bs
  | Fault f, Fault f' => f = f'
  | _, _ => False
  end.
Proof.
  induction os as [|o os IH]; intros b Hwf; cbn [runs]; [done|].
  pose proof (run_op_spec o b Hwf) as H. unfold simulates in H.
  destruct (run_op o b) as [[a b']|], (spec_op o (bits b)) as [[a' bs]|]; try done.
  destruct H as (-> & Hwf' & <-). cbn [mbind outcome_bind].
  specialize (IH b' Hwf').
  destruct (runs run_op os b') as [[? ?]|], (runs spec_op os (bits b')) as [[? ?]|];
    cbn; try done. destruct IH as (-> & ? & ?). done.
Qed.

(** C36: a bitmap made by the constructor over [nitems] slots behaves, under any
    sequence of [Mark], [Clear], [Test], [Find] and [NumClear] calls, as the
    list of [nitems] clear bits: the same answers, the same assertion failures
    for indices out of range, and never an access outside the word array,
    whatever the fresh storage held. *)
Theorem bitmap_refines_bits (raw : Z -> Z) (nitems : Z) (os : list op) :
  0 <= nitems ->
  match (b ← BitMap raw nitems; runs run_op os b),
        runs spec_op os (replicate (Z.to_nat nitems) false) with
  | Ok (rs, b), Ok (rs', bs) => rs = rs' /\ wf b /\ bits b = bs
  | Fault f, Fault f' => f = f'
  | _, _ => False
  end.
Proof.
  intros Hn. destruct (BitMap_spec raw nitems Hn) as (b & -> & Hwf & _ & <-).
  exact (runs_spec os b Hwf).
Qed.

(** C36 at a concrete input: 40 slots (two words), a full scan and a failure. *)
Lemma bitmap_refines_bits_witness :
  match (b ← BitMap (fun i => i * 77777) 40; runs run_op [OFind; OFind; OClear 0; OMark 39; OFind; ONumClear; OTest 40] b),
        runs spec_op [OFind; OFind; OClear 0; OMark 39; OFind; ONumClear; OTest 40] (replicate (Z.to_nat 40) false) with
  | Ok (rs, b), Ok (rs', bs) => rs = rs' /\ wf b /\ bits b = bs
  | Fault f, Fault f' => f = f'
  | _, _ => False
  end.
Proof. apply (bitmap_refines_bits (fun i => i * 77777) 40). lia. Defined.

End BitMap.

#[export] Existing Instance BitMap.bitmap_allocator.
#[export] Existing Instance BitMap.bitmap_laws.
