(* ===== verification/Lists.v ===== *)
(** * threads/list.h, threads/list.cc: singly linked lists

    The lists of the kernel (ready list, semaphore queues, pending interrupts)
    are chains of [ListElement]s on the C++ heap with a pointer to the first
    and to the last element.  The model keeps the heap, the pointers, and every
    allocation and deallocation.  [rep] relates such a list to the sequence of
    its (key, item) pairs; the theorems show that each operation implements the
    obvious operation on sequences, frees what it removes, and leaves the rest
    of the heap alone, so that several lists can share one heap. *)

From S2P Require Import Prelude.
From stdpp Require Import sorting.

Local Open Scope Z_scope.

Module LinkedList.

(** Addresses are integers, [NULL] is zero; the items are [void *]. *)
Definition NULL : Z := 0.

Record ListElement := mkElem { next : Z; key : Z; item : Z }.

Abbreviation heap := (gmap Z ListElement).

(** The address operator [new] returns: any address that is neither null nor
    in use.  The theorems hold for every such allocator. *)
Class HeapAlloc := {
  new_addr : heap -> Z;
  new_addr_fresh (h : heap) : new_addr h <> NULL /\ h !! new_addr h = None;
}.

Record t := mkList { first : Z; last : Z }.

Definition deref (h : heap) (p : Z) : outcome ListElement :=
  match h !! p with
  | Some e => if p =? NULL then Fault BadAccess else Ok e
  | None => Fault BadAccess
  end.

Definition set_next (e : ListElement) (n : Z) : ListElement :=
  mkElem n (key e) (item e).

(** [List::List] *)
Definition List_new : t := mkList NULL NULL.

(** [ListElement::ListElement] *)
Definition new_element (itemPtr sortKey : Z) : ListElement :=
  mkElem NULL sortKey itemPtr.

Definition IsEmpty (l : t) : bool := first l =? NULL.

Section Operations.
Context `{HeapAlloc}.

Definition Append (h : heap) (l : t) (it : Z) : outcome (heap * t) :=
  let element := new_addr h in
  let h := <[element := new_element it 0]> h in
  if IsEmpty l then Ok (h, mkList element element)
  else
    e ← deref h (last l);
    Ok (<[last l := set_next e element]> h, mkList (first l) element).

Definition Prepend (h : heap) (l : t) (it : Z) : outcome (heap * t) :=
  let element := new_addr h in
  let h := <[element := new_element it 0]> h in
  if IsEmpty l then Ok (h, mkList element element)
  else
    e ← deref h element;
    Ok (<[element := set_next e (first l)]> h, mkList element (last l)).

(** The for loop of [SortedInsert], standing at [ptr]; it links [element] in
    and returns the new value of [last].  [fuel] bounds the iterations. *)
Fixpoint sorted_walk (fuel : nat) (h : heap) (ptr element sortKey lst : Z)
    : outcome (heap * Z) :=
  match fuel with
  | O => Fault OutOfFuel
  | S fuel' =>
      p ← deref h ptr;
      if next p =? NULL then
        e ← deref h lst;
        Ok (<[lst := set_next e element]> h, element)
      else
        n ← deref h (next p);
        if sortKey <? key n then
          e ← deref h element;
          Ok (<[ptr := set_next p element]> (<[element := set_next e (next p)]> h), lst)
        else sorted_walk fuel' h (next p) element sortKey lst
  end.

Definition SortedInsert (h : heap) (l : t) (it sortKey : Z) : outcome (heap * t) :=
  let element := new_addr h in
  let h := <[element := new_element it sortKey]> h in
  if IsEmpty l then Ok (h, mkList element element)
  else
    f ← deref h (first l);
    if sortKey <? key f then
      e ← deref h element;
      Ok (<[element := set_next e (first l)]> h, mkList element (last l))
    else
      '(h', lst) ← sorted_walk (size h) h (first l) element sortKey (last l);
      Ok (h', mkList (first l) lst).

(** Returns the item ([NULL] for an empty list), the key it stores through
    [keyPtr] when there is one, the heap and the list. *)
Definition SortedRemove (h : heap) (l : t) : outcome (Z * option Z * heap * t) :=
  if IsEmpty l then Ok (NULL, None, h, l)
  else
    e ← deref h (first l);
    let l' := if first l =? last l then mkList NULL NULL
              else mkList (next e) (last l) in
    Ok (item e, Some (key e), delete (first l) h, l').

(** [SortedRemove(NULL)]: the key is dropped. *)
Definition Remove (h : heap) (l : t) : outcome (Z * heap * t) :=
  '(thing, _, h', l') ← SortedRemove h l;
  Ok (thing, h', l').

(** [List::~List]: [while (Remove() != NULL) ;] *)
Fixpoint Destroy (fuel : nat) (h : heap) (l : t) : outcome (heap * t) :=
  match fuel with
  | O => Fault OutOfFuel
  | S fuel' =>
      '(thing, h', l') ← Remove h l;
      if thing =? NULL then Ok (h', l') else Destroy fuel' h' l'
  end.

Definition List_destroy (h : heap) (l : t) : outcome (heap * t) :=
  Destroy (S (size h)) h l.

(** [Mapcar] calls [func] on the items, which may change the caller's state. *)
Fixpoint Mapcar_from {St} (fuel : nat) (func : Z -> St -> outcome St)
    (h : heap) (ptr : Z) (s : St) : outcome St :=
  match fuel with
  | O => Fault OutOfFuel
  | S fuel' =>
      if ptr =? NULL then Ok s
      else
        e ← deref h ptr;
        s' ← func (item e) s;
        Mapcar_from fuel' func h (next e) s'
  end.

Definition Mapcar {St} (func : Z -> St -> outcome St) (h : heap) (l : t) (s : St)
    : outcome St :=
  Mapcar_from (S (size h)) func h (first l) s.

End Operations.

(** ** The sequence a list represents *)

(** [chain h p cs q]: following [next] from [p] one meets the cells [cs]
    (address, key, item) and arrives at [q]. *)
Fixpoint chain (h : heap) (p : Z) (cs : list (Z * (Z * Z))) (q : Z) : Prop :=
  match cs with
  | [] => p = q
  | (a, (k, x)) :: cs' =>
      p = a /\ a <> NULL /\ exists n, h !! a = Some (mkElem n k x) /\ chain h n cs' q
  end.

(** The list [l] holds the pairs [xs] in the cells [addrs]. *)
Definition rep (h : heap) (l : t) (addrs : list Z) (xs : list (Z * Z)) : Prop :=
  exists cs, cs.*1 = addrs /\ cs.*2 = xs /\ NoDup addrs /\
    chain h (first l) cs NULL /\ last l = default NULL (list.last addrs).

(** The specification of [SortedInsert]: before the first greater key. *)
Fixpoint insert_sorted {A} (k : Z) (x : A) (xs : list (Z * A)) : list (Z * A) :=
  match xs with
  | [] => [(k, x)]
  | (k', x') :: xs' =>
      if k <? k' then (k, x) :: (k', x') :: xs' else (k', x') :: insert_sorted k x xs'
  end.

(** The same on cells, with their addresses. *)
Fixpoint insert_cell (c : Z * (Z * Z)) (cs : list (Z * (Z * Z))) : list (Z * (Z * Z)) :=
  match cs with
  | [] => [c]
  | c' :: cs' => if c.2.1 <? c'.2.1 then c :: c' :: cs' else c' :: insert_cell c cs'
  end.

(** ** Sequences of operations *)

Inductive op :=
| OAppend (it : Z)
| OPrepend (it : Z)
| OSortedInsert (it k : Z)
| OSortedRemove
| ORemove
| OIsEmpty
| OMapcar.

(** What an operation shows to its caller: the item (and the key) of a removal,
    the answer of [IsEmpty], the items [Mapcar] calls its function on, in the
    order of the calls. *)
Inductive answer :=
| ANothing
| ASorted (it : Z) (k : option Z)
| ARemoved (it : Z)
| AEmpty (b : bool)
| AVisited (items : list Z).

(** A function for [Mapcar] that notes its argument. *)
Definition note (it : Z) (seen : list Z) : outcome (list Z) := Ok (seen ++ [it]).

Definition run_op `{HeapAlloc} (o : op) (h : heap) (l : t) : outcome (answer * heap * t) :=
  match o with
  | OAppend it => '(h', l') ← Append h l it; Ok (ANothing, h', l')
  | OPrepend it => '(h', l') ← Prepend h l it; Ok (ANothing, h', l')
  | OSortedInsert it k => '(h', l') ← SortedInsert h l it k; Ok (ANothing, h', l')
  | OSortedRemove => '(x, k, h', l') ← SortedRemove h l; Ok (ASorted x k, h', l')
  | ORemove => '(x, h', l') ← Remove h l; Ok (ARemoved x, h', l')
  | OIsEmpty => Ok (AEmpty (IsEmpty l), h, l)
  | OMapcar => seen ← Mapcar note h l []; Ok (AVisited seen, h, l)
  end.

Fixpoint run_ops `{HeapAlloc} (os : list op) (h : heap) (l : t)
    : outcome (list answer * heap * t) :=
  match os with
  | [] => Ok ([], h, l)
  | o :: os' =>
      '(r, h', l') ← run_op o h l;
      '(rs, h'', l'') ← run_ops os' h' l';
      Ok (r :: rs, h'', l'')
  end.

(** The same operations on sequences. *)
Definition spec_op (o : op) (xs : list (Z * Z)) : answer * list (Z * Z) :=
  match o with
  | OAppend it => (ANothing, xs ++ [(0, it)])
  | OPrepend it => (ANothing, (0, it) :: xs)
  | OSortedInsert it k => (ANothing, insert_sorted k it xs)
  | OSortedRemove =>
      match xs with
      | [] => (ASorted NULL None, [])
      | (k, x) :: xs' => (ASorted x (Some k), xs')
      end
  | ORemove => (ARemoved (default NULL (head xs.*2)), tail xs)
  | OIsEmpty => (AEmpty (bool_decide (xs = [])), xs)
  | OMapcar => (AVisited xs.*2, xs)
  end.

Fixpoint spec_ops (os : list op) (xs : list (Z * Z)) : list answer * list (Z * Z) :=
  match os with
  | [] => ([], xs)
  | o :: os' =>
      let '(r, xs') := spec_op o xs in
      let '(rs, xs'') := spec_ops os' xs' in (r :: rs, xs'')
  end.

(** The keys do not decrease. *)
Definition key_le {A} (a b : Z * A) : Prop := a.1 <= b.1.

(** An allocator: one past the greatest address in use. *)
Definition bump_addr (h : heap) : Z := 1 + map_fold (fun a _ m => Z.max a m) 0 h.

(** ** Chains *)

Lemma chain_app h p cs1 cs2 q :
  chain h p (cs1 ++ cs2) q <-> exists m, chain h p cs1 m /\ chain h m cs2 q.
Proof.
  revert p. induction cs1 as [|[a [k x]] cs1 IH]; intros p; cbn.
  - split; [eauto|]. by intros (? & -> & ?).
  - setoid_rewrite IH. split.
    + intros (-> & Hn & n & Ha & m & H1 & H2). exists m. eauto 10.
    + intros (m & (-> & Hn & n & Ha & H1) & H2). eauto 10.
Qed.

Lemma chain_frame h h' p cs q :
  (forall a, a ∈ cs.*1 -> h' !! a = h !! a) -> chain h p cs q -> chain h' p cs q.
Proof.
  revert p. induction cs as [|[a [k x]] cs IH]; intros p Hf; cbn; [done|].
  intros (-> & Hn & n & Ha & Hc). split; [done|]. split; [done|].
  exists n. rewrite Hf by (cbn; set_solver). split; [done|].
  apply IH; [|done]. intros b Hb. apply Hf. cbn. set_solver.
Qed.

Lemma chain_not_null h p cs q : chain h p cs q -> NULL ∉ cs.*1.
Proof.
  revert p. induction cs as [|[a [k x]] cs IH]; intros p; cbn; [set_solver|].
  intros (_ & Hn & n & _ & Hc). apply not_elem_of_cons. split; [done|]. eauto.
Qed.

Lemma chain_dom h p cs q a : chain h p cs q -> a ∈ cs.*1 -> is_Some (h !! a).
Proof.
  revert p. induction cs as [|[b [k x]] cs IH]; intros p; cbn; [set_solver|].
  intros (_ & _ & n & Hb & Hc) [->|Ha]%elem_of_cons; [by rewrite Hb|]. eauto.
Qed.

Lemma rep_empty h : rep h List_new [] [].
Proof. exists []. repeat split; auto using NoDup_nil_2. Qed.

Lemma rep_not_null h l addrs xs : rep h l addrs xs -> NULL ∉ addrs.
Proof. intros (cs & <- & _ & _ & Hc & _). by eapply chain_not_null. Qed.

Lemma rep_dom h l addrs xs a : rep h l addrs xs -> a ∈ addrs -> is_Some (h !! a).
Proof. intros (cs & <- & _ & _ & Hc & _). by eapply chain_dom. Qed.

Lemma rep_fresh h l addrs xs a : rep h l addrs xs -> h !! a = None -> a ∉ addrs.
Proof. intros Hr Ha Hin. destruct (rep_dom _ _ _ _ _ Hr Hin). congruence. Qed.

Lemma rep_length h l addrs xs : rep h l addrs xs -> length addrs = length xs.
Proof. intros (cs & <- & <- & _). by rewrite !length_fmap. Qed.

Lemma rep_frame h h' l addrs xs :
  (forall a, a ∈ addrs -> h' !! a = h !! a) -> rep h l addrs xs -> rep h' l addrs xs.
Proof.
  intros Hf (cs & <- & <- & Hnd & Hc & Hl). exists cs. repeat split; auto.
  by eapply chain_frame.
Qed.

(** Emptiness is visible in the first pointer. *)
Lemma rep_IsEmpty h l addrs xs : rep h l addrs xs -> IsEmpty l = bool_decide (xs = []).
Proof.
  intros (cs & <- & <- & _ & Hc & _). unfold IsEmpty.
  destruct cs as [|[a [k x]] cs]; cbn in *.
  - by rewrite Hc.
  - destruct Hc as (-> & Hn & _). destruct (Z.eqb_spec a NULL); done.
Qed.

(** The cells of a non-empty list end in one whose [next] is null. *)
Lemma rep_snoc h l addrs xs :
  rep h l addrs xs -> xs <> [] ->
  exists cs a k x, addrs = cs.*1 ++ [a] /\ xs = cs.*2 ++ [(k, x)] /\
    NoDup (cs.*1 ++ [a]) /\ chain h (first l) cs a /\ a <> NULL /\ last l = a /\
    h !! a = Some (mkElem NULL k x).
Proof.
  intros (cs & <- & <- & Hnd & Hc & Hl) Hne.
  destruct cs as [|c cs] using rev_ind; [done|]. clear IHcs.
  destruct c as [a [k x]]. exists cs, a, k, x.
  rewrite !fmap_app in *. cbn in *. rewrite last_snoc in Hl. cbn in Hl.
  apply chain_app in Hc as (m & H1 & H2). cbn in H2.
  destruct H2 as (-> & Hn & n & Ha & ->). by repeat split.
Qed.

Lemma deref_ok h a e : a <> NULL -> h !! a = Some e -> deref h a = Ok e.
Proof. intros Hn Ha. unfold deref. rewrite Ha. by destruct (Z.eqb_spec a NULL). Qed.

Lemma insert_cell_data c cs : (insert_cell c cs).*2 = insert_sorted c.2.1 c.2.2 cs.*2.
Proof.
  induction cs as [|[a [k x]] cs IH]; destruct c as [b [k0 x0]]; cbn in *; [done|].
  case_match; [done|]. cbn. by rewrite IH.
Qed.

Lemma insert_cell_addrs c cs : (insert_cell c cs).*1 ≡ₚ c.1 :: cs.*1.
Proof.
  induction cs as [|c' cs IH]; cbn; [done|].
  case_match; cbn; [done|]. rewrite IH. by constructor.
Qed.

(** The last address after an insertion that does not go to the front. *)
Lemma last_cons_ne (a : Z) (l : list Z) :
  l <> [] -> list.last (a :: l) = list.last l.
Proof. by destruct l. Qed.

Lemma insert_cell_nonempty c cs : insert_cell c cs <> [].
Proof. destruct cs; cbn; [done|]. by case_match. Qed.

(** A list of one cell. *)
Lemma rep_singleton h a k x :
  a <> NULL -> rep (<[a := mkElem NULL k x]> h) (mkList a a) [a] [(k, x)].
Proof.
  intros Ha. exists [(a, (k, x))]. split; [done|]. split; [done|].
  split; [apply NoDup_singleton|]. split; [|done].
  cbn. split; [done|]. split; [done|]. exists NULL. by rewrite lookup_insert_eq.
Qed.

Section Correctness.
Context `{HeapAlloc}.

(** [Append] puts the item last. *)
Lemma Append_spec h l addrs xs it :
  rep h l addrs xs ->
  exists h' l', Append h l it = Ok (h', l') /\
    rep h' l' (addrs ++ [new_addr h]) (xs ++ [(0, it)]) /\
    forall a, a ∉ addrs -> a <> new_addr h -> h' !! a = h !! a.
Proof.
  intros Hr. destruct (new_addr_fresh h) as [Hnn Hnone].
  pose proof (rep_fresh _ _ _ _ _ Hr Hnone) as Hfr.
  unfold Append. rewrite (rep_IsEmpty _ _ _ _ Hr).
  destruct (decide (xs = [])) as [->|Hne]; [rewrite bool_decide_true by done|
    rewrite bool_decide_false by done].
  - apply rep_length in Hr. destruct addrs; [|done].
    eexists _, _. split; [done|]. split.
    + by apply rep_singleton.
    + intros a _ Ha. by rewrite lookup_insert_ne.
  - destruct (rep_snoc _ _ _ _ Hr Hne) as (cs & a & k & x & -> & -> & Hnd & Hc & Ha & Hl & He).
    assert (new_addr h <> a) by set_solver.
    rewrite Hl. erewrite deref_ok; [|done|by rewrite lookup_insert_ne].
    cbn [mbind outcome_bind]. eexists _, _. split; [done|]. split.
    + exists ((cs ++ [(a, (k, x))]) ++ [(new_addr h, (0, it))]).
      rewrite !fmap_app. split; [done|]. split; [done|]. split; [|split].
      * apply NoDup_app. split; [done|]. split; [set_solver|]. apply NoDup_singleton.
      * rewrite <- app_assoc. apply chain_app. exists a. split.
        -- eapply chain_frame; [|done]. intros b Hb.
           apply NoDup_app in Hnd as (_ & Hnd & _).
           rewrite !lookup_insert_ne; [done|set_solver|set_solver].
        -- cbn. split; [done|]. split; [done|]. eexists.
           rewrite lookup_insert_eq. split; [done|]. split; [done|]. split; [done|].
           eexists. rewrite lookup_insert_ne, lookup_insert_eq by done. done.
      * by rewrite last_snoc.
    + intros b Hb Hb'. rewrite !lookup_insert_ne; [done|done|set_solver].
Qed.

(** A new cell in front of a list. *)
Lemma rep_cons h l addrs xs a k x :
  rep h l addrs xs -> xs <> [] -> a ∉ addrs -> a <> NULL ->
  rep (<[a := mkElem (first l) k x]> h) (mkList a (last l)) (a :: addrs) ((k, x) :: xs).
Proof.
  intros (cs & <- & <- & Hnd & Hc & Hl) Hne Hfr Hnn.
  exists ((a, (k, x)) :: cs). cbn. split; [done|]. split; [done|].
  split; [by constructor|]. split.
  - split; [done|]. split; [done|]. eexists. rewrite lookup_insert_eq. split; [done|].
    eapply chain_frame; [|done]. intros b Hb. rewrite lookup_insert_ne; [done|]. set_solver.
  - rewrite Hl. by destruct cs.
Qed.

(** [Prepend] puts the item first. *)
Lemma Prepend_spec h l addrs xs it :
  rep h l addrs xs ->
  exists h' l', Prepend h l it = Ok (h', l') /\
    rep h' l' (new_addr h :: addrs) ((0, it) :: xs) /\
    forall a, a <> new_addr h -> h' !! a = h !! a.
Proof.
  intros Hr. destruct (new_addr_fresh h) as [Hnn Hnone].
  pose proof (rep_fresh _ _ _ _ _ Hr Hnone) as Hfr.
  unfold Prepend. rewrite (rep_IsEmpty _ _ _ _ Hr).
  destruct (decide (xs = [])) as [->|Hne]; [rewrite bool_decide_true by done|
    rewrite bool_decide_false by done].
  - apply rep_length in Hr. destruct addrs; [|done].
    eexists _, _. split; [done|]. split.
    + by apply rep_singleton.
    + intros a Ha. by rewrite lookup_insert_ne.
  - erewrite deref_ok; [|done|by rewrite lookup_insert_eq].
    cbn [mbind outcome_bind]. eexists _, _. split; [done|].
    rewrite insert_insert_eq. split; [by apply rep_cons|].
    intros a Ha. by rewrite lookup_insert_ne.
Qed.

(** The walk of [SortedInsert]: from the cell [ptr], whose key is not greater
    than [k], it links the new cell before the first greater key. *)
Lemma sorted_walk_spec cs : forall fuel h ptr kx el k x lst,
  chain h ptr ((ptr, kx) :: cs) NULL -> NoDup (ptr :: cs.*1) -> el ∉ ptr :: cs.*1 ->
  el <> NULL -> h !! el = Some (mkElem NULL k x) ->
  list.last (ptr :: cs.*1) = Some lst -> (length cs < fuel)%nat ->
  exists h' lst', sorted_walk fuel h ptr el k lst = Ok (h', lst') /\
    chain h' ptr ((ptr, kx) :: insert_cell (el, (k, x)) cs) NULL /\
    list.last (ptr :: (insert_cell (el, (k, x)) cs).*1) = Some lst' /\
    forall a, a ∉ ptr :: cs.*1 -> a <> el -> h' !! a = h !! a.
Proof.
  induction cs as [|[n [kn xn]] cs IH]; intros fuel h ptr [kp xp] el k x lst Hc Hnd Hel Hnn He Hlst Hfuel;
    (destruct fuel as [|fuel]; [cbn in Hfuel; lia|]);
    cbn [sorted_walk]; cbn in Hc.
  - destruct Hc as (_ & Hpn & ? & Hp & ->).
    rewrite (deref_ok _ _ _ Hpn Hp). cbn. injection Hlst as <-.
    rewrite (deref_ok _ _ _ Hpn Hp). cbn.
    eexists _, _. split; [done|]. assert (ptr <> el) by set_solver.
    split; [|split; [done|]].
    + split; [done|]. split; [done|]. eexists. rewrite lookup_insert_eq. split; [done|].
      split; [done|]. split; [done|]. eexists. by rewrite lookup_insert_ne.
    + intros a Ha _. rewrite lookup_insert_ne; [done|set_solver].
  - destruct Hc as (_ & Hpn & m & Hp & -> & Hnnull & nn & Hn & Hc).
    rewrite (deref_ok _ _ _ Hpn Hp). cbn [mbind outcome_bind next].
    destruct (Z.eqb_spec n NULL) as [|_]; [done|].
    rewrite (deref_ok _ _ _ Hnnull Hn). cbn [mbind outcome_bind key].
    assert (ptr <> el) by set_solver. assert (ptr <> n) by (inversion Hnd; set_solver).
    cbn [insert_cell fst snd]. destruct (k <? kn) eqn:Hk.
    + rewrite (deref_ok _ _ _ Hnn He). cbn [mbind outcome_bind].
      eexists _, _. split; [done|]. split; [|split].
      * cbn. split; [done|]. split; [done|]. eexists. rewrite lookup_insert_eq.
        split; [done|]. split; [done|]. split; [done|]. eexists.
        rewrite lookup_insert_ne, lookup_insert_eq by done. split; [done|].
        split; [done|]. split; [done|]. exists nn.
        rewrite !lookup_insert_ne by set_solver. split; [done|].
        eapply chain_frame; [|done]. intros a Ha.
        rewrite !lookup_insert_ne; [done| |].
        -- set_solver.
        -- inversion Hnd; set_solver.
      * exact Hlst.
      * intros a Ha Ha'. rewrite !lookup_insert_ne; [done|done|set_solver].
    + destruct (IH fuel h n (kn, xn) el k x lst) as (h' & lst' & Hw & Hch & Hl' & Hfr).
      * cbn. eauto 10.
      * by inversion Hnd.
      * set_solver.
      * done.
      * done.
      * exact Hlst.
      * cbn in Hfuel. lia.
      * exists h', lst'. split; [done|]. split; [|split].
        -- split; [done|]. split; [done|]. exists n. split; [|done].
           rewrite Hfr; [done| |done]. by inversion Hnd.
        -- exact Hl'.
        -- intros a Ha Ha'. apply Hfr; [set_solver|done].
Qed.

Lemma rep_size h l addrs xs : rep h l addrs xs -> (length xs <= size h)%nat.
Proof.
  intros Hr. rewrite <- (rep_length _ _ _ _ Hr).
  destruct Hr as (cs & <- & _ & Hnd & Hc & _).
  rewrite <- (size_list_to_set (C := gset Z)) by done.
  rewrite <- size_dom. apply subseteq_size. intros a Ha.
  apply elem_of_list_to_set in Ha. apply elem_of_dom. by eapply chain_dom.
Qed.

(** [SortedInsert] puts the item before the first greater key; the loop ends
    within the bound. *)
Lemma SortedInsert_spec h l addrs xs it k :
  rep h l addrs xs ->
  exists h' l' addrs', SortedInsert h l it k = Ok (h', l') /\
    rep h' l' addrs' (insert_sorted k it xs) /\ addrs' ≡ₚ new_addr h :: addrs /\
    forall a, a ∉ addrs -> a <> new_addr h -> h' !! a = h !! a.
Proof.
  intros Hr. destruct (new_addr_fresh h) as [Hnn Hnone].
  pose proof (rep_fresh _ _ _ _ _ Hr Hnone) as Hfr. pose proof (rep_size _ _ _ _ Hr) as Hsz.
  unfold SortedInsert. rewrite (rep_IsEmpty _ _ _ _ Hr).
  destruct xs as [|[kf xf] xs].
  - apply rep_length in Hr. destruct addrs; [|done].
    eexists _, _, [new_addr h]. split; [done|]. split; [|split; [done|]].
    + by apply rep_singleton.
    + intros a _ Ha. by rewrite lookup_insert_ne.
  - rewrite bool_decide_false by done.
    pose proof Hr as (cs & <- & Hxs & Hnd & Hc & Hl).
    destruct cs as [|[f [kf' xf']] cs]; [done|].
    rewrite fmap_cons in *. cbn [fst snd] in *. injection Hxs as -> -> <-.
    cbn [insert_sorted].
    destruct Hc as (Hf & Hfn & n & Hcell & Hc). fold (chain h n cs NULL) in Hc.
    assert (new_addr h <> f) by set_solver. rewrite Hf.
    rewrite (deref_ok _ f (mkElem n kf xf)) by (done || by rewrite lookup_insert_ne).
    cbn [mbind outcome_bind key]. destruct (k <? kf) eqn:Hk.
    + erewrite deref_ok; [|done|by rewrite lookup_insert_eq].
      cbn [mbind outcome_bind]. rewrite insert_insert_eq. cbn.
      eexists _, _, _. split; [done|]. split; [|split; [done|]].
      * pose proof (rep_cons h l _ _ (new_addr h) k it Hr ltac:(done) Hfr Hnn) as G.
        rewrite Hf in G. exact G.
      * intros a _ Ha. by rewrite lookup_insert_ne.
    + set (h1 := <[new_addr h := new_element it k]> h).
      destruct (sorted_walk_spec cs (size h1) h1 f (kf, xf) (new_addr h) k it (last l))
        as (h' & lst' & Hw & Hch & Hlst & Hframe); try done.
      * cbn. split; [done|]. split; [done|]. exists n. unfold h1.
        rewrite lookup_insert_ne by done. split; [done|].
        eapply chain_frame; [|done]. intros a Ha. rewrite lookup_insert_ne; [done|set_solver].
      * unfold h1. by rewrite lookup_insert_eq.
      * rewrite Hl. destruct (list.last (f :: cs.*1)) eqn:E; [done|].
        by apply last_None in E.
      * unfold h1. rewrite map_size_insert_None by done. cbn in Hsz.
        rewrite length_fmap in Hsz. lia.
      * rewrite Hw. cbn [mbind outcome_bind].
        eexists _, _, (f :: (insert_cell (new_addr h, (k, it)) cs).*1).
        split; [done|]. split; [|split].
        -- exists ((f, (kf, xf)) :: insert_cell (new_addr h, (k, it)) cs).
           split; [done|]. split; [cbn; by rewrite insert_cell_data|].
           split; [|split; [done|by rewrite Hlst]].
           rewrite insert_cell_addrs. cbn. rewrite Permutation_swap.
           constructor; [set_solver|done].
        -- rewrite insert_cell_addrs. apply Permutation_swap.
        -- intros a Ha Ha'. rewrite Hframe by done. unfold h1.
           by rewrite lookup_insert_ne.
Qed.

(** [SortedRemove] of an empty list returns null and changes nothing. *)
Lemma SortedRemove_nil h l addrs :
  rep h l addrs [] -> SortedRemove h l = Ok (NULL, None, h, l).
Proof. intros Hr. unfold SortedRemove. by rewrite (rep_IsEmpty _ _ _ _ Hr). Qed.

(** Otherwise it returns the first pair and frees its cell. *)
Lemma SortedRemove_cons h l addrs k x xs :
  rep h l addrs ((k, x) :: xs) ->
  exists a addrs' l', addrs = a :: addrs' /\
    SortedRemove h l = Ok (x, Some k, delete a h, l') /\
    rep (delete a h) l' addrs' xs.
Proof.
  intros Hr. unfold SortedRemove. rewrite (rep_IsEmpty _ _ _ _ Hr).
  rewrite bool_decide_false by done.
  destruct Hr as (cs & <- & Hxs & Hnd & Hc & Hl).
  destruct cs as [|[f [kf xf]] cs]; [done|]. injection Hxs as -> -> <-.
  destruct Hc as (Hf & Hfn & n & Hcell & Hc). rewrite Hf.
  rewrite (deref_ok _ _ _ Hfn Hcell). cbn [mbind outcome_bind item key next].
  cbn in Hnd, Hl. apply NoDup_cons in Hnd as [Hnot Hnd].
  eexists f, cs.*1, _. split; [done|]. split; [done|].
  assert (Hch : chain (delete f h) n cs NULL).
  { eapply chain_frame; [|done]. intros a Ha. rewrite lookup_delete_ne; [done|set_solver]. }
  destruct cs as [|[b [kb xb]] cs].
  - rewrite Hl. cbn. rewrite Z.eqb_refl. exists []. by repeat split.
  - destruct (Z.eqb_spec f (last l)) as [E|_].
    + exfalso. apply Hnot. rewrite E, Hl. cbn -[list.last].
      destruct (list.last (b :: cs.*1)) eqn:E'; [|by apply last_None in E'].
      change (default NULL (list.last (b :: cs.*1)) ∈ b :: cs.*1).
      rewrite E'. by apply last_Some_elem_of.
    + exists ((b, (kb, xb)) :: cs). split; [done|]. split; [done|].
      split; [done|]. split; [done|]. exact Hl.
Qed.

Lemma foldl_fault {St} (func : Z -> St -> outcome St) (f : fault) (xs : list Z) :
  foldl (fun m x => s ← m; func x s) (Fault f) xs = Fault f.
Proof. by induction xs. Qed.

Lemma Mapcar_from_spec {St} (func : Z -> St -> outcome St) cs : forall fuel h p s,
  chain h p cs NULL -> (length cs < fuel)%nat ->
  Mapcar_from fuel func h p s =
    foldl (fun m x => s ← m; func x s) (Ok s) (cs.*2.*2).
Proof.
  induction cs as [|[a [k x]] cs IH]; intros fuel h p s Hc Hfuel;
    (destruct fuel as [|fuel]; [cbn in Hfuel; lia|]); cbn [Mapcar_from].
  - cbn in Hc. by rewrite Hc.
  - destruct Hc as (-> & Hn & n & Ha & Hc).
    destruct (Z.eqb_spec a NULL) as [|_]; [done|].
    rewrite (deref_ok _ _ _ Hn Ha). rewrite !fmap_cons.
    cbn [mbind outcome_bind item next foldl fst snd].
    destruct (func x s) as [s'|f]; cbn [mbind outcome_bind].
    + apply IH; [done|]. cbn in Hfuel. lia.
    + symmetry. apply foldl_fault.
Qed.

(** What [Mapcar] visits: the items, first to last. *)
Lemma Mapcar_spec {St} (func : Z -> St -> outcome St) h l addrs xs s :
  rep h l addrs xs ->
  Mapcar func h l s = foldl (fun m x => s ← m; func x s) (Ok s) xs.*2.
Proof.
  intros Hr. pose proof (rep_size _ _ _ _ Hr) as Hsz.
  destruct Hr as (cs & <- & <- & _ & Hc & _).
  apply Mapcar_from_spec; [done|]. rewrite !length_fmap in Hsz. lia.
Qed.

Lemma foldl_note items : forall seen,
  foldl (fun m x => s ← m; note x s) (Ok seen) items = Ok (seen ++ items).
Proof.
  induction items as [|x items IH]; intros seen; cbn.
  - by rewrite app_nil_r.
  - etransitivity; [apply IH|]. by rewrite <- app_assoc.
Qed.

(** A removal leaves the lists in other cells alone. *)
Lemma rep_delete_apart h a addrs l2 addrs2 ys :
  rep h l2 addrs2 ys -> addrs2 ## a :: addrs ->
  rep (delete a h) l2 addrs2 ys /\ addrs2 ## addrs.
Proof.
  intros Hr2 Hd. split; [|set_solver].
  eapply rep_frame; [|done]. intros b Hb. rewrite lookup_delete_ne; [done|set_solver].
Qed.

(** One operation against the specification, with the frame: another list of
    the same heap is left alone. *)
Lemma list_op_spec o h l addrs xs :
  rep h l addrs xs ->
  exists h' l' addrs', run_op o h l = Ok ((spec_op o xs).1, h', l') /\
    rep h' l' addrs' (spec_op o xs).2 /\
    (forall l2 addrs2 ys, rep h l2 addrs2 ys -> addrs2 ## addrs ->
       rep h' l2 addrs2 ys /\ addrs2 ## addrs').
Proof.
  intros Hr.
  assert (Hframe : forall h' addrs', addrs' ≡ₚ new_addr h :: addrs ->
    (forall a, a ∉ addrs -> a <> new_addr h -> h' !! a = h !! a) ->
    forall l2 addrs2 ys, rep h l2 addrs2 ys -> addrs2 ## addrs ->
      rep h' l2 addrs2 ys /\ addrs2 ## addrs').
  { intros h' addrs' Hp Hf l2 addrs2 ys Hr2 Hd.
    assert (Hfr : new_addr h ∉ addrs2)
      by (eapply rep_fresh; [done|apply new_addr_fresh]).
    split.
    - eapply rep_frame; [|done]. intros a Ha. apply Hf; [set_solver|set_solver].
    - intros a Ha Ha'. rewrite Hp in Ha'. set_solver. }
  destruct o as [it|it|it k| | | |]; cbn [run_op spec_op fst snd].
  - destruct (Append_spec h l addrs xs it Hr) as (h' & l' & -> & Hr' & Hf).
    cbn. eexists _, _, _. split; [done|]. split; [done|].
    apply Hframe; [|done]. by rewrite Permutation_app_comm.
  - destruct (Prepend_spec h l addrs xs it Hr) as (h' & l' & -> & Hr' & Hf).
    cbn. eexists _, _, _. split; [done|]. split; [done|].
    apply Hframe; [done|]. auto.
  - destruct (SortedInsert_spec h l addrs xs it k Hr) as (h' & l' & addrs' & -> & Hr' & Hp & Hf).
    cbn. eexists _, _, _. split; [done|]. split; [done|]. by apply Hframe.
  - destruct xs as [|[k x] xs].
    + rewrite (SortedRemove_nil _ _ _ Hr). cbn. eauto 10.
    + destruct (SortedRemove_cons _ _ _ _ _ _ Hr) as (a & addrs' & l' & -> & -> & Hr').
      cbn. eexists _, _, _. split; [done|]. split; [done|].
      intros l2 addrs2 ys. apply rep_delete_apart.
  - unfold Remove. destruct xs as [|[k x] xs].
    + rewrite (SortedRemove_nil _ _ _ Hr). cbn. eauto 10.
    + destruct (SortedRemove_cons _ _ _ _ _ _ Hr) as (a & addrs' & l' & -> & -> & Hr').
      cbn. eexists _, _, _. split; [done|]. split; [done|].
      intros l2 addrs2 ys. apply rep_delete_apart.
  - rewrite (rep_IsEmpty _ _ _ _ Hr). eauto 10.
  - rewrite (Mapcar_spec note h l addrs xs [] Hr), foldl_note. cbn. eauto 10.
Qed.

Lemma run_ops_spec os : forall h l addrs xs,
  rep h l addrs xs ->
  exists h' l' addrs', run_ops os h l = Ok ((spec_ops os xs).1, h', l') /\
    rep h' l' addrs' (spec_ops os xs).2 /\
    (forall l2 addrs2 ys, rep h l2 addrs2 ys -> addrs2 ## addrs ->
       rep h' l2 addrs2 ys /\ addrs2 ## addrs').
Proof.
  induction os as [|o os IH]; intros h l addrs xs Hr; cbn [run_ops spec_ops].
  - exists h, l, addrs. cbn. eauto.
  - destruct (list_op_spec o h l addrs xs Hr) as (h1 & l1 & addrs1 & -> & Hr1 & Hf1).
    cbn [mbind outcome_bind]. destruct (spec_op o xs) as [r xs1]. cbn [fst snd] in *.
    destruct (IH h1 l1 addrs1 xs1 Hr1) as (h2 & l2 & addrs2 & -> & Hr2 & Hf2).
    cbn [mbind outcome_bind]. destruct (spec_ops os xs1) as [rs xs2]. cbn [fst snd] in *.
    eexists _, _, _. split; [done|]. split; [done|].
    intros l3 addrs3 ys Hr3 Hd. destruct (Hf1 _ _ _ Hr3 Hd). by apply Hf2.
Qed.

(** The destructor frees exactly the cells of the list. *)
Lemma Destroy_spec xs : forall fuel h l addrs,
  rep h l addrs xs -> Forall (fun p => p.2 <> NULL) xs -> (length xs < fuel)%nat ->
  exists h', Destroy fuel h l = Ok (h', List_new) /\
    forall a, h' !! a = if decide (a ∈ addrs) then None else h !! a.
Proof.
  induction xs as [|[k x] xs IH]; intros fuel h l addrs Hr Hnn Hfuel;
    (destruct fuel as [|fuel]; [cbn in Hfuel; lia|]); cbn [Destroy]; unfold Remove.
  - rewrite (SortedRemove_nil _ _ _ Hr). cbn. exists h.
    pose proof (rep_length _ _ _ _ Hr). destruct addrs; [|done].
    destruct Hr as (cs & Hcs & _ & _ & Hc & Hl). apply fmap_nil_inv in Hcs as ->.
    split; [|done]. destruct l; cbn in *; by subst.
  - destruct (SortedRemove_cons _ _ _ _ _ _ Hr) as (a & addrs' & l' & -> & -> & Hr').
    cbn [mbind outcome_bind]. apply Forall_cons in Hnn as [Hx Hnn]. cbn in Hx.
    destruct (Z.eqb_spec x NULL) as [|_]; [done|].
    destruct (IH fuel (delete a h) l' addrs' Hr' Hnn) as (h' & -> & Hh');
      [cbn in Hfuel; lia|].
    exists h'. split; [done|]. intros b. rewrite Hh'.
    destruct (decide (b = a)) as [->|Hne].
    + rewrite lookup_delete_eq. rewrite (decide_True (P := a ∈ a :: addrs')) by set_solver.
      by case_decide.
    + rewrite lookup_delete_ne by done.
      destruct (decide (b ∈ addrs')); [by rewrite decide_True by set_solver|].
      by rewrite decide_False by set_solver.
Qed.

End Correctness.

(** ** The specification of sorted insertion *)

Lemma insert_sorted_perm {A} k (x : A) xs : insert_sorted k x xs ≡ₚ (k, x) :: xs.
Proof.
  induction xs as [|[k' x'] xs IH]; cbn; [done|].
  case_match; [done|]. rewrite IH. constructor.
Qed.

Lemma insert_sorted_sorted {A} k (x : A) xs :
  StronglySorted key_le xs -> StronglySorted key_le (insert_sorted k x xs).
Proof.
  induction 1 as [|[k' x'] xs Hs IH Hf]; cbn; [repeat constructor|].
  destruct (Z.ltb_spec k k').
  - constructor; [by constructor|]. constructor; [unfold key_le; cbn; lia|].
    eapply Forall_impl; [done|]. unfold key_le. cbn. intros; lia.
  - constructor; [done|]. rewrite insert_sorted_perm.
    constructor; [unfold key_le; cbn; lia|done].
Qed.

Lemma filter_greater {A} k (xs : list (Z * A)) :
  Forall (fun p => k < p.1) xs -> filter (fun p => p.1 = k) xs = [].
Proof.
  induction 1 as [|p xs Hp _ IH]; [done|]. rewrite filter_cons_False by lia. done.
Qed.

Lemma insert_sorted_stable {A} k (x : A) xs :
  StronglySorted key_le xs ->
  filter (fun p => p.1 = k) (insert_sorted k x xs) = filter (fun p => p.1 = k) xs ++ [(k, x)].
Proof.
  induction 1 as [|[k' x'] xs Hs IH Hf]; cbn [insert_sorted].
  - rewrite filter_cons_True by done. done.
  - destruct (Z.ltb_spec k k').
    + rewrite filter_cons_True by done.
      rewrite (filter_greater k ((k', x') :: xs)); [done|].
      constructor; [done|]. eapply Forall_impl; [done|].
      unfold key_le. cbn. intros; lia.
    + destruct (decide (k' = k)) as [->|].
      * rewrite !filter_cons_True by done. by rewrite IH.
      * rewrite !filter_cons_False by done. done.
Qed.

(** ** A concrete allocator *)

Lemma bump_addr_bound (h : heap) a e : h !! a = Some e -> a < bump_addr h.
Proof.
  unfold bump_addr. revert a e.
  apply (map_fold_weak_ind (fun r h => forall a e, h !! a = Some e -> a < 1 + r)).
  - intros a e H. by rewrite lookup_empty in H.
  - intros i x m r Hi IH a e. destruct (decide (i = a)) as [->|].
    + intros _. lia.
    + rewrite lookup_insert_ne by done. intros Ha%IH. lia.
Qed.

Lemma bump_addr_pos (h : heap) : 0 < bump_addr h.
Proof.
  unfold bump_addr.
  apply (map_fold_weak_ind (fun r _ => 0 < 1 + r)); [lia|]. intros. lia.
Qed.

#[export] Instance bump_alloc : HeapAlloc.
Proof.
  refine {| new_addr := bump_addr |}. intros h. split.
  - unfold NULL. pose proof (bump_addr_pos h). lia.
  - destruct (h !! bump_addr h) as [e|] eqn:E; [|done].
    apply bump_addr_bound in E. lia.
Defined.

(** ** Properties *)

Section Properties.
Context `{HeapAlloc}.

(** C37: any sequence of [Append], [Prepend], [SortedInsert], [SortedRemove],
    [Remove], [IsEmpty] and [Mapcar] calls on a list that represents [xs]
    returns, without a bad access, exactly what the same calls on the sequence
    [xs] return ([Mapcar] calls its function, here one that only notes its
    argument, on every item in order), and leaves the list
    representing the final sequence; a second list of the same heap whose cells
    are different ones still represents what it did. *)
Theorem list_refines_sequence (os : list op) (h : heap) (l : t) (addrs : list Z)
    (xs : list (Z * Z)) :
  rep h l addrs xs ->
  exists h' l' addrs',
    run_ops os h l = Ok ((spec_ops os xs).1, h', l') /\
    rep h' l' addrs' (spec_ops os xs).2 /\
    (forall l2 addrs2 ys, rep h l2 addrs2 ys -> addrs2 ## addrs ->
       rep h' l2 addrs2 ys /\ addrs2 ## addrs').
Proof. apply run_ops_spec. Qed.

(** [SortedInsert] into a list sorted by key returns a list that is still
    sorted, holds the old pairs and the new one, and serves equal keys in the
    order of their insertion. *)
Theorem SortedInsert_sorted h l addrs xs it k :
  rep h l addrs xs -> StronglySorted key_le xs ->
  exists h' l' addrs' xs', SortedInsert h l it k = Ok (h', l') /\
    rep h' l' addrs' xs' /\ StronglySorted key_le xs' /\ xs' ≡ₚ (k, it) :: xs /\
    filter (fun p => p.1 = k) xs' = filter (fun p => p.1 = k) xs ++ [(k, it)].
Proof.
  intros Hr Hs.
  destruct (SortedInsert_spec h l addrs xs it k Hr) as (h' & l' & addrs' & -> & Hr' & _).
  exists h', l', addrs', (insert_sorted k it xs). split; [done|]. split; [done|].
  eauto using insert_sorted_sorted, insert_sorted_perm, insert_sorted_stable.
Qed.

(** The destructor of a list without null items returns and frees exactly
    its cells. *)
Theorem List_destroy_frees h l addrs xs :
  rep h l addrs xs -> Forall (fun p => p.2 <> NULL) xs ->
  exists h', List_destroy h l = Ok (h', List_new) /\
    forall a, h' !! a = if decide (a ∈ addrs) then None else h !! a.
Proof.
  intros Hr Hn. apply (Destroy_spec xs); [done|done|].
  pose proof (rep_size _ _ _ _ Hr). lia.
Qed.

End Properties.

(** C37 at a concrete input: a new list in an empty heap. *)
Lemma list_refines_sequence_witness :
  exists h' l' addrs',
    run_ops [OIsEmpty; OAppend 5; OSortedInsert 9 3; OMapcar; ORemove; OSortedRemove; OSortedRemove] ∅ List_new =
      Ok ([AEmpty true; ANothing; ANothing; AVisited [5; 9]; ARemoved 5;
           ASorted 9 (Some 3); ASorted NULL None], h', l') /\
    rep h' l' addrs' [] /\
    (forall l2 addrs2 ys, rep ∅ l2 addrs2 ys -> addrs2 ## [] ->
       rep h' l2 addrs2 ys /\ addrs2 ## addrs').
Proof.
  apply (list_refines_sequence
    [OIsEmpty; OAppend 5; OSortedInsert 9 3; OMapcar; ORemove; OSortedRemove; OSortedRemove]
    ∅ List_new [] []).
  apply rep_empty.
Defined.

(** At a concrete input: a second timer event at the same time. *)
Lemma SortedInsert_sorted_witness :
  exists h' l' addrs' xs',
    SortedInsert (<[1 := mkElem NULL 100 7]> ∅) (mkList 1 1) 8 100 = Ok (h', l') /\
    rep h' l' addrs' xs' /\ StronglySorted key_le xs' /\ xs' ≡ₚ [(100, 8); (100, 7)] /\
    filter (fun p => p.1 = 100) xs' = filter (fun p => p.1 = 100) [(100, 7)] ++ [(100, 8)].
Proof.
  apply (SortedInsert_sorted _ _ [1] [(100, 7)]).
  - by apply rep_singleton.
  - repeat constructor.
Defined.

(** At a concrete input. *)
Lemma List_destroy_frees_witness :
  exists h', List_destroy (<[1 := mkElem NULL 100 7]> ∅) (mkList 1 1) = Ok (h', List_new) /\
    forall a, h' !! a = if decide (a ∈ [1]) then None else (<[1 := mkElem NULL 100 7]> ∅ : heap) !! a.
Proof.
  apply (List_destroy_frees _ _ [1] [(100, 7)]).
  - by apply rep_singleton.
  - by repeat constructor.
Defined.

End LinkedList.
