(* ===== verification/Stacks.v ===== *)
(** * c++example: three stacks and a list

    The programs of c++example (stack.cc, inheritstack.cc with list.cc,
    templatestack.cc) define a LIFO stack as an array of [int]s, as an abstract
    class with an array and a list implementation, and as a template over the
    element type.  The array class is the same in the three programs, and is
    modelled once over an element type [T] ([int] in the first two).

    The virtual functions of the abstract class are the operations of the class
    [Stack]; [StackLaws] states what they promise, on the sequence of the
    elements with the top first, and the frame: the blocks of the heap that
    belong to somebody else.  [SelfTest] and the runs of arbitrary sequences of
    calls are verified against [StackLaws]; the array and the list implement it. *)

From S2P Require Import Prelude.

Local Open Scope Z_scope.

Module Stacks.

(** What the classes allocate: arrays of [T] and [ListElement]s.  The objects
    themselves are records passed from call to call. *)
Inductive block (T : Type) :=
| Array (l : list T)
| ListElement (next : Z) (item : T).
Arguments Array {T} l.
Arguments ListElement {T} next item.

Abbreviation heap T := (gmap Z (block T)).

Definition NULL : Z := 0.

(** Operator [new]: an address that is neither null nor in use; the elements of
    a new array are not initialised. *)
Class Alloc (T : Type) := {
  new_addr : heap T -> Z;
  new_addr_fresh (h : heap T) : new_addr h <> NULL /\ h !! new_addr h = None;
  garbage : Z -> list T;
  garbage_length (n : Z) : length (garbage n) = Z.to_nat n;
}.

(** What the programs write to [cout]: a line per push, pop and title. *)
Inductive title := Array_Stack | List_Stack | Stack_int | Stack_char.

Inductive line (T : Type) :=
| Testing (what : title)
| Pushing (v : T)
| Popping (v : T).
Arguments Testing {T} what.
Arguments Pushing {T} v.
Arguments Popping {T} v.

(** ** The abstract class *)

(** [class Stack] of inheritstack.h: the virtual functions. *)
Class Stack (T St : Type) := {
  Push : T -> heap T * St -> outcome (heap T * St);
  Pop : heap T * St -> outcome (T * (heap T * St));
  Full : St -> bool;
  Empty : St -> bool;
  Delete : heap T * St -> outcome (heap T);
}.

(** The loop [for (i = 0; i < numToPush; i++)] of [Stack::SelfTest], [n]
    iterations before its end; [incr] is [count++]. *)
Fixpoint push_some {T St} `{Stack T St} (incr : T -> T) (n : nat) (count : T) (s : heap T * St)
    : outcome (list (line T) * (heap T * St)) :=
  match n with
  | O => Ok ([], s)
  | S n' =>
      _ ← ASSERT (negb (Full s.2));
      s ← Push count s;
      '(out, s) ← push_some incr n' (incr count) s;
      Ok (Pushing count :: out, s)
  end.

(** The loop [while (!Full())] of the other two programs. *)
Fixpoint push_all {T St} `{Stack T St} (incr : T -> T) (fuel : nat) (count : T) (s : heap T * St)
    : outcome (list (line T) * (heap T * St)) :=
  match fuel with
  | O => Fault OutOfFuel
  | S fuel' =>
      if negb (Full s.2) then
        s ← Push count s;
        '(out, s) ← push_all incr fuel' (incr count) s;
        Ok (Pushing count :: out, s)
      else Ok ([], s)
  end.

(** The loop [while (!Empty())]. *)
Fixpoint pop_all {T St} `{Stack T St} (fuel : nat) (s : heap T * St)
    : outcome (list (line T) * (heap T * St)) :=
  match fuel with
  | O => Fault OutOfFuel
  | S fuel' =>
      if negb (Empty s.2) then
        '(v, s) ← Pop s;
        '(out, s) ← pop_all fuel' s;
        Ok (Popping v :: out, s)
      else Ok ([], s)
  end.

(** [int count; count++] and the same on a [char]. *)
Definition incr_int (count : Z) : Z := s32 (count + 1).
Definition incr_char (count : Z) : Z := s8 (count + 1).

(** [Stack::SelfTest] of inheritstack.cc. *)
Definition SelfTest {St} `{Stack Z St} (fuel : nat) (numToPush : Z) (s : heap Z * St)
    : outcome (list (line Z) * (heap Z * St)) :=
  '(out, s) ← push_some incr_int (Z.to_nat numToPush) 17 s;
  '(out', s) ← pop_all fuel s;
  Ok (out ++ out', s).

(** [Stack<T>::SelfTest] of templatestack.cc, and of stack.cc at [int] and 17. *)
Definition SelfTest_full {T St} `{Stack T St} (incr : T -> T) (fuel : nat) (start : T) (s : heap T * St)
    : outcome (list (line T) * (heap T * St)) :=
  '(out, s) ← push_all incr fuel start s;
  '(out', s) ← pop_all fuel s;
  Ok (out ++ out', s).

(** ** As an array *)

Record ArrayStack := mkArray { size : Z; top : Z; stack : Z }.

Section ArrayOps.
Context {T : Type} `{Alloc T}.

Definition ArrayStack_new (h : heap T) (sz : Z) : outcome (heap T * ArrayStack) :=
  _ ← ASSERT (sz >=? 1);
  let a := new_addr h in
  Ok (<[a := Array (garbage sz)]> h, mkArray sz 0 a).

Definition ArrayStack_Full (s : ArrayStack) : bool := top s =? size s.

Definition ArrayStack_Empty (s : ArrayStack) : bool := top s =? 0.

(** The array behind a pointer. *)
Definition array_at (h : heap T) (a : Z) : outcome (list T) :=
  match h !! a with Some (Array l) => Ok l | _ => Fault BadAccess end.

Definition ArrayStack_Push (value : T) (hs : heap T * ArrayStack) : outcome (heap T * ArrayStack) :=
  let '(h, s) := hs in
  _ ← ASSERT (negb (ArrayStack_Full s));
  l ← array_at h (stack s);
  l ← wr l (top s) value;
  Ok (<[stack s := Array l]> h, mkArray (size s) (top s + 1) (stack s)).

Definition ArrayStack_Pop (hs : heap T * ArrayStack) : outcome (T * (heap T * ArrayStack)) :=
  let '(h, s) := hs in
  _ ← ASSERT (negb (ArrayStack_Empty s));
  l ← array_at h (stack s);
  v ← rd l (top s - 1);
  Ok (v, (h, mkArray (size s) (top s - 1) (stack s))).

(** [delete [] stack] *)
Definition ArrayStack_delete (hs : heap T * ArrayStack) : outcome (heap T) :=
  let '(h, s) := hs in
  _ ← array_at h (stack s);
  Ok (base.delete (stack s) h).

End ArrayOps.

#[export] Instance array_stack {T} : Stack T ArrayStack := {
  Push := ArrayStack_Push;
  Pop := ArrayStack_Pop;
  Full := ArrayStack_Full;
  Empty := ArrayStack_Empty;
  Delete := ArrayStack_delete;
}.

(** ** As a list *)

(** The fields of [List]; [ListStack] holds a pointer to one. *)
Record ListStack := mkList { first : Z; last : Z }.

Section ListOps.
Context `{Alloc Z}.

Definition List_new : ListStack := mkList NULL NULL.

Definition List_Empty (l : ListStack) : bool := first l =? NULL.

Definition element_at (h : heap Z) (a : Z) : outcome (Z * Z) :=
  match h !! a with Some (ListElement n x) => Ok (n, x) | _ => Fault BadAccess end.

Definition List_Prepend (h : heap Z) (l : ListStack) (value : Z) : heap Z * ListStack :=
  let element := new_addr h in
  if List_Empty l then (<[element := ListElement NULL value]> h, mkList element element)
  else (<[element := ListElement (first l) value]> h, mkList element (last l)).

Definition List_Remove (h : heap Z) (l : ListStack) : outcome (Z * (heap Z * ListStack)) :=
  _ ← ASSERT (negb (List_Empty l));
  let element := first l in
  '(next, value) ← element_at h element;
  let l' := if first l =? last l then mkList NULL NULL else mkList next (last l) in
  Ok (value, (base.delete element h, l')).

(** [List::~List]: [while (!Empty()) Remove();] *)
Fixpoint List_clear (fuel : nat) (h : heap Z) (l : ListStack) : outcome (heap Z) :=
  match fuel with
  | O => Fault OutOfFuel
  | S fuel' =>
      if negb (List_Empty l) then
        '(_, (h, l)) ← List_Remove h l;
        List_clear fuel' h l
      else Ok h
  end.

Definition ListStack_Push (value : Z) (hs : heap Z * ListStack) : outcome (heap Z * ListStack) :=
  Ok (List_Prepend hs.1 hs.2 value).

Definition ListStack_Pop (hs : heap Z * ListStack) : outcome (Z * (heap Z * ListStack)) :=
  _ ← ASSERT (negb (List_Empty hs.2));
  List_Remove hs.1 hs.2.

Definition ListStack_Full (s : ListStack) : bool := false.

Definition ListStack_Empty (s : ListStack) : bool := List_Empty s.

(** Each removal frees a cell: as many rounds as blocks, and the last test. *)
Definition ListStack_delete (hs : heap Z * ListStack) : outcome (heap Z) :=
  List_clear (S (base.size hs.1)) hs.1 hs.2.

End ListOps.

#[export] Instance list_stack `{Alloc Z} : Stack Z ListStack := {
  Push := ListStack_Push;
  Pop := ListStack_Pop;
  Full := ListStack_Full;
  Empty := ListStack_Empty;
  Delete := ListStack_delete;
}.

(** ** The programs *)

(** The loops of a self test push and pop at most this often, and test once more. *)
Definition test_fuel : nat := 11.

(** [main] of inheritstack.cc: the output of the two tests, and the heap. *)
Definition inherit_main `{Alloc Z} (h : heap Z) : outcome (list (line Z) * heap Z) :=
  '(h, s1) ← ArrayStack_new h 10;
  let s2 := List_new in
  '(out1, (h, s1)) ← SelfTest test_fuel 10 (h, s1);
  '(out2, (h, s2)) ← SelfTest test_fuel 10 (h, s2);
  h ← Delete (h, s1);
  h ← Delete (h, s2);
  Ok (Testing Array_Stack :: out1 ++ Testing List_Stack :: out2, h).

(** [main] of stack.cc. *)
Definition stack_main `{Alloc Z} (h : heap Z) : outcome (list (line Z) * heap Z) :=
  '(h, stack) ← ArrayStack_new h 10;
  '(out, (h, stack)) ← SelfTest_full incr_int test_fuel 17 (h, stack);
  h ← Delete (h, stack);
  Ok (out, h).

(** [main] of templatestack.cc.  [int]s and [char]s are both kept as integers;
    ['a'] is 97. *)
Definition template_main `{Alloc Z} (h : heap Z) : outcome (list (line Z) * heap Z) :=
  '(h, s1) ← ArrayStack_new h 10;
  '(h, s2) ← ArrayStack_new h 10;
  '(out1, (h, s1)) ← SelfTest_full incr_int test_fuel 17 (h, s1);
  '(out2, (h, s2)) ← SelfTest_full incr_char test_fuel 97 (h, s2);
  h ← Delete (h, s1);
  h ← Delete (h, s2);
  Ok (Testing Stack_int :: out1 ++ Testing Stack_char :: out2, h).

(** ** What a stack promises *)

(** [sep P f h]: the heap [h] is the disjoint union of a part with [P] and of
    the frame [f]. *)
Definition sep {T} (P : heap T -> Prop) (f h : heap T) : Prop :=
  exists o, P o /\ o ##ₘ f /\ h = o ∪ f.

(** [owns o s xs]: the stack [s] holds [xs], the top first, in the blocks [o],
    which are its own; [room] is its capacity ([None]: no bound). *)
Class StackLaws (T St : Type) `{Stack T St} := {
  owns : heap T -> St -> list T -> Prop;
  room : St -> option nat;
  Empty_law f h s xs : sep (fun o => owns o s xs) f h -> Empty s = bool_decide (xs = []);
  Full_law f h s xs : sep (fun o => owns o s xs) f h -> Full s = bool_decide (room s = Some (length xs));
  room_law f h s xs n : sep (fun o => owns o s xs) f h -> room s = Some n -> (length xs <= n)%nat;
  Push_law f h s xs v : sep (fun o => owns o s xs) f h -> room s <> Some (length xs) ->
    exists h' s', Push v (h, s) = Ok (h', s') /\ sep (fun o => owns o s' (v :: xs)) f h' /\ room s' = room s;
  Push_full_law f h s xs v : sep (fun o => owns o s xs) f h -> room s = Some (length xs) ->
    Push v (h, s) = Fault AssertFailed;
  Pop_law f h s x xs : sep (fun o => owns o s (x :: xs)) f h ->
    exists h' s', Pop (h, s) = Ok (x, (h', s')) /\ sep (fun o => owns o s' xs) f h' /\ room s' = room s;
  Pop_empty_law f h s : sep (fun o => owns o s []) f h -> Pop (h, s) = Fault AssertFailed;
  Delete_law f h s xs : sep (fun o => owns o s xs) f h -> Delete (h, s) = Ok f;
}.

(** On the heap [h] the stack [s] holds [xs], and the rest of the heap is [f]. *)
Definition holds {T St} `{StackLaws T St} (f h : heap T) (s : St) (xs : list T) : Prop :=
  sep (fun o => owns o s xs) f h.

(** ** Sequences of calls *)

Inductive call := CPush (v : Z) | CPop | CFull | CEmpty.
Inductive answer := ADone | AValue (v : Z) | ABool (b : bool).

Definition run_call {St} `{Stack Z St} (c : call) (s : heap Z * St) : outcome (answer * (heap Z * St)) :=
  match c with
  | CPush v => s ← Push v s; Ok (ADone, s)
  | CPop => '(v, s) ← Pop s; Ok (AValue v, s)
  | CFull => Ok (ABool (Full s.2), s)
  | CEmpty => Ok (ABool (Empty s.2), s)
  end.

Fixpoint run_calls {St} `{Stack Z St} (cs : list call) (s : heap Z * St)
    : outcome (list answer * (heap Z * St)) :=
  match cs with
  | [] => Ok ([], s)
  | c :: cs' =>
      '(r, s) ← run_call c s;
      '(rs, s) ← run_calls cs' s;
      Ok (r :: rs, s)
  end.

(** The same calls on a sequence with [cap] places ([None]: no bound). *)
Definition spec_call (cap : option nat) (c : call) (xs : list Z) : outcome (answer * list Z) :=
  let full := bool_decide (cap = Some (length xs)) in
  match c with
  | CPush v => if full then Fault AssertFailed else Ok (ADone, v :: xs)
  | CPop => match xs with [] => Fault AssertFailed | x :: xs' => Ok (AValue x, xs') end
  | CFull => Ok (ABool full, xs)
  | CEmpty => Ok (ABool (bool_decide (xs = [])), xs)
  end.

Fixpoint spec_calls (cap : option nat) (cs : list call) (xs : list Z) : outcome (list answer * list Z) :=
  match cs with
  | [] => Ok ([], xs)
  | c :: cs' =>
      '(r, xs) ← spec_call cap c xs;
      '(rs, xs) ← spec_calls cap cs' xs;
      Ok (r :: rs, xs)
  end.

(** [count], [count + 1], ...: [n] values of the counter. *)
Fixpoint counts {T} (incr : T -> T) (n : nat) (count : T) : list T :=
  match n with O => [] | S n' => count :: counts incr n' (incr count) end.

(** What a test of [n] pushes prints. *)
Definition test_output {T} (incr : T -> T) (n : nat) (start : T) : list (line T) :=
  (Pushing <$> counts incr n start) ++ (Popping <$> rev (counts incr n start)).

Lemma length_counts {T} (incr : T -> T) n c : length (counts incr n c) = n.
Proof. revert c. induction n as [|n IH]; intros c; cbn; [done|]. by rewrite IH. Qed.

(** Of two parts of a heap either can be taken for the frame of the other. *)
Lemma sep_swap {T} (P Q : heap T -> Prop) f g h :
  sep P g h -> sep Q f g -> exists g', sep Q g' h /\ sep P f g'.
Proof.
  intros (p & HP & Hd & ->) (q & HQ & Hd' & ->). apply map_disjoint_union_r in Hd as [Hpq Hpf].
  exists (p ∪ f). split.
  - exists q. split; [done|]. split; [apply map_disjoint_union_r; by split|].
    rewrite !(assoc_L (∪)). f_equal. by apply map_union_comm.
  - by exists p.
Qed.

(** ** Against the interface *)

Section Clients.
Context {T St : Type} `{StackLaws T St}.

Lemma push_some_ok incr n : forall count f h s xs,
  holds f h s xs -> (forall m, room s = Some m -> (length xs + n <= m)%nat) ->
  exists h' s', push_some incr n count (h, s) = Ok (Pushing <$> counts incr n count, (h', s')) /\
    holds f h' s' (rev (counts incr n count) ++ xs) /\ room s' = room s.
Proof.
  induction n as [|n IH]; intros count f h s xs Hh Hr; cbn [push_some counts]; [by exists h, s|].
  assert (room s <> Some (length xs)) as Hnf by (intros E; specialize (Hr _ E); lia).
  cbn [snd]. rewrite (Full_law _ _ _ _ Hh), bool_decide_false by done. cbn [negb ASSERT mbind outcome_bind].
  destruct (Push_law _ _ _ _ count Hh Hnf) as (h1 & s1 & -> & Hh1 & Hr1). cbn [mbind outcome_bind].
  destruct (IH (incr count) f h1 s1 (count :: xs)) as (h2 & s2 & -> & Hh2 & Hr2); [done| |].
  { rewrite Hr1. intros m Hm. specialize (Hr _ Hm). cbn [length]. lia. }
  exists h2, s2. split; [done|]. rewrite Hr2, Hr1. split; [|done].
  cbn [rev]. by rewrite <- app_assoc.
Qed.

(** The push that meets a full stack aborts. *)
Lemma push_some_full incr n : forall count f h s xs m,
  holds f h s xs -> room s = Some m -> (m < length xs + n)%nat ->
  push_some incr n count (h, s) = Fault AssertFailed.
Proof.
  induction n as [|n IH]; intros count f h s xs m Hh Hm Hlt.
  - pose proof (room_law _ _ _ _ _ Hh Hm). lia.
  - cbn [push_some snd]. rewrite (Full_law _ _ _ _ Hh). case_bool_decide as E; [done|].
    cbn [negb ASSERT mbind outcome_bind].
    destruct (Push_law _ _ _ _ count Hh E) as (h1 & s1 & -> & Hh1 & Hr1). cbn [mbind outcome_bind].
    rewrite (IH (incr count) f h1 s1 (count :: xs) m); [done|done|congruence|cbn [length]; lia].
Qed.

Lemma push_all_ok incr n : forall fuel count f h s xs,
  holds f h s xs -> room s = Some (length xs + n)%nat -> (n < fuel)%nat ->
  exists h' s', push_all incr fuel count (h, s) = Ok (Pushing <$> counts incr n count, (h', s')) /\
    holds f h' s' (rev (counts incr n count) ++ xs) /\ room s' = room s.
Proof.
  induction n as [|n IH]; intros [|fuel] count f h s xs Hh Hr Hf; try lia;
    cbn [push_all counts snd]; rewrite (Full_law _ _ _ _ Hh).
  - rewrite bool_decide_true by (rewrite Hr; f_equal; lia). by exists h, s.
  - assert (room s <> Some (length xs)) as Hnf by (rewrite Hr; intros [= E]; lia).
    rewrite bool_decide_false by done. cbn [negb].
    destruct (Push_law _ _ _ _ count Hh Hnf) as (h1 & s1 & -> & Hh1 & Hr1). cbn [mbind outcome_bind].
    destruct (IH fuel (incr count) f h1 s1 (count :: xs)) as (h2 & s2 & -> & Hh2 & Hr2);
      [done|rewrite Hr1, Hr; f_equal; cbn [length]; lia|lia|].
    exists h2, s2. split; [done|]. rewrite Hr2, Hr1. split; [|done].
    cbn [rev]. by rewrite <- app_assoc.
Qed.

Lemma pop_all_ok : forall xs fuel f h s,
  holds f h s xs -> (length xs < fuel)%nat ->
  exists h' s', pop_all fuel (h, s) = Ok (Popping <$> xs, (h', s')) /\ holds f h' s' [] /\ room s' = room s.
Proof.
  induction xs as [|x xs IH]; intros [|fuel] f h s Hh Hf; cbn [length] in Hf; try lia;
    cbn [pop_all snd]; rewrite (Empty_law _ _ _ _ Hh).
  - rewrite bool_decide_true by done. by exists h, s.
  - rewrite bool_decide_false by done. cbn [negb].
    destruct (Pop_law _ _ _ _ _ Hh) as (h1 & s1 & -> & Hh1 & Hr1). cbn [mbind outcome_bind].
    destruct (IH fuel f h1 s1) as (h2 & s2 & -> & Hh2 & Hr2); [done|lia|].
    exists h2, s2. rewrite Hr2. done.
Qed.

(** The self test of an empty stack that fills it. *)
Lemma SelfTest_full_ok incr fuel start n f h s :
  holds f h s [] -> room s = Some n -> (n < fuel)%nat ->
  exists h' s', SelfTest_full incr fuel start (h, s) = Ok (test_output incr n start, (h', s')) /\
    holds f h' s' [] /\ room s' = room s.
Proof.
  intros Hh Hr Hf. unfold SelfTest_full.
  destruct (push_all_ok incr n fuel start f h s [] Hh Hr Hf) as (h1 & s1 & -> & Hh1 & Hr1).
  rewrite app_nil_r in Hh1. cbn [mbind outcome_bind].
  destruct (pop_all_ok _ fuel _ _ _ Hh1) as (h2 & s2 & -> & Hh2 & Hr2); [by rewrite length_rev, length_counts|].
  exists h2, s2. by rewrite Hr2.
Qed.

(** The same with another part of the heap to be used next. *)
Lemma SelfTest_full_swap incr fuel start n f g h s (Q : heap T -> Prop) :
  holds g h s [] -> sep Q f g -> room s = Some n -> (n < fuel)%nat ->
  exists h' s' g', SelfTest_full incr fuel start (h, s) = Ok (test_output incr n start, (h', s')) /\
    sep Q g' h' /\ holds f g' s' [] /\ room s' = room s.
Proof.
  intros Hh HQ Hr Hf. destruct (SelfTest_full_ok incr fuel start n _ _ _ Hh Hr Hf) as (h' & s' & -> & Hh' & Hr').
  destruct (sep_swap _ _ _ _ _ Hh' HQ) as (g' & Hq & Hs). by exists h', s', g'.
Qed.

End Clients.

(** ** Clients of stacks of integers *)

Section IntClients.
Context {St : Type} `{StackLaws Z St}.

Lemma SelfTest_ok fuel n f h s :
  holds f h s [] -> 0 <= n -> (forall m, room s = Some m -> n <= Z.of_nat m) -> (Z.to_nat n < fuel)%nat ->
  exists h' s', SelfTest fuel n (h, s) = Ok (test_output incr_int (Z.to_nat n) 17, (h', s')) /\
    holds f h' s' [] /\ room s' = room s.
Proof.
  intros Hh Hn Hr Hf. unfold SelfTest.
  destruct (push_some_ok incr_int (Z.to_nat n) 17 f h s [] Hh) as (h1 & s1 & -> & Hh1 & Hr1).
  { intros m Hm. specialize (Hr _ Hm). cbn. lia. }
  rewrite app_nil_r in Hh1. cbn [mbind outcome_bind].
  destruct (pop_all_ok _ fuel _ _ _ Hh1) as (h2 & s2 & -> & Hh2 & Hr2); [by rewrite length_rev, length_counts|].
  exists h2, s2. by rewrite Hr2.
Qed.

Lemma run_call_ok c f h s xs :
  holds f h s xs ->
  match spec_call (room s) c xs with
  | Ok (r, xs') => exists h' s', run_call c (h, s) = Ok (r, (h', s')) /\ holds f h' s' xs' /\ room s' = room s
  | Fault e => run_call c (h, s) = Fault e
  end.
Proof.
  intros Hh. destruct c as [v| | |]; cbn [spec_call run_call snd].
  - case_bool_decide as E.
    + by rewrite (Push_full_law _ _ _ _ v Hh E).
    + destruct (Push_law _ _ _ _ v Hh E) as (h' & s' & -> & ?). by exists h', s'.
  - destruct xs as [|x xs].
    + by rewrite (Pop_empty_law _ _ _ Hh).
    + destruct (Pop_law _ _ _ _ _ Hh) as (h' & s' & -> & ?). by exists h', s'.
  - rewrite (Full_law _ _ _ _ Hh). by exists h, s.
  - rewrite (Empty_law _ _ _ _ Hh). by exists h, s.
Qed.

(** Every sequence of calls answers, and aborts, as it does on a sequence. *)
Lemma run_calls_ok : forall cs f h s xs,
  holds f h s xs ->
  match spec_calls (room s) cs xs with
  | Ok (rs, xs') => exists h' s', run_calls cs (h, s) = Ok (rs, (h', s')) /\ holds f h' s' xs' /\ room s' = room s
  | Fault e => run_calls cs (h, s) = Fault e
  end.
Proof.
  induction cs as [|c cs IH]; intros f h s xs Hh; cbn [spec_calls run_calls]; [by exists h, s|].
  pose proof (run_call_ok c f h s xs Hh) as Hc.
  destruct (spec_call (room s) c xs) as [[r xs1]|e]; cbn [mbind outcome_bind]; [|by rewrite Hc].
  destruct Hc as (h1 & s1 & -> & Hh1 & Hr1). cbn [mbind outcome_bind].
  specialize (IH f h1 s1 xs1 Hh1). rewrite Hr1 in IH.
  destruct (spec_calls (room s) cs xs1) as [[rs xs2]|e]; cbn [mbind outcome_bind]; [|by rewrite IH].
  destruct IH as (h2 & s2 & -> & Hh2 & Hr2). exists h2, s2. by rewrite Hr2.
Qed.

End IntClients.

(** ** The array implements a stack *)

Definition array_owns {T} (o : heap T) (s : ArrayStack) (xs : list T) : Prop :=
  exists l, o = {[stack s := Array l]} /\ 1 <= size s /\ Z.of_nat (length l) = size s /\
    top s = Z.of_nat (length xs) /\ take (length xs) l = rev xs.

Section ArrayLaws.
Context {T : Type}.

(** What a heap with an array stack looks like to the operations. *)
Lemma array_sep (f h : heap T) s xs :
  sep (fun o => array_owns o s xs) f h ->
  exists l, h = <[stack s := Array l]> f /\ f !! stack s = None /\ array_at h (stack s) = Ok l /\
    1 <= size s /\ Z.of_nat (length l) = size s /\ top s = Z.of_nat (length xs) /\ take (length xs) l = rev xs /\
    (length xs <= length l)%nat.
Proof.
  intros (o & (l & -> & Hs & Hl & Ht & Hx) & Hd & ->). exists l.
  apply map_disjoint_singleton_l in Hd. rewrite <- insert_union_singleton_l.
  split; [done|]. split; [done|]. split; [by unfold array_at; rewrite lookup_insert_eq|].
  apply (f_equal length) in Hx as Hlen. rewrite length_take, length_rev in Hlen. repeat (split; [done|]). lia.
Qed.

Lemma array_sep_intro (f : heap T) s xs l :
  f !! stack s = None -> 1 <= size s -> Z.of_nat (length l) = size s ->
  top s = Z.of_nat (length xs) -> take (length xs) l = rev xs ->
  sep (fun o => array_owns o s xs) f (<[stack s := Array l]> f).
Proof.
  intros Hf Hs Hl Ht Hx. exists {[stack s := Array l]}. split; [by exists l|].
  split; [by apply map_disjoint_singleton_l|apply insert_union_singleton_l].
Qed.

Lemma ArrayStack_Push_ok (f h : heap T) s xs v :
  sep (fun o => array_owns o s xs) f h -> Z.to_nat (size s) <> length xs ->
  exists h' s', ArrayStack_Push v (h, s) = Ok (h', s') /\
    sep (fun o => array_owns o s' (v :: xs)) f h' /\ size s' = size s.
Proof.
  intros Hsep Hr. destruct (array_sep _ _ _ _ Hsep) as (l & Eh & Hf & Ha & Hs & Hl & Ht & Hx & Hle).
  unfold ArrayStack_Push, ArrayStack_Full.
  rewrite (proj2 (Z.eqb_neq _ _)) by lia. cbn [negb ASSERT mbind outcome_bind]. run_ok Ha.
  rewrite wr_ok by lia. cbn [mbind outcome_bind].
  eexists _, _. split; [done|]. split; [|done]. rewrite Eh, insert_insert_eq.
  apply (array_sep_intro f (mkArray (size s) (top s + 1) (stack s))); cbn [size top stack length rev]; try done; try lia.
  - by rewrite length_insert.
  - rewrite Ht, Nat2Z.id. erewrite take_S_r; [|apply list_lookup_insert_eq; lia].
    by rewrite take_insert_ge, Hx by lia.
Qed.

Lemma ArrayStack_Pop_ok (f h : heap T) s x xs :
  sep (fun o => array_owns o s (x :: xs)) f h ->
  exists s', ArrayStack_Pop (h, s) = Ok (x, (h, s')) /\
    sep (fun o => array_owns o s' xs) f h /\ size s' = size s.
Proof.
  intros Hsep. destruct (array_sep _ _ _ _ Hsep) as (l & Eh & Hf & Ha & Hs & Hl & Ht & Hx & Hle).
  cbn [length rev] in *. unfold ArrayStack_Pop, ArrayStack_Empty.
  rewrite (proj2 (Z.eqb_neq _ _)) by lia. cbn [negb ASSERT mbind outcome_bind]. run_ok Ha.
  assert (l !! length xs = Some x) as Hlk.
  { rewrite <- (lookup_take_lt l (S (length xs))), Hx by lia.
    rewrite lookup_app_r by (rewrite length_rev; lia). by rewrite length_rev, Nat.sub_diag. }
  rewrite (rd_lookup l (top s - 1) x) by (try lia; by replace (Z.to_nat (top s - 1)) with (length xs) by lia).
  cbn [mbind outcome_bind]. eexists. split; [done|]. split; [|done]. rewrite Eh.
  apply (array_sep_intro f (mkArray (size s) (top s - 1) (stack s))); cbn [size top stack]; try done; try lia.
  erewrite take_S_r in Hx by done. by apply app_inj_tail in Hx as [? _].
Qed.

#[export, refine] Instance array_stack_laws : StackLaws T ArrayStack := {
  owns := array_owns;
  room := fun s => Some (Z.to_nat (size s));
}.
Proof.
  - intros f h s xs Hsep. destruct (array_sep _ _ _ _ Hsep) as (l & _ & _ & _ & _ & _ & Ht & _).
    cbn. unfold ArrayStack_Empty. destruct xs; [by rewrite Ht, bool_decide_true|].
    rewrite bool_decide_false by done. cbn in Ht. bool_cases; (done || lia).
  - intros f h s xs Hsep. destruct (array_sep _ _ _ _ Hsep) as (l & _ & _ & _ & Hs & Hl & Ht & _).
    cbn. unfold ArrayStack_Full. case_bool_decide as E; bool_cases; try done; [injection E; lia|].
    destruct E. f_equal. lia.
  - intros f h s xs n Hsep [= <-]. destruct (array_sep _ _ _ _ Hsep) as (l & _ & _ & _ & Hs & Hl & _ & _ & Hle). lia.
  - intros f h s xs v Hsep Hr.
    destruct (ArrayStack_Push_ok f h s xs v Hsep) as (h' & s' & E & Hs' & Hz); [congruence|].
    exists h', s'. by rewrite Hz.
  - intros f h s xs v Hsep [= Hr]. destruct (array_sep _ _ _ _ Hsep) as (l & _ & _ & _ & Hs & _ & Ht & _).
    cbn. unfold ArrayStack_Full. by rewrite (proj2 (Z.eqb_eq _ _)) by lia.
  - intros f h s x xs Hsep. destruct (ArrayStack_Pop_ok f h s x xs Hsep) as (s' & E & Hs' & Hz).
    exists h, s'. by rewrite Hz.
  - intros f h s Hsep. destruct (array_sep _ _ _ _ Hsep) as (l & _ & _ & _ & _ & _ & Ht & _).
    cbn. unfold ArrayStack_Empty. by rewrite Ht.
  - intros f h s xs Hsep. destruct (array_sep _ _ _ _ Hsep) as (l & Eh & Hf & Ha & _).
    cbn. run_ok Ha. by rewrite Eh, delete_insert_id.
Defined.

End ArrayLaws.

Lemma ArrayStack_new_ok {T} `{Alloc T} (h : heap T) sz :
  1 <= sz -> exists h' s, ArrayStack_new h sz = Ok (h', s) /\ holds h h' s [] /\ room (T:=T) s = Some (Z.to_nat sz).
Proof.
  intros Hsz. unfold ArrayStack_new. rewrite ASSERT_true by (rewrite Z.geb_leb; by apply Z.leb_le).
  cbn [mbind outcome_bind]. destruct (new_addr_fresh h) as [_ Hnone].
  eexists _, _. split; [done|]. split; [|done].
  apply (array_sep_intro h (mkArray sz 0 (new_addr h))); cbn [size top stack]; try done.
  rewrite garbage_length. lia.
Qed.

(** ** The list implements a stack *)

(** [chain p xs lst o]: the cells [o] hold [xs] from [p] on, and [lst] is the
    last of them. *)
Fixpoint chain (p : Z) (xs : list Z) (lst : Z) (o : heap Z) : Prop :=
  match xs with
  | [] => p = NULL /\ o = ∅
  | x :: xs' => p <> NULL /\ (xs' = [] -> lst = p) /\
      exists n o', o' !! p = None /\ o = <[p := ListElement n x]> o' /\ chain n xs' lst o'
  end.

Definition list_owns (o : heap Z) (s : ListStack) (xs : list Z) : Prop := chain (first s) xs (last s) o.

Lemma chain_last : forall xs p lst o, chain p xs lst o -> xs <> [] -> is_Some (o !! lst).
Proof.
  induction xs as [|x xs IH]; intros p lst o Hc Hne; [done|].
  destruct Hc as (_ & Hl & n & o' & Hp & -> & Hc).
  destruct (decide (lst = p)) as [->|Hd]; [by rewrite lookup_insert_eq|].
  rewrite lookup_insert_ne by done. apply (IH n); [done|]. intros ->. by apply Hd, Hl.
Qed.

Lemma chain_size : forall xs p lst o, chain p xs lst o -> base.size o = length xs.
Proof.
  induction xs as [|x xs IH]; intros p lst o; cbn [chain length].
  - intros [_ ->]. apply map_size_empty.
  - intros (_ & _ & n & o' & Hp & -> & Hc). rewrite map_size_insert_None by done. f_equal. by eapply IH.
Qed.

Section ListLaws.
Context `{Alloc Z}.

Lemma chain_Empty p xs lst o : chain p xs lst o -> (p =? NULL) = bool_decide (xs = []).
Proof.
  destruct xs as [|x xs]; cbn [chain].
  - by intros [-> _].
  - intros (Hp & _). rewrite bool_decide_false by done. by apply Z.eqb_neq.
Qed.

Lemma list_Empty f h s xs : sep (fun o => list_owns o s xs) f h -> List_Empty s = bool_decide (xs = []).
Proof. intros (o & Ho & _). by eapply chain_Empty. Qed.

Lemma List_Prepend_ok f h s xs v :
  sep (fun o => list_owns o s xs) f h ->
  exists h' s', List_Prepend h s v = (h', s') /\ sep (fun o => list_owns o s' (v :: xs)) f h'.
Proof.
  intros (o & Ho & Hd & ->). destruct (new_addr_fresh (o ∪ f)) as [Hnn Hnone].
  remember (new_addr (o ∪ f)) as a eqn:Ea. apply lookup_union_None in Hnone as [Hoa Hfa].
  unfold List_Prepend, List_Empty. rewrite (chain_Empty _ _ _ _ Ho), <- Ea.
  assert (forall n lst, (xs = [] -> lst = a) -> chain n xs lst o ->
    sep (fun o => list_owns o (mkList a lst) (v :: xs)) f (<[a := ListElement n v]> (o ∪ f))) as Hnew.
  { intros n lst Hl Hc. exists (<[a := ListElement n v]> o). split; [|split].
    - cbn. split; [done|]. split; [done|]. by exists n, o.
    - by apply map_disjoint_insert_l_2.
    - by rewrite insert_union_l. }
  case_bool_decide as E; eexists _, _; (split; [done|]); apply Hnew; try done.
  subst xs. destruct Ho as [_ ->]. done.
Qed.

Lemma List_Remove_ok f h s x xs :
  sep (fun o => list_owns o s (x :: xs)) f h ->
  exists h' s', List_Remove h s = Ok (x, (h', s')) /\ sep (fun o => list_owns o s' xs) f h'.
Proof.
  intros (o & (Hp & Hl & n & o' & Ho' & -> & Hc) & Hd & ->). apply map_disjoint_insert_l in Hd as [Hfp Hd].
  unfold List_Remove, List_Empty. rewrite (proj2 (Z.eqb_neq (first s) NULL)) by done. cbn [negb ASSERT mbind outcome_bind].
  unfold element_at. rewrite <- insert_union_l, lookup_insert_eq. cbn [mbind outcome_bind].
  eexists _, _. split; [done|]. rewrite delete_insert_id by (by apply lookup_union_None).
  exists o'. split; [|done]. unfold list_owns. destruct (Z.eqb_spec (first s) (last s)) as [E|E]; cbn [first last].
  - destruct (decide (xs = [])) as [->|Hne]; [by destruct Hc as [_ ->]; split|].
    destruct (chain_last _ _ _ _ Hc Hne) as [c Hlk]. congruence.
  - done.
Qed.

Lemma List_clear_ok : forall xs fuel f h s,
  sep (fun o => list_owns o s xs) f h -> (length xs < fuel)%nat -> List_clear fuel h s = Ok f.
Proof.
  induction xs as [|x xs IH]; intros [|fuel] f h s Hsep Hf; cbn [length] in Hf; try lia;
    cbn [List_clear]; rewrite (list_Empty _ _ _ _ Hsep).
  - rewrite bool_decide_true by done. destruct Hsep as (o & [_ ->] & _ & ->). by rewrite (left_id_L ∅ (∪)).
  - rewrite bool_decide_false by done. cbn [negb].
    destruct (List_Remove_ok _ _ _ _ _ Hsep) as (h' & s' & -> & Hs'). cbn [mbind outcome_bind]. apply IH; [done|lia].
Qed.

#[export, refine] Instance list_stack_laws : StackLaws Z ListStack := {
  owns := list_owns;
  room := fun _ => None;
}.
Proof.
  - exact list_Empty.
  - done.
  - done.
  - intros f h s xs v Hsep _. destruct (List_Prepend_ok f h s xs v Hsep) as (h' & s' & E & Hs').
    exists h', s'. split; [|done]. cbn. unfold ListStack_Push. cbn [fst snd]. by rewrite E.
  - done.
  - intros f h s x xs Hsep. destruct (List_Remove_ok f h s x xs Hsep) as (h' & s' & E & Hs').
    exists h', s'. split; [|done]. cbn. unfold ListStack_Pop. cbn [fst snd].
    by rewrite (list_Empty _ _ _ _ Hsep), bool_decide_false by done.
  - intros f h s Hsep. cbn. unfold ListStack_Pop. cbn [fst snd].
    by rewrite (list_Empty _ _ _ _ Hsep), bool_decide_true by done.
  - intros f h s xs Hsep. change (Delete (h, s)) with (List_clear (S (base.size h)) h s).
    apply List_clear_ok with xs; [done|].
    destruct Hsep as (o & Ho & Hd & ->). rewrite map_size_disj_union by done. rewrite (chain_size _ _ _ _ Ho). lia.
Defined.

End ListLaws.

Lemma List_new_ok `{Alloc Z} (h : heap Z) : holds h h List_new [].
Proof. exists ∅. split; [done|]. split; [apply map_disjoint_empty_l|by rewrite (left_id_L ∅ (∪))]. Qed.

(** ** Theorems *)

(** The array and the list are the same stack.  On any heap, any sequence of
    calls of [Push], [Pop], [Full] and [Empty] on a new [ArrayStack(sz)] and on a
    new [ListStack] gives the answers it gives on a sequence of at most [sz]
    values and on an unbounded one, in last-in first-out order, and aborts
    exactly where a full or empty sequence refuses the call; deleting the stack
    afterwards leaves the heap as it was before the stack was made. *)
Theorem stacks_are_sequences `{Alloc Z} (h : heap Z) (sz : Z) (cs : list call) :
  1 <= sz ->
  exists h0 s0, ArrayStack_new h sz = Ok (h0, s0) /\
    match spec_calls (Some (Z.to_nat sz)) cs [] with
    | Ok (rs, _) => exists hs, run_calls cs (h0, s0) = Ok (rs, hs) /\ Delete hs = Ok h
    | Fault e => run_calls cs (h0, s0) = Fault e
    end /\
    match spec_calls None cs [] with
    | Ok (rs, _) => exists hs, run_calls cs (h, List_new) = Ok (rs, hs) /\ Delete hs = Ok h
    | Fault e => run_calls cs (h, List_new) = Fault e
    end.
Proof.
  intros Hsz. destruct (ArrayStack_new_ok h sz Hsz) as (h0 & s0 & -> & Hh & Hr).
  exists h0, s0. split; [done|]. split.
  - pose proof (run_calls_ok cs h h0 s0 [] Hh) as Hc. rewrite Hr in Hc.
    destruct (spec_calls _ cs []) as [[rs xs]|e]; [|done].
    destruct Hc as (h' & s' & -> & Hh' & _). exists (h', s'). split; [done|]. by apply Delete_law in Hh'.
  - pose proof (run_calls_ok cs h h List_new [] (List_new_ok h)) as Hc.
    change (room List_new) with (@None nat) in Hc.
    destruct (spec_calls _ cs []) as [[rs xs]|e]; [|done].
    destruct Hc as (h' & s' & -> & Hh' & _). exists (h', s'). split; [done|]. by apply Delete_law in Hh'.
Qed.

(** An allocator: one past the greatest address in use. *)
Definition bump_addr (h : heap Z) : Z := 1 + map_fold (fun a _ m => Z.max a m) 0 h.

Lemma bump_above (h : heap Z) :
  0 < bump_addr h /\ forall a c, h !! a = Some c -> a < bump_addr h.
Proof.
  unfold bump_addr. revert h. refine (map_fold_weak_ind (fun m (h : heap Z) =>
    0 < 1 + m /\ forall a c, h !! a = Some c -> a < 1 + m) _ _ _ _).
  - split; [lia|]. intros a c Ha. by rewrite lookup_empty in Ha.
  - intros b c' h m Hb [Hm IH]. split; [lia|]. intros a c Ha.
    destruct (decide (a = b)) as [->|]; [lia|].
    rewrite lookup_insert_ne in Ha by done. specialize (IH a c Ha). lia.
Qed.

#[export, refine] Instance bump_alloc : Alloc Z := {
  new_addr := bump_addr;
  garbage := fun n => replicate (Z.to_nat n) 7;
}.
Proof.
  - intros h. destruct (bump_above h) as [H0 Hb]. split; [unfold NULL; lia|].
    destruct (h !! bump_addr h) as [c|] eqn:E; [|done]. specialize (Hb _ _ E). lia.
  - intros n. apply length_replicate.
Defined.

Lemma stacks_are_sequences_witness : exists h0 s0 hs,
  ArrayStack_new ∅ 2 = Ok (h0, s0) /\
  run_calls [CPush 5; CPush 6; CFull; CPop; CPop; CEmpty] (h0, s0) =
    Ok ([ADone; ADone; ABool true; AValue 6; AValue 5; ABool true], hs) /\ Delete hs = Ok ∅.
Proof.
  destruct (stacks_are_sequences ∅ 2 [CPush 5; CPush 6; CFull; CPop; CPop; CEmpty] ltac:(lia))
    as (h0 & s0 & E & (hs & Hr & Hd) & _).
  exists h0, s0, hs. exact (conj E (conj Hr Hd)).
Defined.

(** The self test of the abstract class, on whatever implementation: it prints
    the pushes, counting up from 17, and the pops in reverse; or it aborts when
    the stack is too small. *)
Theorem SelfTest_prints {St} `{StackLaws Z St} fuel n f h s :
  holds f h s [] -> 0 <= n -> (Z.to_nat n < fuel)%nat ->
  match room s with
  | Some m => if Z.of_nat m <? n then SelfTest fuel n (h, s) = Fault AssertFailed
              else exists hs, SelfTest fuel n (h, s) = Ok (test_output incr_int (Z.to_nat n) 17, hs)
  | None => exists hs, SelfTest fuel n (h, s) = Ok (test_output incr_int (Z.to_nat n) 17, hs)
  end.
Proof.
  intros Hh Hn Hf.
  assert ((forall m, room s = Some m -> n <= Z.of_nat m) ->
    exists hs, SelfTest fuel n (h, s) = Ok (test_output incr_int (Z.to_nat n) 17, hs)) as Hok.
  { intros Hr. destruct (SelfTest_ok fuel n f h s Hh Hn Hr Hf) as (h' & s' & -> & _). by exists (h', s'). }
  destruct (room s) as [m|] eqn:Er; [|by apply Hok].
  destruct (Z.ltb_spec (Z.of_nat m) n) as [Hlt|Hge]; [|apply Hok; by intros ? [= <-]].
  unfold SelfTest. rewrite (push_some_full incr_int (Z.to_nat n) 17 f h s [] m Hh Er); [done|cbn [length]; lia].
Qed.

Lemma SelfTest_prints_witness : exists hs,
  SelfTest 4 3 (∅, List_new) = Ok ([Pushing 17; Pushing 18; Pushing 19; Popping 19; Popping 18; Popping 17], hs).
Proof. exact (SelfTest_prints 4 3 ∅ ∅ List_new (List_new_ok ∅) ltac:(lia) ltac:(cbn; lia)). Defined.

(** The three programs, for every allocator: the output, and the heap at the end. *)
Section Programs.
Context `{Alloc Z}.

Lemma test_fuel_enough : (10 < test_fuel)%nat.
Proof. unfold test_fuel. lia. Qed.

(** Run a step whose result is known, and leave the calls after it folded. *)
Ltac step_ok E := rewrite E, bind_Ok; cbv beta iota.

Lemma stack_main_ok (h : heap Z) : stack_main h = Ok (test_output incr_int 10 17, h).
Proof.
  destruct (ArrayStack_new_ok h 10) as (h1 & s1 & E1 & Hh1 & Hr1); [lia|].
  unfold stack_main. step_ok E1.
  destruct (SelfTest_full_ok incr_int test_fuel 17 10 _ _ _ Hh1 Hr1 test_fuel_enough) as (h2 & s2 & E2 & Hh2 & _).
  step_ok E2. by rewrite (Delete_law _ _ _ _ Hh2).
Qed.

Lemma inherit_main_ok (h : heap Z) :
  inherit_main h = Ok (Testing Array_Stack :: test_output incr_int 10 17 ++
    Testing List_Stack :: test_output incr_int 10 17, h).
Proof.
  destruct (ArrayStack_new_ok h 10) as (h1 & s1 & E1 & Hh1 & Hr1); [lia|].
  unfold inherit_main. step_ok E1.
  destruct (SelfTest_ok test_fuel 10 _ _ _ Hh1) as (h2 & s2 & E2 & Hh2 & _);
    [lia|rewrite Hr1; intros m [= <-]; lia|exact test_fuel_enough|]. step_ok E2.
  destruct (SelfTest_ok test_fuel 10 _ _ _ (List_new_ok h2)) as (h3 & s3 & E3 & Hh3 & _);
    [lia|done|exact test_fuel_enough|]. step_ok E3. destruct (sep_swap _ _ _ _ _ Hh3 Hh2) as (g & Hs2 & Hs3).
  step_ok (Delete_law _ _ _ _ Hs2). by rewrite (Delete_law _ _ _ _ Hs3).
Qed.

Lemma template_main_ok (h : heap Z) :
  template_main h = Ok (Testing Stack_int :: test_output incr_int 10 17 ++
    Testing Stack_char :: test_output incr_char 10 97, h).
Proof.
  destruct (ArrayStack_new_ok h 10) as (h1 & s1 & E1 & Hh1 & Hr1); [lia|].
  unfold template_main. step_ok E1.
  destruct (ArrayStack_new_ok h1 10) as (h2 & s2 & E2 & Hh2 & Hr2); [lia|]. step_ok E2.
  destruct (sep_swap _ _ _ _ _ Hh2 Hh1) as (g1 & Hs1 & Hs2).
  destruct (SelfTest_full_swap incr_int test_fuel 17 10 _ _ _ _ _ Hs1 Hs2 Hr1 test_fuel_enough)
    as (h3 & s1' & g2 & E3 & Hq2 & Hq1 & _). step_ok E3.
  destruct (SelfTest_full_swap incr_char test_fuel 97 10 _ _ _ _ _ Hq2 Hq1 Hr2 test_fuel_enough)
    as (h4 & s2' & g3 & E4 & Hq1' & Hq2' & _). step_ok E4.
  step_ok (Delete_law _ _ _ _ Hq1'). by rewrite (Delete_law _ _ _ _ Hq2').
Qed.

(** The programs print their tests and free all they allocate. *)
Theorem programs_print_and_free (h : heap Z) :
  stack_main h = Ok (test_output incr_int 10 17, h) /\
  inherit_main h = Ok (Testing Array_Stack :: test_output incr_int 10 17 ++
    Testing List_Stack :: test_output incr_int 10 17, h) /\
  template_main h = Ok (Testing Stack_int :: test_output incr_int 10 17 ++
    Testing Stack_char :: test_output incr_char 10 97, h).
Proof. auto using stack_main_ok, inherit_main_ok, template_main_ok. Qed.

End Programs.

(** The output of stack.cc, as numbers. *)
Example stack_program_output : exists out,
  stack_main ∅ = Ok (out, ∅) /\
  out = [Pushing 17; Pushing 18; Pushing 19; Pushing 20; Pushing 21; Pushing 22; Pushing 23; Pushing 24;
         Pushing 25; Pushing 26; Popping 26; Popping 25; Popping 24; Popping 23; Popping 22; Popping 21;
         Popping 20; Popping 19; Popping 18; Popping 17].
Proof. eexists. split; [|reflexivity]. by rewrite (proj1 (programs_print_and_free ∅)). Qed.

End Stacks.
