(* ===== verification/MachineSim.v ===== *)
(** * machine/machine.{h,cc}, machine/translate.{h,cc}: registers, memory, translation

    [Machine.t] is class [Machine]: main memory as an array of bytes, the 40
    CPU registers as [int]s, and either a TLB or a linear page table.
    [RaiseException] is split at the call of [ExceptionHandler]: [raise_entry]
    is what runs before it, and an operation that raises returns the exception
    ([inl]) so that the kernel's handler runs next; every caller in the machine
    simulation returns at once after an exception, so nothing is left to run. *)

From S2P Require Import Prelude.

Local Open Scope Z_scope.

Module Machine.

(** ** Constants of machine/disk.h and machine/machine.h *)

Definition SectorSize : Z := 512.
Definition PageSize : Z := SectorSize.
Definition NumPhysPages : Z := 128.
Definition MemorySize : Z := NumPhysPages * PageSize.
Definition TLBSize : Z := 4.

Definition StackReg : Z := 29.
Definition RetAddrReg : Z := 31.
Definition NumGPRegs : Z := 32.
Definition HiReg : Z := 32.
Definition LoReg : Z := 33.
Definition PCReg : Z := 34.
Definition NextPCReg : Z := 35.
Definition PrevPCReg : Z := 36.
Definition LoadReg : Z := 37.
Definition LoadValueReg : Z := 38.
Definition BadVAddrReg : Z := 39.
Definition NumTotalRegs : Z := 40.

Inductive ExceptionType :=
| NoException | SyscallException | PageFaultException | ReadOnlyException
| BusErrorException | AddressErrorException | OverflowException
| IllegalInstrException | NumExceptionTypes.

#[export] Instance ExceptionType_eq_dec : EqDecision ExceptionType.
Proof. solve_decision. Defined.

(** ** State *)

Record TranslationEntry := mkEntry {
  virtualPage : Z;
  physicalPage : Z;
  valid : bool;
  readOnly : bool;
  use : bool;
  dirty : bool;
}.

Record t := mk {
  mainMemory : list Z;                        (* char *mainMemory, as bytes 0..255 *)
  registers : list Z;                         (* int registers[NumTotalRegs] *)
  tlb : option (list TranslationEntry);       (* NULL or TLBSize entries *)
  pageTable : option (list TranslationEntry); (* NULL or the entries it points to *)
  pageTableSize : Z;
  singleStep : bool;
  runUntilTime : Z;
}.

Definition set_registers (m : t) (rs : list Z) : t :=
  mk (mainMemory m) rs (tlb m) (pageTable m) (pageTableSize m) (singleStep m) (runUntilTime m).
Definition set_memory (m : t) (mem : list Z) : t :=
  mk mem (registers m) (tlb m) (pageTable m) (pageTableSize m) (singleStep m) (runUntilTime m).
Definition set_tlb (m : t) (es : list TranslationEntry) : t :=
  mk (mainMemory m) (registers m) (Some es) (pageTable m) (pageTableSize m) (singleStep m) (runUntilTime m).
Definition set_pageTable (m : t) (es : list TranslationEntry) : t :=
  mk (mainMemory m) (registers m) (tlb m) (Some es) (pageTableSize m) (singleStep m) (runUntilTime m).

(** [Machine::Machine] of the configuration without [USE_TLB]; [CheckEndian]
    only checks how the host was configured.  The constructor does not set
    [pageTableSize] and [runUntilTime]: [raw] and [raw'] are what they held. *)
Definition Machine_new (raw raw' : Z) (debug : bool) : t :=
  mk (replicate (Z.to_nat MemorySize) 0) (replicate (Z.to_nat NumTotalRegs) 0)
     None None raw debug raw'.

(** ** Registers *)

Definition rreg (m : t) (num : Z) : outcome Z := rd (registers m) num.
Definition wreg (m : t) (num value : Z) : outcome t :=
  rs ← wr (registers m) num value; Ok (set_registers m rs).

Definition reg_ok (num : Z) : bool := (num >=? 0) && (num <? NumTotalRegs).

Definition ReadRegister (m : t) (num : Z) : outcome Z :=
  _ ← ASSERT (reg_ok num); rreg m num.

Definition WriteRegister (m : t) (num value : Z) : outcome t :=
  _ ← ASSERT (reg_ok num); wreg m num value.

(** machine/mipssim.cc: apply the pending load, then record the next one. *)
Definition DelayedLoad (m : t) (nextReg nextValue : Z) : outcome t :=
  lr ← rreg m LoadReg;
  lv ← rreg m LoadValueReg;
  m ← wreg m lr lv;
  m ← wreg m LoadReg nextReg;
  m ← wreg m LoadValueReg nextValue;
  wreg m 0 0.

(** [Machine::RaiseException] up to the call of [ExceptionHandler]. *)
Definition raise_entry (m : t) (badVAddr : Z) : outcome t :=
  m ← wreg m BadVAddrReg badVAddr;
  DelayedLoad m 0 0.

(** ** Byte order *)

Definition WordToHost (big : bool) (word : Z) : Z :=
  if big then
    Z.lor (Z.lor (Z.lor (Z.land (Z.shiftr word 24) 0x000000ff)
                        (Z.land (Z.shiftr word 8) 0x0000ff00))
                 (Z.land (u32 (Z.shiftl word 8)) 0x00ff0000))
          (Z.land (u32 (Z.shiftl word 24)) 0xff000000)
  else word.

Definition ShortToHost (big : bool) (shortword : Z) : Z :=
  if big then
    Z.lor (u16 (Z.land (Z.shiftl shortword 8) 0xff00))
          (Z.land (Z.shiftr shortword 8) 0x00ff)
  else shortword.

Definition WordToMachine (big : bool) (word : Z) : Z := WordToHost big word.
Definition ShortToMachine (big : bool) (shortword : Z) : Z := ShortToHost big shortword.

(** An [n]-byte load or store of the host, in its own byte order. *)
Definition host_load (big : bool) (bs : list Z) : Z :=
  le_value (if big then rev bs else bs).
Definition host_store (big : bool) (n : nat) (z : Z) : list Z :=
  let bs := le_bytes n z in if big then rev bs else bs.

(** [&machine->mainMemory[a]] as [n] bytes. *)
Definition mem_bytes (m : t) (a : Z) (n : nat) : outcome (list Z) :=
  if (0 <=? a) && (a + Z.of_nat n <=? Z.of_nat (length (mainMemory m)))
  then Ok (slice (mainMemory m) (Z.to_nat a) n) else Fault BadAccess.
Definition mem_set (m : t) (a : Z) (bs : list Z) : outcome t :=
  if (0 <=? a) && (a + Z.of_nat (length bs) <=? Z.of_nat (length (mainMemory m)))
  then Ok (set_memory m (splice (mainMemory m) (Z.to_nat a) bs)) else Fault BadAccess.

(** ** Translation *)

Definition misaligned (virtAddr size : Z) : bool :=
  ((size =? 4) && negb (Z.land virtAddr 0x3 =? 0)) ||
  ((size =? 2) && negb (Z.land virtAddr 0x1 =? 0)).

Definition vpn_of (virtAddr : Z) : Z := u32 virtAddr / PageSize.
Definition offset_of (virtAddr : Z) : Z := u32 virtAddr mod PageSize.

(** The search loop over the TLB; the page numbers are compared as unsigned. *)
Fixpoint tlb_find (n : nat) (i : Z) (es : list TranslationEntry) (vpn : Z) : outcome (option Z) :=
  match n with
  | O => Ok None
  | S n' =>
      e ← rd es i;
      if valid e && (u32 (virtualPage e) =? vpn) then Ok (Some i)
      else tlb_find n' (i + 1) es vpn
  end.

(** [entry->use = TRUE; if (writing) entry->dirty = TRUE;] *)
Definition touch (e : TranslationEntry) (writing : bool) : TranslationEntry :=
  mkEntry (virtualPage e) (physicalPage e) (valid e) (readOnly e) true
          (if writing then true else dirty e).

(** The checks after the entry [es[i]] was found; [put] stores the table the
    entry belongs to. *)
Definition finish_translate (m : t) (es : list TranslationEntry) (i : Z)
    (put : list TranslationEntry -> t) (virtAddr size : Z) (writing : bool)
    : outcome (t * (ExceptionType + Z)) :=
  e ← rd es i;
  if readOnly e && writing then Ok (m, inl ReadOnlyException)
  else
    let pageFrame := u32 (physicalPage e) in
    if pageFrame >=? NumPhysPages then Ok (m, inl BusErrorException)
    else
      es' ← wr es i (touch e writing);
      let physAddr := s32 (pageFrame * PageSize + offset_of virtAddr) in
      _ ← ASSERT ((physAddr >=? 0) && (physAddr + size <=? MemorySize));
      Ok (put es', inr physAddr).

Definition Translate (m : t) (virtAddr size : Z) (writing : bool)
    : outcome (t * (ExceptionType + Z)) :=
  if misaligned virtAddr size then Ok (m, inl AddressErrorException)
  else
    match tlb m, pageTable m with
    | Some _, Some _ => Fault AssertFailed
    | None, None => Fault AssertFailed
    | None, Some pt =>
        let vpn := vpn_of virtAddr in
        if vpn >=? pageTableSize m then Ok (m, inl AddressErrorException)
        else
          e ← rd pt vpn;
          if negb (valid e) then Ok (m, inl PageFaultException)
          else finish_translate m pt vpn (set_pageTable m) virtAddr size writing
    | Some es, None =>
        found ← tlb_find (Z.to_nat TLBSize) 0 es (vpn_of virtAddr);
        match found with
        | None => Ok (m, inl PageFaultException)
        | Some i => finish_translate m es i (set_tlb m) virtAddr size writing
        end
    end.

(** ** Virtual memory accesses *)

Definition ReadMem_on (big : bool) (m : t) (addr size : Z) : outcome (t * (ExceptionType + Z)) :=
  '(m, r) ← Translate m addr size false;
  match r with
  | inl exception => m ← raise_entry m addr; Ok (m, inl exception)
  | inr physicalAddress =>
      if size =? 1 then
        bs ← mem_bytes m physicalAddress 1; Ok (m, inr (s8 (host_load big bs)))
      else if size =? 2 then
        bs ← mem_bytes m physicalAddress 2; Ok (m, inr (ShortToHost big (host_load big bs)))
      else if size =? 4 then
        bs ← mem_bytes m physicalAddress 4; Ok (m, inr (s32 (WordToHost big (host_load big bs))))
      else Fault AssertFailed
  end.

Definition WriteMem_on (big : bool) (m : t) (addr size value : Z) : outcome (t * (ExceptionType + unit)) :=
  '(m, r) ← Translate m addr size true;
  match r with
  | inl exception => m ← raise_entry m addr; Ok (m, inl exception)
  | inr physicalAddress =>
      if size =? 1 then
        m ← mem_set m physicalAddress (host_store big 1 (Z.land value 0xff)); Ok (m, inr tt)
      else if size =? 2 then
        m ← mem_set m physicalAddress (host_store big 2 (ShortToMachine big (Z.land value 0xffff)));
        Ok (m, inr tt)
      else if size =? 4 then
        m ← mem_set m physicalAddress (host_store big 4 (WordToMachine big (u32 value)));
        Ok (m, inr tt)
      else Fault AssertFailed
  end.

(** The host configured in Makefile.dep is an i386: little endian. *)
Definition HOST_IS_BIG_ENDIAN : bool := false.

Definition ReadMem := ReadMem_on HOST_IS_BIG_ENDIAN.
Definition WriteMem := WriteMem_on HOST_IS_BIG_ENDIAN.

(** ** Specification of translation through a page table *)

Definition is_size (size : Z) : Prop := size = 1 \/ size = 2 \/ size = 4.

(** The answer for the page table [pt] of [n] entries. *)
Definition xlate (pt : list TranslationEntry) (n virtAddr size : Z) (writing : bool)
    : ExceptionType + Z :=
  if misaligned virtAddr size || (n <=? vpn_of virtAddr) then inl AddressErrorException
  else match pt !! Z.to_nat (vpn_of virtAddr) with
       | None => inl AddressErrorException
       | Some e =>
           if negb (valid e) then inl PageFaultException
           else if readOnly e && writing then inl ReadOnlyException
           else if NumPhysPages <=? u32 (physicalPage e) then inl BusErrorException
           else inr (u32 (physicalPage e) * PageSize + offset_of virtAddr)
       end.

(** The table after a successful access to [virtAddr]. *)
Definition touch_at (pt : list TranslationEntry) (virtAddr : Z) (writing : bool)
    : list TranslationEntry :=
  alter (fun e => touch e writing) (Z.to_nat (vpn_of virtAddr)) pt.

(** The machine has exactly one translation table, of the size it claims. *)
Definition table_ok (m : t) : Prop :=
  match tlb m, pageTable m with
  | Some es, None => Z.of_nat (length es) = TLBSize
  | None, Some pt => 0 <= pageTableSize m <= Z.of_nat (length pt)
  | _, _ => False
  end.

(** The registers and the memory hold what their C types allow, and a pending
    load targets a general-purpose register. *)
Definition regs_ok (m : t) : Prop :=
  Z.of_nat (length (registers m)) = NumTotalRegs /\ Forall is_s32 (registers m) /\
  exists lr, registers m !! Z.to_nat LoadReg = Some lr /\ 0 <= lr < NumGPRegs.
Definition mem_ok (m : t) : Prop :=
  Z.of_nat (length (mainMemory m)) = MemorySize /\ Forall is_u8 (mainMemory m).
Definition wf (m : t) : Prop := regs_ok m /\ mem_ok m /\ table_ok m.

(** ** Translation never fails, and stays inside main memory *)

Lemma aligned_offset virtAddr size :
  is_size size -> misaligned virtAddr size = false ->
  0 <= offset_of virtAddr /\ offset_of virtAddr + size <= PageSize.
Proof.
  unfold misaligned, offset_of, u32. change PageSize with 512.
  change 0x3 with (Z.ones 2). change 0x1 with (Z.ones 1).
  rewrite !Z.land_ones by lia. change (2 ^ 2) with 4. change (2 ^ 1) with 2.
  change (2 ^ 32) with 4294967296.
  intros [-> | [-> | ->]]; cbn [Z.eqb Pos.eqb andb orb]; rewrite ?orb_false_r;
    intros H; try (apply negb_false_iff, Z.eqb_eq in H);
    Z.to_euclidean_division_equations; lia.
Qed.

Lemma vpn_nonneg virtAddr : 0 <= vpn_of virtAddr.
Proof. unfold vpn_of. pose proof (u32_range virtAddr) as [? _]. apply Z.div_pos; done. Qed.

#[local] Hint Resolve vpn_nonneg : core.

(** The checks that follow the table lookup, given a page of the table. *)
Lemma finish_translate_spec m es i put virtAddr size writing e :
  is_size size -> misaligned virtAddr size = false ->
  0 <= i -> es !! Z.to_nat i = Some e ->
  finish_translate m es i put virtAddr size writing =
    if readOnly e && writing then Ok (m, inl ReadOnlyException)
    else if NumPhysPages <=? u32 (physicalPage e) then Ok (m, inl BusErrorException)
    else Ok (put (<[Z.to_nat i := touch e writing]> es),
             inr (u32 (physicalPage e) * PageSize + offset_of virtAddr)).
Proof.
  intros Hs Ha Hi He. pose proof (lookup_lt_Some _ _ _ He) as Hlt.
  destruct (aligned_offset virtAddr size Hs Ha) as [Ho1 Ho2].
  unfold finish_translate. rewrite (rd_lookup _ _ _ Hi He). cbn [mbind outcome_bind].
  rewrite Z.geb_leb. destruct (readOnly e && writing); [done|].
  destruct (Z.leb_spec NumPhysPages (u32 (physicalPage e))) as [|Hf]; [done|].
  rewrite wr_ok by lia. cbn [mbind outcome_bind].
  pose proof (u32_range (physicalPage e)) as [Hp _].
  assert (0 < size) by (unfold is_size in Hs; lia).
  unfold NumPhysPages, PageSize, SectorSize in *.
  rewrite s32_small by (unfold is_s32; lia).
  rewrite ASSERT_true; [done|]. rewrite Z.geb_leb, andb_true_iff, !Z.leb_le.
  unfold MemorySize, NumPhysPages, PageSize, SectorSize. lia.
Qed.

Lemma Translate_page_table m pt virtAddr size writing :
  tlb m = None -> pageTable m = Some pt -> is_size size ->
  0 <= pageTableSize m <= Z.of_nat (length pt) ->
  Translate m virtAddr size writing =
    match xlate pt (pageTableSize m) virtAddr size writing with
    | inl e => Ok (m, inl e)
    | inr pa => Ok (set_pageTable m (touch_at pt virtAddr writing), inr pa)
    end.
Proof.
  intros Ht Hp Hs Hn. unfold Translate, xlate. rewrite Ht, Hp.
  destruct (misaligned virtAddr size) eqn:Ha; [done|]. cbn [orb].
  rewrite Z.geb_leb. destruct (Z.leb_spec (pageTableSize m) (vpn_of virtAddr)); [done|].
  destruct (rd_total pt (vpn_of virtAddr)) as (e & Hr & He); [split; [done|lia]|].
  rewrite Hr, He. cbn [mbind outcome_bind]. destruct (valid e); [cbn [negb]|done].
  rewrite (finish_translate_spec _ _ _ _ _ _ _ e) by done.
  destruct (readOnly e && writing); [done|].
  destruct (Z.leb_spec NumPhysPages (u32 (physicalPage e))); [done|].
  do 2 f_equal. unfold touch_at. f_equal. apply list_eq. intros j.
  destruct (decide (Z.to_nat (vpn_of virtAddr) = j)) as [<-|].
  - rewrite list_lookup_insert_eq by (by eapply lookup_lt_Some).
    by rewrite list_lookup_alter_eq, He.
  - by rewrite list_lookup_insert_ne, list_lookup_alter_ne.
Qed.

Lemma tlb_find_ok n i es vpn :
  0 <= i -> i + Z.of_nat n <= Z.of_nat (length es) ->
  exists r, tlb_find n i es vpn = Ok r /\
    match r with
    | None => True
    | Some k => i <= k < i + Z.of_nat n /\
        exists e, es !! Z.to_nat k = Some e /\ valid e = true /\ u32 (virtualPage e) = vpn
    end.
Proof.
  revert i. induction n as [|n IH]; intros i Hi Hn; cbn [tlb_find]; [by exists None|].
  destruct (rd_total es i) as (e & -> & He); [lia|]. cbn [mbind outcome_bind].
  destruct (valid e && (u32 (virtualPage e) =? vpn)) eqn:E.
  - apply andb_true_iff in E as [? ?%Z.eqb_eq]. exists (Some i). split; [done|].
    split; [lia|]. by exists e.
  - destruct (IH (i + 1)) as (r & -> & Hr); [lia|lia|]. exists r. split; [done|].
    destruct r; [|done]. destruct Hr as [? ?]. split; [lia|done].
Qed.

(** With either table, translation returns, keeps the registers and the memory,
    and any address it yields is inside main memory. *)
Lemma Translate_ok m virtAddr size writing :
  table_ok m -> is_size size ->
  exists m' r, Translate m virtAddr size writing = Ok (m', r) /\ table_ok m' /\
    registers m' = registers m /\ mainMemory m' = mainMemory m /\
    match r with
    | inl e => m' = m /\ e ∈ [AddressErrorException; PageFaultException;
                              ReadOnlyException; BusErrorException]
    | inr pa => 0 <= pa /\ pa + size <= MemorySize /\ Z.rem pa PageSize = offset_of virtAddr
    end.
Proof.
  intros Ht Hs.
  assert (Hfin : forall es i put e, misaligned virtAddr size = false -> 0 <= i ->
    es !! Z.to_nat i = Some e ->
    (forall es', length es' = length es -> table_ok (put es') /\
       registers (put es') = registers m /\ mainMemory (put es') = mainMemory m) ->
    exists m' r, finish_translate m es i put virtAddr size writing = Ok (m', r) /\ table_ok m' /\
      registers m' = registers m /\ mainMemory m' = mainMemory m /\
      match r with
      | inl e => m' = m /\ e ∈ [AddressErrorException; PageFaultException;
                                ReadOnlyException; BusErrorException]
      | inr pa => 0 <= pa /\ pa + size <= MemorySize /\ Z.rem pa PageSize = offset_of virtAddr
      end).
  { intros es i put e Ha Hi He Hput. rewrite (finish_translate_spec _ _ _ _ _ _ _ e) by done.
    destruct (aligned_offset virtAddr size Hs Ha) as [Ho1 Ho2].
    pose proof (u32_range (physicalPage e)) as [Hpp _].
    destruct (readOnly e && writing); [do 2 eexists; split; [done|]; set_solver|].
    destruct (Z.leb_spec NumPhysPages (u32 (physicalPage e))) as [|Hf];
      [do 2 eexists; split; [done|]; set_solver|].
    destruct (Hput (<[Z.to_nat i := touch e writing]> es)) as (? & ? & ?); [apply length_insert|].
    do 2 eexists. split; [done|]. do 3 (split; [done|]).
    unfold MemorySize, NumPhysPages, PageSize, SectorSize in *. split; [lia|]. split; [lia|].
    assert (0 < size) by (unfold is_size in Hs; lia).
    rewrite Z.rem_mod_nonneg, Z.add_comm, Z_mod_plus_full by lia. apply Z.mod_small. lia. }
  unfold Translate, table_ok in *.
  destruct (misaligned virtAddr size) eqn:Ha; [do 2 eexists; split; [done|]; set_solver|].
  destruct (tlb m) as [es|] eqn:Et, (pageTable m) as [pt|] eqn:Ep; try done.
  - destruct (tlb_find_ok (Z.to_nat TLBSize) 0 es (vpn_of virtAddr)) as (r & -> & Hr); [lia|lia|].
    cbn [mbind outcome_bind]. destruct r as [i|]; [|do 2 eexists; split; [done|]; rewrite Et, Ep; set_solver].
    destruct Hr as (Hi & e & He & _). apply (Hfin _ _ _ e); [done|lia|done|].
    intros es' Hl. cbn. rewrite Ep, Hl. done.
  - rewrite Z.geb_leb. destruct (Z.leb_spec (pageTableSize m) (vpn_of virtAddr));
      [do 2 eexists; split; [done|]; rewrite Et, Ep; set_solver|].
    destruct (rd_total pt (vpn_of virtAddr)) as (e & -> & He); [split; [done|lia]|].
    cbn [mbind outcome_bind].
    destruct (valid e); cbn [negb]; [|do 2 eexists; split; [done|]; rewrite Et, Ep; set_solver].
    apply (Hfin _ _ _ e); [done|done|done|].
    intros es' Hl. cbn. rewrite Et, Hl. done.
Qed.

(** ** Byte order of the host *)

Lemma le_value_testbit bs k :
  Forall is_u8 bs -> 0 <= k ->
  Z.testbit (le_value bs) k = Z.testbit (nth (Z.to_nat (k / 8)) bs 0) (k mod 8).
Proof.
  intros Hb. revert k. induction Hb as [|b bs Hb _ IH]; intros k Hk.
  - cbn. rewrite Z.bits_0. destruct (Z.to_nat (k / 8)); cbn; by rewrite Z.bits_0.
  - cbn [le_value]. unfold is_u8 in Hb. destruct (Z.ltb_spec k 8).
    + rewrite Z.div_small, Z.mod_small by lia. cbn [nth Z.to_nat].
      rewrite <- (Z.mod_pow2_bits_low _ 8) by lia.
      by rewrite Z.mul_comm, Z_mod_plus_full, Z.mod_small by lia.
    + assert (k / 8 = (k - 8) / 8 + 1) as Eq by (rewrite <- Z.div_add by lia; f_equal; lia).
      assert (k mod 8 = (k - 8) mod 8) as -> by (rewrite <- (Z_mod_plus_full (k - 8) 1 8); f_equal; lia).
      rewrite Eq, Z2Nat.inj_add, Nat.add_1_r by (lia || apply Z.div_pos; lia). cbn [nth].
      rewrite <- IH by lia.
      replace k with (k - 8 + 8) at 1 by lia.
      rewrite <- Z.shiftr_spec, Z.shiftr_div_pow2 by lia. f_equal.
      rewrite Z.mul_comm, Z.div_add, Z.div_small by lia. lia.
Qed.

(** Loading a word in the host's order and swapping it gives the little-endian
    value of the bytes, on both kinds of host. *)
Lemma WordToHost_load big bs :
  length bs = 4%nat -> Forall is_u8 bs -> WordToHost big (host_load big bs) = le_value bs.
Proof.
  destruct big; [|done]. destruct bs as [|b0 [|b1 [|b2 [|b3 [|]]]]]; try done. intros _ Hb.
  assert (Hr : Forall is_u8 [b3; b2; b1; b0]) by exact (List.Forall_rev Hb).
  unfold host_load. cbn [rev app]. set (w := le_value [b3; b2; b1; b0]).
  assert (Hw : forall k, 0 <= k -> Z.testbit w k =
    Z.testbit (nth (Z.to_nat (k / 8)) [b3; b2; b1; b0] 0) (k mod 8))
    by (intros; by apply le_value_testbit).
  unfold WordToHost, u32. apply Z.bits_inj'. intros k Hk.
  rewrite !Z.lor_spec, !Z.land_spec, !Z.shiftr_spec, !Hw by lia.
  rewrite le_value_testbit by done. destruct (Z.ltb_spec k 32) as [Hk'|Hk'].
  - rewrite !Z.mod_pow2_bits_low, !Z.shiftl_spec by lia.
    destruct k as [|k|k]; [|do 5 (try destruct k as [k|k|])|]; try lia;
      rewrite ?Hw by done; cbn; rewrite ?Hw by done; cbn;
      by rewrite ?andb_true_r, ?andb_false_r, ?orb_false_r, ?orb_false_l.
  - rewrite !Z.mod_pow2_bits_high by lia.
    assert (forall c, is_u32 c -> Z.testbit c k = false) as Hc.
    { intros c Hc. rewrite <- (Z.mod_small c (2 ^ 32)) by done.
      by rewrite Z.mod_pow2_bits_high by lia. }
    rewrite !(Hc 255), !(Hc 65280), !andb_false_r by (unfold is_u32; lia). cbn [orb andb].
    rewrite nth_overflow; [by rewrite Z.bits_0|]. cbn.
    assert (4 <= k / 8) by (apply Z.div_le_lower_bound; lia). lia.
Qed.

Lemma ShortToHost_load big bs :
  length bs = 2%nat -> Forall is_u8 bs -> ShortToHost big (host_load big bs) = le_value bs.
Proof.
  destruct big; [|done]. destruct bs as [|b0 [|b1 [|]]]; try done. intros _ Hb.
  assert (Hr : Forall is_u8 [b1; b0]) by exact (List.Forall_rev Hb).
  unfold host_load. cbn [rev app]. set (w := le_value [b1; b0]).
  assert (Hw : forall k, 0 <= k -> Z.testbit w k =
    Z.testbit (nth (Z.to_nat (k / 8)) [b1; b0] 0) (k mod 8))
    by (intros; by apply le_value_testbit).
  unfold ShortToHost, u16. apply Z.bits_inj'. intros k Hk.
  rewrite !Z.lor_spec, !Z.land_spec, !Z.shiftr_spec, !Hw by lia.
  rewrite le_value_testbit by done. destruct (Z.ltb_spec k 16) as [Hk'|Hk'].
  - rewrite !Z.mod_pow2_bits_low, Z.land_spec, !Z.shiftl_spec by lia.
    destruct k as [|k|k]; [|do 4 (try destruct k as [k|k|])|]; try lia;
      rewrite ?Hw by done; cbn; rewrite ?Hw by done; cbn;
      by rewrite ?andb_true_r, ?andb_false_r, ?orb_false_r, ?orb_false_l.
  - rewrite !Z.mod_pow2_bits_high by lia.
    assert (Z.testbit 255 k = false) as ->.
    { rewrite <- (Z.mod_small 255 (2 ^ 8)) by lia. by rewrite Z.mod_pow2_bits_high by lia. }
    rewrite andb_false_r. cbn [orb]. rewrite nth_overflow; [by rewrite Z.bits_0|]. cbn.
    assert (2 <= k / 8) by (apply Z.div_le_lower_bound; lia). lia.
Qed.

Lemma le_bytes_idem n z : le_bytes n (z mod 2 ^ (8 * Z.of_nat n)) = le_bytes n z.
Proof.
  rewrite <- le_value_bytes. rewrite <- (length_le_bytes n z) at 1.
  apply le_bytes_value, le_bytes_u8.
Qed.

(** Swapping and storing in the host's order writes the little-endian bytes. *)
Lemma WordToMachine_store big value :
  host_store big 4 (WordToMachine big (u32 value)) = le_bytes 4 value.
Proof.
  unfold WordToMachine. rewrite <- (le_bytes_idem 4 value).
  change (value mod 2 ^ (8 * Z.of_nat 4)) with (u32 value).
  destruct big; [|done]. unfold host_store.
  pose proof (le_value_bytes 4 (u32 value)) as Hv.
  change (8 * Z.of_nat 4) with 32 in Hv.
  rewrite (Z.mod_small (u32 value)) in Hv by apply u32_range.
  pose proof (WordToHost_load true (rev (le_bytes 4 (u32 value)))) as Hl.
  unfold host_load in Hl. rewrite rev_involutive, Hv, length_rev in Hl.
  rewrite Hl by (done || apply List.Forall_rev, le_bytes_u8).
  rewrite <- (rev_involutive (le_bytes 4 (u32 value))) at 2. f_equal.
  apply (le_bytes_value (rev (le_bytes 4 (u32 value)))). apply List.Forall_rev, le_bytes_u8.
Qed.

Lemma ShortToMachine_store big value :
  host_store big 2 (ShortToMachine big (Z.land value 0xffff)) = le_bytes 2 value.
Proof.
  unfold ShortToMachine. change 0xffff with (Z.ones 16). rewrite Z.land_ones by lia.
  rewrite <- (le_bytes_idem 2 value). change (8 * Z.of_nat 2) with 16.
  destruct big; [|done]. unfold host_store. set (v := value mod 2 ^ 16).
  pose proof (le_value_bytes 2 v) as Hv. change (8 * Z.of_nat 2) with 16 in Hv.
  rewrite (Z.mod_small v) in Hv by (apply Z.mod_pos_bound; lia).
  pose proof (ShortToHost_load true (rev (le_bytes 2 v))) as Hl.
  unfold host_load in Hl. rewrite rev_involutive, Hv, length_rev in Hl.
  rewrite Hl by (done || apply List.Forall_rev, le_bytes_u8).
  rewrite <- (rev_involutive (le_bytes 2 v)) at 2. f_equal.
  apply (le_bytes_value (rev (le_bytes 2 v))). apply List.Forall_rev, le_bytes_u8.
Qed.

(** ** Registers *)

Lemma rreg_ok m num : regs_ok m -> 0 <= num < NumTotalRegs ->
  exists v, rreg m num = Ok v /\ registers m !! Z.to_nat num = Some v /\ is_s32 v.
Proof.
  intros (Hl & Hf & _) Hn. destruct (rd_total (registers m) num) as (v & Hr & Hv); [lia|].
  exists v. split; [done|]. split; [done|]. by eapply Forall_lookup_1.
Qed.

Lemma wreg_ok m num value : regs_ok m -> 0 <= num < NumTotalRegs ->
  wreg m num value = Ok (set_registers m (<[Z.to_nat num := value]> (registers m))).
Proof. intros (Hl & _) Hn. unfold wreg. by rewrite wr_ok by lia. Qed.

Lemma regs_ok_set m num value : regs_ok m -> is_s32 value ->
  num <> LoadReg \/ 0 <= value < NumGPRegs -> 0 <= num < NumTotalRegs ->
  regs_ok (set_registers m (<[Z.to_nat num := value]> (registers m))).
Proof.
  intros (Hl & Hf & lr & Hlr & Hr) Hv Hn Hin. unfold regs_ok; cbn. rewrite length_insert.
  split; [done|]. split; [by apply Forall_insert|].
  destruct (decide (num = LoadReg)) as [->|Hne].
  - exists value. rewrite list_lookup_insert_eq by (unfold NumTotalRegs in *; lia).
    destruct Hn; [done|]. done.
  - exists lr. rewrite list_lookup_insert_ne; [done|]. unfold LoadReg in *. lia.
Qed.

(** Everything but the registers is the same. *)
Definition same_but_regs (m m' : t) : Prop := m' = set_registers m (registers m').

Lemma same_but_regs_refl m : same_but_regs m m.
Proof. by destruct m. Qed.
Lemma same_but_regs_trans m1 m2 m3 :
  same_but_regs m1 m2 -> same_but_regs m2 m3 -> same_but_regs m1 m3.
Proof.
  unfold same_but_regs. destruct m1, m2, m3; cbn. unfold set_registers; cbn. congruence.
Qed.
Lemma same_but_regs_set m rs : same_but_regs m (set_registers m rs).
Proof. done. Qed.
#[local] Hint Resolve same_but_regs_refl same_but_regs_set : core.

Lemma same_but_regs_wf m m' : same_but_regs m m' -> wf m -> regs_ok m' -> wf m'.
Proof.
  unfold same_but_regs, wf, mem_ok, table_ok. destruct m, m'; cbn. intros [= -> -> -> -> -> ->].
  tauto.
Qed.

Lemma wreg_run m num value : regs_ok m -> is_s32 value -> 0 <= num < NumTotalRegs ->
  num <> LoadReg \/ 0 <= value < NumGPRegs ->
  exists m', wreg m num value = Ok m' /\ regs_ok m' /\ same_but_regs m m' /\
    registers m' = <[Z.to_nat num := value]> (registers m).
Proof.
  intros Hm Hv Hn Hl. rewrite wreg_ok by done. eexists. split; [done|].
  split; [by apply regs_ok_set|]. done.
Qed.

(** The three program counters. *)
Definition pcs (m : t) : option Z * option Z * option Z :=
  (registers m !! Z.to_nat PCReg, registers m !! Z.to_nat NextPCReg, registers m !! Z.to_nat PrevPCReg).

Lemma pcs_insert m m' n v :
  registers m' = <[n := v]> (registers m) -> (n < 34 \/ 36 < n)%nat -> pcs m' = pcs m.
Proof.
  intros E Hn. unfold pcs, PCReg, NextPCReg, PrevPCReg. rewrite E.
  by rewrite !list_lookup_insert_ne by lia.
Qed.

(** After a delayed load the pending value is in its register, the new load is
    pending and register 0 is 0. *)
Lemma DelayedLoad_ok m nextReg nextValue :
  regs_ok m -> 0 <= nextReg < NumGPRegs -> is_s32 nextValue ->
  exists m' lr lv, DelayedLoad m nextReg nextValue = Ok m' /\ regs_ok m' /\ same_but_regs m m' /\
    pcs m' = pcs m /\
    registers m !! 37%nat = Some lr /\ registers m !! 38%nat = Some lv /\
    registers m' = <[0%nat := 0]> (<[38%nat := nextValue]> (<[37%nat := nextReg]>
                     (<[Z.to_nat lr := lv]> (registers m)))).
Proof.
  intros Hm Hr Hv. unfold DelayedLoad.
  destruct (rreg_ok m LoadReg Hm) as (lr & -> & Elr & _); [done|].
  destruct (rreg_ok m LoadValueReg Hm) as (lv & -> & Elv & Hlv); [done|].
  assert (0 <= lr < 32) as Hlr.
  { destruct Hm as (_ & _ & lr' & E & ?). rewrite Elr in E. injection E as ->. done. }
  cbn [mbind outcome_bind].
  destruct (wreg_run m lr lv) as (m1 & -> & H1 & S1 & R1);
    [done|done|unfold NumTotalRegs; lia|left; unfold LoadReg; lia|]. cbn [mbind outcome_bind].
  destruct (wreg_run m1 LoadReg nextReg) as (m2 & -> & H2 & S2 & R2);
    [done|unfold is_s32, NumGPRegs in *; lia|done|by right|]. cbn [mbind outcome_bind].
  destruct (wreg_run m2 LoadValueReg nextValue) as (m3 & -> & H3 & S3 & R3);
    [done|done|done|by left|]. cbn [mbind outcome_bind].
  destruct (wreg_run m3 0 0) as (m4 & -> & H4 & S4 & R4);
    [done|unfold is_s32; lia|done|by left|]. cbn [mbind outcome_bind].
  exists m4, lr, lv. split; [done|]. split; [done|].
  split; [eauto using same_but_regs_trans|]. split; [|split; [done|split; [done|by rewrite R4, R3, R2, R1]]].
  rewrite (pcs_insert m3 m4 0 0), (pcs_insert m2 m3 38 nextValue), (pcs_insert m1 m2 37 nextReg) by (done || lia).
  apply (pcs_insert m m1 (Z.to_nat lr) lv); [done|lia].
Qed.

Lemma regs_zero m m' : regs_ok m' -> registers m' = <[0%nat := 0]> m -> registers m' !! 0%nat = Some 0.
Proof.
  intros (Hl & _) E. rewrite E in *. rewrite length_insert in Hl.
  apply list_lookup_insert_eq. unfold NumTotalRegs in Hl. lia.
Qed.

Lemma raise_entry_ok m badVAddr : regs_ok m -> is_s32 badVAddr ->
  exists m', raise_entry m badVAddr = Ok m' /\ regs_ok m' /\ same_but_regs m m' /\
    registers m' !! 0%nat = Some 0 /\ pcs m' = pcs m.
Proof.
  intros Hm Hb. unfold raise_entry.
  destruct (wreg_run m BadVAddrReg badVAddr) as (m1 & -> & H1 & S1 & R1); [done|done|done|by left|].
  cbn [mbind outcome_bind].
  destruct (DelayedLoad_ok m1 0 0) as (m2 & lr & lv & -> & H2 & S2 & P2 & _ & _ & R2);
    [done|done|by unfold is_s32|].
  exists m2. split; [done|]. split; [done|]. split; [by eapply same_but_regs_trans|].
  split; [by eapply regs_zero|]. rewrite P2.
  apply (pcs_insert m m1 39 badVAddr); [done|lia].
Qed.

(** ** Memory accesses *)

(** The value of the bytes of an access of [size] bytes: signed for bytes and
    words, unsigned for half words; and the value a store followed by a load of
    that size gives back. *)
Definition decode (size : Z) (bs : list Z) : Z :=
  if size =? 1 then s8 (le_value bs) else if size =? 2 then le_value bs else s32 (le_value bs).
Definition truncated (size value : Z) : Z :=
  if size =? 1 then s8 value else if size =? 2 then u16 value else s32 value.

Lemma mem_bytes_ok m a n :
  0 <= a -> a + Z.of_nat n <= Z.of_nat (length (mainMemory m)) ->
  mem_bytes m a n = Ok (slice (mainMemory m) (Z.to_nat a) n).
Proof. intros. unfold mem_bytes. by bool_cases; try lia. Qed.

Lemma mem_set_ok m a bs :
  0 <= a -> a + Z.of_nat (length bs) <= Z.of_nat (length (mainMemory m)) ->
  mem_set m a bs = Ok (set_memory m (splice (mainMemory m) (Z.to_nat a) bs)).
Proof. intros. unfold mem_set. by bool_cases; try lia. Qed.

Lemma Forall_slice {A} (P : A -> Prop) l n k : Forall P l -> Forall P (slice l n k).
Proof. intros. by apply Forall_take, Forall_drop. Qed.

(** A load on either kind of host, after the translation. *)
Lemma ReadMem_on_spec big m addr size :
  table_ok m -> mem_ok m -> is_size size ->
  ReadMem_on big m addr size =
    ('(m', r) ← Translate m addr size false;
     match r with
     | inl e => m' ← raise_entry m' addr; Ok (m', inl e)
     | inr pa => Ok (m', inr (decode size (slice (mainMemory m) (Z.to_nat pa) (Z.to_nat size))))
     end).
Proof.
  intros Ht [Hl Hb] Hs. unfold ReadMem_on.
  destruct (Translate_ok m addr size false Ht Hs) as (m' & r & -> & _ & _ & Hm & Hr).
  cbn [mbind outcome_bind]. destruct r as [e|pa]; [done|]. destruct Hr as (Hp & Hq & _).
  rewrite <- Hm in Hl, Hb |- *.
  pose proof (Forall_slice _ _ (Z.to_nat pa) (Z.to_nat size) Hb) as Hf.
  pose proof (length_slice (mainMemory m') (Z.to_nat pa) (Z.to_nat size)) as Hlen.
  destruct Hs as [-> | [-> | ->]]; cbn [Z.eqb Pos.eqb]; rewrite mem_bytes_ok by lia;
    cbn [mbind outcome_bind]; do 3 f_equal; unfold decode; cbn [Z.eqb Pos.eqb].
  - f_equal. unfold host_load. destruct big; [|done]. f_equal.
    specialize (Hlen ltac:(lia)). change (Z.to_nat 1) with 1%nat in *.
    by destruct (slice (mainMemory m') (Z.to_nat pa) 1) as [|? [|]].
  - apply ShortToHost_load; [|done]. apply Hlen. lia.
  - f_equal. apply WordToHost_load; [|done]. apply Hlen. lia.
Qed.

(** A store likewise writes the low bytes of the value, least significant first. *)
Lemma WriteMem_on_spec big m addr size value :
  table_ok m -> mem_ok m -> is_size size ->
  WriteMem_on big m addr size value =
    ('(m', r) ← Translate m addr size true;
     match r with
     | inl e => m' ← raise_entry m' addr; Ok (m', inl e)
     | inr pa => Ok (set_memory m' (splice (mainMemory m) (Z.to_nat pa)
                                           (le_bytes (Z.to_nat size) value)), inr tt)
     end).
Proof.
  intros Ht [Hl Hb] Hs. unfold WriteMem_on.
  destruct (Translate_ok m addr size true Ht Hs) as (m' & r & -> & _ & _ & Hm & Hr).
  cbn [mbind outcome_bind]. destruct r as [e|pa]; [done|]. destruct Hr as (Hp & Hq & _).
  rewrite <- Hm in Hl |- *.
  assert (Hb1 : host_store big 1 (Z.land value 255) = le_bytes 1 value).
  { change 255 with (Z.ones 8). rewrite Z.land_ones by lia.
    rewrite <- (le_bytes_idem 1 value). unfold host_store. by destruct big. }
  destruct Hs as [-> | [-> | ->]]; cbn [Z.eqb Pos.eqb];
    rewrite ?ShortToMachine_store, ?WordToMachine_store, ?Hb1;
    rewrite mem_set_ok by (rewrite ?length_le_bytes; lia); done.
Qed.

Lemma decode_le_bytes size value :
  is_size size -> decode size (le_bytes (Z.to_nat size) value) = truncated size value.
Proof.
  intros [-> | [-> | ->]]; unfold decode, truncated; cbn [Z.eqb Pos.eqb];
    rewrite le_value_bytes; [|done|].
  - unfold s8. change (2 ^ (8 * Z.of_nat (Z.to_nat 1))) with (2 ^ 8).
    by rewrite Zplus_mod_idemp_l.
  - exact (s32_u32 value).
Qed.

Lemma decode_s32 size bs :
  Forall is_u8 bs -> is_size size -> length bs = Z.to_nat size -> is_s32 (decode size bs).
Proof.
  intros Hb Hs Hl. pose proof (le_value_range bs Hb) as Hr. unfold decode.
  destruct Hs as [-> | [-> | ->]]; cbn [Z.eqb Pos.eqb]; [| |apply s32_range].
  - unfold is_s32, s8. pose proof (Z.mod_pos_bound (le_value bs + 2 ^ 7) (2 ^ 8)). lia.
  - rewrite Hl in Hr. unfold is_s32. change (8 * Z.of_nat (Z.to_nat 2)) with 16 in Hr. lia.
Qed.

(** Accesses return in every well-formed machine and keep it well formed. *)
Lemma ReadMem_ok m addr size :
  wf m -> is_s32 addr -> is_size size ->
  exists m' r, ReadMem m addr size = Ok (m', r) /\ wf m' /\ mainMemory m' = mainMemory m /\
    match r with
    | inl _ => raise_entry m addr = Ok m'
    | inr v => is_s32 v /\ registers m' = registers m
    end.
Proof.
  intros (Hr & Hm & Ht) Ha Hs. unfold ReadMem. rewrite ReadMem_on_spec by done.
  destruct (Translate_ok m addr size false Ht Hs) as (m' & r & -> & Ht' & Hr' & Hm' & Hpa).
  cbn [mbind outcome_bind]. destruct r as [e|pa].
  - destruct Hpa as [-> _]. destruct (raise_entry_ok m addr Hr Ha) as (m1 & E1 & H1 & S1 & _). rewrite E1.
    exists m1, (inl e). split; [done|]. split; [by apply (same_but_regs_wf m)|].
    split; [by rewrite S1|done].
  - exists m'. eexists. split; [done|]. unfold wf, regs_ok, mem_ok. rewrite Hr', Hm'.
    split; [done|]. split; [done|]. split; [|done]. destruct Hm as [Hl Hb].
    apply decode_s32; [by apply Forall_slice|done|]. apply length_slice.
    unfold is_size in Hs. lia.
Qed.

Lemma WriteMem_ok m addr size value :
  wf m -> is_s32 addr -> is_size size ->
  exists m' r, WriteMem m addr size value = Ok (m', r) /\ wf m' /\
    match r with
    | inl _ => raise_entry m addr = Ok m'
    | inr _ => registers m' = registers m
    end.
Proof.
  intros (Hr & Hm & Ht) Ha Hs. unfold WriteMem. rewrite WriteMem_on_spec by done.
  destruct (Translate_ok m addr size true Ht Hs) as (m' & r & -> & Ht' & Hr' & Hm' & Hpa).
  cbn [mbind outcome_bind]. destruct r as [e|pa].
  - destruct Hpa as [-> _]. destruct (raise_entry_ok m addr Hr Ha) as (m1 & E1 & H1 & S1 & _). rewrite E1.
    exists m1, (inl e). split; [done|]. split; [by apply (same_but_regs_wf m)|done].
  - eexists _, (inr tt). split; [done|]. unfold wf, regs_ok, mem_ok, table_ok in *. cbn.
    rewrite Hr'. destruct Hm as [Hl Hb].
    assert (0 < size) by (unfold is_size in Hs; lia). rewrite length_splice by (rewrite length_le_bytes; lia).
    split; [|done]. split; [done|]. split; [|done]. split; [done|].
    apply Forall_splice; auto using le_bytes_u8.
Qed.

(** ** Virtual memory as an array *)

(** The machine with another page table installed. *)
Definition with_table (m : t) (pt : list TranslationEntry) (n : Z) : t :=
  mk (mainMemory m) (registers m) None (Some pt) n (singleStep m) (runUntilTime m).

(** What an access returned, without the machine it left. *)
Definition answer_of {A} (o : outcome (t * A)) : outcome A :=
  '(_, a) ← o; Ok a.

(** No two valid pages of a table share a frame, and no frame of one table is a
    frame of the other. *)
Definition own_frames (pt pt' : list TranslationEntry) (same : Prop) : Prop :=
  forall i j e e', pt !! i = Some e -> pt' !! j = Some e' -> valid e = true -> valid e' = true ->
    u32 (physicalPage e) = u32 (physicalPage e') -> same /\ i = j.

Lemma xlate_touch pt n va writing va' size' writing' :
  xlate (touch_at pt va writing) n va' size' writing' = xlate pt n va' size' writing'.
Proof.
  unfold xlate, touch_at. destruct (misaligned va' size' || (n <=? vpn_of va')); [done|].
  destruct (decide (Z.to_nat (vpn_of va) = Z.to_nat (vpn_of va'))) as [E|E].
  - rewrite E, list_lookup_alter_eq. by destruct (pt !! Z.to_nat (vpn_of va')).
  - by rewrite list_lookup_alter_ne.
Qed.

(** What is known about an address that translated. *)
Lemma xlate_inr pt n va size writing pa :
  is_size size -> xlate pt n va size writing = inr pa ->
  exists e, pt !! Z.to_nat (vpn_of va) = Some e /\ valid e = true /\
    0 <= u32 (physicalPage e) < NumPhysPages /\
    pa = u32 (physicalPage e) * PageSize + offset_of va /\
    0 <= offset_of va /\ offset_of va + size <= PageSize /\
    xlate pt n va size false = inr pa.
Proof.
  intros Hs. unfold xlate. destruct (misaligned va size) eqn:Ha; cbn [orb]; [done|].
  destruct (n <=? vpn_of va); [done|]. destruct (pt !! Z.to_nat (vpn_of va)) as [e|]; [|done].
  destruct (valid e) eqn:Hv; cbn [negb]; [|done].
  destruct (readOnly e && writing) eqn:Hro; [done|].
  destruct (Z.leb_spec NumPhysPages (u32 (physicalPage e))); [done|]. intros [= <-].
  pose proof (u32_range (physicalPage e)) as [? _].
  destruct (aligned_offset va size Hs Ha).
  exists e. rewrite andb_false_r. split; [done|]. split; [done|]. split; [lia|]. done.
Qed.

(** Disjoint virtual ranges translate to disjoint physical ranges when every
    frame has one owner. *)
Lemma xlate_disjoint pt pt' n n' va va' size size' writing pa pa' (same : Prop) :
  is_size size -> is_size size' -> own_frames pt pt' same ->
  (same -> u32 va + size <= u32 va' \/ u32 va' + size' <= u32 va) ->
  xlate pt n va size writing = inr pa -> xlate pt' n' va' size' false = inr pa' ->
  pa + size <= pa' \/ pa' + size' <= pa.
Proof.
  intros Hs Hs' Hown Hd H H'.
  apply xlate_inr in H as (e & He & Hv & Hf & -> & Ho1 & Ho2 & _); [|done].
  apply xlate_inr in H' as (e' & He' & Hv' & Hf' & -> & Ho1' & Ho2' & _); [|done].
  pose proof (Z.div_mod (u32 va) PageSize ltac:(done)) as D.
  pose proof (Z.div_mod (u32 va') PageSize ltac:(done)) as D'.
  pose proof (vpn_nonneg va). pose proof (vpn_nonneg va').
  change (u32 va / PageSize) with (vpn_of va) in D.
  change (u32 va' / PageSize) with (vpn_of va') in D'.
  change (u32 va mod PageSize) with (offset_of va) in D.
  change (u32 va' mod PageSize) with (offset_of va') in D'.
  change PageSize with 512 in *.
  destruct (Z.eq_dec (u32 (physicalPage e)) (u32 (physicalPage e'))) as [E|E]; [|lia].
  destruct (Hown _ _ e e' He He' Hv Hv' E) as [Hsame Heq]. specialize (Hd Hsame).
  assert (vpn_of va = vpn_of va') by lia. lia.
Qed.

Lemma with_table_table_ok m pt n :
  0 <= n <= Z.of_nat (length pt) -> table_ok (with_table m pt n).
Proof. done. Qed.

(** The answer of a load through a page table depends on the memory and on the
    translation alone. *)
Lemma ReadMem_answer m pt n addr size :
  regs_ok m -> mem_ok m -> 0 <= n <= Z.of_nat (length pt) -> is_size size -> is_s32 addr ->
  answer_of (ReadMem (with_table m pt n) addr size) =
    Ok (match xlate pt n addr size false with
        | inl e => inl e
        | inr pa => inr (decode size (slice (mainMemory m) (Z.to_nat pa) (Z.to_nat size)))
        end).
Proof.
  intros Hr Hm Hn Hs Ha. unfold ReadMem. rewrite ReadMem_on_spec by done.
  rewrite (Translate_page_table _ pt) by done. cbn [pageTableSize with_table].
  destruct (xlate pt n addr size false) as [e|pa]; cbn [mbind outcome_bind answer_of]; [|done].
  destruct (raise_entry_ok (with_table m pt n) addr) as (m' & -> & _); done.
Qed.

(** What a store through a page table does to the machine. *)
Lemma WriteMem_inr m m' pt n addr size value :
  mem_ok m -> 0 <= n <= Z.of_nat (length pt) -> is_size size ->
  WriteMem (with_table m pt n) addr size value = Ok (m', inr tt) ->
  exists pa, xlate pt n addr size true = inr pa /\
    0 <= pa /\ pa + size <= MemorySize /\
    m' = set_memory (with_table m (touch_at pt addr true) n)
           (splice (mainMemory m) (Z.to_nat pa) (le_bytes (Z.to_nat size) value)).
Proof.
  intros Hm Hn Hs. unfold WriteMem. rewrite WriteMem_on_spec by done.
  rewrite (Translate_page_table _ pt) by done. cbn [pageTableSize with_table].
  destruct (xlate pt n addr size true) as [e|pa] eqn:Ex; cbn [mbind outcome_bind].
  - destruct (raise_entry _ addr); done.
  - intros [= <-]. exists pa. split; [done|].
    apply xlate_inr in Ex as (e & _ & _ & Hf & -> & Ho1 & Ho2 & _); [|done].
    unfold MemorySize, NumPhysPages, PageSize, SectorSize in *. split; [lia|]. split; [lia|done].
Qed.

Lemma splice_mem_ok m pt n pa bs :
  mem_ok m -> 0 <= pa -> pa + Z.of_nat (length bs) <= MemorySize -> Forall is_u8 bs ->
  mem_ok (set_memory (with_table m pt n) (splice (mainMemory m) (Z.to_nat pa) bs)).
Proof.
  intros [Hl Hb] H1 H2 Hbs. split; cbn.
  - rewrite length_splice by lia. done.
  - by apply Forall_splice.
Qed.

(** A load through any table whose translation avoids the stored bytes answers
    as before the store. *)
Lemma ReadMem_unchanged m m' pt pt' n n' addr addr' size size' value :
  regs_ok m -> mem_ok m -> 0 <= n <= Z.of_nat (length pt) -> 0 <= n' <= Z.of_nat (length pt') ->
  is_size size -> is_size size' -> is_s32 addr' ->
  WriteMem (with_table m pt n) addr size value = Ok (m', inr tt) ->
  (forall pa pa', xlate pt n addr size true = inr pa -> xlate pt' n' addr' size' false = inr pa' ->
     pa + size <= pa' \/ pa' + size' <= pa) ->
  answer_of (ReadMem (with_table m' pt' n') addr' size') =
  answer_of (ReadMem (with_table m pt' n') addr' size').
Proof.
  intros Hr Hm Hn Hn' Hs Hs' Ha' HW Hd.
  apply WriteMem_inr in HW as (pa & Ex & Hp & Hq & ->); [|done..].
  assert (0 < size) by (unfold is_size in Hs; lia).
  rewrite !ReadMem_answer; try done.
  2:{ apply splice_mem_ok; rewrite ?length_le_bytes; auto using le_bytes_u8; lia. }
  destruct (xlate pt' n' addr' size' false) as [e|pa'] eqn:Ex'; [done|].
  do 3 f_equal. cbn. destruct Hm as [Hl _].
  apply xlate_inr in Ex' as (e' & _ & _ & Hf' & -> & ? & ? & _); [|done].
  specialize (Hd pa _ Ex eq_refl). unfold is_size in Hs'.
  apply slice_splice_disjoint; rewrite length_le_bytes; [lia|].
  unfold NumPhysPages, PageSize, SectorSize in *. lia.
Qed.

(** ** Properties *)

(** C18: on a machine whose page table gives every valid page a frame of its
    own, user memory is an array of bytes: a store that succeeds is read back
    by a load of the same size (bytes and words sign-extended, half words zero
    extended), and a load of any virtual range disjoint from the stored one
    gives the answer (value or exception) it gave before the store. *)
Theorem virtual_memory_is_an_array m pt n addr size value m' :
  regs_ok m -> mem_ok m -> 0 <= n <= Z.of_nat (length pt) -> own_frames pt pt True ->
  is_size size -> is_s32 addr ->
  WriteMem (with_table m pt n) addr size value = Ok (m', inr tt) ->
  answer_of (ReadMem m' addr size) = Ok (inr (truncated size value)) /\
  forall addr' size', is_size size' -> is_s32 addr' ->
    u32 addr + size <= u32 addr' \/ u32 addr' + size' <= u32 addr ->
    answer_of (ReadMem m' addr' size') = answer_of (ReadMem (with_table m pt n) addr' size').
Proof.
  intros Hr Hm Hn Hown Hs Ha HW.
  pose proof HW as (pa & Ex & Hp & Hq & Em)%WriteMem_inr; [|done..].
  assert (0 < size) by (unfold is_size in Hs; lia).
  assert (Hm' : mem_ok m').
  { rewrite Em. apply splice_mem_ok; rewrite ?length_le_bytes; auto using le_bytes_u8; lia. }
  assert (Hr' : regs_ok m') by (by rewrite Em).
  assert (Hn' : 0 <= n <= Z.of_nat (length (touch_at pt addr true)))
    by (unfold touch_at; by rewrite length_alter).
  assert (Et : m' = with_table m' (touch_at pt addr true) n) by (by rewrite Em).
  split.
  - rewrite Et, ReadMem_answer, xlate_touch by done.
    destruct (xlate_inr _ _ _ _ _ _ Hs Ex) as (_ & _ & _ & _ & _ & _ & _ & ->).
    do 2 f_equal. rewrite Em. cbn [mainMemory set_memory].
    pose proof (slice_splice_same (mainMemory m) (Z.to_nat pa) (le_bytes (Z.to_nat size) value)) as Hss.
    rewrite length_le_bytes in Hss. destruct Hm as [Hl _]. rewrite Hss by lia.
    by apply decode_le_bytes.
  - intros addr' size' Hs' Ha' Hd. rewrite <- (ReadMem_unchanged m m' pt pt n n addr addr' size size' value)
      by (done || (intros; by eapply (xlate_disjoint pt pt n n addr addr' size size' true _ _ True); eauto)).
    rewrite Et at 1. by rewrite !ReadMem_answer, xlate_touch by done.
Qed.

Lemma Machine_new_ok raw raw' debug : regs_ok (Machine_new raw raw' debug) /\ mem_ok (Machine_new raw raw' debug).
Proof.
  split.
  - split; [done|]. split; [|by exists 0].
    apply (Forall_replicate is_s32). by unfold is_s32.
  - split; cbn [mainMemory Machine_new]; [by rewrite length_replicate, Z2Nat.id|].
    apply Forall_replicate. by unfold is_u8.
Qed.

(** A machine to evaluate the properties on: the fresh one, made opaque so that
    its 64 KB of memory are not unfolded. *)
Lemma fresh_machine : exists m, m = Machine_new 0 0 false.
Proof. by eexists. Qed.

Definition demo_table : list TranslationEntry :=
  [mkEntry 0 5 true false false false; mkEntry 1 3 true true false false].

Lemma demo_table_own : own_frames demo_table demo_table True.
Proof. intros [|[|i]] [|[|j]]; cbn; naive_solver. Qed.

(** C18 at a concrete table: page 0 in frame 5, page 1 (read only) in frame 3. *)
Lemma virtual_memory_is_an_array_witness :
  exists m m', m = Machine_new 0 0 false /\
    WriteMem (with_table m demo_table 2) 8 2 (-2) = Ok (m', inr tt) /\
    answer_of (ReadMem m' 8 2) = Ok (inr 65534).
Proof.
  destruct fresh_machine as [m E]. exists m.
  assert (Hok : regs_ok m /\ mem_ok m) by (rewrite E; apply Machine_new_ok).
  destruct Hok as [Hr Hm].
  assert (HW : exists m', WriteMem (with_table m demo_table 2) 8 2 (-2) = Ok (m', inr tt)).
  { unfold WriteMem. rewrite WriteMem_on_spec by (done || by right; left).
    rewrite (Translate_page_table _ demo_table) by (done || by right; left). by eexists. }
  destruct HW as [m' HW]. exists m'. split; [exact E|]. split; [exact HW|].
  apply (virtual_memory_is_an_array m demo_table 2 8 2 (-2) m');
    [exact Hr|exact Hm|done|apply demo_table_own|by right; left|done|exact HW].
Defined.

(** Stores through one table and loads through another without common frames. *)
Lemma disjoint_tables_isolated m pt n pt' n' addr size value m' r addr' size' :
  regs_ok m -> mem_ok m -> 0 <= n <= Z.of_nat (length pt) -> 0 <= n' <= Z.of_nat (length pt') ->
  own_frames pt pt' False -> is_size size -> is_size size' -> is_s32 addr -> is_s32 addr' ->
  WriteMem (with_table m pt n) addr size value = Ok (m', r) ->
  answer_of (ReadMem (with_table m' pt' n') addr' size') =
  answer_of (ReadMem (with_table m pt' n') addr' size').
Proof.
  intros Hr Hm Hn Hn' Hown Hs Hs' Ha Ha' HW. destruct r as [e|[]].
  - destruct (WriteMem_ok (with_table m pt n) addr size value) as (m1 & r1 & E & Hwf & Hsame);
      [done|done|done|]. rewrite HW in E. injection E as <- <-.
    destruct Hwf as (Hr' & _).
    destruct (raise_entry_ok (with_table m pt n) addr) as (m2 & E2 & _ & S2 & _); [done|done|].
    rewrite Hsame in E2. injection E2 as <-. rewrite !ReadMem_answer; try done; by rewrite S2.
  - apply (ReadMem_unchanged m m' pt pt' n n' addr addr' size size' value); try done.
    intros pa pa' Ex Ex'.
    exact (xlate_disjoint pt pt' n n' addr addr' size size' true pa pa' False Hs Hs' Hown
             ltac:(done) Ex Ex').
Qed.

(** two address spaces without a common frame cannot affect each other: no
    store made under one page table, whether it succeeds or raises an
    exception, changes the answer of any load made under the other. *)
Theorem address_spaces_isolated m pt n pt' n' addr size value m' r addr' size' :
  regs_ok m -> mem_ok m -> 0 <= n <= Z.of_nat (length pt) -> 0 <= n' <= Z.of_nat (length pt') ->
  own_frames pt pt' False -> is_size size -> is_size size' -> is_s32 addr -> is_s32 addr' ->
  WriteMem (with_table m pt n) addr size value = Ok (m', r) ->
  answer_of (ReadMem (with_table m' pt' n') addr' size') =
  answer_of (ReadMem (with_table m pt' n') addr' size').
Proof. apply disjoint_tables_isolated. Qed.

Lemma demo_frames_apart :
  own_frames [mkEntry 0 5 true false false false] [mkEntry 0 6 true false false false] False.
Proof. intros [|i] [|j] e e'; cbn; try done. intros [= <-] [= <-] _ _. by vm_compute. Qed.

(** at two one-page spaces in frames 5 and 6. *)
Lemma address_spaces_isolated_witness :
  exists m m' r, m = Machine_new 0 0 false /\
    WriteMem (with_table m [mkEntry 0 5 true false false false] 1) 16 4 (-1) = Ok (m', r) /\
    answer_of (ReadMem (with_table m' [mkEntry 0 6 true false false false] 1) 16 4) =
    answer_of (ReadMem (with_table m [mkEntry 0 6 true false false false] 1) 16 4).
Proof.
  destruct fresh_machine as [m E]. exists m.
  assert (Hok : regs_ok m /\ mem_ok m) by (rewrite E; apply Machine_new_ok).
  destruct Hok as [Hr Hm].
  destruct (WriteMem_ok (with_table m [mkEntry 0 5 true false false false] 1) 16 4 (-1))
    as (m' & r & HW & _); [done|done|by right; right|].
  exists m', r. split; [exact E|]. split; [exact HW|].
  apply (address_spaces_isolated m [mkEntry 0 5 true false false false] 1
           [mkEntry 0 6 true false false false] 1 16 4 (-1) m' r 16 4);
    [exact Hr|exact Hm|done|done| |by right; right|by right; right|done|done|exact HW].
  apply demo_frames_apart.
Defined.

(** The simulation does not depend on the byte order of the host: loads and
    stores of user memory give the same machine and the same answer on a
    big-endian host, where words are swapped, as on a little-endian one. *)
Theorem host_byte_order_irrelevant big m addr size value :
  table_ok m -> mem_ok m -> is_size size ->
  ReadMem_on big m addr size = ReadMem m addr size /\
  WriteMem_on big m addr size value = WriteMem m addr size value.
Proof.
  intros Ht Hm Hs. unfold ReadMem, WriteMem.
  by rewrite !(ReadMem_on_spec _ m addr size), !(WriteMem_on_spec _ m addr size value) by done.
Qed.

Lemma host_byte_order_irrelevant_witness :
  exists m, m = with_table (Machine_new 0 0 false) demo_table 2 /\
    ReadMem_on true m 12 4 = ReadMem m 12 4 /\
    WriteMem_on true m 12 4 258 = WriteMem m 12 4 258.
Proof.
  destruct fresh_machine as [m E]. exists (with_table m demo_table 2).
  assert (Hm : mem_ok m) by (rewrite E; apply Machine_new_ok).
  split; [by rewrite E|].
  apply (host_byte_order_irrelevant true (with_table m demo_table 2) 12 4 258);
    [done|exact Hm|by right; right].
Defined.

(** Translating an address for an access of 1, 2 or 4 bytes returns on
    every machine with one translation table (no assertion fails).  It never
    touches the registers or the memory; a failure is one of four exceptions
    and leaves the machine as it was; a success keeps the offset in the page
    and yields an address whose whole access lies inside main memory. *)
Theorem Translate_total m virtAddr size writing :
  table_ok m -> is_size size ->
  exists m' r, Translate m virtAddr size writing = Ok (m', r) /\ table_ok m' /\
    registers m' = registers m /\ mainMemory m' = mainMemory m /\
    match r with
    | inl e => m' = m /\ e ∈ [AddressErrorException; PageFaultException;
                              ReadOnlyException; BusErrorException]
    | inr pa => 0 <= pa /\ pa + size <= MemorySize /\ Z.rem pa PageSize = offset_of virtAddr
    end.
Proof. exact (Translate_ok m virtAddr size writing). Qed.

Lemma Translate_total_witness :
  exists m, m = with_table (Machine_new 0 0 false) demo_table 2 /\
    exists m' r, Translate m 516 4 true = Ok (m', r) /\ mainMemory m' = mainMemory m.
Proof.
  destruct fresh_machine as [m E]. exists (with_table m demo_table 2).
  split; [by rewrite E|].
  destruct (Translate_total (with_table m demo_table 2) 516 4 true) as (m' & r & H & _ & _ & Hm & _);
    [done|by right; right|]. exists m', r. split; [exact H|exact Hm].
Defined.

(** Every valid TLB entry is a copy of the page table's entry for its page. *)
Definition tlb_caches (es pt : list TranslationEntry) (n : Z) : Prop :=
  forall i e, es !! i = Some e -> valid e = true ->
    u32 (virtualPage e) < n /\
    exists e', pt !! Z.to_nat (u32 (virtualPage e)) = Some e' /\ valid e' = true /\
      physicalPage e' = physicalPage e /\ readOnly e' = readOnly e.

(** A TLB whose valid entries are copies of page table entries answers as
    the page table does, or with a page fault for a page it does not hold; an
    entry never gives access to a page the table does not map. *)
Theorem tlb_refines_page_table m es pt n virtAddr size writing :
  Z.of_nat (length es) = TLBSize -> 0 <= n <= Z.of_nat (length pt) ->
  tlb_caches es pt n -> is_size size ->
  let m_tlb := mk (mainMemory m) (registers m) (Some es) None n (singleStep m) (runUntilTime m) in
  let a := answer_of (Translate m_tlb virtAddr size writing) in
  a = answer_of (Translate (with_table m pt n) virtAddr size writing) \/
  a = Ok (inl PageFaultException).
Proof.
  intros Hes Hn Hc Hs m_tlb a. unfold a. clear a.
  rewrite (Translate_page_table (with_table m pt n) pt) by done. cbn [pageTableSize with_table].
  unfold Translate, xlate, m_tlb. cbn [tlb pageTable].
  destruct (misaligned virtAddr size) eqn:Ha; [by left|]. cbn [orb].
  destruct (tlb_find_ok (Z.to_nat TLBSize) 0 es (vpn_of virtAddr)) as (r & -> & Hr); [lia|lia|].
  cbn [mbind outcome_bind]. destruct r as [i|]; [left|by right].
  destruct Hr as (Hi & e & He & Hv & Hvpn).
  destruct (Hc _ e He Hv) as (Hlt & e' & He' & Hv' & Hpp & Hro). rewrite Hvpn in *.
  rewrite (finish_translate_spec _ _ _ _ _ _ _ e) by (done || lia).
  destruct (Z.leb_spec n (vpn_of virtAddr)); [lia|]. rewrite He', Hv', Hpp, Hro. cbn [negb].
  destruct (readOnly e && writing); [done|].
  by destruct (NumPhysPages <=? u32 (physicalPage e)).
Qed.

Definition demo_tlb : list TranslationEntry :=
  mkEntry 1 3 true true false false :: replicate 3 (mkEntry 9 9 false false false false).

Lemma demo_tlb_caches : tlb_caches demo_tlb demo_table 2.
Proof.
  intros [|[|[|[|i]]]] e; cbn; intros [= <-]; cbn; try done. intros _. split; [done|]. by eexists.
Qed.

Lemma tlb_refines_page_table_witness :
  let a := answer_of (Translate (mk [] [] (Some demo_tlb) None 2 false 0) 516 4 true) in
  a = answer_of (Translate (with_table (mk [] [] None None 0 false 0) demo_table 2) 516 4 true) \/
  a = Ok (inl PageFaultException).
Proof.
  exact (tlb_refines_page_table (mk [] [] None None 0 false 0) demo_tlb demo_table 2 516 4 true
           eq_refl ltac:(done) demo_tlb_caches ltac:(by right; right)).
Defined.

End Machine.
