(* ===== verification/MipsSim.v ===== *)
(** * machine/mipssim.{h,cc}: the MIPS R2/3000 instruction simulator

    [Decode] is [Instruction::Decode] with its two tables, [Mult] the 32-step
    multiplication and [OneInstruction] the whole [switch], one branch per
    opcode, with the delayed load and the advance of the program counters.
    Signed arithmetic that overflows in C is given the wrap-around of the i386
    host; the one operation that traps there, [INT_MIN / -1], is the fault
    [DivideTrap]. *)

From S2P Require Import Prelude MachineSim.
Import Machine.

Local Open Scope Z_scope.

Module Mips.

(** ** Opcodes and the decoding tables of machine/mipssim.h *)

Inductive opcode :=
| OP_ADD | OP_ADDI | OP_ADDIU | OP_ADDU | OP_AND | OP_ANDI | OP_BEQ | OP_BGEZ | OP_BGEZAL
| OP_BGTZ | OP_BLEZ | OP_BLTZ | OP_BLTZAL | OP_BNE | OP_DIV | OP_DIVU | OP_J | OP_JAL
| OP_JALR | OP_JR | OP_LB | OP_LBU | OP_LH | OP_LHU | OP_LUI | OP_LW | OP_LWL | OP_LWR
| OP_MFHI | OP_MFLO | OP_MTHI | OP_MTLO | OP_MULT | OP_MULTU | OP_NOR | OP_OR | OP_ORI
| OP_RFE | OP_SB | OP_SH | OP_SLL | OP_SLLV | OP_SLT | OP_SLTI | OP_SLTIU | OP_SLTU
| OP_SRA | OP_SRAV | OP_SRL | OP_SRLV | OP_SUB | OP_SUBU | OP_SW | OP_SWL | OP_SWR
| OP_XOR | OP_XORI | OP_SYSCALL | OP_UNIMP | OP_RES | SPECIAL | BCOND.

Inductive format := IFMT | JFMT | RFMT.

#[export] Instance opcode_eq_dec : EqDecision opcode.
Proof. solve_decision. Defined.
#[export] Instance format_eq_dec : EqDecision format.
Proof. solve_decision. Defined.

Definition SIGN_BIT : Z := 0x80000000.
Definition R31 : Z := 31.
Definition IndexToAddr (x : Z) : Z := s32 (Z.shiftl x 2).

Definition opTable : list (opcode * format) :=
  [ (SPECIAL, RFMT); (BCOND, IFMT); (OP_J, JFMT); (OP_JAL, JFMT);
    (OP_BEQ, IFMT); (OP_BNE, IFMT); (OP_BLEZ, IFMT); (OP_BGTZ, IFMT);
    (OP_ADDI, IFMT); (OP_ADDIU, IFMT); (OP_SLTI, IFMT); (OP_SLTIU, IFMT);
    (OP_ANDI, IFMT); (OP_ORI, IFMT); (OP_XORI, IFMT); (OP_LUI, IFMT);
    (OP_UNIMP, IFMT); (OP_UNIMP, IFMT); (OP_UNIMP, IFMT); (OP_UNIMP, IFMT);
    (OP_RES, IFMT); (OP_RES, IFMT); (OP_RES, IFMT); (OP_RES, IFMT);
    (OP_RES, IFMT); (OP_RES, IFMT); (OP_RES, IFMT); (OP_RES, IFMT);
    (OP_RES, IFMT); (OP_RES, IFMT); (OP_RES, IFMT); (OP_RES, IFMT);
    (OP_LB, IFMT); (OP_LH, IFMT); (OP_LWL, IFMT); (OP_LW, IFMT);
    (OP_LBU, IFMT); (OP_LHU, IFMT); (OP_LWR, IFMT); (OP_RES, IFMT);
    (OP_SB, IFMT); (OP_SH, IFMT); (OP_SWL, IFMT); (OP_SW, IFMT);
    (OP_RES, IFMT); (OP_RES, IFMT); (OP_SWR, IFMT); (OP_RES, IFMT);
    (OP_UNIMP, IFMT); (OP_UNIMP, IFMT); (OP_UNIMP, IFMT); (OP_UNIMP, IFMT);
    (OP_RES, IFMT); (OP_RES, IFMT); (OP_RES, IFMT); (OP_RES, IFMT);
    (OP_UNIMP, IFMT); (OP_UNIMP, IFMT); (OP_UNIMP, IFMT); (OP_UNIMP, IFMT);
    (OP_RES, IFMT); (OP_RES, IFMT); (OP_RES, IFMT); (OP_RES, IFMT) ].

Definition specialTable : list opcode :=
  [ OP_SLL; OP_RES; OP_SRL; OP_SRA; OP_SLLV; OP_RES; OP_SRLV; OP_SRAV;
    OP_JR; OP_JALR; OP_RES; OP_RES; OP_SYSCALL; OP_UNIMP; OP_RES; OP_RES;
    OP_MFHI; OP_MTHI; OP_MFLO; OP_MTLO; OP_RES; OP_RES; OP_RES; OP_RES;
    OP_MULT; OP_MULTU; OP_DIV; OP_DIVU; OP_RES; OP_RES; OP_RES; OP_RES;
    OP_ADD; OP_ADDU; OP_SUB; OP_SUBU; OP_AND; OP_OR; OP_XOR; OP_NOR;
    OP_RES; OP_RES; OP_SLT; OP_SLTU; OP_RES; OP_RES; OP_RES; OP_RES;
    OP_RES; OP_RES; OP_RES; OP_RES; OP_RES; OP_RES; OP_RES; OP_RES;
    OP_RES; OP_RES; OP_RES; OP_RES; OP_RES; OP_RES; OP_RES; OP_RES ].

(** ** Decoding *)

(** class [Instruction] of machine/machine.h *)
Record Instruction := mkInstr {
  value : Z;              (* unsigned int: the binary representation *)
  opCode : opcode;
  rs : Z; rt : Z; rd_ : Z;  (* the field rd *)
  extra : Z;              (* int: immediate, target, shamt or offset *)
}.

Definition Decode (value : Z) : outcome Instruction :=
  let rs := Z.land (Z.shiftr value 21) 0x1f in
  let rt := Z.land (Z.shiftr value 16) 0x1f in
  let rd := Z.land (Z.shiftr value 11) 0x1f in
  '(op, fmt) ← Prelude.rd opTable (Z.land (Z.shiftr value 26) 0x3f);
  let extra :=
    match fmt with
    | IFMT =>
        let extra := s32 (Z.land value 0xffff) in
        if negb (Z.land extra 0x8000 =? 0) then s32 (Z.lor (u32 extra) 0xffff0000) else extra
    | RFMT => s32 (Z.land (Z.shiftr value 6) 0x1f)
    | JFMT => s32 (Z.land value 0x3ffffff)
    end in
  op ← (match op with
        | SPECIAL => Prelude.rd specialTable (Z.land value 0x3f)
        | BCOND =>
            let i := s32 (Z.land value 0x1f0000) in
            Ok (if i =? 0 then OP_BLTZ
                else if i =? 0x10000 then OP_BGEZ
                else if i =? 0x100000 then OP_BLTZAL
                else if i =? 0x110000 then OP_BGEZAL
                else OP_UNIMP)
        | _ => Ok op
        end);
  Ok (mkInstr value op rs rt rd extra).

(** ** Multiplication *)

(** The loop, with [n] iterations left; the state is [a], [bLo], [bHi], [lo]
    and [hi], and the answer is [(hi, lo)]. *)
Fixpoint Mult_loop (n : nat) (a bLo bHi lo hi : Z) : Z * Z :=
  match n with
  | O => (hi, lo)
  | S n' =>
      let again a bLo bHi lo hi :=
        let bHi := u32 (Z.shiftl bHi 1) in
        let bHi := if negb (Z.land bLo 0x80000000 =? 0) then Z.lor bHi 1 else bHi in
        let bLo := u32 (Z.shiftl bLo 1) in
        Mult_loop n' (Z.shiftr a 1) bLo bHi lo hi in
      if negb (Z.land a 1 =? 0) then
        let lo := u32 (lo + bLo) in
        let hi := if lo <? bLo then u32 (hi + 1) else hi in
        let hi := u32 (hi + bHi) in
        if Z.land (u32 a) 0xfffffffe =? 0 then (hi, lo)   (* break *)
        else again a bLo bHi lo hi
      else again a bLo bHi lo hi
  end.

(** The answer is the pair of the words at [hiPtr] and [loPtr]. *)
Definition Mult (a b : Z) (signedArith : bool) : Z * Z :=
  if (a =? 0) || (b =? 0) then (0, 0)
  else
    let negative := false in
    let '(negative, a) :=
      if signedArith && (a <? 0) then (negb negative, s32 (- a)) else (negative, a) in
    let '(negative, b) :=
      if signedArith && (b <? 0) then (negb negative, s32 (- b)) else (negative, b) in
    let '(hi, lo) := Mult_loop 32 a (u32 b) 0 0 0 in
    let '(hi, lo) :=
      if negative then
        let hi := u32 (Z.lnot hi) in
        let lo := u32 (Z.lnot lo) in
        let lo := u32 (lo + 1) in
        ((if lo =? 0 then u32 (hi + 1) else hi), lo)
      else (hi, lo) in
    (s32 hi, s32 lo).

(** ** Execution *)

(** [x & SIGN_BIT], as a condition. *)
Definition sign_bit (x : Z) : bool := negb (Z.land (u32 x) SIGN_BIT =? 0).

(** What the [switch] leaves: an exception that was raised, or [pcAfter],
    [nextLoadReg] and [nextLoadValue]. *)
Definition result : Type := ExceptionType + (Z * Z * Z).

Definition next (m : t) (pcAfter : Z) : outcome (t * result) := Ok (m, inr (pcAfter, 0, 0)).
Definition load_later (m : t) (pcAfter reg value : Z) : outcome (t * result) :=
  Ok (m, inr (pcAfter, reg, value)).
Definition raise (m : t) (e : ExceptionType) (badVAddr : Z) : outcome (t * result) :=
  m ← raise_entry m badVAddr; Ok (m, inl e).

(** [registers[r] = v; break;] *)
Definition assign (m : t) (pcAfter r v : Z) : outcome (t * result) :=
  m ← wreg m r v; next m pcAfter.

(** [if (!machine->ReadMem(addr, size, &value)) return;] and the same for
    [WriteMem]. *)
Definition reading (m : t) (addr size : Z) (k : t -> Z -> outcome (t * result)) : outcome (t * result) :=
  '(m, r) ← ReadMem m addr size;
  match r with inl e => Ok (m, inl e) | inr value => k m value end.
Definition writing (m : t) (addr size value : Z) (k : t -> outcome (t * result)) : outcome (t * result) :=
  '(m, r) ← WriteMem m addr size value;
  match r with inl e => Ok (m, inl e) | inr _ => k m end.

(** The inner switches on [tmp & 0x3] of LWL, LWR, SWL and SWR. *)
Definition merge_LWL (k old value : Z) : Z :=
  if k =? 0 then value
  else if k =? 1 then s32 (Z.lor (Z.land old 0xff) (s32 (Z.shiftl value 8)))
  else if k =? 2 then s32 (Z.lor (Z.land old 0xffff) (s32 (Z.shiftl value 16)))
  else s32 (Z.lor (Z.land old 0xffffff) (s32 (Z.shiftl value 24))).
Definition merge_LWR (k old value : Z) : Z :=
  if k =? 0 then s32 (Z.lor (Z.land (u32 old) 0xffffff00) (Z.land (Z.shiftr value 24) 0xff))
  else if k =? 1 then s32 (Z.lor (Z.land (u32 old) 0xffff0000) (Z.land (Z.shiftr value 16) 0xffff))
  else if k =? 2 then s32 (Z.lor (Z.land (u32 old) 0xff000000) (Z.land (Z.shiftr value 8) 0xffffff))
  else value.
Definition merge_SWL (k value reg : Z) : Z :=
  if k =? 0 then reg
  else if k =? 1 then s32 (Z.lor (Z.land (u32 value) 0xff000000) (Z.land (Z.shiftr reg 8) 0xffffff))
  else if k =? 2 then s32 (Z.lor (Z.land (u32 value) 0xffff0000) (Z.land (Z.shiftr reg 16) 0xffff))
  else s32 (Z.lor (Z.land (u32 value) 0xffffff00) (Z.land (Z.shiftr reg 24) 0xff)).
Definition merge_SWR (k value reg : Z) : Z :=
  if k =? 0 then s32 (Z.lor (Z.land value 0xffffff) (s32 (Z.shiftl reg 24)))
  else if k =? 1 then s32 (Z.lor (Z.land value 0xffff) (s32 (Z.shiftl reg 16)))
  else if k =? 2 then s32 (Z.lor (Z.land value 0xff) (s32 (Z.shiftl reg 8)))
  else reg.

(** The [switch] of [OneInstruction]; [pcAfter] is [registers[NextPCReg] + 4]
    when it starts. *)
Definition execute (instr : Instruction) (m : t) (pcAfter : Z) : outcome (t * result) :=
  let rs := rs instr in let rt := rt instr in let rd := rd_ instr in
  let extra := extra instr in
  let branch_if (m : t) (c : bool) :=
    npc ← rreg m NextPCReg;
    next m (if c then s32 (npc + IndexToAddr extra) else pcAfter) in
  match opCode instr with
  | OP_ADD =>
      a ← rreg m rs; b ← rreg m rt;
      let sum := s32 (a + b) in
      if negb (sign_bit (Z.lxor a b)) && sign_bit (Z.lxor a sum)
      then raise m OverflowException 0
      else assign m pcAfter rd sum
  | OP_ADDI =>
      a ← rreg m rs;
      let sum := s32 (a + extra) in
      if negb (sign_bit (Z.lxor a extra)) && sign_bit (Z.lxor extra sum)
      then raise m OverflowException 0
      else assign m pcAfter rt sum
  | OP_ADDIU => a ← rreg m rs; assign m pcAfter rt (s32 (a + extra))
  | OP_ADDU => a ← rreg m rs; b ← rreg m rt; assign m pcAfter rd (s32 (a + b))
  | OP_AND => a ← rreg m rs; b ← rreg m rt; assign m pcAfter rd (Z.land a b)
  | OP_ANDI => a ← rreg m rs; assign m pcAfter rt (Z.land a (Z.land extra 0xffff))
  | OP_BEQ => a ← rreg m rs; b ← rreg m rt; branch_if m (a =? b)
  | OP_BGEZAL =>
      npc ← rreg m NextPCReg; m ← wreg m R31 (s32 (npc + 4));
      a ← rreg m rs; branch_if m (negb (sign_bit a))
  | OP_BGEZ => a ← rreg m rs; branch_if m (negb (sign_bit a))
  | OP_BGTZ => a ← rreg m rs; branch_if m (a >? 0)
  | OP_BLEZ => a ← rreg m rs; branch_if m (a <=? 0)
  | OP_BLTZAL =>
      npc ← rreg m NextPCReg; m ← wreg m R31 (s32 (npc + 4));
      a ← rreg m rs; branch_if m (sign_bit a)
  | OP_BLTZ => a ← rreg m rs; branch_if m (sign_bit a)
  | OP_BNE => a ← rreg m rs; b ← rreg m rt; branch_if m (negb (a =? b))
  | OP_DIV =>
      a ← rreg m rs; b ← rreg m rt;
      if b =? 0 then m ← wreg m LoReg 0; assign m pcAfter HiReg 0
      else if (a =? - 2 ^ 31) && (b =? -1) then Fault DivideTrap
      else m ← wreg m LoReg (Z.quot a b); assign m pcAfter HiReg (Z.rem a b)
  | OP_DIVU =>
      a ← rreg m rs; b ← rreg m rt;
      let urs := u32 a in let urt := u32 b in
      if urt =? 0 then m ← wreg m LoReg 0; assign m pcAfter HiReg 0
      else m ← wreg m LoReg (s32 (urs / urt)); assign m pcAfter HiReg (s32 (urs mod urt))
  | OP_JAL =>
      npc ← rreg m NextPCReg; m ← wreg m R31 (s32 (npc + 4));
      next m (s32 (Z.lor (Z.land (u32 pcAfter) 0xf0000000) (u32 (IndexToAddr extra))))
  | OP_J => next m (s32 (Z.lor (Z.land (u32 pcAfter) 0xf0000000) (u32 (IndexToAddr extra))))
  | OP_JALR =>
      npc ← rreg m NextPCReg; m ← wreg m rd (s32 (npc + 4));
      a ← rreg m rs; next m a
  | OP_JR => a ← rreg m rs; next m a
  | OP_LB | OP_LBU =>
      a ← rreg m rs; let tmp := s32 (a + extra) in
      reading m tmp 1 (fun m value =>
        load_later m pcAfter rt
          (if negb (Z.land value 0x80 =? 0) && bool_decide (opCode instr = OP_LB)
           then s32 (Z.lor (u32 value) 0xffffff00) else Z.land value 0xff))
  | OP_LH | OP_LHU =>
      a ← rreg m rs; let tmp := s32 (a + extra) in
      if negb (Z.land tmp 0x1 =? 0) then raise m AddressErrorException tmp
      else reading m tmp 2 (fun m value =>
        load_later m pcAfter rt
          (if negb (Z.land value 0x8000 =? 0) && bool_decide (opCode instr = OP_LH)
           then s32 (Z.lor (u32 value) 0xffff0000) else Z.land value 0xffff))
  | OP_LUI => assign m pcAfter rt (s32 (Z.shiftl extra 16))
  | OP_LW =>
      a ← rreg m rs; let tmp := s32 (a + extra) in
      if negb (Z.land tmp 0x3 =? 0) then raise m AddressErrorException tmp
      else reading m tmp 4 (fun m value => load_later m pcAfter rt value)
  | OP_LWL =>
      a ← rreg m rs; let tmp := s32 (a + extra) in
      _ ← ASSERT (Z.land tmp 0x3 =? 0);
      reading m tmp 4 (fun m value =>
        lr ← rreg m LoadReg;
        old ← rreg m (if lr =? rt then LoadValueReg else rt);
        load_later m pcAfter rt (merge_LWL (Z.land tmp 0x3) old value))
  | OP_LWR =>
      a ← rreg m rs; let tmp := s32 (a + extra) in
      _ ← ASSERT (Z.land tmp 0x3 =? 0);
      reading m tmp 4 (fun m value =>
        lr ← rreg m LoadReg;
        old ← rreg m (if lr =? rt then LoadValueReg else rt);
        load_later m pcAfter rt (merge_LWR (Z.land tmp 0x3) old value))
  | OP_MFHI => v ← rreg m HiReg; assign m pcAfter rd v
  | OP_MFLO => v ← rreg m LoReg; assign m pcAfter rd v
  | OP_MTHI => v ← rreg m rs; assign m pcAfter HiReg v
  | OP_MTLO => v ← rreg m rs; assign m pcAfter LoReg v
  | OP_MULT =>
      a ← rreg m rs; b ← rreg m rt; let '(hi, lo) := Mult a b true in
      m ← wreg m HiReg hi; assign m pcAfter LoReg lo
  | OP_MULTU =>
      a ← rreg m rs; b ← rreg m rt; let '(hi, lo) := Mult a b false in
      m ← wreg m HiReg hi; assign m pcAfter LoReg lo
  | OP_NOR => a ← rreg m rs; b ← rreg m rt; assign m pcAfter rd (Z.lnot (Z.lor a b))
  | OP_OR => a ← rreg m rs; b ← rreg m rs; assign m pcAfter rd (Z.lor a b)
  | OP_ORI => a ← rreg m rs; assign m pcAfter rt (Z.lor a (Z.land extra 0xffff))
  | OP_SB =>
      a ← rreg m rs; b ← rreg m rt;
      writing m (s32 (a + extra)) 1 b (fun m => next m pcAfter)
  | OP_SH =>
      a ← rreg m rs; b ← rreg m rt;
      writing m (s32 (a + extra)) 2 b (fun m => next m pcAfter)
  | OP_SLL => b ← rreg m rt; assign m pcAfter rd (s32 (Z.shiftl b extra))
  | OP_SLLV =>
      b ← rreg m rt; a ← rreg m rs; assign m pcAfter rd (s32 (Z.shiftl b (Z.land a 0x1f)))
  | OP_SLT => a ← rreg m rs; b ← rreg m rt; assign m pcAfter rd (if a <? b then 1 else 0)
  | OP_SLTI => a ← rreg m rs; assign m pcAfter rt (if a <? extra then 1 else 0)
  | OP_SLTIU => a ← rreg m rs; assign m pcAfter rt (if u32 a <? u32 extra then 1 else 0)
  | OP_SLTU => a ← rreg m rs; b ← rreg m rt; assign m pcAfter rd (if u32 a <? u32 b then 1 else 0)
  | OP_SRA => b ← rreg m rt; assign m pcAfter rd (Z.shiftr b extra)
  | OP_SRAV => b ← rreg m rt; a ← rreg m rs; assign m pcAfter rd (Z.shiftr b (Z.land a 0x1f))
  | OP_SRL => tmp ← rreg m rt; assign m pcAfter rd (Z.shiftr tmp extra)
  | OP_SRLV => tmp ← rreg m rt; a ← rreg m rs; assign m pcAfter rd (Z.shiftr tmp (Z.land a 0x1f))
  | OP_SUB =>
      a ← rreg m rs; b ← rreg m rt;
      let diff := s32 (a - b) in
      if sign_bit (Z.lxor a b) && sign_bit (Z.lxor a diff)
      then raise m OverflowException 0
      else assign m pcAfter rd diff
  | OP_SUBU => a ← rreg m rs; b ← rreg m rt; assign m pcAfter rd (s32 (a - b))
  | OP_SW =>
      a ← rreg m rs; b ← rreg m rt;
      writing m (s32 (a + extra)) 4 b (fun m => next m pcAfter)
  | OP_SWL =>
      a ← rreg m rs; let tmp := s32 (a + extra) in
      _ ← ASSERT (Z.land tmp 0x3 =? 0);
      reading m (Z.land tmp (Z.lnot 0x3)) 4 (fun m value =>
        b ← rreg m rt;
        writing m (Z.land tmp (Z.lnot 0x3)) 4 (merge_SWL (Z.land tmp 0x3) value b)
          (fun m => next m pcAfter))
  | OP_SWR =>
      a ← rreg m rs; let tmp := s32 (a + extra) in
      _ ← ASSERT (Z.land tmp 0x3 =? 0);
      reading m (Z.land tmp (Z.lnot 0x3)) 4 (fun m value =>
        b ← rreg m rt;
        writing m (Z.land tmp (Z.lnot 0x3)) 4 (merge_SWR (Z.land tmp 0x3) value b)
          (fun m => next m pcAfter))
  | OP_SYSCALL => raise m SyscallException 0
  | OP_XOR => a ← rreg m rs; b ← rreg m rt; assign m pcAfter rd (Z.lxor a b)
  | OP_XORI => a ← rreg m rs; assign m pcAfter rt (Z.lxor a (Z.land extra 0xffff))
  | OP_RES | OP_UNIMP => raise m IllegalInstrException 0
  | OP_RFE | SPECIAL | BCOND => Fault AssertFailed
  end.

(** What follows the [switch]: the delayed load and the program counters. *)
Definition retire (m : t) (pcAfter nextLoadReg nextLoadValue : Z) : outcome t :=
  m ← DelayedLoad m nextLoadReg nextLoadValue;
  pc ← rreg m PCReg;
  m ← wreg m PrevPCReg pc;
  npc ← rreg m NextPCReg;
  m ← wreg m PCReg npc;
  wreg m NextPCReg pcAfter.

(** [Some e]: exception [e] was raised and its handler runs next. *)
Definition OneInstruction (m : t) : outcome (t * option ExceptionType) :=
  pc ← rreg m PCReg;
  '(m, fetched) ← ReadMem m pc 4;
  match fetched with
  | inl e => Ok (m, Some e)
  | inr raw =>
      instr ← Decode (u32 raw);
      npc ← rreg m NextPCReg;
      '(m, r) ← execute instr m (s32 (npc + 4));
      match r with
      | inl e => Ok (m, Some e)
      | inr (pcAfter, nextLoadReg, nextLoadValue) =>
          m ← retire m pcAfter nextLoadReg nextLoadValue; Ok (m, None)
      end
  end.

(** ** Multiplication is exact *)

Lemma land_1_odd a : negb (Z.land a 1 =? 0) = Z.odd a.
Proof.
  change 1 with (Z.ones 1) at 1. rewrite Z.land_ones by lia. change (2 ^ 1) with 2.
  rewrite Zmod_odd. by destruct (Z.odd a).
Qed.

Lemma land_even_mask a :
  is_s32 a -> Z.odd a = true -> (Z.land (u32 a) 0xfffffffe =? 0) = true -> a = 1.
Proof.
  intros Ha Ho H%Z.eqb_eq.
  assert (Hb : forall k, 1 <= k < 32 -> Z.testbit (u32 a) k = false).
  { intros k Hk. apply (f_equal (fun z => Z.testbit z k)) in H.
    rewrite Z.land_spec, Z.bits_0 in H.
    assert (Z.testbit 0xfffffffe k = true) as Hm.
    { change 0xfffffffe with (Z.shiftl (Z.ones 31) 1). rewrite Z.shiftl_spec by lia.
      apply Z.ones_spec_low. lia. }
    by rewrite Hm, andb_true_r in H. }
  assert (u32 a = 1) as E.
  { apply Z.bits_inj'. intros k Hk. destruct (Z.eq_dec k 0) as [->|].
    - rewrite Z.bit0_odd. change (Z.testbit 1 0) with true. rewrite <- Z.bit0_odd.
      unfold u32. rewrite Z.mod_pow2_bits_low by lia. by rewrite Z.bit0_odd.
    - assert (Z.testbit 1 k = false) as -> by (apply (Z.pow2_bits_false 0 k); lia).
      destruct (Z.ltb_spec k 32); [apply Hb; lia|].
      unfold u32. by rewrite Z.mod_pow2_bits_high by lia. }
  unfold u32, is_s32 in *. Z.to_euclidean_division_equations. lia.
Qed.

Lemma land_top_bit z : is_u32 z -> negb (Z.land z 0x80000000 =? 0) = (2 ^ 31 <=? z).
Proof.
  unfold is_u32. intros Hz. change 0x80000000 with (2 ^ 31).
  assert (Hl : Z.land z (2 ^ 31) = 2 ^ 31 * (z / 2 ^ 31)).
  { replace (2 ^ 31 * (z / 2 ^ 31)) with (Z.shiftl (Z.shiftr z 31) 31)
      by (rewrite Z.shiftl_mul_pow2, Z.shiftr_div_pow2 by lia; lia).
    apply Z.bits_inj'. intros k Hk. rewrite Z.land_spec, Z.shiftl_spec, Z.pow2_bits_eqb by lia.
    destruct (Z.ltb_spec k 31).
    - rewrite (Z.testbit_neg_r _ (k - 31)) by lia.
      destruct (Z.eqb_spec 31 k); [lia|apply andb_false_r].
    - rewrite Z.shiftr_spec by lia. replace (k - 31 + 31) with k by lia.
      destruct (Z.eqb_spec 31 k); [by rewrite andb_true_r|]. rewrite andb_false_r.
      rewrite <- (Z.mod_small z (2 ^ 32)) by lia. by rewrite Z.mod_pow2_bits_high by lia. }
  rewrite Hl. destruct (Z.leb_spec (2 ^ 31) z) as [H|H].
  - replace (z / 2 ^ 31) with 1 by (Z.to_euclidean_division_equations; lia). done.
  - rewrite Z.div_small by lia. done.
Qed.

(** The shift of the double word [bHi, bLo]. *)
Lemma double_shift bLo bHi :
  is_u32 bLo -> 0 <= bHi -> 2 * (bLo + 2 ^ 32 * bHi) < 2 ^ 64 ->
  let bHi1 := u32 (Z.shiftl bHi 1) in
  let bHi' := if negb (Z.land bLo 0x80000000 =? 0) then Z.lor bHi1 1 else bHi1 in
  let bLo' := u32 (Z.shiftl bLo 1) in
  is_u32 bLo' /\ 0 <= bHi' /\ bLo' + 2 ^ 32 * bHi' = 2 * (bLo + 2 ^ 32 * bHi).
Proof.
  intros Hlo Hhi Hb bHi1 bHi' bLo'. subst bHi' bLo' bHi1.
  rewrite land_top_bit by done. rewrite !Z.shiftl_mul_pow2 by lia. change (2 ^ 1) with 2.
  unfold is_u32 in *. split; [apply u32_range|].
  rewrite (u32_small (bHi * 2)) by (unfold is_u32; lia).
  unfold u32. destruct (Z.leb_spec (2 ^ 31) bLo).
  - assert (Z.lor (bHi * 2) 1 = bHi * 2 + 1) as ->.
    { rewrite Z.lor_comm, (Z.mul_comm bHi 2).
      assert (Z.land (1) (2 * bHi) = 0) as Hd.
      { apply Z.bits_inj'. intros k Hk. rewrite Z.land_spec, Z.bits_0.
        destruct (Z.eq_dec k 0) as [->|]; [by rewrite Z.testbit_even_0|].
        assert (Z.testbit 1 k = false) as -> by (apply (Z.pow2_bits_false 0 k); lia). done. }
      pose proof (Z.add_lor_land 1 (2 * bHi)). lia. }
    split; [lia|]. Z.to_euclidean_division_equations; lia.
  - split; [lia|]. Z.to_euclidean_division_equations; lia.
Qed.

(** The addition of the double word [bHi, bLo] to [hi, lo], with its carry. *)
Lemma double_add bLo bHi lo hi :
  is_u32 bLo -> 0 <= bHi -> is_u32 lo -> 0 <= hi ->
  lo + 2 ^ 32 * hi + (bLo + 2 ^ 32 * bHi) < 2 ^ 64 ->
  let lo' := u32 (lo + bLo) in
  let hi1 := if lo' <? bLo then u32 (hi + 1) else hi in
  let hi' := u32 (hi1 + bHi) in
  is_u32 lo' /\ 0 <= hi' /\ lo' + 2 ^ 32 * hi' = lo + 2 ^ 32 * hi + (bLo + 2 ^ 32 * bHi).
Proof.
  intros HbLo HbHi Hlo Hhi Hb lo' hi1 hi'. subst hi' hi1. unfold is_u32 in *.
  assert (El : lo' = lo + bLo \/ lo' = lo + bLo - 2 ^ 32 /\ 2 ^ 32 <= lo + bLo)
    by (unfold lo', u32; Z.to_euclidean_division_equations; lia).
  assert (Hr : 0 <= lo' < 2 ^ 32) by apply u32_range.
  split; [done|]. destruct (Z.ltb_spec lo' bLo).
  - rewrite (u32_small (hi + 1)) by (unfold is_u32; lia).
    rewrite u32_small by (unfold is_u32; lia). lia.
  - rewrite u32_small by (unfold is_u32; lia). lia.
Qed.

Lemma Mult_loop_spec n : forall a bLo bHi lo hi,
  is_s32 a -> is_u32 bLo -> 0 <= bHi -> is_u32 lo -> 0 <= hi ->
  (bLo + 2 ^ 32 * bHi) * 2 ^ Z.of_nat n < 2 ^ 64 ->
  lo + 2 ^ 32 * hi + (a mod 2 ^ Z.of_nat n) * (bLo + 2 ^ 32 * bHi) < 2 ^ 64 ->
  let '(hi', lo') := Mult_loop n a bLo bHi lo hi in
  is_u32 lo' /\ 0 <= hi' /\
  lo' + 2 ^ 32 * hi' = lo + 2 ^ 32 * hi + (a mod 2 ^ Z.of_nat n) * (bLo + 2 ^ 32 * bHi).
Proof.
  induction n as [|n IH]; intros a bLo bHi lo hi Ha HbLo HbHi Hlo Hhi HB Hacc.
  - cbn [Mult_loop]. rewrite Z.mod_1_r. split; [done|]. lia.
  - cbn [Mult_loop]. rewrite Nat2Z.inj_succ, Z.pow_succ_r in * by lia.
    rewrite Z.rem_mul_r in * by lia.
    set (p := 2 ^ Z.of_nat n) in *. assert (Hp : 0 < p) by (apply Z.pow_pos_nonneg; lia).
    set (B := bLo + 2 ^ 32 * bHi) in *. assert (HB0 : 0 <= B) by (unfold B, is_u32 in *; lia).
    pose proof (Z.mod_pos_bound (a / 2) p Hp) as Hr.
    destruct (double_shift bLo bHi HbLo HbHi) as (HbLo' & HbHi' & EB); [fold B; nia|].
    fold B in EB. cbv zeta in EB, HbLo', HbHi'.
    set (bHi' := if negb (Z.land bLo 2147483648 =? 0) then _ else _) in *.
    set (bLo' := u32 (Z.shiftl bLo 1)) in *.
    assert (Hs : is_s32 (Z.shiftr a 1)).
    { rewrite Z.shiftr_div_pow2 by lia. change (2 ^ 1) with 2. unfold is_s32 in *.
      Z.to_euclidean_division_equations; lia. }
    assert (Ea : Z.shiftr a 1 = a / 2) by (by rewrite Z.shiftr_div_pow2 by lia).
    rewrite Ea in *. clear Ea. rewrite land_1_odd, Zmod_odd in *. destruct (Z.odd a) eqn:Ho.
    + destruct (double_add bLo bHi lo hi HbLo HbHi Hlo Hhi) as (Hlo' & Hhi' & El); [fold B; nia|].
      fold B in El. cbv zeta in El, Hlo', Hhi'.
      set (lo' := u32 (lo + bLo)) in *. set (hi' := u32 (_ + bHi)) in *.
      destruct (Z.land (u32 a) 4294967294 =? 0) eqn:Eb.
      * assert (a = 1) as -> by (by apply land_even_mask).
        split; [done|]. split; [done|]. change (1 / 2) with 0. rewrite Z.mod_0_l by lia. lia.
      * specialize (IH (a / 2) bLo' bHi' lo' hi').
        rewrite EB, El in IH. destruct Mult_loop as [h l].
        destruct IH as (? & ? & E); auto; [nia|nia|]. split; [done|]. split; [done|]. nia.
    + specialize (IH (a / 2) bLo' bHi' lo hi). rewrite EB in IH.
      destruct Mult_loop as [h l].
      destruct IH as (? & ? & E); auto; [nia|nia|]. split; [done|]. split; [done|]. nia.
Qed.

Lemma Mult_unsigned a b :
  is_s32 a ->
  let '(hi, lo) := Mult_loop 32 a (u32 b) 0 0 0 in
  is_u32 lo /\ is_u32 hi /\ lo + 2 ^ 32 * hi = u32 a * u32 b.
Proof.
  intros Ha. pose proof (u32_range b) as Hb. pose proof (u32_range a) as Hua. unfold is_u32 in Hb, Hua.
  pose proof (Mult_loop_spec 32 a (u32 b) 0 0 0 Ha) as H.
  change (a mod 2 ^ Z.of_nat 32) with (u32 a) in H.
  destruct Mult_loop as [hi lo]. change (Z.of_nat 32) with 32 in H.
  destruct H as (Hlo & Hhi & E); [done|done|by unfold is_u32|done|lia|nia|].
  unfold is_u32 in *. split; [done|]. split; [|lia]. split; [lia|]. nia.
Qed.

Lemma u32_lnot z : is_u32 z -> u32 (Z.lnot z) = 2 ^ 32 - 1 - z.
Proof.
  unfold is_u32. intros H. unfold Z.lnot, u32. Z.to_euclidean_division_equations; lia.
Qed.

(** The two's complement of a double word. *)
Lemma double_neg hi lo :
  is_u32 lo -> is_u32 hi -> 0 < lo + 2 ^ 32 * hi ->
  let lo' := u32 (u32 (Z.lnot lo) + 1) in
  let hi' := if lo' =? 0 then u32 (u32 (Z.lnot hi) + 1) else u32 (Z.lnot hi) in
  is_u32 lo' /\ is_u32 hi' /\ lo' + 2 ^ 32 * hi' = 2 ^ 64 - (lo + 2 ^ 32 * hi).
Proof.
  intros Hlo Hhi Hpos lo' hi'. subst hi' lo'. rewrite !u32_lnot by done.
  replace (2 ^ 32 - 1 - lo + 1) with (2 ^ 32 - lo) by lia.
  replace (2 ^ 32 - 1 - hi + 1) with (2 ^ 32 - hi) by lia.
  split; [apply u32_range|]. unfold is_u32 in *.
  destruct (Z.eqb_spec (u32 (2 ^ 32 - lo)) 0) as [E|E].
  - split; [apply u32_range|]. rewrite E. unfold u32 in *.
    Z.to_euclidean_division_equations; lia.
  - split; [lia|]. unfold u32 in *. Z.to_euclidean_division_equations; lia.
Qed.

Lemma double_signed hi lo v :
  is_u32 lo -> is_u32 hi -> - 2 ^ 63 <= v < 2 ^ 63 ->
  lo + 2 ^ 32 * hi = v mod 2 ^ 64 -> s32 hi * 2 ^ 32 + lo = v.
Proof.
  unfold is_u32, s32. intros. Z.to_euclidean_division_equations; lia.
Qed.

(** The end of [Mult]: the sign is put back. *)
Lemma signed_result (negative : bool) hi lo v :
  is_u32 lo -> is_u32 hi -> 0 < lo + 2 ^ 32 * hi <= 2 ^ 62 ->
  v = (if negative then - (lo + 2 ^ 32 * hi) else lo + 2 ^ 32 * hi) ->
  let '(hi', lo') :=
    if negative then
      let lo' := u32 (u32 (Z.lnot lo) + 1) in
      ((if lo' =? 0 then u32 (u32 (Z.lnot hi) + 1) else u32 (Z.lnot hi)), lo')
    else (hi, lo) in
  s32 hi' * 2 ^ 32 + u32 (s32 lo') = v.
Proof.
  intros Hlo Hhi HP ->. destruct negative; cbv beta iota zeta; rewrite u32_s32.
  - destruct (double_neg hi lo Hlo Hhi) as (Hlo' & Hhi' & E); [lia|]. cbv zeta in *.
    rewrite (u32_small (u32 _)) by done. apply double_signed; [done|done|lia|].
    rewrite E. rewrite <- (Z_mod_plus_full (- _) 1), Z.mod_small by lia. lia.
  - rewrite u32_small by done. apply double_signed; [done|done|lia|]. rewrite Z.mod_small; lia.
Qed.

(** The operand made positive: its unsigned value is the absolute value, also
    for [INT_MIN], whose negation wraps around to itself. *)
Lemma magnitude z :
  is_s32 z ->
  let z' := if z <? 0 then s32 (- z) else z in is_s32 z' /\ u32 z' = Z.abs z.
Proof.
  unfold is_s32, s32, u32. intros Hz. cbv zeta.
  destruct (Z.ltb_spec z 0); Z.to_euclidean_division_equations; lia.
Qed.

(** The signed case with the two sign tests gathered. *)
Lemma Mult_signed_eq a b :
  a <> 0 -> b <> 0 ->
  Mult a b true =
    let '(hi, lo) := Mult_loop 32 (if a <? 0 then s32 (- a) else a)
                               (u32 (if b <? 0 then s32 (- b) else b)) 0 0 0 in
    let '(hi, lo) :=
      if xorb (a <? 0) (b <? 0) then
        let lo' := u32 (u32 (Z.lnot lo) + 1) in
        ((if lo' =? 0 then u32 (u32 (Z.lnot hi) + 1) else u32 (Z.lnot hi)), lo')
      else (hi, lo) in
    (s32 hi, s32 lo).
Proof.
  intros Ha Hb. unfold Mult. destruct (Z.eqb_spec a 0); [done|]. destruct (Z.eqb_spec b 0); [done|].
  cbn [orb andb]. by destruct (a <? 0), (b <? 0).
Qed.

Lemma Mult_words a b signedArith :
  is_s32 a -> is_s32 b ->
  let '(hi, lo) := Mult a b signedArith in
  is_s32 hi /\ is_s32 lo /\
  if signedArith then hi * 2 ^ 32 + u32 lo = a * b
  else u32 hi * 2 ^ 32 + u32 lo = u32 a * u32 b.
Proof.
  intros Ha Hb.
  destruct (Z.eq_dec a 0) as [->|Ha0]; [by destruct signedArith|].
  destruct (Z.eq_dec b 0) as [->|Hb0].
  { unfold Mult. rewrite orb_true_r. destruct signedArith; rewrite ?Z.mul_0_r; done. }
  destruct signedArith.
  - rewrite Mult_signed_eq by done.
    destruct (magnitude a Ha) as [Ha' Ea], (magnitude b Hb) as [Hb' Eb]. cbv zeta in *.
    pose proof (Mult_unsigned _ (if b <? 0 then s32 (- b) else b) Ha') as HM.
    destruct Mult_loop as [hi lo]. destruct HM as (Hlo & Hhi & E). rewrite Ea, Eb in E.
    assert (HP : 0 < Z.abs a * Z.abs b <= 2 ^ 62) by (unfold is_s32 in *; nia).
    assert (Hv : a * b = if xorb (a <? 0) (b <? 0) then - (Z.abs a * Z.abs b) else Z.abs a * Z.abs b)
      by (destruct (Z.ltb_spec a 0), (Z.ltb_spec b 0); cbn [xorb]; nia).
    rewrite <- E in HP, Hv.
    pose proof (signed_result _ hi lo _ Hlo Hhi HP Hv) as HR.
    destruct (xorb (a <? 0) (b <? 0)); cbv beta iota zeta in HR |- *;
      (split; [apply s32_range|]; split; [apply s32_range|]; exact HR).
  - unfold Mult. destruct (Z.eqb_spec a 0); [done|]. destruct (Z.eqb_spec b 0); [done|].
    cbn [orb andb]. pose proof (Mult_unsigned a b Ha) as HM.
    destruct Mult_loop as [hi lo].
    destruct HM as (Hlo & Hhi & E). split; [apply s32_range|]. split; [apply s32_range|].
    rewrite !u32_s32, !u32_small by done. lia.
Qed.

(** C25: [Mult] computes the exact 64-bit product of all 32-bit operands, in
    both arithmetics: HI:LO is the signed product of the operands (also of
    [INT_MIN]) for MULT and their unsigned product for MULTU. *)
Theorem Mult_exact a b signedArith :
  is_s32 a -> is_s32 b ->
  let '(hi, lo) := Mult a b signedArith in
  is_s32 hi /\ is_s32 lo /\
  if signedArith then hi * 2 ^ 32 + u32 lo = a * b
  else u32 hi * 2 ^ 32 + u32 lo = u32 a * u32 b.
Proof. apply Mult_words. Qed.

(** C25 at [INT_MIN * -1], whose two operands change sign. *)
Lemma Mult_exact_witness :
  let '(hi, lo) := Mult (- 2 ^ 31) (-1) true in
  is_s32 hi /\ is_s32 lo /\ hi * 2 ^ 32 + u32 lo = - 2 ^ 31 * -1.
Proof. apply (Mult_exact (- 2 ^ 31) (-1) true); unfold is_s32; lia. Defined.

(** ** Decoding is total *)

Lemma land_mask_range x n : 0 <= n -> 0 <= Z.land x (Z.ones n) < 2 ^ n.
Proof. intros. rewrite Z.land_ones by done. apply Z.mod_pos_bound. lia. Qed.

Definition executable (op : opcode) : bool :=
  match op with OP_RFE | SPECIAL | BCOND => false | _ => true end.
Definition shifts_by_extra (op : opcode) : bool :=
  match op with OP_SLL | OP_SRA | OP_SRL => true | _ => false end.

(** What the [switch] relies on: register numbers below 32, an opcode it has a
    case for, and a shift count below 32. *)
Definition decoded (i : Instruction) : Prop :=
  0 <= rs i < 32 /\ 0 <= rt i < 32 /\ 0 <= rd_ i < 32 /\ is_s32 (extra i) /\
  executable (opCode i) = true /\ (shifts_by_extra (opCode i) = true -> 0 <= extra i < 32).

Definition table_entry_ok (e : opcode * format) : bool :=
  match e with
  | (SPECIAL, fmt) => bool_decide (fmt = RFMT)
  | (BCOND, _) => true
  | (op, _) => executable op && negb (shifts_by_extra op)
  end.

Lemma opTable_lookup i : 0 <= i < 64 ->
  exists e, Prelude.rd opTable i = Ok e /\ table_entry_ok e = true.
Proof.
  intros Hi. destruct (rd_total opTable i) as (e & -> & He); [exact Hi|]. exists e. split; [done|].
  assert (Hall : Forall (fun e => table_entry_ok e = true) opTable)
    by (apply List.Forall_forall, forallb_forall; by vm_compute).
  by eapply (Forall_lookup_1 _ _ _ _ Hall).
Qed.

Lemma specialTable_lookup i : 0 <= i < 64 ->
  exists op, Prelude.rd specialTable i = Ok op /\ executable op = true.
Proof.
  intros Hi. destruct (rd_total specialTable i) as (e & -> & He); [exact Hi|]. exists e. split; [done|].
  assert (Hall : Forall (fun e => executable e = true) specialTable)
    by (apply List.Forall_forall, forallb_forall; by vm_compute).
  by eapply (Forall_lookup_1 _ _ _ _ Hall).
Qed.

Lemma Decode_ok v : exists i, Decode v = Ok i /\ decoded i.
Proof.
  unfold Decode.
  destruct (opTable_lookup (Z.land (Z.shiftr v 26) 63)) as ([op fmt] & -> & Hop);
    [exact (land_mask_range _ 6 ltac:(done))|]. cbn [mbind outcome_bind].
  set (e := match fmt with IFMT => _ | JFMT => _ | RFMT => _ end).
  assert (He : is_s32 e).
  { unfold e. destruct fmt; try apply s32_range. by case_match; apply s32_range. }
  assert (Hf : fmt = RFMT -> 0 <= e < 32).
  { intros ->. unfold e. pose proof (land_mask_range (Z.shiftr v 6) 5 ltac:(done)) as H.
    change (Z.ones 5) with 31 in H. rewrite s32_small; [exact H|]. unfold is_s32. lia. }
  assert (Hfin : forall op', executable op' = true -> (shifts_by_extra op' = true -> fmt = RFMT) ->
    decoded (mkInstr v op' (Z.land (Z.shiftr v 21) 31) (Z.land (Z.shiftr v 16) 31)
                     (Z.land (Z.shiftr v 11) 31) e)).
  { intros op' H1 H2. unfold decoded; cbn [rs rt rd_ extra opCode].
    do 3 (split; [exact (land_mask_range _ 5 ltac:(done))|]). auto. }
  destruct (decide (op = SPECIAL)) as [->|Hs]; [|destruct (decide (op = BCOND)) as [->|Hb]].
  - destruct (specialTable_lookup (Z.land v 63)) as (op' & -> & Hx);
      [exact (land_mask_range _ 6 ltac:(done))|].
    eexists. split; [done|]. apply Hfin; [done|]. cbn in Hop. by apply bool_decide_eq_true in Hop.
  - eexists. split; [done|]. apply Hfin; repeat case_match; done.
  - assert (executable op = true /\ shifts_by_extra op = false) as [H1 H2]
      by (destruct op; try done; by destruct fmt).
    exists (mkInstr v op (Z.land (Z.shiftr v 21) 31) (Z.land (Z.shiftr v 16) 31)
                    (Z.land (Z.shiftr v 11) 31) e).
    split; [by destruct op|]. apply Hfin; [done|]. by rewrite H2.
Qed.

(** The instruction words of the three formats (cf. the MIPS architecture). *)
Definition encode_R (rs rt rd shamt funct : Z) : Z :=
  rs * 2 ^ 21 + rt * 2 ^ 16 + rd * 2 ^ 11 + shamt * 2 ^ 6 + funct.
Definition encode_I (op rs rt imm : Z) : Z := op * 2 ^ 26 + rs * 2 ^ 21 + rt * 2 ^ 16 + imm mod 2 ^ 16.
Definition encode_J (op target : Z) : Z := op * 2 ^ 26 + target.

Lemma field_eq v k n x :
  0 <= k -> 0 <= n -> v / 2 ^ k mod 2 ^ n = x -> Z.land (Z.shiftr v k) (Z.ones n) = x.
Proof. intros. by rewrite Z.land_ones, Z.shiftr_div_pow2 by lia. Qed.

(** Evaluate a field of an encoded word. *)
Ltac field k n :=
  apply (field_eq _ k n); [done|done|];
  unfold encode_R, encode_I, encode_J; Z.to_euclidean_division_equations; lia.

Lemma low_field_eq v n x : 0 <= n -> v mod 2 ^ n = x -> Z.land v (Z.ones n) = x.
Proof. intros. by rewrite Z.land_ones by lia. Qed.
Ltac low_field n :=
  apply (low_field_eq _ n); [done|];
  unfold encode_R, encode_I, encode_J; Z.to_euclidean_division_equations; lia.

(** The sign extension of an immediate. *)
Lemma sign_extend imm :
  - 2 ^ 15 <= imm < 2 ^ 15 ->
  (let e := s32 (imm mod 2 ^ 16) in
   if negb (Z.land e 0x8000 =? 0) then s32 (Z.lor (u32 e) 0xffff0000) else e) = imm.
Proof.
  intros Hi. cbv zeta. pose proof (Z.mod_pos_bound imm (2 ^ 16) ltac:(lia)) as Hm.
  rewrite s32_small by (unfold is_s32; lia).
  assert (Et : negb (Z.land (imm mod 2 ^ 16) 0x8000 =? 0) = Z.testbit (imm mod 2 ^ 16) 15).
  { change 0x8000 with (2 ^ 15). destruct (Z.testbit (imm mod 2 ^ 16) 15) eqn:E.
    - apply negb_true_iff, Z.eqb_neq. intros H0.
      apply (f_equal (fun z => Z.testbit z 15)) in H0.
      by rewrite Z.land_spec, E, Z.pow2_bits_true, Z.bits_0 in H0 by lia.
    - apply negb_false_iff, Z.eqb_eq. apply Z.bits_inj'. intros k Hk.
      rewrite Z.land_spec, Z.bits_0, Z.pow2_bits_eqb by lia.
      destruct (Z.eqb_spec 15 k) as [<-|]; [by rewrite E|apply andb_false_r]. }
  rewrite Et, Z.testbit_eqb by lia.
  destruct (Z.eqb_spec (imm mod 2 ^ 16 / 2 ^ 15 mod 2) 1) as [E|E].
  - assert (Z.lor (u32 (imm mod 2 ^ 16)) 0xffff0000 = imm mod 2 ^ 16 + 0xffff0000) as ->.
    { rewrite u32_small by (unfold is_u32; lia). 
      assert (Z.land (imm mod 2 ^ 16) 0xffff0000 = 0) as Hd.
      { apply Z.bits_inj'. intros k Hk. rewrite Z.land_spec, Z.bits_0.
        destruct (Z.ltb_spec k 16).
        - change 0xffff0000 with (Z.shiftl (Z.ones 16) 16).
          rewrite Z.shiftl_spec, (Z.testbit_neg_r _ (k - 16)) by lia. apply andb_false_r.
        - by rewrite Z.mod_pow2_bits_high by lia. }
      pose proof (Z.add_lor_land (imm mod 2 ^ 16) 0xffff0000). lia. }
    unfold s32. Z.to_euclidean_division_equations; lia.
  - Z.to_euclidean_division_equations; lia.
Qed.

(** The immediate of [Decode] is the signed value of the low half. *)
Definition low16 (v : Z) : Z := (v + 2 ^ 15) mod 2 ^ 16 - 2 ^ 15.

Lemma low16_range v : - 2 ^ 15 <= low16 v < 2 ^ 15.
Proof. unfold low16. pose proof (Z.mod_pos_bound (v + 2 ^ 15) (2 ^ 16)). lia. Qed.

Lemma Decode_imm v :
  (let e := s32 (Z.land v 0xffff) in if negb (Z.land e 0x8000 =? 0) then s32 (Z.lor (u32 e) 0xffff0000) else e) = low16 v.
Proof.
  rewrite <- (sign_extend (low16 v)) by apply low16_range. change 0xffff with (Z.ones 16). rewrite Z.land_ones by done.
  replace (low16 v mod 2 ^ 16) with (v mod 2 ^ 16); [done|]. unfold low16. Z.to_euclidean_division_equations; lia.
Qed.

(** [Decode] inverts the encoding of the three instruction formats: the
    register fields, the shift amount, the sign-extended 16-bit immediate, the
    26-bit target and the opcode the tables give. *)
Theorem Decode_encode rs rt rd shamt funct o imm target op :
  0 <= rs < 32 -> 0 <= rt < 32 -> 0 <= rd < 32 -> 0 <= shamt < 32 -> 0 <= funct < 64 ->
  0 <= o < 64 -> - 2 ^ 15 <= imm < 2 ^ 15 -> 0 <= target < 2 ^ 26 ->
  (specialTable !! Z.to_nat funct = Some op ->
   Decode (encode_R rs rt rd shamt funct) =
     Ok (mkInstr (encode_R rs rt rd shamt funct) op rs rt rd shamt)) /\
  (opTable !! Z.to_nat o = Some (op, IFMT) -> op <> BCOND ->
   exists rd', Decode (encode_I o rs rt imm) = Ok (mkInstr (encode_I o rs rt imm) op rs rt rd' imm)) /\
  (opTable !! Z.to_nat o = Some (op, JFMT) ->
   exists rs' rt' rd', Decode (encode_J o target) =
     Ok (mkInstr (encode_J o target) op rs' rt' rd' target)).
Proof.
  intros Hrs Hrt Hrd Hsh Hfn Ho Himm Ht. split; [|split].
  - intros Hop. unfold Decode.
    assert (Z.land (Z.shiftr (encode_R rs rt rd shamt funct) 26) 63 = 0) as -> by field 26 6.
    assert (Z.land (Z.shiftr (encode_R rs rt rd shamt funct) 21) 31 = rs) as -> by field 21 5.
    assert (Z.land (Z.shiftr (encode_R rs rt rd shamt funct) 16) 31 = rt) as -> by field 16 5.
    assert (Z.land (Z.shiftr (encode_R rs rt rd shamt funct) 11) 31 = rd) as -> by field 11 5.
    assert (Z.land (Z.shiftr (encode_R rs rt rd shamt funct) 6) 31 = shamt) as -> by field 6 5.
    assert (Z.land (encode_R rs rt rd shamt funct) 63 = funct) as -> by low_field 6.
    change (Prelude.rd opTable 0) with (Ok (SPECIAL, RFMT)). cbn [mbind outcome_bind].
    rewrite (rd_lookup _ _ op) by (done || lia). cbn [mbind outcome_bind].
    rewrite s32_small by (unfold is_s32; lia). done.
  - intros Hop Hb. eexists. unfold Decode.
    assert (Z.land (Z.shiftr (encode_I o rs rt imm) 26) 63 = o) as -> by field 26 6.
    assert (Z.land (Z.shiftr (encode_I o rs rt imm) 21) 31 = rs) as -> by field 21 5.
    assert (Z.land (Z.shiftr (encode_I o rs rt imm) 16) 31 = rt) as -> by field 16 5.
    assert (Z.land (encode_I o rs rt imm) 65535 = imm mod 2 ^ 16) as -> by low_field 16.
    rewrite (rd_lookup _ _ (op, IFMT)) by (done || lia). cbn [mbind outcome_bind].
    pose proof (sign_extend imm Himm) as Hse. cbv zeta in Hse. rewrite Hse.
    destruct (opTable_lookup o Ho) as (e & He & Hok). apply rd_inv in He as [_ He].
    rewrite Hop in He. injection He as <-. by destruct op.
  - intros Hop. eexists _, _, _. unfold Decode.
    assert (Z.land (Z.shiftr (encode_J o target) 26) 63 = o) as -> by field 26 6.
    assert (Z.land (encode_J o target) 67108863 = target) as -> by low_field 26.
    rewrite (rd_lookup _ _ (op, JFMT)) by (done || lia). cbn [mbind outcome_bind].
    rewrite s32_small by (unfold is_s32; lia).
    destruct (opTable_lookup o Ho) as (e & He & Hok). apply rd_inv in He as [_ He].
    rewrite Hop in He. injection He as <-.
    assert (Forall (fun e => match e with ((OP_J | OP_JAL), _) => true | (_, JFMT) => false | _ => true end = true)
      opTable) as Hj by (apply List.Forall_forall, forallb_forall; by vm_compute).
    pose proof (Forall_lookup_1 _ _ _ _ Hj Hop) as E. by destruct op.
Qed.

(** At [addi r8, r29, -4] and [sll r2, r3, 31]. *)
Lemma Decode_encode_witness :
  Decode (encode_R 0 3 2 31 0) = Ok (mkInstr (encode_R 0 3 2 31 0) OP_SLL 0 3 2 31) /\
  exists rd', Decode (encode_I 8 29 8 (-4)) = Ok (mkInstr (encode_I 8 29 8 (-4)) OP_ADDI 29 8 rd' (-4)).
Proof.
  split.
  - apply (Decode_encode 0 3 2 31 0 0 0 0 OP_SLL); try lia; done.
  - apply (Decode_encode 29 8 0 0 0 8 (-4) 0 OP_ADDI); try lia; done.
Defined.

(** ** Bit operations stay in the range of [int] *)

Lemma is_s32_shiftr z : is_s32 z <-> Z.shiftr z 31 = 0 \/ Z.shiftr z 31 = -1.
Proof.
  rewrite Z.shiftr_div_pow2 by lia. unfold is_s32. Z.to_euclidean_division_equations; lia.
Qed.

Lemma is_s32_land a b : is_s32 a -> is_s32 b -> is_s32 (Z.land a b).
Proof. rewrite !is_s32_shiftr, Z.shiftr_land. intros [-> | ->] [-> | ->]; cbn; auto. Qed.
Lemma is_s32_lor a b : is_s32 a -> is_s32 b -> is_s32 (Z.lor a b).
Proof. rewrite !is_s32_shiftr, Z.shiftr_lor. intros [-> | ->] [-> | ->]; cbn; auto. Qed.
Lemma is_s32_lxor a b : is_s32 a -> is_s32 b -> is_s32 (Z.lxor a b).
Proof. rewrite !is_s32_shiftr, Z.shiftr_lxor. intros [-> | ->] [-> | ->]; cbn; auto. Qed.
Lemma is_s32_lnot a : is_s32 a -> is_s32 (Z.lnot a).
Proof. unfold is_s32, Z.lnot. lia. Qed.
Lemma is_s32_shr a n : is_s32 a -> 0 <= n -> is_s32 (Z.shiftr a n).
Proof.
  intros Ha Hn. apply is_s32_shiftr in Ha. apply is_s32_shiftr.
  rewrite Z.shiftr_shiftr by lia. rewrite Z.add_comm, <- Z.shiftr_shiftr by lia.
  rewrite (Z.shiftr_div_pow2 (Z.shiftr a 31)) by lia. pose proof (Z.pow_pos_nonneg 2 n).
  destruct Ha as [-> | ->]; [left; apply Z.div_0_l; lia|right].
  symmetry. apply (Z.div_unique _ _ _ (2 ^ n - 1)); lia.
Qed.
Lemma is_s32_land_mask a n : 0 <= n < 32 -> is_s32 (Z.land a (Z.ones n)).
Proof.
  intros Hn. pose proof (land_mask_range a n ltac:(lia)).
  pose proof (Z.pow_le_mono_r 2 n 31). unfold is_s32. lia.
Qed.
Lemma is_s32_01 (c : bool) : is_s32 (if c then 1 else 0).
Proof. destruct c; by unfold is_s32. Qed.
Lemma is_s32_quot a b : is_s32 a -> is_s32 b -> b <> 0 -> ~ (a = - 2 ^ 31 /\ b = -1) ->
  is_s32 (Z.quot a b) /\ is_s32 (Z.rem a b).
Proof.
  unfold is_s32. intros Ha Hb H0 Hn. split.
  - pose proof (Z.quot_abs a b H0) as E.
    assert (Z.abs (a ÷ b) <= Z.abs a).
    { rewrite <- E. rewrite Z.quot_div_nonneg by lia. apply Z.div_le_upper_bound; nia. }
    destruct (Z.eq_dec a (- 2 ^ 31)) as [->|]; [|lia].
    assert (b <> -1) by tauto. destruct (Z.eq_dec b 1) as [->|]; [rewrite Z.quot_1_r; lia|].
    assert (Z.abs (- 2 ^ 31 ÷ b) < 2 ^ 31); [|lia].
    rewrite <- E, Z.quot_div_nonneg by lia. apply Z.div_lt_upper_bound; lia.
  - pose proof (Z.rem_bound_abs a b H0). lia.
Qed.

Lemma is_s32_ff a : is_s32 (Z.land a 0xff).
Proof. apply (is_s32_land_mask a 8). lia. Qed.
Lemma is_s32_ffff a : is_s32 (Z.land a 0xffff).
Proof. apply (is_s32_land_mask a 16). lia. Qed.
Lemma shift_count a : 0 <= Z.land a 0x1f.
Proof. apply (land_mask_range a 5). lia. Qed.

#[local] Hint Resolve is_s32_land is_s32_lor is_s32_lxor is_s32_lnot is_s32_shr is_s32_01
  is_s32_ff is_s32_ffff shift_count : nachos.

(** ** Rules for the machine's operations *)

Lemma wp_rreg m n (Q : Z -> Prop) E :
  wf m -> 0 <= n < NumTotalRegs ->
  (forall v, registers m !! Z.to_nat n = Some v -> is_s32 v -> Q v) -> wp (rreg m n) Q E.
Proof.
  intros (Hm & _) Hn HQ. destruct (rreg_ok m n Hm Hn) as (v & -> & Hv & Hs). by apply HQ.
Qed.

Lemma wp_wreg m n v (Q : t -> Prop) E :
  wf m -> 0 <= n < NumTotalRegs -> n <> LoadReg -> is_s32 v ->
  (forall m', wf m' -> same_but_regs m m' ->
     registers m' = <[Z.to_nat n := v]> (registers m) -> Q m') -> wp (wreg m n v) Q E.
Proof.
  intros Hwf Hn Hl Hv HQ. pose proof Hwf as (Hm & _).
  destruct (wreg_run m n v Hm Hv Hn) as (m' & -> & H1 & S1 & R1); [by left|].
  apply HQ; [by apply (same_but_regs_wf m)|done|done].
Qed.

(** The machine [m'] was left by an exception raised in a state with the
    registers and the memory of [m0]. *)
Definition trapped (m0 m' : t) : Prop :=
  exists m1 badVAddr, registers m1 = registers m0 /\ mainMemory m1 = mainMemory m0 /\
    is_s32 badVAddr /\ raise_entry m1 badVAddr = Ok m'.

(** What the [switch] started in [m0] leaves: a well-formed machine, and either
    a trap that undoes nothing, or the three values and the program counters
    still in place. *)
Definition leaves (m0 : t) (p : t * result) : Prop :=
  wf p.1 /\
  match p.2 with
  | inl _ => trapped m0 p.1
  | inr (pc, reg, v) => pcs p.1 = pcs m0 /\ is_s32 pc /\ 0 <= reg < NumGPRegs /\ is_s32 v
  end.

(** Nothing of [m0] that a program can see has changed in [m]. *)
Definition untouched (m0 m : t) : Prop :=
  wf m /\ registers m = registers m0 /\ mainMemory m = mainMemory m0.

Section rules.
Context (m0 : t) (E : fault -> Prop).

Lemma wp_raise m e bad : untouched m0 m -> is_s32 bad -> wp (raise m e bad) (leaves m0) E.
Proof.
  intros (Hwf & Hr & Hmem) Hb. pose proof Hwf as (Hm & _). unfold raise.
  destruct (raise_entry_ok m bad Hm Hb) as (m' & E' & H1 & S1 & _). rewrite E'.
  split; [by apply (same_but_regs_wf m)|]. by exists m, bad.
Qed.

Lemma wp_next m pc : wf m -> pcs m = pcs m0 -> is_s32 pc -> wp (next m pc) (leaves m0) E.
Proof. intros. split; [done|]. split; [done|]. unfold is_s32, NumGPRegs in *. lia. Qed.

Lemma wp_load_later m pc reg v :
  untouched m0 m -> is_s32 pc -> 0 <= reg < NumGPRegs -> is_s32 v ->
  wp (load_later m pc reg v) (leaves m0) E.
Proof. intros (Hwf & Hr & _) ? ? ?. split; [done|]. unfold pcs. cbn. rewrite Hr. auto. Qed.

Lemma wp_assign m pc r v :
  wf m -> pcs m = pcs m0 -> is_s32 pc -> 0 <= r < PCReg -> is_s32 v ->
  wp (assign m pc r v) (leaves m0) E.
Proof.
  intros Hwf Hp Hpc Hr Hv. unfold assign, PCReg in *.
  apply wp_bind, wp_wreg; [done|unfold NumTotalRegs; lia|unfold LoadReg; lia|done|].
  intros m' Hwf' _ R. apply wp_next; [done| |done]. rewrite <- Hp. apply (pcs_insert _ _ _ _ R). lia.
Qed.

Lemma wp_reading m addr size k :
  untouched m0 m -> is_s32 addr -> is_size size ->
  (forall m' v, untouched m0 m' -> is_s32 v -> wp (k m' v) (leaves m0) E) ->
  wp (reading m addr size k) (leaves m0) E.
Proof.
  intros (Hwf & Hr0 & Hm0) Ha Hs Hk. unfold reading.
  destruct (ReadMem_ok m addr size Hwf Ha Hs) as (m' & r & -> & Hwf' & Hmem & Hr).
  cbn [mbind outcome_bind]. destruct r as [e|v].
  - split; [done|]. by exists m, addr.
  - destruct Hr as [Hv Hr]. apply Hk; [|done]. split; [done|]. split; congruence.
Qed.

Lemma wp_writing m addr size v pc :
  untouched m0 m -> is_s32 addr -> is_size size -> is_s32 pc ->
  wp (writing m addr size v (fun m => next m pc)) (leaves m0) E.
Proof.
  intros (Hwf & Hr0 & Hm0) Ha Hs Hpc. unfold writing.
  destruct (WriteMem_ok m addr size v Hwf Ha Hs) as (m' & r & -> & Hwf' & Hr).
  cbn [mbind outcome_bind]. destruct r as [e|[]].
  - split; [done|]. by exists m, addr.
  - apply wp_next; [done| |done]. unfold pcs. by rewrite Hr, Hr0.
Qed.

End rules.

(** ** Every instruction is executed, or is one the simulator cannot run *)

Lemma Mult_s32 a b sg : is_s32 (Mult a b sg).1 /\ is_s32 (Mult a b sg).2.
Proof.
  unfold Mult. destruct ((a =? 0) || (b =? 0)); [done|].
  repeat match goal with |- context [let '(_, _) := ?p in _] => destruct p end.
  split; apply s32_range.
Qed.

Lemma merge_s32 k old v : is_s32 old -> is_s32 v ->
  is_s32 (merge_LWL k old v) /\ is_s32 (merge_LWR k old v).
Proof.
  intros. unfold merge_LWL, merge_LWR. split; repeat case_match; auto using s32_range.
Qed.

(** The instructions that stop the whole simulation: the division whose
    quotient does not fit, and unaligned accesses of LWL, LWR, SWL and SWR. *)
Definition crashes (i : Instruction) (m : t) : option fault :=
  match rreg m (rs i), rreg m (rt i) with
  | Ok a, Ok b =>
      match opCode i with
      | OP_DIV => if (a =? - 2 ^ 31) && (b =? -1) then Some DivideTrap else None
      | OP_LWL | OP_LWR | OP_SWL | OP_SWR =>
          if Z.land (s32 (a + extra i)) 0x3 =? 0 then None else Some AssertFailed
      | _ => None
      end
  | _, _ => None
  end.

Ltac reg_bounds :=
  unfold NumTotalRegs, NumGPRegs, PCReg, PrevPCReg, NextPCReg, HiReg, LoReg, LoadReg, LoadValueReg, R31, is_s32 in *;
  lia.
Ltac s32_bounds :=
  lazymatch goal with
  | |- is_s32 (if ?c then 1 else 0) => apply is_s32_01
  | |- is_s32 (if ?c then _ else _) => destruct c; s32_bounds
  | _ => first [assumption | apply s32_range | by auto 6 using s32_range with nachos | by unfold is_s32 | idtac]
  end.
Ltac wf_now := solve [assumption | match goal with H : untouched _ _ |- wf _ => exact (proj1 H) end].
Ltac pcs_now :=
  solve [ assumption | reflexivity
        | match goal with H : registers ?m' = <[_ := _]> (registers ?m) |- pcs ?m' = _ =>
            rewrite (pcs_insert _ _ _ _ H); [assumption|reg_bounds] end ].
Ltac exec_step :=
  match goal with
  | |- wp (mbind _ (Ok _)) _ _ => rewrite bind_Ok
  | |- wp (let '(_, _) := Mult ?a ?b ?s in _) _ _ =>
      destruct (Mult_s32 a b s); destruct (Mult a b s); cbn [fst snd] in *
  | |- wp (mbind _ (ASSERT _)) _ _ => apply wp_bind, wp_ASSERT; intros H; [|by rewrite H]
  | |- wp (mbind _ (rreg _ (if ?c then _ else _))) _ _ => destruct c
  | |- wp (mbind _ (rreg _ _)) _ _ => apply wp_bind, wp_rreg; [wf_now|reg_bounds|intros ? ? ?]
  | |- wp (mbind _ (wreg _ _ _)) _ _ =>
      apply wp_bind, wp_wreg; [wf_now|reg_bounds|reg_bounds|s32_bounds|intros ? ? ? ?]
  | |- wp (if ?c then _ else _) _ _ => destruct c eqn:?
  | |- wp (raise _ _ _) _ _ => apply wp_raise; [assumption|s32_bounds]
  | |- wp (assign _ _ _ _) _ _ => apply wp_assign; [wf_now|pcs_now|s32_bounds|reg_bounds|s32_bounds]
  | |- wp (next _ _) _ _ => apply wp_next; [wf_now|pcs_now|s32_bounds]
  | |- wp (load_later _ _ _ _) _ _ => apply wp_load_later; [assumption|s32_bounds|reg_bounds|s32_bounds]
  | |- wp (reading _ _ _ _) _ _ => apply wp_reading; [assumption|s32_bounds|unfold is_size; lia|intros ? ? ? ?]
  | |- wp (writing _ _ _ _ _) _ _ => apply wp_writing; [assumption|s32_bounds|unfold is_size; lia|s32_bounds]
  end.

Lemma execute_ok i m0 m pcAfter :
  decoded i -> untouched m0 m -> is_s32 pcAfter ->
  wp (execute i m pcAfter) (leaves m0) (fun f => crashes i m = Some f).
Proof.
  intros (Hrs & Hrt & Hrd & Hex & Hx & Hsh) Hu Hpc. pose proof Hu as (Hwf & Hu2).
  assert (Hp : pcs m = pcs m0) by (unfold pcs; by rewrite (proj1 Hu2)).
  destruct (rreg_ok m (rs i) (proj1 Hwf)) as (a & Ea & _ & Ha); [reg_bounds|].
  destruct (rreg_ok m (rt i) (proj1 Hwf)) as (b & Eb & _ & Hb); [reg_bounds|].
  unfold execute, crashes. rewrite !Ea, !Eb.
  destruct (opCode i) eqn:Eop; try discriminate Hx; cbv zeta; repeat exec_step.
  all: try (apply merge_s32; assumption).
  all: try (apply is_s32_shr; [assumption|apply Hsh; reflexivity]).
  all: try (apply is_s32_quot; [assumption|assumption| |]; lia).
  all: try (apply is_s32_land; [apply s32_range|by unfold is_s32]).
  done.
Qed.

(** Look up an element of a list after several updates. *)
Ltac lookups :=
  repeat first [rewrite list_lookup_insert_eq by (rewrite ?length_insert; lia)
               |rewrite list_lookup_insert_ne by lia].

Lemma retire_ok m pcAfter reg v :
  wf m -> is_s32 pcAfter -> 0 <= reg < NumGPRegs -> is_s32 v ->
  exists m', retire m pcAfter reg v = Ok m' /\ wf m' /\ registers m' !! 0%nat = Some 0 /\
    pcs m' = (registers m !! Z.to_nat NextPCReg, Some pcAfter, registers m !! Z.to_nat PCReg).
Proof.
  intros Hwf Hpc Hr Hv. pose proof Hwf as (Hm & _). unfold retire.
  destruct (DelayedLoad_ok m reg v Hm Hr Hv) as (m1 & lr & lv & -> & H1 & S1 & P1 & _ & _ & R1).
  assert (Z1 : registers m1 !! 0%nat = Some 0) by (by eapply regs_zero).
  cbn [mbind outcome_bind].
  destruct (rreg_ok m1 PCReg H1) as (pc & -> & Epc & Hpc'); [done|]. cbn [mbind outcome_bind].
  destruct (wreg_run m1 PrevPCReg pc) as (m2 & -> & H2 & S2 & R2); [done|done|done|by left|].
  cbn [mbind outcome_bind].
  destruct (rreg_ok m2 NextPCReg H2) as (npc & -> & Enpc & Hnpc); [done|]. cbn [mbind outcome_bind].
  destruct (wreg_run m2 PCReg npc) as (m3 & -> & H3 & S3 & R3); [done|done|done|by left|].
  cbn [mbind outcome_bind].
  destruct (wreg_run m3 NextPCReg pcAfter) as (m4 & -> & H4 & S4 & R4); [done|done|done|by left|].
  exists m4. split; [done|].
  split; [apply (same_but_regs_wf m); eauto using same_but_regs_trans|].
  pose proof (proj1 H1) as L1. unfold NumTotalRegs in L1.
  unfold pcs, PCReg, NextPCReg, PrevPCReg in *. rewrite R4, R3, R2 in *.
  rewrite list_lookup_insert_ne in Enpc by lia.
  injection P1 as P34 P35 P36. lookups. split; [done|]. congruence.
Qed.

(** What running one instruction from [m] may give: a well-formed machine with
    register 0 cleared and, without an exception, the program counters advanced
    through the delay slot; with one, the machine as it was but for the pending
    load and [BadVAddrReg]; or the end of the simulation, for an instruction
    that [crashes]. *)
Definition instruction_outcome (m : t) (o : outcome (t * option ExceptionType)) : Prop :=
  match o with
  | Ok (m', None) =>
      wf m' /\ registers m' !! 0%nat = Some 0 /\
      registers m' !! Z.to_nat PCReg = registers m !! Z.to_nat NextPCReg /\
      registers m' !! Z.to_nat PrevPCReg = registers m !! Z.to_nat PCReg
  | Ok (m', Some _) =>
      wf m' /\ registers m' !! 0%nat = Some 0 /\ pcs m' = pcs m /\ trapped m m' /\
      mainMemory m' = mainMemory m
  | Fault f =>
      exists pc m1 raw i, registers m !! Z.to_nat PCReg = Some pc /\
        ReadMem m pc 4 = Ok (m1, inr raw) /\ Decode (u32 raw) = Ok i /\ crashes i m1 = Some f
  end.

Lemma trapped_outcome m m' e :
  wf m -> wf m' -> trapped m m' -> instruction_outcome m (Ok (m', Some e)).
Proof.
  intros Hwf Hwf' Ht. pose proof Ht as (m1 & bad & Hr & Hmem & Hb & E).
  assert (Hr1 : regs_ok m1) by (unfold regs_ok; rewrite Hr; apply Hwf).
  destruct (raise_entry_ok m1 bad Hr1 Hb) as (m2 & E2 & _ & S2 & Z2 & P2).
  rewrite E in E2. injection E2 as <-. split; [done|]. split; [done|].
  split; [unfold pcs in *; by rewrite Hr in P2|]. split; [done|]. rewrite S2. done.
Qed.

(** C24: running one instruction on any well-formed machine (registers and
    memory arbitrary, the word at the PC arbitrary) gives a result: it never
    leaves an array's bounds, keeps the machine well formed and register 0 at
    0, moves PC to the old NextPC when it completes (so that a branch takes
    effect after its delay slot), and on an exception leaves the program
    counters and memory as they were, so that the instruction can be run
    again.  The simulation ends only for the instructions [crashes] lists. *)
Theorem OneInstruction_total m : wf m -> instruction_outcome m (OneInstruction m).
Proof.
  intros Hwf. unfold OneInstruction.
  destruct (rreg_ok m PCReg (proj1 Hwf)) as (pc & -> & Epc & Hpc); [done|]. cbn [mbind outcome_bind].
  destruct (ReadMem_ok m pc 4 Hwf Hpc) as (m1 & r & Er & Hwf1 & Hmem & Hr); [by right; right|].
  rewrite Er. cbn [mbind outcome_bind]. destruct r as [e|raw].
  - apply trapped_outcome; [done|done|]. by exists m, pc.
  - destruct Hr as [_ Hr]. destruct (Decode_ok (u32 raw)) as (i & Ei & Hi). rewrite Ei.
    cbn [mbind outcome_bind].
    destruct (rreg_ok m1 NextPCReg (proj1 Hwf1)) as (npc & -> & _); [done|]. cbn [mbind outcome_bind].
    assert (Hu : untouched m m1) by done.
    pose proof (execute_ok i m m1 (s32 (npc + 4)) Hi Hu (s32_range _)) as Hx.
    destruct execute as [[m2 res]|f]; cbn [wp mbind outcome_bind] in *.
    + destruct Hx as [Hwf2 Hx]. cbn [fst snd] in *. destruct res as [e|[[pc' reg] v]].
      * by apply trapped_outcome.
      * destruct Hx as (Hp & Hpc' & Hreg & Hv).
        destruct (retire_ok m2 pc' reg v Hwf2 Hpc' Hreg Hv) as (m3 & -> & Hwf3 & Z3 & P3).
        unfold pcs in *. injection Hp as P34 P35 P36. injection P3 as Q34 Q35 Q36.
        split; [done|]. split; [done|]. split; congruence.
    + exists pc, m1, raw, i. done.
Qed.

(** C24 at the fresh machine, where the word at address 0 is [sll r0, r0, 0]. *)
Lemma OneInstruction_total_witness :
  exists m, m = with_table (Machine_new 0 0 false) demo_table 2 /\ instruction_outcome m (OneInstruction m).
Proof.
  destruct fresh_machine as [m E]. exists (with_table m demo_table 2). split; [by rewrite E|].
  apply OneInstruction_total. destruct (Machine_new_ok 0 0 false) as [Hr Hm].
  rewrite <- E in Hr, Hm. done.
Defined.

(** ** Arithmetic traps and the ALU *)

Lemma sign_bit_spec x : is_s32 x -> sign_bit x = (x <? 0).
Proof.
  intros Hx. unfold sign_bit, SIGN_BIT. rewrite land_top_bit by apply u32_range.
  unfold is_s32, u32 in *. destruct (Z.ltb_spec x 0), (Z.leb_spec (2 ^ 31) (x mod 2 ^ 32)); try done;
    Z.to_euclidean_division_equations; lia.
Qed.

Lemma sign_bit_lxor a b : is_s32 a -> is_s32 b -> sign_bit (Z.lxor a b) = xorb (a <? 0) (b <? 0).
Proof.
  intros Ha Hb. rewrite sign_bit_spec by auto using is_s32_lxor.
  pose proof (Z.lxor_nonneg a b) as H.
  destruct (Z.ltb_spec (Z.lxor a b) 0), (Z.ltb_spec a 0), (Z.ltb_spec b 0); cbn; try done; lia.
Qed.

(** The overflow tests of ADD, ADDI and SUB on the sign bits. *)
Lemma add_overflow a b c : is_s32 a -> is_s32 b -> c = a \/ c = b ->
  (negb (sign_bit (Z.lxor a b)) && sign_bit (Z.lxor c (s32 (a + b)))) = negb (bool_decide (is_s32 (a + b))).
Proof.
  intros Ha Hb Hc. rewrite !sign_bit_lxor by (destruct Hc; subst; auto using s32_range).
  assert (Hs : s32 (a + b) = a + b \/ s32 (a + b) = a + b - 2 ^ 32 /\ 2 ^ 31 <= a + b \/
               s32 (a + b) = a + b + 2 ^ 32 /\ a + b < - 2 ^ 31)
    by (unfold is_s32, s32 in *; Z.to_euclidean_division_equations; lia).
  pose proof (s32_range (a + b)). unfold is_s32 in *.
  case_bool_decide; destruct (Z.ltb_spec a 0), (Z.ltb_spec b 0), (Z.ltb_spec c 0), (Z.ltb_spec (s32 (a + b)) 0);
    cbn; try done; lia.
Qed.

Lemma sub_overflow a b : is_s32 a -> is_s32 b ->
  (sign_bit (Z.lxor a b) && sign_bit (Z.lxor a (s32 (a - b)))) = negb (bool_decide (is_s32 (a - b))).
Proof.
  intros Ha Hb. rewrite !sign_bit_lxor by auto using s32_range.
  assert (Hs : s32 (a - b) = a - b \/ s32 (a - b) = a - b - 2 ^ 32 /\ 2 ^ 31 <= a - b \/
               s32 (a - b) = a - b + 2 ^ 32 /\ a - b < - 2 ^ 31)
    by (unfold is_s32, s32 in *; Z.to_euclidean_division_equations; lia).
  pose proof (s32_range (a - b)). unfold is_s32 in *.
  case_bool_decide; destruct (Z.ltb_spec a 0), (Z.ltb_spec b 0), (Z.ltb_spec (s32 (a - b)) 0);
    cbn; try done; lia.
Qed.

(** ADD, ADDI and SUB store the mathematical result when it fits in 32
    bits, and raise an overflow exception, without storing anything, exactly
    when it does not. *)
Theorem signed_arithmetic_traps i m pcAfter a b :
  rreg m (rs i) = Ok a -> rreg m (rt i) = Ok b -> is_s32 a -> is_s32 b -> is_s32 (extra i) ->
  let checked r v := if bool_decide (is_s32 v) then assign m pcAfter r v
                     else raise m OverflowException 0 in
  (opCode i = OP_ADD -> execute i m pcAfter = checked (rd_ i) (a + b)) /\
  (opCode i = OP_ADDI -> execute i m pcAfter = checked (rt i) (a + extra i)) /\
  (opCode i = OP_SUB -> execute i m pcAfter = checked (rd_ i) (a - b)).
Proof.
  intros Ea Eb Ha Hb Hx checked. unfold checked, execute.
  repeat split; intros ->; cbv zeta; rewrite Ea, ?Eb; cbn [mbind outcome_bind];
    rewrite ?add_overflow, ?sub_overflow by auto; case_bool_decide; cbn [negb];
    rewrite ?s32_small by done; done.
Qed.

(** at [INT_MAX + 1]. *)
Lemma signed_arithmetic_traps_witness :
  let m := mk [] (<[1%nat := 2 ^ 31 - 1]> (<[2%nat := 1]> (replicate 40 0))) None None 0 false 0 in
  execute (mkInstr 0 OP_ADD 1 2 3 0) m 8 = raise m OverflowException 0.
Proof.
  intros m.
  rewrite (proj1 (signed_arithmetic_traps (mkInstr 0 OP_ADD 1 2 3 0) m 8 (2 ^ 31 - 1) 1
    eq_refl eq_refl ltac:(by unfold is_s32) ltac:(by unfold is_s32) ltac:(by unfold is_s32)) eq_refl).
  done.
Defined.

(** *** The ALU operations as the architecture defines them *)

(** The number a word stands for. *)
Definition signed (w : Z) : Z := if w <? 2 ^ 31 then w else w - 2 ^ 32.

(** What an instruction does: it writes a word to a register, or traps. *)
Inductive alu_answer := Writes (r w : Z) | Traps.

(** The instruction word is [v]; [a] and [b] are the words in rs and rt.  The
    immediates of the logical instructions are not sign-extended. *)
Definition isa_alu (op : opcode) (v a b : Z) : option alu_answer :=
  let rt := v / 2 ^ 16 mod 32 in let rd := v / 2 ^ 11 mod 32 in let shamt := v / 2 ^ 6 mod 32 in
  let imm := v mod 2 ^ 16 in let simm := if imm <? 2 ^ 15 then imm else imm - 2 ^ 16 in
  let flag c : Z := if (c : bool) then 1 else 0 in
  let checked r x := if (- 2 ^ 31 <=? x) && (x <? 2 ^ 31) then Writes r (x mod 2 ^ 32) else Traps in
  match op with
  | OP_ADD => Some (checked rd (signed a + signed b))
  | OP_ADDI => Some (checked rt (signed a + simm))
  | OP_ADDIU => Some (Writes rt ((a + simm) mod 2 ^ 32))
  | OP_ADDU => Some (Writes rd ((a + b) mod 2 ^ 32))
  | OP_AND => Some (Writes rd (Z.land a b))
  | OP_ANDI => Some (Writes rt (Z.land a imm))
  | OP_LUI => Some (Writes rt (imm * 2 ^ 16))
  | OP_NOR => Some (Writes rd (2 ^ 32 - 1 - Z.lor a b))
  | OP_OR => Some (Writes rd (Z.lor a b))
  | OP_ORI => Some (Writes rt (Z.lor a imm))
  | OP_SLL => Some (Writes rd ((b * 2 ^ shamt) mod 2 ^ 32))
  | OP_SLLV => Some (Writes rd ((b * 2 ^ (a mod 32)) mod 2 ^ 32))
  | OP_SLT => Some (Writes rd (flag (signed a <? signed b)))
  | OP_SLTI => Some (Writes rt (flag (signed a <? simm)))
  | OP_SLTIU => Some (Writes rt (flag (a <? simm mod 2 ^ 32)))
  | OP_SLTU => Some (Writes rd (flag (a <? b)))
  | OP_SRA => Some (Writes rd ((signed b / 2 ^ shamt) mod 2 ^ 32))
  | OP_SRAV => Some (Writes rd ((signed b / 2 ^ (a mod 32)) mod 2 ^ 32))
  | OP_SRL => Some (Writes rd (b / 2 ^ shamt))
  | OP_SRLV => Some (Writes rd (b / 2 ^ (a mod 32)))
  | OP_SUB => Some (checked rd (signed a - signed b))
  | OP_SUBU => Some (Writes rd ((a - b) mod 2 ^ 32))
  | OP_XOR => Some (Writes rd (Z.lxor a b))
  | OP_XORI => Some (Writes rt (Z.lxor a imm))
  | _ => None
  end.

(** The instructions with an immediate operand among them. *)
Definition immediate_op (op : opcode) : bool :=
  match op with
  | OP_ADDI | OP_ADDIU | OP_ANDI | OP_LUI | OP_ORI | OP_SLTI | OP_SLTIU | OP_XORI => true
  | _ => false
  end.

Definition alu_entry_ok (e : opcode * format) : bool :=
  negb (immediate_op e.1) || bool_decide (e.2 = IFMT).

Lemma alu_entries :
  forallb alu_entry_ok opTable = true /\ forallb (fun op => negb (immediate_op op)) specialTable = true.
Proof. by vm_compute. Qed.

Lemma Decode_operands v i : Decode v = Ok i ->
  rt i = v / 2 ^ 16 mod 32 /\ rd_ i = v / 2 ^ 11 mod 32 /\
  (immediate_op (opCode i) = true -> extra i = low16 v) /\
  (shifts_by_extra (opCode i) = true -> extra i = v / 2 ^ 6 mod 32).
Proof.
  unfold Decode. pose proof (Decode_imm v) as Him. cbv zeta in Him |- *.
  destruct (opTable_lookup (Z.land (Z.shiftr v 26) 63)) as ([op fmt] & Er & Hop);
    [exact (land_mask_range _ 6 ltac:(done))|]. rewrite Er. cbn [mbind outcome_bind].
  assert (Hi : immediate_op op = true -> fmt = IFMT).
  { intros E. apply rd_inv in Er as [_ Er]. pose proof (proj1 alu_entries) as Hall.
    pose proof (proj1 (forallb_forall _ _) Hall _ (proj1 (list_elem_of_In _ _) (list_elem_of_lookup_2 _ _ _ Er))) as Hx.
    unfold alu_entry_ok in Hx. cbn [fst snd] in Hx. rewrite E in Hx. by apply bool_decide_eq_true in Hx. }
  assert (Hrt : Z.land (Z.shiftr v 16) 0x1f = v / 2 ^ 16 mod 32) by (by apply (field_eq _ 16 5)).
  assert (Hrd : Z.land (Z.shiftr v 11) 0x1f = v / 2 ^ 11 mod 32) by (by apply (field_eq _ 11 5)).
  assert (Hsh : s32 (Z.land (Z.shiftr v 6) 0x1f) = v / 2 ^ 6 mod 32).
  { change 0x1f with (Z.ones 5). rewrite (field_eq v 6 5 (v / 2 ^ 6 mod 32)) by done. apply s32_small.
    pose proof (Z.mod_pos_bound (v / 2 ^ 6) 32). unfold is_s32. lia. }
  rewrite Him, Hrt, Hrd, Hsh.
  destruct (decide (op = SPECIAL)) as [->|Hs]; [|destruct (decide (op = BCOND)) as [->|Hb]].
  - destruct (specialTable_lookup (Z.land v 63)) as (op' & Es & _);
      [exact (land_mask_range _ 6 ltac:(done))|]. rewrite Es. cbn [mbind outcome_bind]. intros [= <-].
    apply rd_inv in Es as [_ Es]. cbn in Hop. apply bool_decide_eq_true in Hop as ->. cbn [rt rd_ opCode extra].
    do 2 (split; [done|]). split; [|done]. intros E.
    pose proof (proj1 (forallb_forall _ _) (proj2 alu_entries) _ (proj1 (list_elem_of_In _ _) (list_elem_of_lookup_2 _ _ _ Es))) as Hx.
    cbn in Hx. by rewrite E in Hx.
  - cbn [mbind outcome_bind]. intros [= <-]. cbn [rt rd_ opCode extra]. repeat split; repeat case_match; done.
  - assert (Hop' : shifts_by_extra op = false) by (by destruct op).
    intros E. assert (i = mkInstr v op (Z.land (Z.shiftr v 21) 31) (v / 2 ^ 16 mod 32) (v / 2 ^ 11 mod 32)
      (match fmt with IFMT => low16 v | JFMT => s32 (Z.land v 67108863) | RFMT => v / 2 ^ 6 mod 32 end)) as ->
      by (destruct op; (congruence || by injection E as <-)).
    cbn [rt rd_ opCode extra]. rewrite Hop'. repeat split; [|done]. by intros ->%Hi.
Qed.

Lemma low16_simm v : low16 v = if v mod 2 ^ 16 <? 2 ^ 15 then v mod 2 ^ 16 else v mod 2 ^ 16 - 2 ^ 16.
Proof. unfold low16. destruct (Z.ltb_spec (v mod 2 ^ 16) (2 ^ 15)); Z.to_euclidean_division_equations; lia. Qed.

Lemma u32_high_half v : u32 (low16 v * 2 ^ 16) = v mod 2 ^ 16 * 2 ^ 16.
Proof. unfold u32, low16. Z.to_euclidean_division_equations; lia. Qed.

Lemma low16_mask v : Z.land (low16 v) 0xffff = v mod 2 ^ 16.
Proof. apply (low_field_eq _ 16); [done|]. unfold low16. Z.to_euclidean_division_equations; lia. Qed.

Lemma signed_u32 z : is_s32 z -> signed (u32 z) = z.
Proof.
  unfold is_s32, signed, u32. intros. destruct (Z.ltb_spec (z mod 2 ^ 32) (2 ^ 31));
    Z.to_euclidean_division_equations; lia.
Qed.

Lemma u32_bits z k : 0 <= k -> Z.testbit (u32 z) k = (k <? 32) && Z.testbit z k.
Proof.
  intros. unfold u32. destruct (Z.ltb_spec k 32); cbn;
    [by rewrite Z.mod_pow2_bits_low by lia|by rewrite Z.mod_pow2_bits_high by lia].
Qed.

Lemma u32_land a b : u32 (Z.land a b) = Z.land (u32 a) (u32 b).
Proof.
  apply Z.bits_inj'. intros k Hk. rewrite Z.land_spec, !u32_bits, Z.land_spec by done.
  by destruct (k <? 32), (Z.testbit a k).
Qed.
Lemma u32_lor a b : u32 (Z.lor a b) = Z.lor (u32 a) (u32 b).
Proof.
  apply Z.bits_inj'. intros k Hk. rewrite Z.lor_spec, !u32_bits, Z.lor_spec by done.
  by destruct (k <? 32), (Z.testbit a k).
Qed.
Lemma u32_lxor a b : u32 (Z.lxor a b) = Z.lxor (u32 a) (u32 b).
Proof.
  apply Z.bits_inj'. intros k Hk. rewrite Z.lxor_spec, !u32_bits, Z.lxor_spec by done.
  by destruct (k <? 32), (Z.testbit a k).
Qed.

Lemma shift_amount a : Z.land a 0x1f = u32 a mod 32.
Proof.
  change 0x1f with (Z.ones 5). rewrite Z.land_ones by lia. change (2 ^ 5) with 32.
  unfold u32. Z.to_euclidean_division_equations; lia.
Qed.

Lemma u32_shiftl b n : 0 <= n -> (u32 b * 2 ^ n) mod 2 ^ 32 = u32 (Z.shiftl b n).
Proof. intros. rewrite Z.shiftl_mul_pow2 by done. unfold u32. apply Zmult_mod_idemp_l. Qed.

Lemma u32_shiftr b n : is_s32 b -> 0 <= n -> u32 b < 2 ^ 31 -> u32 b / 2 ^ n = u32 (Z.shiftr b n).
Proof.
  intros Hb Hn Hs. assert (u32 b = b) as Eb
    by (unfold is_s32, u32 in *; Z.to_euclidean_division_equations; lia).
  rewrite Eb in *. rewrite Z.shiftr_div_pow2 by done. symmetry. apply u32_small.
  pose proof (u32_range b) as Hr. rewrite Eb in Hr. unfold is_u32 in *.
  pose proof (Z.pow_pos_nonneg 2 n). split; [apply Z.div_pos; lia|].
  apply Z.div_lt_upper_bound; nia.
Qed.

(** The operations whose code computes something else: OR reads rs twice, and
    the logical right shifts of a word with its top bit set fill with ones. *)
Definition alu_deviates (op : opcode) (b : Z) : bool :=
  match op with OP_OR => true | OP_SRL | OP_SRLV => 2 ^ 31 <=? b | _ => false end.

(** A result of the [switch] against the architecture. *)
Definition alu_meets (i : Instruction) (m : t) (pcAfter : Z) (ans : alu_answer) : Prop :=
  match ans with
  | Writes r w => exists x, execute i m pcAfter = assign m pcAfter r x /\ is_s32 x /\ u32 x = w
  | Traps => execute i m pcAfter = raise m OverflowException 0
  end.

Lemma alu_meets_write i m pcAfter r x w :
  execute i m pcAfter = assign m pcAfter r x -> is_s32 x -> u32 x = w -> alu_meets i m pcAfter (Writes r w).
Proof. intros E Hx Hw. by exists x. Qed.

Lemma alu_meets_checked i m pcAfter r x :
  execute i m pcAfter = (if bool_decide (is_s32 x) then assign m pcAfter r x else raise m OverflowException 0) ->
  alu_meets i m pcAfter (if (- 2 ^ 31 <=? x) && (x <? 2 ^ 31) then Writes r (x mod 2 ^ 32) else Traps).
Proof.
  intros E. case_bool_decide as H; unfold is_s32 in H.
  - rewrite (proj2 (Z.leb_le _ _)), (proj2 (Z.ltb_lt _ _)) by lia. by exists x.
  - destruct (Z.leb_spec (- 2 ^ 31) x), (Z.ltb_spec x (2 ^ 31)); cbn [andb]; try exact E. lia.
Qed.

Lemma flag_word (c : bool) : u32 (if c then 1 else 0) = if c then 1 else 0.
Proof. by destruct c. Qed.

(** C19: every register and immediate ALU instruction (ADD, ADDI, ADDIU, ADDU,
    AND, ANDI, LUI, NOR, ORI, the shifts, SLT, SLTI, SLTIU, SLTU, SUB, SUBU, XOR,
    XORI), as it is decoded from its word, stores in the register the word names
    the 32-bit value the architecture defines, for all operands, and ADD, ADDI and
    SUB raise an overflow exception instead exactly when the sum does not fit;
    except OR (which reads rs twice) and the logical right shifts of words with the
    top bit set. *)
Theorem alu_refines_isa v i m pcAfter a b ans :
  Decode v = Ok i -> rreg m (rs i) = Ok a -> rreg m (rt i) = Ok b -> is_s32 a -> is_s32 b ->
  alu_deviates (opCode i) (u32 b) = false ->
  isa_alu (opCode i) v (u32 a) (u32 b) = Some ans ->
  alu_meets i m pcAfter ans.
Proof.
  intros Hdec Ea Eb Ha Hb Hd Hw. destruct (Decode_operands v i Hdec) as (Hrt & Hrd & Him & Hsh).
  destruct (Decode_ok v) as (i' & E' & Hok). rewrite Hdec in E'. injection E' as <-.
  destruct Hok as (_ & _ & _ & Hx & _ & Hx5).
  unfold isa_alu in Hw. rewrite !signed_u32, <- Hrt, <- Hrd, <- (low16_simm v) in Hw by done.
  pose proof (Z.mod_pos_bound (u32 a) 32 ltac:(lia)) as H5. pose proof (low16_mask v) as Hmask.
  pose proof (Z.mod_pos_bound v (2 ^ 16) ltac:(lia)) as H16.
  assert (Himm : u32 (v mod 2 ^ 16) = v mod 2 ^ 16) by (apply u32_small; unfold is_u32; lia).
  assert (Hs16 : is_s32 (v mod 2 ^ 16)) by (unfold is_s32; lia).
  destruct (signed_arithmetic_traps i m pcAfter a b Ea Eb Ha Hb Hx) as (Tadd & Taddi & Tsub).
  destruct (opCode i) eqn:Eop; try discriminate Hw; try discriminate Hd; injection Hw as <-;
    try (specialize (Him eq_refl); rewrite <- Him in *); try (rewrite <- (Hsh eq_refl) in *; specialize (Hx5 eq_refl));
    (apply alu_meets_checked; auto; fail) ||
    (eapply alu_meets_write; [unfold execute; rewrite Eop; cbv zeta; rewrite ?Ea, ?Eb; cbn [mbind outcome_bind];
       rewrite ?Ea, ?Eb; cbn [mbind outcome_bind]; reflexivity| |]);
    rewrite ?shift_amount, ?Hmask; auto 6 using s32_range, is_s32_01, flag_word with nachos lia;
    rewrite ?u32_s32, ?u32_land, ?u32_lor, ?u32_lxor, ?Himm; try done.
  - unfold u32. by rewrite Z.add_mod_idemp_l by done.
  - apply Zplus_mod.
  - rewrite Him, Z.shiftl_mul_pow2 by done. apply u32_high_half.
  - rewrite <- u32_lor. unfold Z.lnot, u32. Z.to_euclidean_division_equations; lia.
  - symmetry. apply u32_shiftl. lia.
  - symmetry. apply u32_shiftl. lia.
  - by rewrite Z.shiftr_div_pow2 by lia.
  - by rewrite Z.shiftr_div_pow2 by lia.
  - symmetry. apply u32_shiftr; [done|lia|]. by apply Z.leb_gt in Hd.
  - symmetry. apply u32_shiftr; [done|lia|]. by apply Z.leb_gt in Hd.
  - apply Zminus_mod.
Qed.

(** C19 at [sra $3, $2, 4] of a negative word, [addiu $3, $2, -1], [ori $3, $2, 0xffff] and
    an [addi] that overflows. *)
Lemma alu_refines_isa_witness :
  let m x := mk [] (<[2%nat := x]> (replicate 40 0)) None None 0 false 0 in
  (exists x, execute (mkInstr (encode_R 0 2 3 4 3) OP_SRA 0 2 3 4) (m (-100)) 8 = assign (m (-100)) 8 3 x /\ is_s32 x /\ u32 x = 2 ^ 32 - 7) /\
  (exists x, execute (mkInstr (encode_I 9 2 3 (-1)) OP_ADDIU 2 3 31 (-1)) (m 0) 8 = assign (m 0) 8 3 x /\ is_s32 x /\ u32 x = 2 ^ 32 - 1) /\
  (exists x, execute (mkInstr (encode_I 13 2 3 (-1)) OP_ORI 2 3 31 (-1)) (m 2) 8 = assign (m 2) 8 3 x /\ is_s32 x /\ u32 x = 65535) /\
  execute (mkInstr (encode_I 8 2 3 (-1)) OP_ADDI 2 3 31 (-1)) (m (- 2 ^ 31)) 8 = raise (m (- 2 ^ 31)) OverflowException 0.
Proof.
  intros m. split; [|split; [|split]].
  - apply (alu_refines_isa (encode_R 0 2 3 4 3) (mkInstr (encode_R 0 2 3 4 3) OP_SRA 0 2 3 4) (m (-100)) 8 0 (-100)
      (Writes 3 (2 ^ 32 - 7))); try (by vm_compute); unfold is_s32; lia.
  - apply (alu_refines_isa (encode_I 9 2 3 (-1)) (mkInstr (encode_I 9 2 3 (-1)) OP_ADDIU 2 3 31 (-1)) (m 0) 8 0 0
      (Writes 3 (2 ^ 32 - 1))); try (by vm_compute); unfold is_s32; lia.
  - apply (alu_refines_isa (encode_I 13 2 3 (-1)) (mkInstr (encode_I 13 2 3 (-1)) OP_ORI 2 3 31 (-1)) (m 2) 8 2 0
      (Writes 3 65535)); try (by vm_compute); unfold is_s32; lia.
  - apply (alu_refines_isa (encode_I 8 2 3 (-1)) (mkInstr (encode_I 8 2 3 (-1)) OP_ADDI 2 3 31 (-1)) (m (- 2 ^ 31)) 8 (- 2 ^ 31) 0
      Traps); try (by vm_compute); unfold is_s32; lia.
Defined.

(** What the exceptions of the previous theorem store instead. *)
Lemma OR_ignores_rt i m pcAfter a :
  rreg m (rs i) = Ok a -> opCode i = OP_OR -> execute i m pcAfter = assign m pcAfter (rd_ i) a.
Proof.
  intros Ea Eop. unfold execute. rewrite Eop. cbv zeta. rewrite Ea. cbn [mbind outcome_bind].
  by rewrite Z.lor_diag.
Qed.

Lemma SRL_fills_with_sign :
  let m := mk [] (<[2%nat := -1]> (replicate 40 0)) None None 0 false 0 in
  execute (mkInstr 0 OP_SRL 0 2 3 4) m 8 = assign m 8 3 (-1) /\
  isa_alu OP_SRL (encode_R 0 2 3 4 2) 0 (u32 (-1)) = Some (Writes 3 (2 ^ 28 - 1)).
Proof. by vm_compute. Qed.

End Mips.
