(* ===== verification/Disasm.v ===== *)
(** * bin/d.c, bin/opstrings.c and the trace of machine/mipssim.cc: instructions as text

    [dump_ascii] is the disassembler of bin/: the text that it prints for an
    instruction word, as pieces (a literal, a register, numbers in hexadecimal)
    and as characters.  [trace] is what [OneInstruction] prints of a decoded
    instruction when debugging is enabled.  Both are compared with each other and
    with what the simulator executes. *)

From stdpp Require Import strings.
From S2P Require Import Prelude MachineSim MipsSim.
Import Machine Mips.

Local Open Scope string_scope.
Local Open Scope Z_scope.

Module Disasm.

(** ** bin/opstrings.c *)

Definition normalops : list string :=
  [ "special"; "bcond"; "j"; "jal"; "beq"; "bne"; "blez"; "bgtz";
    "addi"; "addiu"; "slti"; "sltiu"; "andi"; "ori"; "xori"; "lui";
    "cop0"; "cop1"; "cop2"; "cop3"; "024"; "025"; "026"; "027";
    "030"; "031"; "032"; "033"; "034"; "035"; "036"; "037";
    "lb"; "lh"; "lwl"; "lw"; "lbu"; "lhu"; "lwr"; "047";
    "sb"; "sh"; "swl"; "sw"; "054"; "055"; "swr"; "057";
    "lwc0"; "lwc1"; "lwc2"; "lwc3"; "064"; "065"; "066"; "067";
    "swc0"; "swc1"; "swc2"; "swc3"; "074"; "075"; "076"; "077" ].

Definition specialops : list string :=
  [ "sll"; "001"; "srl"; "sra"; "sllv"; "005"; "srlv"; "srav";
    "jr"; "jalr"; "012"; "013"; "syscall"; "break"; "016"; "017";
    "mfhi"; "mthi"; "mflo"; "mtlo"; "024"; "025"; "026"; "027";
    "mult"; "multu"; "div"; "divu"; "034"; "035"; "036"; "037";
    "add"; "addu"; "sub"; "subu"; "and"; "or"; "xor"; "nor";
    "050"; "051"; "slt"; "sltu"; "054"; "055"; "056"; "057";
    "060"; "061"; "062"; "063"; "064"; "065"; "066"; "067";
    "070"; "071"; "072"; "073"; "074"; "075"; "076"; "077" ].

(** ** bin/instr.h *)

Definition i_rd (i : Z) : Z := Z.land (Z.shiftr i 11) 0x1f.
Definition i_rt (i : Z) : Z := Z.land (Z.shiftr i 16) 0x1f.
Definition i_rs (i : Z) : Z := Z.land (Z.shiftr i 21) 0x1f.
Definition i_shamt (i : Z) : Z := Z.land (Z.shiftr i 6) 0x1f.
Definition immed (i : Z) : Z := if negb (Z.land i 0x8000 =? 0) then Z.lor i (- 0x8000) else Z.land i 0x7fff.
Definition off26 (i : Z) : Z := Z.shiftl (Z.land i (2 ^ 26 - 1)) 2.
Definition top4 (i : Z) : Z := Z.land i (Z.lnot (2 ^ 28 - 1)).
Definition off16 (i : Z) : Z := s32 (Z.shiftl (immed i) 2).

(** ** bin/d.c *)

Definition regstrings : list string :=
  [ "0"; "r1"; "r2"; "r3"; "r4"; "r5"; "r6"; "r7"; "r8"; "r9";
    "r10"; "r11"; "r12"; "r13"; "r14"; "r15"; "r16"; "r17"; "r18"; "r19";
    "r20"; "r21"; "r22"; "r23"; "r24"; "r25"; "r26"; "r27"; "gp"; "sp";
    "r30"; "r31" ].

(** What one conversion of a [printf] prints: a literal, [%s] of a register,
    [0x%x] and [%08x]. *)
Inductive piece := Lit (s : string) | R (r : Z) | Hex (z : Z) | Hex8 (z : Z).

Definition commas (a b c : piece) : list piece := [a; Lit ","; b; Lit ","; c].

(** The operands of a SPECIAL instruction; [opcode] is its low six bits, with
    the numbers of bin/encode.h. *)
Definition special_operands (instruction opcode : Z) : list piece :=
  let rd := R (i_rd instruction) in let rt := R (i_rt instruction) in let rs := R (i_rs instruction) in
  match opcode with
  | 0 | 2 | 3 => commas rd rt (Hex (i_shamt instruction))                                   (* SLL SRL SRA *)
  | 4 | 6 | 7 => commas rd rt rs                                                            (* SLLV SRLV SRAV *)
  | 8 | 9 | 18 | 19 => [rs]                                                                 (* JR JALR MFLO MTLO *)
  | 12 | 13 => []                                                                           (* SYSCALL BREAK *)
  | 16 | 17 => [rd]                                                                         (* MFHI MTHI *)
  | 24 | 25 | 26 | 27 => [rs; Lit ","; rt]                                                  (* MULT MULTU DIV DIVU *)
  | 32 | 33 | 34 | 35 | 36 | 37 | 38 | 39 | 42 | 43 => commas rd rs rt                      (* ADD .. NOR SLT SLTU *)
  | _ => []
  end.

(** The name of a BCOND instruction. *)
Definition bcond_name (rt : Z) : string :=
  match rt with 0 => "bltz" | 1 => "bgez" | 16 => "bltzal" | 17 => "bgezal" | _ => "BCOND" end.

(** The operands of the other instructions. *)
Definition normal_operands (instruction pc opcode : Z) : list piece :=
  let rt := R (i_rt instruction) in let rs := R (i_rs instruction) in
  match opcode with
  | 2 | 3 => [Hex8 (Z.lor (top4 pc) (off26 instruction))]                                   (* J JAL *)
  | 4 | 5 => commas rt rs (Hex8 (s32 (off16 instruction + pc + 4)))                         (* BEQ BNE *)
  | 8 | 9 | 10 | 11 | 12 | 13 | 14 => commas rt rs (Hex (immed instruction))                (* ADDI .. XORI *)
  | 15 => [rt; Lit ","; Hex (immed instruction)]                                            (* LUI *)
  | 16 | 17 | 18 | 19 => []                                                                 (* COP0 .. COP3 *)
  | 32 | 33 | 34 | 35 | 36 | 37 | 38 | 40 | 41 | 42 | 43 | 46
  | 48 | 49 | 50 | 51 | 56 | 57 | 58 | 59 =>
      [rt; Lit ","; Hex (immed instruction); Lit "("; rs; Lit ")"]                          (* loads and stores *)
  | _ => []
  end.

(** [dump_ascii]: the name of the instruction and what follows it. *)
Definition disassemble (instruction pc : Z) : outcome (string * list piece) :=
  let opcode := Z.shiftr (u32 instruction) 26 in
  if instruction =? 0 then Ok ("nop", [])
  else if opcode =? 0 then
    let opcode := Z.land instruction 0x3f in
    name ← Prelude.rd specialops opcode;
    Ok (name, Lit "	" :: special_operands instruction opcode)
  else if opcode =? 1 then
    Ok (bcond_name (i_rt instruction),
        [Lit "	"; R (i_rs instruction); Lit ","; Hex8 (s32 (off16 instruction + pc + 4))])
  else
    name ← Prelude.rd normalops opcode;
    Ok (name, Lit "	" :: normal_operands instruction pc opcode).

(** ** Characters *)

Definition hex_digit (d : Z) : string :=
  match d with
  | 0 => "0" | 1 => "1" | 2 => "2" | 3 => "3" | 4 => "4" | 5 => "5" | 6 => "6" | 7 => "7"
  | 8 => "8" | 9 => "9" | 10 => "a" | 11 => "b" | 12 => "c" | 13 => "d" | 14 => "e" | _ => "f"
  end.
(** The [n] low hexadecimal digits. *)
Fixpoint hex_digits (n : nat) (z : Z) : string :=
  match n with O => "" | S n => hex_digits n (z / 16) +:+ hex_digit (z mod 16) end.
(** The number of digits that [%x] prints. *)
Fixpoint hex_length (n : nat) (z : Z) : nat :=
  match n with O => 1 | S n => if z <? 16 then 1%nat else S (hex_length n (z / 16)) end.

Definition print_piece (p : piece) : outcome string :=
  match p with
  | Lit s => Ok s
  | R r => Prelude.rd regstrings r
  | Hex z => Ok ("0x" +:+ hex_digits (hex_length 8 (u32 z)) (u32 z))
  | Hex8 z => Ok (hex_digits 8 (u32 z))
  end.
Fixpoint print_pieces (ps : list piece) : outcome string :=
  match ps with
  | [] => Ok ""
  | p :: ps => a ← print_piece p; b ← print_pieces ps; Ok (a +:+ b)
  end.

(** The text; [longdis] is set when the program starts. *)
Definition dump_ascii (longdis : bool) (instruction pc : Z) : outcome string :=
  '(name, ps) ← disassemble instruction pc;
  text ← print_pieces ps;
  Ok ((if longdis then hex_digits 8 (u32 pc) +:+ ": " +:+ hex_digits 8 (u32 instruction) +:+ "  " else "") +:+
      "	" +:+ name +:+ text).

(** ** The trace of machine/mipssim.cc *)

(** The numbers of the opcodes in machine/mipssim.h. *)
Definition opcode_number (op : opcode) : Z :=
  match op with
  | OP_ADD => 1 | OP_ADDI => 2 | OP_ADDIU => 3 | OP_ADDU => 4 | OP_AND => 5 | OP_ANDI => 6
  | OP_BEQ => 7 | OP_BGEZ => 8 | OP_BGEZAL => 9 | OP_BGTZ => 10 | OP_BLEZ => 11 | OP_BLTZ => 12
  | OP_BLTZAL => 13 | OP_BNE => 14 | OP_DIV => 16 | OP_DIVU => 17 | OP_J => 18 | OP_JAL => 19
  | OP_JALR => 20 | OP_JR => 21 | OP_LB => 22 | OP_LBU => 23 | OP_LH => 24 | OP_LHU => 25
  | OP_LUI => 26 | OP_LW => 27 | OP_LWL => 28 | OP_LWR => 29 | OP_MFHI => 31 | OP_MFLO => 32
  | OP_MTHI => 34 | OP_MTLO => 35 | OP_MULT => 36 | OP_MULTU => 37 | OP_NOR => 38 | OP_OR => 39
  | OP_ORI => 40 | OP_RFE => 41 | OP_SB => 42 | OP_SH => 43 | OP_SLL => 44 | OP_SLLV => 45
  | OP_SLT => 46 | OP_SLTI => 47 | OP_SLTIU => 48 | OP_SLTU => 49 | OP_SRA => 50 | OP_SRAV => 51
  | OP_SRL => 52 | OP_SRLV => 53 | OP_SUB => 54 | OP_SUBU => 55 | OP_SW => 56 | OP_SWL => 57
  | OP_SWR => 58 | OP_XOR => 59 | OP_XORI => 60 | OP_SYSCALL => 61 | OP_UNIMP => 62 | OP_RES => 63
  | SPECIAL => 100 | BCOND => 101
  end.
Definition MaxOpcode : Z := 63.

Inductive RegType := NONE | RS | RT | RD | EXTRA.
Record OpString := mkOpString { format_string : string; args : list RegType }.

Definition opStrings : list OpString :=
  [ mkOpString "Shouldn't happen" [NONE; NONE; NONE];
    mkOpString "ADD r%d,r%d,r%d" [RD; RS; RT];
    mkOpString "ADDI r%d,r%d,%d" [RT; RS; EXTRA];
    mkOpString "ADDIU r%d,r%d,%d" [RT; RS; EXTRA];
    mkOpString "ADDU r%d,r%d,r%d" [RD; RS; RT];
    mkOpString "AND r%d,r%d,r%d" [RD; RS; RT];
    mkOpString "ANDI r%d,r%d,%d" [RT; RS; EXTRA];
    mkOpString "BEQ r%d,r%d,%d" [RS; RT; EXTRA];
    mkOpString "BGEZ r%d,%d" [RS; EXTRA; NONE];
    mkOpString "BGEZAL r%d,%d" [RS; EXTRA; NONE];
    mkOpString "BGTZ r%d,%d" [RS; EXTRA; NONE];
    mkOpString "BLEZ r%d,%d" [RS; EXTRA; NONE];
    mkOpString "BLTZ r%d,%d" [RS; EXTRA; NONE];
    mkOpString "BLTZAL r%d,%d" [RS; EXTRA; NONE];
    mkOpString "BNE r%d,r%d,%d" [RS; RT; EXTRA];
    mkOpString "Shouldn't happen" [NONE; NONE; NONE];
    mkOpString "DIV r%d,r%d" [RS; RT; NONE];
    mkOpString "DIVU r%d,r%d" [RS; RT; NONE];
    mkOpString "J %d" [EXTRA; NONE; NONE];
    mkOpString "JAL %d" [EXTRA; NONE; NONE];
    mkOpString "JALR r%d,r%d" [RD; RS; NONE];
    mkOpString "JR r%d,r%d" [RD; RS; NONE];
    mkOpString "LB r%d,%d(r%d)" [RT; EXTRA; RS];
    mkOpString "LBU r%d,%d(r%d)" [RT; EXTRA; RS];
    mkOpString "LH r%d,%d(r%d)" [RT; EXTRA; RS];
    mkOpString "LHU r%d,%d(r%d)" [RT; EXTRA; RS];
    mkOpString "LUI r%d,%d" [RT; EXTRA; NONE];
    mkOpString "LW r%d,%d(r%d)" [RT; EXTRA; RS];
    mkOpString "LWL r%d,%d(r%d)" [RT; EXTRA; RS];
    mkOpString "LWR r%d,%d(r%d)" [RT; EXTRA; RS];
    mkOpString "Shouldn't happen" [NONE; NONE; NONE];
    mkOpString "MFHI r%d" [RD; NONE; NONE];
    mkOpString "MFLO r%d" [RD; NONE; NONE];
    mkOpString "Shouldn't happen" [NONE; NONE; NONE];
    mkOpString "MTHI r%d" [RS; NONE; NONE];
    mkOpString "MTLO r%d" [RS; NONE; NONE];
    mkOpString "MULT r%d,r%d" [RS; RT; NONE];
    mkOpString "MULTU r%d,r%d" [RS; RT; NONE];
    mkOpString "NOR r%d,r%d,r%d" [RD; RS; RT];
    mkOpString "OR r%d,r%d,r%d" [RD; RS; RT];
    mkOpString "ORI r%d,r%d,%d" [RT; RS; EXTRA];
    mkOpString "RFE" [NONE; NONE; NONE];
    mkOpString "SB r%d,%d(r%d)" [RT; EXTRA; RS];
    mkOpString "SH r%d,%d(r%d)" [RT; EXTRA; RS];
    mkOpString "SLL r%d,r%d,%d" [RD; RT; EXTRA];
    mkOpString "SLLV r%d,r%d,r%d" [RD; RT; RS];
    mkOpString "SLT r%d,r%d,r%d" [RD; RS; RT];
    mkOpString "SLTI r%d,r%d,%d" [RT; RS; EXTRA];
    mkOpString "SLTIU r%d,r%d,%d" [RT; RS; EXTRA];
    mkOpString "SLTU r%d,r%d,r%d" [RD; RS; RT];
    mkOpString "SRA r%d,r%d,%d" [RD; RT; EXTRA];
    mkOpString "SRAV r%d,r%d,r%d" [RD; RT; RS];
    mkOpString "SRL r%d,r%d,%d" [RD; RT; EXTRA];
    mkOpString "SRLV r%d,r%d,r%d" [RD; RT; RS];
    mkOpString "SUB r%d,r%d,r%d" [RD; RS; RT];
    mkOpString "SUBU r%d,r%d,r%d" [RD; RS; RT];
    mkOpString "SW r%d,%d(r%d)" [RT; EXTRA; RS];
    mkOpString "SWL r%d,%d(r%d)" [RT; EXTRA; RS];
    mkOpString "SWR r%d,%d(r%d)" [RT; EXTRA; RS];
    mkOpString "XOR r%d,r%d,r%d" [RD; RS; RT];
    mkOpString "XORI r%d,r%d,%d" [RT; RS; EXTRA];
    mkOpString "SYSCALL" [NONE; NONE; NONE];
    mkOpString "Unimplemented" [NONE; NONE; NONE];
    mkOpString "Reserved" [NONE; NONE; NONE] ].

Definition TypeToReg (reg : RegType) (instr : Instruction) : Z :=
  match reg with
  | RS => rs instr
  | RT => rt instr
  | RD => rd_ instr
  | EXTRA => extra instr
  | NONE => -1
  end.

(** The format and the arguments of the [printf]. *)
Definition trace (instr : Instruction) : outcome (string * list Z) :=
  str ← Prelude.rd opStrings (opcode_number (opCode instr));
  _ ← ASSERT (opcode_number (opCode instr) <=? MaxOpcode);
  Ok (format_string str, (fun reg => TypeToReg reg instr) <$> args str).

(** ** Specification *)

(** The mnemonic at the start of a format, in lower case. *)
Fixpoint until_space (s : string) : string :=
  match s with
  | String c s' => if (Ascii.N_of_ascii c =? 32)%N then "" else String c (until_space s')
  | EmptyString => ""
  end.
Definition lower_char (c : Ascii.ascii) : Ascii.ascii :=
  let n := Ascii.N_of_ascii c in if ((65 <=? n) && (n <=? 90))%N then Ascii.ascii_of_N (n + 32) else c.
Fixpoint lower (s : string) : string :=
  match s with String c s' => String (lower_char c) (lower s') | EmptyString => "" end.

(** The name of an operation that the simulator knows. *)
Definition opname (op : opcode) : string :=
  match opStrings !! Z.to_nat (opcode_number op) with Some str => lower (until_space (format_string str)) | None => "" end.
Definition known (op : opcode) : bool :=
  match op with OP_RES | OP_UNIMP | OP_RFE | SPECIAL | BCOND => false | _ => true end.

(** Where the decoded instruction [i] at [pc] goes when its branch is taken. *)
Definition target (i : Instruction) (pc : Z) : Z := s32 (pc + 4 + IndexToAddr (extra i)).

(** The region of 256 megabytes of an address. *)
Definition region (a : Z) : Z := a / 2 ^ 28 * 2 ^ 28.

(** The operands of the decoded instruction [i] at [pc] in the assembly language of
    the architecture; a JALR that links in register 31 is written without it, the
    immediates of the logical instructions and of LUI have no sign. *)
Definition operands (i : Instruction) (pc : Z) : list piece :=
  let rd := R (rd_ i) in let rt := R (rt i) in let rs := R (rs i) in
  match opCode i with
  | OP_SLL | OP_SRL | OP_SRA => commas rd rt (Hex (extra i))
  | OP_SLLV | OP_SRLV | OP_SRAV => commas rd rt rs
  | OP_JR | OP_MTHI | OP_MTLO => [rs]
  | OP_JALR => if rd_ i =? 31 then [rs] else [rd; Lit ","; rs]
  | OP_MFHI | OP_MFLO => [rd]
  | OP_MULT | OP_MULTU | OP_DIV | OP_DIVU => [rs; Lit ","; rt]
  | OP_ADD | OP_ADDU | OP_SUB | OP_SUBU | OP_AND | OP_OR | OP_XOR | OP_NOR | OP_SLT | OP_SLTU => commas rd rs rt
  | OP_BLTZ | OP_BGEZ | OP_BLTZAL | OP_BGEZAL | OP_BLEZ | OP_BGTZ => [rs; Lit ","; Hex8 (target i pc)]
  | OP_J | OP_JAL => [Hex8 (Z.lor (region (pc + 4)) (IndexToAddr (extra i)))]
  | OP_BEQ | OP_BNE => commas rs rt (Hex8 (target i pc))
  | OP_ADDI | OP_ADDIU | OP_SLTI | OP_SLTIU => commas rt rs (Hex (extra i))
  | OP_ANDI | OP_ORI | OP_XORI => commas rt rs (Hex (extra i mod 2 ^ 16))
  | OP_LUI => [rt; Lit ","; Hex (extra i mod 2 ^ 16)]
  | OP_LB | OP_LH | OP_LWL | OP_LW | OP_LBU | OP_LHU | OP_LWR | OP_SB | OP_SH | OP_SWL | OP_SW | OP_SWR =>
      [rt; Lit ","; Hex (extra i); Lit "("; rs; Lit ")"]
  | _ => []
  end.

(** The instructions whose text is another one, and that text: MFLO with rs, MTHI
    with rd, BLEZ and BGTZ without operands, JALR without the register it links in,
    BEQ and BNE with their registers exchanged, the logical instructions and LUI with
    a negative immediate, and jumps in the last word of a region. *)
Definition misprints (i : Instruction) (pc : Z) : bool :=
  match opCode i with
  | OP_MFLO | OP_MTHI | OP_BLEZ | OP_BGTZ | OP_BEQ | OP_BNE => true
  | OP_JALR => negb (rd_ i =? 31)
  | OP_ANDI | OP_ORI | OP_XORI | OP_LUI => extra i <? 0
  | OP_J | OP_JAL => negb (region (pc + 4) =? region pc)
  | _ => false
  end.

Definition misprinted (i : Instruction) (pc : Z) : list piece :=
  let rd := R (rd_ i) in let rt := R (rt i) in let rs := R (rs i) in
  match opCode i with
  | OP_MFLO | OP_JALR => [rs]
  | OP_MTHI => [rd]
  | OP_BEQ | OP_BNE => commas rt rs (Hex8 (target i pc))
  | OP_ANDI | OP_ORI | OP_XORI => commas rt rs (Hex (extra i))
  | OP_LUI => [rt; Lit ","; Hex (extra i)]
  | OP_J | OP_JAL => [Hex8 (Z.lor (region pc) (IndexToAddr (extra i)))]
  | _ => []
  end.

(** All that is printed after the name, in terms of the decoded instruction. *)
Definition printed (i : Instruction) (pc : Z) : list piece :=
  let rd := R (rd_ i) in let rt := R (rt i) in let rs := R (rs i) in
  match opCode i with
  | OP_SLL | OP_SRL | OP_SRA => commas rd rt (Hex (extra i))
  | OP_SLLV | OP_SRLV | OP_SRAV => commas rd rt rs
  | OP_JR | OP_JALR | OP_MFLO | OP_MTLO => [rs]
  | OP_MFHI | OP_MTHI => [rd]
  | OP_MULT | OP_MULTU | OP_DIV | OP_DIVU => [rs; Lit ","; rt]
  | OP_ADD | OP_ADDU | OP_SUB | OP_SUBU | OP_AND | OP_OR | OP_XOR | OP_NOR | OP_SLT | OP_SLTU => commas rd rs rt
  | OP_BLTZ | OP_BGEZ | OP_BLTZAL | OP_BGEZAL => [rs; Lit ","; Hex8 (target i pc)]
  | OP_J | OP_JAL => [Hex8 (Z.lor (top4 pc) (IndexToAddr (extra i)))]
  | OP_BEQ | OP_BNE => commas rt rs (Hex8 (target i pc))
  | OP_ADDI | OP_ADDIU | OP_SLTI | OP_SLTIU | OP_ANDI | OP_ORI | OP_XORI => commas rt rs (Hex (extra i))
  | OP_LUI => [rt; Lit ","; Hex (extra i)]
  | OP_LB | OP_LH | OP_LWL | OP_LW | OP_LBU | OP_LHU | OP_LWR | OP_SB | OP_SH | OP_SWL | OP_SW | OP_SWR =>
      [rt; Lit ","; Hex (extra i); Lit "("; rs; Lit ")"]
  | _ => []
  end.

Lemma top4_is_region a : top4 a = region a.
Proof.
  unfold top4, region. change (Z.lnot (2 ^ 28 - 1)) with (Z.lnot (Z.ones 28)).
  rewrite <- Z.ldiff_land, Z.ldiff_ones_r, Z.shiftl_mul_pow2, Z.shiftr_div_pow2 by done. done.
Qed.

Lemma printed_operands i pc : - 2 ^ 15 <= extra i < 2 ^ 15 \/ immediate_op (opCode i) = false ->
  printed i pc = if misprints i pc then misprinted i pc else operands i pc.
Proof.
  intros Hx. assert (Hm : immediate_op (opCode i) = true -> 0 <= extra i -> extra i mod 2 ^ 16 = extra i).
  { intros Hi H0. destruct Hx as [Hx|Hx]; [|congruence]. apply Z.mod_small. lia. }
  unfold printed, misprints, misprinted, operands in *. rewrite !top4_is_region.
  destruct (opCode i); try reflexivity.
  all: try (destruct (Z.ltb_spec (extra i) 0); [reflexivity|by rewrite Hm]).
  - destruct (Z.eqb_spec (region (pc + 4)) (region pc)) as [->|]; reflexivity.
  - destruct (Z.eqb_spec (region (pc + 4)) (region pc)) as [->|]; reflexivity.
  - destruct (rd_ i =? 31); reflexivity.
Qed.

(** ** The fields of a word *)

(** A statement about the numbers below [n], checked one by one. *)
Lemma below (n : Z) (P : Z -> Prop) : Forall P (seqZ 0 n) -> forall z, 0 <= z < n -> P z.
Proof. intros H z Hz. apply (proj1 (list.Forall_forall _ _) H). apply elem_of_seqZ. lia. Qed.

Lemma field_s32 v k m : 0 <= k -> 0 <= m -> k + m <= 32 -> Z.land (Z.shiftr (s32 v) k) (Z.ones m) = Z.land (Z.shiftr v k) (Z.ones m).
Proof.
  intros Hk Hm Hkm. rewrite !Z.land_ones, !Z.shiftr_div_pow2 by done. unfold s32.
  replace ((v + 2 ^ 31) mod 2 ^ 32 - 2 ^ 31) with (v + - ((v + 2 ^ 31) / 2 ^ 32) * 2 ^ (32 - k - m) * 2 ^ m * 2 ^ k).
  - rewrite Z.div_add by (apply Z.pow_nonzero; lia). by rewrite Z.mod_add by (apply Z.pow_nonzero; lia).
  - replace (- ((v + 2 ^ 31) / 2 ^ 32) * 2 ^ (32 - k - m) * 2 ^ m * 2 ^ k) with (- ((v + 2 ^ 31) / 2 ^ 32) * 2 ^ 32).
    + pose proof (Z.div_mod (v + 2 ^ 31) (2 ^ 32)). lia.
    + rewrite <- !Z.mul_assoc, <- !Z.pow_add_r by lia. do 2 f_equal. lia.
Qed.

Lemma low_s32 v m : 0 <= m <= 32 -> Z.land (s32 v) (Z.ones m) = Z.land v (Z.ones m).
Proof. intros Hm. pose proof (field_s32 v 0 m) as H. rewrite !Z.shiftr_0_r in H. apply H; lia. Qed.

Lemma bit15 i : negb (Z.land i 0x8000 =? 0) = (2 ^ 15 <=? i mod 2 ^ 16).
Proof.
  change 0x8000 with (2 ^ 15). assert (E : Z.land i (2 ^ 15) = if Z.testbit i 15 then 2 ^ 15 else 0).
  { apply Z.bits_inj'. intros k Hk. rewrite Z.land_spec, Z.pow2_bits_eqb by lia. destruct (Z.eqb_spec 15 k) as [<-|Hne].
    - rewrite andb_true_r. by destruct (Z.testbit i 15).
    - rewrite andb_false_r. destruct (Z.testbit i 15); [|by rewrite Z.bits_0]. symmetry. apply Z.pow2_bits_false. lia. }
  rewrite E. rewrite <- (Z.mod_pow2_bits_low i 16 15) by lia. rewrite Z.testbit_eqb by lia.
  pose proof (Z.mod_pos_bound i (2 ^ 16)). destruct (Z.leb_spec (2 ^ 15) (i mod 2 ^ 16)).
  - replace (i mod 2 ^ 16 / 2 ^ 15) with 1 by (Z.to_euclidean_division_equations; lia). done.
  - rewrite (Z.div_small (i mod 2 ^ 16)) by lia. done.
Qed.

Lemma immed_low16 i : immed i = low16 i.
Proof.
  unfold immed. rewrite bit15. unfold low16. pose proof (Z.mod_pos_bound i (2 ^ 16)). destruct (Z.leb_spec (2 ^ 15) (i mod 2 ^ 16)).
  - replace (Z.lor i (- 0x8000)) with (Z.lor (i mod 2 ^ 15) (- 0x8000)).
    + assert (Z.land (i mod 2 ^ 15) (- 0x8000) = 0) as Hd.
      { rewrite <- (Z.land_ones i 15) by lia. rewrite <- Z.land_assoc. change (Z.land (Z.ones 15) (- 0x8000)) with 0. apply Z.land_0_r. }
      pose proof (Z.add_lor_land (i mod 2 ^ 15) (- 0x8000)). Z.to_euclidean_division_equations; lia.
    + apply Z.bits_inj'. intros k Hk. rewrite !Z.lor_spec. change (- 0x8000) with (Z.lnot (Z.ones 15)). rewrite Z.lnot_spec by done.
      destruct (Z.ltb_spec k 15); [by rewrite Z.mod_pow2_bits_low|]. rewrite Z.ones_spec_high by lia. by rewrite !orb_true_r.
  - change 0x7fff with (Z.ones 15). rewrite Z.land_ones by lia. Z.to_euclidean_division_equations; lia.
Qed.

Lemma low16_s32 v : low16 (s32 v) = low16 v.
Proof. unfold low16, s32. Z.to_euclidean_division_equations; lia. Qed.

(** ** The tables *)

(** The decoded form of [i] when its operation is [op]. *)
Definition fields (op : opcode) (w e : Z) : Instruction := mkInstr (u32 w) op (i_rs w) (i_rt w) (i_rd w) e.

Lemma special_tables w pc : forall f, 0 <= f < 64 -> forall op, specialTable !! Z.to_nat f = Some op -> known op = true ->
  Prelude.rd specialops f = Ok (opname op) /\ special_operands w f = printed (fields op w (i_shamt w)) pc.
Proof.
  refine (below 64 _ _). change (seqZ 0 64) with (ltac:(let l := eval vm_compute in (seqZ 0 64) in exact l)).
  repeat (apply list.Forall_cons; split; [intros op [= <-] Hk; (discriminate Hk || (split; reflexivity))|]). constructor.
Qed.

Lemma normal_tables w pc : forall o, 0 <= o < 64 -> forall op fmt, opTable !! Z.to_nat o = Some (op, fmt) -> known op = true ->
  Prelude.rd normalops o = Ok (opname op) /\
  normal_operands w pc o = printed (fields op w (match fmt with JFMT => Z.land w (2 ^ 26 - 1) | _ => immed w end)) pc.
Proof.
  assert (Hoff : off26 w = IndexToAddr (Z.land w (2 ^ 26 - 1))).
  { unfold off26, IndexToAddr. rewrite s32_small; [done|]. change (2 ^ 26 - 1) with (Z.ones 26).
    pose proof (land_mask_range w 26 ltac:(done)). rewrite Z.shiftl_mul_pow2 by done. unfold is_s32. lia. }
  assert (Htgt : forall op, s32 (off16 w + pc + 4) = target (fields op w (immed w)) pc).
  { intros op. unfold target, fields, off16, IndexToAddr. cbn [extra]. f_equal. lia. }
  refine (below 64 _ _). change (seqZ 0 64) with (ltac:(let l := eval vm_compute in (seqZ 0 64) in exact l)).
  repeat (apply list.Forall_cons; split;
    [intros op fmt [= <- <-] Hk; (discriminate Hk || (split; [reflexivity|cbn [normal_operands]; rewrite ?Hoff; unfold printed; cbn [fields opCode]; rewrite <- ?Htgt; reflexivity]))|]).
  constructor.
Qed.


(** The table entries that lead to another table. *)
Lemma group_entries : forall o, 0 <= o < 64 -> forall op fmt, opTable !! Z.to_nat o = Some (op, fmt) ->
  match op with SPECIAL => o = 0 /\ fmt = RFMT | BCOND => o = 1 /\ fmt = IFMT | _ => o <> 0 /\ o <> 1 /\ fmt <> RFMT end.
Proof.
  refine (below 64 _ _). change (seqZ 0 64) with (ltac:(let l := eval vm_compute in (seqZ 0 64) in exact l)).
  repeat (apply list.Forall_cons; split; [intros op fmt [= <- <-]; done|]). constructor.
Qed.

Lemma trace_name i : known (opCode i) = true -> exists fmt zs, trace i = Ok (fmt, zs) /\ lower (until_space fmt) = opname (opCode i).
Proof. intros Hk. unfold trace. destruct (opCode i); try discriminate Hk; eexists _, _; split; reflexivity. Qed.

Lemma op_field v : is_u32 v -> Z.shiftr (u32 (s32 v)) 26 = Z.land (Z.shiftr v 26) 0x3f.
Proof.
  intros Hv. rewrite u32_s32, u32_small by done. change 0x3f with (Z.ones 6). rewrite Z.land_ones by done. rewrite Z.mod_small; [done|].
  rewrite Z.shiftr_div_pow2 by done. unfold is_u32 in Hv. Z.to_euclidean_division_equations; lia.
Qed.

(** The operation of a BCOND instruction. *)
Lemma bcond_field v : Z.land v 0x1f0000 = Z.land (Z.shiftr v 16) 0x1f * 2 ^ 16.
Proof.
  change 0x1f0000 with (Z.shiftl (Z.ones 5) 16). change 0x1f with (Z.ones 5). rewrite <- Z.shiftl_mul_pow2 by done.
  apply Z.bits_inj'. intros k Hk. rewrite Z.land_spec, !Z.shiftl_spec by done. destruct (Z.ltb_spec k 16).
  - rewrite !(Z.testbit_neg_r _ (k - 16)) by lia. apply andb_false_r.
  - rewrite Z.land_spec, Z.shiftr_spec by lia. by replace (k - 16 + 16) with k by lia.
Qed.

Definition bcond_op (r : Z) : opcode :=
  if r =? 0 then OP_BLTZ else if r =? 1 then OP_BGEZ else if r =? 16 then OP_BLTZAL else if r =? 17 then OP_BGEZAL else OP_UNIMP.

Lemma bcond_names r : known (bcond_op r) = true -> bcond_name r = opname (bcond_op r) /\ bcond_op r <> OP_UNIMP.
Proof.
  unfold bcond_op. destruct (Z.eqb_spec r 0) as [->|]; [done|]. destruct (Z.eqb_spec r 1) as [->|]; [done|].
  destruct (Z.eqb_spec r 16) as [->|]; [done|]. destruct (Z.eqb_spec r 17) as [->|]; [done|]. done.
Qed.

(** [Decode] in terms of the fields of bin/instr.h. *)
Lemma Decode_fields v i : is_u32 v -> Decode v = Ok i ->
  let w := s32 v in let o := Z.shiftr (u32 w) 26 in
  exists op fmt, 0 <= o < 64 /\ opTable !! Z.to_nat o = Some (op, fmt) /\
    match op with
    | SPECIAL => exists op', specialTable !! Z.to_nat (Z.land w 0x3f) = Some op' /\ i = fields op' w (i_shamt w)
    | BCOND => i = fields (bcond_op (i_rt w)) w (immed w)
    | _ => i = fields op w (match fmt with JFMT => Z.land w (2 ^ 26 - 1) | _ => immed w end)
    end.
Proof.
  intros Hv E w o. unfold o, w. rewrite op_field by done. unfold Decode in E.
  assert (Ho : 0 <= Z.land (Z.shiftr v 26) 0x3f < 64) by exact (land_mask_range _ 6 ltac:(done)).
  destruct (opTable_lookup _ Ho) as ([op fmt] & Er & Hok). rewrite Er in E. cbn [mbind outcome_bind] in E.
  apply rd_inv in Er as [_ Er]. exists op, fmt. split; [done|]. split; [done|]. pose proof (group_entries _ Ho op fmt Er) as Hg.
  assert (Hf : forall op' e, mkInstr v op' (Z.land (Z.shiftr v 21) 31) (Z.land (Z.shiftr v 16) 31) (Z.land (Z.shiftr v 11) 31) e = fields op' (s32 v) e).
  { intros op' e. unfold fields, i_rs, i_rt, i_rd. change 0x1f with (Z.ones 5). rewrite !field_s32 by done. by rewrite u32_s32, u32_small. }
  pose proof (Decode_imm v) as Hi. cbv zeta in Hi. rewrite immed_low16, low16_s32.
  destruct (decide (op = SPECIAL)) as [->|Hs]; [|destruct (decide (op = BCOND)) as [->|Hb]].
  - destruct Hg as [_ ->]. destruct (specialTable_lookup (Z.land v 63)) as (op' & Es & _); [exact (land_mask_range _ 6 ltac:(done))|].
    rewrite Es in E. cbn [mbind outcome_bind] in E. injection E as <-. apply rd_inv in Es as [_ Es]. exists op'.
    change 0x3f with (Z.ones 6). rewrite low_s32 by done. split; [exact Es|]. rewrite Hf. f_equal. unfold i_shamt.
    change 0x1f with (Z.ones 5). rewrite field_s32 by done. change (Z.ones 5) with 31. apply s32_small.
    pose proof (land_mask_range (Z.shiftr v 6) 5 ltac:(done)). unfold is_s32. change (Z.ones 5) with 31 in *. lia.
  - destruct Hg as [_ ->]. cbn [mbind outcome_bind] in E. injection E as <-. rewrite Hi, Hf. f_equal. unfold bcond_op, i_rt. change 0x1f with (Z.ones 5).
    rewrite field_s32 by done. pose proof (land_mask_range (Z.shiftr v 16) 5 ltac:(done)) as Hr. rewrite bcond_field. change (Z.ones 5) with 31 in *.
    rewrite s32_small by (unfold is_s32; lia). set (r := Z.land (Z.shiftr v 16) 31) in *. clearbody r.
    destruct (Z.eqb_spec r 0), (Z.eqb_spec (r * 2 ^ 16) 0); try lia; [done|]. destruct (Z.eqb_spec r 1), (Z.eqb_spec (r * 2 ^ 16) 0x10000); try lia; [done|].
    destruct (Z.eqb_spec r 16), (Z.eqb_spec (r * 2 ^ 16) 0x100000); try lia; [done|]. destruct (Z.eqb_spec r 17), (Z.eqb_spec (r * 2 ^ 16) 0x110000); try lia; done.
  - assert (Hg' : fmt <> RFMT) by (destruct op; (tauto || congruence)). assert (Ei : i = fields op (s32 v) (match fmt with JFMT => Z.land (s32 v) (2 ^ 26 - 1) | _ => low16 v end)).
    { rewrite Hi in E. rewrite <- Hf. change (2 ^ 26 - 1) with (Z.ones 26). rewrite low_s32 by done.
      assert (Hj : s32 (Z.land v 67108863) = Z.land v (Z.ones 26)).
      { apply s32_small. pose proof (land_mask_range v 26 ltac:(done)). unfold is_s32. change (Z.ones 26) with 67108863 in *. lia. }
      rewrite Hj in E. destruct op; try done; (injection E as <-; by destruct fmt). }
    by destruct op.
Qed.

(** The text in terms of what the simulator decodes. *)
Lemma disassemble_printed v pc i :
  is_u32 v -> v <> 0 -> Decode v = Ok i -> known (opCode i) = true ->
  exists fmt zs, trace i = Ok (fmt, zs) /\ disassemble (s32 v) pc = Ok (lower (until_space fmt), Lit "	" :: printed i pc).
Proof.
  intros Hv H0 Hd Hk. destruct (trace_name i Hk) as (fmt & zs & Ht & Hn). exists fmt, zs. split; [done|]. rewrite Hn. clear Ht Hn fmt zs.
  destruct (Decode_fields v i Hv Hd) as (op & fmt & Ho & Eo & Hi). unfold disassemble.
  assert (Hw : (s32 v =? 0) = false).
  { apply Z.eqb_neq. intros E. apply (f_equal u32) in E. rewrite u32_s32, u32_small in E by done. by rewrite E in H0. }
  rewrite Hw. pose proof (group_entries _ Ho op fmt Eo) as Hg. destruct (decide (op = SPECIAL)) as [->|Hs]; [|destruct (decide (op = BCOND)) as [->|Hb]].
  - destruct Hg as [-> _]. cbn [Z.eqb]. destruct Hi as (op' & Es & ->). cbn [fields opCode] in *.
    destruct (special_tables (s32 v) pc (Z.land (s32 v) 0x3f) (land_mask_range _ 6 ltac:(done)) op' Es Hk) as [-> ->]. done.
  - destruct Hg as [-> _]. cbn [Z.eqb Pos.eqb]. subst i. cbn [fields opCode] in *. destruct (bcond_names _ Hk) as [-> Hne]. do 2 f_equal.
    unfold printed. cbn [fields opCode rs]. unfold target. cbn [extra]. replace (off16 (s32 v) + pc + 4) with (pc + 4 + IndexToAddr (immed (s32 v)))
      by (unfold off16, IndexToAddr; lia). unfold bcond_op in *. by repeat case_match.
  - assert (Hg' : Z.shiftr (u32 (s32 v)) 26 <> 0 /\ Z.shiftr (u32 (s32 v)) 26 <> 1) by (destruct op; (tauto || congruence)).
    rewrite (proj2 (Z.eqb_neq _ 0)), (proj2 (Z.eqb_neq _ 1)) by tauto.
    assert (Ei : i = fields op (s32 v) (match fmt with JFMT => Z.land (s32 v) (2 ^ 26 - 1) | _ => immed (s32 v) end)) by (by destruct op).
    subst i. cbn [fields opCode] in Hk |- *. destruct (normal_tables (s32 v) pc _ Ho op fmt Eo Hk) as [-> ->]. done.
Qed.

(** C30: the disassembler prints what the simulator executes: for every
    instruction word but 0 (which is printed as [nop]) that the simulator decodes
    to an operation it implements, the name is that of the operation in the
    trace, and the operands are those of the decoded instruction in the assembly
    language of the architecture ([operands]: the registers, the immediate, the shift
    amount, and for jumps and branches the address at which the simulator goes on
    when they are taken, cf. [taken_branch_target]); except for the instructions of
    [misprints], for which it prints [misprinted]. *)
Theorem disassembler_agrees v pc i :
  is_u32 v -> v <> 0 -> Decode v = Ok i -> known (opCode i) = true ->
  exists fmt zs, trace i = Ok (fmt, zs) /\
    disassemble (s32 v) pc = Ok (lower (until_space fmt), Lit "	" :: if misprints i pc then misprinted i pc else operands i pc).
Proof.
  intros Hv H0 Hd Hk. destruct (disassemble_printed v pc i Hv H0 Hd Hk) as (fmt & zs & Ht & E). exists fmt, zs. split; [done|].
  rewrite E, printed_operands; [done|]. destruct (Decode_operands v i Hd) as (_ & _ & Hx & _).
  destruct (immediate_op (opCode i)); [left|by right]. rewrite Hx by done. apply low16_range.
Qed.

(** [addiu sp,sp,-24], and [mflo r2], which is printed with rs. *)
Lemma disassembler_agrees_witness :
  disassemble (s32 (encode_I 9 29 29 (-24))) 0 = Ok ("addiu", [Lit "	"; R 29; Lit ","; R 29; Lit ","; Hex (-24)]) /\
  disassemble (s32 (encode_R 0 0 2 0 18)) 0 = Ok ("mflo", [Lit "	"; R 0]).
Proof.
  split.
  { destruct (disassembler_agrees (encode_I 9 29 29 (-24)) 0 (mkInstr (encode_I 9 29 29 (-24)) OP_ADDIU 29 29 31 (-24))) as (fmt & zs & Ht & Hd).
  - unfold is_u32. split; [done|reflexivity].
  - done.
  - reflexivity.
  - reflexivity.
  - injection Ht as <- <-. exact Hd. }
  destruct (disassembler_agrees (encode_R 0 0 2 0 18) 0 (mkInstr (encode_R 0 0 2 0 18) OP_MFLO 0 0 2 0)) as (fmt & zs & Ht & Hd).
  - unfold is_u32. split; [done|reflexivity].
  - done.
  - reflexivity.
  - reflexivity.
  - injection Ht as <- <-. exact Hd.
Defined.

(** ** Branches go where the text says *)

Definition branches (op : opcode) : bool :=
  match op with
  | OP_BEQ | OP_BNE | OP_BGEZ | OP_BGTZ | OP_BLEZ | OP_BLTZ | OP_BGEZAL | OP_BLTZAL => true
  | _ => false
  end.

Lemma region_mask x : Z.land (u32 x) 0xf0000000 = u32 x / 2 ^ 28 * 2 ^ 28.
Proof.
  rewrite <- Z.shiftr_div_pow2, <- Z.shiftl_mul_pow2 by done. apply Z.bits_inj'. intros k Hk. rewrite Z.land_spec, Z.shiftl_spec by done.
  change 0xf0000000 with (Z.shiftl (Z.ones 4) 28). rewrite Z.shiftl_spec by done. destruct (Z.ltb_spec k 28).
  - rewrite !(Z.testbit_neg_r _ (k - 28)) by lia. apply andb_false_r.
  - rewrite Z.shiftr_spec by lia. replace (k - 28 + 28) with k by lia. unfold u32. destruct (Z.ltb_spec k 32).
    + rewrite Z.ones_spec_low by lia. apply andb_true_r.
    + rewrite Z.ones_spec_high, Z.mod_pow2_bits_high by lia. done.
Qed.

Lemma top4_region pc pc' : u32 pc / 2 ^ 28 = u32 pc' / 2 ^ 28 -> u32 (top4 pc) = Z.land (u32 pc') 0xf0000000.
Proof.
  intros E. rewrite region_mask, <- E, <- region_mask. unfold top4, u32. rewrite <- !Z.land_ones by done. change (Z.lnot (2 ^ 28 - 1)) with (Z.lnot (Z.ones 28)).
  rewrite <- !Z.land_assoc. f_equal.
Qed.

Lemma link_keeps_next m x m1 : wreg m R31 x = Ok m1 -> registers m1 !! 35%nat = registers m !! 35%nat.
Proof. unfold wreg. intros E. inv_bind E. injection E as <-. apply wr_inv in E0 as [_ ->]. cbn. by rewrite list_lookup_insert_ne. Qed.

(** A branch that is executed at [pc], with the next instruction at [pc + 4],
    goes on after its delay slot or at the printed address; a jump goes on at the
    printed address, when it stays in the same region of 256 megabytes. *)
Lemma taken_branch_target i m pc pcAfter m' p r v :
  registers m !! 35%nat = Some (pc + 4) -> execute i m pcAfter = Ok (m', inr (p, r, v)) ->
  (branches (opCode i) = true -> p = pcAfter \/ p = target i pc) /\
  (opCode i = OP_J \/ opCode i = OP_JAL -> u32 pc / 2 ^ 28 = u32 pcAfter / 2 ^ 28 ->
     u32 p = u32 (Z.lor (top4 pc) (IndexToAddr (extra i)))).
Proof.
  intros Hn E. assert (Hbr : forall m1 (c : bool), registers m1 !! 35%nat = Some (pc + 4) ->
    (npc ← rreg m1 NextPCReg; next m1 (if c then s32 (npc + IndexToAddr (extra i)) else pcAfter)) = Ok (m', inr (p, r, v)) -> p = pcAfter \/ p = target i pc).
  { intros m1 c H1 H2. unfold rreg in H2. rewrite (rd_lookup _ _ (pc + 4)) in H2 by done. cbn [mbind outcome_bind] in H2.
    unfold next in H2. injection H2 as _ <- _ _. destruct c; [by right|by left]. }
  split.
  - intros Hop. unfold execute in E. destruct (opCode i); try discriminate Hop; cbv beta zeta in E;
      repeat match type of E with (rreg ?m0 ?k ≫= _) = _ =>
        lazymatch k with NextPCReg => fail | _ => destruct (rreg m0 k) as [?|] eqn:?; [cbn [mbind outcome_bind] in E|discriminate E] end end;
      try (eapply Hbr; [exact Hn|exact E]).
    all: destruct (rreg m NextPCReg) as [npc|] eqn:En; [cbn [mbind outcome_bind] in E|discriminate E].
    all: destruct (wreg m R31 (s32 (npc + 4))) as [m1|] eqn:Ew; [cbn [mbind outcome_bind] in E|discriminate E].
    all: destruct (rreg m1 (rs i)) as [a|] eqn:Ea; [cbn [mbind outcome_bind] in E|discriminate E].
    all: apply link_keeps_next in Ew; eapply Hbr; [by rewrite Ew|exact E].
  - intros Hop Hreg. assert (Ep : u32 p = Z.lor (Z.land (u32 pcAfter) 0xf0000000) (u32 (IndexToAddr (extra i)))).
    { assert (Hs : forall x, u32 (s32 (Z.lor (Z.land (u32 pcAfter) 0xf0000000) (u32 x))) = Z.lor (Z.land (u32 pcAfter) 0xf0000000) (u32 x)).
      { intros x. rewrite u32_s32, u32_lor. f_equal; [|apply u32_small, u32_range].
        unfold u32. rewrite <- !Z.land_ones by done. rewrite <- !Z.land_assoc. done. }
      unfold execute in E. destruct Hop as [Eop|Eop]; rewrite Eop in E; cbv beta zeta in E.
      - unfold next in E. injection E as _ <- _ _. apply Hs.
      - inv_bind E. inv_bind E. unfold next in E. injection E as _ <- _ _. apply Hs. }
    rewrite Ep, u32_lor. f_equal. symmetry. by apply top4_region.
Qed.

End Disasm.
