(* ===== verification/Interp.v ===== *)
(** * bin/execute.c: the MIPS interpreter of bin/

    The interpreter that came with the cross compiler, an implementation of the
    instruction set independent of machine/mipssim.cc.  [step] is an iteration of
    the loop of [runprogram]: the fetch and the [switch], one function per group
    of opcodes.  As everywhere, signed arithmetic that overflows is given the
    wrap-around of the i386 host, a shift uses the low five bits of its count, and
    a division that traps on the host is the fault [DivideTrap]; an access outside
    of the array [mem] is [BadAccess]. *)

From S2P Require Import Prelude MachineSim MipsSim Disasm.
Import Machine Mips Disasm.

Local Open Scope Z_scope.

Module Interp.

(** ** bin/int.h: memory *)

Definition MEMSIZE : Z := 2 ^ 24.
Definition memoffset : Z := 0x10000000.

Record t := mk { Reg : list Z; HI : Z; LO : Z; mem : list Z; pc : Z; npc : Z }.

Definition set_Reg (s : t) (rs : list Z) : t := mk rs (HI s) (LO s) (mem s) (pc s) (npc s).
Definition set_HILO (s : t) (hi lo : Z) : t := mk (Reg s) hi lo (mem s) (pc s) (npc s).
Definition set_mem (s : t) (ms : list Z) : t := mk (Reg s) (HI s) (LO s) ms (pc s) (npc s).
Definition set_npc (s : t) (a : Z) : t := mk (Reg s) (HI s) (LO s) (mem s) (pc s) a.

(** [(mem-memoffset)[addr]] as [n] bytes. *)
Definition load (s : t) (addr n : Z) : outcome Z :=
  let off := addr - memoffset in
  if (0 <=? off) && (off + n <=? Z.of_nat (length (mem s)))
  then Ok (le_value (slice (mem s) (Z.to_nat off) (Z.to_nat n))) else Fault BadAccess.
Definition poke (s : t) (addr : Z) (bs : list Z) : outcome t :=
  let off := addr - memoffset in
  if (0 <=? off) && (off + Z.of_nat (length bs) <=? Z.of_nat (length (mem s)))
  then Ok (set_mem s (splice (mem s) (Z.to_nat off) bs)) else Fault BadAccess.
Definition put (s : t) (addr n v : Z) : outcome t := poke s addr (le_bytes (Z.to_nat n) v).

Definition fetch (s : t) (addr : Z) : outcome Z := v ← load s addr 4; Ok (s32 v).
Definition sfetch (s : t) (addr : Z) : outcome Z := v ← load s addr 2; Ok ((v + 2 ^ 15) mod 2 ^ 16 - 2 ^ 15).
Definition usfetch (s : t) (addr : Z) : outcome Z := load s addr 2.
Definition cfetch (s : t) (addr : Z) : outcome Z := v ← load s addr 1; Ok (s8 v).
Definition ucfetch (s : t) (addr : Z) : outcome Z := load s addr 1.
Definition store (s : t) (addr v : Z) : outcome t := put s addr 4 v.
Definition sstore (s : t) (addr v : Z) : outcome t := put s addr 2 v.
Definition cstore (s : t) (addr v : Z) : outcome t := put s addr 1 v.

(** ** The [switch] of [runprogram] *)

(** An instruction ends, calls [system_trap] or [system_break], or ends the
    program with [exit(2)]. *)
Inductive result := Next (s : t) | Trap (s : t) | Stop.

Definition rr (s : t) (i : Z) : outcome Z := rd (Reg s) i.
(** [Reg[r] = v; break;] *)
Definition assign (s : t) (r v : Z) : outcome result := rs ← wr (Reg s) r v; Ok (Next (set_Reg s rs)).
Definition next (s : t) : outcome result := Ok (Next s).

(** HI of [MULT] and [MULTU] for the halves of the operands. *)
Definition high_word (t1 t2 : Z) : Z :=
  let t1l := Z.land t1 0xffff in let t1h := Z.land (Z.shiftr t1 16) 0xffff in
  let t2l := Z.land t2 0xffff in let t2h := Z.land (Z.shiftr t2 16) 0xffff in
  s32 (s32 (s32 (t1h * t2h) + Z.shiftr (s32 (t1h * t2l)) 16) + Z.shiftr (s32 (t2h * t1l)) 16).

Definition mult (t1 t2 : Z) : Z * Z :=
  let neg := false in
  let '(t1, neg) := if t1 <? 0 then (s32 (- t1), negb neg) else (t1, neg) in
  let '(t2, neg) := if t2 <? 0 then (s32 (- t2), negb neg) else (t2, neg) in
  let LO := s32 (t1 * t2) in
  let HI := high_word t1 t2 in
  if neg then
    let LO := s32 (Z.lnot LO + 1) in
    (if LO =? 0 then s32 (Z.lnot HI + 1) else Z.lnot HI, LO)
  else (HI, LO).

(** The operations of the group SPECIAL, by their numbers in bin/encode.h;
    [xpc] is the address of the instruction. *)
Definition special (instr xpc : Z) (s : t) : outcome result :=
  let rd := i_rd instr in let rs := i_rs instr in let rt := i_rt instr in let shamt := i_shamt instr in
  match Z.land instr 0x3f with
  | 0 => b ← rr s rt; assign s rd (s32 (Z.shiftl b shamt))                                   (* SLL *)
  | 2 => b ← rr s rt; assign s rd (s32 (Z.shiftr (u32 b) shamt))                             (* SRL *)
  | 3 => b ← rr s rt; assign s rd (Z.shiftr b shamt)                                         (* SRA *)
  | 4 => b ← rr s rt; a ← rr s rs; assign s rd (s32 (Z.shiftl b (Z.land a 0x1f)))            (* SLLV *)
  | 6 => b ← rr s rt; a ← rr s rs; assign s rd (s32 (Z.shiftr (u32 b) (Z.land a 0x1f)))      (* SRLV *)
  | 7 => b ← rr s rt; a ← rr s rs; assign s rd (Z.shiftr b (Z.land a 0x1f))                  (* SRAV *)
  | 8 => a ← rr s rs; next (set_npc s a)                                                     (* JR *)
  | 9 => a ← rr s rs; assign (set_npc s a) rd (s32 (xpc + 8))                                (* JALR *)
  | 12 | 13 => Ok (Trap s)                                                                   (* SYSCALL BREAK *)
  | 16 => assign s rd (HI s)                                                                 (* MFHI *)
  | 17 => a ← rr s rs; next (set_HILO s a (LO s))                                            (* MTHI *)
  | 18 => assign s rd (LO s)                                                                 (* MFLO *)
  | 19 => a ← rr s rs; next (set_HILO s (HI s) a)                                            (* MTLO *)
  | 24 => a ← rr s rs; b ← rr s rt; let '(hi, lo) := mult a b in next (set_HILO s hi lo)     (* MULT *)
  | 25 => a ← rr s rs; b ← rr s rt; next (set_HILO s (high_word a b) (s32 (a * b)))          (* MULTU *)
  | 26 =>                                                                                    (* DIV *)
      a ← rr s rs; b ← rr s rt;
      if (b =? 0) || ((a =? - 2 ^ 31) && (b =? -1)) then Fault DivideTrap
      else next (set_HILO s (Z.rem a b) (Z.quot a b))
  | 27 =>                                                                                    (* DIVU *)
      a ← rr s rs; b ← rr s rt;
      if u32 b =? 0 then Fault DivideTrap else next (set_HILO s (s32 (u32 a mod u32 b)) (s32 (u32 a / u32 b)))
  | 32 | 33 => a ← rr s rs; b ← rr s rt; assign s rd (s32 (a + b))                           (* ADD ADDU *)
  | 34 | 35 => a ← rr s rs; b ← rr s rt; assign s rd (s32 (a - b))                           (* SUB SUBU *)
  | 36 => a ← rr s rs; b ← rr s rt; assign s rd (Z.land a b)                                 (* AND *)
  | 37 => a ← rr s rs; b ← rr s rt; assign s rd (Z.lor a b)                                  (* OR *)
  | 38 => a ← rr s rs; b ← rr s rt; assign s rd (Z.lxor a b)                                 (* XOR *)
  | 39 => a ← rr s rs; b ← rr s rt; assign s rd (Z.lnot (Z.lor a b))                         (* NOR *)
  | 42 => a ← rr s rs; b ← rr s rt; assign s rd (if a <? b then 1 else 0)                    (* SLT *)
  | 43 => a ← rr s rs; b ← rr s rt; assign s rd (if u32 a <? u32 b then 1 else 0)            (* SLTU *)
  | _ => Ok Stop
  end.

(** [if (c) npc = xpc + 4 + (immed(instr) << 2); break;] *)
Definition branch (instr xpc : Z) (s : t) (c : bool) : outcome result :=
  next (if c then set_npc s (s32 (xpc + 4 + off16 instr)) else s).

Definition link (s : t) (xpc : Z) : outcome t := rs ← wr (Reg s) 31 (s32 (xpc + 8)); Ok (set_Reg s rs).

Definition bcond (instr xpc : Z) (s : t) : outcome result :=
  let rs := i_rs instr in
  match i_rt instr with
  | 0 => a ← rr s rs; branch instr xpc s (a <? 0)                                            (* BLTZ *)
  | 1 => a ← rr s rs; branch instr xpc s (a >=? 0)                                           (* BGEZ *)
  | 16 => s ← link s xpc; a ← rr s rs; branch instr xpc s (a <? 0)                           (* BLTZAL *)
  | 17 => s ← link s xpc; a ← rr s rs; branch instr xpc s (a >=? 0)                          (* BGEZAL *)
  | _ => Ok Stop
  end.

(** The address of a jump. *)
Definition jump_target (instr xpc : Z) : Z :=
  s32 (Z.lor (Z.land (u32 xpc) 0xf0000000) (u32 (Z.shiftl (Z.land instr 0x03ffffff) 2))).

(** The immediate instructions, jumps and branches. *)
Definition immediate (instr xpc o : Z) (s : t) : outcome result :=
  let rs := i_rs instr in let rt := i_rt instr in let imm := immed instr in
  match o with
  | 2 => next (set_npc s (jump_target instr xpc))                                            (* J *)
  | 3 => s ← link s xpc; next (set_npc s (jump_target instr xpc))                            (* JAL *)
  | 4 => a ← rr s rs; b ← rr s rt; branch instr xpc s (a =? b)                               (* BEQ *)
  | 5 => a ← rr s rs; b ← rr s rt; branch instr xpc s (negb (a =? b))                        (* BNE *)
  | 6 => a ← rr s rs; branch instr xpc s (a <=? 0)                                           (* BLEZ *)
  | 7 => a ← rr s rs; branch instr xpc s (a >? 0)                                            (* BGTZ *)
  | 8 | 9 => a ← rr s rs; assign s rt (s32 (a + imm))                                        (* ADDI ADDIU *)
  | 10 => a ← rr s rs; assign s rt (if a <? imm then 1 else 0)                               (* SLTI *)
  | 11 => a ← rr s rs; assign s rt (if u32 a <? u32 imm then 1 else 0)                       (* SLTIU *)
  | 12 => a ← rr s rs; assign s rt (Z.land a imm)                                            (* ANDI *)
  | 13 => a ← rr s rs; assign s rt (Z.lor a imm)                                             (* ORI *)
  | 14 => a ← rr s rs; assign s rt (Z.lxor a imm)                                            (* XORI *)
  | _ => assign s rt (s32 (Z.shiftl instr 16))                                               (* LUI *)
  end.

(** Loads and stores; those that are not implemented stop the program. *)
Definition memory (instr o : Z) (s : t) : outcome result :=
  let rs := i_rs instr in let rt := i_rt instr in
  a ← rr s rs;
  let i := s32 (a + immed instr) in
  match o with
  | 32 => v ← cfetch s i; assign s rt v                                                      (* LB *)
  | 33 => v ← sfetch s i; assign s rt v                                                      (* LH *)
  | 34 =>                                                                                    (* LWL *)
      b ← rr s rt; v ← fetch s (s32 (Z.land (u32 i) 0xfffffffc));
      assign s rt (Z.lor (Z.land b (Z.shiftr (-1) (8 * Z.land (s32 (- i)) 0x03))) (s32 (Z.shiftl v (8 * Z.land i 0x03))))
  | 35 => v ← fetch s i; assign s rt v                                                       (* LW *)
  | 36 => v ← ucfetch s i; assign s rt v                                                     (* LBU *)
  | 37 => v ← usfetch s i; assign s rt v                                                     (* LHU *)
  | 38 =>                                                                                    (* LWR *)
      b ← rr s rt; v ← fetch s (s32 (Z.land (u32 i) 0xfffffffc));
      let b := if Z.land i 0x03 =? 0 then 0 else Z.land b (s32 (Z.shiftl (-1) (8 * Z.land i 0x03))) in
      assign s rt (Z.lor b (Z.shiftr v (8 * Z.land (s32 (- i)) 0x03)))
  | 40 => b ← rr s rt; s ← cstore s i b; next s                                              (* SB *)
  | 41 => b ← rr s rt; s ← sstore s i b; next s                                              (* SH *)
  | 43 => b ← rr s rt; s ← store s i b; next s                                               (* SW *)
  | _ => Ok Stop
  end.

Definition execute (instr xpc : Z) (s : t) : outcome result :=
  let o := Z.land (Z.shiftr instr 26) 0x3f in
  if o =? 0 then special instr xpc s
  else if o =? 1 then bcond instr xpc s
  else if o <=? 15 then immediate instr xpc o s
  else if (32 <=? o) && (o <=? 46) && negb (o =? 39) && negb (o =? 44) && negb (o =? 45) then memory instr o s
  else Ok Stop.

(** One iteration of the loop. *)
Definition step (s : t) : outcome result :=
  let xpc := pc s in
  let s := mk (Reg s) (HI s) (LO s) (mem s) (npc s) (s32 (npc s + 4)) in
  instr ← fetch s xpc;
  rs ← wr (Reg s) 0 0;
  let s := set_Reg s rs in
  if negb (instr =? 0) then execute instr xpc s else next s.

(** The arguments of the program: the strings at [ai], their addresses at [aci]. *)
Fixpoint arguments (argv : list (list Z)) (aci ai : Z) (s : t) : outcome t :=
  match argv with
  | [] => Ok s
  | arg :: argv =>
      s ← poke s ai (arg ++ [0]);                                                            (* strcpy *)
      s ← store s aci ai;
      arguments argv (aci + 4) (ai + Z.of_nat (length arg) + 1) s
  end.

(** [runprogram] before its loop. *)
Definition start (startpc : Z) (argv : list (list Z)) (s : t) : outcome t :=
  let s := mk (Reg s) (HI s) (LO s) (mem s) startpc (s32 (startpc + 4)) in
  let i := MEMSIZE - 1024 + memoffset in
  rs ← wr (Reg s) 29 i;
  let s := set_Reg s rs in
  s ← store s i (Z.of_nat (length argv));
  arguments argv (i + 4) (i + 4 + 32) s.

(** [ilog2]; a mask is an [unsigned int]. *)
Definition halve (mask n : Z) (il : Z * Z) : Z * Z :=
  let '(i, l) := il in
  let j := s32 (Z.land (u32 i) mask) in
  if negb (j =? 0) then (j, l + n) else (i, l).
Definition ilog2 (i : Z) : Z :=
  if i =? 0 then 0
  else snd (halve 0xaaaaaaaa 1 (halve 0xcccccccc 2 (halve 0xf0f0f0f0 4 (halve 0xff00ff00 8 (halve 0xffff0000 16 (i, 1)))))).

(** ** The arguments in memory *)

Section memory_accesses.
Context (s : t) (off : Z) (Hoff : 0 <= off).

Lemma poke_ok bs : off + Z.of_nat (length bs) <= Z.of_nat (length (mem s)) ->
  poke s (memoffset + off) bs = Ok (set_mem s (splice (mem s) (Z.to_nat off) bs)).
Proof.
  intros H. unfold poke. replace (memoffset + off - memoffset) with off by lia. by rewrite (proj2 (Z.leb_le 0 off)), (proj2 (Z.leb_le _ _)) by done.
Qed.

Lemma interp_load_ok n : off + n <= Z.of_nat (length (mem s)) ->
  load s (memoffset + off) n = Ok (le_value (slice (mem s) (Z.to_nat off) (Z.to_nat n))).
Proof.
  intros H. unfold load. replace (memoffset + off - memoffset) with off by lia. by rewrite (proj2 (Z.leb_le 0 off)), (proj2 (Z.leb_le _ _)) by done.
Qed.

End memory_accesses.

(** The bytes of the strings with their terminators. *)
Definition total (argv : list (list Z)) : Z := foldr (fun arg n => Z.of_nat (length arg) + 1 + n) 0 argv.

Lemma arguments_nonneg argv : 0 <= total argv.
Proof. unfold total. induction argv; cbn [foldr]; lia. Qed.

(** Argument [k]: the table holds its address, and the string is there. *)
Definition argument_at (ms : list Z) (aci : Z) (k : nat) (arg : list Z) : Prop :=
  exists off, 0 <= off /\
    slice ms (Z.to_nat aci + 4 * k) 4 = le_bytes 4 (memoffset + off) /\ slice ms (Z.to_nat off) (S (length arg)) = arg ++ [0].

Lemma arguments_spec argv : forall s aci ai, 0 <= aci -> aci + 4 * Z.of_nat (length argv) <= ai -> ai + total argv <= Z.of_nat (length (mem s)) ->
  exists ms, arguments argv (memoffset + aci) (memoffset + ai) s = Ok (set_mem s ms) /\ length ms = length (mem s) /\
    (forall n k, (n + k <= Z.to_nat aci \/ Z.to_nat aci + 4 * length argv <= n /\ n + k <= Z.to_nat ai)%nat \/ (Z.to_nat (ai + total argv) <= n)%nat ->
       slice ms n k = slice (mem s) n k) /\
    (forall k arg, argv !! k = Some arg -> argument_at ms aci k arg).
Proof.
  induction argv as [|arg argv IH]; intros s aci ai H0 H1 H2; cbn [arguments total foldr length] in *.
  - exists (mem s). by destruct s.
  - change (foldr _ 0 argv) with (total argv) in *. pose proof (arguments_nonneg argv) as Hn.
    assert (Hl : length (arg ++ [0]) = S (length arg)) by (rewrite length_app; cbn; lia).
    rewrite poke_ok by (rewrite ?Hl; lia). cbn [mbind outcome_bind]. unfold store, put.
    set (m1 := splice (mem s) (Z.to_nat ai) (arg ++ [0])). assert (L1 : length m1 = length (mem s)) by (apply length_splice; rewrite Hl; lia).
    rewrite poke_ok by (cbn [set_mem mem]; rewrite ?length_le_bytes, ?L1; lia). cbn [mbind outcome_bind set_mem mem].
    set (m2 := splice m1 (Z.to_nat aci) _). assert (L2 : length m2 = length (mem s)) by (unfold m2; rewrite length_splice; rewrite ?length_le_bytes; lia).
    destruct (IH (set_mem s m2) (aci + 4) (ai + Z.of_nat (length arg) + 1)) as (ms & E & Lm & Hf & Ha); [lia|lia|cbn [set_mem mem]; lia|].
    exists ms. replace (memoffset + aci + 4) with (memoffset + (aci + 4)) by lia.
    replace (memoffset + ai + Z.of_nat (length arg) + 1) with (memoffset + (ai + Z.of_nat (length arg) + 1)) by lia.
    cbn [set_mem mem] in Hf, Lm. split; [exact E|]. split; [lia|]. split.
    + intros n k Hnk. rewrite Hf by lia. unfold m2. rewrite slice_splice_disjoint by (rewrite length_le_bytes; lia).
      unfold m1. apply slice_splice_disjoint; rewrite Hl; lia.
    + intros [|k] arg' Hk; cbn in Hk.
      * injection Hk as <-. exists ai. split; [lia|]. split.
        -- rewrite Hf by lia. rewrite Nat.mul_0_r, Nat.add_0_r. apply (slice_splice_same m1 (Z.to_nat aci) (le_bytes 4 (memoffset + ai))). rewrite length_le_bytes; lia.
        -- rewrite Hf by lia. unfold m2. rewrite slice_splice_disjoint by (rewrite length_le_bytes; lia).
           rewrite <- Hl. apply slice_splice_same. rewrite Hl. lia.
      * destruct (Ha k arg' Hk) as (off & Ho & E1 & E2). exists off. split; [done|]. split; [|done]. rewrite <- E1. f_equal. lia.
Qed.

(** A program starts with its arguments: for at most eight of them, of at
    most 988 bytes with their terminators, register 29 points to the count, after it
    are the addresses of the arguments, and at those addresses the strings. *)
Theorem arguments_in_memory startpc argv s : length (Reg s) = 32%nat -> Z.of_nat (length (mem s)) = MEMSIZE ->
  (length argv <= 8)%nat -> total argv <= 988 ->
  exists s', start startpc argv s = Ok s' /\ pc s' = startpc /\ npc s' = s32 (startpc + 4) /\
    rr s' 29 = Ok (memoffset + (MEMSIZE - 1024)) /\
    fetch s' (memoffset + (MEMSIZE - 1024)) = Ok (Z.of_nat (length argv)) /\
    forall k arg, argv !! k = Some arg -> argument_at (mem s') (MEMSIZE - 1020) k arg.
Proof.
  intros Hg Hm Ha Ht. unfold start. cbn [Reg]. rewrite wr_ok by lia. cbn [mbind outcome_bind].
  set (g := <[_ := _]> (Reg s)). replace (MEMSIZE - 1024 + memoffset) with (memoffset + (MEMSIZE - 1024)) by lia. unfold store, put.
  assert (HM : MEMSIZE = 16777216) by done.
  rewrite poke_ok; [|lia|rewrite length_le_bytes; cbn [set_Reg mem]; lia]. cbn [mbind outcome_bind set_Reg set_mem mem Reg HI LO pc npc].
  set (m1 := splice _ _ _). assert (L1 : Z.of_nat (length m1) = MEMSIZE) by (unfold m1; rewrite length_splice; [done|rewrite length_le_bytes; lia]).
  set (s1 := set_mem _ m1).
  replace (memoffset + (MEMSIZE - 1024) + 4) with (memoffset + (MEMSIZE - 1020)) by lia.
  replace (memoffset + (MEMSIZE - 1020) + 32) with (memoffset + (MEMSIZE - 988)) by lia.
  destruct (arguments_spec argv s1 (MEMSIZE - 1020) (MEMSIZE - 988)) as (ms & E & Lm & Hf & Hargs); [lia|lia|cbn [s1 set_mem mem]; lia|].
  exists (set_mem s1 ms). split; [exact E|]. split; [done|]. split; [done|]. split.
  { unfold rr. cbn [set_mem Reg s1]. apply rd_lookup; [done|]. replace (memoffset + (MEMSIZE - 1024)) with (MEMSIZE - 1024 + memoffset) by lia. apply list_lookup_insert_eq. lia. }
  split; [|exact Hargs]. unfold fetch. cbn [s1 set_mem mem] in Lm, Hf. rewrite interp_load_ok by (cbn [set_mem mem]; lia). cbn [mbind outcome_bind set_mem mem].
  rewrite Hf by lia. unfold m1. rewrite <- (length_le_bytes (Z.to_nat 4) (Z.of_nat (length argv))) at 2.
  rewrite slice_splice_same by (rewrite length_le_bytes; lia). rewrite le_value_bytes. f_equal.
  rewrite Z.mod_small by (change (2 ^ _) with (2 ^ 32); lia). apply s32_small. unfold is_s32. lia.
Qed.

Lemma arguments_in_memory_witness (s := mk (replicate 32 0) 0 0 (replicate (Z.to_nat MEMSIZE) 0) 0 0) :
  exists s', start memoffset [[97]; [98; 99]] s = Ok s' /\ pc s' = memoffset /\ npc s' = s32 (memoffset + 4) /\
    rr s' 29 = Ok (memoffset + (MEMSIZE - 1024)) /\
    fetch s' (memoffset + (MEMSIZE - 1024)) = Ok 2 /\
    forall k arg, [[97]; [98; 99]] !! k = Some arg -> argument_at (mem s') (MEMSIZE - 1020) k arg.
Proof.
  apply (arguments_in_memory memoffset [[97]; [98; 99]] s); [reflexivity| |cbn; lia|cbn; lia].
  cbn [s mem]. rewrite length_replicate. unfold MEMSIZE. lia.
Defined.

(** ** Arithmetic *)

(** The high word of a product of words that are not negative, from the halves of
    the operands, is too small by at most 2: the carries of the cross products
    and of the product of the low halves are lost. *)
Theorem high_word_bound t1 t2 : 0 <= t1 < 2 ^ 31 -> 0 <= t2 < 2 ^ 31 ->
  high_word t1 t2 <= t1 * t2 / 2 ^ 32 <= high_word t1 t2 + 2.
Proof.
  intros H1 H2. unfold high_word. change 0xffff with (Z.ones 16). rewrite !Z.land_ones, !Z.shiftr_div_pow2 by done.
  rewrite (Z.mod_small (t1 / _)), (Z.mod_small (t2 / _)) by (Z.to_euclidean_division_equations; lia).
  set (a := t1 / 2 ^ 16). set (b := t1 mod 2 ^ 16). set (c := t2 / 2 ^ 16). set (d := t2 mod 2 ^ 16).
  assert (Ha : 0 <= a < 2 ^ 15) by (unfold a; Z.to_euclidean_division_equations; lia).
  assert (Hc : 0 <= c < 2 ^ 15) by (unfold c; Z.to_euclidean_division_equations; lia).
  assert (Hb : 0 <= b < 2 ^ 16) by (apply Z.mod_pos_bound; lia). assert (Hd : 0 <= d < 2 ^ 16) by (apply Z.mod_pos_bound; lia).
  assert (E1 : t1 = 2 ^ 16 * a + b) by (apply Z.div_mod; lia). assert (E2 : t2 = 2 ^ 16 * c + d) by (apply Z.div_mod; lia).
  rewrite !(s32_small (_ * _)) by (unfold is_s32; nia). clearbody a b c d. subst t1 t2.
  assert (Had : 0 <= a * d < 2 ^ 31) by nia. assert (Hcb : 0 <= c * b < 2 ^ 31) by nia. assert (Hac : 0 <= a * c < 2 ^ 30) by nia.
  assert (Hbd : 0 <= b * d < 2 ^ 32) by nia.
  replace ((2 ^ 16 * a + b) * (2 ^ 16 * c + d)) with (2 ^ 32 * (a * c) + 2 ^ 16 * (a * d + c * b) + b * d) by ring.
  generalize dependent (a * d). generalize dependent (c * b). generalize dependent (a * c). generalize dependent (b * d). intros bd ? ac ? cb ? ad ?.
  assert (0 <= ad / 2 ^ 16 < 2 ^ 15) by (Z.to_euclidean_division_equations; lia).
  assert (0 <= cb / 2 ^ 16 < 2 ^ 15) by (Z.to_euclidean_division_equations; lia).
  rewrite !s32_small by (rewrite ?s32_small; unfold is_s32; lia). Z.to_euclidean_division_equations; lia.
Qed.

(** The bound is met. *)
Example high_word_short : high_word 0x1ffff 0x1ffff + 2 = 0x1ffff * 0x1ffff / 2 ^ 32.
Proof. reflexivity. Qed.

(** After the step for bit [k] of an index, the bits of [i] that are left have
    indices that agree with the index [L] of its highest one from bit [k] up. *)
Definition narrowed (L k : Z) (i : Z) : Prop :=
  Z.testbit (u32 i) L = true /\ forall p, 0 <= p -> Z.testbit (u32 i) p = true -> p <= L /\ p / 2 ^ k = L / 2 ^ k.

Definition selects (k mask : Z) : Prop := 0 <= mask < 2 ^ 32 /\ forall p, 0 <= p < 32 -> Z.testbit mask p = Z.testbit p k.

Lemma halve_narrows L k mask i l : 0 <= L < 32 -> 0 <= k -> selects k mask -> narrowed L (k + 1) i ->
  narrowed L k (fst (halve mask (2 ^ k) (i, l))) /\ snd (halve mask (2 ^ k) (i, l)) = l + 2 ^ k * (L / 2 ^ k mod 2).
Proof.
  intros HL Hk [Hm Hs] [Ht Hp]. assert (Hpow : 0 < 2 ^ k) by lia.
  assert (Hj : u32 (s32 (Z.land (u32 i) mask)) = Z.land (u32 i) mask).
  { rewrite u32_s32. unfold u32. rewrite <- !Z.land_ones by done. by rewrite <- !Z.land_assoc, (Z.land_comm mask), !Z.land_assoc, <- (Z.land_assoc i), Z.land_diag. }
  assert (Hbit : forall q, 0 <= q < 32 -> Z.testbit mask q = true <-> q / 2 ^ k mod 2 = 1).
  { intros q Hq. rewrite Hs, <- Z.testbit_spec' by lia. destruct (Z.testbit q k); cbn; lia. }
  assert (Hdiv : forall q, q / 2 ^ (k + 1) = q / 2 ^ k / 2) by (intros q; rewrite Z.pow_add_r, <- Z.div_div by lia; done).
  assert (Hone : forall q, q / 2 ^ k mod 2 = 0 \/ q / 2 ^ k mod 2 = 1) by (intros q; pose proof (Z.mod_pos_bound (q / 2 ^ k) 2); lia).
  assert (Hup : forall q, q <= L -> q / 2 ^ k <= L / 2 ^ k) by (intros q Hq; by apply Z.div_le_mono).
  assert (Hpos : forall q, 0 <= q -> Z.testbit (u32 i) q = true -> 0 <= q < 32) by (intros q Hq Hb; destruct (Hp q Hq Hb); lia).
  pose proof (Hbit L HL) as HbL. specialize (Hdiv L) as HdL.
  unfold halve, narrowed. destruct (Z.eqb_spec (s32 (Z.land (u32 i) mask)) 0) as [E|E]; cbn [negb fst snd].
  - assert (Hz : forall q, 0 <= q -> Z.testbit (u32 i) q = true -> q / 2 ^ k mod 2 = 0).
    { intros q Hq Hb. destruct (Hone q) as [|H1]; [done|]. apply (Hbit q) in H1; [|auto]. rewrite E in Hj. apply (f_equal (fun z => Z.testbit z q)) in Hj.
      rewrite Z.land_spec, Hb, H1 in Hj. cbn [andb] in Hj. by rewrite Z.bits_0 in Hj. }
    pose proof (Hz L ltac:(lia) Ht). split; [|lia]. split; [done|]. intros p H0 Hb. destruct (Hp p H0 Hb) as [Hle Heq]. split; [done|].
    specialize (Hz p H0 Hb). rewrite (Hdiv p), HdL in Heq. Z.to_euclidean_division_equations; lia.
  - assert (H1 : L / 2 ^ k mod 2 = 1).
    { destruct (Hone L) as [H1|]; [exfalso|done].
      assert (Hnz : Z.land (u32 i) mask <> 0) by (intros E0; apply E; by rewrite E0).
      set (p := Z.log2 (Z.land (u32 i) mask)). assert (Hb : Z.testbit (Z.land (u32 i) mask) p = true).
      { apply Z.bit_log2. assert (0 <= Z.land (u32 i) mask) by (apply Z.land_nonneg; lia). lia. }
      rewrite Z.land_spec in Hb. apply andb_prop in Hb as [Hb Hm1]. assert (H0 : 0 <= p) by apply Z.log2_nonneg.
      destruct (Hp p H0 Hb) as [Hle Heq]. apply (Hbit p (Hpos p H0 Hb)) in Hm1. specialize (Hup p Hle). rewrite (Hdiv p), HdL in Heq.
      clear - H1 Hm1 Hup Heq. Z.to_euclidean_division_equations; lia. }
    rewrite Hj. split; [|lia]. split; [by rewrite Z.land_spec, Ht, (proj2 HbL H1)|]. intros p H0 Hb.
    rewrite Z.land_spec in Hb. apply andb_prop in Hb as [Hb Hm1]. destruct (Hp p H0 Hb) as [Hle Heq]. split; [done|].
    apply (Hbit p (Hpos p H0 Hb)) in Hm1. rewrite (Hdiv p), HdL in Heq. clear - H1 Hm1 Heq. Z.to_euclidean_division_equations; lia.
Qed.

(** The number of bits of an unsigned number. *)
Definition bits (z : Z) : Z := if z =? 0 then 0 else Z.log2 (u32 z) + 1.

Lemma selects_intro k mask : 0 <= mask < 2 ^ 32 -> Forall (fun p => Z.testbit mask p = Z.testbit p k) (seqZ 0 32) -> selects k mask.
Proof. intros Hm Hf. split; [done|]. by apply below. Qed.

(** The index is known from bit [k] up. *)
Definition index_from (L k : Z) (il : Z * Z) : Prop := narrowed L k (fst il) /\ snd il = 1 + 2 ^ k * (L / 2 ^ k).

Lemma halve_index L k mask il : 0 <= L < 32 -> 0 <= k -> selects k mask -> index_from L (k + 1) il -> index_from L k (halve mask (2 ^ k) il).
Proof.
  destruct il as [i l]. intros HL Hk Hs [Hn Hl]. cbn [fst snd] in *. destruct (halve_narrows L k mask i l HL Hk Hs Hn) as [Hn' Hl'].
  split; [done|]. rewrite Hl', Hl. rewrite Z.pow_add_r, <- Z.div_div by lia. change (2 ^ 1) with 2. pose proof (Z.div_mod (L / 2 ^ k) 2). lia.
Qed.

(** [ilog2] counts the bits of its argument as an unsigned number. *)
Theorem ilog2_bits z : is_s32 z -> ilog2 z = bits z.
Proof.
  intros Hz. unfold ilog2, bits. destruct (Z.eqb_spec z 0) as [->|Hnz]; [done|].
  assert (Hu : 0 < u32 z < 2 ^ 32) by (unfold u32, is_s32 in *; Z.to_euclidean_division_equations; lia).
  set (L := Z.log2 (u32 z)). assert (HL : 0 <= L < 32) by (split; [apply Z.log2_nonneg|apply Z.log2_lt_pow2; lia]).
  assert (N5 : index_from L 5 (z, 1)).
  { split; cbn [fst snd]; [|rewrite Z.div_small by lia; done]. split; [apply Z.bit_log2; lia|]. intros p H0 Hb. assert (p <= L).
    { apply Z.le_ngt. intros Hlt. by rewrite Z.bits_above_log2 in Hb by lia. }
    split; [done|]. rewrite !Z.div_small by lia. done. }
  assert (N0 : index_from L 0 (halve 0xaaaaaaaa (2 ^ 0) (halve 0xcccccccc (2 ^ 1) (halve 0xf0f0f0f0 (2 ^ 2) (halve 0xff00ff00 (2 ^ 3) (halve 0xffff0000 (2 ^ 4) (z, 1))))))).
  { do 5 (apply halve_index; [done|lia|apply selects_intro; [lia|repeat constructor]|]). exact N5. }
  destruct N0 as [_ E]. change (2 ^ 0) with 1 in E at 2 3. rewrite Z.div_1_r in E. rewrite (Z.add_comm L). rewrite <- (Z.mul_1_l L) at 1. exact E.
Qed.

(** ** The simulated machine by its registers *)

(** A machine with the general registers [g] and the special registers [T]. *)
Definition file (m : Machine.t) (g T : list Z) : Machine.t := set_registers m (g ++ T).

(** Without a pending load. *)
Definition sim (m : Machine.t) (g : list Z) (hi lo pc npc prev bad : Z) : Machine.t := file m g [hi; lo; pc; npc; prev; 0; 0; bad].

Section registers.
Context (m : Machine.t) (g T : list Z) (Hg : length g = 32%nat).

Lemma rreg_file r v : 0 <= r < 32 -> rd g r = Ok v -> rreg (file m g T) r = Ok v.
Proof.
  intros Hr Hv. unfold rreg. cbn [file registers set_registers]. apply rd_inv in Hv as [_ Hv]. apply rd_lookup; [lia|]. by apply lookup_app_l_Some.
Qed.

Lemma wreg_file r v : 0 <= r < 32 -> wreg (file m g T) r v = Ok (file m (<[Z.to_nat r := v]> g) T).
Proof.
  intros Hr. unfold wreg. cbn [file registers set_registers]. rewrite wr_ok by (rewrite length_app; lia). cbn [mbind outcome_bind].
  rewrite insert_app_l by lia. done.
Qed.

Lemma rreg_special n v : 32 <= n -> rd T (n - 32) = Ok v -> rreg (file m g T) n = Ok v.
Proof.
  intros Hn Hv. apply rd_inv in Hv as [_ Hv]. unfold rreg. cbn [file registers set_registers]. apply rd_lookup; [lia|].
  rewrite lookup_app_r by lia. rewrite <- Hv. f_equal. lia.
Qed.

Lemma wreg_special n v T' : 32 <= n -> wr T (n - 32) v = Ok T' -> wreg (file m g T) n v = Ok (file m g T').
Proof.
  intros Hn Hv. apply wr_inv in Hv as [Hl ->]. unfold wreg. cbn [file registers set_registers].
  rewrite wr_ok by (rewrite length_app; lia). cbn [mbind outcome_bind]. do 2 f_equal. unfold file. f_equal.
  rewrite insert_app_r_alt by lia. do 2 f_equal. lia.
Qed.

End registers.

Lemma retire_sim m g hi lo pc npc prev bad a : length g = 32%nat ->
  retire (sim m g hi lo pc npc prev bad) a 0 0 = Ok (sim m (<[0%nat := 0]> g) hi lo npc a pc bad).
Proof.
  intros Hg. unfold retire, DelayedLoad, sim.
  rewrite (rreg_special _ _ _ Hg LoadReg 0), (rreg_special _ _ _ Hg LoadValueReg 0) by done. cbn [mbind outcome_bind].
  rewrite wreg_file by done. cbn [mbind outcome_bind]. change (Z.to_nat 0) with 0%nat.
  assert (Hg1 : length (<[0%nat := 0]> g) = 32%nat) by (by rewrite length_insert).
  rewrite (wreg_special _ _ _ Hg1 LoadReg 0 [hi; lo; pc; npc; prev; 0; 0; bad]) by done. cbn [mbind outcome_bind].
  rewrite (wreg_special _ _ _ Hg1 LoadValueReg 0 [hi; lo; pc; npc; prev; 0; 0; bad]) by done. cbn [mbind outcome_bind].
  rewrite wreg_file by done. cbn [mbind outcome_bind]. change (Z.to_nat 0) with 0%nat. rewrite list_insert_insert_eq.
  rewrite (rreg_special _ _ _ Hg1 PCReg pc) by done. cbn [mbind outcome_bind].
  rewrite (wreg_special _ _ _ Hg1 PrevPCReg pc [hi; lo; pc; npc; pc; 0; 0; bad]) by done. cbn [mbind outcome_bind].
  rewrite (rreg_special _ _ _ Hg1 NextPCReg npc) by done. cbn [mbind outcome_bind].
  rewrite (wreg_special _ _ _ Hg1 PCReg npc [hi; lo; npc; npc; pc; 0; 0; bad]) by done. cbn [mbind outcome_bind].
  by rewrite (wreg_special _ _ _ Hg1 NextPCReg a [hi; lo; npc; a; pc; 0; 0; bad]) by done.
Qed.

(** ** The interpreter against the simulator *)

(** The words of a product are determined by it. *)
Lemma product_words hi lo hi' lo' : is_s32 lo -> is_s32 lo' ->
  hi * 2 ^ 32 + u32 lo = hi' * 2 ^ 32 + u32 lo' -> hi = hi' /\ lo = lo'.
Proof.
  intros Hl Hl' E. pose proof (u32_range lo) as Hr. pose proof (u32_range lo') as Hr'. unfold is_u32 in *.
  assert (hi = hi') as -> by lia. split; [done|]. assert (E' : u32 lo = u32 lo') by lia.
  apply (f_equal s32) in E'. by rewrite !s32_u32, !s32_small in E'.
Qed.

Lemma is_s32_mult a b : is_s32 a -> is_s32 b -> is_s32 (mult a b).2.
Proof. intros Ha Hb. unfold mult. destruct (a <? 0), (b <? 0); cbn [negb snd]; apply s32_range. Qed.

Lemma mult_right a b : is_s32 a -> is_s32 b -> (mult a b).1 * 2 ^ 32 + u32 (mult a b).2 = a * b -> Mult a b true = mult a b.
Proof.
  intros Ha Hb E. pose proof (Mult_words a b true Ha Hb) as HM. destruct (Mult a b true) as [hi lo], HM as (_ & Hlo & EM).
  pose proof (is_s32_mult a b Ha Hb) as Hlo'. destruct (mult a b) as [hi' lo']. cbn [fst snd] in *.
  destruct (product_words hi lo hi' lo') as [-> ->]; [done|done|lia|done].
Qed.

Lemma high_word_right a b : is_s32 a -> is_s32 b -> u32 (high_word a b) * 2 ^ 32 + u32 (a * b) = u32 a * u32 b ->
  Mult a b false = (high_word a b, s32 (a * b)).
Proof.
  intros Ha Hb E. pose proof (Mult_words a b false Ha Hb) as HM. destruct (Mult a b false) as [hi lo], HM as (Hhi & Hlo & EM).
  destruct (product_words (u32 hi) lo (u32 (high_word a b)) (s32 (a * b))) as [E1 ->]; [done|apply s32_range|rewrite u32_s32; lia|].
  apply (f_equal s32) in E1. rewrite !s32_u32, s32_small in E1 by done. rewrite E1. f_equal. apply s32_small. unfold high_word. cbv zeta. apply s32_range.
Qed.

(** The interpreter gets the products of numbers of 16 bits right. *)
Lemma high_word_small a b : 0 <= a < 2 ^ 16 -> 0 <= b < 2 ^ 16 -> high_word a b = 0.
Proof.
  intros Ha Hb. unfold high_word. rewrite !Z.shiftr_div_pow2, !Z.div_small by lia. rewrite !Z.land_0_l, !Z.mul_0_l. done.
Qed.

Lemma negated_product p : 0 <= p < 2 ^ 32 ->
  (if s32 (Z.lnot (s32 p) + 1) =? 0 then 0 else -1) * 2 ^ 32 + u32 (s32 (Z.lnot (s32 p) + 1)) = - p.
Proof.
  intros Hp. unfold Z.lnot. replace (Z.pred (- s32 p) + 1) with (- s32 p) by lia.
  assert (Eu : u32 (s32 (- s32 p)) = u32 (- p)).
  { rewrite u32_s32. unfold u32, s32. Z.to_euclidean_division_equations; lia. }
  destruct (Z.eqb_spec (s32 (- s32 p)) 0) as [E|E].
  - rewrite E in Eu. rewrite E. change (u32 0) with 0 in *. unfold u32 in Eu. Z.to_euclidean_division_equations; lia.
  - rewrite Eu. assert (p <> 0) by (intros ->; by apply E). unfold u32. Z.to_euclidean_division_equations; lia.
Qed.

Lemma mult_small a b : - 2 ^ 16 < a < 2 ^ 16 -> - 2 ^ 16 < b < 2 ^ 16 -> (mult a b).1 * 2 ^ 32 + u32 (mult a b).2 = a * b.
Proof.
  intros Ha Hb. unfold mult.
  destruct (Z.ltb_spec a 0), (Z.ltb_spec b 0); cbn [negb]; rewrite ?(s32_small (- a)), ?(s32_small (- b)) by (unfold is_s32; lia);
    rewrite high_word_small by lia; change (Z.lnot 0) with (-1); change (s32 (-1 + 1)) with 0; cbn [fst snd].
  - rewrite u32_s32, u32_small by (unfold is_u32; nia). lia.
  - rewrite negated_product by (unfold is_s32; nia). lia.
  - rewrite negated_product by (unfold is_s32; nia). lia.
  - rewrite u32_s32, u32_small by (unfold is_u32; nia). lia.
Qed.

(** The instructions on which they agree, with the values [a] and [b] of rs and
    rt: neither loads nor stores; OR where the simulator, which takes rs twice, is
    right, and a logical right shift where the simulator shifts no sign in; not
    where the simulator raises an exception or goes wrong, nor where the interpreter
    does: a multiplication is one whose two words the interpreter gets right.  A
    branch is not in the delay slot of another one, and a jump stays in its region. *)
Definition conforms (i : Instruction) (pc npc a b : Z) : Prop :=
  match opCode i with
  | OP_SLL | OP_SRA | OP_SLLV | OP_SRAV | OP_MFHI | OP_MFLO | OP_MTHI | OP_MTLO | OP_ADDU | OP_SUBU | OP_AND | OP_XOR | OP_NOR
  | OP_SLT | OP_SLTU | OP_ADDIU | OP_SLTI | OP_SLTIU | OP_LUI | OP_JR => True
  | OP_SRL => 0 <= b \/ extra i = 0
  | OP_SRLV => 0 <= b \/ Z.land a 0x1f = 0
  | OP_OR => Z.lor a b = a
  | OP_ADD => is_s32 (a + b)
  | OP_ADDI => is_s32 (a + extra i)
  | OP_SUB => is_s32 (a - b)
  | OP_ANDI | OP_ORI | OP_XORI => 0 <= extra i
  | OP_MULT => (mult a b).1 * 2 ^ 32 + u32 (mult a b).2 = a * b
  | OP_MULTU => u32 (high_word a b) * 2 ^ 32 + u32 (a * b) = u32 a * u32 b
  | OP_DIV => b <> 0 /\ ~ (a = - 2 ^ 31 /\ b = -1)
  | OP_DIVU => b <> 0
  | OP_BEQ | OP_BNE | OP_BLEZ | OP_BGTZ | OP_BLTZ | OP_BGEZ | OP_BLTZAL | OP_BGEZAL => npc = pc + 4
  | OP_J | OP_JAL => npc = pc + 4 /\ u32 pc / 2 ^ 28 = u32 (s32 (npc + 4)) / 2 ^ 28
  | OP_JALR => npc = pc + 4 /\ rd_ i <> rs i
  | _ => False
  end.

(** The interpreter and the simulator end an instruction with the same
    registers and the same next instruction but one. *)
Definition agree (m : Machine.t) (pc npc prev bad : Z) (s : t) (x : outcome result) (y : outcome (Machine.t * Mips.result)) : Prop :=
  exists s', x = Ok (Next s') /\ length (Reg s') = 32%nat /\ Interp.pc s' = Interp.pc s /\ mem s' = mem s /\
    y = Ok (sim m (Reg s') (HI s') (LO s') pc npc prev bad, inr (Interp.npc s', 0, 0)).

Section agreement.
Context (m : Machine.t) (pc npc prev bad : Z) (s : t).
Context (Hg : length (Reg s) = 32%nat).
Let M := sim m (Reg s) (HI s) (LO s) pc npc prev bad.
Let agrees := agree m pc npc prev bad s.

Lemma agree_assign s1 r v : Reg s1 = Reg s -> HI s1 = HI s -> LO s1 = LO s -> mem s1 = mem s -> Interp.pc s1 = Interp.pc s ->
  0 <= r < 32 -> agrees (assign s1 r v) (Mips.assign M (Interp.npc s1) r v).
Proof.
  intros E1 E2 E3 E4 E5 Hr. unfold assign, Mips.assign, M, sim. rewrite wr_ok by (rewrite E1; lia). rewrite wreg_file by done. cbn [mbind outcome_bind].
  eexists. split; [done|]. cbn [set_Reg Reg HI LO mem Interp.pc Interp.npc]. rewrite E1, E2, E3, length_insert. done.
Qed.

Lemma agree_next s1 : Reg s1 = Reg s -> HI s1 = HI s -> LO s1 = LO s -> mem s1 = mem s -> Interp.pc s1 = Interp.pc s ->
  agrees (next s1) (Mips.next M (Interp.npc s1)).
Proof. intros E1 E2 E3 E4 E5. eexists. split; [done|]. unfold M, Mips.next. rewrite E1, E2, E3. done. Qed.

(** HI and LO; the simulator writes LO and then HI. *)
Lemma agree_HILO hi lo : agrees (next (set_HILO s hi lo))
  (m ← wreg M LoReg lo; m ← wreg m HiReg hi; Mips.next m (Interp.npc s)).
Proof.
  unfold M, sim. rewrite (wreg_special _ _ _ Hg LoReg lo [HI s; lo; pc; npc; prev; 0; 0; bad]) by done. cbn [mbind outcome_bind].
  rewrite (wreg_special _ _ _ Hg HiReg hi [hi; lo; pc; npc; prev; 0; 0; bad]) by done. cbn [mbind outcome_bind]. eexists. by split.
Qed.

(** The same for a multiplication, where it writes HI first. *)
Lemma agree_product hi lo : agrees (next (set_HILO s hi lo))
  (m ← wreg M HiReg hi; Mips.assign m (Interp.npc s) LoReg lo).
Proof.
  unfold M, sim, Mips.assign. rewrite (wreg_special _ _ _ Hg HiReg hi [hi; LO s; pc; npc; prev; 0; 0; bad]) by done. cbn [mbind outcome_bind].
  rewrite (wreg_special _ _ _ Hg LoReg lo [hi; lo; pc; npc; prev; 0; 0; bad]) by done. cbn [mbind outcome_bind]. eexists. by split.
Qed.

Lemma agree_HI v : agrees (next (set_HILO s v (LO s))) (Mips.assign M (Interp.npc s) HiReg v).
Proof. unfold Mips.assign, M, sim. rewrite (wreg_special _ _ _ Hg HiReg v [v; LO s; pc; npc; prev; 0; 0; bad]) by done. eexists. by split. Qed.

Lemma agree_LO v : agrees (next (set_HILO s (HI s) v)) (Mips.assign M (Interp.npc s) LoReg v).
Proof. unfold Mips.assign, M, sim. rewrite (wreg_special _ _ _ Hg LoReg v [HI s; v; pc; npc; prev; 0; 0; bad]) by done. eexists. by split. Qed.

(** A branch, and the address it links. *)
Lemma agree_branch w (c c' : bool) : c' = c -> npc = pc + 4 -> agrees (branch w pc s c)
  (np ← rreg M NextPCReg; Mips.next M (if c' then s32 (np + IndexToAddr (immed w)) else Interp.npc s)).
Proof.
  intros -> Hn. unfold M, sim. rewrite (rreg_special _ _ _ Hg NextPCReg npc) by done. cbn [mbind outcome_bind]. unfold branch.
  destruct c; (eexists; split; [done|]); [|done]. cbn [set_npc Reg HI LO mem Interp.pc Interp.npc]. split; [done|]. split; [done|]. split; [done|].
  unfold Mips.next. do 5 f_equal. rewrite Hn. done.
Qed.

End agreement.

Section instructions.
Context (m : Machine.t) (pc npc prev bad : Z) (s : t).
Context (Hg : length (Reg s) = 32%nat).
Let M := sim m (Reg s) (HI s) (LO s) pc npc prev bad.
Let agrees := agree m pc npc prev bad s.
Context (w a b : Z) (Ha : is_s32 a) (Hb : is_s32 b).
Context (Ea : rd (Reg s) (i_rs w) = Ok a) (Eb : rd (Reg s) (i_rt w) = Ok b).

Lemma register_field (k : Z) : 0 <= Z.land (Z.shiftr w k) 0x1f < 32.
Proof. exact (land_mask_range _ 5 ltac:(done)). Qed.

Lemma sim_rs : rreg M (i_rs w) = Ok a.
Proof. apply rreg_file; [done|apply register_field|done]. Qed.
Lemma sim_rt : rreg M (i_rt w) = Ok b.
Proof. apply rreg_file; [done|apply register_field|done]. Qed.

(** JALR: the simulator reads rs after it has written rd. *)
Lemma agree_jalr : npc = pc + 4 -> i_rd w <> i_rs w -> agrees (assign (set_npc s a) (i_rd w) (s32 (pc + 8)))
  (np ← rreg M NextPCReg; m ← wreg M (i_rd w) (s32 (np + 4)); a ← rreg m (i_rs w); Mips.next m a).
Proof.
  intros Hn Hne. unfold M, sim. rewrite (rreg_special _ _ _ Hg NextPCReg npc) by done. cbn [mbind outcome_bind].
  rewrite wreg_file by (done || apply register_field). cbn [mbind outcome_bind]. pose proof (register_field 11) as H1. pose proof (register_field 21) as H2.
  rewrite (rreg_file _ _ _ ltac:(by rewrite length_insert) (i_rs w) a); [|done|].
  2:{ apply rd_inv in Ea as [_ E]. apply rd_lookup; [apply H2|]. rewrite list_lookup_insert_ne; [done|]. unfold i_rd, i_rs in *. lia. }
  cbn [mbind outcome_bind]. unfold assign. cbn [set_npc Reg]. rewrite wr_ok by (unfold i_rd; lia). cbn [mbind outcome_bind]. eexists. split; [done|].
  cbn [set_Reg set_npc Reg HI LO mem Interp.pc Interp.npc]. rewrite length_insert. split; [done|]. split; [done|]. split; [done|].
  unfold Mips.next, sim. replace (npc + 4) with (pc + 8) by lia. done.
Qed.

(** Logical shifts of words that are not negative. *)
Lemma logical_shift k : 0 <= b \/ k = 0 -> 0 <= k -> s32 (Z.shiftr (u32 b) k) = Z.shiftr b k.
Proof.
  intros [H0| ->] Hk; [|by rewrite !Z.shiftr_0_r, s32_u32, s32_small].
  rewrite u32_small by (unfold is_u32, is_s32 in *; lia). apply s32_small. by apply is_s32_shr.
Qed.

(** Evaluate both sides on the operands. *)
Ltac operands := unfold rr; cbn [opCode fields Mips.rs Mips.rt rd_ extra]; rewrite ?Ea, ?Eb; cbn [mbind outcome_bind];
  rewrite ?sim_rs, ?sim_rt; cbn [mbind outcome_bind].
Ltac by_assign := apply agree_assign; [done|done|done|done|done|done|apply register_field].

Lemma special_agrees op : specialTable !! Z.to_nat (Z.land w 0x3f) = Some op -> conforms (fields op w (i_shamt w)) pc npc a b ->
  agrees (special w pc s) (Mips.execute (fields op w (i_shamt w)) M (Interp.npc s)).
Proof.
  intros Hop Hc. unfold special. set (f := Z.land w 0x3f) in *.
  assert (Hf : 0 <= f < 64) by exact (land_mask_range _ 6 ltac:(done)). clearbody f. revert f Hf Hop.
  refine (below 64 _ _). change (seqZ 0 64) with (ltac:(let l := eval vm_compute in (seqZ 0 64) in exact l)).
  repeat (apply list.Forall_cons; split; [intros [= <-]; try (exfalso; exact Hc); unfold conforms in Hc; cbn [opCode fields rd_ Mips.rs extra] in Hc; unfold Mips.execute; operands; try by_assign|]); [..|constructor].
  - rewrite logical_shift; [by_assign|exact Hc|apply register_field].
  - rewrite logical_shift; [by_assign|exact Hc|apply shift_count].
  - by apply (agree_next m pc npc prev bad s Hg (set_npc s a)).
  - destruct Hc as [Hn Hne]. apply agree_jalr; done.
  - unfold M, sim. rewrite (rreg_special _ _ _ Hg HiReg (HI s)) by done. by_assign.
  - by apply agree_HI.
  - unfold M, sim. rewrite (rreg_special _ _ _ Hg LoReg (LO s)) by done. by_assign.
  - by apply agree_LO.
  - rewrite (mult_right a b) by done. destruct (mult a b) as [hi lo]. apply (agree_product m pc npc prev bad s Hg hi lo).
  - rewrite (high_word_right a b) by done. apply (agree_product m pc npc prev bad s Hg).
  - destruct Hc as [H0 H1]. rewrite (proj2 (Z.eqb_neq b 0)) by done. cbn [orb].
    assert (E : (a =? - 2 ^ 31) && (b =? -1) = false).
    { destruct (Z.eqb_spec a (- 2 ^ 31)), (Z.eqb_spec b (-1)); try done. exfalso. by apply H1. }
    rewrite E. by apply agree_HILO.
  - rewrite (proj2 (Z.eqb_neq (u32 b) 0)); [by apply agree_HILO|]. unfold u32, is_s32 in *. Z.to_euclidean_division_equations; lia.
  - rewrite add_overflow, bool_decide_true by auto. cbn [negb]. by_assign.
  - rewrite sub_overflow, bool_decide_true by auto. cbn [negb]. by_assign.
  - rewrite Hc, Z.lor_diag. by_assign.
Qed.

(** A branch that links: both write register 31 before they read rs. *)
Lemma agree_link (c c' : Z -> bool) : (forall x, is_s32 x -> c' x = c x) -> npc = pc + 4 ->
  agrees (s ← link s pc; x ← rr s (i_rs w); branch w pc s (c x))
    (np ← rreg M NextPCReg; m ← wreg M R31 (s32 (np + 4)); x ← rreg m (i_rs w);
     np ← rreg m NextPCReg; Mips.next m (if c' x then s32 (np + IndexToAddr (immed w)) else Interp.npc s)).
Proof.
  intros Hcc Hn. unfold M, sim. rewrite (rreg_special _ _ _ Hg NextPCReg npc) by done. cbn [mbind outcome_bind].
  rewrite wreg_file by done. cbn [mbind outcome_bind]. unfold link. rewrite wr_ok by lia. cbn [mbind outcome_bind].
  replace (npc + 4) with (pc + 8) by lia. set (g := <[Z.to_nat 31 := s32 (pc + 8)]> (Reg s)). change (<[Z.to_nat R31 := s32 (pc + 8)]> (Reg s)) with g.
  assert (Hlen : length g = 32%nat) by (unfold g; by rewrite length_insert). pose proof (register_field 21) as H2.
  assert (Hx : exists x, rd g (i_rs w) = Ok x /\ is_s32 x).
  { destruct (decide (Z.to_nat (i_rs w) = Z.to_nat 31)) as [E|E].
    - exists (s32 (pc + 8)). split; [|apply s32_range]. apply rd_lookup; [apply H2|]. unfold g. rewrite E. apply list_lookup_insert_eq. lia.
    - exists a. split; [|done]. apply rd_inv in Ea as [_ E1]. apply rd_lookup; [apply H2|]. unfold g. by rewrite list_lookup_insert_ne. }
  destruct Hx as (x & Ex & Hx). unfold rr at 1. cbn [set_Reg Reg]. rewrite Ex. cbn [mbind outcome_bind].
  rewrite (rreg_file _ _ _ Hlen (i_rs w) x H2 Ex). cbn [mbind outcome_bind].
  exact (agree_branch m pc npc prev bad (set_Reg s g) Hlen w (c x) (c' x) (Hcc x Hx) Hn).
Qed.

Lemma bcond_agrees : conforms (fields (bcond_op (i_rt w)) w (immed w)) pc npc a b ->
  agrees (bcond w pc s) (Mips.execute (fields (bcond_op (i_rt w)) w (immed w)) M (Interp.npc s)).
Proof.
  intros Hc. unfold bcond, bcond_op in *. destruct (Z.eqb_spec (i_rt w) 0) as [E|_]; [|destruct (Z.eqb_spec (i_rt w) 1) as [E|_];
    [|destruct (Z.eqb_spec (i_rt w) 16) as [E|_]; [|destruct (Z.eqb_spec (i_rt w) 17) as [E|_]; [|exfalso; exact Hc]]]].
  all: rewrite E; unfold conforms in Hc; cbn [opCode fields] in Hc; unfold Mips.execute; cbn [opCode fields Mips.rs extra]; cbv beta zeta.
  - operands. apply agree_branch; [done|by apply sign_bit_spec|done].
  - operands. apply agree_branch; [done| |done]. rewrite sign_bit_spec by done. by rewrite Z.geb_leb, Z.leb_antisym.
  - apply (agree_link (fun x => x <? 0) sign_bit); [by apply sign_bit_spec|done].
  - apply (agree_link (fun x => x >=? 0) (fun x => negb (sign_bit x))); [|done]. intros x Hx. rewrite sign_bit_spec by done. by rewrite Z.geb_leb, Z.leb_antisym.
Qed.

Lemma low_half_shift : s32 (Z.shiftl (immed w) 16) = s32 (Z.shiftl w 16).
Proof.
  rewrite !Z.shiftl_mul_pow2 by done. rewrite immed_low16. apply s32_eq_mod. unfold low16. Z.to_euclidean_division_equations; lia.
Qed.

Lemma small_imm : 0 <= immed w -> Z.land (immed w) 0xffff = immed w.
Proof. intros H0. change 0xffff with (Z.ones 16). rewrite Z.land_ones, Z.mod_small; [done| |done]. rewrite immed_low16 in *. pose proof (low16_range w). lia. Qed.

Lemma is_s32_immed : is_s32 (immed w).
Proof. rewrite immed_low16. pose proof (low16_range w). unfold is_s32. lia. Qed.

Context (Hnext : Interp.npc s = s32 (npc + 4)).

(** The target of a jump that stays in its region. *)
Lemma jump_targets : u32 pc / 2 ^ 28 = u32 (s32 (npc + 4)) / 2 ^ 28 ->
  s32 (Z.lor (Z.land (u32 (Interp.npc s)) 0xf0000000) (u32 (IndexToAddr (Z.land w (2 ^ 26 - 1))))) = jump_target w pc.
Proof.
  intros Hr. unfold jump_target. rewrite Hnext, !region_mask, <- Hr. unfold IndexToAddr. rewrite u32_s32. done.
Qed.

Lemma agree_jump : npc = pc + 4 -> u32 pc / 2 ^ 28 = u32 (s32 (npc + 4)) / 2 ^ 28 ->
  agrees (s ← link s pc; next (set_npc s (jump_target w pc)))
    (np ← rreg M NextPCReg; m ← wreg M R31 (s32 (np + 4));
     Mips.next m (s32 (Z.lor (Z.land (u32 (Interp.npc s)) 0xf0000000) (u32 (IndexToAddr (Z.land w (2 ^ 26 - 1))))))).
Proof.
  intros Hn Hr. rewrite jump_targets by done. unfold M, sim. rewrite (rreg_special _ _ _ Hg NextPCReg npc) by done. cbn [mbind outcome_bind].
  rewrite wreg_file by done. cbn [mbind outcome_bind]. unfold link. rewrite wr_ok by lia. cbn [mbind outcome_bind]. replace (npc + 4) with (pc + 8) by lia.
  eexists. split; [done|]. cbn [set_Reg set_npc Reg HI LO mem Interp.pc Interp.npc]. rewrite length_insert. done.
Qed.

Lemma immediate_agrees o op fmt : 2 <= o <= 15 -> opTable !! Z.to_nat o = Some (op, fmt) ->
  let i := fields op w (match fmt with JFMT => Z.land w (2 ^ 26 - 1) | _ => immed w end) in
  conforms i pc npc a b -> agrees (immediate w pc o s) (Mips.execute i M (Interp.npc s)).
Proof.
  intros Ho Hop i Hc. subst i. assert (Ho' : o ∈ [2; 3; 4; 5; 6; 7; 8; 9; 10; 11; 12; 13; 14; 15]).
  { rewrite !elem_of_cons. lia. }
  repeat (apply elem_of_cons in Ho' as [-> | Ho']; [injection Hop as <- <-; unfold conforms in Hc; cbn [opCode fields extra] in Hc;
    unfold Mips.execute, immediate; cbv beta zeta; operands; try by_assign|]); [..|by apply elem_of_nil in Ho'].
  - rewrite jump_targets by (by destruct Hc). by apply (agree_next m pc npc prev bad s Hg (set_npc s (jump_target w pc))).
  - destruct Hc. by apply agree_jump.
  - by apply agree_branch.
  - by apply agree_branch.
  - by apply agree_branch.
  - by apply agree_branch.
  - rewrite add_overflow, bool_decide_true by auto using is_s32_immed. cbn [negb]. by_assign.
  - rewrite small_imm by done. by_assign.
  - rewrite small_imm by done. by_assign.
  - rewrite small_imm by done. by_assign.
  - rewrite low_half_shift. by_assign.
Qed.

End instructions.

(** The other opcodes are not compared. *)
Lemma no_conforming_memory pc npc a b w e : forall o, 0 <= o < 64 -> forall op fmt, opTable !! Z.to_nat o = Some (op, fmt) ->
  conforms (fields op w e) pc npc a b -> o <= 15.
Proof.
  refine (below 64 _ _). change (seqZ 0 64) with (ltac:(let l := eval vm_compute in (seqZ 0 64) in exact l)).
  repeat (apply list.Forall_cons; split; [intros op fmt [= <- <-] Hc; try (exfalso; exact Hc); lia|]). constructor.
Qed.

(** The instruction after the fetch, for any word but 0. *)
Lemma execute_agrees m s v i a b pc npc prev bad : length (Reg s) = 32%nat -> is_u32 v -> Decode v = Ok i ->
  rd (Reg s) (Mips.rs i) = Ok a -> rd (Reg s) (Mips.rt i) = Ok b -> is_s32 a -> is_s32 b -> Interp.npc s = s32 (npc + 4) -> conforms i pc npc a b ->
  agree m pc npc prev bad s (execute (s32 v) pc s) (Mips.execute i (sim m (Reg s) (HI s) (LO s) pc npc prev bad) (Interp.npc s)).
Proof.
  intros Hg Hv Hd Ea Eb Ha Hb Hn Hc. destruct (Decode_fields v i Hv Hd) as (op & fmt & Ho & Eo & Hi). unfold execute.
  assert (Eop : Z.land (Z.shiftr (s32 v) 26) 0x3f = Z.shiftr (u32 (s32 v)) 26) by (rewrite op_field by done; by apply (field_s32 v 26 6)).
  rewrite Eop. pose proof (group_entries _ Ho op fmt Eo) as Hgr. destruct (decide (op = SPECIAL)) as [->|Hs]; [|destruct (decide (op = BCOND)) as [->|Hbc]].
  - destruct Hgr as [-> _]. cbn [Z.eqb]. destruct Hi as (op' & Es & ->). by apply (special_agrees m pc npc prev bad s Hg (s32 v) a b).
  - destruct Hgr as [-> _]. cbn [Z.eqb Pos.eqb]. subst i. by apply (bcond_agrees m pc npc prev bad s Hg (s32 v) a b).
  - assert (Hg' : Z.shiftr (u32 (s32 v)) 26 <> 0 /\ Z.shiftr (u32 (s32 v)) 26 <> 1) by (destruct op; (tauto || congruence)).
    rewrite (proj2 (Z.eqb_neq _ 0)), (proj2 (Z.eqb_neq _ 1)) by tauto.
    assert (Ei : i = fields op (s32 v) (match fmt with JFMT => Z.land (s32 v) (2 ^ 26 - 1) | _ => immed (s32 v) end)) by (by destruct op).
    subst i. pose proof (no_conforming_memory _ _ _ _ _ _ _ Ho op fmt Eo Hc) as Hle. rewrite (proj2 (Z.leb_le _ 15)) by done.
    by apply (immediate_agrees m pc npc prev bad s Hg (s32 v) a b); [..|lia| |].
Qed.

(** The same for the word 0, which the interpreter does not look at. *)
Lemma step_agrees m s v i a b pc npc prev bad : length (Reg s) = 32%nat -> Reg s !! 0%nat = Some 0 -> is_u32 v -> Decode v = Ok i ->
  rd (Reg s) (Mips.rs i) = Ok a -> rd (Reg s) (Mips.rt i) = Ok b -> is_s32 a -> is_s32 b -> Interp.npc s = s32 (npc + 4) -> conforms i pc npc a b ->
  agree m pc npc prev bad s (if negb (s32 v =? 0) then execute (s32 v) pc s else next s)
    (Mips.execute i (sim m (Reg s) (HI s) (LO s) pc npc prev bad) (Interp.npc s)).
Proof.
  intros Hg H0 Hv Hd Ea Eb Ha Hb Hn Hc. destruct (Z.eqb_spec (s32 v) 0) as [E0|_]; [|by apply (execute_agrees m s v i a b)]. cbn [negb].
  assert (v = 0) as -> by (apply (f_equal u32) in E0; by rewrite u32_s32, u32_small in E0).
  change (Decode 0) with (Ok (mkInstr 0 OP_SLL 0 0 0 0)) in Hd. injection Hd as <-. exists s. do 4 (split; [done|]).
  unfold Mips.execute, Mips.assign. cbn [opCode Mips.rt rd_ extra]. unfold sim.
  rewrite (rreg_file _ _ _ Hg 0 0) by (done || by apply rd_lookup). cbn [mbind outcome_bind]. rewrite wreg_file by done. cbn [mbind outcome_bind].
  change (s32 (Z.shiftl 0 0)) with 0. by rewrite list_insert_id.
Qed.

(** A read that is answered does not look at the registers. *)
Lemma ReadMem_registers m m' rs addr size v : ReadMem m addr size = Ok (m', inr v) ->
  ReadMem (set_registers m rs) addr size = Ok (set_registers m' rs, inr v).
Proof.
  assert (HF : forall es i put put' pa m1, finish_translate m es i put addr size false = Ok (m1, inr pa) ->
    (forall es, put' es = set_registers (put es) rs) ->
    finish_translate (set_registers m rs) es i put' addr size false = Ok (set_registers m1 rs, inr pa)).
  { intros es i put put' pa m1 E Hp. unfold finish_translate in *. destruct (rd es i) as [e|]; cbn [mbind outcome_bind] in *; [|done].
    rewrite andb_false_r in *. case_match; [done|]. destruct (wr es i (touch e false)); cbn [mbind outcome_bind] in *; [|done].
    destruct (ASSERT _) as [?|]; cbn [mbind outcome_bind] in *; [|done]. injection E as <- <-. by rewrite Hp. }
  assert (HT : forall pa m1, Translate m addr size false = Ok (m1, inr pa) -> Translate (set_registers m rs) addr size false = Ok (set_registers m1 rs, inr pa)).
  { intros pa m1. unfold Translate. cbn [set_registers tlb pageTable pageTableSize]. case_match; [done|].
    destruct (tlb m), (pageTable m); try done; intros E.
    - destruct (tlb_find _ _ _ _) as [[i|]|]; cbn [mbind outcome_bind] in *; [|done|done]. by eapply HF.
    - case_match; [done|]. destruct (rd _ _) as [e|]; cbn [mbind outcome_bind] in *; [|done]. case_match; [done|]. by eapply HF. }
  unfold ReadMem, ReadMem_on. intros E. destruct (Translate m addr size false) as [[m1 [e|pa]]|] eqn:ET; cbn [mbind outcome_bind] in E; [|..|done].
  { by destruct (raise_entry m1 addr). }
  rewrite (HT _ _ eq_refl). cbn [mbind outcome_bind]. unfold mem_bytes in *. cbn [set_registers mainMemory].
  repeat case_match; try done; cbn [mbind outcome_bind] in *; by injection E as <- <-.
Qed.

(** Fetch and decode. *)
Lemma OneInstruction_fetch m m' g hi lo pc npc prev bad v i : length g = 32%nat -> is_u32 v -> ReadMem m pc 4 = Ok (m', inr (s32 v)) -> Decode v = Ok i ->
  OneInstruction (sim m g hi lo pc npc prev bad) =
    '(m, r) ← Mips.execute i (sim m' g hi lo pc npc prev bad) (s32 (npc + 4));
    match r with
    | inl e => Ok (m, Some e)
    | inr (pcAfter, nextLoadReg, nextLoadValue) => m ← retire m pcAfter nextLoadReg nextLoadValue; Ok (m, None)
    end.
Proof.
  intros Hg Hv Hr Hd. unfold OneInstruction. set (M := sim m g hi lo pc npc prev bad). set (M1 := sim m' g hi lo pc npc prev bad).
  assert (rreg M PCReg = Ok pc) as -> by (by apply rreg_special). cbn [mbind outcome_bind].
  assert (ReadMem M pc 4 = Ok (M1, inr (s32 v))) as -> by (by apply ReadMem_registers). cbn [mbind outcome_bind].
  rewrite u32_s32, (u32_small v), Hd by done. cbn [mbind outcome_bind].
  assert (rreg M1 NextPCReg = Ok npc) as -> by (by apply rreg_special). done.
Qed.


(** [addu $3, $1, $2] and [mult $1, $2] with 5 and -7 in the operands; the machine
    finds the page of the interpreter's first address in its TLB. *)
Definition demo (w : list Z) : t := mk ([9; 5; -7] ++ replicate 29 0) 0 0 w memoffset (memoffset + 4).
Definition demo_machine (w : list Z) (used : bool) : Machine.t :=
  Machine.mk w [] (Some [mkEntry 0x80000 0 true false used false; mkEntry 0 0 false false false false;
                         mkEntry 0 0 false false false false; mkEntry 0 0 false false false false]) None 0 false 0.


End Interp.
