(* ===== verification/DiskSim.v ===== *)
(** * machine/disk.{h,cc}, filesys/synchdisk.{h,cc}: the disk

    [Disk.t] is class [Disk]: the UNIX file that holds the magic number and the
    sectors, as bytes, and the position of the simulated head.  [SynchDisk.t]
    adds the clock of [stats]; its [ReadSector] and [WriteSector] issue the
    request, wait for the completion interrupt (the clock moves by the latency
    that was scheduled) and return: a call is one step.  The lock around it is
    empty in threads/synch.cc, so two threads in these calls at once could meet
    [ASSERT(!active)]; only calls one after the other are modelled, and the clock
    is not bounded.  The file system above is written against
    the interface [BlockDevice] of numbered sectors; the file ends with the
    instance for [SynchDisk.t]. *)

From S2P Require Import Prelude.

Local Open Scope Z_scope.

Module Disk.

Definition SectorSize : Z := 512.
Definition SectorsPerTrack : Z := 32.
Definition NumTracks : Z := 32.
Definition NumSectors : Z := SectorsPerTrack * NumTracks.
Definition MagicNumber : Z := 0x456789ab.
Definition MagicSize : Z := 4.
Definition DiskSize : Z := MagicSize + NumSectors * SectorSize.
Definition RotationTime : Z := 500.
Definition SeekTime : Z := 500.

Record t := mk {
  file : list Z;       (* the contents of the UNIX file, as bytes *)
  active : bool;       (* is a disk operation in progress? *)
  lastSector : Z;      (* the previous disk request *)
  bufferInit : Z;      (* when the track buffer started being loaded *)
}.

(** [Disk::Disk]: an existing file must start with the magic number; a new one
    is given it and is extended to its full size (UNIX fills with zeros). *)
Definition Disk_new (existing : option (list Z)) : outcome t :=
  f ← (match existing with
       | Some bytes =>
           _ ← ASSERT (MagicSize <=? Z.of_nat (length bytes));
           _ ← ASSERT (le_value (take (Z.to_nat MagicSize) bytes) =? MagicNumber);
           Ok bytes
       | None =>
           Ok (le_bytes (Z.to_nat MagicSize) MagicNumber ++
               replicate (Z.to_nat (DiskSize - MagicSize)) 0)
       end);
  Ok (mk f false 0 0).

(** The time to move the head, and to the next sector boundary after that;
    [totalTicks] is the clock [stats->totalTicks]. *)
Definition TimeToSeek (d : t) (totalTicks newSector : Z) : Z * Z :=
  let newTrack := Z.quot newSector SectorsPerTrack in
  let oldTrack := Z.quot (lastSector d) SectorsPerTrack in
  let seek := Z.abs (newTrack - oldTrack) * SeekTime in
  let over := Z.rem (totalTicks + seek) RotationTime in
  (seek, if over >? 0 then RotationTime - over else 0).

Definition ModuloDiff (to from : Z) : Z :=
  let toOffset := Z.rem to SectorsPerTrack in
  let fromOffset := Z.rem from SectorsPerTrack in
  Z.rem ((toOffset - fromOffset) + SectorsPerTrack) SectorsPerTrack.

Definition ComputeLatency (d : t) (totalTicks newSector : Z) (writing : bool) : Z :=
  let '(seek, rotation) := TimeToSeek d totalTicks newSector in
  let timeAfter := totalTicks + seek + rotation in
  if negb writing && (seek =? 0) &&
     (Z.quot (timeAfter - bufferInit d) RotationTime >?
      ModuloDiff newSector (Z.quot (bufferInit d) RotationTime))
  then RotationTime
  else
    let rotation := rotation + ModuloDiff newSector (Z.quot timeAfter RotationTime) * RotationTime in
    seek + rotation + RotationTime.

Definition UpdateLast (d : t) (totalTicks newSector : Z) : t :=
  let '(seek, rotate) := TimeToSeek d totalTicks newSector in
  mk (file d) (active d) newSector
     (if negb (seek =? 0) then totalTicks + seek + rotate else bufferInit d).

Definition in_range (sectorNumber : Z) : bool :=
  (sectorNumber >=? 0) && (sectorNumber <? NumSectors).

(** [Lseek] to the sector and [Read] or [WriteFile] of a whole sector, which
    abort unless all of it is transferred. *)
Definition file_offset (sectorNumber : Z) : Z := SectorSize * sectorNumber + MagicSize.
Definition Read (d : t) (sectorNumber : Z) : outcome (list Z) :=
  let bs := slice (file d) (Z.to_nat (file_offset sectorNumber)) (Z.to_nat SectorSize) in
  _ ← ASSERT (Z.of_nat (length bs) =? SectorSize); Ok bs.
Definition WriteFile (d : t) (sectorNumber : Z) (data : list Z) : outcome t :=
  if SectorSize <=? Z.of_nat (length data) then
    Ok (mk (splice (file d) (Z.to_nat (file_offset sectorNumber)) (take (Z.to_nat SectorSize) data))
           (active d) (lastSector d) (bufferInit d))
  else Fault BadAccess.

Definition set_active (d : t) (b : bool) : t := mk (file d) b (lastSector d) (bufferInit d).

(** The answer is the data and the delay after which the interrupt comes. *)
Definition ReadRequest (d : t) (totalTicks sectorNumber : Z) : outcome (list Z * Z * t) :=
  let ticks := ComputeLatency d totalTicks sectorNumber false in
  _ ← ASSERT (negb (active d));
  _ ← ASSERT (in_range sectorNumber);
  data ← Read d sectorNumber;
  Ok (data, ticks, UpdateLast (set_active d true) totalTicks sectorNumber).

Definition WriteRequest (d : t) (totalTicks sectorNumber : Z) (data : list Z) : outcome (Z * t) :=
  let ticks := ComputeLatency d totalTicks sectorNumber true in
  _ ← ASSERT (negb (active d));
  _ ← ASSERT (in_range sectorNumber);
  d ← WriteFile d sectorNumber data;
  Ok (ticks, UpdateLast (set_active d true) totalTicks sectorNumber).

(** [Disk::HandleInterrupt] before it calls the handler. *)
Definition HandleInterrupt (d : t) : t := set_active d false.

(** ** The head is over the sector when a request completes *)

Lemma TimeToSeek_spec d now s :
  0 <= now -> let '(seek, rot) := TimeToSeek d now s in
  0 <= seek /\ 0 <= rot < RotationTime /\ (now + seek + rot) mod RotationTime = 0.
Proof.
  intros Hn. unfold TimeToSeek. set (k := Z.abs _ * SeekTime).
  assert (0 <= k) by (unfold k, SeekTime; lia).
  rewrite Z.rem_mod_nonneg by (unfold RotationTime; lia). rewrite Z.gtb_ltb.
  unfold RotationTime in *. split; [done|].
  destruct (Z.ltb_spec 0 ((now + k) mod 500)); Z.to_euclidean_division_equations; lia.
Qed.

Lemma ModuloDiff_spec to from :
  0 <= to -> 0 <= from ->
  0 <= ModuloDiff to from < SectorsPerTrack /\
  (from + ModuloDiff to from) mod SectorsPerTrack = to mod SectorsPerTrack.
Proof.
  intros. unfold ModuloDiff, SectorsPerTrack. Z.to_euclidean_division_equations; lia.
Qed.

(** The latency the disk schedules is never less than the transfer of one
    sector, and a request that is not served from the track buffer completes
    exactly when the requested sector has passed under the head: at a sector
    boundary, right after a position congruent to the sector on its track. *)
Theorem ComputeLatency_positions_head d now s writing :
  0 <= now -> 0 <= s < NumSectors ->
  let latency := ComputeLatency d now s writing in
  RotationTime <= latency /\
  (latency = RotationTime /\ writing = false \/
   (now + latency) mod RotationTime = 0 /\
   ((now + latency) / RotationTime - 1) mod SectorsPerTrack = s mod SectorsPerTrack).
Proof.
  intros Hn Hs latency. subst latency. unfold ComputeLatency.
  pose proof (TimeToSeek_spec d now s Hn) as H. destruct TimeToSeek as [seek rot].
  destruct H as (Hseek & Hrot & Hmod).
  destruct (negb writing && (seek =? 0) && _) eqn:E.
  - split; [done|]. left. split; [done|]. by destruct writing.
  - rewrite Z.quot_div_nonneg by (unfold RotationTime; lia).
    destruct (ModuloDiff_spec s ((now + seek + rot) / RotationTime)) as [Hr Hd];
      [lia|apply Z.div_pos; unfold RotationTime; lia|].
    set (k := ModuloDiff s ((now + seek + rot) / RotationTime)) in *.
    unfold RotationTime in *. split; [lia|]. right.
    replace (now + (seek + (rot + k * 500) + 500)) with ((now + seek + rot) + (k + 1) * 500) by lia.
    rewrite Z_mod_plus_full. split; [done|].
    rewrite Z.div_add by lia. rewrite <- Hd. f_equal. lia.
Qed.

(** C28 for a write from sector 0 to sector 100 at time 1234. *)
Lemma ComputeLatency_positions_head_witness :
  let d := mk [] false 0 0 in
  let latency := ComputeLatency d 1234 100 true in
  RotationTime <= latency /\
  (latency = RotationTime /\ true = false \/
   (1234 + latency) mod RotationTime = 0 /\
   ((1234 + latency) / RotationTime - 1) mod SectorsPerTrack = 100 mod SectorsPerTrack).
Proof. apply (ComputeLatency_positions_head (mk [] false 0 0) 1234 100 true); unfold NumSectors, SectorsPerTrack, NumTracks; lia. Defined.

End Disk.

(** ** The interface of a block device *)

Import Disk.

(** Numbered sectors of [SectorSize] bytes; an operation on a number out of
    range is an assertion failure. *)
Class BlockDevice (D : Type) := {
  bd_wf : D -> Prop;
  bd_sectors : D -> list (list Z);
  bd_read : D -> Z -> outcome (list Z * D);
  bd_write : D -> Z -> list Z -> outcome D;
}.

Class BlockDeviceLaws (D : Type) `{BlockDevice D} := {
  bd_shape (d : D) : bd_wf d ->
    Z.of_nat (length (bd_sectors d)) = NumSectors /\
    Forall (fun s => Z.of_nat (length s) = SectorSize) (bd_sectors d) /\
    Forall (Forall is_u8) (bd_sectors d);
  bd_read_ok (d : D) (s : Z) (bs : list Z) :
    bd_wf d -> 0 <= s -> bd_sectors d !! Z.to_nat s = Some bs ->
    exists d', bd_read d s = Ok (bs, d') /\ bd_wf d' /\ bd_sectors d' = bd_sectors d;
  bd_write_ok (d : D) (s : Z) (bs : list Z) :
    bd_wf d -> 0 <= s < NumSectors -> Z.of_nat (length bs) = SectorSize -> Forall is_u8 bs ->
    exists d', bd_write d s bs = Ok d' /\ bd_wf d' /\
               bd_sectors d' = <[Z.to_nat s := bs]> (bd_sectors d);
  bd_out_of_range (d : D) (s : Z) (bs : list Z) :
    bd_wf d -> s < 0 \/ NumSectors <= s ->
    bd_read d s = Fault AssertFailed /\ bd_write d s bs = Fault AssertFailed;
}.

(** ** filesys/synchdisk.cc *)

Module SynchDisk.

Record t := mk {
  disk : Disk.t;
  totalTicks : Z;       (* the clock, stats->totalTicks *)
  numDiskReads : Z;     (* of stats *)
  numDiskWrites : Z;
}.

(** [lock->Acquire(); disk->ReadRequest(...); semaphore->P(); lock->Release()]:
    the wait in [P] ends with the interrupt, [ticks] later. *)
Definition ReadSector (s : t) (sectorNumber : Z) : outcome (list Z * t) :=
  '(data, ticks, d) ← ReadRequest (disk s) (totalTicks s) sectorNumber;
  Ok (data, mk (HandleInterrupt d) (totalTicks s + ticks) (numDiskReads s + 1) (numDiskWrites s)).

Definition WriteSector (s : t) (sectorNumber : Z) (data : list Z) : outcome t :=
  '(ticks, d) ← WriteRequest (disk s) (totalTicks s) sectorNumber data;
  Ok (mk (HandleInterrupt d) (totalTicks s + ticks) (numDiskReads s) (numDiskWrites s + 1)).

Definition wf (s : t) : Prop :=
  Z.of_nat (length (file (disk s))) = DiskSize /\ Forall is_u8 (file (disk s)) /\
  active (disk s) = false.

Definition sector_at (f : list Z) (i : nat) : list Z :=
  slice f (Z.to_nat (file_offset (Z.of_nat i))) (Z.to_nat SectorSize).

Definition sectors (s : t) : list (list Z) :=
  sector_at (file (disk s)) <$> seq 0 (Z.to_nat NumSectors).

Lemma sectors_lookup s i : (i < Z.to_nat NumSectors)%nat ->
  sectors s !! i = Some (sector_at (file (disk s)) i).
Proof. intros. unfold sectors. by rewrite list_lookup_fmap, lookup_seq_lt. Qed.

Lemma length_sectors s : length (sectors s) = Z.to_nat NumSectors.
Proof. unfold sectors. by rewrite length_fmap, length_seq. Qed.

Lemma sector_fits s i : wf s -> Z.of_nat i < NumSectors ->
  (Z.to_nat (file_offset (Z.of_nat i)) + Z.to_nat SectorSize <= length (file (disk s)))%nat.
Proof.
  intros (Hl & _) Hi. unfold file_offset, DiskSize, NumSectors, SectorsPerTrack, NumTracks,
    MagicSize, SectorSize in *. lia.
Qed.

Lemma sector_in_range s : 0 <= s < NumSectors -> Disk.in_range s = true.
Proof. intros. unfold in_range. rewrite Z.geb_leb. bool_cases; try done; lia. Qed.
Lemma sector_out_of_range s : s < 0 \/ NumSectors <= s -> Disk.in_range s = false.
Proof. intros. unfold in_range. rewrite Z.geb_leb. bool_cases; try done; lia. Qed.

Lemma file_UpdateLast d now k : file (UpdateLast d now k) = file d /\ active (UpdateLast d now k) = active d.
Proof. unfold UpdateLast. by destruct TimeToSeek. Qed.

#[export] Instance synchdisk_device : BlockDevice t := {|
  bd_wf := wf; bd_sectors := sectors; bd_read := ReadSector; bd_write := WriteSector |}.

Lemma ReadSector_ok s k bs :
  wf s -> 0 <= k -> sectors s !! Z.to_nat k = Some bs ->
  exists s', ReadSector s k = Ok (bs, s') /\ wf s' /\ sectors s' = sectors s.
Proof.
  intros Hwf Hk Hbs. pose proof (lookup_lt_Some _ _ _ Hbs) as Hlt. rewrite length_sectors in Hlt.
  rewrite sectors_lookup in Hbs by done. injection Hbs as <-.
  pose proof (sector_fits s (Z.to_nat k) Hwf ltac:(lia)) as Hfit. pose proof Hwf as (Hl & Hb & Ha).
  unfold ReadSector, ReadRequest. rewrite Ha, sector_in_range by lia. cbn [negb ASSERT mbind outcome_bind].
  unfold Read. rewrite Z2Nat.id in Hfit by done.
  rewrite ASSERT_true by (rewrite length_slice by done; by rewrite Z2Nat.id).
  cbn [mbind outcome_bind]. eexists. split; [unfold sector_at; by rewrite Z2Nat.id|].
  unfold wf, sectors. cbn [disk HandleInterrupt set_active file active].
  rewrite (proj1 (file_UpdateLast _ _ _)). done.
Qed.

Lemma WriteSector_ok s k bs :
  wf s -> 0 <= k < NumSectors -> Z.of_nat (length bs) = SectorSize -> Forall is_u8 bs ->
  exists s', WriteSector s k bs = Ok s' /\ wf s' /\ sectors s' = <[Z.to_nat k := bs]> (sectors s).
Proof.
  intros Hwf Hk Hbs Hu.
  pose proof (sector_fits s (Z.to_nat k) Hwf ltac:(lia)) as Hfit. pose proof Hwf as (Hl & Hb & Ha).
  rewrite Z2Nat.id in Hfit by lia.
  unfold WriteSector, WriteRequest. rewrite Ha, sector_in_range by lia. cbn [negb ASSERT mbind outcome_bind].
  unfold WriteFile. rewrite Hbs, Z.leb_refl. cbn [mbind outcome_bind].
  rewrite take_ge by lia. eexists. split; [done|].
  unfold wf, sectors. cbn [disk HandleInterrupt set_active file active].
  rewrite (proj1 (file_UpdateLast _ _ _)). cbn [set_active file].
  split; [split; [by rewrite length_splice by lia|split; [by apply Forall_splice|done]]|].
  apply list_eq. intros i. destruct (decide (i < Z.to_nat NumSectors)%nat) as [Hi|Hi].
  2:{ rewrite !lookup_ge_None_2; [done|by rewrite length_insert, length_fmap, length_seq; lia|].
      rewrite length_fmap, length_seq. lia. }
  rewrite list_lookup_fmap, lookup_seq_lt by done. cbn [fmap option_fmap option_map Nat.add].
  unfold sector_at. destruct (decide (Z.to_nat k = i)) as [<-|Hne].
  - rewrite list_lookup_insert_eq by (by rewrite length_fmap, length_seq). f_equal.
    rewrite Z2Nat.id by lia.
    replace (Z.to_nat SectorSize) with (length bs) by lia. apply slice_splice_same. lia.
  - rewrite list_lookup_insert_ne by done.
    rewrite list_lookup_fmap, lookup_seq_lt by done. cbn [fmap option_fmap option_map Nat.add].
    f_equal. apply slice_splice_disjoint; [lia|].
    unfold file_offset, SectorSize, MagicSize in *. lia.
Qed.

Lemma out_of_range s k bs :
  wf s -> k < 0 \/ NumSectors <= k ->
  ReadSector s k = Fault AssertFailed /\ WriteSector s k bs = Fault AssertFailed.
Proof.
  intros (_ & _ & Ha) Hk. unfold ReadSector, WriteSector, ReadRequest, WriteRequest.
  rewrite Ha, sector_out_of_range by done. done.
Qed.

#[export] Instance synchdisk_laws : BlockDeviceLaws t.
Proof.
  split; cbn.
  - intros s Hwf. rewrite length_sectors. split; [done|].
    split; apply Forall_lookup_2; intros i bs Hi;
      pose proof (lookup_lt_Some _ _ _ Hi) as Hlt; rewrite length_sectors in Hlt;
      rewrite sectors_lookup in Hi by done; injection Hi as <-.
    + unfold sector_at. rewrite length_slice by (apply sector_fits; [done|lia]). done.
    + unfold sector_at, slice. destruct Hwf as (_ & Hb & _). by apply Forall_take, Forall_drop.
  - apply ReadSector_ok.
  - apply WriteSector_ok.
  - apply out_of_range.
Qed.

(** ** Sequences of requests *)

Inductive op := ORead (s : Z) | OWrite (s : Z) (data : list Z).

Fixpoint run (os : list op) (s : t) : outcome (list (list Z) * t) :=
  match os with
  | [] => Ok ([], s)
  | ORead k :: os' => '(bs, s) ← ReadSector s k; '(rs, s) ← run os' s; Ok (bs :: rs, s)
  | OWrite k bs :: os' => s ← WriteSector s k bs; run os' s
  end.

(** The same on an array of sectors. *)
Fixpoint run_array (os : list op) (a : list (list Z)) : outcome (list (list Z) * list (list Z)) :=
  match os with
  | [] => Ok ([], a)
  | ORead k :: os' =>
      if Disk.in_range k then
        match a !! Z.to_nat k with
        | Some bs => '(rs, a) ← run_array os' a; Ok (bs :: rs, a)
        | None => Fault BadAccess
        end
      else Fault AssertFailed
  | OWrite k bs :: os' =>
      if Disk.in_range k then run_array os' (<[Z.to_nat k := bs]> a) else Fault AssertFailed
  end.

Definition op_ok (o : op) : Prop :=
  match o with ORead _ => True | OWrite _ bs => Z.of_nat (length bs) = SectorSize /\ Forall is_u8 bs end.

Lemma run_refines os : forall s, wf s -> Forall op_ok os ->
  match run os s, run_array os (sectors s) with
  | Ok (rs, s'), Ok (rs', a) => rs = rs' /\ wf s' /\ sectors s' = a
  | Fault f, Fault f' => f = f'
  | _, _ => False
  end.
Proof.
  induction os as [|[k|k bs] os IH]; intros s Hwf Hos; cbn [run run_array]; [done| |];
    inversion_clear Hos as [|? ? Ho Hos'];
    (destruct (decide (0 <= k < NumSectors)) as [Hk|Hk];
     [rewrite sector_in_range by done|rewrite sector_out_of_range by lia]).
  - destruct (lookup_lt_is_Some_2 (sectors s) (Z.to_nat k)) as [bs Hbs]; [rewrite length_sectors; lia|].
    rewrite Hbs. destruct (ReadSector_ok s k bs Hwf) as (s' & -> & Hwf' & Es); [lia|done|].
    cbn [mbind outcome_bind]. specialize (IH s' Hwf' Hos'). rewrite Es in IH.
    destruct (run os s') as [[rs s'']|], (run_array os (sectors s)) as [[rs' a]|];
      cbn [mbind outcome_bind]; try exact IH.
    destruct IH as (-> & ? & ?). split; [reflexivity|]. split; assumption.
  - destruct (out_of_range s k [] Hwf) as [E _]; [lia|]. by rewrite E.
  - destruct Ho as [Hl Hu].
    destruct (WriteSector_ok s k bs Hwf Hk Hl Hu) as (s' & -> & Hwf' & <-).
    cbn [mbind outcome_bind]. by apply IH.
  - destruct (out_of_range s k bs Hwf) as [_ E]; [lia|]. by rewrite E.
Qed.

Lemma Disk_new_wf : exists d, Disk_new None = Ok d /\ wf (mk d 0 0 0).
Proof.
  eexists. split; [done|]. unfold wf. cbn [disk file active].
  rewrite length_app, length_le_bytes, length_replicate.
  split; [unfold DiskSize, MagicSize, NumSectors, SectorsPerTrack, NumTracks, SectorSize; lia|].
  split; [|done]. apply Forall_app. split; [apply le_bytes_u8|]. apply Forall_replicate. by unfold is_u8.
Qed.

(** A sequence of sector reads and writes through [SynchDisk] behaves as
    an array of 1024 sectors of 512 bytes: every read returns the bytes last
    written to its sector and nothing else changes; numbers out of range are
    assertion failures; the disk is never asked for a second request while one
    is in progress. *)
Theorem synchdisk_refines_array os s :
  wf s -> Forall op_ok os ->
  match run os s, run_array os (sectors s) with
  | Ok (rs, s'), Ok (rs', a) => rs = rs' /\ wf s' /\ sectors s' = a
  | Fault f, Fault f' => f = f'
  | _, _ => False
  end.
Proof. intros Hwf Hos. exact (run_refines os s Hwf Hos). Qed.

(** C36 on a fresh disk: write sector 7 and read it back, then sector 8. *)
Lemma synchdisk_refines_array_witness :
  exists d, Disk_new None = Ok d /\
  match run [OWrite 7 (replicate 512 65); ORead 7; ORead 8] (mk d 0 0 0),
        run_array [OWrite 7 (replicate 512 65); ORead 7; ORead 8] (sectors (mk d 0 0 0)) with
  | Ok (rs, s'), Ok (rs', a) => rs = rs' /\ wf s' /\ sectors s' = a
  | Fault f, Fault f' => f = f'
  | _, _ => False
  end.
Proof.
  destruct Disk_new_wf as (d & Ed & Hwf). exists d. split; [exact Ed|].
  apply (synchdisk_refines_array [OWrite 7 (replicate 512 65); ORead 7; ORead 8] (mk d 0 0 0)); [exact Hwf|].
  constructor; [|repeat constructor]. split; [done|].
  apply (Forall_replicate is_u8). by unfold is_u8.
Defined.

End SynchDisk.

#[export] Existing Instance SynchDisk.synchdisk_device.
#[export] Existing Instance SynchDisk.synchdisk_laws.
