(* ===== verification/FileHdr.v ===== *)
(** * filesys/filehdr.{h,cc}: the file header

    [FileHeader.t] is class [FileHeader], which fills one sector: two integers
    and [NumDirect] sector numbers.  [Allocate] and [Deallocate] work on any
    slot allocator (the free map of sectors), [FetchFrom] and [WriteBack] on
    any block device. *)

From S2P Require Import Prelude Allocator Bitmap DiskSim.
Import Disk.

Local Open Scope Z_scope.

Module FileHeader.

(** [(SectorSize - 2 * sizeof(int)) / sizeof(int)] *)
Definition NumDirect : Z := Z.quot (SectorSize - 2 * 4) 4.
Definition MaxFileSize : Z := NumDirect * SectorSize.

Record t := mk {
  numBytes : Z;            (* number of bytes in the file *)
  numSectors : Z;          (* number of data sectors in the file *)
  dataSectors : list Z;    (* int dataSectors[NumDirect] *)
}.

(** ** Operations *)

Section allocation.
Context {T : Type} `{Allocator T}.

(** There is no constructor: [h] is what the fresh object held. *)
Definition Allocate (h : t) (freeMap : T) (fileSize : Z) : outcome (bool * t * T) :=
  let numBytes := fileSize in
  let numSectors := divRoundUp fileSize SectorSize in
  nc ← al_NumClear freeMap;
  if nc <? numSectors then Ok (false, mk numBytes numSectors (dataSectors h), freeMap)
  else
    '(ds, freeMap) ←
      for_range 0 numSectors
        (fun i '(ds, freeMap) =>
           '(s, freeMap) ← al_Find freeMap;
           ds ← wr ds i s;
           Ok (ds, freeMap))
        (dataSectors h, freeMap);
    Ok (true, mk numBytes numSectors ds, freeMap).

Definition Deallocate (h : t) (freeMap : T) : outcome T :=
  for_range 0 (numSectors h)
    (fun i freeMap =>
       s ← rd (dataSectors h) i;
       marked ← al_Test freeMap s;
       _ ← ASSERT marked;
       al_Clear freeMap s)
    freeMap.

End allocation.

(** The object as the [SectorSize] bytes at its address. *)
Definition to_bytes (h : t) : list Z :=
  le_bytes 4 (numBytes h) ++ le_bytes 4 (numSectors h) ++ flat_map (le_bytes 4) (dataSectors h).

Fixpoint ints_of_bytes (n : nat) (bs : list Z) : list Z :=
  match n with
  | O => []
  | S n' => s32 (le_value (take 4 bs)) :: ints_of_bytes n' (drop 4 bs)
  end.

Definition of_bytes (bs : list Z) : t :=
  mk (s32 (le_value (take 4 bs))) (s32 (le_value (take 4 (drop 4 bs))))
     (ints_of_bytes (Z.to_nat NumDirect) (drop 8 bs)).

Section device.
Context {D : Type} `{BlockDevice D}.

Definition FetchFrom (d : D) (sector : Z) : outcome (t * D) :=
  '(bs, d) ← bd_read d sector; Ok (of_bytes bs, d).

Definition WriteBack (h : t) (d : D) (sector : Z) : outcome D :=
  bd_write d sector (to_bytes h).

End device.

Definition ByteToSector (h : t) (offset : Z) : outcome Z :=
  rd (dataSectors h) (Z.quot offset SectorSize).

Definition FileLength (h : t) : Z := numBytes h.

(** ** Allocation *)

Definition wf (h : t) : Prop :=
  is_s32 (numBytes h) /\ is_s32 (numSectors h) /\
  Z.of_nat (length (dataSectors h)) = NumDirect /\ Forall is_s32 (dataSectors h).

Section allocation_laws.
Context {T : Type} `{AllocatorLaws T}.

(** With room for the file, the header gets the slots [take_slots] hands out. *)
Lemma Allocate_room h (m : T) fileSize :
  al_wf m -> Z.of_nat (length (dataSectors h)) = NumDirect -> 0 <= fileSize ->
  let n := Z.to_nat (divRoundUp fileSize SectorSize) in
  Z.of_nat n <= NumDirect -> (n <= count_clear (al_bits m))%nat ->
  exists h' m', Allocate h m fileSize = Ok (true, h', m') /\ al_wf m' /\
    numBytes h' = fileSize /\ numSectors h' = Z.of_nat n /\
    length (dataSectors h') = length (dataSectors h) /\
    exists ks, take_slots n (al_bits m) = (ks, al_bits m') /\
      take n (dataSectors h') = Z.of_nat <$> ks /\
      drop n (dataSectors h') = drop n (dataSectors h).
Proof.
  intros Hwf Hl Hsz n Hdir Hroom. unfold Allocate.
  pose proof (divRoundUp_spec fileSize SectorSize Hsz ltac:(done)) as [_ Hns].
  rewrite al_NumClear_ok by done. cbn [mbind outcome_bind].
  destruct (Z.ltb_spec (Z.of_nat (count_clear (al_bits m))) (divRoundUp fileSize SectorSize)); [lia|].
  destruct (for_range_inv (fun i '(ds, m') => al_wf m' /\ length ds = length (dataSectors h) /\
    exists ks, take_slots (Z.to_nat i) (al_bits m) = (ks, al_bits m') /\
      take (Z.to_nat i) ds = Z.of_nat <$> ks /\ drop (Z.to_nat i) ds = drop (Z.to_nat i) (dataSectors h))
    0 (divRoundUp fileSize SectorSize)
    (fun i '(ds, freeMap) => '(s, freeMap) ← al_Find freeMap; ds ← wr ds i s; Ok (ds, freeMap))
    (dataSectors h, m)) as ([ds m'] & -> & Hwf' & Hlen & ks & Hks & Htk & Hdr); [done| | |].
  - split; [done|]. split; [done|]. by exists [].
  - intros i [ds m1] Hi (Hwf1 & Hl1 & ks & Hks & Htk & Hdr).
    destruct (take_slots_spec _ _ _ _ Hks) as (Hlk & _ & _ & _ & _ & Hcnt); [lia|].
    destruct (first_clear (al_bits m1)) as [k|] eqn:Ek.
    2:{ apply first_clear_None in Ek. lia. }
    destruct (al_Find_free m1 k Hwf1 Ek) as (m2 & -> & Hwf2 & Hb2). cbn [mbind outcome_bind].
    rewrite wr_ok by lia. cbn [mbind outcome_bind]. eexists. split; [done|].
    split; [done|]. split; [by rewrite length_insert|].
    exists (ks ++ [k]). replace (Z.to_nat (i + 1)) with (S (Z.to_nat i)) by lia.
    split; [rewrite Hb2; apply (take_slots_snoc _ _ _ _ k Hks); [lia|done]|].
    split.
    + rewrite (take_S_r _ _ (Z.of_nat k)) by (apply list_lookup_insert_eq; lia).
      by rewrite take_insert_ge, Htk, fmap_app by lia.
    + rewrite drop_insert_lt by lia. 
      change (S (Z.to_nat i)) with (1 + Z.to_nat i)%nat. rewrite <- !skipn_skipn. by rewrite Hdr.
  - cbn [mbind outcome_bind]. do 2 eexists. split; [done|]. cbn. split; [done|].
    split; [done|]. split; [lia|]. split; [done|]. exists ks. fold n in Hks, Htk, Hdr. done.
Qed.

(** Without room, nothing is taken. *)
Lemma Allocate_no_room h (m : T) fileSize :
  al_wf m -> Z.of_nat (count_clear (al_bits m)) < divRoundUp fileSize SectorSize ->
  exists h', Allocate h m fileSize = Ok (false, h', m).
Proof.
  intros Hwf Hr. unfold Allocate. rewrite al_NumClear_ok by done. cbn [mbind outcome_bind].
  destruct (Z.ltb_spec (Z.of_nat (count_clear (al_bits m))) (divRoundUp fileSize SectorSize)); [|lia].
  by eexists.
Qed.

(** Deallocation frees the sectors of a header that are all marked and all
    different. *)
Lemma Deallocate_ok h (m : T) ks :
  al_wf m -> numSectors h = Z.of_nat (length ks) ->
  take (length ks) (dataSectors h) = Z.of_nat <$> ks -> NoDup ks ->
  (forall k, k ∈ ks -> al_bits m !! k = Some true) ->
  exists m', Deallocate h m = Ok m' /\ al_wf m' /\ al_bits m' = clear_slots ks (al_bits m).
Proof.
  intros Hwf Hn Hds Hnd Hall. unfold Deallocate. rewrite Hn.
  destruct (for_range_inv (fun i m' => al_wf m' /\ al_bits m' = clear_slots (take (Z.to_nat i) ks) (al_bits m))
    0 (Z.of_nat (length ks))
    (fun i freeMap => s ← rd (dataSectors h) i; marked ← al_Test freeMap s;
                      _ ← ASSERT marked; al_Clear freeMap s) m) as (m' & -> & Hwf' & Hb);
    [lia|done| |].
  - intros i m1 Hi (Hwf1 & Hb1).
    destruct (lookup_lt_is_Some_2 ks (Z.to_nat i)) as [k Hk]; [lia|].
    assert (Hd : dataSectors h !! Z.to_nat i = Some (Z.of_nat k)).
    { rewrite <- (lookup_take_lt _ (length ks)) by lia. by rewrite Hds, list_lookup_fmap, Hk. }
    rewrite (rd_lookup _ _ (Z.of_nat k)) by (done || lia). cbn [mbind outcome_bind].
    assert (Hb' : al_bits m1 !! k = Some true).
    { rewrite Hb1, lookup_clear_slots, decide_False.
      - apply Hall. by eapply list_elem_of_lookup_2.
      - intros [(j & Hj)%list_elem_of_lookup _]. apply lookup_take_Some in Hj as [Hj ?].
        pose proof (NoDup_lookup _ _ _ _ Hnd Hj Hk). lia. }
    rewrite (al_Test_ok _ _ true) by done. cbn [ASSERT mbind outcome_bind].
    destruct (al_Clear_ok m1 k Hwf1) as (m2 & -> & Hwf2 & Hb2); [by eapply lookup_lt_Some|].
    exists m2. split; [done|]. split; [done|].
    replace (Z.to_nat (i + 1)) with (S (Z.to_nat i)) by lia.
    by rewrite (take_S_r _ _ k), clear_slots_snoc, <- Hb1.
  - exists m'. split; [done|]. split; [done|]. by rewrite Hb, Nat2Z.id, take_ge by lia.
Qed.

End allocation_laws.

(** ** The sector image *)

Lemma ints_of_bytes_app xs rest :
  Forall is_s32 xs -> ints_of_bytes (length xs) (flat_map (le_bytes 4) xs ++ rest) = xs.
Proof.
  induction 1 as [|x xs Hx _ IH]; [done|]. cbn [length flat_map]. rewrite <- app_assoc.
  cbn [ints_of_bytes]. rewrite take_app_length', drop_app_length' by (by rewrite length_le_bytes).
  rewrite IH, le_value_bytes. f_equal. etransitivity; [apply s32_u32|by apply s32_small].
Qed.

Lemma length_ints xs : length (flat_map (le_bytes 4) xs) = (4 * length xs)%nat.
Proof. induction xs as [|x xs IH]; [done|]. cbn [flat_map length]. rewrite length_app, length_le_bytes, IH. lia. Qed.

Lemma to_bytes_shape h : wf h -> Z.of_nat (length (to_bytes h)) = SectorSize /\ Forall is_u8 (to_bytes h).
Proof.
  intros (_ & _ & Hl & _). unfold to_bytes. split.
  - rewrite !length_app, !length_le_bytes, length_ints. unfold NumDirect, SectorSize in *.
    change (Z.quot (512 - 2 * 4) 4) with 126 in Hl. lia.
  - apply Forall_app; split; [apply le_bytes_u8|]. apply Forall_app; split; [apply le_bytes_u8|].
    clear Hl. induction (dataSectors h); cbn [flat_map]; [constructor|].
    apply Forall_app; split; [apply le_bytes_u8|done].
Qed.

Lemma header_of_to_bytes h : wf h -> of_bytes (to_bytes h) = h.
Proof.
  intros (H1 & H2 & Hl & H3). unfold of_bytes, to_bytes.
  rewrite take_app_length', drop_app_length' by (by rewrite length_le_bytes).
  rewrite take_app_length' by (by rewrite length_le_bytes).
  change 8%nat with (4 + 4)%nat. rewrite <- skipn_skipn.
  rewrite !drop_app_length' by (by rewrite length_le_bytes).
  replace (Z.to_nat NumDirect) with (length (dataSectors h)) by lia.
  pose proof (ints_of_bytes_app (dataSectors h) [] H3) as E. rewrite app_nil_r in E. rewrite E.
  rewrite !le_value_bytes. destruct h as [nb ns ds]; cbn in *.
  f_equal; (etransitivity; [apply s32_u32|by apply s32_small]).
Qed.

(** ** Properties *)

Section properties.
Context {T : Type} `{AllocatorLaws T}.

(** [Allocate] either takes exactly the sectors the file needs or nothing.
    When enough sectors are free, the header lists that many sector numbers,
    pairwise different and free before, and the free map is changed at those
    sectors alone, all marked; otherwise it answers FALSE and the map is as it
    was.  (The file must fit in the [NumDirect] entries of the header.) *)
Theorem Allocate_all_or_nothing h (freeMap : T) fileSize :
  al_wf freeMap -> Z.of_nat (length (dataSectors h)) = NumDirect -> 0 <= fileSize <= MaxFileSize ->
  exists ok h' freeMap', Allocate h freeMap fileSize = Ok (ok, h', freeMap') /\ al_wf freeMap' /\
    if ok : bool then
      fileSize <= numSectors h' * SectorSize < fileSize + SectorSize /\
      exists ks, take (Z.to_nat (numSectors h')) (dataSectors h') = Z.of_nat <$> ks /\
        Z.of_nat (length ks) = numSectors h' /\ NoDup ks /\
        (forall k, k ∈ ks -> al_bits freeMap !! k = Some false) /\
        (forall j, al_bits freeMap' !! j = if decide (j ∈ ks) then Some true else al_bits freeMap !! j)
    else
      Z.of_nat (count_clear (al_bits freeMap)) * SectorSize < fileSize /\ freeMap' = freeMap.
Proof.
  intros Hwf Hl [Hsz Hmax].
  pose proof (divRoundUp_spec fileSize SectorSize Hsz ltac:(done)) as [Hup Hns].
  unfold MaxFileSize, SectorSize in *.
  destruct (decide (divRoundUp fileSize 512 <= Z.of_nat (count_clear (al_bits freeMap)))) as [Hc|Hc].
  - destruct (Allocate_room h freeMap fileSize) as (h' & m' & E & Hwf' & Hb & Hn & _ & ks & Hks & Htk & _);
      [done|done|done|unfold SectorSize; lia|unfold SectorSize; lia|].
    exists true, h', m'. split; [exact E|]. split; [done|]. unfold SectorSize in *.
    rewrite Hn, Nat2Z.id, Z2Nat.id by lia. split; [lia|]. exists ks.
    destruct (take_slots_spec _ _ _ _ Hks) as (Hlk & Hnd & Hfree & Hlook & _); [lia|].
    split; [done|]. split; [lia|]. done.
  - destruct (Allocate_no_room h freeMap fileSize Hwf) as [h' E]; [unfold SectorSize; lia|].
    exists false, h', freeMap. split; [exact E|]. split; [done|]. split; [lia|done].
Qed.

(** [Deallocate] undoes [Allocate]: freeing a header that was just
    allocated makes every bit of the free map what it was, and never trips the
    assertion that the sectors are marked. *)
Theorem Deallocate_Allocate h (freeMap : T) fileSize h' freeMap' :
  al_wf freeMap -> Z.of_nat (length (dataSectors h)) = NumDirect -> 0 <= fileSize <= MaxFileSize ->
  Allocate h freeMap fileSize = Ok (true, h', freeMap') ->
  exists freeMap'', Deallocate h' freeMap' = Ok freeMap'' /\ al_bits freeMap'' = al_bits freeMap.
Proof.
  intros Hwf Hl [Hsz Hmax] E.
  pose proof (divRoundUp_spec fileSize SectorSize Hsz ltac:(done)) as [Hup Hns].
  unfold MaxFileSize in Hmax.
  destruct (decide (divRoundUp fileSize SectorSize <= Z.of_nat (count_clear (al_bits freeMap)))) as [Hc|Hc].
  2:{ destruct (Allocate_no_room h freeMap fileSize Hwf) as [h1 E1]; [lia|]. by rewrite E1 in E. }
  destruct (Allocate_room h freeMap fileSize) as (h1 & m1 & E1 & Hwf' & Hb & Hn & _ & ks & Hks & Htk & _);
    [done|done|done|unfold SectorSize in *; lia|lia|].
  rewrite E1 in E. injection E as -> ->.
  destruct (take_slots_spec _ _ _ _ Hks) as (Hlk & Hnd & _ & Hlook & _); [lia|].
  destruct (Deallocate_ok h' freeMap' ks) as (m2 & E2 & _ & Hb2); [done|lia|by rewrite Hlk|done| |].
  { intros k Hk. rewrite Hlook. by rewrite decide_True. }
  exists m2. split; [done|]. rewrite Hb2. by apply (clear_take_slots (Z.to_nat (divRoundUp fileSize SectorSize))); [|lia].
Qed.

End properties.

(** C28 with the bitmap as allocator: 3 sectors out of 8. *)
Lemma Allocate_all_or_nothing_witness :
  exists m, BitMap.BitMap (fun i => i) 8 = Ok m /\
    exists ok h' m', Allocate (mk 0 0 (replicate 126 0)) m 1200 = Ok (ok, h', m') /\ al_wf m'.
Proof.
  destruct (BitMap.BitMap_spec (fun i => i) 8 ltac:(done)) as (m & E & Hwf & _).
  exists m. split; [exact E|].
  destruct (Allocate_all_or_nothing (mk 0 0 (replicate 126 0)) m 1200) as (ok & h' & m' & H1 & H2 & _);
    [exact Hwf|done|unfold MaxFileSize; vm_compute; split; discriminate|]. exists ok, h', m'. split; [exact H1|exact H2].
Defined.

Lemma Deallocate_Allocate_witness :
  exists m m' h', BitMap.BitMap (fun i => i) 8 = Ok m /\
    Allocate (mk 0 0 (replicate 126 0)) m 1200 = Ok (true, h', m') /\
    exists m'', Deallocate h' m' = Ok m'' /\ al_bits m'' = al_bits m.
Proof.
  destruct (BitMap.BitMap_spec (fun i => i) 8 ltac:(done)) as (m & E & Hwf & _ & Hb).
  destruct (Allocate_room (mk 0 0 (replicate 126 0)) m 1200) as (h' & m' & EA & _);
    [exact Hwf|done|done|by vm_compute|cbn [al_bits BitMap.bitmap_allocator]; rewrite Hb; vm_compute; lia|].
  exists m, m', h'. split; [exact E|]. split; [exact EA|].
  apply (Deallocate_Allocate (mk 0 0 (replicate 126 0)) m 1200 h' m'); [exact Hwf|done|vm_compute; split; discriminate|exact EA].
Defined.

Section device_properties.
Context {D : Type} `{BlockDeviceLaws D}.

(** a header written back to a sector is fetched from it unchanged, and
    writing it changes no other sector. *)
Theorem FetchFrom_WriteBack h (d : D) sector :
  bd_wf d -> wf h -> 0 <= sector < NumSectors ->
  exists d' d'', WriteBack h d sector = Ok d' /\ FetchFrom d' sector = Ok (h, d'') /\
    bd_wf d'' /\ bd_sectors d'' = bd_sectors d' /\
    forall k, k <> Z.to_nat sector -> bd_sectors d' !! k = bd_sectors d !! k.
Proof.
  intros Hd Hh Hs. destruct (to_bytes_shape h Hh) as [Hl Hu].
  destruct (bd_write_ok d sector (to_bytes h) Hd Hs Hl Hu) as (d' & E & Hd' & Es).
  destruct (bd_shape d Hd) as (Hn & _).
  destruct (bd_read_ok d' sector (to_bytes h) Hd') as (d'' & E' & Hd'' & Es'); [lia| |].
  { rewrite Es. apply list_lookup_insert_eq. lia. }
  exists d', d''. unfold WriteBack, FetchFrom. rewrite E, E'. split; [done|].
  split; [cbn [mbind outcome_bind]; by rewrite header_of_to_bytes|]. split; [done|]. split; [done|].
  intros k Hk. rewrite Es. by rewrite list_lookup_insert_ne.
Qed.

End device_properties.

Lemma FetchFrom_WriteBack_witness :
  exists d, Disk_new None = Ok d /\
    exists d' d'', WriteBack (mk 700 2 (replicate 126 9)) (SynchDisk.mk d 0 0 0) 5 = Ok d' /\
      FetchFrom d' 5 = Ok (mk 700 2 (replicate 126 9), d'').
Proof.
  destruct SynchDisk.Disk_new_wf as (d & E & Hwf). exists d. split; [exact E|].
  destruct (FetchFrom_WriteBack (mk 700 2 (replicate 126 9)) (SynchDisk.mk d 0 0 0) 5)
    as (d' & d'' & H1 & H2 & _); [exact Hwf| |done|].
  - split; [by unfold is_s32|]. split; [by unfold is_s32|]. split; [done|].
    apply (Forall_replicate is_s32). by unfold is_s32.
  - exists d', d''. split; [exact H1|exact H2].
Defined.

End FileHeader.
