(* ===== verification/OpenFile.v ===== *)
(** * filesys/openfile.{h,cc}: open files of the Nachos file system

    [OpenFile.t] is class [OpenFile] of the FILESYS build: the header in memory
    and the seek position.  [ReadAt] and [WriteAt] transfer whole sectors
    through a buffer obtained with [new char[]], whose first contents are
    arbitrary: the parameter [raw] gives them.  The theorems relate both to the
    contents of the file as one sequence of bytes. *)

From S2P Require Import Prelude Allocator Bitmap DiskSim FileHdr.
Import Disk.

Local Open Scope Z_scope.

Module OpenFile.

Record t := mk {
  hdr : FileHeader.t;
  seekPosition : Z;
  type : Z;
}.

(** [bcopy] from and into a buffer, undefined outside it. *)
Definition bcopy_out (buf : list Z) (off n : Z) : outcome (list Z) :=
  if (0 <=? off) && (0 <=? n) && (off + n <=? Z.of_nat (length buf))
  then Ok (slice buf (Z.to_nat off) (Z.to_nat n)) else Fault BadAccess.
Definition bcopy_in (buf : list Z) (off : Z) (data : list Z) : outcome (list Z) :=
  if (0 <=? off) && (off + Z.of_nat (length data) <=? Z.of_nat (length buf))
  then Ok (splice buf (Z.to_nat off) data) else Fault BadAccess.

(** [new char[n]] *)
Definition new_buffer (raw : Z -> Z) (n : Z) : list Z := (fun i => u8 (raw i)) <$> seqZ 0 n.

(** The request after it was checked against the length of the file: [None]
    for the early return. *)
Definition clip (fileLength numBytes position : Z) : option Z :=
  if (numBytes <=? 0) || (position >=? fileLength) then None
  else Some (if s32 (position + numBytes) >? fileLength then fileLength - position else numBytes).

Section operations.
Context {D : Type} `{BlockDevice D} (raw : Z -> Z).

(** [OpenFile::OpenFile(int sector)] and [OpenFile(int f, int t)]; the first
    leaves [type] as it was, [t0]. *)
Definition OpenFile_new (d : D) (sector t0 : Z) : outcome (t * D) :=
  '(h, d) ← FileHeader.FetchFrom d sector; Ok (mk h 0 t0, d).

Definition Seek (f : t) (position : Z) : t := mk (hdr f) position (type f).
Definition Length (f : t) : Z := FileHeader.FileLength (hdr f).
Definition GetCurrentPos (f : t) : Z := seekPosition f.

(** The answer is the number of bytes, and the bytes copied to [into]. *)
Definition ReadAt (d : D) (h : FileHeader.t) (numBytes position : Z) : outcome (Z * list Z * D) :=
  match clip (FileHeader.FileLength h) numBytes position with
  | None => Ok (0, [], d)
  | Some numBytes =>
      let firstSector := divRoundDown position SectorSize in
      let lastSector := divRoundDown (position + numBytes - 1) SectorSize in
      let numSectors := 1 + lastSector - firstSector in
      let buf := new_buffer raw (numSectors * SectorSize) in
      '(buf, d) ←
        for_range firstSector (lastSector + 1)
          (fun i '(buf, d) =>
             s ← FileHeader.ByteToSector h (i * SectorSize);
             '(bs, d) ← bd_read d s;
             buf ← bcopy_in buf ((i - firstSector) * SectorSize) bs;
             Ok (buf, d))
          (buf, d);
      out ← bcopy_out buf (position - firstSector * SectorSize) numBytes;
      Ok (numBytes, out, d)
  end.

(** [from] is the caller's buffer. *)
Definition WriteAt (d : D) (h : FileHeader.t) (from : list Z) (numBytes position : Z) : outcome (Z * D) :=
  match clip (FileHeader.FileLength h) numBytes position with
  | None => Ok (0, d)
  | Some numBytes =>
      let firstSector := divRoundDown position SectorSize in
      let lastSector := divRoundDown (position + numBytes - 1) SectorSize in
      let numSectors := 1 + lastSector - firstSector in
      let buf := new_buffer raw (numSectors * SectorSize) in
      let firstAligned := position =? firstSector * SectorSize in
      let lastAligned := position + numBytes =? (lastSector + 1) * SectorSize in
      '(buf, d) ←
        (if negb firstAligned then
           '(_, bs, d) ← ReadAt d h SectorSize (firstSector * SectorSize);
           buf ← bcopy_in buf 0 bs; Ok (buf, d)
         else Ok (buf, d));
      '(buf, d) ←
        (if negb lastAligned && (negb (firstSector =? lastSector) || firstAligned) then
           '(_, bs, d) ← ReadAt d h SectorSize (lastSector * SectorSize);
           buf ← bcopy_in buf ((lastSector - firstSector) * SectorSize) bs; Ok (buf, d)
         else Ok (buf, d));
      data ← bcopy_out from 0 numBytes;
      buf ← bcopy_in buf (position - firstSector * SectorSize) data;
      d ←
        for_range firstSector (lastSector + 1)
          (fun i d =>
             s ← FileHeader.ByteToSector h (i * SectorSize);
             bs ← bcopy_out buf ((i - firstSector) * SectorSize) SectorSize;
             bd_write d s bs)
          d;
      Ok (numBytes, d)
  end.

Definition Read (d : D) (f : t) (numBytes : Z) : outcome (Z * list Z * t * D) :=
  '(result, bs, d) ← ReadAt d (hdr f) numBytes (seekPosition f);
  Ok (result, bs, mk (hdr f) (seekPosition f + result) (type f), d).

Definition Write (d : D) (f : t) (from : list Z) (numBytes : Z) : outcome (Z * t * D) :=
  '(result, d) ← WriteAt d (hdr f) from numBytes (seekPosition f);
  Ok (result, mk (hdr f) (seekPosition f + result) (type f), d).

End operations.

(** ** The contents of a file *)

(** The sectors of a file, one after the other. *)
Definition blocks (ss : list Z) (a : list (list Z)) : list Z :=
  flat_map (fun s => default [] (a !! Z.to_nat s)) ss.

Definition file_sectors (h : FileHeader.t) : list Z :=
  take (Z.to_nat (FileHeader.numSectors h)) (FileHeader.dataSectors h).

Definition contents (h : FileHeader.t) (a : list (list Z)) : list Z :=
  take (Z.to_nat (FileHeader.numBytes h)) (blocks (file_sectors h) a).

(** The header describes a file: its sectors exist, are different and hold its
    bytes. *)
Definition file_ok (h : FileHeader.t) : Prop :=
  FileHeader.wf h /\ 0 <= FileHeader.numBytes h <= FileHeader.numSectors h * SectorSize /\
  FileHeader.numSectors h <= FileHeader.NumDirect /\
  Forall (fun s => 0 <= s < NumSectors) (file_sectors h) /\ NoDup (file_sectors h).

(** An array of whole sectors. *)
Definition disk_ok (a : list (list Z)) : Prop :=
  Z.of_nat (length a) = NumSectors /\
  Forall (fun s => Z.of_nat (length s) = SectorSize) a /\ Forall (Forall is_u8) a.

Lemma length_file_sectors h : file_ok h ->
  Z.of_nat (length (file_sectors h)) = FileHeader.numSectors h.
Proof.
  intros ((_ & _ & Hl & _) & Hb & Hd & _). unfold file_sectors. rewrite length_take.
  unfold SectorSize in *. lia.
Qed.

Lemma sector_lookup a s : disk_ok a -> 0 <= s < NumSectors ->
  exists bs, a !! Z.to_nat s = Some bs /\ length bs = Z.to_nat SectorSize /\ Forall is_u8 bs.
Proof.
  intros (Hl & Hf & Hu) Hs. destruct (lookup_lt_is_Some_2 a (Z.to_nat s)) as [bs Hbs]; [lia|].
  exists bs. split; [done|]. split; [|by eapply Forall_lookup_1].
  pose proof (Forall_lookup_1 _ _ _ _ Hf Hbs) as E. cbn in E. lia.
Qed.

Lemma length_blocks ss a : disk_ok a -> Forall (fun s => 0 <= s < NumSectors) ss ->
  length (blocks ss a) = (512 * length ss)%nat.
Proof.
  intros Ha Hs. induction Hs as [|s ss Hs1 _ IH]; [done|]. unfold blocks in *. cbn [flat_map length].
  destruct (sector_lookup a s Ha Hs1) as (bs & -> & Hl & _).
  change (default [] (Some bs)) with bs.
  rewrite length_app, IH, Hl. unfold SectorSize. lia.
Qed.

(** The [i]-th sector of a file is the [i]-th block of its bytes. *)
Lemma blocks_slice ss a i s bs : disk_ok a -> Forall (fun s => 0 <= s < NumSectors) ss ->
  ss !! i = Some s -> a !! Z.to_nat s = Some bs -> slice (blocks ss a) (512 * i) 512 = bs.
Proof.
  intros Ha Hs. revert i. induction Hs as [|s0 ss Hs0 Hs' IH]; intros i Hi Hbs; [done|].
  unfold blocks in *. cbn [flat_map].
  destruct (sector_lookup a s0 Ha Hs0) as (b0 & E0 & Hl0 & _). rewrite E0.
  change (default [] (Some b0)) with b0.
  change (Z.to_nat SectorSize) with 512%nat in Hl0.
  destruct i as [|i]; cbn in Hi.
  - injection Hi as ->. rewrite E0 in Hbs. injection Hbs as ->.
    unfold slice. rewrite Nat.mul_0_r, drop_0. by rewrite take_app_length'.
  - unfold slice. replace (512 * S i)%nat with (length b0 + 512 * i)%nat by lia.
    rewrite <- drop_drop. rewrite drop_app_length. by apply (IH i).
Qed.

Lemma slice_slice {A} (l : list A) a n b k : (b + k <= n)%nat -> slice (slice l a n) b k = slice l (a + b) k.
Proof.
  intros H. unfold slice. rewrite skipn_firstn_comm, drop_drop, take_take. f_equal. lia.
Qed.

Lemma take_slice_app {A} (l : list A) a n m : slice l a (n + m) = slice l a n ++ slice l (a + n) m.
Proof. unfold slice. by rewrite <- drop_drop, take_take_drop. Qed.

(** The number of bytes a request transfers. *)
Definition transferred (fileLength numBytes position : Z) : Z :=
  Z.max 0 (Z.min numBytes (fileLength - position)).

Lemma clip_spec len n pos :
  0 <= pos -> pos + n < 2 ^ 31 ->
  match clip len n pos with
  | None => transferred len n pos = 0
  | Some k => k = transferred len n pos /\ 0 < k /\ pos + k <= len
  end.
Proof.
  intros Hp Hn. unfold clip, transferred. rewrite Z.geb_leb.
  destruct (Z.leb_spec n 0); cbn [orb]; [lia|]. destruct (Z.leb_spec len pos); [lia|].
  rewrite s32_small by (unfold is_s32; lia). rewrite Z.gtb_ltb.
  destruct (Z.ltb_spec len (pos + n)); lia.
Qed.

Lemma bcopy_in_ok buf off data : 0 <= off -> off + Z.of_nat (length data) <= Z.of_nat (length buf) ->
  bcopy_in buf off data = Ok (splice buf (Z.to_nat off) data).
Proof. intros. unfold bcopy_in. by bool_cases; try lia. Qed.
Lemma bcopy_out_ok buf off n : 0 <= off -> 0 <= n -> off + n <= Z.of_nat (length buf) ->
  bcopy_out buf off n = Ok (slice buf (Z.to_nat off) (Z.to_nat n)).
Proof. intros. unfold bcopy_out. by bool_cases; try lia. Qed.

Lemma length_new_buffer raw n : 0 <= n -> length (new_buffer raw n) = Z.to_nat n.
Proof. intros. unfold new_buffer. by rewrite length_fmap, length_seqZ. Qed.

Lemma new_buffer_u8 raw n : Forall is_u8 (new_buffer raw n).
Proof.
  unfold new_buffer. apply Forall_fmap, Forall_true. intros. cbn. unfold is_u8, u8.
  apply Z.mod_pos_bound. lia.
Qed.

(** The part of a transfer of [k > 0] bytes at [pos] in whole sectors. *)
Lemma sector_span pos k : 0 <= pos -> 0 < k ->
  let first := divRoundDown pos SectorSize in
  let last := divRoundDown (pos + k - 1) SectorSize in
  0 <= first <= last /\ first * 512 <= pos < first * 512 + 512 /\
  last * 512 < pos + k <= last * 512 + 512.
Proof.
  intros Hp Hk first last. subst first last. unfold divRoundDown, SectorSize.
  rewrite !Z.quot_div_nonneg by lia. Z.to_euclidean_division_equations; lia.
Qed.

(** ** Updating a block *)

Lemma splice_app {A} (l : list A) n a b : (n + length a + length b <= length l)%nat ->
  splice (splice l n a) (n + length a) b = splice l n (a ++ b).
Proof.
  intros Hl. apply list_eq. intros i.
  destruct (decide (n + length a <= i < n + length a + length b)%nat).
  - rewrite lookup_splice_in by (rewrite ?length_splice; lia).
    rewrite lookup_splice_in by (rewrite ?length_app; lia). rewrite lookup_app_r by lia. f_equal. lia.
  - rewrite lookup_splice_out by (rewrite ?length_splice; lia).
    destruct (decide (n <= i < n + length a)%nat).
    + rewrite !lookup_splice_in by (rewrite ?length_app; lia). by rewrite lookup_app_l by lia.
    + rewrite !lookup_splice_out by (rewrite ?length_app; lia). done.
Qed.

Lemma blocks_lookup ss a x s bs : disk_ok a -> Forall (fun s => 0 <= s < NumSectors) ss ->
  ss !! (x / 512)%nat = Some s -> a !! Z.to_nat s = Some bs -> blocks ss a !! x = bs !! (x mod 512)%nat.
Proof.
  intros Ha Hs Hss Hbs. rewrite <- (blocks_slice ss a _ s bs Ha Hs Hss Hbs).
  pose proof (Nat.mod_upper_bound x 512 ltac:(lia)). rewrite lookup_slice by lia.
  f_equal. apply Nat.div_mod_eq.
Qed.

Lemma disk_ok_insert a s bs : disk_ok a -> length bs = 512%nat -> Forall is_u8 bs ->
  disk_ok (<[s := bs]> a).
Proof.
  intros (Hl & Hf & Hu) Hb Hub. split; [by rewrite length_insert|].
  split; apply Forall_insert; try done. unfold SectorSize. lia.
Qed.

(** Storing one sector of a file replaces one block of its bytes. *)
Lemma blocks_update ss a i s bs : disk_ok a -> Forall (fun s => 0 <= s < NumSectors) ss -> NoDup ss ->
  ss !! i = Some s -> length bs = 512%nat -> Forall is_u8 bs ->
  blocks ss (<[Z.to_nat s := bs]> a) = splice (blocks ss a) (512 * i) bs.
Proof.
  intros Ha Hs Hnd Hi Hb Hub. pose proof (disk_ok_insert a (Z.to_nat s) bs Ha Hb Hub) as Ha'.
  pose proof (lookup_lt_Some _ _ _ Hi) as Hlt.
  pose proof (length_blocks ss a Ha Hs) as Hl.
  apply list_eq. intros x. destruct (decide (x < 512 * length ss)%nat) as [Hx|Hx].
  2:{ rewrite !lookup_ge_None_2; [done|rewrite length_splice; lia|rewrite length_blocks by done; lia]. }
  assert (x / 512 < length ss)%nat as Hx' by (apply Nat.Div0.div_lt_upper_bound; lia).
  destruct (lookup_lt_is_Some_2 ss _ Hx') as [s' Hs'].
  pose proof (Forall_lookup_1 _ _ _ _ Hs Hs') as Hr'. pose proof (Forall_lookup_1 _ _ _ _ Hs Hi) as Hr.
  destruct (sector_lookup a s' Ha Hr') as (bs' & Hbs' & _). cbn in Hr, Hr'.
  pose proof (Nat.div_mod_eq x 512). pose proof (Nat.mod_upper_bound x 512 ltac:(lia)).
  destruct (decide (x / 512 = i)%nat) as [E|E].
  - rewrite E in Hs'. rewrite Hi in Hs'. injection Hs' as <-.
    rewrite (blocks_lookup ss _ x s bs); [|done|done|by rewrite E|apply list_lookup_insert_eq; destruct Ha; lia].
    rewrite lookup_splice_in by lia. f_equal. lia.
  - assert (s <> s') by (intros ->; apply E; by eapply NoDup_lookup).
    rewrite (blocks_lookup ss _ x s' bs'); [|done|done|done|rewrite list_lookup_insert_ne by lia; done].
    rewrite lookup_splice_out by lia. symmetry. by apply (blocks_lookup ss a x s' bs').
Qed.

Section device.
Context {D : Type} `{BlockDeviceLaws D} (raw : Z -> Z).

Lemma device_ok (d : D) : bd_wf d -> disk_ok (bd_sectors d).
Proof. exact (bd_shape d). Qed.

(** The sector that holds block [i] of a file. *)
Lemma ByteToSector_ok h i :
  file_ok h -> 0 <= i < FileHeader.numSectors h ->
  exists s, FileHeader.ByteToSector h (i * SectorSize) = Ok s /\
    file_sectors h !! Z.to_nat i = Some s /\ 0 <= s < NumSectors.
Proof.
  intros Hf Hi. pose proof (length_file_sectors h Hf) as Hl. pose proof Hf as (_ & _ & _ & Hr & _).
  destruct (lookup_lt_is_Some_2 (file_sectors h) (Z.to_nat i)) as [s Hs]; [lia|].
  exists s. split; [|split; [done|]].
  - unfold FileHeader.ByteToSector, SectorSize. rewrite Z.quot_mul by lia.
    apply rd_lookup; [lia|]. unfold file_sectors in Hs. by apply lookup_take_Some in Hs as [? _].
  - exact (Forall_lookup_1 _ _ _ _ Hr Hs).
Qed.

(** The loop that reads the sectors [first .. last] into the buffer. *)
Lemma read_loop (d : D) h first last buf :
  bd_wf d -> file_ok h -> 0 <= first <= last -> last < FileHeader.numSectors h ->
  length buf = (512 * Z.to_nat (1 + last - first))%nat ->
  exists d', for_range first (last + 1)
      (fun i '(buf, d) =>
         s ← FileHeader.ByteToSector h (i * SectorSize);
         '(bs, d) ← bd_read d s;
         buf ← bcopy_in buf ((i - first) * SectorSize) bs;
         Ok (buf, d)) (buf, d) =
    Ok (slice (blocks (file_sectors h) (bd_sectors d)) (512 * Z.to_nat first) (length buf), d') /\
    bd_wf d' /\ bd_sectors d' = bd_sectors d.
Proof.
  intros Hd Hf Hfl Hls Hlen. set (B := blocks (file_sectors h) (bd_sectors d)).
  pose proof (device_ok d Hd) as Hok. pose proof Hf as (_ & _ & _ & Hr & _).
  destruct (for_range_inv (fun i '(b, d') => bd_wf d' /\ bd_sectors d' = bd_sectors d /\
      length b = length buf /\
      take (512 * Z.to_nat (i - first)) b = slice B (512 * Z.to_nat first) (512 * Z.to_nat (i - first)))
    first (last + 1) (fun i '(buf, d) =>
         s ← FileHeader.ByteToSector h (i * SectorSize);
         '(bs, d) ← bd_read d s;
         buf ← bcopy_in buf ((i - first) * SectorSize) bs;
         Ok (buf, d)) (buf, d)) as ([b d'] & -> & Hd' & Es & Hl' & Hb); [lia| | |].
  - split; [done|]. split; [done|]. split; [done|]. by rewrite Z.sub_diag.
  - intros i [b d'] Hi (Hd' & Es & Hl' & Hb).
    destruct (ByteToSector_ok h i Hf) as (s & -> & Hs & Hsr); [lia|]. cbn [mbind outcome_bind].
    destruct (sector_lookup _ s Hok Hsr) as (bs & Hbs & Hlb & _).
    change (Z.to_nat SectorSize) with 512%nat in Hlb.
    destruct (bd_read_ok d' s bs Hd') as (d2 & -> & Hd2 & Es2); [lia|by rewrite Es|].
    cbn [mbind outcome_bind]. unfold SectorSize. rewrite bcopy_in_ok by lia. cbn [mbind outcome_bind].
    eexists. split; [done|]. split; [done|]. split; [congruence|].
    split; [by rewrite length_splice by lia|].
    replace (512 * Z.to_nat (i + 1 - first))%nat with (512 * Z.to_nat (i - first) + 512)%nat by lia.
    rewrite take_slice_app, <- Hb.
    replace (512 * Z.to_nat first + 512 * Z.to_nat (i - first))%nat with (512 * Z.to_nat i)%nat by lia.
    pose proof (blocks_slice (file_sectors h) (bd_sectors d) (Z.to_nat i) s bs Hok Hr Hs Hbs) as Ebs.
    fold B in Ebs. rewrite Ebs.
    replace (Z.to_nat ((i - first) * 512)) with (512 * Z.to_nat (i - first))%nat by lia.
    unfold splice. rewrite app_assoc, take_app_le.
    2:{ rewrite length_app, length_take. lia. }
    rewrite take_app_ge, length_take_le by (rewrite ?length_take; lia). f_equal. apply take_ge. lia.
  - exists d'. split; [|done].
    replace (512 * Z.to_nat (last + 1 - first))%nat with (length b) in Hb by lia.
    rewrite take_ge in Hb by lia. rewrite Hb at 1. by rewrite Hl'.
Qed.

Lemma ReadAt_ok (d : D) h n pos :
  bd_wf d -> file_ok h -> 0 <= pos -> pos + n < 2 ^ 31 ->
  let k := transferred (FileHeader.numBytes h) n pos in
  exists d', ReadAt raw d h n pos =
      Ok (k, slice (contents h (bd_sectors d)) (Z.to_nat pos) (Z.to_nat k), d') /\
    bd_wf d' /\ bd_sectors d' = bd_sectors d.
Proof.
  intros Hd Hf Hp Hn k. unfold ReadAt. pose proof (clip_spec (FileHeader.numBytes h) n pos Hp Hn) as Hc.
  unfold FileHeader.FileLength. fold k in Hc. destruct clip as [k'|].
  2:{ rewrite Hc. by exists d. }
  destruct Hc as (-> & Hk & Hle).
  destruct (sector_span pos k Hp Hk) as (H1 & H2 & H3). cbv zeta in *.
  set (first := divRoundDown pos SectorSize) in *. set (last := divRoundDown (pos + k - 1) SectorSize) in *.
  pose proof Hf as (_ & Hb & _). unfold SectorSize in Hb.
  destruct (read_loop d h first last (new_buffer raw ((1 + last - first) * SectorSize)))
    as (d' & E & Hd' & Es); [done|done|lia|lia|rewrite length_new_buffer; unfold SectorSize; lia|].
  rewrite E. cbn [mbind outcome_bind]. exists d'. split; [|done].
  pose proof (length_blocks (file_sectors h) (bd_sectors d) (device_ok d Hd)) as Hlb.
  specialize (Hlb (proj1 (proj2 (proj2 (proj2 Hf))))). pose proof (length_file_sectors h Hf) as Hls.
  rewrite length_new_buffer by (unfold SectorSize; lia). unfold SectorSize.
  rewrite bcopy_out_ok; [cbn [mbind outcome_bind]| lia|lia|rewrite length_slice; lia].
  do 3 f_equal. rewrite slice_slice by lia. unfold contents, slice.
  rewrite skipn_firstn_comm, take_take. f_equal; [lia|]. f_equal. lia.
Qed.

(** The loop that writes the buffer to the sectors [first .. last]. *)
Lemma write_loop (d : D) h first last buf :
  bd_wf d -> file_ok h -> 0 <= first <= last -> last < FileHeader.numSectors h ->
  length buf = (512 * Z.to_nat (1 + last - first))%nat -> Forall is_u8 buf ->
  exists d', for_range first (last + 1)
      (fun i d =>
         s ← FileHeader.ByteToSector h (i * SectorSize);
         bs ← bcopy_out buf ((i - first) * SectorSize) SectorSize;
         bd_write d s bs) d = Ok d' /\
    bd_wf d' /\
    blocks (file_sectors h) (bd_sectors d') =
      splice (blocks (file_sectors h) (bd_sectors d)) (512 * Z.to_nat first) buf /\
    (forall k, Z.of_nat k ∉ file_sectors h -> bd_sectors d' !! k = bd_sectors d !! k).
Proof.
  intros Hd Hf Hfl Hls Hlen Hu. pose proof Hf as (_ & _ & _ & Hr & Hnd).
  pose proof (length_file_sectors h Hf) as Hls'.
  pose proof (length_blocks _ _ (device_ok d Hd) Hr) as HlB.
  destruct (for_range_inv (fun i d' => bd_wf d' /\
      blocks (file_sectors h) (bd_sectors d') =
        splice (blocks (file_sectors h) (bd_sectors d)) (512 * Z.to_nat first) (take (512 * Z.to_nat (i - first)) buf) /\
      (forall k, Z.of_nat k ∉ file_sectors h -> bd_sectors d' !! k = bd_sectors d !! k))
    first (last + 1)
    (fun i d => s ← FileHeader.ByteToSector h (i * SectorSize);
                bs ← bcopy_out buf ((i - first) * SectorSize) SectorSize;
                bd_write d s bs) d) as (d' & -> & Hd' & HB & Ho); [lia| | |].
  - split; [done|]. split; [|done]. rewrite Z.sub_diag, Nat.mul_0_r, take_0.
    by rewrite splice_nil.
  - intros i d' Hi (Hd' & HB & Ho).
    destruct (ByteToSector_ok h i Hf) as (s & -> & Hs & Hsr); [lia|]. cbn [mbind outcome_bind].
    unfold SectorSize. rewrite bcopy_out_ok by lia. cbn [mbind outcome_bind].
    set (bs := slice buf _ _).
    assert (Hbs : length bs = 512%nat) by (apply length_slice; lia).
    assert (Hub : Forall is_u8 bs) by (by apply Forall_take, Forall_drop).
    destruct (bd_write_ok d' s bs Hd' Hsr) as (d2 & -> & Hd2 & Es2); [unfold SectorSize; lia|done|].
    exists d2. split; [done|]. split; [done|]. rewrite Es2. split.
    + rewrite (blocks_update _ _ (Z.to_nat i) s bs (device_ok d' Hd') Hr Hnd Hs Hbs Hub), HB.
      replace (512 * Z.to_nat (i + 1 - first))%nat with (512 * Z.to_nat (i - first) + 512)%nat by lia.
      replace (take (512 * Z.to_nat (i - first) + 512) buf)
        with (take (512 * Z.to_nat (i - first)) buf ++ bs).
      2:{ pose proof (take_slice_app buf 0 (512 * Z.to_nat (i - first)) 512) as Et.
          unfold slice in Et at 1 2. rewrite !drop_0 in Et. rewrite Et. f_equal. unfold bs. f_equal; lia. }
      rewrite <- splice_app by (rewrite ?length_take; lia). f_equal. rewrite length_take. lia.
    + intros k Hk. rewrite list_lookup_insert_ne; [by apply Ho|]. intros <-. apply Hk.
      rewrite Z2Nat.id by lia. by eapply list_elem_of_lookup_2.
  - exists d'. split; [done|]. split; [done|]. split; [|done]. rewrite HB. f_equal. apply take_ge. lia.
Qed.

(** A partial sector is read into the buffer at [off], when [c] asks for it:
    the bytes of the file in that sector are then in the buffer. *)
Lemma read_partial (d : D) h (c : bool) buf i off :
  bd_wf d -> file_ok h -> 0 <= i -> i * 512 < FileHeader.numBytes h -> 0 <= off ->
  off + 512 <= Z.of_nat (length buf) -> Forall is_u8 buf ->
  exists buf' d', (if c then
           '(_, bs, d) ← ReadAt raw d h SectorSize (i * SectorSize);
           buf ← bcopy_in buf off bs; Ok (buf, d)
         else Ok (buf, d)) = Ok (buf', d') /\
    bd_wf d' /\ bd_sectors d' = bd_sectors d /\ length buf' = length buf /\ Forall is_u8 buf' /\
    (forall x, (x < Z.to_nat off \/ Z.to_nat off + 512 <= x)%nat -> buf' !! x = buf !! x) /\
    (c = false -> buf' = buf) /\
    (c = true -> forall x, (x < 512)%nat -> i * 512 + Z.of_nat x < FileHeader.numBytes h ->
       buf' !! (Z.to_nat off + x)%nat = contents h (bd_sectors d) !! (Z.to_nat (i * 512) + x)%nat).
Proof.
  intros Hd Hf Hi Hin Hoff Hlen Hu. destruct c.
  2:{ exists buf, d. done. }
  pose proof Hf as (Hwf & Hb & Hnd & Hr & _). destruct Hwf as (Hs32 & _).
  unfold SectorSize. unfold is_s32 in Hs32.
  unfold FileHeader.NumDirect, SectorSize in Hnd. change (Z.quot (512 - 2 * 4) 4) with 126 in Hnd.
  destruct (ReadAt_ok d h 512 (i * 512)) as (d' & -> & Hd' & Es); [done|done|lia|unfold SectorSize in Hb; lia|].
  cbn [mbind outcome_bind].
  set (k := transferred (FileHeader.numBytes h) 512 (i * 512)).
  assert (Hk : 0 < k <= 512 /\ i * 512 + k <= FileHeader.numBytes h) by (unfold k, transferred; lia).
  set (bs := slice _ _ _).
  pose proof (length_blocks _ _ (device_ok d Hd) Hr) as HlB. pose proof (length_file_sectors h Hf) as Hls.
  unfold SectorSize in Hb.
  assert (Hbs : length bs = Z.to_nat k).
  { apply length_slice. unfold contents. rewrite length_take. lia. }
  assert (Hub : Forall is_u8 bs).
  { unfold bs, slice, contents. apply Forall_take, Forall_drop, Forall_take.
    destruct (device_ok d Hd) as (_ & _ & Hall). unfold blocks. clear -Hall.
    induction (file_sectors h) as [|s ss IH]; cbn [flat_map]; [constructor|].
    apply Forall_app. split; [|done]. destruct (bd_sectors d !! Z.to_nat s) eqn:E; [|constructor].
    by eapply (Forall_lookup_1 _ _ _ _ Hall). }
  rewrite bcopy_in_ok by lia. cbn [mbind outcome_bind]. do 2 eexists. split; [done|].
  split; [done|]. split; [done|]. split; [by rewrite length_splice by lia|].
  split; [by apply Forall_splice|]. split; [|split; [done|]].
  - intros x Hx. apply lookup_splice_out; lia.
  - intros _ x Hx Hin'. unfold k, transferred in *. rewrite lookup_splice_in by lia.
    unfold bs. rewrite lookup_slice by lia. f_equal. lia.
Qed.

(** The bytes of the first and the last sector that a write does not replace are
    read into the buffer before: [C] is the file, [N] its length, and the buffer
    starts with the sector [first]. *)
Lemma edges_read (C buf1 buf2 : list Z) N pos k first last (x : nat) :
  let c2 := negb (pos + k =? (last + 1) * 512) && (negb (first =? last) || (pos =? first * 512)) in
  0 <= first <= last -> first * 512 <= pos < first * 512 + 512 -> last * 512 < pos + k <= last * 512 + 512 ->
  (negb (pos =? first * 512) = true -> forall x, (x < 512)%nat -> first * 512 + Z.of_nat x < N ->
     buf1 !! (Z.to_nat 0 + x)%nat = C !! (Z.to_nat (first * 512) + x)%nat) ->
  (forall x, (x < Z.to_nat ((last - first) * 512) \/ Z.to_nat ((last - first) * 512) + 512 <= x)%nat -> buf2 !! x = buf1 !! x) ->
  (c2 = false -> buf2 = buf1) ->
  (c2 = true -> forall x, (x < 512)%nat -> last * 512 + Z.of_nat x < N ->
     buf2 !! (Z.to_nat ((last - first) * 512) + x)%nat = C !! (Z.to_nat (last * 512) + x)%nat) ->
  Z.of_nat x < N -> (512 * Z.to_nat first <= x < 512 * Z.to_nat (last + 1))%nat ->
  ~ (Z.to_nat pos <= x < Z.to_nat pos + Z.to_nat k)%nat ->
  buf2 !! (x - 512 * Z.to_nat first)%nat = C !! x.
Proof.
  intros c2 H1 H2 H3 Hr1 Ho2 Hf2 Hr2 Hx Hb' Hout. destruct (decide (x < Z.to_nat pos)%nat) as [Hlow|Hhigh].
  - assert (Hc1 : negb (pos =? first * 512) = true) by (apply negb_true_iff, Z.eqb_neq; lia).
    assert (E1 : buf1 !! (x - 512 * Z.to_nat first)%nat = C !! x).
    { etransitivity; [|etransitivity; [apply (Hr1 Hc1 (x - 512 * Z.to_nat first)%nat); lia|]]; f_equal; lia. }
    destruct c2 eqn:Ec2; [|by rewrite (Hf2 eq_refl)].
    rewrite Ho2; [exact E1|left]. subst c2. apply andb_true_iff in Ec2 as [_ Ec2].
    apply negb_true_iff in Hc1. rewrite Hc1, orb_false_r in Ec2.
    apply negb_true_iff, Z.eqb_neq in Ec2. lia.
  - destruct c2 eqn:Ec2.
    + etransitivity; [|etransitivity; [apply (Hr2 eq_refl (x - 512 * Z.to_nat last)%nat); lia|]]; f_equal; lia.
    + rewrite (Hf2 eq_refl). subst c2. apply andb_false_iff in Ec2 as [Ec2|Ec2].
      { apply negb_false_iff, Z.eqb_eq in Ec2. lia. }
      apply orb_false_iff in Ec2 as [Ec2 Ec3]. apply negb_false_iff, Z.eqb_eq in Ec2.
      etransitivity; [|etransitivity; [apply (Hr1 (eq_trans (f_equal negb Ec3) eq_refl) (x - 512 * Z.to_nat first)%nat); lia|]]; f_equal; lia.
Qed.

(** The bytes of the file around the ones written are in the buffer. *)
Lemma WriteAt_ok (d : D) h from n pos :
  bd_wf d -> file_ok h -> 0 <= pos -> pos + n < 2 ^ 31 ->
  let k := transferred (FileHeader.numBytes h) n pos in
  k <= Z.of_nat (length from) -> Forall is_u8 from ->
  exists d', WriteAt raw d h from n pos = Ok (k, d') /\ bd_wf d' /\
    contents h (bd_sectors d') =
      splice (contents h (bd_sectors d)) (Z.to_nat pos) (take (Z.to_nat k) from) /\
    (forall s, Z.of_nat s ∉ file_sectors h -> bd_sectors d' !! s = bd_sectors d !! s).
Proof.
  intros Hd Hf Hp Hn k Hfrom Hu. unfold WriteAt.
  pose proof (clip_spec (FileHeader.numBytes h) n pos Hp Hn) as Hc.
  unfold FileHeader.FileLength. fold k in Hc. destruct clip as [k'|].
  2:{ rewrite Hc. exists d. split; [done|]. split; [done|]. by rewrite take_0, splice_nil. }
  destruct Hc as (-> & Hk & Hle).
  destruct (sector_span pos k Hp Hk) as (H1 & H2 & H3). cbv zeta in *.
  set (first := divRoundDown pos SectorSize) in *. set (last := divRoundDown (pos + k - 1) SectorSize) in *.
  pose proof Hf as (_ & Hb & _ & Hr & _). pose proof (length_file_sectors h Hf) as Hls.
  pose proof (length_blocks _ _ (device_ok d Hd) Hr) as HlB. unfold SectorSize in Hb.
  set (buf0 := new_buffer raw ((1 + last - first) * SectorSize)).
  assert (Hl0 : length buf0 = Z.to_nat ((1 + last - first) * 512))
    by (apply length_new_buffer; unfold SectorSize; lia).
  destruct (read_partial d h (negb (pos =? first * SectorSize)) buf0 first 0)
    as (buf1 & d1 & -> & Hd1 & Es1 & Hl1 & Hu1 & Ho1 & _ & Hr1);
    [done|done|lia|lia|lia|lia|apply new_buffer_u8|]. cbn [mbind outcome_bind].
  set (c2 := negb (pos + k =? (last + 1) * SectorSize) &&
             (negb (first =? last) || (pos =? first * SectorSize))).
  destruct (read_partial d1 h c2 buf1 last ((last - first) * SectorSize))
    as (buf2 & d2 & -> & Hd2 & Es2 & Hl2 & Hu2 & Ho2 & Hf2 & Hr2);
    [done|done|lia|lia|unfold SectorSize; lia|unfold SectorSize; lia|done|]. cbn [mbind outcome_bind].
  rewrite Es1 in Hr2. unfold SectorSize in *.
  rewrite bcopy_out_ok by lia. cbn [mbind outcome_bind].
  change (slice from (Z.to_nat 0) (Z.to_nat k)) with (take (Z.to_nat k) from).
  assert (Hdata : length (take (Z.to_nat k) from) = Z.to_nat k) by (rewrite length_take; lia).
  rewrite bcopy_in_ok by lia. cbn [mbind outcome_bind].
  set (buf3 := splice buf2 _ _).
  assert (Hl3 : length buf3 = (512 * Z.to_nat (1 + last - first))%nat)
    by (unfold buf3; rewrite length_splice; lia).
  destruct (write_loop d2 h first last buf3) as (d3 & E3 & Hd3 & HB & Ho3);
    [done|done|lia|lia|done|apply Forall_splice; auto using Forall_take|].
  unfold SectorSize in E3. rewrite E3. cbn [mbind outcome_bind]. exists d3.
  rewrite Es2, Es1 in HB, Ho3. split; [done|]. split; [done|]. split; [|done].
  apply list_eq. intros x. unfold contents. rewrite HB.
  destruct (decide (x < Z.to_nat (FileHeader.numBytes h))%nat) as [Hx|Hx].
  2:{ rewrite !lookup_ge_None_2; [done| |rewrite length_take; lia].
      rewrite length_splice; rewrite ?length_take; lia. }
  rewrite lookup_take_lt by done.
  destruct (decide (Z.to_nat pos <= x < Z.to_nat pos + Z.to_nat k)%nat) as [Hin|Hout].
  - rewrite (lookup_splice_in (take _ (blocks _ _))) by (rewrite ?length_take; lia).
    rewrite lookup_splice_in by lia. unfold buf3. rewrite lookup_splice_in by lia. f_equal. lia.
  - rewrite (lookup_splice_out (take _ (blocks _ _))) by (rewrite ?length_take; lia).
    destruct (decide (512 * Z.to_nat first <= x < 512 * Z.to_nat (last + 1))%nat) as [Hb'|Hb'].
    2:{ rewrite lookup_splice_out by lia. by rewrite lookup_take_lt by done. }
    rewrite lookup_splice_in by lia. unfold buf3. rewrite lookup_splice_out by lia.
    unfold contents in Hr1, Hr2.
    apply (edges_read _ buf1 buf2 (FileHeader.numBytes h) pos k first last x); done || lia.
Qed.

Lemma contents_other h (a a' : list (list Z)) :
  Forall (fun s => 0 <= s) (file_sectors h) ->
  (forall s, Z.of_nat s ∈ file_sectors h -> a' !! s = a !! s) -> contents h a' = contents h a.
Proof.
  intros Hpos Heq. unfold contents, blocks. f_equal.
  induction Hpos as [|s ss Hs _ IH]; [done|]. cbn [flat_map]. rewrite IH.
  - rewrite Heq; [done|]. rewrite Z2Nat.id by done. left.
  - intros k Hk. apply Heq. by right.
Qed.

(** [ReadAt] returns the bytes of the file: for every position and count,
    it reads exactly the part of the request that lies inside the file, the
    answer does not depend on what the fresh buffer held, and the disk is not
    changed. *)
Theorem ReadAt_reads_contents (d : D) h numBytes position :
  bd_wf d -> file_ok h -> 0 <= position -> position + numBytes < 2 ^ 31 ->
  let k := transferred (FileHeader.numBytes h) numBytes position in
  exists d', ReadAt raw d h numBytes position =
      Ok (k, slice (contents h (bd_sectors d)) (Z.to_nat position) (Z.to_nat k), d') /\
    bd_wf d' /\ bd_sectors d' = bd_sectors d.
Proof. exact (ReadAt_ok d h numBytes position). Qed.

(** C15: [WriteAt] overwrites the bytes of the file from [position] on with the
    caller's, up to the end of the file, and nothing else: a later [ReadAt] of
    the same range returns the bytes written, the rest of the file is as
    before although whole sectors are written, and so is every file that shares
    no sector with it. *)
Theorem WriteAt_updates_contents (d : D) h from numBytes position :
  bd_wf d -> file_ok h -> 0 <= position -> position + numBytes < 2 ^ 31 ->
  let k := transferred (FileHeader.numBytes h) numBytes position in
  k <= Z.of_nat (length from) -> Forall is_u8 from ->
  exists d', WriteAt raw d h from numBytes position = Ok (k, d') /\ bd_wf d' /\
    contents h (bd_sectors d') =
      splice (contents h (bd_sectors d)) (Z.to_nat position) (take (Z.to_nat k) from) /\
    (exists d'', ReadAt raw d' h numBytes position = Ok (k, take (Z.to_nat k) from, d'')) /\
    (forall g, file_ok g -> (forall s, s ∈ file_sectors g -> s ∉ file_sectors h) ->
       contents g (bd_sectors d') = contents g (bd_sectors d)).
Proof.
  intros Hd Hf Hp Hn k Hfrom Hu.
  destruct (WriteAt_ok d h from numBytes position Hd Hf Hp Hn Hfrom Hu) as (d' & E & Hd' & Hc & Ho).
  fold k in E, Hc. exists d'. split; [done|]. split; [done|]. split; [done|].
  assert (Hlc : length (contents h (bd_sectors d)) = Z.to_nat (FileHeader.numBytes h)).
  { pose proof Hf as (_ & Hb & _ & Hr & _). unfold contents.
    pose proof (length_blocks _ _ (device_ok d Hd) Hr). pose proof (length_file_sectors h Hf).
    unfold SectorSize in Hb. rewrite length_take. lia. }
  assert (Hkb : 0 <= k /\ (k = 0 \/ position + k <= FileHeader.numBytes h)) by (unfold k, transferred; lia).
  split.
  - destruct (ReadAt_ok d' h numBytes position Hd' Hf Hp Hn) as (d'' & E' & _). fold k in E'.
    exists d''. rewrite E'. do 3 f_equal. rewrite Hc. destruct (decide (k = 0)) as [->|Hk0]; [done|].
    assert (Ht : length (take (Z.to_nat k) from) = Z.to_nat k) by (rewrite length_take; lia).
    pose proof (slice_splice_same (contents h (bd_sectors d)) (Z.to_nat position) (take (Z.to_nat k) from)) as Hss.
    rewrite Ht in Hss. apply Hss. lia.
  - intros g (_ & _ & _ & Hg & _) Hdisj. apply contents_other.
    + eapply Forall_impl; [|exact Hg]. cbn. lia.
    + intros s Hs. apply Ho. by apply Hdisj.
Qed.

End device.

(** A two-sector file to evaluate the theorems on. *)
Definition demo_header : FileHeader.t := FileHeader.mk 700 2 (5 :: 9 :: replicate 124 0).

Lemma demo_header_ok : file_ok demo_header.
Proof.
  split; [|split; [done|split; [done|split]]].
  - split; [done|]. split; [done|]. split; [done|].
    constructor; [done|]. constructor; [done|]. apply (Forall_replicate is_s32). done.
  - repeat constructor; lia.
  - change (NoDup [5; 9]). repeat constructor; set_solver.
Qed.

(** At a request that crosses the end of the file. *)
Lemma ReadAt_reads_contents_witness :
  exists d, Disk_new None = Ok d /\ exists d',
    ReadAt (fun i => i) (SynchDisk.mk d 0 0 0) demo_header 100 650 =
      Ok (50, slice (contents demo_header (bd_sectors (SynchDisk.mk d 0 0 0))) 650 50, d').
Proof.
  destruct SynchDisk.Disk_new_wf as (d & E & Hwf). exists d. split; [exact E|].
  destruct (ReadAt_reads_contents (fun i => i) (SynchDisk.mk d 0 0 0) demo_header 100 650)
    as (d' & H1 & _); [exact Hwf|exact demo_header_ok|lia|lia|]. exists d'. exact H1.
Defined.

(** C15 at a write that crosses a sector boundary. *)
Lemma WriteAt_updates_contents_witness :
  exists d, Disk_new None = Ok d /\ exists d' d'',
    WriteAt (fun i => i) (SynchDisk.mk d 0 0 0) demo_header (replicate 20 65) 20 500 = Ok (20, d') /\
    ReadAt (fun i => i) d' demo_header 20 500 = Ok (20, take 20 (replicate 20 65), d'').
Proof.
  destruct SynchDisk.Disk_new_wf as (d & E & Hwf). exists d. split; [exact E|].
  destruct (WriteAt_updates_contents (fun i => i) (SynchDisk.mk d 0 0 0) demo_header (replicate 20 65) 20 500)
    as (d' & H1 & _ & _ & (d'' & H2) & _);
    [exact Hwf|exact demo_header_ok|lia|lia|done|apply (Forall_replicate is_u8); done|].
  exists d', d''. split; [exact H1|exact H2].
Defined.

End OpenFile.
