(* ===== verification/Directory.v ===== *)
(** * filesys/directory.{h,cc}: the directory of file names

    [Directory.t] is class [Directory]: a table of entries.  A C string is the
    list of its characters, without the final NUL; the name of an entry is its
    array of [FileNameMaxLen + 1] characters.  An entry also carries the bytes
    of padding the compiler leaves in it, since the table is written to disk as
    it is in memory (20 bytes an entry on the i386).  The abstract view is a
    partial map from names, cut at [FileNameMaxLen] characters, to sectors. *)

From S2P Require Import Prelude.

Local Open Scope Z_scope.

Module Directory.

Definition FileNameMaxLen : nat := 9.

Record DirectoryEntry := mkEntry {
  inUse : bool;
  pad1 : list Z;        (* 3 bytes before the aligned [sector] *)
  sector : Z;
  name : list Z;        (* char name[FileNameMaxLen + 1] *)
  pad2 : list Z;        (* 2 bytes at the end *)
}.

Record t := mk {
  tableSize : Z;
  table : list DirectoryEntry;
}.

Definition set_inUse (e : DirectoryEntry) (b : bool) : DirectoryEntry :=
  mkEntry b (pad1 e) (sector e) (name e) (pad2 e).

(** ** Strings of the C library *)

(** [!strncmp(a, b, n)]; past its end a string reads as NUL. *)
Fixpoint strncmp_eq (n : nat) (a b : list Z) : bool :=
  match n with
  | O => true
  | S n' =>
      let x := nth 0 a 0 in
      let y := nth 0 b 0 in
      if x =? y then if x =? 0 then true else strncmp_eq n' (tail a) (tail b) else false
  end.

(** What [strncpy(dst, src, n)] stores: [n] characters, filled with NULs. *)
Fixpoint strncpy_bytes (n : nat) (src : list Z) : list Z :=
  match n with
  | O => []
  | S n' => match src with
            | [] => 0 :: strncpy_bytes n' []
            | c :: src' => if c =? 0 then 0 :: strncpy_bytes n' [] else c :: strncpy_bytes n' src'
            end
  end.
Definition strncpy (dst src : list Z) (n : nat) : list Z := strncpy_bytes n src ++ drop n dst.

(** ** Operations *)

(** [raw] is what the array [new DirectoryEntry[size]] held. *)
Definition Directory_new (raw : Z -> DirectoryEntry) (size : Z) : t :=
  mk size ((fun i => set_inUse (raw i) false) <$> seqZ 0 size).

(** The loop of [FindIndex], with [n] entries left from [i] on. *)
Fixpoint FindIndex_from (n : nat) (i : Z) (d : t) (nm : list Z) : outcome Z :=
  match n with
  | O => Ok (-1)
  | S n' =>
      e ← rd (table d) i;
      if inUse e && strncmp_eq FileNameMaxLen (name e) nm then Ok i
      else FindIndex_from n' (i + 1) d nm
  end.

Definition FindIndex (d : t) (nm : list Z) : outcome Z :=
  FindIndex_from (Z.to_nat (tableSize d)) 0 d nm.

Definition Find (d : t) (nm : list Z) : outcome Z :=
  i ← FindIndex d nm;
  if negb (i =? -1) then e ← rd (table d) i; Ok (sector e) else Ok (-1).

(** The loop of [Add] that looks for an entry that is not in use. *)
Fixpoint Add_from (n : nat) (i : Z) (d : t) (nm : list Z) (newSector : Z) : outcome (bool * t) :=
  match n with
  | O => Ok (false, d)
  | S n' =>
      e ← rd (table d) i;
      if negb (inUse e) then
        tb ← wr (table d) i
               (mkEntry true (pad1 e) newSector (strncpy (name e) nm FileNameMaxLen) (pad2 e));
        Ok (true, mk (tableSize d) tb)
      else Add_from n' (i + 1) d nm newSector
  end.

Definition Add (d : t) (nm : list Z) (newSector : Z) : outcome (bool * t) :=
  i ← FindIndex d nm;
  if negb (i =? -1) then Ok (false, d)
  else Add_from (Z.to_nat (tableSize d)) 0 d nm newSector.

Definition Remove (d : t) (nm : list Z) : outcome (bool * t) :=
  i ← FindIndex d nm;
  if i =? -1 then Ok (false, d)
  else
    e ← rd (table d) i;
    tb ← wr (table d) i (set_inUse e false);
    Ok (true, mk (tableSize d) tb).

(** What [List] prints: the names in use. *)
Definition List_ (d : t) : list (list Z) :=
  name <$> filter (fun e => inUse e = true) (table d).

(** ** The bytes on disk *)

Definition EntrySize : nat := 20.

Definition entry_to_bytes (e : DirectoryEntry) : list Z :=
  (if inUse e then 1 else 0) :: pad1 e ++ le_bytes 4 (sector e) ++ name e ++ pad2 e.

Definition entry_of_bytes (bs : list Z) : DirectoryEntry :=
  mkEntry (negb (nth 0 bs 0 =? 0)) (slice bs 1 3) (s32 (le_value (slice bs 4 4)))
          (slice bs 8 10) (slice bs 18 2).

Definition to_bytes (d : t) : list Z := flat_map entry_to_bytes (table d).

Fixpoint entries_of_bytes (n : nat) (bs : list Z) : list DirectoryEntry :=
  match n with
  | O => []
  | S n' => entry_of_bytes (take EntrySize bs) :: entries_of_bytes n' (drop EntrySize bs)
  end.

(** [FetchFrom] overwrites the table with the bytes read from the file. *)
Definition of_bytes (d : t) (bs : list Z) : t :=
  mk (tableSize d) (entries_of_bytes (Z.to_nat (tableSize d)) bs).

(** ** The abstract view *)

(** What [strncmp] compares of a string: its characters up to the first NUL,
    [FileNameMaxLen] at most. *)
Fixpoint cut (n : nat) (s : list Z) : list Z :=
  match n, s with
  | S n', c :: s' => if c =? 0 then [] else c :: cut n' s'
  | _, _ => []
  end.
Definition key (s : list Z) : list Z := cut FileNameMaxLen s.

(** The first entry in use under a key, and the map it defines. *)
Fixpoint assoc (k : list Z) (es : list DirectoryEntry) : option Z :=
  match es with
  | [] => None
  | e :: es' => if bool_decide (inUse e = true /\ key (name e) = k) then Some (sector e) else assoc k es'
  end.

Definition entry_ok (e : DirectoryEntry) : Prop :=
  length (pad1 e) = 3%nat /\ length (name e) = 10%nat /\ length (pad2 e) = 2%nat /\
  is_s32 (sector e) /\ Forall is_u8 (pad1 e ++ name e ++ pad2 e).

(** The keys in use are pairwise different. *)
Definition keys (es : list DirectoryEntry) : list (list Z) :=
  flat_map (fun e => if inUse e then [key (name e)] else []) es.

Definition wf (d : t) : Prop :=
  Z.of_nat (length (table d)) = tableSize d /\ Forall entry_ok (table d) /\ NoDup (keys (table d)).

Lemma strncmp_cut n a b : strncmp_eq n a b = bool_decide (cut n a = cut n b).
Proof.
  revert a b. induction n as [|n IH]; intros a b; [done|].
  assert (Hc : forall s, cut (S n) s = if nth 0 s 0 =? 0 then [] else nth 0 s 0 :: cut n (tail s)).
  { intros [|c s]; [done|]. cbn [cut nth tail]. done. }
  rewrite !Hc. cbn [strncmp_eq]. destruct (Z.eqb_spec (nth 0 a 0) (nth 0 b 0)) as [->|Hne].
  - destruct (Z.eqb_spec (nth 0 b 0) 0); [by rewrite bool_decide_eq_true_2|].
    rewrite IH. apply bool_decide_ext. split; [by intros ->|]. by intros [= ->].
  - symmetry. apply bool_decide_eq_false_2.
    destruct (Z.eqb_spec (nth 0 a 0) 0), (Z.eqb_spec (nth 0 b 0) 0); congruence.
Qed.

Lemma cut_strncpy n m s rest : (n <= m)%nat -> cut n (strncpy_bytes m s ++ rest) = cut n s.
Proof.
  revert m s. induction n as [|n IH]; intros m s Hm; [done|]. destruct m as [|m]; [lia|].
  destruct s as [|c s]; [done|]. cbn [strncpy_bytes]. destruct (Z.eqb_spec c 0) as [->|Hc]; [done|].
  cbn [app cut]. destruct (Z.eqb_spec c 0); [done|]. f_equal. apply IH. lia.
Qed.

Lemma length_strncpy_bytes n s : length (strncpy_bytes n s) = n.
Proof. revert s. induction n as [|n IH]; intros [|c s]; cbn; try case_match; cbn; by rewrite ?IH. Qed.

(** The name stored is found again under the name it was given. *)
Lemma key_strncpy dst src : key (strncpy dst src FileNameMaxLen) = key src.
Proof. unfold key, strncpy. by apply cut_strncpy. Qed.

(** ** The table as a map *)

Lemma FindIndex_from_spec d nm n i :
  Z.of_nat (i + n) = Z.of_nat (length (table d)) ->
  (FindIndex_from n (Z.of_nat i) d nm = Ok (-1) /\ assoc (key nm) (drop i (table d)) = None) \/
  (exists j e, (i <= j)%nat /\ FindIndex_from n (Z.of_nat i) d nm = Ok (Z.of_nat j) /\
     table d !! j = Some e /\ inUse e = true /\ key (name e) = key nm /\
     assoc (key nm) (drop i (table d)) = Some (sector e)).
Proof.
  revert i. induction n as [|n IH]; intros i Hn; cbn [FindIndex_from].
  - left. split; [done|]. by rewrite drop_ge by lia.
  - destruct (lookup_lt_is_Some_2 (table d) i) as [e He]; [lia|].
    rewrite (rd_lookup _ _ e) by (lia || by rewrite Nat2Z.id). cbn [mbind outcome_bind].
    rewrite (drop_S _ e) by done. cbn [assoc]. rewrite strncmp_cut. fold (key (name e)). fold (key nm).
    destruct (inUse e) eqn:Eu; cbn [andb].
    + case_bool_decide as Ek.
      * right. exists i, e. rewrite bool_decide_eq_true_2 by done. done.
      * rewrite bool_decide_eq_false_2 by tauto.
        replace (Z.of_nat i + 1) with (Z.of_nat (S i)) by lia.
        destruct (IH (S i)) as [?|(j & e' & ? & ?)]; [lia|by left|right]. exists j, e'. split; [lia|done].
    + rewrite bool_decide_eq_false_2 by (intros [? _]; done).
      replace (Z.of_nat i + 1) with (Z.of_nat (S i)) by lia.
      destruct (IH (S i)) as [?|(j & e' & ? & ?)]; [lia|by left|right]. exists j, e'. split; [lia|done].
Qed.

Lemma FindIndex_spec d nm :
  wf d ->
  (FindIndex d nm = Ok (-1) /\ assoc (key nm) (table d) = None) \/
  (exists j e, FindIndex d nm = Ok (Z.of_nat j) /\ table d !! j = Some e /\ inUse e = true /\
     key (name e) = key nm /\ assoc (key nm) (table d) = Some (sector e)).
Proof.
  intros (Hl & _). destruct (FindIndex_from_spec d nm (Z.to_nat (tableSize d)) 0) as [H|(j & e & _ & H)];
    [lia|by left|right]. by exists j, e.
Qed.

Lemma keys_cons e es : keys (e :: es) = (if inUse e then [key (name e)] else []) ++ keys es.
Proof. done. Qed.

Lemma assoc_None k es : assoc k es = None <-> k ∉ keys es.
Proof.
  induction es as [|e es IH]; [split; [intros _; apply not_elem_of_nil|done]|].
  rewrite keys_cons. cbn [assoc]. case_bool_decide as Hb.
  - destruct Hb as [-> <-]. split; [done|]. intros H. exfalso. apply H. left.
  - rewrite IH. destruct (inUse e) eqn:Eu; [|done]. cbn [app]. rewrite not_elem_of_cons. naive_solver.
Qed.

(** Filling an entry that is not in use with a new key. *)
Lemma assoc_insert_new es j e e' k :
  es !! j = Some e -> inUse e = false -> inUse e' = true -> assoc (key (name e')) es = None ->
  assoc k (<[j := e']> es) = if bool_decide (k = key (name e')) then Some (sector e') else assoc k es.
Proof.
  intros Hj He He' Hn. revert j Hj. induction es as [|e0 es IH]; intros [|j] Hj; cbn in Hj; [done|done| |].
  - injection Hj as ->. change (<[0%nat := e']> (e :: es)) with (e' :: es). cbn [assoc].
    rewrite He, He'. repeat case_bool_decide; naive_solver.
  - cbn [assoc] in Hn.
    destruct (bool_decide (inUse e0 = true /\ key (name e0) = key (name e'))) eqn:H0; [done|].
    apply bool_decide_eq_false in H0. change (<[S j := e']> (e0 :: es)) with (e0 :: <[j := e']> es). cbn [assoc]. rewrite IH by done.
    repeat case_bool_decide; naive_solver.
Qed.

Lemma keys_insert_new es j e e' :
  es !! j = Some e -> inUse e = false -> inUse e' = true ->
  Permutation (keys (<[j := e']> es)) (key (name e') :: keys es).
Proof.
  intros Hj He He'. revert j Hj. induction es as [|e0 es IH]; intros [|j] Hj; cbn in Hj; [done|done| |].
  - injection Hj as ->. change (<[0%nat := e']> (e :: es)) with (e' :: es). cbn. by rewrite He, He'.
  - change (<[S j := e']> (e0 :: es)) with (e0 :: <[j := e']> es). unfold keys in *. cbn [flat_map].
    rewrite (IH j Hj). destruct (inUse e0); cbn [app]; [apply perm_swap|done].
Qed.

(** Freeing an entry removes its key, the keys being different. *)
Lemma assoc_insert_free es j e k :
  NoDup (keys es) -> es !! j = Some e -> inUse e = true ->
  assoc k (<[j := set_inUse e false]> es) = if bool_decide (k = key (name e)) then None else assoc k es.
Proof.
  intros Hnd Hj He. revert j Hj. induction es as [|e0 es IH]; intros [|j] Hj; cbn in Hj; [done|done| |].
  - injection Hj as ->. change (<[0%nat := ?x]> (e :: es)) with (x :: es). cbn [assoc set_inUse inUse].
    rewrite bool_decide_eq_false_2 by naive_solver.
    unfold keys in Hnd. cbn [flat_map] in Hnd. rewrite He in Hnd. cbn [app] in Hnd.
    apply list.NoDup_cons in Hnd as [Hni _]. fold (keys es) in Hni.
    case_bool_decide as Hk; [subst k; by apply assoc_None|].
    rewrite bool_decide_eq_false_2 by naive_solver. done.
  - change (<[S j := ?x]> (e0 :: es)) with (e0 :: <[j := x]> es). cbn [assoc].
    assert (Hnd' : NoDup (keys es) /\ (inUse e0 = true -> key (name e0) ∉ keys es)).
    { unfold keys in *. cbn [flat_map] in Hnd. destruct (inUse e0); [|done].
      cbn [app] in Hnd. by apply list.NoDup_cons in Hnd as [? ?]. }
    destruct Hnd' as [Hnd' Hni]. rewrite IH by done.
    destruct (bool_decide (k = key (name e))) eqn:B0; [|done].
    destruct (bool_decide (inUse e0 = true /\ key (name e0) = k)) eqn:B1; [|done].
    apply bool_decide_eq_true in B0, B1. subst k. exfalso. destruct B1 as [B1 B2].
    assert (Hin : key (name e) ∈ keys es).
    { unfold keys. apply list_elem_of_In, in_flat_map. exists e. split.
      - apply list_elem_of_In. by eapply list_elem_of_lookup_2.
      - rewrite He. by left. }
    apply (Hni B1). by rewrite B2.
Qed.

Lemma keys_insert_free es j e :
  es !! j = Some e -> inUse e = true -> NoDup (keys es) -> NoDup (keys (<[j := set_inUse e false]> es)).
Proof.
  intros Hj He Hnd.
  assert (He' : inUse (set_inUse e false) = false) by done.
  pose proof (keys_insert_new (<[j := set_inUse e false]> es) j (set_inUse e false) e) as HP.
  rewrite list_insert_insert_eq, (list_insert_id es j e Hj) in HP.
  rewrite HP in Hnd; [by apply list.NoDup_cons in Hnd as [_ ?]| |done|done].
  apply list_lookup_insert_eq. by eapply lookup_lt_Some.
Qed.

(** The entry [Add] fills. *)
Definition added (e : DirectoryEntry) (nm : list Z) (s : Z) : DirectoryEntry :=
  mkEntry true (pad1 e) s (strncpy (name e) nm FileNameMaxLen) (pad2 e).

Lemma Add_from_spec d nm s n i :
  Z.of_nat (i + n) = Z.of_nat (length (table d)) ->
  (exists j e, Add_from n (Z.of_nat i) d nm s = Ok (true, mk (tableSize d) (<[j := added e nm s]> (table d))) /\
     table d !! j = Some e /\ inUse e = false) \/
  (Add_from n (Z.of_nat i) d nm s = Ok (false, d) /\ Forall (fun e => inUse e = true) (drop i (table d))).
Proof.
  revert i. induction n as [|n IH]; intros i Hn; cbn [Add_from].
  - right. split; [done|]. rewrite drop_ge by lia. constructor.
  - destruct (lookup_lt_is_Some_2 (table d) i) as [e He]; [lia|].
    rewrite (rd_lookup _ _ e) by (lia || by rewrite Nat2Z.id). cbn [mbind outcome_bind].
    destruct (inUse e) eqn:Eu; cbn [negb].
    + replace (Z.of_nat i + 1) with (Z.of_nat (S i)) by lia.
      destruct (IH (S i)) as [?|[? ?]]; [lia|by left|right]. split; [done|].
      rewrite (drop_S _ e) by done. by constructor.
    + left. exists i, e. rewrite wr_ok by lia. cbn [mbind outcome_bind]. by rewrite Nat2Z.id.
Qed.

Lemma added_ok e nm s : entry_ok e -> Forall is_u8 nm -> is_s32 s -> entry_ok (added e nm s).
Proof.
  intros (H1 & H2 & H3 & _ & H5) Hnm Hs. unfold entry_ok, added, strncpy; cbn [pad1 name pad2 sector].
  rewrite length_app, length_strncpy_bytes, length_drop. apply Forall_app in H5 as [? H5].
  apply Forall_app in H5 as [? ?].
  assert (Hb : forall n, Forall is_u8 (strncpy_bytes n nm)).
  { intros n. clear -Hnm. revert nm Hnm. induction n as [|n IH]; intros nm Hnm; [constructor|].
    destruct Hnm as [|c nm Hc Hnm]; cbn [strncpy_bytes].
    - constructor; [by unfold is_u8|]. apply IH. constructor.
    - destruct (c =? 0); constructor; [by unfold is_u8|apply IH; constructor|done|by apply IH]. }
  unfold FileNameMaxLen in *. split; [done|]. split; [lia|]. split; [done|]. split; [done|].
  rewrite !Forall_app. auto using Forall_drop.
Qed.

Lemma Add_ok d nm s :
  wf d -> Forall is_u8 nm -> is_s32 s ->
  exists ok d', Add d nm s = Ok (ok, d') /\ wf d' /\ tableSize d' = tableSize d /\
    if ok : bool then
      assoc (key nm) (table d) = None /\
      forall k, assoc k (table d') = if bool_decide (k = key nm) then Some s else assoc k (table d)
    else
      d' = d /\ (assoc (key nm) (table d) <> None \/ Forall (fun e => inUse e = true) (table d)).
Proof.
  intros Hwf Hnm Hs. pose proof Hwf as (Hl & Hok & Hnd). unfold Add.
  destruct (FindIndex_spec d nm Hwf) as [[-> Hn]|(j & e & -> & _ & _ & _ & Ha)];
    cbn [mbind outcome_bind].
  - destruct (Add_from_spec d nm s (Z.to_nat (tableSize d)) 0) as [(j & e & E & He & Hu)|[E Hfull]];
      [lia| |]; change (Z.of_nat 0) with 0 in E; change (negb (-1 =? -1)) with false; cbv iota; rewrite E.
    + do 2 eexists. split; [done|].
      assert (Hkey : key (name (added e nm s)) = key nm) by apply key_strncpy.
      split; [|split; [done|split; [done|]]].
      * split; [cbn; by rewrite length_insert|]. split.
        -- cbn. apply Forall_insert; [done|]. apply added_ok; [|done|done].
           exact (Forall_lookup_1 _ _ _ _ Hok He).
        -- cbn [table]. rewrite (keys_insert_new _ _ e) by done. rewrite Hkey.
           apply list.NoDup_cons. split; [by apply assoc_None|done].
      * intros k. cbn [table]. rewrite (assoc_insert_new _ _ e) by (done || by rewrite Hkey). by rewrite Hkey.
    + exists false, d. do 3 (split; [done|]). split; [done|by right].
  - destruct (Z.eqb_spec (Z.of_nat j) (-1)); [lia|]. cbn [negb]. exists false, d.
    do 3 (split; [done|]). split; [done|left; by rewrite Ha].
Qed.

Lemma Remove_ok d nm :
  wf d ->
  exists d', Remove d nm = Ok (bool_decide (assoc (key nm) (table d) <> None), d') /\ wf d' /\
    tableSize d' = tableSize d /\
    forall k, assoc k (table d') = if bool_decide (k = key nm) then None else assoc k (table d).
Proof.
  intros Hwf. pose proof Hwf as (Hl & Hok & Hnd). unfold Remove.
  destruct (FindIndex_spec d nm Hwf) as [[-> Hn]|(j & e & -> & He & Hu & Hk & Ha)];
    cbn [mbind outcome_bind].
  - exists d. rewrite Hn. split; [done|]. split; [done|]. split; [done|].
    intros k. case_bool_decide; [by subst|done].
  - pose proof (lookup_lt_Some _ _ _ He) as Hlt.
    destruct (Z.eqb_spec (Z.of_nat j) (-1)); [lia|].
    rewrite (rd_lookup _ _ e) by (lia || by rewrite Nat2Z.id). cbn [mbind outcome_bind].
    rewrite wr_ok by lia. cbn [mbind outcome_bind]. rewrite Nat2Z.id, Ha.
    eexists. split; [done|]. split; [|split; [done|]].
    + split; [cbn; by rewrite length_insert|]. split; cbn.
      * apply Forall_insert; [done|]. exact (Forall_lookup_1 _ _ _ _ Hok He).
      * by apply keys_insert_free.
    + intros k. cbn [table]. rewrite (assoc_insert_free _ _ e) by done. by rewrite Hk.
Qed.

(** What [Add] and [Remove] do to the table when they succeed. *)
Lemma Add_table d nm s d' : wf d -> Add d nm s = Ok (true, d') ->
  exists j e, table d !! j = Some e /\ inUse e = false /\ d' = mk (tableSize d) (<[j := added e nm s]> (table d)).
Proof.
  intros Hwf. pose proof Hwf as (Hl & _). unfold Add.
  destruct (FindIndex_spec d nm Hwf) as [[-> _]|(j & e & -> & _)]; cbn [mbind outcome_bind].
  - destruct (Add_from_spec d nm s (Z.to_nat (tableSize d)) 0) as [(j & e & E & He & Hu)|[E _]]; [lia| |];
      change (Z.of_nat 0) with 0 in E; change (negb (-1 =? -1)) with false; cbv iota; rewrite E; [|done].
    intros [= <-]. by exists j, e.
  - destruct (Z.eqb_spec (Z.of_nat j) (-1)); [lia|]. done.
Qed.

Lemma Remove_table d nm s : wf d -> assoc (key nm) (table d) = Some s ->
  exists j e, table d !! j = Some e /\ inUse e = true /\ sector e = s /\ key (name e) = key nm /\
    Remove d nm = Ok (true, mk (tableSize d) (<[j := set_inUse e false]> (table d))).
Proof.
  intros Hwf Ha. unfold Remove. destruct (FindIndex_spec d nm Hwf) as [[_ Hn]|(j & e & -> & He & Hu & Hk & Ha')];
    [congruence|]. exists j, e. split; [done|]. split; [done|]. split; [congruence|]. split; [done|].
  cbn [mbind outcome_bind]. pose proof (lookup_lt_Some _ _ _ He) as Hlt. destruct (Z.eqb_spec (Z.of_nat j) (-1)); [lia|].
  rewrite (rd_lookup _ _ e) by (lia || by rewrite Nat2Z.id). cbn [mbind outcome_bind].
  rewrite wr_ok by lia. cbn [mbind outcome_bind]. by rewrite Nat2Z.id.
Qed.

Lemma Find_ok d nm : wf d -> Find d nm = Ok (default (-1) (assoc (key nm) (table d))).
Proof.
  intros Hwf. unfold Find.
  destruct (FindIndex_spec d nm Hwf) as [[-> Hn]|(j & e & -> & He & _ & _ & Ha)];
    cbn [mbind outcome_bind]; [by rewrite Hn|].
  destruct (Z.eqb_spec (Z.of_nat j) (-1)); [lia|]. cbn [negb].
  rewrite (rd_lookup _ _ e) by (lia || by rewrite Nat2Z.id). cbn [mbind outcome_bind]. by rewrite Ha.
Qed.

(** C21: the directory is a map from names (of which the first nine characters
    count) to header sectors: [Find] looks a name up; [Add] binds a new name,
    and answers FALSE and changes nothing exactly when the name is bound or the
    table is full; [Remove] unbinds a name and answers whether it was bound;
    the other names keep their sector and no name is ever bound twice. *)
Theorem directory_is_a_map d nm s :
  wf d -> Forall is_u8 nm -> is_s32 s ->
  let M k := assoc k (table d) in
  Find d nm = Ok (default (-1) (M (key nm))) /\
  (exists ok d', Add d nm s = Ok (ok, d') /\ wf d' /\ tableSize d' = tableSize d /\
    if ok : bool then
      M (key nm) = None /\
      forall k, assoc k (table d') = if bool_decide (k = key nm) then Some s else M k
    else d' = d /\ (M (key nm) <> None \/ Forall (fun e => inUse e = true) (table d))) /\
  (exists d', Remove d nm = Ok (bool_decide (M (key nm) <> None), d') /\ wf d' /\
    tableSize d' = tableSize d /\
    forall k, assoc k (table d') = if bool_decide (k = key nm) then None else M k).
Proof. intros Hwf Hnm Hs. split; [by apply Find_ok|]. split; [by apply Add_ok|by apply Remove_ok]. Qed.

(** ** The bytes on disk *)

Lemma length_entry_to_bytes e : entry_ok e -> length (entry_to_bytes e) = EntrySize.
Proof.
  intros (H1 & H2 & H3 & _). unfold entry_to_bytes. cbn [length].
  rewrite !length_app, length_le_bytes, H1, H2, H3. done.
Qed.

Lemma entry_of_to_bytes e : entry_ok e -> entry_of_bytes (entry_to_bytes e) = e.
Proof.
  intros (H1 & H2 & H3 & H4 & _). destruct e as [u p1 s nm p2]. cbn in H1, H2, H3, H4.
  destruct p1 as [|a1 [|a2 [|a3 [|]]]]; try done.
  destruct p2 as [|c1 [|c2 [|]]]; try done.
  destruct nm as [|b1 [|b2 [|b3 [|b4 [|b5 [|b6 [|b7 [|b8 [|b9 [|b10 [|]]]]]]]]]]]; try done.
  unfold entry_of_bytes, entry_to_bytes, slice.
  cbn [inUse pad1 sector name pad2 app le_bytes drop take nth]. f_equal; [by destruct u|].
  change [s mod 2 ^ 8; s / 2 ^ 8 mod 2 ^ 8; s / 2 ^ 8 / 2 ^ 8 mod 2 ^ 8;
          s / 2 ^ 8 / 2 ^ 8 / 2 ^ 8 mod 2 ^ 8] with (le_bytes 4 s).
  rewrite le_value_bytes. etransitivity; [apply s32_u32|by apply s32_small].
Qed.

Lemma entries_of_bytes_app es rest :
  Forall entry_ok es -> entries_of_bytes (length es) (flat_map entry_to_bytes es ++ rest) = es.
Proof.
  induction 1 as [|e es He _ IH]; [done|]. cbn [length flat_map]. rewrite <- app_assoc.
  cbn [entries_of_bytes].
  rewrite take_app_length', drop_app_length' by (by rewrite length_entry_to_bytes).
  by rewrite IH, entry_of_to_bytes.
Qed.

Lemma length_directory_bytes d : wf d -> length (to_bytes d) = (20 * length (table d))%nat.
Proof.
  intros (_ & Hok & _). unfold to_bytes. induction Hok as [|e es He _ IH]; [done|].
  cbn [flat_map length]. rewrite length_app, IH, length_entry_to_bytes by done. unfold EntrySize. lia.
Qed.

Lemma directory_bytes_u8 d : wf d -> Forall is_u8 (to_bytes d).
Proof.
  intros (_ & Hok & _). unfold to_bytes. induction Hok as [|e es He _ IH]; [constructor|].
  cbn [flat_map]. apply Forall_app. split; [|done]. destruct He as (_ & _ & _ & _ & Hb).
  apply Forall_app in Hb as [? Hb]. apply Forall_app in Hb as [? ?]. unfold entry_to_bytes.
  constructor; [by destruct (inUse e)|]. rewrite !Forall_app. auto using le_bytes_u8.
Qed.

(** The directory survives the disk: reading the table of any directory of
    the same size back from the bytes it was written as, whatever follows them
    in the file, restores every entry. *)
Theorem directory_bytes_roundtrip d c rest :
  wf d -> tableSize c = tableSize d ->
  of_bytes c (to_bytes d ++ rest) = d /\
  Z.of_nat (length (to_bytes d)) = Z.of_nat EntrySize * tableSize d.
Proof.
  intros Hwf Hs. pose proof Hwf as (Hl & Hok & _). split.
  - unfold of_bytes, to_bytes. rewrite Hs, <- Hl, Nat2Z.id, entries_of_bytes_app by done.
    rewrite Hl. by destruct d.
  - rewrite length_directory_bytes by done. unfold EntrySize. lia.
Qed.

(** A directory of two entries, one of them in use. *)
Definition demo : t :=
  mk 2 [mkEntry true [0; 0; 0] 7 [97; 98; 0; 0; 0; 0; 0; 0; 0; 0] [0; 0];
        mkEntry false [1; 2; 3] 0 [9; 9; 9; 9; 9; 9; 9; 9; 9; 9] [4; 5]].

Ltac u8_list := repeat (apply List.Forall_cons; [unfold is_u8; lia|]); apply List.Forall_nil.

Lemma demo_directory_wf : wf demo.
Proof.
  split; [done|]. split.
  - apply List.Forall_cons; [|apply List.Forall_cons; [|apply List.Forall_nil]];
      (do 4 (split; [done|])); cbn; u8_list.
  - change (NoDup [[97; 98]]). apply NoDup_singleton.
Qed.

(** C21 at that directory and the name "cd". *)
Lemma directory_is_a_map_witness :
  Find demo [99; 100] = Ok (-1) /\
  exists ok d', Add demo [99; 100] 12 = Ok (ok, d') /\ wf d'.
Proof.
  destruct (directory_is_a_map demo [99; 100] 12 demo_directory_wf) as (H1 & (ok & d' & H2 & H3 & _) & _);
    [u8_list|by unfold is_s32|].
  split; [exact H1|]. exists ok, d'. split; [exact H2|exact H3].
Defined.

Lemma directory_bytes_roundtrip_witness : of_bytes (mk 2 []) (to_bytes demo ++ [1; 2; 3]) = demo.
Proof. apply (directory_bytes_roundtrip demo (mk 2 []) [1; 2; 3] demo_directory_wf eq_refl). Defined.

End Directory.
