(* ===== verification/FileSys.v ===== *)
(** * filesys/filesys.{h,cc}: the file system

    [FileSystem.t] is class [FileSystem] of the FILESYS build over any block
    device: the two files that stay open (the free map and the directory), and
    the table of open files the system calls use.  Open files are objects on a
    heap, because the table and the callers share them: the constructor, for
    one, puts the same object in two slots of the table.  What memory obtained
    with [new] holds first is given by the parameters [raw] (bytes), [rawdir]
    (directory entries) and [rawhdr] (a file header). *)

From S2P Require Import Prelude Allocator Bitmap DiskSim FileHdr OpenFile Directory.
Import Disk.

Local Open Scope Z_scope.

Module FileSystem.

Definition FreeMapSector : Z := 0.
Definition DirectorySector : Z := 1.
Definition FreeMapFileSize : Z := Z.quot NumSectors BitMap.BitsInByte.
Definition NumDirEntries : Z := 10.
Definition DirectoryFileSize : Z := Z.of_nat Directory.EntrySize * NumDirEntries.
Definition NumSlots : Z := 15.

Record t (D : Type) := mk {
  dev : D;                            (* the disk, through synchDisk *)
  freeMapFile : OpenFile.t;
  directoryFile : OpenFile.t;
  heap : gmap Z OpenFile.t;           (* the OpenFile objects *)
  nextptr : Z;                        (* the next address [new OpenFile] returns *)
  openfile : list Z;                  (* OpenFile** openfile, 0 for NULL *)
}.
Arguments mk {D} _ _ _ _ _ _.
Arguments dev {D} _.
Arguments freeMapFile {D} _.
Arguments directoryFile {D} _.
Arguments heap {D} _.
Arguments nextptr {D} _.
Arguments openfile {D} _.

Section operations.
Context {D : Type} `{BlockDevice D}.
Context (raw : Z -> Z) (rawdir : Z -> Directory.DirectoryEntry) (rawhdr : FileHeader.t).

Definition set_dev (fs : t D) (d : D) : t D :=
  mk d (freeMapFile fs) (directoryFile fs) (heap fs) (nextptr fs) (openfile fs).
Definition set_openfile (fs : t D) (os : list Z) : t D :=
  mk (dev fs) (freeMapFile fs) (directoryFile fs) (heap fs) (nextptr fs) os.

(** [BitMap::FetchFrom] and [BitMap::WriteBack] of userprog/bitmap.cc. *)
Definition BitMap_FetchFrom (b : BitMap.t) (d : D) (file : OpenFile.t) : outcome (BitMap.t * D) :=
  '(_, bs, d) ← OpenFile.ReadAt raw d (OpenFile.hdr file) (BitMap.numWords b * 4) 0;
  Ok (BitMap.of_bytes b (splice (BitMap.to_bytes b) 0 bs), d).
Definition BitMap_WriteBack (b : BitMap.t) (d : D) (file : OpenFile.t) : outcome D :=
  '(_, d) ← OpenFile.WriteAt raw d (OpenFile.hdr file) (BitMap.to_bytes b) (BitMap.numWords b * 4) 0;
  Ok d.

(** [Directory::FetchFrom] and [Directory::WriteBack] of directory.cc. *)
Definition Directory_FetchFrom (dir : Directory.t) (d : D) (file : OpenFile.t) : outcome (Directory.t * D) :=
  '(_, bs, d) ← OpenFile.ReadAt raw d (OpenFile.hdr file)
                  (Directory.tableSize dir * Z.of_nat Directory.EntrySize) 0;
  Ok (Directory.of_bytes dir (splice (Directory.to_bytes dir) 0 bs), d).
Definition Directory_WriteBack (dir : Directory.t) (d : D) (file : OpenFile.t) : outcome D :=
  '(_, d) ← OpenFile.WriteAt raw d (OpenFile.hdr file) (Directory.to_bytes dir)
              (Directory.tableSize dir * Z.of_nat Directory.EntrySize) 0;
  Ok d.

(** [new Directory(NumDirEntries)] followed by [FetchFrom(directoryFile)]. *)
Definition fetch_directory (fs : t D) : outcome (Directory.t * t D) :=
  '(dir, d) ← Directory_FetchFrom (Directory.Directory_new rawdir NumDirEntries) (dev fs) (directoryFile fs);
  Ok (dir, set_dev fs d).

Definition fetch_freeMap (fs : t D) : outcome (BitMap.t * t D) :=
  b ← BitMap.BitMap raw NumSectors;
  '(b, d) ← BitMap_FetchFrom b (dev fs) (freeMapFile fs);
  Ok (b, set_dev fs d).

Definition Create (fs : t D) (name : list Z) (initialSize : Z) : outcome (bool * t D) :=
  '(directory, fs) ← fetch_directory fs;
  found ← Directory.Find directory name;
  if negb (found =? -1) then Ok (false, fs)               (* file is already in directory *)
  else
    '(freeMap, fs) ← fetch_freeMap fs;
    '(sector, freeMap) ← BitMap.Find freeMap;             (* a sector to hold the file header *)
    if sector =? -1 then Ok (false, fs)
    else
      '(added, directory) ← Directory.Add directory name sector;
      if negb added then Ok (false, fs)                   (* no space in directory *)
      else
        '(allocated, hdr, freeMap) ← FileHeader.Allocate rawhdr freeMap initialSize;
        if negb allocated then Ok (false, fs)             (* no space on disk for data *)
        else
          d ← FileHeader.WriteBack hdr (dev fs) sector;
          d ← Directory_WriteBack directory d (directoryFile fs);
          d ← BitMap_WriteBack freeMap d (freeMapFile fs);
          Ok (true, set_dev fs d).

(** [new OpenFile(...)] *)
Definition new_OpenFile (fs : t D) (sector type : Z) : outcome (Z * t D) :=
  '(f, d) ← OpenFile.OpenFile_new (dev fs) sector type;
  Ok (nextptr fs, mk d (freeMapFile fs) (directoryFile fs)
                     (<[nextptr fs := f]> (heap fs)) (nextptr fs + 1) (openfile fs)).

(** [FileSystem::Open(char *name)]; the field [type] of the object keeps what
    the memory held, [raw 0]. *)
Definition Open (fs : t D) (name : list Z) : outcome (Z * t D) :=
  '(directory, fs) ← fetch_directory fs;
  sector ← Directory.Find directory name;
  if sector >=? 0 then new_OpenFile fs sector (raw 0) else Ok (0, fs).

(** The loop of [FindFreeSlot]: the slots from 2 on. *)
Fixpoint FindFreeSlot_from (n : nat) (i : Z) (fs : t D) : outcome Z :=
  match n with
  | O => Ok (-1)
  | S n' => p ← rd (openfile fs) i; if p =? 0 then Ok i else FindFreeSlot_from n' (i + 1) fs
  end.
Definition FindFreeSlot (fs : t D) : outcome Z := FindFreeSlot_from (Z.to_nat (NumSlots - 2)) 2 fs.

(** [FileSystem::Open(char *name, int type)] *)
Definition Open_type (fs : t D) (name : list Z) (type : Z) : outcome (Z * t D) :=
  freeSlot ← FindFreeSlot fs;
  '(directory, fs) ← fetch_directory fs;
  sector ← Directory.Find directory name;
  fs ← (if sector >=? 0 then
          '(p, fs) ← new_OpenFile fs sector type;
          os ← wr (openfile fs) freeSlot p;
          Ok (set_openfile fs os)
        else Ok fs);
  p ← rd (openfile fs) freeSlot;
  Ok (p, fs).

Definition Remove (fs : t D) (name : list Z) : outcome (bool * t D) :=
  '(directory, fs) ← fetch_directory fs;
  sector ← Directory.Find directory name;
  if sector =? -1 then Ok (false, fs)                     (* file not found *)
  else
    '(fileHdr, d) ← FileHeader.FetchFrom (dev fs) sector;
    '(freeMap, fs) ← fetch_freeMap (set_dev fs d);
    freeMap ← FileHeader.Deallocate fileHdr freeMap;      (* remove data blocks *)
    freeMap ← BitMap.Clear freeMap sector;                (* remove header block *)
    '(_, directory) ← Directory.Remove directory name;
    d ← BitMap_WriteBack freeMap (dev fs) (freeMapFile fs);
    d ← Directory_WriteBack directory d (directoryFile fs);
    Ok (true, set_dev fs d).

(** What [List] prints. *)
Definition List_ (fs : t D) : outcome (list (list Z) * t D) :=
  '(directory, fs) ← fetch_directory fs; Ok (Directory.List_ directory, fs).

(** The two branches of the constructor before the table of open files. *)
Definition format_disk (d : D) : outcome (OpenFile.t * OpenFile.t * D) :=
  freeMap ← BitMap.BitMap raw NumSectors;
  let directory := Directory.Directory_new rawdir NumDirEntries in
  freeMap ← BitMap.Mark freeMap FreeMapSector;
  freeMap ← BitMap.Mark freeMap DirectorySector;
  '(ok, mapHdr, freeMap) ← FileHeader.Allocate rawhdr freeMap FreeMapFileSize;
  _ ← ASSERT ok;
  '(ok, dirHdr, freeMap) ← FileHeader.Allocate rawhdr freeMap DirectoryFileSize;
  _ ← ASSERT ok;
  d ← FileHeader.WriteBack mapHdr d FreeMapSector;
  d ← FileHeader.WriteBack dirHdr d DirectorySector;
  '(freeMapFile, d) ← OpenFile.OpenFile_new d FreeMapSector (raw 0);
  '(directoryFile, d) ← OpenFile.OpenFile_new d DirectorySector (raw 0);
  d ← BitMap_WriteBack freeMap d freeMapFile;
  d ← Directory_WriteBack directory d directoryFile;
  Ok (freeMapFile, directoryFile, d).

Definition open_disk (d : D) : outcome (OpenFile.t * OpenFile.t * D) :=
  '(freeMapFile, d) ← OpenFile.OpenFile_new d FreeMapSector (raw 0);
  '(directoryFile, d) ← OpenFile.OpenFile_new d DirectorySector (raw 0);
  Ok (freeMapFile, directoryFile, d).

Definition stdin_name : list Z := [115; 116; 100; 105; 110].
Definition stdout_name : list Z := [115; 116; 100; 111; 117; 116].

Definition FileSystem_new (d : D) (format : bool) : outcome (t D) :=
  '(fmf, df, d) ← (if format then format_disk d else open_disk d);
  let fs := mk d fmf df ∅ 1 (replicate (Z.to_nat NumSlots) 0) in
  '(_, fs) ← Create fs stdin_name 0;
  '(_, fs) ← Create fs stdout_name 0;
  '(p, fs) ← Open_type fs stdin_name 2;
  os ← wr (openfile fs) 0 p;
  let fs := set_openfile fs os in
  '(p, fs) ← Open_type fs stdout_name 3;
  os ← wr (openfile fs) 1 p;
  Ok (set_openfile fs os).

End operations.

End FileSystem.
