(* ===== verification/FsLayout.v ===== *)
(** * The layout of the disk of the Nachos file system

    The abstract view of filesys/filesys.cc: the array of sectors holds, in
    sectors 0 and 1, the headers of the free map and of the directory, and the
    directory names files by the sectors of their headers.  [consistent] is the
    invariant: every sector that a file, a header, the free map or the directory
    uses has one use only, and the free map marks exactly the sectors in use.
    The lemmas show that writing the sectors that [Create], [Remove] and [WriteAt]
    write keeps it. *)

From S2P Require Import Prelude Allocator Bitmap DiskSim FileHdr OpenFile Directory FileSys.
Import Disk.

Local Open Scope Z_scope.

Module FsLayout.

(** ** The view of an array of sectors *)

Definition hdr_at (a : list (list Z)) (s : Z) : FileHeader.t :=
  FileHeader.of_bytes (default [] (a !! Z.to_nat s)).

Definition map_hdr a : FileHeader.t := hdr_at a FileSystem.FreeMapSector.
Definition dir_hdr a : FileHeader.t := hdr_at a FileSystem.DirectorySector.

(** The sectors of a file: its header and its data. *)
Definition owned_by (a : list (list Z)) (e : Directory.DirectoryEntry) : list Z :=
  if Directory.inUse e then Directory.sector e :: OpenFile.file_sectors (hdr_at a (Directory.sector e)) else [].

Definition metadata (a : list (list Z)) : list Z :=
  FileSystem.FreeMapSector :: FileSystem.DirectorySector ::
  OpenFile.file_sectors (map_hdr a) ++ OpenFile.file_sectors (dir_hdr a).

Definition owned (a : list (list Z)) (dir : Directory.t) : list Z :=
  metadata a ++ flat_map (owned_by a) (Directory.table dir).

Definition entry_fits (a : list (list Z)) (e : Directory.DirectoryEntry) : Prop :=
  Directory.inUse e = true ->
  0 <= Directory.sector e < NumSectors /\ OpenFile.file_ok (hdr_at a (Directory.sector e)).

Record consistent (a : list (list Z)) (dir : Directory.t) (bm : BitMap.t) : Prop := {
  c_disk : OpenFile.disk_ok a;
  c_map : OpenFile.file_ok (map_hdr a) /\ FileHeader.numBytes (map_hdr a) = FileSystem.FreeMapFileSize;
  c_dir : OpenFile.file_ok (dir_hdr a) /\ FileHeader.numBytes (dir_hdr a) = FileSystem.DirectoryFileSize;
  c_bits : BitMap.wf bm /\ BitMap.numBits bm = NumSectors /\ OpenFile.contents (map_hdr a) a = BitMap.to_bytes bm;
  c_table : Directory.wf dir /\ Directory.tableSize dir = FileSystem.NumDirEntries /\
            OpenFile.contents (dir_hdr a) a = Directory.to_bytes dir;
  c_files : Forall (entry_fits a) (Directory.table dir);
  c_nodup : NoDup (owned a dir);
  c_used : forall s, (s < Z.to_nat NumSectors)%nat ->
             BitMap.bits bm !! s = Some (bool_decide (Z.of_nat s ∈ owned a dir));
}.

(** The file of a name: the bytes it holds. *)
Definition file (a : list (list Z)) (dir : Directory.t) (k : list Z) : option (list Z) :=
  (fun s => OpenFile.contents (hdr_at a s) a) <$> Directory.assoc k (Directory.table dir).

(** The sectors of the file of a name. *)
Definition sectors_of (a : list (list Z)) (dir : Directory.t) (k : list Z) : list Z :=
  match Directory.assoc k (Directory.table dir) with
  | Some s => s :: OpenFile.file_sectors (hdr_at a s)
  | None => []
  end.

(** [bm'] is [bm] with the bits of [w] set to [b], which they were not. *)
Definition flipped (b : bool) (w : list Z) (bm bm' : BitMap.t) : Prop :=
  (forall i, Z.of_nat i ∈ w -> BitMap.bits bm !! i = Some (negb b)) /\
  forall i, BitMap.bits bm' !! i = if decide (Z.of_nat i ∈ w) then Some b else BitMap.bits bm !! i.

(** ** Changing some sectors *)

(** Only sectors of [w] differ. *)
Definition only (w : list Z) (a a' : list (list Z)) : Prop :=
  forall s, 0 <= s -> s ∉ w -> a' !! Z.to_nat s = a !! Z.to_nat s.

Lemma only_trans w w' a a' a'' : only w a a' -> only w' a' a'' -> only (w ++ w') a a''.
Proof. intros H H' s Hs Hn. rewrite H', H; set_solver. Qed.

Lemma hdr_at_only w a a' s : only w a a' -> 0 <= s -> s ∉ w -> hdr_at a' s = hdr_at a s.
Proof. intros H Hs Hn. unfold hdr_at. by rewrite H. Qed.

Lemma contents_only w a a' h :
  only w a a' -> Forall (fun s => 0 <= s < NumSectors) (OpenFile.file_sectors h) ->
  (forall s, s ∈ OpenFile.file_sectors h -> s ∉ w) -> OpenFile.contents h a' = OpenFile.contents h a.
Proof.
  intros H Hf Hn. apply OpenFile.contents_other.
  - eapply Forall_impl; [|exact Hf]. cbn. lia.
  - intros s Hs. rewrite <- (Nat2Z.id s) at 1 2. apply H; [lia|by apply Hn].
Qed.

Lemma elem_of_owned a dir e s :
  e ∈ Directory.table dir -> s ∈ owned_by a e -> s ∈ flat_map (owned_by a) (Directory.table dir).
Proof. intros He Hs. apply list_elem_of_In, in_flat_map. exists e. split; by apply list_elem_of_In. Qed.

Lemma assoc_entry k es s : Directory.assoc k es = Some s ->
  exists e, e ∈ es /\ Directory.inUse e = true /\ Directory.sector e = s /\ Directory.key (Directory.name e) = k.
Proof.
  induction es as [|e es IH]; [done|]. cbn [Directory.assoc]. case_bool_decide as Hb.
  - intros [= <-]. exists e. split; [left|]. naive_solver.
  - intros H. destruct (IH H) as (e' & ? & ?). exists e'. split; [by right|done].
Qed.

(** An entry whose sectors are not written keeps its file. *)
Lemma entry_kept w a a' e :
  only w a a' -> entry_fits a e -> (forall s, s ∈ owned_by a e -> s ∉ w) ->
  owned_by a' e = owned_by a e /\ entry_fits a' e /\
  (Directory.inUse e = true ->
   OpenFile.contents (hdr_at a' (Directory.sector e)) a' = OpenFile.contents (hdr_at a (Directory.sector e)) a).
Proof.
  intros Ho Hf Hn. unfold owned_by, entry_fits in *. destruct (Directory.inUse e); [|done].
  destruct (Hf eq_refl) as (Hs & Hok). pose proof Hok as (_ & _ & _ & Hr & _).
  rewrite (hdr_at_only w a a') by (done || lia || (apply Hn; left)).
  split; [done|]. split; [done|]. intros _. apply (contents_only w); [done|done|]. intros s Hin. apply Hn. by right.
Qed.

Lemma entries_kept w a a' es :
  only w a a' -> Forall (entry_fits a) es -> (forall s, s ∈ flat_map (owned_by a) es -> s ∉ w) ->
  flat_map (owned_by a') es = flat_map (owned_by a) es /\ Forall (entry_fits a') es /\
  forall e, e ∈ es -> Directory.inUse e = true ->
    OpenFile.contents (hdr_at a' (Directory.sector e)) a' = OpenFile.contents (hdr_at a (Directory.sector e)) a.
Proof.
  intros Ho. induction 1 as [|e es He _ IH]; intros Hn; [split; [done|]; split; [constructor|]; set_solver|].
  cbn [flat_map] in Hn. destruct (entry_kept w a a' e Ho He) as (E1 & F1 & C1); [set_solver|].
  destruct IH as (E2 & F2 & C2); [set_solver|]. split; [cbn [flat_map]; congruence|]. split; [by constructor|].
  intros e' [->|Hin]%elem_of_cons; [done|]. by apply C2.
Qed.

(** The headers of the free map and of the directory stay when sectors outside
    the metadata, or their data, are written. *)
Lemma metadata_kept w a a' :
  only w a a' -> FileSystem.FreeMapSector ∉ w -> FileSystem.DirectorySector ∉ w ->
  map_hdr a' = map_hdr a /\ dir_hdr a' = dir_hdr a /\ metadata a' = metadata a.
Proof.
  intros Ho H0 H1. assert (Em : map_hdr a' = map_hdr a) by (by apply (hdr_at_only w)).
  assert (Ed : dir_hdr a' = dir_hdr a) by (by apply (hdr_at_only w)). unfold metadata. by rewrite Em, Ed.
Qed.

Lemma flat_map_insert {A B} (f : A -> list B) es j e e' :
  es !! j = Some e -> Permutation (flat_map f (<[j := e']> es) ++ f e) (f e' ++ flat_map f es).
Proof.
  intros Hj. pose proof (lookup_lt_Some _ _ _ Hj). rewrite insert_take_drop by done.
  rewrite <- (take_drop_middle es j e Hj) at 3. rewrite !flat_map_app. cbn [flat_map]. solve_Permutation.
Qed.

Lemma NoDup_app_disjoint {A} (l k : list A) x : NoDup (l ++ k) -> x ∈ l -> x ∉ k.
Proof. intros Hnd%list.NoDup_app. naive_solver. Qed.

(** The directory and the free map have sectors of their own. *)
Lemma metadata_apart a dir bm : consistent a dir bm ->
  FileSystem.FreeMapSector ∉ OpenFile.file_sectors (map_hdr a) ++ OpenFile.file_sectors (dir_hdr a) /\
  FileSystem.DirectorySector ∉ OpenFile.file_sectors (map_hdr a) ++ OpenFile.file_sectors (dir_hdr a) /\
  (forall s, s ∈ OpenFile.file_sectors (map_hdr a) -> s ∉ OpenFile.file_sectors (dir_hdr a)) /\
  (forall s, s ∈ flat_map (owned_by a) (Directory.table dir) -> s ∉ metadata a).
Proof.
  intros Hc. pose proof (c_nodup _ _ _ Hc) as Hnd. unfold owned in Hnd.
  assert (Hd : forall s, s ∈ flat_map (owned_by a) (Directory.table dir) -> s ∉ metadata a).
  { intros s Hs Hm. by apply (NoDup_app_disjoint _ _ s Hnd). }
  apply list.NoDup_app in Hnd as (Hm & _ & _). unfold metadata in Hm.
  apply list.NoDup_cons in Hm as [H0 Hm]. apply list.NoDup_cons in Hm as [H1 Hm].
  split; [set_solver|]. split; [done|]. split; [|done]. intros s Hs. by apply (NoDup_app_disjoint _ _ s Hm).
Qed.

Lemma not_metadata a x : x ∉ metadata a -> x ∉ OpenFile.file_sectors (map_hdr a) ++ OpenFile.file_sectors (dir_hdr a).
Proof. intros Hx Hin. apply Hx. by do 2 right. Qed.

Lemma elem_of_map_nat i (ks : list nat) : Z.of_nat i ∈ (Z.of_nat <$> ks) <-> i ∈ ks.
Proof.
  rewrite list_elem_of_fmap. split; [|by exists i]. intros (k & ->%Nat2Z.inj & Hk). done.
Qed.

Lemma flipped_nats b ks bm bm' :
  (forall k, k ∈ ks -> BitMap.bits bm !! k = Some (negb b)) ->
  (forall i, BitMap.bits bm' !! i = if decide (i ∈ ks) then Some b else BitMap.bits bm !! i) ->
  flipped b (Z.of_nat <$> ks) bm bm'.
Proof.
  intros Hold Hnew. split; intros i; [rewrite elem_of_map_nat; apply Hold|]. rewrite Hnew. apply decide_ext.
  by rewrite elem_of_map_nat.
Qed.

Lemma elem_of_nats i ks l : Z.of_nat i ∈ (Z.of_nat <$> ks) ++ l <-> i ∈ ks \/ Z.of_nat i ∈ l.
Proof.
  rewrite elem_of_app. by rewrite elem_of_map_nat.
Qed.

(** The sectors in use are marked, the others are not. *)
Lemma used_iff a dir bm s b : consistent a dir bm -> BitMap.bits bm !! s = Some b ->
  (b = true <-> Z.of_nat s ∈ owned a dir).
Proof.
  intros Hc Hb. destruct (c_bits _ _ _ Hc) as ((Hn0 & _) & Hn & _). pose proof (lookup_lt_Some _ _ _ Hb) as Hlt.
  rewrite BitMap.bits_length, Hn in Hlt. rewrite (c_used _ _ _ Hc) in Hb by done. injection Hb as <-. apply bool_decide_eq_true.
Qed.

(** ** A new file *)

Lemma consistent_create a a' dir bm bm' s ks j e nm :
  let dir' := Directory.mk (Directory.tableSize dir) (<[j := Directory.added e nm (Z.of_nat s)]> (Directory.table dir)) in
  consistent a dir bm -> Directory.table dir !! j = Some e -> Directory.inUse e = false -> Directory.wf dir' ->
  OpenFile.file_ok (hdr_at a' (Z.of_nat s)) -> OpenFile.file_sectors (hdr_at a' (Z.of_nat s)) = Z.of_nat <$> ks ->
  NoDup (s :: ks) -> (forall k, k ∈ s :: ks -> BitMap.bits bm !! k = Some false) ->
  BitMap.wf bm' -> BitMap.numBits bm' = NumSectors ->
  (forall i, BitMap.bits bm' !! i = if decide (i ∈ s :: ks) then Some true else BitMap.bits bm !! i) ->
  OpenFile.disk_ok a' ->
  only ([Z.of_nat s] ++ OpenFile.file_sectors (dir_hdr a) ++ OpenFile.file_sectors (map_hdr a)) a a' ->
  OpenFile.contents (dir_hdr a) a' = Directory.to_bytes dir' -> OpenFile.contents (map_hdr a) a' = BitMap.to_bytes bm' ->
  consistent a' dir' bm' /\ map_hdr a' = map_hdr a /\ dir_hdr a' = dir_hdr a /\
  forall e, e ∈ Directory.table dir -> Directory.inUse e = true ->
    OpenFile.contents (hdr_at a' (Directory.sector e)) a' = OpenFile.contents (hdr_at a (Directory.sector e)) a.
Proof.
  intros dir' Hc Hj He Hwf' Hok Hfs Hnd Hfree Hwb Hnb Hbits Ha' Ho Hcd Hcm.
  destruct (metadata_apart a dir bm Hc) as (M0 & M1 & _ & M3).
  assert (Hnew : forall k, k ∈ s :: ks -> Z.of_nat k ∉ owned a dir).
  { intros k Hk Hin. by apply (used_iff a dir bm k false Hc (Hfree k Hk)) in Hin. }
  pose proof (Hnew s ltac:(left)) as Hs. unfold owned in Hs. apply not_elem_of_app in Hs as [Hsm Hsf].
  assert (Hout : forall x, x <> Z.of_nat s -> x ∉ OpenFile.file_sectors (map_hdr a) ++ OpenFile.file_sectors (dir_hdr a) ->
    x ∉ [Z.of_nat s] ++ OpenFile.file_sectors (dir_hdr a) ++ OpenFile.file_sectors (map_hdr a)) by (clear; set_solver).
  assert (Hw : forall x, x ∈ flat_map (owned_by a) (Directory.table dir) ->
    x ∉ [Z.of_nat s] ++ OpenFile.file_sectors (dir_hdr a) ++ OpenFile.file_sectors (map_hdr a)).
  { intros x Hx. apply Hout; [by intros ->|]. by apply not_metadata, M3. }
  destruct (metadata_kept _ a a' Ho) as (Em & Ed & Emeta).
  { apply Hout; [|done]. intros E. apply Hsm. rewrite <- E. left. }
  { apply Hout; [|done]. intros E. apply Hsm. rewrite <- E. right. left. }
  destruct (entries_kept _ a a' _ Ho (c_files _ _ _ Hc) Hw) as (Eown & Hfit & Hkeep).
  assert (Hperm : Permutation (owned a' dir') ((Z.of_nat <$> s :: ks) ++ owned a dir)).
  { unfold owned. rewrite Emeta, <- Eown. pose proof (flat_map_insert (owned_by a') _ j e (Directory.added e nm (Z.of_nat s)) Hj) as HP.
    unfold owned_by in HP at 2 3. rewrite He in HP. cbn [Directory.added Directory.inUse Directory.sector] in HP. rewrite Hfs, app_nil_r in HP.
    cbn [Directory.table dir']. rewrite HP. cbn [fmap list_fmap]. solve_Permutation. }
  split; [|by split_and!]. split; try assumption.
  - rewrite Em. apply (c_map _ _ _ Hc).
  - rewrite Ed. apply (c_dir _ _ _ Hc).
  - by rewrite Em.
  - rewrite Ed. split; [done|]. split; [apply (c_table _ _ _ Hc)|done].
  - cbn [Directory.table dir']. apply Forall_insert; [done|]. intros _. cbn [Directory.added Directory.sector].
    split; [|done]. pose proof (lookup_lt_Some _ _ _ (Hfree s ltac:(left))) as Hlt.
    destruct (c_bits _ _ _ Hc) as (_ & Hn & _). rewrite BitMap.bits_length, Hn in Hlt. lia.
  - rewrite Hperm. apply list.NoDup_app. split; [by apply (NoDup_fmap_2 _)|]. split; [|apply (c_nodup _ _ _ Hc)].
    intros x (k & -> & Hk)%list_elem_of_fmap. by apply Hnew.
  - intros i Hi. rewrite Hbits. assert (Hin : Z.of_nat i ∈ owned a' dir' <-> i ∈ s :: ks \/ Z.of_nat i ∈ owned a dir).
    { rewrite Hperm. apply elem_of_nats. }
    destruct (decide (i ∈ s :: ks)); [rewrite bool_decide_eq_true_2; tauto|].
    rewrite (c_used _ _ _ Hc) by done. f_equal. apply bool_decide_ext. tauto.
Qed.

(** ** A file that is removed *)

Lemma consistent_remove a a' dir bm bm' j e ks :
  let dir' := Directory.mk (Directory.tableSize dir) (<[j := Directory.set_inUse e false]> (Directory.table dir)) in
  consistent a dir bm -> Directory.table dir !! j = Some e -> Directory.inUse e = true -> Directory.wf dir' ->
  owned_by a e = Z.of_nat <$> ks ->
  BitMap.wf bm' -> BitMap.numBits bm' = NumSectors ->
  (forall i, BitMap.bits bm' !! i = if decide (i ∈ ks) then Some false else BitMap.bits bm !! i) ->
  OpenFile.disk_ok a' ->
  only (OpenFile.file_sectors (map_hdr a) ++ OpenFile.file_sectors (dir_hdr a)) a a' ->
  OpenFile.contents (dir_hdr a) a' = Directory.to_bytes dir' -> OpenFile.contents (map_hdr a) a' = BitMap.to_bytes bm' ->
  consistent a' dir' bm' /\ map_hdr a' = map_hdr a /\ dir_hdr a' = dir_hdr a /\
  forall e, e ∈ Directory.table dir -> Directory.inUse e = true ->
    OpenFile.contents (hdr_at a' (Directory.sector e)) a' = OpenFile.contents (hdr_at a (Directory.sector e)) a.
Proof.
  intros dir' Hc Hj He Hwf' Hfs Hwb Hnb Hbits Ha' Ho Hcd Hcm.
  destruct (metadata_apart a dir bm Hc) as (M0 & M1 & _ & M3).
  assert (Hw : forall x, x ∈ flat_map (owned_by a) (Directory.table dir) ->
    x ∉ OpenFile.file_sectors (map_hdr a) ++ OpenFile.file_sectors (dir_hdr a)).
  { intros x Hx. by apply not_metadata, M3. }
  destruct (metadata_kept _ a a' Ho M0 M1) as (Em & Ed & Emeta).
  destruct (entries_kept _ a a' _ Ho (c_files _ _ _ Hc) Hw) as (Eown & Hfit & Hkeep).
  assert (Ee : owned_by a' e = owned_by a e).
  { pose proof (list_elem_of_lookup_2 _ _ _ Hj) as Hin.
    apply (entry_kept _ a a' e Ho); [by apply (Forall_lookup_1 _ _ _ _ (c_files _ _ _ Hc) Hj)|].
    intros x Hx. apply Hw. by apply (elem_of_owned a dir e). }
  assert (Hperm : Permutation ((Z.of_nat <$> ks) ++ owned a' dir') (owned a dir)).
  { unfold owned. rewrite Emeta, <- Eown. pose proof (flat_map_insert (owned_by a') _ j e (Directory.set_inUse e false) Hj) as HP.
    rewrite Ee, Hfs in HP. unfold owned_by in HP at 2. cbn [Directory.set_inUse Directory.inUse app] in HP.
    cbn [Directory.table dir']. rewrite <- HP. solve_Permutation. }
  pose proof (c_nodup _ _ _ Hc) as Hnd. rewrite <- Hperm in Hnd. apply list.NoDup_app in Hnd as (Hndk & Hdis & Hnd').
  split; [|by split_and!]. split; try assumption.
  - rewrite Em. apply (c_map _ _ _ Hc).
  - rewrite Ed. apply (c_dir _ _ _ Hc).
  - by rewrite Em.
  - rewrite Ed. split; [done|]. split; [apply (c_table _ _ _ Hc)|done].
  - cbn [Directory.table dir']. apply Forall_insert; [done|]. intros ?. done.
  - intros i Hi. rewrite Hbits. assert (Hin : Z.of_nat i ∈ owned a dir <-> i ∈ ks \/ Z.of_nat i ∈ owned a' dir').
    { rewrite <- Hperm. apply elem_of_nats. }
    destruct (decide (i ∈ ks)) as [Hk|Hk].
    + rewrite bool_decide_eq_false_2; [done|]. apply Hdis. by apply list_elem_of_fmap_2.
    + rewrite (c_used _ _ _ Hc) by done. f_equal. apply bool_decide_ext. tauto.
Qed.

(** ** A file that is written *)

(** The sectors of two entries in use have nothing in common. *)
Lemma flat_map_NoDup {A B} (f : A -> list B) l i j x y z :
  NoDup (flat_map f l) -> l !! i = Some x -> l !! j = Some y -> z ∈ f x -> z ∈ f y -> i = j.
Proof.
  revert i j. induction l as [|u l IH]; intros i j Hnd Hi Hj Hx Hy; [done|]. cbn [flat_map] in Hnd.
  assert (Hout : forall k v, l !! k = Some v -> z ∈ f v -> z ∈ flat_map f l).
  { intros k v Hk Hv. apply list_elem_of_In, in_flat_map. exists v.
    split; apply list_elem_of_In; [by eapply list_elem_of_lookup_2|done]. }
  destruct i as [|i], j as [|j]; cbn in Hi, Hj; [done| | |].
  - injection Hi as ->. exfalso. apply (NoDup_app_disjoint _ _ z Hnd Hx). by apply (Hout j y).
  - injection Hj as ->. exfalso. apply (NoDup_app_disjoint _ _ z Hnd Hy). by apply (Hout i x).
  - f_equal. apply (IH i j); try done. by apply list.NoDup_app in Hnd as (_ & _ & ?).
Qed.

Lemma NoDup_flat_map_entry {A B} (f : A -> list B) l i x : NoDup (flat_map f l) -> l !! i = Some x -> NoDup (f x).
Proof.
  intros Hnd Hi. rewrite <- (take_drop_middle l i x Hi), flat_map_app in Hnd. cbn [flat_map] in Hnd.
  apply list.NoDup_app in Hnd as (_ & _ & Hnd). by apply list.NoDup_app in Hnd as (? & _).
Qed.

Lemma consistent_write a a' dir bm i e :
  consistent a dir bm -> Directory.table dir !! i = Some e -> Directory.inUse e = true ->
  only (OpenFile.file_sectors (hdr_at a (Directory.sector e))) a a' -> OpenFile.disk_ok a' ->
  consistent a' dir bm /\ map_hdr a' = map_hdr a /\ dir_hdr a' = dir_hdr a /\
  forall j e', Directory.table dir !! j = Some e' -> Directory.inUse e' = true ->
    hdr_at a' (Directory.sector e') = hdr_at a (Directory.sector e') /\
    (j <> i -> OpenFile.contents (hdr_at a (Directory.sector e')) a' = OpenFile.contents (hdr_at a (Directory.sector e')) a).
Proof.
  intros Hc Hi Hu Ho Ha'. destruct (metadata_apart _ _ _ Hc) as (_ & _ & _ & M3).
  pose proof (c_nodup _ _ _ Hc) as Hnd. unfold owned in Hnd. apply list.NoDup_app in Hnd as (_ & _ & Hnd).
  set (w := OpenFile.file_sectors (hdr_at a (Directory.sector e))) in *.
  assert (Hown : forall x, x ∈ w -> x ∈ owned_by a e) by (intros x Hx; unfold owned_by; rewrite Hu; by right).
  assert (Hm : forall x, x ∈ metadata a -> x ∉ w).
  { intros x Hx Hin. apply (M3 x); [|done]. apply (elem_of_owned a dir e); [by eapply list_elem_of_lookup_2|by apply Hown]. }
  assert (Hhead : forall j e', Directory.table dir !! j = Some e' -> Directory.inUse e' = true -> Directory.sector e' ∉ w).
  { intros j e' Hj Hu' Hin. assert (j = i) as ->.
    { apply (flat_map_NoDup (owned_by a) (Directory.table dir) j i e' e (Directory.sector e') Hnd Hj Hi); [|by apply Hown].
      unfold owned_by. rewrite Hu'. left. }
    rewrite Hi in Hj. injection Hj as <-. pose proof (NoDup_flat_map_entry _ _ _ _ Hnd Hi) as Hne. unfold owned_by in Hne.
    rewrite Hu in Hne. by apply list.NoDup_cons in Hne as [? _]. }
  destruct (metadata_kept _ a a' Ho) as (Em & Ed & Emeta); [apply Hm; left|apply Hm; right; left|].
  assert (Hhdr : forall j e', Directory.table dir !! j = Some e' -> Directory.inUse e' = true ->
    hdr_at a' (Directory.sector e') = hdr_at a (Directory.sector e')).
  { intros j e' Hj Hu'. apply (hdr_at_only w); [done| |by apply (Hhead j)].
    destruct (Forall_lookup_1 _ _ _ _ (c_files _ _ _ Hc) Hj Hu') as [? _]. lia. }
  assert (Eown : owned a' dir = owned a dir).
  { unfold owned. rewrite Emeta. f_equal. rewrite !flat_map_concat_map. f_equal. apply map_ext_in. intros e' Hin.
    apply list_elem_of_In, list_elem_of_lookup in Hin as [j Hj]. unfold owned_by. destruct (Directory.inUse e') eqn:E'; [|done].
    by rewrite (Hhdr j e' Hj E'). }
  split; [split; rewrite ?Em, ?Ed, ?Eown; try apply Hc; [done| | |]|].
  - rewrite (contents_only w a a'); [apply (c_bits _ _ _ Hc)|done|apply (c_map _ _ _ Hc)|].
    intros x Hx. apply Hm. unfold metadata. do 2 right. apply elem_of_app. by left.
  - rewrite (contents_only w a a'); [apply (c_table _ _ _ Hc)|done|apply (c_dir _ _ _ Hc)|].
    intros x Hx. apply Hm. unfold metadata. do 2 right. apply elem_of_app. by right.
  - apply Forall_lookup_2. intros j e' Hj Hu'. rewrite (Hhdr j e' Hj Hu').
    exact (Forall_lookup_1 _ _ _ _ (c_files _ _ _ Hc) Hj Hu').
  - split; [done|]. split; [done|]. intros j e' Hj Hu'. split; [by apply (Hhdr j)|]. intros Hne.
    apply (contents_only w); [done| |].
    + destruct (Forall_lookup_1 _ _ _ _ (c_files _ _ _ Hc) Hj Hu') as [_ Hok]. apply Hok.
    + intros x Hx Hin. apply Hne. apply (flat_map_NoDup (owned_by a) (Directory.table dir) j i e' e x Hnd Hj Hi);
        [unfold owned_by; rewrite Hu'; by right|by apply Hown].
Qed.

End FsLayout.
