(* ===== verification/FsSpec.v ===== *)
(** * The file system as a map from names to contents

    What the operations of filesys/filesys.cc promise, over any block device: they
    keep the disk consistent ([FsLayout.v]) and act on it as on a finite map. *)

From S2P Require Import Prelude Allocator Bitmap DiskSim FileHdr OpenFile Directory FileSys FsLayout.
Import Disk FsLayout.

Local Open Scope Z_scope.

Module FsSpec.

(** ** Reading and writing the free map and the directory *)

Section operations.
Context {D : Type} `{BlockDeviceLaws D}.
Context (raw : Z -> Z) (rawdir : Z -> Directory.DirectoryEntry) (rawhdr : FileHeader.t).
Notation sectors := bd_sectors.

Lemma length_contents h a : OpenFile.disk_ok a -> OpenFile.file_ok h ->
  Z.of_nat (length (OpenFile.contents h a)) = FileHeader.numBytes h.
Proof.
  intros Ha Hf. pose proof (OpenFile.length_file_sectors h Hf) as Hl.
  pose proof Hf as (_ & Hb & _ & Hr & _). unfold OpenFile.contents.
  rewrite length_take, (OpenFile.length_blocks _ _ Ha Hr). unfold SectorSize in Hb. lia.
Qed.

Lemma file_fits h : OpenFile.file_ok h -> FileHeader.numBytes h < 2 ^ 31.
Proof. intros ((Hs & _) & _). unfold is_s32 in Hs. lia. Qed.

Lemma ReadAt_whole (d : D) h n :
  bd_wf d -> OpenFile.file_ok h -> FileHeader.numBytes h = n ->
  exists d', OpenFile.ReadAt raw d h n 0 = Ok (n, OpenFile.contents h (sectors d), d') /\
    bd_wf d' /\ sectors d' = sectors d.
Proof.
  intros Hd Hf <-. pose proof (file_fits h Hf). pose proof Hf as (_ & Hn & _).
  destruct (OpenFile.ReadAt_ok raw d h (FileHeader.numBytes h) 0) as (d' & -> & Hd' & Hs); [done|done|lia|lia|].
  exists d'. split; [|done]. unfold OpenFile.transferred. rewrite Z.sub_0_r, Z.min_id, Z.max_r by lia.
  do 3 f_equal. pose proof (length_contents h (sectors d) (OpenFile.device_ok d Hd) Hf).
  unfold slice. rewrite drop_0, take_ge; [done|]. lia.
Qed.

Lemma WriteAt_whole (d : D) h bs n :
  bd_wf d -> OpenFile.file_ok h -> FileHeader.numBytes h = n -> Z.of_nat (length bs) = n -> Forall is_u8 bs ->
  exists d', OpenFile.WriteAt raw d h bs n 0 = Ok (n, d') /\ bd_wf d' /\
    OpenFile.contents h (sectors d') = bs /\ only (OpenFile.file_sectors h) (sectors d) (sectors d').
Proof.
  intros Hd Hf <- Hl Hu. pose proof (file_fits h Hf). pose proof Hf as (_ & Hn & _).
  assert (Ht : OpenFile.transferred (FileHeader.numBytes h) (FileHeader.numBytes h) 0 = FileHeader.numBytes h)
    by (unfold OpenFile.transferred; lia).
  destruct (OpenFile.WriteAt_ok raw d h bs (FileHeader.numBytes h) 0) as (d' & -> & Hd' & Hc & Ho);
    [done|done|lia|lia|lia|done|]. rewrite Ht in *. exists d'. split; [done|]. split; [done|]. split.
  - rewrite Hc. pose proof (length_contents h (sectors d) (OpenFile.device_ok d Hd) Hf).
    unfold splice. rewrite (take_ge bs), drop_ge by lia. change (take (Z.to_nat 0) (OpenFile.contents h (sectors d))) with (@nil Z).
    by rewrite app_nil_r.
  - intros s Hs Hns. apply Ho. by rewrite Z2Nat.id by done.
Qed.

Lemma bitmap_words bm : BitMap.wf bm -> BitMap.numBits bm = NumSectors ->
  BitMap.numWords bm = 32 /\ Z.of_nat (length (BitMap.to_bytes bm)) = 128.
Proof.
  intros (_ & Hw & Hl & _) Hn. rewrite Hn in Hw. change (divRoundUp NumSectors BitMap.BitsInWord) with 32 in Hw.
  split; [done|]. rewrite BitMap.length_to_bytes. lia.
Qed.

Lemma BitMap_WriteBack_ok bm (d : D) (fl : OpenFile.t) :
  bd_wf d -> OpenFile.file_ok (OpenFile.hdr fl) -> FileHeader.numBytes (OpenFile.hdr fl) = FileSystem.FreeMapFileSize ->
  BitMap.wf bm -> BitMap.numBits bm = NumSectors ->
  exists d', FileSystem.BitMap_WriteBack raw bm d fl = Ok d' /\ bd_wf d' /\
    OpenFile.contents (OpenFile.hdr fl) (sectors d') = BitMap.to_bytes bm /\
    only (OpenFile.file_sectors (OpenFile.hdr fl)) (sectors d) (sectors d').
Proof.
  intros Hd Hf Hn Hwf Hb. destruct (bitmap_words bm Hwf Hb) as [Hw Hl]. unfold FileSystem.BitMap_WriteBack. rewrite Hw.
  destruct (WriteAt_whole d (OpenFile.hdr fl) (BitMap.to_bytes bm) (32 * 4) Hd Hf Hn Hl (BitMap.to_bytes_u8 bm))
    as (d' & -> & ?). by exists d'.
Qed.

Lemma directory_length dir : Directory.wf dir -> Directory.tableSize dir = FileSystem.NumDirEntries ->
  Z.of_nat (length (Directory.to_bytes dir)) = FileSystem.DirectoryFileSize.
Proof.
  intros Hwf Ht. rewrite Directory.length_directory_bytes by done. pose proof Hwf as (Hl & _). rewrite Ht in Hl.
  unfold FileSystem.DirectoryFileSize, Directory.EntrySize, FileSystem.NumDirEntries in *. lia.
Qed.

Lemma Directory_WriteBack_ok dir (d : D) (fl : OpenFile.t) :
  bd_wf d -> OpenFile.file_ok (OpenFile.hdr fl) -> FileHeader.numBytes (OpenFile.hdr fl) = FileSystem.DirectoryFileSize ->
  Directory.wf dir -> Directory.tableSize dir = FileSystem.NumDirEntries ->
  exists d', FileSystem.Directory_WriteBack raw dir d fl = Ok d' /\ bd_wf d' /\
    OpenFile.contents (OpenFile.hdr fl) (sectors d') = Directory.to_bytes dir /\
    only (OpenFile.file_sectors (OpenFile.hdr fl)) (sectors d) (sectors d').
Proof.
  intros Hd Hf Hn Hwf Ht. pose proof (directory_length dir Hwf Ht) as Hl. unfold FileSystem.Directory_WriteBack. rewrite Ht.
  destruct (WriteAt_whole d (OpenFile.hdr fl) (Directory.to_bytes dir) FileSystem.DirectoryFileSize
    Hd Hf Hn Hl (Directory.directory_bytes_u8 dir Hwf)) as (d' & E & ?).
  change (FileSystem.NumDirEntries * Z.of_nat Directory.EntrySize) with FileSystem.DirectoryFileSize. rewrite E. by exists d'.
Qed.

(** The file system in memory and on disk. *)
Definition fs_ok (fs : FileSystem.t D) dir bm : Prop :=
  bd_wf (FileSystem.dev fs) /\ consistent (sectors (FileSystem.dev fs)) dir bm /\
  OpenFile.hdr (FileSystem.freeMapFile fs) = map_hdr (sectors (FileSystem.dev fs)) /\
  OpenFile.hdr (FileSystem.directoryFile fs) = dir_hdr (sectors (FileSystem.dev fs)).

(** [fs'] is [fs] after operations that only read. *)
Definition same (fs fs' : FileSystem.t D) : Prop :=
  exists d', fs' = FileSystem.set_dev fs d' /\ bd_wf d' /\ sectors d' = sectors (FileSystem.dev fs).

Lemma same_ok fs fs' dir bm : same fs fs' -> fs_ok fs dir bm -> fs_ok fs' dir bm.
Proof. intros (d' & -> & Hd & Hs) (_ & Hc & Hm & Hdir). unfold fs_ok. cbn. rewrite Hs. done. Qed.

Lemma same_trans fs fs' fs'' : same fs fs' -> same fs' fs'' -> same fs fs''.
Proof.
  intros (d & -> & _ & Hs) (d' & -> & Hd' & Hs'). exists d'. split; [done|]. split; [done|]. by rewrite Hs', <- Hs.
Qed.

Lemma splice_whole (l bs : list Z) : exists rest, splice l 0 bs = bs ++ rest.
Proof. unfold splice. cbn. by eexists. Qed.

Lemma fetch_directory_ok fs dir bm : fs_ok fs dir bm ->
  exists fs', FileSystem.fetch_directory raw rawdir fs = Ok (dir, fs') /\ same fs fs'.
Proof.
  intros (Hd & Hc & _ & Hdir). destruct (c_dir _ _ _ Hc) as [Hf Hn]. destruct (c_table _ _ _ Hc) as (Hwf & Ht & Hb).
  unfold FileSystem.fetch_directory, FileSystem.Directory_FetchFrom. rewrite Hdir.
  destruct (ReadAt_whole (FileSystem.dev fs) _ FileSystem.DirectoryFileSize Hd Hf Hn) as (d' & E & Hd' & Hs).
  change (Directory.tableSize (Directory.Directory_new rawdir FileSystem.NumDirEntries) * Z.of_nat Directory.EntrySize)
    with FileSystem.DirectoryFileSize. rewrite E. cbn [mbind outcome_bind]. rewrite Hb.
  destruct (splice_whole (Directory.to_bytes (Directory.Directory_new rawdir FileSystem.NumDirEntries)) (Directory.to_bytes dir)) as [rest ->].
  destruct (Directory.directory_bytes_roundtrip dir (Directory.Directory_new rawdir FileSystem.NumDirEntries) rest Hwf) as [-> _]; [done|].
  eexists. split; [done|]. by exists d'.
Qed.

Lemma fetch_freeMap_ok fs dir bm : fs_ok fs dir bm ->
  exists fs', FileSystem.fetch_freeMap raw fs = Ok (bm, fs') /\ same fs fs'.
Proof.
  intros (Hd & Hc & Hm & _). destruct (c_map _ _ _ Hc) as [Hf Hn]. destruct (c_bits _ _ _ Hc) as (Hwf & Hnb & Hb).
  unfold FileSystem.fetch_freeMap, FileSystem.BitMap_FetchFrom. rewrite Hm.
  destruct (BitMap.BitMap_spec raw NumSectors) as (b & -> & Hwb & Hbn & _); [done|]. cbn [mbind outcome_bind].
  destruct (bitmap_words b Hwb Hbn) as [Hw _]. rewrite Hw. destruct (bitmap_words bm Hwf Hnb) as [Hw' _].
  destruct (ReadAt_whole (FileSystem.dev fs) _ (32 * 4) Hd Hf Hn) as (d' & -> & Hd' & Hs).
  cbn [mbind outcome_bind]. rewrite Hb. destruct (splice_whole (BitMap.to_bytes b) (BitMap.to_bytes bm)) as [rest ->].
  rewrite BitMap.of_to_bytes by congruence. eexists. split; [done|]. by exists d'.
Qed.

(** ** The sectors of a new file *)

Lemma numBits_length bm : BitMap.wf bm -> BitMap.numBits bm = Z.of_nat (length (BitMap.bits bm)).
Proof. intros (Hn & _). rewrite BitMap.bits_length. lia. Qed.

(** A header that was just allocated describes a file. *)
Lemma allocated_ok (h h' : FileHeader.t) ks n size :
  FileHeader.wf h -> 0 <= size <= FileHeader.MaxFileSize -> n = Z.to_nat (divRoundUp size SectorSize) -> length ks = n ->
  FileHeader.numBytes h' = size -> FileHeader.numSectors h' = Z.of_nat n ->
  length (FileHeader.dataSectors h') = length (FileHeader.dataSectors h) ->
  take n (FileHeader.dataSectors h') = Z.of_nat <$> ks -> drop n (FileHeader.dataSectors h') = drop n (FileHeader.dataSectors h) ->
  NoDup ks -> Forall (fun k => Z.of_nat k < NumSectors) ks ->
  OpenFile.file_ok h' /\ OpenFile.file_sectors h' = Z.of_nat <$> ks.
Proof.
  intros (_ & _ & Hl & Hs) Hsz -> Hlk Hb Hns Hl' Ht Hd Hnd Hr.
  destruct (divRoundUp_spec size SectorSize ltac:(lia) ltac:(done)) as [Hdiv Hpos].
  assert (Hfs : OpenFile.file_sectors h' = Z.of_nat <$> ks) by (unfold OpenFile.file_sectors; by rewrite Hns, Nat2Z.id).
  unfold FileHeader.MaxFileSize, FileHeader.NumDirect, SectorSize, NumSectors, SectorsPerTrack, NumTracks in *.
  change (Z.quot (512 - 2 * 4) 4) with 126 in *. split; [|done].
  split; [split; [unfold is_s32; lia|split; [unfold is_s32; lia|split; [unfold FileHeader.NumDirect, SectorSize; change (Z.quot (512 - 2 * 4) 4) with 126; lia|]]]|].
  - rewrite <- (take_drop (Z.to_nat (divRoundUp size 512)) (FileHeader.dataSectors h')). apply Forall_app. split.
    + rewrite Ht. apply Forall_fmap. eapply Forall_impl; [|exact Hr]. cbn. intros k Hk. unfold is_s32. lia.
    + rewrite Hd. by apply Forall_drop.
  - rewrite Hb, Hns, Hfs. split; [unfold SectorSize; lia|]. split; [unfold FileHeader.NumDirect, SectorSize; change (Z.quot (512 - 2 * 4) 4) with 126; lia|].
    split; [|by apply (NoDup_fmap_2 _)]. apply Forall_fmap. eapply Forall_impl; [|exact Hr]. cbn.
    unfold NumSectors, SectorsPerTrack, NumTracks. lia.
Qed.

(** [Find] and [Allocate] of [Create]: the sector of the header and the data. *)
Lemma new_file_sectors bm size s :
  BitMap.wf bm -> BitMap.numBits bm = NumSectors -> FileHeader.wf rawhdr -> 0 <= size <= FileHeader.MaxFileSize ->
  first_clear (BitMap.bits bm) = Some s ->
  exists bm1, BitMap.Find bm = Ok (Z.of_nat s, bm1) /\
    exists ok h bm2, FileHeader.Allocate rawhdr bm1 size = Ok (ok, h, bm2) /\
    if ok : bool then
      exists ks, OpenFile.file_ok h /\ FileHeader.numBytes h = size /\ OpenFile.file_sectors h = Z.of_nat <$> ks /\
        NoDup (s :: ks) /\ (forall k, k ∈ s :: ks -> BitMap.bits bm !! k = Some false) /\
        BitMap.wf bm2 /\ BitMap.numBits bm2 = NumSectors /\
        (forall j, BitMap.bits bm2 !! j = if decide (j ∈ s :: ks) then Some true else BitMap.bits bm !! j) /\
        Z.of_nat (count_clear (BitMap.bits bm)) = 1 + divRoundUp size SectorSize + Z.of_nat (count_clear (BitMap.bits bm2))
    else Z.of_nat (count_clear (BitMap.bits bm)) <= divRoundUp size SectorSize.
Proof.
  intros Hwf Hnb Hraw Hsz Hs. pose proof (BitMap.Find_spec bm Hwf) as HF. rewrite Hs in HF.
  destruct HF as (bm1 & -> & Hwf1 & Hn1 & Hb1). exists bm1. split; [done|].
  pose proof (proj1 (first_clear_Some _ _) Hs) as [Hs0 _]. pose proof (count_clear_insert_true _ _ Hs0) as Hcc.
  destruct (divRoundUp_spec size SectorSize ltac:(lia) ltac:(done)) as [Hdiv Hpos].
  assert (Hdirect : Z.of_nat (Z.to_nat (divRoundUp size SectorSize)) <= FileHeader.NumDirect).
  { unfold FileHeader.MaxFileSize, FileHeader.NumDirect, SectorSize in *. change (Z.quot (512 - 2 * 4) 4) with 126 in *. lia. }
  destruct (decide (Z.to_nat (divRoundUp size SectorSize) <= count_clear (BitMap.bits bm1))%nat) as [Hroom|Hno].
  - pose proof Hraw as (_ & _ & Hl & _).
    destruct (FileHeader.Allocate_room rawhdr bm1 size)
      as (h & bm2 & -> & Hwf2 & Hb & Hns & Hl' & ks & Hks & Ht & Hd); [exact Hwf1|exact Hl|lia|exact Hdirect|exact Hroom|].
    exists true, h, bm2. split; [done|].
    change (al_bits bm1) with (BitMap.bits bm1) in Hks. change (al_bits bm2) with (BitMap.bits bm2) in Hks. change (al_wf bm2) with (BitMap.wf bm2) in Hwf2.
    destruct (take_slots_spec _ _ _ _ Hks Hroom) as (Hlk & Hnd & Hfree & Hlook & Hlen & Hcount).
    assert (Hlb : length (BitMap.bits bm1) = length (BitMap.bits bm)) by (by rewrite Hb1, length_insert).
    assert (Hfree' : forall k, k ∈ ks -> k <> s /\ BitMap.bits bm !! k = Some false).
    { intros k Hk. specialize (Hfree k Hk). rewrite Hb1 in Hfree. destruct (decide (k = s)) as [->|Hne].
      - rewrite list_lookup_insert_eq in Hfree by (by eapply lookup_lt_Some). done.
      - by rewrite list_lookup_insert_ne in Hfree. }
    assert (Hrange : Forall (fun k => Z.of_nat k < NumSectors) ks).
    { apply list.Forall_forall. intros k Hk. destruct (Hfree' k Hk) as [_ Hk']. apply lookup_lt_Some in Hk'.
      rewrite <- Hnb, numBits_length by done. lia. }
    destruct (allocated_ok rawhdr h ks _ size Hraw Hsz eq_refl Hlk Hb Hns Hl' Ht Hd Hnd Hrange) as [Hok Hfs].
    exists ks. split; [done|]. split; [done|]. split; [done|].
    split; [apply list.NoDup_cons; split; [intros Hk; by destruct (Hfree' s Hk)|done]|].
    split; [intros k [->|Hk]%elem_of_cons; [done|by apply Hfree']|]. split; [done|].
    split; [rewrite numBits_length, Hlen, Hlb, <- numBits_length by done; done|].
    split; [|rewrite Hb1 in Hcount; lia]. intros j. rewrite Hlook, Hb1. destruct (decide (j ∈ ks)); [by rewrite decide_True by set_solver|].
    destruct (decide (j = s)) as [->|]; [rewrite decide_True by set_solver; apply list_lookup_insert_eq; by eapply lookup_lt_Some|].
    rewrite decide_False by set_solver. by rewrite list_lookup_insert_ne.
  - destruct (FileHeader.Allocate_no_room rawhdr bm1 size) as [h' ->]; [exact Hwf1| |].
    { change (al_bits bm1) with (BitMap.bits bm1). lia. }
    eexists false, _, _. split; [done|]. cbn. rewrite Hb1 in Hno. lia.
Qed.

(** ** Create *)

Lemma hdr_at_insert a s h : FileHeader.wf h -> OpenFile.disk_ok a -> 0 <= s < NumSectors ->
  hdr_at (<[Z.to_nat s := FileHeader.to_bytes h]> a) s = h.
Proof.
  intros Hh (Hl & _) Hs. unfold hdr_at. rewrite list_lookup_insert_eq by lia. by apply FileHeader.header_of_to_bytes.
Qed.

Lemma only_insert (a : list (list Z)) s bs : 0 <= s -> only [s] a (<[Z.to_nat s := bs]> a).
Proof. intros Hs x Hx Hn. apply list_lookup_insert_ne. intros E. apply Hn. rewrite list_elem_of_singleton. lia. Qed.

(** The three writes at the end of [Create]. *)
Lemma create_writes fs dir bm s h dir' bm' :
  fs_ok fs dir bm -> OpenFile.file_ok h -> 0 <= s < NumSectors -> s ∉ owned (sectors (FileSystem.dev fs)) dir ->
  Directory.wf dir' -> Directory.tableSize dir' = FileSystem.NumDirEntries -> BitMap.wf bm' -> BitMap.numBits bm' = NumSectors ->
  let a := sectors (FileSystem.dev fs) in
  exists d', (d ← FileHeader.WriteBack h (FileSystem.dev fs) s;
              d ← FileSystem.Directory_WriteBack raw dir' d (FileSystem.directoryFile fs);
              d ← FileSystem.BitMap_WriteBack raw bm' d (FileSystem.freeMapFile fs);
              Ok (true, FileSystem.set_dev fs d)) = Ok (true, FileSystem.set_dev fs d') /\
    bd_wf d' /\ hdr_at (sectors d') s = h /\
    only ([s] ++ OpenFile.file_sectors (dir_hdr a) ++ OpenFile.file_sectors (map_hdr a)) a (sectors d') /\
    OpenFile.contents (dir_hdr a) (sectors d') = Directory.to_bytes dir' /\
    OpenFile.contents (map_hdr a) (sectors d') = BitMap.to_bytes bm'.
Proof.
  intros (Hd & Hc & Hm & Hdir) Hh Hs Hfree Hwd Htd Hwb Hnb a. destruct (metadata_apart _ _ _ Hc) as (_ & _ & Mmd & _).
  destruct (c_map _ _ _ Hc) as [Hfm Hnm]. destruct (c_dir _ _ _ Hc) as [Hfd Hnd].
  pose proof Hh as (Hhw & _). destruct (FileHeader.to_bytes_shape h Hhw) as [Hl Hu]. unfold FileHeader.WriteBack.
  destruct (bd_write_ok (FileSystem.dev fs) s _ Hd Hs Hl Hu) as (d1 & -> & Hd1 & Es1). cbn [mbind outcome_bind].
  rewrite <- Hdir in Hfd, Hnd. rewrite <- Hm in Hfm, Hnm.
  destruct (Directory_WriteBack_ok dir' d1 _ Hd1 Hfd Hnd Hwd Htd) as (d2 & -> & Hd2 & Ec2 & Ho2). cbn [mbind outcome_bind].
  destruct (BitMap_WriteBack_ok bm' d2 _ Hd2 Hfm Hnm Hwb Hnb) as (d3 & -> & Hd3 & Ec3 & Ho3). cbn [mbind outcome_bind].
  rewrite Hdir in Hfd, Ec2, Ho2. rewrite Hm in Hfm, Ec3, Ho3. fold a in Ec2, Ho2, Ec3, Ho3, Hfd, Hfm, Es1.
  exists d3. split; [done|]. split; [done|]. unfold owned, metadata in Hfree. fold a in Hfree.
  assert (Hsd : s ∉ OpenFile.file_sectors (dir_hdr a) ++ OpenFile.file_sectors (map_hdr a)) by (clear -Hfree; set_solver).
  split; [|split; [|split]].
  - rewrite (hdr_at_only _ (sectors d1) _ s (only_trans _ _ _ _ _ Ho2 Ho3)) by (done || lia). rewrite Es1.
    apply hdr_at_insert; [done|by apply OpenFile.device_ok|done].
  - rewrite Es1 in Ho2. exact (only_trans _ _ _ _ _ (only_insert a s _ (proj1 Hs)) (only_trans _ _ _ _ _ Ho2 Ho3)).
  - rewrite (contents_only _ _ _ _ Ho3); [done|apply Hfd|]. intros x Hx Hin. by apply (Mmd x).
  - done.
Qed.

(** What they make of the file system. *)
Lemma create_commit fs dir bm nm size s h ks dir' bm' :
  fs_ok fs dir bm -> Forall is_u8 nm -> Directory.Add dir nm (Z.of_nat s) = Ok (true, dir') ->
  OpenFile.file_ok h -> FileHeader.numBytes h = size -> OpenFile.file_sectors h = Z.of_nat <$> ks ->
  NoDup (s :: ks) -> (forall k, k ∈ s :: ks -> BitMap.bits bm !! k = Some false) ->
  BitMap.wf bm' -> BitMap.numBits bm' = NumSectors ->
  (forall j, BitMap.bits bm' !! j = if decide (j ∈ s :: ks) then Some true else BitMap.bits bm !! j) ->
  let a := sectors (FileSystem.dev fs) in
  exists d', (d ← FileHeader.WriteBack h (FileSystem.dev fs) (Z.of_nat s);
              d ← FileSystem.Directory_WriteBack raw dir' d (FileSystem.directoryFile fs);
              d ← FileSystem.BitMap_WriteBack raw bm' d (FileSystem.freeMapFile fs);
              Ok (true, FileSystem.set_dev fs d)) = Ok (true, FileSystem.set_dev fs d') /\
    fs_ok (FileSystem.set_dev fs d') dir' bm' /\
    flipped true (sectors_of (sectors d') dir' (Directory.key nm)) bm bm' /\
    exists c, Z.of_nat (length c) = size /\
    forall k, file (sectors d') dir' k = if bool_decide (k = Directory.key nm) then Some c else file a dir k.
Proof.
  intros Hfs Hnm Eadd Hok Hbytes Hks Hndk Hfree Hwb Hnb Hbits a. pose proof Hfs as (_ & Hc & Em & Ed).
  destruct (c_table _ _ _ Hc) as (Hwd & Htd & _).
  pose proof (lookup_lt_Some _ _ _ (Hfree s ltac:(left))) as Hslt. destruct (c_bits _ _ _ Hc) as (_ & Hnb0 & _).
  rewrite BitMap.bits_length, Hnb0 in Hslt. unfold NumSectors, SectorsPerTrack, NumTracks in Hslt.
  assert (Hs32 : is_s32 (Z.of_nat s)) by (unfold is_s32; lia).
  destruct (Directory.Add_ok dir nm (Z.of_nat s) Hwd Hnm Hs32) as (ok & dir1 & Eadd1 & Hwd' & Htd' & Hadd).
  rewrite Eadd in Eadd1. injection Eadd1 as <- <-. destruct Hadd as [_ Hassoc].
  assert (Hnew : Z.of_nat s ∉ owned a dir).
  { intros Hin. by apply (used_iff _ _ _ _ _ Hc (Hfree s ltac:(left))) in Hin. }
  destruct (create_writes fs dir bm (Z.of_nat s) h dir' bm' Hfs Hok) as (d' & Ew & Hd' & Hh & Ho & Ecd & Ecm);
    [unfold NumSectors, SectorsPerTrack, NumTracks; lia|exact Hnew|done|congruence|done|done|].
  exists d'. split; [exact Ew|]. fold a in Ho, Ecd, Ecm, Hc. rewrite <- Hh in Hok, Hks.
  destruct (Directory.Add_table dir nm (Z.of_nat s) dir' Hwd Eadd) as (j & e & Hj & Hu & ->).
  destruct (consistent_create a (sectors d') dir bm bm' s ks j e nm Hc Hj Hu Hwd' Hok Hks Hndk Hfree Hwb Hnb Hbits
    (OpenFile.device_ok d' Hd') Ho Ecd Ecm) as (Hc' & Em' & Ed' & Hkeep).
  split; [|split; [|exists (OpenFile.contents h (sectors d')); split]].
  - split; [exact Hd'|]. split; [exact Hc'|]. cbn. rewrite Em', Ed'. by split.
  - unfold sectors_of. rewrite Hassoc, bool_decide_true, Hks by done. by apply (flipped_nats true (s :: ks)).
  - rewrite <- Hbytes. rewrite Hh in Hok. exact (length_contents h _ (OpenFile.device_ok d' Hd') Hok).
  - intros k. unfold file. rewrite Hassoc. case_bool_decide; cbn [fmap option_fmap option_map].
    + by rewrite Hh.
    + destruct (Directory.assoc k (Directory.table dir)) as [s'|] eqn:Ek; [|done]. cbn [fmap option_fmap option_map].
      destruct (assoc_entry _ _ _ Ek) as (e' & He' & Hu' & <- & _). by rewrite (Hkeep e' He' Hu').
Qed.

(** Why [Create] refuses. *)
Definition no_room (dir : Directory.t) (bm : BitMap.t) (size : Z) : Prop :=
  Forall (fun e => Directory.inUse e = true) (Directory.table dir) \/
  Z.of_nat (count_clear (BitMap.bits bm)) < 1 + divRoundUp size SectorSize.

Lemma file_None a dir k : file a dir k = None <-> Directory.assoc k (Directory.table dir) = None.
Proof. unfold file. apply fmap_None. Qed.

Lemma assoc_sector a dir bm k s : consistent a dir bm -> Directory.assoc k (Directory.table dir) = Some s -> 0 <= s < NumSectors.
Proof.
  intros Hc Ha. destruct (assoc_entry _ _ _ Ha) as (e & He & Hu & <- & _).
  by destruct (proj1 (list.Forall_forall _ _) (c_files _ _ _ Hc) e He Hu).
Qed.

Lemma fs_Create_ok fs dir bm nm size :
  fs_ok fs dir bm -> Forall is_u8 nm -> FileHeader.wf rawhdr -> 0 <= size <= FileHeader.MaxFileSize ->
  let a := sectors (FileSystem.dev fs) in
  exists ok fs', FileSystem.Create raw rawdir rawhdr fs nm size = Ok (ok, fs') /\
    if ok : bool then
      file a dir (Directory.key nm) = None /\
      exists d' dir' bm', fs' = FileSystem.set_dev fs d' /\ fs_ok fs' dir' bm' /\
        flipped true (sectors_of (sectors d') dir' (Directory.key nm)) bm bm' /\
        Z.of_nat (count_clear (BitMap.bits bm)) = 1 + divRoundUp size SectorSize + Z.of_nat (count_clear (BitMap.bits bm')) /\
        (exists j, forall i, i <> j -> Directory.table dir' !! i = Directory.table dir !! i) /\
        exists c, Z.of_nat (length c) = size /\
        forall k, file (sectors d') dir' k = if bool_decide (k = Directory.key nm) then Some c else file a dir k
    else same fs fs' /\ (file a dir (Directory.key nm) <> None \/ no_room dir bm size).
Proof.
  intros Hfs Hnm Hraw Hsz a. pose proof Hfs as (_ & Hc & _). destruct (c_table _ _ _ Hc) as (Hwd & Htd & _).
  destruct (c_bits _ _ _ Hc) as (Hwb & Hnb & _). unfold FileSystem.Create.
  destruct (fetch_directory_ok fs dir bm Hfs) as (fs1 & -> & S1). cbn [mbind outcome_bind].
  rewrite Directory.Find_ok by done. cbn [mbind outcome_bind].
  destruct (Directory.assoc (Directory.key nm) (Directory.table dir)) as [s0|] eqn:Ea; cbn [default from_option id].
  { pose proof (assoc_sector _ _ _ _ _ Hc Ea). rewrite (proj2 (Z.eqb_neq _ (-1))) by lia. exists false, fs1.
    split; [done|]. split; [done|]. left. rewrite file_None. by rewrite Ea. }
  cbn [negb Z.eqb Pos.eqb]. pose proof (same_ok _ _ _ _ S1 Hfs) as Hfs1.
  destruct (fetch_freeMap_ok fs1 dir bm Hfs1) as (fs2 & -> & S2). cbn [mbind outcome_bind].
  pose proof (same_trans _ _ _ S1 S2) as S12. pose proof (same_ok _ _ _ _ S2 Hfs1) as Hfs2.
  destruct (first_clear (BitMap.bits bm)) as [s|] eqn:Es.
  2:{ pose proof (BitMap.Find_spec bm Hwb) as HF. rewrite Es in HF. rewrite HF. cbn [mbind outcome_bind].
      exists false, fs2. split; [done|]. split; [done|]. right. right. apply first_clear_None in Es. rewrite Es.
      pose proof (divRoundUp_spec size SectorSize ltac:(lia) ltac:(done)). lia. }
  destruct (new_file_sectors bm size s Hwb Hnb Hraw Hsz Es) as (bm1 & -> & ok & h & bm2 & Eal & Hal). cbn [mbind outcome_bind].
  rewrite (proj2 (Z.eqb_neq _ (-1))) by lia. pose proof (first_clear_lt _ _ Es) as Hslt.
  rewrite BitMap.bits_length, Hnb in Hslt. unfold NumSectors, SectorsPerTrack, NumTracks in Hslt.
  assert (Hs32 : is_s32 (Z.of_nat s)) by (unfold is_s32; lia).
  destruct (Directory.Add_ok dir nm (Z.of_nat s) Hwd Hnm Hs32) as (added & dir' & Eadd & _ & _ & Hadd).
  rewrite Eadd. cbn [mbind outcome_bind]. destruct added; cbn [negb].
  2:{ exists false, fs2. split; [done|]. split; [done|]. destruct Hadd as [_ [Hn|Hfull]]; [done|]. right. by left. }
  rewrite Eal. cbn [mbind outcome_bind]. destruct ok; cbn [negb].
  2:{ exists false, fs2. split; [done|]. split; [done|]. right. right. lia. }
  destruct Hal as (ks & Hok & Hbytes & Hks & Hndk & Hfree & Hwb2 & Hnb2 & Hbits & Hcount).
  destruct (create_commit fs2 dir bm nm size s h ks dir' bm2 Hfs2 Hnm Eadd Hok Hbytes Hks Hndk Hfree Hwb2 Hnb2 Hbits)
    as (d' & Ew & Hfs' & Hfl & Hfile).
  rewrite Ew. destruct S12 as (d2 & -> & _ & Es2). eexists true, _. split; [reflexivity|].
  split; [by apply file_None|]. exists d', dir', bm2. split; [done|]. split; [exact Hfs'|].
  split; [exact Hfl|]. split; [exact Hcount|]. split.
  - destruct (Directory.Add_table dir nm (Z.of_nat s) dir' Hwd Eadd) as (j & e & _ & _ & ->). exists j. intros i Hi.
    by apply list_lookup_insert_ne.
  - cbn [FileSystem.set_dev FileSystem.dev] in Hfile. rewrite Es2 in Hfile. exact Hfile.
Qed.

(** ** Remove *)

Lemma file_sectors_nats h : OpenFile.file_ok h ->
  exists ks, OpenFile.file_sectors h = Z.of_nat <$> ks /\ Z.of_nat (length ks) = FileHeader.numSectors h /\
    take (length ks) (FileHeader.dataSectors h) = Z.of_nat <$> ks /\ NoDup ks.
Proof.
  intros Hok. pose proof (OpenFile.length_file_sectors h Hok) as Hl. pose proof Hok as (_ & _ & _ & Hr & Hnd).
  exists (Z.to_nat <$> OpenFile.file_sectors h).
  assert (E : Z.of_nat <$> (Z.to_nat <$> OpenFile.file_sectors h) = OpenFile.file_sectors h).
  { rewrite <- list_fmap_compose. rewrite <- (list_fmap_id (OpenFile.file_sectors h)) at 2. apply list_fmap_ext.
    intros i x Hx. cbn. pose proof (Forall_lookup_1 _ _ _ _ Hr Hx) as Hx'. cbn in Hx'. lia. }
  rewrite E, length_fmap. split; [done|]. split; [done|]. split.
  - unfold OpenFile.file_sectors at 2. f_equal. lia.
  - apply (NoDup_fmap_1 Z.of_nat). by rewrite E.
Qed.

(** [Deallocate] and [Clear] of [Remove]. *)
Lemma removed_sectors bm h s ks :
  BitMap.wf bm -> BitMap.numBits bm = NumSectors -> Z.of_nat (length ks) = FileHeader.numSectors h ->
  take (length ks) (FileHeader.dataSectors h) = Z.of_nat <$> ks -> NoDup ks ->
  (forall k, k ∈ s :: ks -> BitMap.bits bm !! k = Some true) ->
  exists bm1 bm2, FileHeader.Deallocate h bm = Ok bm1 /\ BitMap.Clear bm1 (Z.of_nat s) = Ok bm2 /\
    BitMap.wf bm2 /\ BitMap.numBits bm2 = NumSectors /\
    forall i, BitMap.bits bm2 !! i = if decide (i ∈ s :: ks) then Some false else BitMap.bits bm !! i.
Proof.
  intros Hwf Hn Hlk Ht Hnd Hall.
  destruct (FileHeader.Deallocate_ok h bm ks) as (bm1 & E1 & Hwf1 & Hb1);
    [exact Hwf|by rewrite Hlk|exact Ht|exact Hnd|intros k Hk; apply Hall; by right|].
  change (al_wf bm1) with (BitMap.wf bm1) in Hwf1. change (al_bits bm1) with (BitMap.bits bm1) in Hb1. change (al_bits bm) with (BitMap.bits bm) in Hb1.
  assert (Hn1 : BitMap.numBits bm1 = NumSectors) by (rewrite <- Hn, !numBits_length, Hb1, length_clear_slots by done; done).
  pose proof (lookup_lt_Some _ _ _ (Hall s ltac:(left))) as Hs. pose proof (numBits_length bm Hwf) as Hlb.
  destruct (BitMap.Clear_spec bm1 s Hwf1) as (bm2 & E2 & Hwf2 & Hn2 & Hb2); [rewrite Hn1, <- Hn; lia|].
  exists bm1, bm2. split; [exact E1|]. split; [exact E2|]. split; [exact Hwf2|]. split; [congruence|].
  intros i. rewrite Hb2, Hb1. destruct (decide (i = s)) as [->|Hne].
  - rewrite list_lookup_insert_eq by (by rewrite length_clear_slots). by rewrite decide_True by left.
  - rewrite list_lookup_insert_ne by done. rewrite lookup_clear_slots. destruct (decide (i ∈ s :: ks)) as [Hin|Hin].
    + apply elem_of_cons in Hin as [?|Hin]; [done|]. rewrite decide_True; [done|]. split; [done|].
      apply (lookup_lt_Some _ _ true). apply Hall. by right.
    + rewrite decide_False; [done|]. intros [Hk _]. apply Hin. by right.
Qed.

Lemma remove_writes fs dir bm dir' bm' :
  fs_ok fs dir bm ->
  Directory.wf dir' -> Directory.tableSize dir' = FileSystem.NumDirEntries -> BitMap.wf bm' -> BitMap.numBits bm' = NumSectors ->
  let a := sectors (FileSystem.dev fs) in
  exists d', (d ← FileSystem.BitMap_WriteBack raw bm' (FileSystem.dev fs) (FileSystem.freeMapFile fs);
              d ← FileSystem.Directory_WriteBack raw dir' d (FileSystem.directoryFile fs);
              Ok (true, FileSystem.set_dev fs d)) = Ok (true, FileSystem.set_dev fs d') /\ bd_wf d' /\
    only (OpenFile.file_sectors (map_hdr a) ++ OpenFile.file_sectors (dir_hdr a)) a (sectors d') /\
    OpenFile.contents (dir_hdr a) (sectors d') = Directory.to_bytes dir' /\
    OpenFile.contents (map_hdr a) (sectors d') = BitMap.to_bytes bm'.
Proof.
  intros (Hd & Hc & Hm & Hdir) Hwd Htd Hwb Hnb a. destruct (metadata_apart _ _ _ Hc) as (_ & _ & Mmd & _).
  destruct (c_map _ _ _ Hc) as [Hfm Hnm]. destruct (c_dir _ _ _ Hc) as [Hfd Hnd].
  rewrite <- Hdir in Hfd, Hnd. rewrite <- Hm in Hfm, Hnm.
  destruct (BitMap_WriteBack_ok bm' _ _ Hd Hfm Hnm Hwb Hnb) as (d2 & -> & Hd2 & Ec2 & Ho2). cbn [mbind outcome_bind].
  destruct (Directory_WriteBack_ok dir' d2 _ Hd2 Hfd Hnd Hwd Htd) as (d3 & -> & Hd3 & Ec3 & Ho3). cbn [mbind outcome_bind].
  rewrite Hdir in Hfd, Ec3, Ho3. rewrite Hm in Hfm, Ec2, Ho2. fold a in Ec2, Ho2, Ec3, Ho3, Hfd, Hfm.
  exists d3. split; [done|]. split; [done|]. split; [exact (only_trans _ _ _ _ _ Ho2 Ho3)|]. split; [done|].
  rewrite (contents_only _ _ _ _ Ho3); [done|apply Hfm|]. intros x Hx. by apply (Mmd x).
Qed.

Lemma remove_commit fs dir bm nm s0 :
  fs_ok fs dir bm -> Directory.assoc (Directory.key nm) (Directory.table dir) = Some s0 ->
  let a := sectors (FileSystem.dev fs) in
  exists bm1 bm2 dir' d', FileHeader.Deallocate (hdr_at a s0) bm = Ok bm1 /\ BitMap.Clear bm1 s0 = Ok bm2 /\
    Directory.Remove dir nm = Ok (true, dir') /\
    (d ← FileSystem.BitMap_WriteBack raw bm2 (FileSystem.dev fs) (FileSystem.freeMapFile fs);
     d ← FileSystem.Directory_WriteBack raw dir' d (FileSystem.directoryFile fs);
     Ok (true, FileSystem.set_dev fs d)) = Ok (true, FileSystem.set_dev fs d') /\
    fs_ok (FileSystem.set_dev fs d') dir' bm2 /\ flipped false (sectors_of a dir (Directory.key nm)) bm bm2 /\
    forall k, file (sectors d') dir' k = if bool_decide (k = Directory.key nm) then None else file a dir k.
Proof.
  intros Hfs Ea a. pose proof Hfs as (_ & Hc & Em & Ed). fold a in Hc. destruct (c_table _ _ _ Hc) as (Hwd & Htd & _).
  destruct (c_bits _ _ _ Hc) as (Hwb & Hnb & _). pose proof (assoc_sector _ _ _ _ _ Hc Ea) as Hs0.
  destruct (Directory.Remove_table dir nm s0 Hwd Ea) as (j & e & Hj & Hu & Hse & _ & Erem).
  destruct (Directory.Remove_ok dir nm Hwd) as (dir1 & Erem1 & Hwd' & Htd' & Hassoc).
  rewrite Erem in Erem1. injection Erem1 as _ <-. pose proof (list_elem_of_lookup_2 _ _ _ Hj) as Hej.
  destruct (Forall_lookup_1 _ _ _ _ (c_files _ _ _ Hc) Hj Hu) as [_ Hok]. rewrite Hse in Hok.
  destruct (file_sectors_nats _ Hok) as (ks & Hks & Hlk & Ht & Hnd).
  assert (Hown : owned_by a e = Z.of_nat <$> Z.to_nat s0 :: ks).
  { unfold owned_by. rewrite Hu, Hse. cbn [fmap list_fmap]. rewrite Z2Nat.id by lia. f_equal. exact Hks. }
  assert (Hall : forall k, k ∈ Z.to_nat s0 :: ks -> BitMap.bits bm !! k = Some true).
  { intros k Hk. assert (Hin : Z.of_nat k ∈ owned a dir).
    { unfold owned. apply elem_of_app. right. apply (elem_of_owned a dir e); [done|]. rewrite Hown. by apply list_elem_of_fmap_2. }
    rewrite (c_used _ _ _ Hc); [by rewrite bool_decide_eq_true_2|]. apply elem_of_cons in Hk as [->|Hk]; [lia|].
    pose proof Hok as (_ & _ & _ & Hr & _). rewrite Hks, Forall_fmap, list.Forall_forall in Hr. specialize (Hr k Hk). cbn in Hr. lia. }
  destruct (removed_sectors bm (hdr_at a s0) (Z.to_nat s0) ks Hwb Hnb Hlk Ht Hnd Hall) as (bm1 & bm2 & E1 & E2 & Hwb2 & Hnb2 & Hbits).
  rewrite Z2Nat.id in E2 by lia.
  destruct (remove_writes fs dir bm _ bm2 Hfs Hwd' ltac:(by rewrite Htd') Hwb2 Hnb2) as (d' & Ew & Hd' & Ho & Ecd & Ecm).
  fold a in Ho, Ecd, Ecm.
  destruct (consistent_remove a (sectors d') dir bm bm2 j e (Z.to_nat s0 :: ks) Hc Hj Hu Hwd' Hown Hwb2 Hnb2 Hbits
    (OpenFile.device_ok d' Hd') Ho Ecd Ecm) as (Hc' & Em' & Ed' & Hkeep).
  eexists bm1, bm2, _, d'. split; [exact E1|]. split; [exact E2|]. split; [exact Erem|]. split; [exact Ew|]. split; [|split].
  - split; [exact Hd'|]. split; [exact Hc'|]. cbn. rewrite Em', Ed'. by split.
  - unfold sectors_of. rewrite Ea, Hks. rewrite <- (Z2Nat.id s0) at 1 by lia. by apply (flipped_nats false (Z.to_nat s0 :: ks)).
  - intros k. unfold file. rewrite Hassoc. case_bool_decide; [done|].
    destruct (Directory.assoc k (Directory.table dir)) as [s'|] eqn:Ek; [|done]. cbn [fmap option_fmap option_map].
    destruct (assoc_entry _ _ _ Ek) as (e' & He' & Hu' & <- & _). by rewrite (Hkeep e' He' Hu').
Qed.

(** [FileHeader::FetchFrom] of a sector. *)
Lemma FetchFrom_ok (d : D) s : bd_wf d -> 0 <= s < NumSectors ->
  exists d', FileHeader.FetchFrom d s = Ok (hdr_at (sectors d) s, d') /\ bd_wf d' /\ sectors d' = sectors d.
Proof.
  intros Hd Hs. destruct (OpenFile.sector_lookup _ s (OpenFile.device_ok d Hd) Hs) as (bs & Hbs & _).
  destruct (bd_read_ok d s bs Hd) as (d' & E & ?); [lia|done|]. unfold FileHeader.FetchFrom, hdr_at. rewrite E, Hbs. by exists d'.
Qed.

Lemma fs_Remove_ok fs dir bm nm :
  fs_ok fs dir bm ->
  let a := sectors (FileSystem.dev fs) in
  exists ok fs', FileSystem.Remove raw rawdir fs nm = Ok (ok, fs') /\
    if ok : bool then
      file a dir (Directory.key nm) <> None /\
      exists d' dir' bm', fs' = FileSystem.set_dev fs d' /\ fs_ok fs' dir' bm' /\
        flipped false (sectors_of a dir (Directory.key nm)) bm bm' /\
        forall k, file (sectors d') dir' k = if bool_decide (k = Directory.key nm) then None else file a dir k
    else same fs fs' /\ file a dir (Directory.key nm) = None.
Proof.
  intros Hfs a. pose proof Hfs as (_ & Hc & _). destruct (c_table _ _ _ Hc) as (Hwd & _ & _). unfold FileSystem.Remove.
  destruct (fetch_directory_ok fs dir bm Hfs) as (fs1 & -> & S1). cbn [mbind outcome_bind].
  rewrite Directory.Find_ok by done. cbn [mbind outcome_bind].
  destruct (Directory.assoc (Directory.key nm) (Directory.table dir)) as [s0|] eqn:Ea; cbn [default from_option id].
  2:{ cbn [Z.eqb Pos.eqb]. exists false, fs1. split; [done|]. split; [done|]. by apply file_None. }
  pose proof (assoc_sector _ _ _ _ _ Hc Ea) as Hs0. rewrite (proj2 (Z.eqb_neq _ (-1))) by lia.
  pose proof (same_ok _ _ _ _ S1 Hfs) as Hfs1.
  destruct (FetchFrom_ok (FileSystem.dev fs1) s0 (proj1 Hfs1) Hs0) as (d2 & -> & Hd2 & Es2). cbn [mbind outcome_bind].
  assert (S2 : same fs1 (FileSystem.set_dev fs1 d2)) by (by exists d2). pose proof (same_ok _ _ _ _ S2 Hfs1) as Hfs2.
  destruct (fetch_freeMap_ok _ dir bm Hfs2) as (fs3 & -> & S3). cbn [mbind outcome_bind].
  pose proof (same_trans _ _ _ S1 (same_trans _ _ _ S2 S3)) as S. pose proof (same_ok _ _ _ _ S3 Hfs2) as Hfs3.
  destruct (remove_commit fs3 dir bm nm s0 Hfs3 Ea) as (bm1 & bm2 & dir' & d' & E1 & E2 & E3 & E4 & Hfs' & Hfl & Hfile).
  destruct S as (d3 & -> & _ & Es3). destruct S1 as (d1 & -> & _ & Es1). cbn [FileSystem.dev FileSystem.set_dev FileSystem.freeMapFile FileSystem.directoryFile] in E1, E4, Hfl, Hfile, Es1 |- *.
  rewrite Es3 in E1, Hfl, Hfile. rewrite Es1. rewrite E1. cbn [mbind outcome_bind]. rewrite E2. cbn [mbind outcome_bind].
  rewrite E3. cbn [mbind outcome_bind]. rewrite E4. eexists true, _. split; [reflexivity|]. split; [rewrite file_None; by rewrite Ea|].
  exists d', dir', bm2. split; [done|]. split; [exact Hfs'|]. split; [exact Hfl|exact Hfile].
Qed.

(** ** Open *)

Lemma assoc_file_ok a dir bm k s : consistent a dir bm -> Directory.assoc k (Directory.table dir) = Some s ->
  OpenFile.file_ok (hdr_at a s).
Proof.
  intros Hc Ha. destruct (assoc_entry _ _ _ Ha) as (e & He & Hu & <- & _).
  by destruct (proj1 (list.Forall_forall _ _) (c_files _ _ _ Hc) e He Hu).
Qed.

Lemma new_OpenFile_ok fs dir bm k s type :
  fs_ok fs dir bm -> Directory.assoc k (Directory.table dir) = Some s ->
  let a := sectors (FileSystem.dev fs) in
  exists d', FileSystem.new_OpenFile fs s type =
      Ok (FileSystem.nextptr fs,
          FileSystem.mk d' (FileSystem.freeMapFile fs) (FileSystem.directoryFile fs)
            (<[FileSystem.nextptr fs := OpenFile.mk (hdr_at a s) 0 type]> (FileSystem.heap fs))
            (FileSystem.nextptr fs + 1) (FileSystem.openfile fs)) /\
    bd_wf d' /\ sectors d' = a.
Proof.
  intros Hfs Ha a. pose proof Hfs as (Hd & Hc & _). unfold FileSystem.new_OpenFile, OpenFile.OpenFile_new.
  destruct (FetchFrom_ok (FileSystem.dev fs) s Hd (assoc_sector _ _ _ _ _ Hc Ha)) as (d' & -> & Hd' & Es).
  cbn [mbind outcome_bind]. by exists d'.
Qed.

(** The state after a file was opened: [f] at a new address. *)
Definition opened (fs fs' : FileSystem.t D) (f : OpenFile.t) : Prop :=
  bd_wf (FileSystem.dev fs') /\ sectors (FileSystem.dev fs') = sectors (FileSystem.dev fs) /\
  FileSystem.freeMapFile fs' = FileSystem.freeMapFile fs /\ FileSystem.directoryFile fs' = FileSystem.directoryFile fs /\
  FileSystem.heap fs' = <[FileSystem.nextptr fs := f]> (FileSystem.heap fs) /\
  FileSystem.nextptr fs' = FileSystem.nextptr fs + 1.

Lemma opened_ok fs fs' f dir bm : opened fs fs' f -> fs_ok fs dir bm -> fs_ok fs' dir bm.
Proof. intros (Hd & Es & Em & Ed & _) (_ & Hc & Hm & Hdir). unfold fs_ok. rewrite Es, Em, Ed. done. Qed.

Lemma Open_ok fs dir bm nm :
  fs_ok fs dir bm ->
  let a := sectors (FileSystem.dev fs) in
  match Directory.assoc (Directory.key nm) (Directory.table dir) with
  | Some s => exists fs' f, FileSystem.Open raw rawdir fs nm = Ok (FileSystem.nextptr fs, fs') /\ opened fs fs' f /\
                OpenFile.hdr f = hdr_at a s /\ OpenFile.seekPosition f = 0 /\ FileSystem.openfile fs' = FileSystem.openfile fs
  | None => exists fs', FileSystem.Open raw rawdir fs nm = Ok (0, fs') /\ same fs fs'
  end.
Proof.
  intros Hfs a. pose proof Hfs as (_ & Hc & _). destruct (c_table _ _ _ Hc) as (Hwd & _ & _). unfold FileSystem.Open.
  destruct (fetch_directory_ok fs dir bm Hfs) as (fs1 & -> & S1). cbn [mbind outcome_bind].
  rewrite Directory.Find_ok by done. cbn [mbind outcome_bind].
  destruct (Directory.assoc (Directory.key nm) (Directory.table dir)) as [s|] eqn:Ea; cbn [default from_option id].
  2:{ exists fs1. by split. }
  pose proof (assoc_sector _ _ _ _ _ Hc Ea) as Hs. rewrite Z.geb_leb, (proj2 (Z.leb_le 0 s)) by lia.
  destruct (new_OpenFile_ok fs1 dir bm _ s (raw 0) (same_ok _ _ _ _ S1 Hfs) Ea) as (d' & -> & Hd' & Es).
  destruct S1 as (d1 & -> & _ & Es1). cbn [FileSystem.set_dev FileSystem.dev FileSystem.nextptr FileSystem.heap
    FileSystem.openfile FileSystem.freeMapFile FileSystem.directoryFile] in *.
  eexists _, _. split; [reflexivity|]. unfold opened. cbn. rewrite Es, Es1. done.
Qed.

(** ** Writing a file *)

Lemma write_ok fs dir bm k s from n pos :
  fs_ok fs dir bm -> Directory.assoc k (Directory.table dir) = Some s -> 0 <= pos -> pos + n < 2 ^ 31 ->
  let a := sectors (FileSystem.dev fs) in let c := OpenFile.contents (hdr_at a s) a in
  let m := OpenFile.transferred (Z.of_nat (length c)) n pos in
  m <= Z.of_nat (length from) -> Forall is_u8 from ->
  exists d', OpenFile.WriteAt raw (FileSystem.dev fs) (hdr_at a s) from n pos = Ok (m, d') /\
    fs_ok (FileSystem.set_dev fs d') dir bm /\ hdr_at (sectors d') s = hdr_at a s /\
    forall k', file (sectors d') dir k' =
      if bool_decide (k' = k) then Some (splice c (Z.to_nat pos) (take (Z.to_nat m) from)) else file a dir k'.
Proof.
  intros Hfs Ha Hp Hn a c m Hm Hu. pose proof Hfs as (Hd & Hc & Em & Ed). fold a in Hc, Em, Ed.
  pose proof (assoc_file_ok _ _ _ _ _ Hc Ha) as Hok.
  assert (El : Z.of_nat (length c) = FileHeader.numBytes (hdr_at a s)) by (apply length_contents; [by apply OpenFile.device_ok|done]).
  unfold m in *. rewrite El in *.
  destruct (OpenFile.WriteAt_ok raw (FileSystem.dev fs) (hdr_at a s) from n pos Hd Hok Hp Hn Hm Hu) as (d' & Ew & Hd' & Hcont & Hoth).
  exists d'. split; [exact Ew|]. fold a in Hcont, Hoth. fold c in Hcont.
  destruct (assoc_entry _ _ _ Ha) as (e & He & Hue & Hse & Hke). apply list_elem_of_lookup in He as [i Hi].
  assert (Ho : only (OpenFile.file_sectors (hdr_at a (Directory.sector e))) a (sectors d')).
  { intros x Hx Hnx. apply Hoth. rewrite Z2Nat.id by done. by rewrite <- Hse. }
  destruct (consistent_write a (sectors d') dir bm i e Hc Hi Hue Ho (OpenFile.device_ok d' Hd')) as (Hc' & Em' & Ed' & Hkeep).
  split; [split; [exact Hd'|]; split; [exact Hc'|]; cbn; rewrite Em', Ed'; by split|].
  split; [rewrite <- Hse; by apply (Hkeep i e)|].
  intros k'. unfold file. case_bool_decide as Hk.
  - subst k'. rewrite Ha. cbn [fmap option_fmap option_map]. destruct (Hkeep i e Hi Hue) as [Eh _]. rewrite Hse in Eh.
    rewrite Eh. by rewrite Hcont.
  - destruct (Directory.assoc k' (Directory.table dir)) as [s'|] eqn:Ek; [|done]. cbn [fmap option_fmap option_map]. f_equal.
    destruct (assoc_entry _ _ _ Ek) as (e' & He' & Hu' & <- & Hk'). apply list_elem_of_lookup in He' as [j Hj].
    destruct (Hkeep j e' Hj Hu') as [Eh Hcj]. rewrite Eh. apply Hcj. intros ->. rewrite Hi in Hj. injection Hj as <-. congruence.
Qed.

(** ** A new disk *)

Lemma first_clear_prefix n l : first_clear (replicate n true ++ false :: l) = Some n.
Proof. induction n as [|n IH]; [done|]. cbn. by rewrite IH. Qed.

Lemma insert_prefix n (l : list bool) : <[n := true]> (replicate n true ++ false :: l) = replicate (S n) true ++ l.
Proof. induction n as [|n IH]; [done|]. cbn. f_equal. exact IH. Qed.

Lemma count_clear_prefix n m : count_clear (replicate n true ++ replicate m false) = m.
Proof. induction n as [|n IH]; [apply count_clear_replicate|exact IH]. Qed.

(** The first sectors are taken one after the other. *)
Lemma Allocate_one (b : BitMap.t) n m size :
  FileHeader.wf rawhdr -> BitMap.wf b -> BitMap.bits b = replicate n true ++ replicate (S m) false ->
  Z.of_nat n < NumSectors -> 0 < size <= SectorSize ->
  exists h b', FileHeader.Allocate rawhdr b size = Ok (true, h, b') /\ OpenFile.file_ok h /\
    FileHeader.numBytes h = size /\ OpenFile.file_sectors h = [Z.of_nat n] /\
    BitMap.wf b' /\ BitMap.bits b' = replicate (S n) true ++ replicate m false.
Proof.
  intros Hraw Hwf Hb Hn Hsz. pose proof Hraw as (_ & _ & Hl & _).
  destruct (divRoundUp_spec size SectorSize ltac:(lia) ltac:(done)) as [Hdiv Hpos].
  assert (E1 : divRoundUp size SectorSize = 1) by (unfold SectorSize in *; lia).
  destruct (FileHeader.Allocate_room rawhdr b size) as (h & b' & E & Hwf' & Hbytes & Hns & Hl' & ks & Hks & Ht & Hd).
  - exact Hwf.
  - exact Hl.
  - lia.
  - rewrite E1. done.
  - change (al_bits b) with (BitMap.bits b). rewrite Hb, count_clear_prefix, E1. lia.
  - rewrite E1 in Hns, Hks, Ht, Hd. change (al_bits b) with (BitMap.bits b) in Hks. change (al_bits b') with (BitMap.bits b') in Hks.
    change (Z.to_nat 1) with 1%nat in *. cbn [take_slots] in Hks. rewrite Hb in Hks. cbn [replicate] in Hks.
    rewrite first_clear_prefix, insert_prefix in Hks. injection Hks as <- Hb'.
    exists h, b'. split; [exact E|].
    destruct (allocated_ok rawhdr h [n] 1 size) as [Hok Hfs]; try done.
    + unfold FileHeader.MaxFileSize, FileHeader.NumDirect, SectorSize in *. change (Z.quot (512 - 2 * 4) 4) with 126. lia.
    + by rewrite E1.
    + apply NoDup_singleton.
    + by constructor.
Qed.

Lemma Directory_new_wf : (forall i, Directory.entry_ok (rawdir i)) ->
  Directory.wf (Directory.Directory_new rawdir FileSystem.NumDirEntries) /\
  Forall (fun e => Directory.inUse e = false) (Directory.table (Directory.Directory_new rawdir FileSystem.NumDirEntries)).
Proof.
  intros Hraw. unfold Directory.Directory_new, Directory.wf. cbn [Directory.tableSize Directory.table].
  assert (Hu : Forall (fun e => Directory.inUse e = false)
    ((fun i => Directory.set_inUse (rawdir i) false) <$> seqZ 0 FileSystem.NumDirEntries)) by (apply Forall_fmap, Forall_true; done).
  split; [|exact Hu]. split; [by rewrite length_fmap, length_seqZ|]. split.
  - apply Forall_fmap, Forall_true. intros i. exact (Hraw i).
  - assert (Directory.keys ((fun i => Directory.set_inUse (rawdir i) false) <$> seqZ 0 FileSystem.NumDirEntries) = []) as ->; [|constructor].
    induction Hu as [|e es He _ IH]; [done|]. rewrite Directory.keys_cons, He. exact IH.
Qed.

Lemma unused_entries a es : Forall (fun e => Directory.inUse e = false) es ->
  flat_map (owned_by a) es = [] /\ Forall (entry_fits a) es /\ forall k, Directory.assoc k es = None.
Proof.
  induction 1 as [|e es He _ (E & F & A)]; [done|]. split; [|split].
  - cbn [flat_map]. unfold owned_by at 1. by rewrite He.
  - constructor; [|done]. intros Hu. congruence.
  - intros k. cbn [Directory.assoc]. rewrite bool_decide_eq_false_2; [apply A|]. intros [? _]. congruence.
Qed.

(** The free map of a new disk: the first four sectors are in use. *)
Lemma fresh_bitmap :
  exists b0 b1 b2, BitMap.BitMap raw NumSectors = Ok b0 /\ BitMap.Mark b0 FileSystem.FreeMapSector = Ok b1 /\
    BitMap.Mark b1 FileSystem.DirectorySector = Ok b2 /\ BitMap.wf b2 /\
    BitMap.bits b2 = replicate 2 true ++ replicate 1022 false.
Proof.
  destruct (BitMap.BitMap_spec raw NumSectors ltac:(done)) as (b0 & E0 & W0 & N0 & B0).
  destruct (BitMap.Mark_spec b0 0 W0) as (b1 & E1 & W1 & N1 & B1); [by rewrite N0|].
  destruct (BitMap.Mark_spec b1 1 W1) as (b2 & E2 & W2 & N2 & B2); [by rewrite N1, N0|].
  exists b0, b1, b2. split; [exact E0|]. split; [exact E1|]. split; [exact E2|]. split; [exact W2|].
  rewrite B2, B1, B0. reflexivity.
Qed.

Lemma consistent_new a mh dh bm dir :
  OpenFile.disk_ok a -> map_hdr a = mh -> dir_hdr a = dh ->
  OpenFile.file_ok mh -> FileHeader.numBytes mh = FileSystem.FreeMapFileSize -> OpenFile.file_sectors mh = [2] ->
  OpenFile.file_ok dh -> FileHeader.numBytes dh = FileSystem.DirectoryFileSize -> OpenFile.file_sectors dh = [3] ->
  BitMap.wf bm -> BitMap.bits bm = replicate 4 true ++ replicate 1020 false -> OpenFile.contents mh a = BitMap.to_bytes bm ->
  Directory.wf dir -> Directory.tableSize dir = FileSystem.NumDirEntries -> OpenFile.contents dh a = Directory.to_bytes dir ->
  Forall (fun e => Directory.inUse e = false) (Directory.table dir) ->
  consistent a dir bm /\ forall k, file a dir k = None.
Proof.
  intros Ha <- <- Hm Hnm Hsm Hd Hnd Hsd Hwb Hb Hcb Hwd Htd Hcd Hu. destruct (unused_entries a _ Hu) as (Eo & Hfit & Hassoc).
  assert (Eown : owned a dir = [0; 1; 2; 3]) by (unfold owned, metadata; rewrite Hsm, Hsd, Eo; done).
  split; [split; try assumption; try by split|intros k; unfold file; by rewrite Hassoc].
  - split; [done|]. split; [|done]. rewrite numBits_length, Hb by done. reflexivity.
  - rewrite Eown. repeat constructor; set_solver.
  - rewrite Eown, Hb. intros i Hi. destruct (decide (i < 4)%nat) as [Hlt|Hge].
    + assert (i = 0 \/ i = 1 \/ i = 2 \/ i = 3)%nat as [-> | [-> | [-> | ->]]] by lia; reflexivity.
    + rewrite lookup_app_r, length_replicate by (rewrite length_replicate; lia).
      rewrite lookup_replicate_2 by (change (Z.to_nat NumSectors) with 1024%nat in Hi; lia). f_equal. symmetry.
      apply bool_decide_eq_false_2. rewrite !elem_of_cons, elem_of_nil. lia.
Qed.

Lemma first_sectors :
  FileSystem.FreeMapSector ∉ [FileSystem.DirectorySector] /\ FileSystem.FreeMapSector ∉ [2] ++ [3] /\
  FileSystem.DirectorySector ∉ [2] ++ [3] /\ (forall s : Z, s ∈ [2] -> s ∉ [3]).
Proof. unfold FileSystem.FreeMapSector, FileSystem.DirectorySector. set_solver. Qed.

Lemma format_disk_ok (d : D) :
  bd_wf d -> FileHeader.wf rawhdr -> (forall i, Directory.entry_ok (rawdir i)) ->
  exists fmf df d' bm, FileSystem.format_disk raw rawdir rawhdr d = Ok (fmf, df, d') /\
    count_clear (BitMap.bits bm) = 1020%nat /\
    forall h np os, fs_ok (FileSystem.mk d' fmf df h np os) (Directory.Directory_new rawdir FileSystem.NumDirEntries) bm /\
      forall k, file (sectors d') (Directory.Directory_new rawdir FileSystem.NumDirEntries) k = None.
Proof.
  intros Hd Hraw Hent. unfold FileSystem.format_disk. destruct first_sectors as (F1 & F2 & F3 & F4). destruct fresh_bitmap as (b0 & b1 & b2 & -> & E1 & E2 & W2 & B2).
  cbn [mbind outcome_bind]. rewrite E1. cbn [mbind outcome_bind]. rewrite E2. cbn [mbind outcome_bind].
  destruct (Allocate_one b2 2 1021 FileSystem.FreeMapFileSize Hraw W2 B2) as (mh & b3 & -> & Hm & Hnm & Hsm & W3 & B3); [done|by vm_compute|].
  cbn [mbind outcome_bind ASSERT].
  destruct (Allocate_one b3 3 1020 FileSystem.DirectoryFileSize Hraw W3 B3) as (dh & b4 & -> & Hdh & Hnd & Hsd & W4 & B4); [done|by vm_compute|].
  cbn [mbind outcome_bind ASSERT]. destruct (Directory_new_wf Hent) as [Hwd Hun].
  unfold FileHeader.WriteBack. destruct (FileHeader.to_bytes_shape mh (proj1 Hm)) as [Lm Um]. destruct (FileHeader.to_bytes_shape dh (proj1 Hdh)) as [Ld Ud].
  destruct (bd_write_ok d FileSystem.FreeMapSector _ Hd ltac:(done) Lm Um) as (d1 & -> & Hd1 & Es1). cbn [mbind outcome_bind].
  destruct (bd_write_ok d1 FileSystem.DirectorySector _ Hd1 ltac:(done) Ld Ud) as (d2 & -> & Hd2 & Es2). cbn [mbind outcome_bind].
  assert (H1 : hdr_at (sectors d2) FileSystem.DirectorySector = dh).
  { rewrite Es2. apply hdr_at_insert; [apply Hdh|by apply OpenFile.device_ok|done]. }
  assert (H00 : hdr_at (sectors d2) FileSystem.FreeMapSector = mh).
  { rewrite Es2, (hdr_at_only [FileSystem.DirectorySector] (sectors d1)); [|by apply only_insert|done|exact F1].
    rewrite Es1. apply hdr_at_insert; [apply Hm|by apply OpenFile.device_ok|done]. }
  unfold OpenFile.OpenFile_new. destruct (FetchFrom_ok d2 FileSystem.FreeMapSector Hd2 ltac:(done)) as (d3 & -> & Hd3 & Es3). cbn [mbind outcome_bind].
  destruct (FetchFrom_ok d3 FileSystem.DirectorySector Hd3 ltac:(done)) as (d4 & -> & Hd4 & Es4). cbn [mbind outcome_bind]. rewrite Es3, H1, H00.
  assert (N4 : BitMap.numBits b4 = NumSectors) by (rewrite numBits_length, B4 by done; reflexivity).
  destruct (BitMap_WriteBack_ok b4 d4 (OpenFile.mk mh 0 (raw 0)) Hd4 Hm Hnm W4 N4) as (d5 & -> & Hd5 & C5 & O5). cbn [mbind outcome_bind].
  destruct (Directory_WriteBack_ok _ d5 (OpenFile.mk dh 0 (raw 0)) Hd5 Hdh Hnd Hwd eq_refl) as (d6 & -> & Hd6 & C6 & O6). cbn [mbind outcome_bind].
  cbn [OpenFile.hdr] in *. pose proof (only_trans _ _ _ _ _ O5 O6) as O. rewrite Hsm, Hsd, Es4, Es3 in O.
  assert (Mm : map_hdr (sectors d6) = mh) by (unfold map_hdr; rewrite (hdr_at_only _ _ _ _ O); [exact H00|done|exact F2]).
  assert (Md : dir_hdr (sectors d6) = dh) by (unfold dir_hdr; rewrite (hdr_at_only _ _ _ _ O); [exact H1|done|exact F3]).
  assert (C5' : OpenFile.contents mh (sectors d6) = BitMap.to_bytes b4).
  { rewrite (contents_only _ _ _ _ O6); [exact C5|apply Hm|]. rewrite Hsm, Hsd. exact F4. }
  destruct (consistent_new (sectors d6) mh dh b4 _ (OpenFile.device_ok d6 Hd6) Mm Md Hm Hnm Hsm Hdh Hnd Hsd W4 B4 C5' Hwd eq_refl C6 Hun) as [Hc Hf].
  eexists _, _, d6, b4. split; [done|]. split; [rewrite B4; apply (count_clear_prefix 4 1020)|]. intros h np os. split; [|exact Hf]. split; [exact Hd6|]. split; [exact Hc|]. cbn. by rewrite Mm, Md.
Qed.

(** ** The constructor *)

Lemma Open_type_ok fs dir bm nm type i s :
  fs_ok fs dir bm -> Directory.assoc (Directory.key nm) (Directory.table dir) = Some s ->
  FileSystem.FindFreeSlot fs = Ok i -> 0 <= i < Z.of_nat (length (FileSystem.openfile fs)) ->
  let f := OpenFile.mk (hdr_at (sectors (FileSystem.dev fs)) s) 0 type in
  exists fs', FileSystem.Open_type raw rawdir fs nm type = Ok (FileSystem.nextptr fs, fs') /\ opened fs fs' f /\
    FileSystem.openfile fs' = <[Z.to_nat i := FileSystem.nextptr fs]> (FileSystem.openfile fs).
Proof.
  intros Hfs Ea Ei Hi f. pose proof Hfs as (_ & Hc & _). destruct (c_table _ _ _ Hc) as (Hwd & _ & _).
  unfold FileSystem.Open_type. rewrite Ei. cbn [mbind outcome_bind].
  destruct (fetch_directory_ok fs dir bm Hfs) as (fs1 & -> & S1). cbn [mbind outcome_bind].
  rewrite Directory.Find_ok, Ea by done. cbn [mbind outcome_bind default from_option id].
  pose proof (assoc_sector _ _ _ _ _ Hc Ea) as Hs. rewrite Z.geb_leb, (proj2 (Z.leb_le 0 s)) by lia.
  destruct (new_OpenFile_ok fs1 dir bm _ s type (same_ok _ _ _ _ S1 Hfs) Ea) as (d' & -> & Hd' & Es). cbn [mbind outcome_bind].
  destruct S1 as (d1 & -> & _ & Es1). cbn [FileSystem.set_dev FileSystem.dev FileSystem.nextptr FileSystem.heap
    FileSystem.openfile FileSystem.freeMapFile FileSystem.directoryFile] in *.
  rewrite wr_ok by lia. cbn [mbind outcome_bind FileSystem.set_openfile FileSystem.openfile].
  rewrite (rd_lookup _ _ (FileSystem.nextptr fs)) by (lia || apply list_lookup_insert_eq; lia). cbn [mbind outcome_bind].
  eexists. split; [reflexivity|]. unfold opened. cbn. rewrite Es, Es1. done.
Qed.

(** [Create] of an empty file on a disk that has room for it. *)
Lemma Create_room fs dir bm nm e j :
  fs_ok fs dir bm -> Forall is_u8 nm -> FileHeader.wf rawhdr -> file (sectors (FileSystem.dev fs)) dir (Directory.key nm) = None ->
  Directory.table dir !! j = Some e -> Directory.inUse e = false -> (0 < count_clear (BitMap.bits bm))%nat ->
  exists d' dir' bm', FileSystem.Create raw rawdir rawhdr fs nm 0 = Ok (true, FileSystem.set_dev fs d') /\
    fs_ok (FileSystem.set_dev fs d') dir' bm' /\
    (count_clear (BitMap.bits bm) = S (count_clear (BitMap.bits bm')))%nat /\
    (exists j, forall i, i <> j -> Directory.table dir' !! i = Directory.table dir !! i) /\
    forall k, file (sectors d') dir' k = if bool_decide (k = Directory.key nm) then Some [] else file (sectors (FileSystem.dev fs)) dir k.
Proof.
  intros Hfs Hnm Hraw Hn Hj Hu Hcc. change (divRoundUp 0 SectorSize) with 0.
  destruct (fs_Create_ok fs dir bm nm 0 Hfs Hnm Hraw) as (ok & fs' & E & Hok); [vm_compute; split; discriminate|]. destruct ok.
  - destruct Hok as (_ & d' & dir' & bm' & -> & Hfs' & _ & Hcount & Htab & c & Hlc & Hfile).
    change (divRoundUp 0 SectorSize) with 0 in Hcount. exists d', dir', bm'. split; [exact E|]. split; [exact Hfs'|]. split; [lia|].
    split; [exact Htab|]. destruct c; [exact Hfile|cbn in Hlc; lia].
  - exfalso. destruct Hok as (_ & [Hf|[Hfull|Hno]]).
    + by apply Hf.
    + apply (Forall_lookup_1 _ _ _ _ Hfull) in Hj. congruence.
    + change (divRoundUp 0 SectorSize) with 0 in Hno. lia.
Qed.

Lemma console_names : Forall is_u8 FileSystem.stdin_name /\ Forall is_u8 FileSystem.stdout_name /\
  Directory.key FileSystem.stdin_name <> Directory.key FileSystem.stdout_name.
Proof. split; [|split]; [repeat constructor; unfold is_u8; lia|repeat constructor; unfold is_u8; lia|done]. Qed.

(** The two files of the console on a new disk. *)
Lemma create_console fs bm :
  let dir := Directory.Directory_new rawdir FileSystem.NumDirEntries in
  fs_ok fs dir bm -> FileHeader.wf rawhdr -> (forall k, file (sectors (FileSystem.dev fs)) dir k = None) -> count_clear (BitMap.bits bm) = 1020%nat ->
  exists d1 d2 dir2 bm2, FileSystem.Create raw rawdir rawhdr fs FileSystem.stdin_name 0 = Ok (true, FileSystem.set_dev fs d1) /\
    FileSystem.Create raw rawdir rawhdr (FileSystem.set_dev fs d1) FileSystem.stdout_name 0 = Ok (true, FileSystem.set_dev fs d2) /\
    fs_ok (FileSystem.set_dev fs d2) dir2 bm2 /\ count_clear (BitMap.bits bm2) = 1018%nat /\
    forall k, file (sectors d2) dir2 k =
      if bool_decide (k = Directory.key FileSystem.stdout_name) then Some []
      else if bool_decide (k = Directory.key FileSystem.stdin_name) then Some [] else None.
Proof.
  intros dir Hfs Hraw Hnone Hcc. destruct console_names as (Hn1 & Hn2 & Hne).
  assert (Hent : forall i, (i < 10)%nat -> exists e, Directory.table dir !! i = Some e /\ Directory.inUse e = false).
  { intros i Hi. exists (Directory.set_inUse (rawdir (0 + Z.of_nat i)) false). split; [|reflexivity]. unfold dir, Directory.Directory_new. cbn [Directory.table].
    rewrite list_lookup_fmap, lookup_seqZ_lt by (unfold FileSystem.NumDirEntries; lia). reflexivity. }
  destruct (Hent 0%nat ltac:(lia)) as (e0 & He0 & Hu0).
  destruct (Create_room fs dir bm FileSystem.stdin_name e0 0 Hfs Hn1 Hraw (Hnone _) He0 Hu0 ltac:(lia))
    as (d1 & dir1 & bm1 & E1 & Hfs1 & Hc1 & (j & Htab) & Hf1).
  assert (Hfree : exists i e, Directory.table dir1 !! i = Some e /\ Directory.inUse e = false).
  { destruct (decide (j = 0%nat)) as [->|Hj].
    - destruct (Hent 1%nat ltac:(lia)) as (e1 & He1 & Hu1). exists 1%nat, e1. by rewrite Htab.
    - exists 0%nat, e0. by rewrite Htab. }
  destruct Hfree as (i & e & He & Hu).
  destruct (Create_room (FileSystem.set_dev fs d1) dir1 bm1 FileSystem.stdout_name e i Hfs1 Hn2 Hraw) as (d2 & dir2 & bm2 & E2 & Hfs2 & Hc2 & _ & Hf2).
  - cbn [FileSystem.set_dev FileSystem.dev]. rewrite Hf1, bool_decide_eq_false_2 by congruence. apply Hnone.
  - exact He.
  - exact Hu.
  - lia.
  - exists d1, d2, dir2, bm2. split; [exact E1|]. split; [exact E2|]. split; [exact Hfs2|]. split; [lia|]. intros k. rewrite Hf2.
    cbn [FileSystem.set_dev FileSystem.dev]. rewrite Hf1, Hnone. done.
Qed.

Lemma file_assoc a dir k c : file a dir k = Some c ->
  exists s, Directory.assoc k (Directory.table dir) = Some s /\ c = OpenFile.contents (hdr_at a s) a.
Proof. unfold file. intros (s & -> & ->)%fmap_Some. by exists s. Qed.

(** The two files are opened and put into the table. *)
Lemma open_console fs dir bm s0 s1 :
  fs_ok fs dir bm -> FileSystem.heap fs = ∅ -> FileSystem.nextptr fs = 1 -> FileSystem.openfile fs = replicate (Z.to_nat FileSystem.NumSlots) 0 ->
  Directory.assoc (Directory.key FileSystem.stdin_name) (Directory.table dir) = Some s0 ->
  Directory.assoc (Directory.key FileSystem.stdout_name) (Directory.table dir) = Some s1 ->
  exists fs' f0 f1,
    ('(p, fs) ← FileSystem.Open_type raw rawdir fs FileSystem.stdin_name 2;
     os ← wr (FileSystem.openfile fs) 0 p;
     let fs := FileSystem.set_openfile fs os in
     '(p, fs) ← FileSystem.Open_type raw rawdir fs FileSystem.stdout_name 3;
     os ← wr (FileSystem.openfile fs) 1 p;
     Ok (FileSystem.set_openfile fs os)) = Ok fs' /\
    fs_ok fs' dir bm /\ sectors (FileSystem.dev fs') = sectors (FileSystem.dev fs) /\
    FileSystem.openfile fs' = [1; 2; 1; 2] ++ replicate 11 0 /\
    FileSystem.heap fs' = {[1 := f0; 2 := f1]} /\ OpenFile.type f0 = 2 /\ OpenFile.type f1 = 3.
Proof.
  intros Hfs Hh Hn Ho A0 A1.
  assert (F2 : FileSystem.FindFreeSlot fs = Ok 2) by (unfold FileSystem.FindFreeSlot; change (Z.to_nat (FileSystem.NumSlots - 2)) with 13%nat;
    cbn [FileSystem.FindFreeSlot_from]; rewrite Ho; reflexivity).
  destruct (Open_type_ok fs dir bm FileSystem.stdin_name 2 2 s0 Hfs A0 F2) as (fs3 & -> & O3 & T3); [by rewrite Ho|].
  pose proof (opened_ok _ _ _ _ _ O3 Hfs) as Hfs3. destruct O3 as (_ & Es3 & _ & _ & Hh3 & Hn3). cbn [mbind outcome_bind].
  rewrite Hn, Ho in *. rewrite T3. rewrite wr_ok by (by vm_compute). cbn [mbind outcome_bind].
  set (os := <[Z.to_nat 0 := 1]> _).
  assert (Hfs4 : fs_ok (FileSystem.set_openfile fs3 os) dir bm) by exact Hfs3.
  destruct (Open_type_ok (FileSystem.set_openfile fs3 os) dir bm FileSystem.stdout_name 3 3 s1 Hfs4 A1 eq_refl) as (fs5 & -> & O5 & T5); [by vm_compute|].
  pose proof (opened_ok _ _ _ _ _ O5 Hfs4) as Hfs5. destruct O5 as (_ & Es5 & _ & _ & Hh5 & _). cbn [mbind outcome_bind].
  cbn [FileSystem.set_openfile FileSystem.dev FileSystem.heap FileSystem.nextptr FileSystem.openfile] in Es5, Hh5, T5 |- *.
  rewrite T5, Hn3. rewrite wr_ok by (by vm_compute). cbn [mbind outcome_bind]. rewrite Hn3, Hh3, Hh in Hh5.
  eexists _, _, _. split; [reflexivity|]. split; [exact Hfs5|]. cbn [FileSystem.set_openfile FileSystem.dev FileSystem.heap FileSystem.openfile].
  split; [congruence|]. split; [reflexivity|]. split; [rewrite Hh5; rewrite insert_insert_ne by done; reflexivity|]. by split.
Qed.

(** C31: the constructor makes an empty file system out of any disk: afterwards
    the disk is consistent, the two files of the console are there, empty, and
    no other, and of the 1024 sectors 1018 are free.  The objects of the console
    are in the table twice, at 0 and 2 and at 1 and 3. *)
Theorem format_makes_file_system (d : D) :
  bd_wf d -> FileHeader.wf rawhdr -> (forall i, Directory.entry_ok (rawdir i)) ->
  exists fs dir bm f0 f1, FileSystem.FileSystem_new raw rawdir rawhdr d true = Ok fs /\ fs_ok fs dir bm /\
    count_clear (BitMap.bits bm) = 1018%nat /\
    (forall k, file (sectors (FileSystem.dev fs)) dir k =
       if bool_decide (k = FileSystem.stdin_name \/ k = FileSystem.stdout_name) then Some [] else None) /\
    FileSystem.openfile fs = [1; 2; 1; 2] ++ replicate 11 0 /\
    FileSystem.heap fs = {[1 := f0; 2 := f1]} /\ OpenFile.type f0 = 2 /\ OpenFile.type f1 = 3.
Proof.
  intros Hd Hraw Hent. unfold FileSystem.FileSystem_new.
  destruct (format_disk_ok d Hd Hraw Hent) as (fmf & df & d0 & bm & -> & Hcc & Hnew). cbn [mbind outcome_bind].
  destruct (Hnew ∅ 1 (replicate (Z.to_nat FileSystem.NumSlots) 0)) as [Hfs Hnone].
  destruct (create_console _ bm Hfs Hraw Hnone Hcc) as (d1 & d2 & dir & bm2 & -> & E2 & Hfs2 & Hcc2 & Hfile). cbn [mbind outcome_bind].
  rewrite E2. cbn [mbind outcome_bind].
  destruct (file_assoc (sectors d2) dir (Directory.key FileSystem.stdin_name) []) as (s0 & A0 & _).
  { rewrite Hfile. reflexivity. }
  destruct (file_assoc (sectors d2) dir (Directory.key FileSystem.stdout_name) []) as (s1 & A1 & _).
  { rewrite Hfile. reflexivity. }
  destruct (open_console _ dir bm2 s0 s1 Hfs2 eq_refl eq_refl eq_refl A0 A1) as (fs' & f0 & f1 & E & Hfs' & Es & Ho & Hh & Ht).
  exists fs', dir, bm2, f0, f1. split; [exact E|]. split; [exact Hfs'|]. split; [exact Hcc2|].
  split; [|split; [exact Ho|]; split; [exact Hh|exact Ht]].
  intros k. rewrite Es. cbn [FileSystem.set_dev FileSystem.dev]. rewrite Hfile.
  change (Directory.key FileSystem.stdout_name) with FileSystem.stdout_name. change (Directory.key FileSystem.stdin_name) with FileSystem.stdin_name.
  repeat case_bool_decide; naive_solver.
Qed.

(** ** The file system as a map *)

Lemma same_sectors fs fs' : same fs fs' -> sectors (FileSystem.dev fs') = sectors (FileSystem.dev fs).
Proof. by intros (d' & -> & _ & Hs). Qed.

(** C16: the file system is a map from names to contents, kept on the disk.
    [Create] adds a file of the size asked for under a new name and takes its
    sectors out of the free ones; it answers FALSE, and no sector of the disk is
    changed, when the name is there or when the directory or the disk has no
    room.  [Remove] takes a file out of the map and gives exactly its sectors
    back, and answers FALSE when there is none.  [Open] gives an object at
    position 0 for the file of the name, or NULL.  The disk stays consistent, and
    files of other names keep their contents. *)
Theorem file_system_is_a_map fs dir bm nm size :
  fs_ok fs dir bm -> Forall is_u8 nm -> FileHeader.wf rawhdr -> 0 <= size <= FileHeader.MaxFileSize ->
  let a := sectors (FileSystem.dev fs) in
  (exists ok fs', FileSystem.Create raw rawdir rawhdr fs nm size = Ok (ok, fs') /\
     if ok : bool then
       file a dir (Directory.key nm) = None /\
       exists dir' bm' c, fs_ok fs' dir' bm' /\ Z.of_nat (length c) = size /\
         flipped true (sectors_of (sectors (FileSystem.dev fs')) dir' (Directory.key nm)) bm bm' /\
         forall k, file (sectors (FileSystem.dev fs')) dir' k = if bool_decide (k = Directory.key nm) then Some c else file a dir k
     else same fs fs' /\ (file a dir (Directory.key nm) <> None \/ no_room dir bm size)) /\
  (exists ok fs', FileSystem.Remove raw rawdir fs nm = Ok (ok, fs') /\
     if ok : bool then
       file a dir (Directory.key nm) <> None /\
       exists dir' bm', fs_ok fs' dir' bm' /\ flipped false (sectors_of a dir (Directory.key nm)) bm bm' /\
         forall k, file (sectors (FileSystem.dev fs')) dir' k = if bool_decide (k = Directory.key nm) then None else file a dir k
     else same fs fs' /\ file a dir (Directory.key nm) = None) /\
  match file a dir (Directory.key nm) with
  | None => exists fs', FileSystem.Open raw rawdir fs nm = Ok (0, fs') /\ same fs fs'
  | Some c => exists fs' f, FileSystem.Open raw rawdir fs nm = Ok (FileSystem.nextptr fs, fs') /\ fs_ok fs' dir bm /\
      FileSystem.heap fs' !! FileSystem.nextptr fs = Some f /\ OpenFile.seekPosition f = 0 /\
      OpenFile.contents (OpenFile.hdr f) (sectors (FileSystem.dev fs')) = c /\ OpenFile.Length f = Z.of_nat (length c)
  end.
Proof.
  intros Hfs Hnm Hraw Hsz a. split; [|split].
  - destruct (fs_Create_ok fs dir bm nm size Hfs Hnm Hraw Hsz) as (ok & fs' & E & Hok). exists ok, fs'. split; [exact E|].
    destruct ok; [|exact Hok]. destruct Hok as (Hn & d' & dir' & bm' & -> & Hfs' & Hfl & _ & _ & c & Hl & Hf).
    split; [exact Hn|]. by exists dir', bm', c.
  - destruct (fs_Remove_ok fs dir bm nm Hfs) as (ok & fs' & E & Hok). exists ok, fs'. split; [exact E|].
    destruct ok; [|exact Hok]. destruct Hok as (Hn & d' & dir' & bm' & -> & Hfs' & Hfl & Hf).
    split; [exact Hn|]. by exists dir', bm'.
  - pose proof (Open_ok fs dir bm nm Hfs) as HO. unfold file. destruct (Directory.assoc _ _) as [s|] eqn:Ea; [|exact HO].
    cbn [fmap option_fmap option_map]. destruct HO as (fs' & f & E & Ho & Hh & Hp & _). exists fs', f. split; [exact E|].
    pose proof (opened_ok _ _ _ _ _ Ho Hfs) as Hfs'. split; [exact Hfs'|]. destruct Ho as (_ & Es & _ & _ & Hheap & _).
    rewrite Hheap, lookup_insert_eq. split; [done|]. split; [exact Hp|]. rewrite Hh, Es. split; [done|].
    unfold OpenFile.Length, FileHeader.FileLength. rewrite Hh. symmetry.
    destruct Hfs as (Hd & Hc & _). exact (length_contents _ _ (OpenFile.device_ok _ Hd) (assoc_file_ok _ _ _ _ _ Hc Ea)).
Qed.

Lemma slice_splice_take (l bs : list Z) p k :
  length bs = k -> (k = 0 \/ p + k <= length l)%nat -> slice (splice l p bs) p k = bs.
Proof.
  intros <- [Hk|Hk]; [by destruct bs|]. by apply slice_splice_same.
Qed.

(** Writing through an open file changes that file: after [Open], a [WriteAt]
    of the object replaces the bytes of the file of that name from the position
    on, as far as the file goes, a [ReadAt] returns them, no other file changes
    and the disk stays consistent. *)
Theorem open_write_read fs dir bm nm c from n pos :
  fs_ok fs dir bm -> file (sectors (FileSystem.dev fs)) dir (Directory.key nm) = Some c ->
  0 <= pos -> pos + n < 2 ^ 31 -> OpenFile.transferred (Z.of_nat (length c)) n pos <= Z.of_nat (length from) -> Forall is_u8 from ->
  let m := OpenFile.transferred (Z.of_nat (length c)) n pos in
  let data := take (Z.to_nat m) from in
  exists fs' f d' d'', FileSystem.Open raw rawdir fs nm = Ok (FileSystem.nextptr fs, fs') /\
    FileSystem.heap fs' !! FileSystem.nextptr fs = Some f /\
    OpenFile.WriteAt raw (FileSystem.dev fs') (OpenFile.hdr f) from n pos = Ok (m, d') /\
    OpenFile.ReadAt raw d' (OpenFile.hdr f) n pos = Ok (m, data, d'') /\
    fs_ok (FileSystem.set_dev fs' d') dir bm /\
    forall k, file (sectors d') dir k =
      if bool_decide (k = Directory.key nm) then Some (splice c (Z.to_nat pos) data)
      else file (sectors (FileSystem.dev fs)) dir k.
Proof.
  intros Hfs Hf Hp Hn Hm Hu m data. destruct (file_assoc _ _ _ _ Hf) as (s & Ea & Hc).
  pose proof (Open_ok fs dir bm nm Hfs) as HO. rewrite Ea in HO. destruct HO as (fs' & f & E & Ho & Hh & _ & _).
  pose proof (opened_ok _ _ _ _ _ Ho Hfs) as Hfs'. destruct Ho as (_ & Es & _ & _ & Hheap & _).
  pose proof (write_ok fs' dir bm (Directory.key nm) s from n pos Hfs' Ea Hp Hn) as HW. cbv zeta in HW. rewrite Es, <- Hc in HW.
  destruct (HW Hm Hu) as (d' & Ew & Hfs2 & _ & Hfile). fold m in Ew, Hfile. fold data in Hfile. rewrite <- Hh in Ew.
  destruct Hfs as (Hd & Hcons & _). pose proof (assoc_file_ok _ _ _ _ _ Hcons Ea) as Hok. rewrite <- Hh in Hok.
  assert (El : Z.of_nat (length c) = FileHeader.numBytes (OpenFile.hdr f)).
  { rewrite Hc, Hh. rewrite Hh in Hok. exact (length_contents _ _ (OpenFile.device_ok _ Hd) Hok). }
  subst data m. rewrite El in *.
  destruct (OpenFile.WriteAt_ok raw (FileSystem.dev fs') (OpenFile.hdr f) from n pos (proj1 Hfs') Hok Hp Hn Hm Hu) as (d1 & Ew1 & Hd1 & Hcont & _).
  rewrite Ew in Ew1. injection Ew1 as <-.
  destruct (OpenFile.ReadAt_ok raw d' (OpenFile.hdr f) n pos Hd1 Hok Hp Hn) as (d'' & Er & _).
  exists fs', f, d', d''. split; [exact E|]. split; [by rewrite Hheap, lookup_insert_eq|]. split; [exact Ew|].
  split; [|split; [exact Hfs2|exact Hfile]]. rewrite Er, Hcont. do 3 f_equal. apply slice_splice_take.
  - rewrite length_take. unfold OpenFile.transferred in *. lia.
  - assert (length (OpenFile.contents (OpenFile.hdr f) (sectors (FileSystem.dev fs'))) = length c) as -> by (by rewrite Es, Hh, <- Hc).
    unfold OpenFile.transferred in *. lia.
Qed.

(** [Remove] undoes [Create]: after a file was created and removed every name
    has the contents it had, and the free map is the one of before, bit by
    bit. *)
Theorem create_then_remove fs dir bm nm size fs1 :
  fs_ok fs dir bm -> Forall is_u8 nm -> FileHeader.wf rawhdr -> 0 <= size <= FileHeader.MaxFileSize ->
  FileSystem.Create raw rawdir rawhdr fs nm size = Ok (true, fs1) ->
  exists fs2 dir2 bm2, FileSystem.Remove raw rawdir fs1 nm = Ok (true, fs2) /\ fs_ok fs2 dir2 bm2 /\
    BitMap.bits bm2 = BitMap.bits bm /\
    forall k, file (sectors (FileSystem.dev fs2)) dir2 k = file (sectors (FileSystem.dev fs)) dir k.
Proof.
  intros Hfs Hnm Hraw Hsz E. destruct (fs_Create_ok fs dir bm nm size Hfs Hnm Hraw Hsz) as (ok & fs' & E' & Hok).
  rewrite E in E'. injection E' as <- <-. destruct Hok as (Hn & d1 & dir1 & bm1 & -> & Hfs1 & [Hold1 Hnew1] & _ & _ & c & _ & Hf1).
  destruct (fs_Remove_ok _ dir1 bm1 nm Hfs1) as (ok2 & fs2 & E2 & Hok2). cbn [FileSystem.set_dev FileSystem.dev] in Hok2. destruct ok2.
  - destruct Hok2 as (_ & d2 & dir2 & bm2 & -> & Hfs2 & [_ Hnew2] & Hf2). exists (FileSystem.set_dev (FileSystem.set_dev fs d1) d2), dir2, bm2.
    split; [exact E2|]. split; [exact Hfs2|]. split.
    + apply list_eq. intros i. rewrite Hnew2, Hnew1. destruct (decide _) as [Hi|]; [|done]. by rewrite (Hold1 i Hi).
    + intros k. cbn [FileSystem.set_dev FileSystem.dev]. rewrite Hf2, Hf1. case_bool_decide as Hk; [|done]. subst k. by rewrite Hn.
  - destruct Hok2 as [_ Hn1]. rewrite Hf1, bool_decide_true in Hn1 by done. done.
Qed.

End operations.

(** ** A formatted disk *)

Definition demo_entry : Directory.DirectoryEntry := Directory.mkEntry false [0; 0; 0] 0 (replicate 10 0) [0; 0].
Definition demo_rawhdr : FileHeader.t := FileHeader.mk 0 0 (replicate 126 0).

Lemma demo_raw_ok : FileHeader.wf demo_rawhdr /\ Directory.entry_ok demo_entry.
Proof.
  split.
  - split; [done|]. split; [done|]. split; [done|]. apply (Forall_replicate is_s32). done.
  - do 4 (split; [done|]). cbn. Directory.u8_list.
Qed.

Lemma format_makes_file_system_witness : exists d fs,
  Disk_new None = Ok d /\ FileSystem.FileSystem_new (fun i => i) (fun _ => demo_entry) demo_rawhdr (SynchDisk.mk d 0 0 0) true = Ok fs /\
  FileSystem.openfile fs = [1; 2; 1; 2] ++ replicate 11 0.
Proof.
  destruct SynchDisk.Disk_new_wf as (d & E & Hwf). destruct demo_raw_ok as [Hraw Hent].
  destruct (format_makes_file_system (fun i => i) (fun _ => demo_entry) demo_rawhdr (SynchDisk.mk d 0 0 0))
    as (fs & dir & bm & f0 & f1 & E1 & _ & _ & _ & Ho & _); [exact Hwf|exact Hraw|exact (fun _ => Hent)|].
  exists d, fs. split; [exact E|]. split; [exact E1|exact Ho].
Defined.

(** A file system with one file of 100 bytes, "a", and its state before. *)
Lemma demo_fs : exists (fs fs1 : FileSystem.t SynchDisk.t) dir bm dir1 bm1 c,
  fs_ok fs dir bm /\ FileSystem.Create (fun i => i) (fun _ => demo_entry) demo_rawhdr fs [97] 100 = Ok (true, fs1) /\
  fs_ok fs1 dir1 bm1 /\ file (bd_sectors (FileSystem.dev fs1)) dir1 [97] = Some c /\ Z.of_nat (length c) = 100.
Proof.
  destruct SynchDisk.Disk_new_wf as (d & _ & Hwf). destruct demo_raw_ok as [Hraw Hent].
  destruct (format_disk_ok (fun i => i) (fun _ => demo_entry) demo_rawhdr (SynchDisk.mk d 0 0 0))
    as (fmf & df & d' & bm & _ & Hcc & Hnew); [exact Hwf|exact Hraw|exact (fun _ => Hent)|]. destruct (Hnew ∅ 1 (replicate 15 0)) as [Hfs Hnone].
  destruct (fs_Create_ok (fun i => i) (fun _ => demo_entry) demo_rawhdr _ _ bm [97] 100 Hfs) as (ok & fs1 & E & Hok);
    [Directory.u8_list|exact Hraw|vm_compute; split; discriminate|]. destruct ok.
  - destruct Hok as (_ & d1 & dir1 & bm1 & -> & Hfs1 & _ & _ & _ & c & Hl & Hf).
    eexists _, _, _, bm, dir1, bm1, c. split; [exact Hfs|]. split; [exact E|]. split; [exact Hfs1|]. split; [|exact Hl].
    exact (Hf [97]).
  - exfalso. destruct Hok as [_ [Hf|[Hfull|Hno]]]; [apply Hf, Hnone| |].
    + apply Forall_inv in Hfull. discriminate.
    + rewrite Hcc in Hno. vm_compute in Hno. discriminate.
Qed.

Lemma file_system_is_a_map_witness : exists (fs : FileSystem.t SynchDisk.t) ok fs',
  FileSystem.Create (fun i => i) (fun _ => demo_entry) demo_rawhdr fs [98] 700 = Ok (ok, fs').
Proof.
  destruct demo_fs as (_ & fs & _ & _ & dir & bm & c & _ & _ & Hfs & _). destruct demo_raw_ok as [Hraw _].
  destruct (file_system_is_a_map (fun i => i) (fun _ => demo_entry) demo_rawhdr fs dir bm [98] 700 Hfs) as ((ok & fs' & E & _) & _);
    [Directory.u8_list|exact Hraw|vm_compute; split; discriminate|]. exists fs, ok, fs'. exact E.
Defined.

Lemma open_write_read_witness : exists (fs fs' : FileSystem.t SynchDisk.t) f d' d'',
  FileSystem.Open (fun i => i) (fun _ => demo_entry) fs [97] = Ok (FileSystem.nextptr fs, fs') /\
  OpenFile.WriteAt (fun i => i) (FileSystem.dev fs') (OpenFile.hdr f) [1; 2; 3; 4] 4 98 = Ok (2, d') /\
  OpenFile.ReadAt (fun i => i) d' (OpenFile.hdr f) 4 98 = Ok (2, [1; 2], d'').
Proof.
  destruct demo_fs as (_ & fs & _ & _ & dir & bm & c & _ & _ & Hfs & Hf & Hl).
  destruct (open_write_read (fun i => i) (fun _ => demo_entry) fs dir bm [97] c [1; 2; 3; 4] 4 98 Hfs Hf)
    as (fs' & f & d' & d'' & E1 & _ & E2 & E3 & _); [lia|lia|rewrite Hl; done|Directory.u8_list|].
  rewrite Hl in E2, E3. exists fs, fs', f, d', d''. split; [exact E1|]. split; [exact E2|exact E3].
Defined.

Lemma create_then_remove_witness : exists (fs1 fs2 : FileSystem.t SynchDisk.t),
  FileSystem.Remove (fun i => i) (fun _ => demo_entry) fs1 [97] = Ok (true, fs2).
Proof.
  destruct demo_fs as (fs & fs1 & dir & bm & _ & _ & _ & Hfs & E & _). destruct demo_raw_ok as [Hraw _].
  destruct (create_then_remove (fun i => i) (fun _ => demo_entry) demo_rawhdr fs dir bm [97] 100 fs1 Hfs)
    as (fs2 & dir2 & bm2 & E2 & _); [Directory.u8_list|exact Hraw|vm_compute; split; discriminate|exact E|].
  exists fs1, fs2. exact E2.
Defined.

End FsSpec.
