(* ===== verification/FsTest.v ===== *)
(** * filesys/fstest.cc: copying and printing files

    The commands -cp, -p and -t of the kernel: [Copy] of a UNIX file into the file
    system, [Print] of a file, and the performance test.  An [OpenFile] object is
    used through its address in the heap of the file system.  A UNIX file is read
    through stdio: its bytes and a position. *)

From S2P Require Import Prelude Bitmap DiskSim FileHdr OpenFile Directory FileSys FsLayout FsSpec.
Import Disk FsLayout FsSpec.

Local Open Scope Z_scope.

Module FsTest.

(** ** stdio *)

Record FILE := mkFILE { f_bytes : list Z; f_pos : Z }.

Definition fread (fp : FILE) (n : Z) : list Z * FILE :=
  let bs := slice (f_bytes fp) (Z.to_nat (f_pos fp)) (Z.to_nat n) in
  (bs, mkFILE (f_bytes fp) (f_pos fp + Z.of_nat (length bs))).
Definition fseek_end (fp : FILE) : FILE := mkFILE (f_bytes fp) (Z.of_nat (length (f_bytes fp))).
Definition fseek_start (fp : FILE) : FILE := mkFILE (f_bytes fp) 0.
Definition ftell (fp : FILE) : Z := f_pos fp.

Section operations.
Context {D : Type} `{BlockDevice D}.
Context (raw : Z -> Z) (rawdir : Z -> Directory.DirectoryEntry) (rawhdr : FileHeader.t).
Implicit Types fs : FileSystem.t D.

(** ** Objects *)

Definition object fs (p : Z) : outcome OpenFile.t := match FileSystem.heap fs !! p with Some f => Ok f | None => Fault BadAccess end.
Definition set_object fs (d : D) (p : Z) (f : OpenFile.t) : FileSystem.t D :=
  FileSystem.mk d (FileSystem.freeMapFile fs) (FileSystem.directoryFile fs) (<[p := f]> (FileSystem.heap fs)) (FileSystem.nextptr fs) (FileSystem.openfile fs).
Definition delete_object fs (p : Z) : outcome (FileSystem.t D) :=
  _ ← object fs p;
  Ok (FileSystem.mk (FileSystem.dev fs) (FileSystem.freeMapFile fs) (FileSystem.directoryFile fs)
        (delete p (FileSystem.heap fs)) (FileSystem.nextptr fs) (FileSystem.openfile fs)).

Definition obj_Read fs (p n : Z) : outcome (Z * list Z * FileSystem.t D) :=
  f ← object fs p;
  '(r, bs, f, d) ← OpenFile.Read raw (FileSystem.dev fs) f n;
  Ok (r, bs, set_object fs d p f).
Definition obj_Write fs (p : Z) (from : list Z) (n : Z) : outcome (Z * FileSystem.t D) :=
  f ← object fs p;
  '(r, f, d) ← OpenFile.Write raw (FileSystem.dev fs) f from n;
  Ok (r, set_object fs d p f).

(** ** Copy *)

Definition TransferSize : Z := 10.

Inductive report := NoInput | NotCreated | Copied.

(** [while ((amountRead = fread(...)) > 0) openFile->Write(buffer, amountRead);] *)
Fixpoint copy_loop (fuel : nat) fs (p : Z) (buffer : list Z) (fp : FILE) : outcome (FileSystem.t D) :=
  match fuel with
  | O => Fault OutOfFuel
  | S fuel' =>
      let '(bs, fp) := fread fp TransferSize in
      let amountRead := Z.of_nat (length bs) in
      let buffer := splice buffer 0 bs in
      if amountRead >? 0 then
        '(_, fs) ← obj_Write fs p buffer amountRead;
        copy_loop fuel' fs p buffer fp
      else Ok fs
  end.

(** [from]: the bytes of the UNIX file, [None] when it does not open. *)
Definition Copy fs (from : option (list Z)) (to : list Z) : outcome (FileSystem.t D * report) :=
  match from with
  | None => Ok (fs, NoInput)
  | Some bytes =>
      let fp := mkFILE bytes 0 in
      let fp := fseek_end fp in
      let fileLength := ftell fp in
      let fp := fseek_start fp in
      '(created, fs) ← FileSystem.Create raw rawdir rawhdr fs to fileLength;
      if negb created then Ok (fs, NotCreated)
      else
        '(p, fs) ← FileSystem.Open raw rawdir fs to;
        _ ← ASSERT (negb (p =? 0));
        fs ← copy_loop (S (length bytes)) fs p (OpenFile.new_buffer raw TransferSize) fp;
        fs ← delete_object fs p;
        Ok (fs, Copied)
  end.

(** ** Print *)

(** The characters the loop prints. *)
Fixpoint print_loop (fuel : nat) fs (p : Z) (out : list Z) : outcome (list Z * FileSystem.t D) :=
  match fuel with
  | O => Fault OutOfFuel
  | S fuel' =>
      '(amountRead, bs, fs) ← obj_Read fs p TransferSize;
      if amountRead >? 0 then print_loop fuel' fs p (out ++ take (Z.to_nat amountRead) bs) else Ok (out, fs)
  end.

(** [None]: the file does not open.  A round reads at least one byte, or is the
    last. *)
Definition Print fs (name : list Z) : outcome (FileSystem.t D * option (list Z)) :=
  '(p, fs) ← FileSystem.Open raw rawdir fs name;
  if p =? 0 then Ok (fs, None)
  else
    f ← object fs p;
    '(out, fs) ← print_loop (S (Z.to_nat (OpenFile.Length f))) fs p [];
    fs ← delete_object fs p;
    Ok (fs, Some out).

(** ** The performance test *)

Definition FileName : list Z := [84; 101; 115; 116; 70; 105; 108; 101].
Definition Contents : list Z := [49; 50; 51; 52; 53; 54; 55; 56; 57; 48].
Definition ContentSize : Z := Z.of_nat (length Contents).
Definition Rounds : nat := 5000.              (* of FileSize = ContentSize * 5000 bytes *)

(** What is printed when the test fails. *)
Inductive failure := CantCreate | UnableToOpen | UnableToWrite | UnableToRead | UnableToRemove.

Fixpoint write_rounds (n : nat) fs (p : Z) : outcome (FileSystem.t D * bool) :=
  match n with
  | O => Ok (fs, true)
  | S n' =>
      '(numBytes, fs) ← obj_Write fs p Contents ContentSize;
      if numBytes <? 10 then Ok (fs, false) else write_rounds n' fs p
  end.

Definition FileWrite fs : outcome (FileSystem.t D * list failure) :=
  '(created, fs) ← FileSystem.Create raw rawdir rawhdr fs FileName 0;
  if negb created then Ok (fs, [CantCreate])
  else
    '(p, fs) ← FileSystem.Open raw rawdir fs FileName;
    if p =? 0 then Ok (fs, [UnableToOpen])
    else
      '(fs, done) ← write_rounds Rounds fs p;
      fs ← delete_object fs p;
      Ok (fs, if done : bool then [] else [UnableToWrite]).

Fixpoint read_rounds (n : nat) fs (p : Z) : outcome (FileSystem.t D * bool) :=
  match n with
  | O => Ok (fs, true)
  | S n' =>
      '(numBytes, bs, fs) ← obj_Read fs p ContentSize;
      if (numBytes <? 10) || negb (bool_decide (take (Z.to_nat ContentSize) bs = Contents)) then Ok (fs, false) else read_rounds n' fs p
  end.

Definition FileRead fs : outcome (FileSystem.t D * list failure) :=
  '(p, fs) ← FileSystem.Open raw rawdir fs FileName;
  if p =? 0 then Ok (fs, [UnableToOpen])
  else
    '(fs, done) ← read_rounds Rounds fs p;
    fs ← delete_object fs p;
    Ok (fs, if done : bool then [] else [UnableToRead]).

Definition PerformanceTest fs : outcome (FileSystem.t D * list failure) :=
  '(fs, l) ← FileWrite fs;
  '(fs, l') ← FileRead fs;
  '(ok, fs) ← FileSystem.Remove raw rawdir fs FileName;
  Ok (fs, l ++ l' ++ (if ok : bool then [] else [UnableToRemove])).

End operations.

Section laws.
Context {D : Type} `{BlockDeviceLaws D}.
Context (raw : Z -> Z) (rawdir : Z -> Directory.DirectoryEntry) (rawhdr : FileHeader.t).
Notation sectors := bd_sectors.
Notation files fs := (file (sectors (FileSystem.dev fs))).
Implicit Types fs : FileSystem.t D.

(** ** An object that is open on a file *)

(** The object at [p] is open on the file [k], which holds [c], at [pos]. *)
Record open_at fs dir bm (k : list Z) (p pos : Z) (c : list Z) : Prop := {
  o_fs : fs_ok fs dir bm;
  o_file : exists s f, Directory.assoc k (Directory.table dir) = Some s /\ FileSystem.heap fs !! p = Some f /\
    OpenFile.hdr f = hdr_at (sectors (FileSystem.dev fs)) s /\ OpenFile.seekPosition f = pos;
  o_contents : files fs dir k = Some c;
  o_pos : 0 <= pos;
  o_next : 0 < FileSystem.nextptr fs;
}.

Lemma assoc_contents fs dir k s c : Directory.assoc k (Directory.table dir) = Some s -> files fs dir k = Some c ->
  c = OpenFile.contents (hdr_at (sectors (FileSystem.dev fs)) s) (sectors (FileSystem.dev fs)).
Proof. intros Ha Hf. destruct (file_assoc _ _ _ _ Hf) as (s' & Ha' & ->). rewrite Ha in Ha'. by injection Ha' as <-. Qed.

Lemma file_small fs dir bm k c : fs_ok fs dir bm -> files fs dir k = Some c -> Z.of_nat (length c) < 2 ^ 31.
Proof.
  intros (Hd & Hc & _) Hf. destruct (file_assoc _ _ _ _ Hf) as (s & Ha & ->). pose proof (assoc_file_ok _ _ _ _ _ Hc Ha) as Hok.
  rewrite (length_contents _ _ (OpenFile.device_ok _ Hd) Hok). by apply file_fits.
Qed.

Lemma file_max fs dir bm k c : fs_ok fs dir bm -> files fs dir k = Some c -> Z.of_nat (length c) <= FileHeader.MaxFileSize.
Proof.
  intros (Hd & Hc & _) Hf. destruct (file_assoc _ _ _ _ Hf) as (s & Ha & ->). pose proof (assoc_file_ok _ _ _ _ _ Hc Ha) as Hok.
  rewrite (length_contents _ _ (OpenFile.device_ok _ Hd) Hok). destruct Hok as (_ & Hb & Hn & _).
  unfold FileHeader.MaxFileSize. unfold SectorSize in *. nia.
Qed.

(** Writing at the position of the object. *)
Lemma obj_Write_ok fs dir bm k p pos c from n :
  open_at fs dir bm k p pos c -> 0 <= n <= Z.of_nat (length from) -> pos + n < 2 ^ 31 -> Forall is_u8 from ->
  let m := OpenFile.transferred (Z.of_nat (length c)) n pos in
  exists fs', obj_Write raw fs p from n = Ok (m, fs') /\
    open_at fs' dir bm k p (pos + m) (splice c (Z.to_nat pos) (take (Z.to_nat m) from)) /\
    forall k', k' <> k -> files fs' dir k' = files fs dir k'.
Proof.
  intros [Hfs (s & f & Ha & Hp & Eh & Epos) Hc Hpos Hnext] Hn Hb Hu m. unfold obj_Write, object. rewrite Hp. cbn [mbind outcome_bind].
  pose proof (assoc_contents fs dir k s c Ha Hc) as Ec. pose proof (write_ok raw fs dir bm k s from n pos Hfs Ha Hpos Hb) as HW.
  cbv zeta in HW. rewrite <- Ec in HW. fold m in HW. destruct HW as (d' & Ew & Hfs' & Eh' & Hf); [unfold m, OpenFile.transferred; lia|done|].
  unfold OpenFile.Write. rewrite Eh, Epos, Ew. cbn [mbind outcome_bind]. eexists. split; [reflexivity|]. split.
  - constructor; [exact Hfs'| | |unfold m, OpenFile.transferred; lia|done].
    + exists s. eexists. split; [done|]. cbn. split; [apply lookup_insert_eq|]. cbn. rewrite Eh'. split; reflexivity.
    + cbn. rewrite Hf. by rewrite bool_decide_true by done.
  - intros k' Hk. cbn. rewrite Hf. by rewrite bool_decide_false by done.
Qed.

(** Reading likewise. *)
Lemma obj_Read_ok fs dir bm k p pos c n :
  open_at fs dir bm k p pos c -> 0 <= n -> pos + n < 2 ^ 31 ->
  let m := OpenFile.transferred (Z.of_nat (length c)) n pos in
  exists fs', obj_Read raw fs p n = Ok (m, slice c (Z.to_nat pos) (Z.to_nat m), fs') /\
    open_at fs' dir bm k p (pos + m) c /\ sectors (FileSystem.dev fs') = sectors (FileSystem.dev fs).
Proof.
  intros [Hfs (s & f & Ha & Hp & Eh & Epos) Hc Hpos Hnext] Hn Hb m. unfold obj_Read, object. rewrite Hp. cbn [mbind outcome_bind].
  pose proof (assoc_contents fs dir k s c Ha Hc) as Ec. pose proof Hfs as (Hd & Hcons & Em & Ed).
  pose proof (assoc_file_ok _ _ _ _ _ Hcons Ha) as Hok.
  destruct (OpenFile.ReadAt_ok raw (FileSystem.dev fs) (hdr_at (sectors (FileSystem.dev fs)) s) n pos Hd Hok Hpos Hb) as (d' & Er & Hd' & Es).
  rewrite <- Ec, <- (length_contents _ _ (OpenFile.device_ok _ Hd) Hok), <- Ec in Er. fold m in Er.
  unfold OpenFile.Read. rewrite Eh, Epos, Er. cbn [mbind outcome_bind]. eexists. split; [reflexivity|]. split; [|exact Es]. constructor.
  - split; [exact Hd'|]. cbn. rewrite Es. by split.
  - exists s. eexists. split; [done|]. cbn. split; [apply lookup_insert_eq|]. cbn. by rewrite Es.
  - cbn. by rewrite Es.
  - unfold m, OpenFile.transferred. lia.
  - done.
Qed.

Lemma delete_object_ok fs dir bm k p pos c : open_at fs dir bm k p pos c ->
  exists fs', delete_object fs p = Ok fs' /\ FileSystem.dev fs' = FileSystem.dev fs /\ fs_ok fs' dir bm /\
    0 < FileSystem.nextptr fs'.
Proof.
  intros [Hfs (s & f & _ & Hp & _) _ _ Hn]. unfold delete_object, object. rewrite Hp. eexists. split; [reflexivity|]. done.
Qed.

(** [Open] of a file that is there. *)
Lemma Open_at fs dir bm nm c : fs_ok fs dir bm -> 0 < FileSystem.nextptr fs -> files fs dir (Directory.key nm) = Some c ->
  exists fs', FileSystem.Open raw rawdir fs nm = Ok (FileSystem.nextptr fs, fs') /\
    open_at fs' dir bm (Directory.key nm) (FileSystem.nextptr fs) 0 c /\
    sectors (FileSystem.dev fs') = sectors (FileSystem.dev fs) /\
    exists f, FileSystem.heap fs' !! FileSystem.nextptr fs = Some f /\ OpenFile.Length f = Z.of_nat (length c).
Proof.
  intros Hfs Hpos Hf. destruct (file_assoc _ _ _ _ Hf) as (s & Ha & Ec). pose proof (Open_ok raw rawdir fs dir bm nm Hfs) as HO. rewrite Ha in HO.
  destruct HO as (fs' & f & E & Hop & Eh & Epos & _). pose proof (opened_ok _ _ _ _ _ Hop Hfs) as Hfs'. pose proof Hop as (_ & Es & _ & _ & Hheap & Hnext).
  assert (Hlook : FileSystem.heap fs' !! FileSystem.nextptr fs = Some f) by (by rewrite Hheap, lookup_insert_eq).
  exists fs'. split; [exact E|]. split; [|split; [exact Es|]].
  - constructor; [exact Hfs'| |by rewrite Es|done|lia]. exists s, f. split; [exact Ha|]. split; [exact Hlook|]. by rewrite Es.
  - exists f. split; [exact Hlook|]. unfold OpenFile.Length, FileHeader.FileLength. rewrite Eh. symmetry. pose proof Hfs as (Hd & Hcons & _).
    rewrite Ec. apply length_contents; [by apply OpenFile.device_ok|]. exact (assoc_file_ok _ _ _ _ _ Hcons Ha).
Qed.

(** ** The loops *)

Lemma slice_nonempty (l : list Z) (pos n : nat) : length (slice l pos n) = Nat.min n (length l - pos).
Proof. unfold slice. by rewrite length_take, length_drop. Qed.

(** One more chunk. *)
Lemma splice_chunk (c bytes bs : list Z) pos :
  length c = length bytes -> take pos c = take pos bytes -> bs = slice bytes pos (length bs) -> (pos + length bs <= length bytes)%nat ->
  take (pos + length bs) (splice c pos bs) = take (pos + length bs) bytes.
Proof.
  intros El Ec Eb Hle. unfold splice. rewrite app_assoc, take_app_length' by (rewrite length_app, length_take; lia).
  rewrite Ec. rewrite Eb at 1. unfold slice. by rewrite take_take_drop.
Qed.

Lemma copy_loop_ok fuel : forall fs dir bm k p pos c buffer bytes,
  open_at fs dir bm k p pos c -> length c = length bytes -> pos <= Z.of_nat (length bytes) ->
  take (Z.to_nat pos) c = take (Z.to_nat pos) bytes -> Forall is_u8 bytes -> Forall is_u8 buffer -> Z.of_nat (length buffer) = TransferSize ->
  (length bytes - Z.to_nat pos < fuel)%nat ->
  exists fs' pos', copy_loop raw fuel fs p buffer (mkFILE bytes pos) = Ok fs' /\ open_at fs' dir bm k p pos' bytes /\
    forall k', k' <> k -> files fs' dir k' = files fs dir k'.
Proof.
  induction fuel as [|fuel IH]; intros fs dir bm k p pos c buffer bytes Ho El Hpos Ec Hu Hub Hlb Hfuel; [lia|].
  cbn [copy_loop fread]. cbn [f_bytes f_pos]. set (bs := slice bytes (Z.to_nat pos) (Z.to_nat TransferSize)).
  pose proof (slice_nonempty bytes (Z.to_nat pos) (Z.to_nat TransferSize)) as Hlen. fold bs in Hlen. unfold TransferSize in *.
  pose proof (o_pos _ _ _ _ _ _ _ Ho) as Hp0. pose proof (file_max _ _ _ _ _ (o_fs _ _ _ _ _ _ _ Ho) (o_contents _ _ _ _ _ _ _ Ho)) as Hmax.
  change FileHeader.MaxFileSize with 64512 in Hmax.
  rewrite Z.gtb_ltb. destruct (Z.ltb_spec 0 (Z.of_nat (length bs))) as [Hb|Hb].
  - assert (Hsp : Forall is_u8 (splice buffer 0 bs)) by (apply Forall_splice; [done|]; by apply Forall_take, Forall_drop).
    assert (Hlsp : length (splice buffer 0 bs) = length buffer) by (apply length_splice; lia).
    destruct (obj_Write_ok fs dir bm k p pos c (splice buffer 0 bs) (Z.of_nat (length bs)) Ho) as (fs1 & -> & Ho1 & Hoth1); [lia|lia|done|].
    cbn [mbind outcome_bind]. set (m := OpenFile.transferred _ _ _) in *.
    assert (Em : m = Z.of_nat (length bs)) by (unfold m, OpenFile.transferred; lia). rewrite Em in Ho1.
    replace (take (Z.to_nat (Z.of_nat (length bs))) (splice buffer 0 bs)) with bs in Ho1.
    2:{ rewrite Nat2Z.id. unfold splice. rewrite take_0. cbn [app]. by rewrite take_app_length. }
    destruct (IH fs1 dir bm k p (pos + Z.of_nat (length bs)) (splice c (Z.to_nat pos) bs) (splice buffer 0 bs) bytes Ho1) as (fs' & pos' & E & Ho' & Hoth);
      [rewrite length_splice; lia|lia| |done|done|lia|lia|].
    + replace (Z.to_nat (pos + Z.of_nat (length bs))) with (Z.to_nat pos + length bs)%nat by lia. apply splice_chunk; [done|done| |lia].
      unfold bs at 1. rewrite Hlen. unfold slice. destruct (Nat.le_gt_cases (Z.to_nat 10) (length bytes - Z.to_nat pos)).
      * by rewrite Nat.min_l by lia.
      * rewrite Nat.min_r by lia. rewrite !take_ge; [done|rewrite length_drop; lia..].
    + exists fs', pos'. split; [exact E|]. split; [done|]. intros k' Hk. by rewrite Hoth, Hoth1.
  - exists fs, pos. split; [done|]. split; [|done]. assert (c = bytes) as <-; [|done].
    rewrite <- (take_ge c (Z.to_nat pos)), Ec, take_ge by lia. done.
Qed.

Lemma print_loop_ok fuel : forall fs dir bm k p pos c,
  open_at fs dir bm k p pos c -> pos <= Z.of_nat (length c) -> (length c - Z.to_nat pos < fuel)%nat ->
  exists fs' pos', print_loop raw fuel fs p (take (Z.to_nat pos) c) = Ok (c, fs') /\ open_at fs' dir bm k p pos' c /\
    sectors (FileSystem.dev fs') = sectors (FileSystem.dev fs).
Proof.
  induction fuel as [|fuel IH]; intros fs dir bm k p pos c Ho Hpos Hfuel; [lia|]. cbn [print_loop]. unfold TransferSize in *.
  pose proof (o_pos _ _ _ _ _ _ _ Ho) as Hp0. pose proof (file_max _ _ _ _ _ (o_fs _ _ _ _ _ _ _ Ho) (o_contents _ _ _ _ _ _ _ Ho)) as Hmax.
  change FileHeader.MaxFileSize with 64512 in Hmax.
  destruct (obj_Read_ok fs dir bm k p pos c 10 Ho) as (fs1 & -> & Ho1 & Es1); [lia|lia|]. cbn [mbind outcome_bind].
  set (m := OpenFile.transferred _ _ _) in *. assert (Em : m = Z.min 10 (Z.of_nat (length c) - pos)) by (unfold m, OpenFile.transferred; lia).
  rewrite Z.gtb_ltb. destruct (Z.ltb_spec 0 m) as [Hm|Hm].
  - destruct (IH fs1 dir bm k p (pos + m) c Ho1) as (fs' & pos' & E & Ho' & Es'); [lia|lia|]. exists fs', pos'.
    split; [|split; [done|congruence]]. rewrite <- E. f_equal. unfold slice. rewrite take_take, Nat.min_id, take_take_drop. f_equal. lia.
  - exists fs1, (pos + m). split; [|done]. by rewrite take_ge by lia.
Qed.

(** ** Properties *)

(** C27: the commands -cp and -p go together: a UNIX file of at most the maximal
    size, copied under a name that is not there, is in the file system under that
    name, byte for byte, while all other files keep their contents and the disk
    stays consistent; and printing the name displays its bytes and changes no
    sector.  When the name is there, or the disk or the directory has no room,
    nothing changes. *)
Theorem copy_then_print fs dir bm nm bytes :
  fs_ok fs dir bm -> Forall is_u8 nm -> FileHeader.wf rawhdr -> Forall is_u8 bytes ->
  Z.of_nat (length bytes) <= FileHeader.MaxFileSize -> 0 < FileSystem.nextptr fs ->
  exists fs1 r, Copy raw rawdir rawhdr fs (Some bytes) nm = Ok (fs1, r) /\
    match r with
    | Copied => files fs dir (Directory.key nm) = None /\ exists dir1 bm1, fs_ok fs1 dir1 bm1 /\
        (forall k, files fs1 dir1 k = if bool_decide (k = Directory.key nm) then Some bytes else files fs dir k) /\
        exists fs2, Print raw rawdir fs1 nm = Ok (fs2, Some bytes) /\ fs_ok fs2 dir1 bm1 /\
          sectors (FileSystem.dev fs2) = sectors (FileSystem.dev fs1)
    | NotCreated => same fs fs1 /\ (files fs dir (Directory.key nm) <> None \/ no_room dir bm (Z.of_nat (length bytes)))
    | NoInput => False
    end.
Proof.
  intros Hfs Hnm Hraw Hu Hmax Hptr. unfold Copy, fseek_end, fseek_start, ftell. cbn [f_bytes f_pos].
  destruct (fs_Create_ok raw rawdir rawhdr fs dir bm nm (Z.of_nat (length bytes)) Hfs Hnm Hraw) as (ok & fs0 & -> & Hok); [lia|].
  cbn [mbind outcome_bind]. destruct ok; cbn [negb]; [|exists fs0, NotCreated; done].
  destruct Hok as (Hnone & d0 & dir1 & bm1 & -> & Hfs0 & _ & _ & _ & c & Hlc & Hf0).
  destruct (Open_at (FileSystem.set_dev fs d0) dir1 bm1 nm c Hfs0 Hptr) as (fs2 & -> & Ho & Es2 & _).
  { cbn. rewrite Hf0. by rewrite bool_decide_true by done. }
  cbn [mbind outcome_bind]. rewrite (proj2 (Z.eqb_neq _ 0)) by (cbn; lia). cbn [negb ASSERT mbind outcome_bind].
  destruct (copy_loop_ok (S (length bytes)) fs2 dir1 bm1 (Directory.key nm) (FileSystem.nextptr (FileSystem.set_dev fs d0)) 0 c
    (OpenFile.new_buffer raw TransferSize) bytes Ho) as (fs3 & pos3 & -> & Ho3 & Hoth3);
    [lia|lia|done|done|apply OpenFile.new_buffer_u8|by rewrite OpenFile.length_new_buffer|lia|].
  cbn [mbind outcome_bind]. destruct (delete_object_ok _ _ _ _ _ _ _ Ho3) as (fs4 & -> & Ed4 & Hfs4 & Hn4). cbn [mbind outcome_bind].
  exists fs4, Copied. split; [done|]. split; [done|]. exists dir1, bm1. split; [done|].
  assert (Hfiles : forall k, files fs4 dir1 k = if bool_decide (k = Directory.key nm) then Some bytes else files fs dir k).
  { intros k. rewrite Ed4. case_bool_decide as Hk; [subst k; apply (o_contents _ _ _ _ _ _ _ Ho3)|].
    rewrite Hoth3, Es2 by done. cbn. rewrite Hf0. by rewrite bool_decide_false by done. }
  split; [done|]. unfold Print.
  destruct (Open_at fs4 dir1 bm1 nm bytes Hfs4 Hn4) as (fs5 & -> & Ho5 & Es5 & f & Hf & Hlen); [by rewrite Hfiles, bool_decide_true by done|].
  cbn [mbind outcome_bind]. rewrite (proj2 (Z.eqb_neq _ 0)) by lia. unfold object. rewrite Hf. cbn [mbind outcome_bind]. rewrite Hlen.
  destruct (print_loop_ok (S (Z.to_nat (Z.of_nat (length bytes)))) fs5 dir1 bm1 _ _ 0 bytes Ho5) as (fs6 & pos6 & E6 & Ho6 & Es6); [lia|lia|].
  change (take (Z.to_nat 0) bytes) with (@nil Z) in E6. rewrite E6. cbn [mbind outcome_bind]. destruct (delete_object_ok _ _ _ _ _ _ _ Ho6) as (fs7 & -> & Ed7 & Hfs7 & _). cbn [mbind outcome_bind].
  exists fs7. split; [done|]. split; [done|]. congruence.
Qed.

(** The performance test cannot succeed: files do not grow, and it creates its
    file with 0 bytes.  On every consistent disk with room it reports that it is
    unable to write and to read, and leaves the files as they were. *)
Theorem performance_test_fails fs dir bm :
  fs_ok fs dir bm -> FileHeader.wf rawhdr -> 0 < FileSystem.nextptr fs ->
  files fs dir (Directory.key FileName) = None -> ~ no_room dir bm 0 ->
  exists fs' dir' bm', PerformanceTest raw rawdir rawhdr fs = Ok (fs', [UnableToWrite; UnableToRead]) /\ fs_ok fs' dir' bm' /\
    forall k, files fs' dir' k = files fs dir k.
Proof.
  intros Hfs Hraw Hptr Hnone Hroom. unfold PerformanceTest, FileWrite.
  destruct (fs_Create_ok raw rawdir rawhdr fs dir bm FileName 0 Hfs) as (ok & fs0 & -> & Hok); [Directory.u8_list|done|done|].
  destruct ok; [|by destruct Hok as [_ [?|?]]]. destruct Hok as (_ & d0 & dir1 & bm1 & -> & Hfs0 & _ & _ & _ & c & Hlc & Hf0).
  assert (c = []) as -> by (destruct c; [done|cbn in Hlc; lia]). cbn [mbind outcome_bind negb].
  assert (Hthere : files (FileSystem.set_dev fs d0) dir1 (Directory.key FileName) = Some []) by (cbn; rewrite Hf0; by rewrite bool_decide_true by done).
  destruct (Open_at (FileSystem.set_dev fs d0) dir1 bm1 FileName [] Hfs0 Hptr Hthere) as (fs2 & -> & Ho & Es2 & _).
  cbn [mbind outcome_bind]. rewrite (proj2 (Z.eqb_neq _ 0)) by (cbn; lia). destruct Rounds as [|rounds] eqn:ER; [discriminate ER|]. clear ER. cbn [write_rounds].
  destruct (obj_Write_ok fs2 dir1 bm1 _ _ 0 [] Contents ContentSize Ho) as (fs3 & -> & Ho3 & Hoth3); [by vm_compute|by vm_compute|Directory.u8_list|].
  cbn [mbind outcome_bind]. change (OpenFile.transferred (Z.of_nat (length (@nil Z))) ContentSize 0) with 0 in *. cbn [Z.ltb Z.compare].
  destruct (delete_object_ok _ _ _ _ _ _ _ Ho3) as (fs4 & E4 & Ed4 & Hfs4 & Hn4). cbn [mbind outcome_bind]. rewrite E4. cbn [mbind outcome_bind].
  assert (Hf4 : forall k, files fs4 dir1 k = if bool_decide (k = Directory.key FileName) then Some [] else files fs dir k).
  { intros k. rewrite Ed4. case_bool_decide as Hk; [subst k; apply (o_contents _ _ _ _ _ _ _ Ho3)|].
    rewrite Hoth3, Es2 by done. cbn. rewrite Hf0. by rewrite bool_decide_false by done. }
  unfold FileRead. destruct (Open_at fs4 dir1 bm1 FileName [] Hfs4 Hn4) as (fs5 & -> & Ho5 & Es5 & _); [by rewrite Hf4, bool_decide_true by done|].
  cbn [mbind outcome_bind]. rewrite (proj2 (Z.eqb_neq _ 0)) by lia. destruct Rounds as [|rounds2] eqn:ER; [discriminate ER|]. clear ER. cbn [read_rounds].
  destruct (obj_Read_ok fs5 dir1 bm1 _ _ 0 [] ContentSize Ho5) as (fs6 & -> & Ho6 & Es6); [by vm_compute|by vm_compute|].
  cbn [mbind outcome_bind]. change (OpenFile.transferred (Z.of_nat (length (@nil Z))) ContentSize 0) with 0 in *. cbn [Z.ltb Z.compare orb].
  destruct (delete_object_ok _ _ _ _ _ _ _ Ho6) as (fs7 & E7 & Ed7 & Hfs7 & _). cbn [mbind outcome_bind]. rewrite E7. cbn [mbind outcome_bind].
  assert (Es7 : sectors (FileSystem.dev fs7) = sectors (FileSystem.dev fs4)) by congruence.
  destruct (fs_Remove_ok raw rawdir fs7 dir1 bm1 FileName Hfs7) as (ok & fs8 & -> & Hok). cbn [mbind outcome_bind]. destruct ok.
  - destruct Hok as (_ & d8 & dir8 & bm8 & -> & Hfs8 & _ & Hf8). eexists _, dir8, bm8. split; [done|]. split; [done|].
    intros k. cbn. rewrite Hf8, Es7, Hf4. case_bool_decide as Hk; [by subst k|done].
  - destruct Hok as [_ Hno]. rewrite Es7, Hf4, bool_decide_true in Hno by done. discriminate Hno.
Qed.

End laws.

(** ** On a new disk *)

Lemma new_disk : exists (fs : FileSystem.t SynchDisk.t) dir bm, fs_ok fs dir bm /\ FileSystem.nextptr fs = 1 /\
  (forall k, file (bd_sectors (FileSystem.dev fs)) dir k = None) /\ ~ no_room dir bm 0.
Proof.
  destruct SynchDisk.Disk_new_wf as (d & _ & Hwf). destruct demo_raw_ok as [Hraw Hent].
  destruct (format_disk_ok (fun i => i) (fun _ => demo_entry) demo_rawhdr (SynchDisk.mk d 0 0 0))
    as (fmf & df & d' & bm & _ & Hcc & Hnew); [exact Hwf|exact Hraw|exact (fun _ => Hent)|].
  destruct (Hnew ∅ 1 (replicate 15 0)) as [Hfs Hnone]. eexists _, _, bm. split; [exact Hfs|]. split; [reflexivity|]. split; [exact Hnone|].
  intros [Hfull|Hno].
  - apply Forall_inv in Hfull. discriminate.
  - rewrite Hcc in Hno. vm_compute in Hno. discriminate.
Qed.

(** A UNIX file that holds "hello world!" is copied to the file "a". *)
Lemma copy_then_print_witness : exists (fs : FileSystem.t SynchDisk.t) fs1 r,
  Copy (fun i => i) (fun _ => demo_entry) demo_rawhdr fs (Some [104; 101; 108; 108; 111; 32; 119; 111; 114; 108; 100; 33]) [97] = Ok (fs1, r).
Proof.
  destruct new_disk as (fs & dir & bm & Hfs & Hn & _). destruct demo_raw_ok as [Hraw _].
  destruct (copy_then_print (fun i => i) (fun _ => demo_entry) demo_rawhdr fs dir bm [97]
    [104; 101; 108; 108; 111; 32; 119; 111; 114; 108; 100; 33] Hfs) as (fs1 & r & E & _);
    [Directory.u8_list|exact Hraw|Directory.u8_list|by vm_compute|lia|]. exists fs, fs1, r. exact E.
Defined.

Lemma performance_test_fails_witness : exists (fs fs' : FileSystem.t SynchDisk.t),
  PerformanceTest (fun i => i) (fun _ => demo_entry) demo_rawhdr fs = Ok (fs', [UnableToWrite; UnableToRead]).
Proof.
  destruct new_disk as (fs & dir & bm & Hfs & Hn & Hnone & Hroom). destruct demo_raw_ok as [Hraw _].
  destruct (performance_test_fails (fun i => i) (fun _ => demo_entry) demo_rawhdr fs dir bm Hfs) as (fs' & _ & _ & E & _);
    [exact Hraw|lia|apply Hnone|exact Hroom|]. exists fs, fs'. exact E.
Defined.

End FsTest.
