(* ===== verification/ContextSwitch.v ===== *)
(** * The context switch

    threads/switch.c: the routines [SWITCH] and [ThreadRoot] in the assembly of the
    host, with the offsets of threads/switch.h, and [Thread::StackAllocate] of
    threads/thread.cc, which prepares a thread for them.

    Memory is the map of its words by their addresses.  The instructions that the
    routines use are executed one by one; where the assembler places them is a
    parameter ([code]), and so is what the C++ functions do that [ThreadRoot]
    calls ([extern]), with the calling convention of the host as hypothesis.

    Shown is that a thread that is switched away from comes back to the caller of
    [SWITCH] with all its registers, whatever ran in between, and that a thread
    that was prepared by [StackAllocate] enables interrupts, calls its function
    with its argument, and then finishes. *)

From S2P Require Import Prelude.

Local Open Scope Z_scope.

(** ** Memory of words *)

Notation memory := (gmap Z Z).

Definition mapped (m : memory) (a : Z) : Prop := is_Some (m !! a).

Definition ldw (m : memory) (a : Z) : outcome Z :=
  match m !! a with Some w => Ok w | None => Fault BadAccess end.

Definition stw (m : memory) (a w : Z) : outcome memory :=
  match m !! a with Some _ => Ok (<[a := w]> m) | None => Fault BadAccess end.

(** The address of the word at an offset: addresses have 32 bits. *)
Definition at_ (a off : Z) : Z := u32 (a + off).

#[export] Instance mapped_dec m a : Decision (mapped m a).
Proof. unfold mapped. apply _. Defined.

Lemma ldw_ok m a w : m !! a = Some w -> ldw m a = Ok w.
Proof. unfold ldw. by intros ->. Qed.

Lemma stw_ok m a w : mapped m a -> stw m a w = Ok (<[a := w]> m).
Proof. unfold stw. by intros [x ->]. Qed.

Lemma mapped_insert m a b w : mapped m a -> mapped (<[b := w]> m) a.
Proof.
  intros H. unfold mapped. destruct (decide (b = a)) as [->|Hn]; [rewrite lookup_insert_eq|rewrite lookup_insert_ne by done]; eauto.
Qed.

Lemma at_inj a o o' : Z.abs (o - o') < 2 ^ 32 -> at_ a o = at_ a o' -> o = o'.
Proof.
  unfold at_, u32. intros Hd E.
  assert (H : (a + o - (a + o')) mod 2 ^ 32 = 0) by (rewrite Zminus_mod, E, Z.sub_diag; done).
  apply Z.mod_divide in H as [k Hk]; [|done]. nia.
Qed.

Lemma at_at a o o' : at_ (at_ a o) o' = at_ a (o + o').
Proof. unfold at_, u32. rewrite Zplus_mod_idemp_l. f_equal. lia. Qed.

Lemma at_0 a : is_u32 a -> at_ a 0 = a.
Proof. intros H. unfold at_. rewrite Z.add_0_r. by apply u32_small. Qed.

Lemma at_range a o : is_u32 (at_ a o).
Proof. apply u32_range. Qed.

(** Addresses at different offsets of one base are different. *)
Ltac offsets := let E := fresh in intros E; apply at_inj in E; [clear - E; lia|clear; lia].

#[local] Opaque at_.

#[export] Hint Resolve mapped_insert at_range : nachos.
#[export] Hint Rewrite at_at : nachos.

(** ** The Intel 386: threads/switch.c under HOST_i386 *)
Module I386.

Inductive reg := EAX | EBX | ECX | EDX | EBP | ESI | EDI | ESP.

Record regs := mkRegs {
  eax : Z; ebx : Z; ecx : Z; edx : Z; ebp : Z; esi : Z; edi : Z; esp : Z }.

Definition get (r : reg) (s : regs) : Z :=
  match r with
  | EAX => eax s | EBX => ebx s | ECX => ecx s | EDX => edx s
  | EBP => ebp s | ESI => esi s | EDI => edi s | ESP => esp s
  end.

Definition set (r : reg) (w : Z) (s : regs) : regs :=
  let 'mkRegs a b c d bp si di sp := s in
  match r with
  | EAX => mkRegs w b c d bp si di sp
  | EBX => mkRegs a w c d bp si di sp
  | ECX => mkRegs a b w d bp si di sp
  | EDX => mkRegs a b c w bp si di sp
  | EBP => mkRegs a b c d w si di sp
  | ESI => mkRegs a b c d bp w di sp
  | EDI => mkRegs a b c d bp si w sp
  | ESP => mkRegs a b c d bp si di w
  end.

(** The operands [%r], [off(%r)] and a symbol of [.comm]. *)
Inductive operand := Reg (r : reg) | Mem (off : Z) (r : reg) | Sym (a : Z).

Inductive instr :=
| movl (src dst : operand)
| pushl (r : reg)
| popl (r : reg)
| call (r : reg)   (* call *%r *)
| ret.

Record state := mkState { R : regs; eip : Z; M : memory }.

Definition load (o : operand) (r : regs) (m : memory) : outcome Z :=
  match o with
  | Reg x => Ok (get x r)
  | Mem off x => ldw m (at_ (get x r) off)
  | Sym a => ldw m a
  end.

Definition store (o : operand) (w : Z) (r : regs) (m : memory) : outcome (regs * memory) :=
  match o with
  | Reg x => Ok (set x w r, m)
  | Mem off x => m ← stw m (at_ (get x r) off) w; Ok (r, m)
  | Sym a => m ← stw m a w; Ok (r, m)
  end.

Definition push (w : Z) (r : regs) (m : memory) : outcome (regs * memory) :=
  let sp := at_ (esp r) (-4) in
  m ← stw m sp w; Ok (set ESP sp r, m).

(** One instruction at [eip s], the next one being at [next]. *)
Definition exec (i : instr) (next : Z) (s : state) : outcome state :=
  match i with
  | movl src dst =>
      w ← load src (R s) (M s); '(r, m) ← store dst w (R s) (M s); Ok (mkState r next m)
  | pushl x => '(r, m) ← push (get x (R s)) (R s) (M s); Ok (mkState r next m)
  | popl x =>
      w ← ldw (M s) (esp (R s));
      Ok (mkState (set x w (set ESP (at_ (esp (R s)) 4) (R s))) next (M s))
  | call x => '(r, m) ← push next (R s) (M s); Ok (mkState r (get x (R s)) m)
  | ret =>
      w ← ldw (M s) (esp (R s)); Ok (mkState (set ESP (at_ (esp (R s)) 4) (R s)) w (M s))
  end.

(** *** threads/switch.h *)

Definition _ESP : Z := 0.
Definition _EAX : Z := 4.
Definition _EBX : Z := 8.
Definition _ECX : Z := 12.
Definition _EDX : Z := 16.
Definition _EBP : Z := 20.
Definition _ESI : Z := 24.
Definition _EDI : Z := 28.
Definition _PC : Z := 32.

Definition PCState : Z := Z.quot _PC 4 - 1.
Definition FPState : Z := Z.quot _EBP 4 - 1.
Definition InitialPCState : Z := Z.quot _ESI 4 - 1.
Definition InitialArgState : Z := Z.quot _EDX 4 - 1.
Definition WhenDonePCState : Z := Z.quot _EDI 4 - 1.
Definition StartupPCState : Z := Z.quot _ECX 4 - 1.

Definition InitialPC : reg := ESI.
Definition InitialArg : reg := EDX.
Definition WhenDonePC : reg := EDI.
Definition StartupPC : reg := ECX.

(** *** threads/switch.c *)

Definition ThreadRoot_code : list instr :=
  [ pushl EBP;
    movl (Reg ESP) (Reg EBP);
    pushl InitialArg;
    call StartupPC;
    call InitialPC;
    call WhenDonePC;
    movl (Reg EBP) (Reg ESP);
    popl EBP;
    ret ].

Definition SWITCH_code (_eax_save : Z) : list instr :=
  [ movl (Reg EAX) (Sym _eax_save);
    movl (Mem 4 ESP) (Reg EAX);
    movl (Reg EBX) (Mem _EBX EAX);
    movl (Reg ECX) (Mem _ECX EAX);
    movl (Reg EDX) (Mem _EDX EAX);
    movl (Reg ESI) (Mem _ESI EAX);
    movl (Reg EDI) (Mem _EDI EAX);
    movl (Reg EBP) (Mem _EBP EAX);
    movl (Reg ESP) (Mem _ESP EAX);
    movl (Sym _eax_save) (Reg EBX);
    movl (Reg EBX) (Mem _EAX EAX);
    movl (Mem 0 ESP) (Reg EBX);
    movl (Reg EBX) (Mem _PC EAX);
    movl (Mem 8 ESP) (Reg EAX);
    movl (Mem _EAX EAX) (Reg EBX);
    movl (Reg EBX) (Sym _eax_save);
    movl (Mem _EBX EAX) (Reg EBX);
    movl (Mem _ECX EAX) (Reg ECX);
    movl (Mem _EDX EAX) (Reg EDX);
    movl (Mem _ESI EAX) (Reg ESI);
    movl (Mem _EDI EAX) (Reg EDI);
    movl (Mem _EBP EAX) (Reg EBP);
    movl (Mem _ESP EAX) (Reg ESP);
    movl (Mem _PC EAX) (Reg EAX);
    movl (Reg EAX) (Mem 4 ESP);
    movl (Sym _eax_save) (Reg EAX);
    ret ].

(** *** threads/thread.cc *)

Definition StackSize : Z := 4 * 1024 * 16.
Definition STACK_FENCEPOST : Z := 0xdeadbeef.

(** [Thread::StackAllocate]: [t] is the thread object, whose first word is
    [stackTop] and whose next words are [machineState]; [stack] is the array that
    [AllocBoundedArray] returned. *)
Definition StackAllocate (ThreadRoot InterruptEnable ThreadFinish : Z) (t stack func arg : Z) (m : memory)
    : outcome memory :=
  let machineState i := at_ t (4 + 4 * i) in
  let stackTop := at_ t 0 in
  m ← stw m stackTop (at_ stack (4 * (StackSize - 4)));
  top ← ldw m stackTop;
  m ← stw m stackTop (at_ top (-4));
  top ← ldw m stackTop;
  m ← stw m top ThreadRoot;
  m ← stw m (at_ stack 0) STACK_FENCEPOST;
  m ← stw m (machineState PCState) ThreadRoot;
  m ← stw m (machineState StartupPCState) InterruptEnable;
  m ← stw m (machineState InitialPCState) func;
  m ← stw m (machineState InitialArgState) (u32 arg);
  stw m (machineState WhenDonePCState) ThreadFinish.

(** ** Execution *)

Section Run.
(** The instructions in memory, each with the address of the next one; and the
    functions of the kernel by their addresses, from the state in which they are
    entered to the one in which they return. *)
Variable code : Z -> option (instr * Z).
Variable extern : Z -> option (state -> outcome state).

(** A call of a function: its address and the word where an argument would be. *)
Definition event : Type := Z * option Z.

Definition step (s : state) : outcome (state * list event) :=
  match extern (eip s) with
  | Some f => s' ← f s; Ok (s', [(eip s, M s !! at_ (esp (R s)) 4)])
  | None =>
      match code (eip s) with
      | Some (i, next) => s' ← exec i next s; Ok (s', [])
      | None => Fault BadAccess
      end
  end.

Fixpoint run (n : nat) (s : state) : outcome (state * list event) :=
  match n with
  | O => Ok (s, [])
  | S n' => '(s, e) ← step s; '(s, es) ← run n' s; Ok (s, e ++ es)
  end.

(** [l] is in memory from the address [a] on. *)
Fixpoint placed (a : Z) (l : list instr) : Prop :=
  match l with
  | [] => True
  | i :: l' => exists b, extern a = None /\ code a = Some (i, b) /\ placed b l'
  end.

Lemma run_app n k s s1 es1 s2 es2 :
  run n s = Ok (s1, es1) -> run k s1 = Ok (s2, es2) -> run (n + k) s = Ok (s2, es1 ++ es2).
Proof.
  revert s es1. induction n as [|n IH]; intros s es1; cbn [run Nat.add].
  - intros [= -> <-]. done.
  - intros E Ek. destruct (step s) as [[s' e]|]; cbn [mbind outcome_bind] in *; [|done].
    destruct (run n s') as [[s'' es]|] eqn:En; cbn [mbind outcome_bind] in *; [|done].
    injection E as -> <-. rewrite (IH _ _ En Ek). cbn [mbind outcome_bind]. by rewrite app_assoc.
Qed.

Lemma run_instr a i l s : placed a (i :: l) -> eip s = a ->
  exists b, placed b l /\ forall s', exec i b s = Ok s' -> run 1 s = Ok (s', []).
Proof.
  intros (b & He & Hc & Hp) Hs. exists b. split; [done|]. intros s' E.
  cbn [run]. unfold step. rewrite Hs, He, Hc, E. done.
Qed.

(** Moves only: the next instruction is the one after, and nothing is called. *)
Fixpoint moves (l : list instr) (rm : regs * memory) : outcome (regs * memory) :=
  match l with
  | movl src dst :: l' =>
      w ← load src rm.1 rm.2; rm ← store dst w rm.1 rm.2; moves l' rm
  | [] => Ok rm
  | _ => Fault BadAccess
  end.

Lemma run_moves l l' : forall a s r m, placed a (l ++ l') -> eip s = a -> moves l (R s, M s) = Ok (r, m) ->
  exists b, placed b l' /\ run (length l) s = Ok (mkState r b m, []).
Proof.
  induction l as [|i l IH]; intros a s r m Hp Hs Hm.
  - exists a. split; [done|]. cbn [moves length run] in *. destruct s; cbn in *. by simplify_eq.
  - cbn [app] in Hp. destruct (run_instr a i (l ++ l') s Hp Hs) as (b & Hb & Hr).
    destruct i as [src dst| | | |]; cbn [moves fst snd] in Hm; try done.
    cbn [exec] in Hr. destruct (load src (R s) (M s)) as [w|]; cbn [mbind outcome_bind] in *; [|done].
    destruct (store dst w (R s) (M s)) as [[r1 m1]|]; cbn [mbind outcome_bind] in *; [|done].
    destruct (IH b (mkState r1 b m1) r m Hb eq_refl Hm) as (c & Hc & Hn). exists c. split; [done|].
    eapply (run_app 1 (length l) s _ [] _ []); [by apply Hr|done].
Qed.
(** ** The specification of [SWITCH] *)

(** The words of a thread object that [SWITCH] uses. *)
Definition area (t : Z) : list Z := at_ t <$> [_ESP; _EAX; _EBX; _ECX; _EDX; _EBP; _ESI; _EDI; _PC].

(** The thread [t] with the registers [r] and the return address [pc]. *)
Definition saved (t : Z) (r : regs) (pc : Z) (m : memory) : Prop :=
  m !! at_ t _ESP = Some (esp r) /\ m !! at_ t _EAX = Some (eax r) /\ m !! at_ t _EBX = Some (ebx r) /\
  m !! at_ t _ECX = Some (ecx r) /\ m !! at_ t _EDX = Some (edx r) /\ m !! at_ t _EBP = Some (ebp r) /\
  m !! at_ t _ESI = Some (esi r) /\ m !! at_ t _EDI = Some (edi r) /\ m !! at_ t _PC = Some pc.

Variables SWITCH _eax_save : Z.

(** The state in which [SWITCH(t1, t2)] is entered with the return address [pc]:
    the thread objects, the stack and [_eax_save] are there and apart. *)
Record entered (t1 t2 pc : Z) (s : state) : Prop := {
  e_code : placed SWITCH (SWITCH_code _eax_save);
  e_eip : eip s = SWITCH;
  e_ret : M s !! at_ (esp (R s)) 0 = Some pc;
  e_t1 : M s !! at_ (esp (R s)) 4 = Some t1;
  e_t2 : M s !! at_ (esp (R s)) 8 = Some t2;
  e_eax : mapped (M s) _eax_save;
  e_area : Forall (mapped (M s)) (area t1);
  e_apart : forall o, o ∈ [0; 4; 8] -> at_ (esp (R s)) o ∉ _eax_save :: area t1;
  e_save1 : _eax_save ∉ area t1;
  e_save2 : _eax_save ∉ area t2 }.

(** The memory with the registers of the first thread saved, as [SWITCH] does. *)
Definition save (t : Z) (r : regs) (pc : Z) (m : memory) : memory :=
  <[at_ t _PC := pc]> (<[at_ t _EAX := eax r]> (<[at_ t _ESP := esp r]> (<[at_ t _EBP := ebp r]>
  (<[at_ t _EDI := edi r]> (<[at_ t _ESI := esi r]> (<[at_ t _EDX := edx r]> (<[at_ t _ECX := ecx r]>
  (<[at_ t _EBX := ebx r]> (<[_eax_save := eax r]> m))))))))).

Lemma saved_save t r pc m : saved t r pc (save t r pc m).
Proof.
  unfold saved, save.
  repeat split; repeat (rewrite lookup_insert_ne by (unfold _PC, _EAX, _ESP, _EBP, _EDI, _ESI, _EDX, _ECX, _EBX; offsets));
    by rewrite lookup_insert_eq.
Qed.
Lemma moves_app l l' rm : moves (l ++ l') rm = (rm' ← moves l rm; moves l' rm').
Proof.
  revert rm. induction l as [|i l IH]; intros rm; [done|]. cbn [app moves].
  destruct i as [src dst| | | |]; try done. destruct (load src rm.1 rm.2) as [w|]; cbn [mbind outcome_bind]; [|done].
  destruct (store dst w rm.1 rm.2) as [rm'|]; cbn [mbind outcome_bind]; [apply IH|done].
Qed.

(** The two halves of [SWITCH], one move after the other. *)
Ltac apart H := unfold area in H; cbn [fmap list_fmap] in H; rewrite ?not_elem_of_cons in H; destruct_and? H.
Ltac fields := unfold _PC, _EAX, _ESP, _EBP, _EDI, _ESI, _EDX, _ECX, _EBX in *.
Ltac differ := first [assumption | apply not_eq_sym; assumption | offsets].
Ltac look := repeat (rewrite lookup_insert_ne by differ); first [apply lookup_insert_eq | eassumption].
Ltac move1 :=
  cbn [moves load store get set fst snd eax ebx ecx edx ebp esi edi esp];
  first [rewrite stw_ok by (repeat apply mapped_insert; assumption) | erewrite ldw_ok by look | idtac];
  cbn [mbind outcome_bind].

Lemma SWITCH_saves t1 t2 pc s : entered t1 t2 pc s ->
  moves (take 13 (SWITCH_code _eax_save)) (R s, M s) = Ok (set EBX pc (set EAX t1 (R s)), save t1 (R s) pc (M s)).
Proof.
  intros [_ _ Hr H1 _ He Ha Hs Hn _]. destruct s as [[a b c d bp si di sp] ip m]. cbn [R M esp] in *.
  pose proof (Hs 0 ltac:(set_solver)) as H0. pose proof (Hs 4 ltac:(set_solver)) as H4. clear Hs.
  apart H0. apart H4. apart Hn. unfold area in Ha. cbn [fmap list_fmap] in Ha.
  repeat (apply Forall_cons_1 in Ha as [? Ha]). fields. unfold SWITCH_code, save. fields. cbn [take].
  repeat move1. done.
Qed.
Lemma SWITCH_loads t2 r m r2 pc2 : m !! at_ (esp r) 8 = Some t2 -> saved t2 r2 pc2 m ->
  mapped m _eax_save -> _eax_save ∉ area t2 -> mapped m (at_ (esp r2) 4) -> at_ (esp r2) 4 <> _eax_save ->
  moves (take 13 (drop 13 (SWITCH_code _eax_save))) (r, m) =
    Ok (r2, <[at_ (esp r2) 4 := pc2]> (<[_eax_save := eax r2]> m)).
Proof.
  intros H8 Hsv He Hn Hm Hx. unfold saved in Hsv. destruct_and! Hsv. apart Hn. fields.
  destruct r as [a b c d bp si di sp], r2 as [a2 b2 c2 d2 bp2 si2 di2 sp2]. cbn [eax ebx ecx edx ebp esi edi esp] in *.
  unfold SWITCH_code. fields. cbn [take drop]. repeat move1. done.
Qed.

(** [SWITCH(t1, t2)], with [r2] and [pc2] what is saved in [t2] once the registers
    of [t1] are saved: it goes on at the return address on the stack of [t2]. *)
Lemma SWITCH_runs t1 t2 pc s r2 pc2 pc' : entered t1 t2 pc s ->
  saved t2 r2 pc2 (save t1 (R s) pc (M s)) ->
  mapped (M s) (at_ (esp r2) 4) -> at_ (esp r2) 4 <> _eax_save ->
  esp r2 <> _eax_save -> is_u32 (esp r2) -> save t1 (R s) pc (M s) !! esp r2 = Some pc' ->
  run 27 s = Ok (mkState (set ESP (at_ (esp r2) 4) r2) pc'
                   (<[at_ (esp r2) 4 := pc2]> (<[_eax_save := eax r2]> (save t1 (R s) pc (M s)))), []).
Proof.
  intros He Hsv Hm Hx Hx' Hw Hpc. set (m1 := save t1 (R s) pc (M s)) in *.
  assert (Hup : forall a, mapped (M s) a -> mapped m1 a) by (intros a Ha; unfold m1, save; by repeat apply mapped_insert).
  assert (H8 : m1 !! at_ (esp (R s)) 8 = Some t2).
  { pose proof (e_apart _ _ _ _ He 8 ltac:(set_solver)) as H. pose proof (e_t2 _ _ _ _ He) as E. apart H.
    unfold m1, save. fields. look. }
  assert (Hmv : moves (take 26 (SWITCH_code _eax_save)) (R s, M s) =
    Ok (r2, <[at_ (esp r2) 4 := pc2]> (<[_eax_save := eax r2]> m1))).
  { change (take 26 (SWITCH_code _eax_save)) with
      (take 13 (SWITCH_code _eax_save) ++ take 13 (drop 13 (SWITCH_code _eax_save))).
    rewrite moves_app, (SWITCH_saves _ _ _ _ He), bind_Ok. fold m1.
    apply (SWITCH_loads t2); try done; [by destruct (R s)|apply Hup, (e_eax _ _ _ _ He)|apply (e_save2 _ _ _ _ He)|by apply Hup]. }
  destruct (run_moves (take 26 (SWITCH_code _eax_save)) [ret] SWITCH s _ _ (e_code _ _ _ _ He) (e_eip _ _ _ _ He) Hmv)
    as (b & Hb & Hrun).
  destruct (run_instr b ret [] (mkState r2 b (<[at_ (esp r2) 4 := pc2]> (<[_eax_save := eax r2]> m1))) Hb eq_refl) as (c & _ & Hr).
  eapply (run_app 26 1 s _ [] _ []); [exact Hrun|]. apply Hr. cbn [exec R M].
  rewrite (ldw_ok _ _ pc'); [done|]. rewrite lookup_insert_ne.
  - by rewrite lookup_insert_ne by (by apply not_eq_sym).
  - rewrite <- (at_0 (esp r2)) at 2 by done. offsets.
Qed.
(** A thread that waits for its turn: its registers and the address where it goes
    on are in its object, and the address is on its stack as well, above it a word
    that [SWITCH] may use. *)
Record parked (t : Z) (r : regs) (pc : Z) (m : memory) : Prop := {
  p_saved : saved t r pc m;
  p_ret : m !! esp r = Some pc;
  p_slot : mapped m (at_ (esp r) 4);
  p_esp : is_u32 (esp r) }.

(** The words that must not change for [t] to stay as it is. *)
Definition own (t : Z) (r : regs) : list Z := esp r :: area t.

(** The words that [SWITCH(t1, t2)] writes. *)
Definition written (t1 : Z) (r2 : regs) : list Z := _eax_save :: at_ (esp r2) 4 :: area t1.

Lemma save_other t r pc m a : a ∉ _eax_save :: area t -> save t r pc m !! a = m !! a.
Proof. intros H. apart H. unfold save. fields. by repeat (rewrite lookup_insert_ne by differ). Qed.

Lemma saved_same t r pc m m' : (forall a, a ∈ area t -> m' !! a = m !! a) -> saved t r pc m -> saved t r pc m'.
Proof.
  intros H Hs. unfold saved in *. destruct_and! Hs. repeat split; (rewrite H; [done|]); unfold area; cbn [fmap list_fmap]; set_solver.
Qed.

(** A thread stays parked while its words do. *)
Lemma parked_same t r pc m m' : (forall a, a ∈ own t r -> m' !! a = m !! a) ->
  mapped m' (at_ (esp r) 4) -> parked t r pc m -> parked t r pc m'.
Proof.
  intros H Hm [Hs Hr _ He]. split; [|by rewrite H by left|done..].
  apply (saved_same _ _ _ m); [|done]. intros a Ha. apply H. by right.
Qed.

(** Two threads that [SWITCH] can be called for, the second one parked. *)
Record apart2 (t1 t2 : Z) (r1 r2 : regs) : Prop := {
  a_own : forall a, a ∈ own t2 r2 -> a ∉ _eax_save :: area t1;
  a_slot : at_ (esp r2) 4 ∉ _eax_save :: area t1;
  a_stack : at_ (esp r1) 0 <> at_ (esp r2) 4 }.

(** [SWITCH] parks the first thread and the second one goes on where it was, with
    its registers; only the words of [written] change. *)
Lemma SWITCH_switches t1 t2 pc s r2 pc2 :
  entered t1 t2 pc s -> parked t2 r2 pc2 (M s) -> apart2 t1 t2 (R s) r2 -> is_u32 (esp (R s)) ->
  exists m', run 27 s = Ok (mkState (set ESP (at_ (esp r2) 4) r2) pc2 m', []) /\
    parked t1 (R s) pc m' /\
    (forall a, mapped (M s) a -> mapped m' a) /\
    (forall a, a ∉ written t1 r2 -> m' !! a = M s !! a).
Proof.
  intros He [Hsv Hret Hm Hw] [Hown Hslot Hst] Hw1. set (m1 := save t1 (R s) pc (M s)).
  assert (Hk : forall a, a ∈ own t2 r2 -> m1 !! a = M s !! a) by (intros a Ha; by apply save_other, Hown).
  assert (Hup : forall a, mapped (M s) a -> mapped m1 a) by (intros a Ha; unfold m1, save; by repeat apply mapped_insert).
  assert (Hsp : esp r2 <> _eax_save) by (specialize (Hown (esp r2) ltac:(by left)); set_solver).
  assert (H0 : at_ (esp (R s)) 0 ∉ _eax_save :: area t1) by (apply (e_apart _ _ _ _ He); set_solver).
  rewrite at_0 in H0, Hst by done.
  eexists. split; [apply (SWITCH_runs t1 t2 pc s r2 pc2 pc2 He)|].
  - apply (saved_same _ _ _ (M s)); [|done]. intros a Ha. apply Hk. by right.
  - done.
  - set_solver.
  - done.
  - done.
  - fold m1. by rewrite Hk by left.
  - fold m1. split; [|split].
    + apply (parked_same _ _ _ m1).
      * intros a Ha. rewrite !lookup_insert_ne; [done|..].
        -- intros <-. unfold own in Ha. apply elem_of_cons in Ha as [Ha|Ha]; [set_solver|by apply (e_save1 _ _ _ _ He)].
        -- intros <-. unfold own in Ha. apply elem_of_cons in Ha as [Ha|Ha]; [congruence|set_solver].
      * do 2 apply mapped_insert. apply Hup. eexists. apply (e_t1 _ _ _ _ He).
      * split; [apply saved_save| |apply Hup; eexists; apply (e_t1 _ _ _ _ He)|done].
        unfold m1. rewrite save_other by done. rewrite <- (at_0 (esp (R s))) by done. apply (e_ret _ _ _ _ He).
    + intros a Ha. do 2 apply mapped_insert. by apply Hup.
    + intros a Ha. unfold written in Ha. rewrite !lookup_insert_ne by set_solver. apply save_other. set_solver.
Qed.
(** A thread that is switched to itself, as when it is woken while it idles, goes
    on as it was. *)
Lemma SWITCH_itself t pc s : entered t t pc s -> is_u32 (esp (R s)) ->
  exists m', run 27 s = Ok (mkState (set ESP (at_ (esp (R s)) 4) (R s)) pc m', []).
Proof.
  intros He Hw. pose proof (e_apart _ _ _ _ He 0 ltac:(set_solver)) as H0. pose proof (e_apart _ _ _ _ He 4 ltac:(set_solver)) as H4.
  rewrite at_0 in H0 by done. eexists. apply (SWITCH_runs t t pc s (R s) pc pc He); try done.
  - apply saved_save.
  - eexists. apply (e_t1 _ _ _ _ He).
  - set_solver.
  - set_solver.
  - rewrite save_other by done. rewrite <- (at_0 (esp (R s))) by done. apply (e_ret _ _ _ _ He).
Qed.

(** What can happen while [t] is parked: code that leaves the words of [t] alone,
    and switches between other threads. *)
Inductive later (t : Z) (r : regs) : state -> state -> Prop :=
| later_now s : later t r s s
| later_code s s1 s2 :
    (forall a, a ∈ own t r -> M s1 !! a = M s !! a) ->
    (forall a, mapped (M s) a -> mapped (M s1) a) ->
    later t r s1 s2 -> later t r s s2
| later_switch s t3 t4 pc3 r4 pc4 s1 s2 :
    entered t3 t4 pc3 s -> parked t4 r4 pc4 (M s) -> apart2 t3 t4 (R s) r4 -> is_u32 (esp (R s)) ->
    (forall a, a ∈ own t r -> a ∉ written t3 r4) ->
    run 27 s = Ok (s1, []) -> later t r s1 s2 -> later t r s s2.

Lemma later_parked t r pc s s' : later t r s s' -> parked t r pc (M s) -> parked t r pc (M s').
Proof.
  induction 1 as [s|s s1 s2 Hk Hm _ IH|s t3 t4 pc3 r4 pc4 s1 s2 He Hp Ha Hw Hk Hr _ IH]; intros H; [done|apply IH..].
  - apply (parked_same _ _ _ (M s)); [done|apply Hm, (p_slot _ _ _ _ H)|done].
  - destruct (SWITCH_switches _ _ _ _ _ _ He Hp Ha Hw) as (m' & Hr' & _ & Hm & Hf).
    rewrite Hr in Hr'. injection Hr' as ->. cbn [M].
    apply (parked_same _ _ _ (M s)); [|apply Hm, (p_slot _ _ _ _ H)|done]. intros a Ha'. by apply Hf, Hk.
Qed.

(** C6: A thread that calls [SWITCH] gets back, however many other threads run and
    are switched in between, as soon as one of them switches to it: it goes on at
    the return address of its call with every register as it was, only the stack
    pointer has moved past the address, and the thread that was running is parked
    in the same way. *)
Theorem switched_thread_resumes t1 t2 pc1 s1 r2 pc2 :
  entered t1 t2 pc1 s1 -> parked t2 r2 pc2 (M s1) -> apart2 t1 t2 (R s1) r2 -> is_u32 (esp (R s1)) ->
  exists s1', run 27 s1 = Ok (s1', []) /\ R s1' = set ESP (at_ (esp r2) 4) r2 /\ eip s1' = pc2 /\
    forall s2 t3 pc3, later t1 (R s1) s1' s2 ->
      entered t3 t1 pc3 s2 -> apart2 t3 t1 (R s2) (R s1) -> is_u32 (esp (R s2)) ->
      exists s2', run 27 s2 = Ok (s2', []) /\
        R s2' = set ESP (at_ (esp (R s1)) 4) (R s1) /\ eip s2' = pc1 /\ parked t3 (R s2) pc3 (M s2') /\
        (forall a, a ∉ written t3 (R s1) -> M s2' !! a = M s2 !! a).
Proof.
  intros He Hp Ha Hw. destruct (SWITCH_switches _ _ _ _ _ _ He Hp Ha Hw) as (m' & Hr & Hp1 & _ & _).
  eexists. split; [exact Hr|]. do 2 (split; [done|]). intros s2 t3 pc3 Hl He2 Ha2 Hw2.
  destruct (SWITCH_switches t3 t1 pc3 s2 (R s1) pc1 He2 (later_parked _ _ _ _ _ Hl Hp1) Ha2 Hw2) as (m2 & Hr2 & Hp3 & _ & Hf).
  eexists. split; [exact Hr2|]. done.
Qed.

(** ** A new thread *)

(** The C++ functions return as the calling convention says: to the return address
    on the stack, with the registers that belong to the caller, and with the words
    of its frame at the offsets [offs]. *)
Record returned (offs : list Z) (s s' : state) : Prop := {
  f_eip : M s !! esp (R s) = Some (eip s');
  f_esp : esp (R s') = at_ (esp (R s)) 4;
  f_ebx : ebx (R s') = ebx (R s);
  f_ebp : ebp (R s') = ebp (R s);
  f_esi : esi (R s') = esi (R s);
  f_edi : edi (R s') = edi (R s);
  f_mapped : forall a, mapped (M s) a -> mapped (M s') a;
  f_frame : forall o, o ∈ offs -> M s' !! at_ (esp (R s)) o = M s !! at_ (esp (R s)) o }.

Variables ThreadRoot InterruptEnable ThreadFinish : Z.
(** The words of its stack that are used until a thread enters its function. *)
Definition used : list Z := [0; StackSize - 7; StackSize - 6; StackSize - 5; StackSize - 4].

(** The memory of a thread object and of a stack for it. *)
Record roomy (t stack : Z) (m : memory) : Prop := {
  r_area : Forall (mapped m) (area t);
  r_stack : forall i, i ∈ used -> mapped m (at_ stack (4 * i));
  r_apart : forall i, i ∈ used -> at_ stack (4 * i) ∉ area t }.

(** The registers that a new thread starts with: those that nobody set hold what
    was in the object. *)
Definition initial (t stack func arg : Z) (m : memory) (r : regs) : Prop :=
  m !! at_ t _EAX = Some (eax r) /\ m !! at_ t _EBX = Some (ebx r) /\ m !! at_ t _EBP = Some (ebp r) /\
  ecx r = InterruptEnable /\ edx r = u32 arg /\ esi r = func /\ edi r = ThreadFinish /\
  esp r = at_ stack (4 * (StackSize - 5)).

Lemma StackAllocate_parks t stack func arg m : roomy t stack m ->
  exists m' r, StackAllocate ThreadRoot InterruptEnable ThreadFinish t stack func arg m = Ok m' /\
    initial t stack func arg m r /\ parked t r ThreadRoot m' /\
    m' !! at_ stack 0 = Some STACK_FENCEPOST /\ (forall a, mapped m a -> mapped m' a).
Proof.
  intros [Ha Hs Hn]. unfold area in Ha. cbn [fmap list_fmap] in Ha. repeat (apply Forall_cons_1 in Ha as [? Ha]).
  pose proof (Hn 0 ltac:(unfold used; set_solver)) as N0. pose proof (Hn (StackSize - 5) ltac:(unfold used; set_solver)) as N5.
  pose proof (Hs 0 ltac:(unfold used; set_solver)) as S0. pose proof (Hs (StackSize - 5) ltac:(unfold used; set_solver)) as S5.
  pose proof (Hs (StackSize - 4) ltac:(unfold used; set_solver)) as S4. clear Hs Hn.
  apart N0. apart N5. unfold StackAllocate, PCState, StartupPCState, InitialPCState, InitialArgState, WhenDonePCState.
  fields. change (4 * 0) with 0 in *.
  repeat match goal with |- context [at_ t (4 + 4 * ?i)] => let v := eval vm_compute in (4 + 4 * i) in change (4 + 4 * i) with v end.
  repeat (first [rewrite stw_ok by (repeat apply mapped_insert; assumption) | erewrite ldw_ok by (apply lookup_insert_eq)];
    rewrite ?at_at; cbn [mbind outcome_bind]).
  replace (4 * (StackSize - 4) + -4) with (4 * (StackSize - 5)) in * by lia.
  assert (exists a b bp, m !! at_ t 4 = Some a /\ m !! at_ t 8 = Some b /\ m !! at_ t 20 = Some bp) as (a & b & bp & Ea & Eb & Ebp)
    by (unfold mapped, is_Some in *; naive_solver).
  exists (<[at_ t 28 := ThreadFinish]> (<[at_ t 16 := u32 arg]> (<[at_ t 24 := func]> (<[at_ t 12 := InterruptEnable]>
    (<[at_ t 32 := ThreadRoot]> (<[at_ stack 0 := STACK_FENCEPOST]> (<[at_ stack (4 * (StackSize - 5)) := ThreadRoot]>
    (<[at_ t 0 := at_ stack (4 * (StackSize - 5))]> (<[at_ t 0 := at_ stack (4 * (StackSize - 4))]> m))))))))),
    (mkRegs a b InterruptEnable (u32 arg) bp func ThreadFinish (at_ stack (4 * (StackSize - 5)))).
  change StackSize with 65536 in *. split; [reflexivity|].
  split; [unfold initial; fields; repeat split; assumption || reflexivity|]. split; [split|split].
  - unfold saved. fields. cbn [eax ebx ecx edx ebp esi edi esp]. split_and!; look.
  - cbn [esp]. look.
  - cbn [esp]. rewrite at_at. change (4 * (65536 - 5) + 4) with (4 * (65536 - 4)). by repeat apply mapped_insert.
  - cbn [esp]. apply at_range.
  - look.
  - intros x Hx. by repeat apply mapped_insert.
Qed.
(** [ThreadRoot] up to its first call. *)
Lemma ThreadRoot_enters a b c d bp si di top m :
  placed ThreadRoot ThreadRoot_code ->
  mapped m (at_ top (-4)) -> mapped m (at_ top (-8)) -> mapped m (at_ top (-12)) ->
  exists pc, placed pc (drop 4 ThreadRoot_code) /\
    run 4 (mkState (mkRegs a b c d bp si di (at_ top 0)) ThreadRoot m) =
      Ok (mkState (mkRegs a b c d (at_ top (-4)) si di (at_ top (-12))) c
            (<[at_ top (-12) := pc]> (<[at_ top (-8) := d]> (<[at_ top (-4) := bp]> m))), []).
Proof.
  intros (b1 & He1 & C1 & b2 & He2 & C2 & b3 & He3 & C3 & b4 & He4 & C4 & Hp) M4 M8 M12. exists b4. split; [exact Hp|].
  cbn [run]. unfold step. cbn [eip].
  rewrite He1, C1. cbn [exec get R M ebp]. unfold push. cbn [esp]. rewrite at_at.
  rewrite stw_ok by done. cbn [mbind outcome_bind set eip].
  rewrite He2, C2. cbn [exec load store get R M ebp esp mbind outcome_bind set eip].
  rewrite He3, C3. cbn [exec get R M edx InitialArg]. unfold push. cbn [esp]. rewrite at_at.
  rewrite stw_ok by auto with nachos. cbn [mbind outcome_bind set eip].
  rewrite He4, C4. cbn [exec get R M ecx StartupPC]. unfold push. cbn [esp]. rewrite at_at.
  rewrite stw_ok by auto with nachos. cbn [mbind outcome_bind set eip]. done.
Qed.

(** From the first instruction of [ThreadRoot] to the function of the thread, and
    from there, if it returns, to [ThreadFinish]. *)
Lemma ThreadRoot_runs fE (top : Z) s :
  placed ThreadRoot ThreadRoot_code ->
  extern InterruptEnable = Some fE -> (forall s, mapped (M s) (esp (R s)) -> exists s', fE s = Ok s' /\ returned [4; 8] s s') ->
  eip s = ThreadRoot -> ecx (R s) = InterruptEnable -> edi (R s) = ThreadFinish -> esp (R s) = at_ top 0 ->
  (forall o, o ∈ [-4; -8; -12] -> mapped (M s) (at_ top o)) ->
  exists sf, run 6 s = Ok (sf, [(InterruptEnable, Some (edx (R s)))]) /\
    eip sf = esi (R s) /\ M sf !! at_ (esp (R sf)) 4 = Some (edx (R s)) /\
    forall f s', extern (esi (R s)) = Some f -> f sf = Ok s' -> returned [8] sf s' ->
      exists s'', run 2 sf = Ok (s'', [(esi (R s), Some (edx (R s)))]) /\ eip s'' = ThreadFinish.
Proof.
  intros Hp HE Hf Hs Hc Hd Hsp Hm.
  pose proof (Hm (-4) ltac:(set_solver)) as M4. pose proof (Hm (-8) ltac:(set_solver)) as M8.
  pose proof (Hm (-12) ltac:(set_solver)) as M12. clear Hm.
  destruct s as [[a b c d bp si di sp] ip m]. cbn [R M eip esp ecx edi edx esi] in *. subst c di sp ip.
  destruct (ThreadRoot_enters a b InterruptEnable d bp si ThreadFinish top m Hp M4 M8 M12)
    as (b4 & (b5 & He5 & C5 & b6 & He6 & C6 & _) & R4).
  set (s4 := mkState (mkRegs a b InterruptEnable d (at_ top (-4)) si ThreadFinish (at_ top (-12))) InterruptEnable
    (<[at_ top (-12) := b4]> (<[at_ top (-8) := d]> (<[at_ top (-4) := bp]> m)))) in *.
  destruct (Hf s4) as (s5 & E5 & [Fi Fsp Fbx Fbp Fsi Fdi Fm Ff]).
  { unfold s4. cbn [M R esp]. eauto with nachos. }
  unfold s4 in Fi, Fsp, Fbx, Fbp, Fsi, Fdi, Fm, Ff. cbn [M R eip esp ebx ebp esi edi] in *.
  rewrite lookup_insert_eq in Fi. injection Fi as Fi. rewrite at_at in Fsp.
  assert (R5 : run 1 s4 = Ok (s5, [(InterruptEnable, Some d)])).
  { cbn [run]. unfold step. cbn [eip s4]. rewrite HE, E5. cbn [mbind outcome_bind M R esp s4 app]. rewrite at_at. change (-12 + 4) with (-8). do 4 f_equal.
    rewrite lookup_insert_ne by offsets. apply lookup_insert_eq. }
  assert (M5 : mapped (M s5) (at_ top (-12))) by (apply Fm; eauto with nachos).
  assert (D5 : M s5 !! at_ top (-8) = Some d).
  { specialize (Ff 4 ltac:(set_solver)). rewrite at_at in Ff. change (-12 + 4) with (-8) in Ff. rewrite Ff.
    rewrite lookup_insert_ne by offsets. apply lookup_insert_eq. }
  destruct (R s5) as [a5 bx5 c5 d5 bp5 si5 di5 sp5] eqn:ER5. cbn [esp ebx ebp esi edi] in *. subst sp5 bx5 bp5 si5 di5.
  set (sf := mkState (mkRegs a5 b c5 d5 (at_ top (-4)) si ThreadFinish (at_ top (-12))) si (<[at_ top (-12) := b5]> (M s5))).
  assert (R6 : run 1 s5 = Ok (sf, [])).
  { cbn [run]. unfold step. rewrite <- Fi, He5, C5. cbn [exec]. rewrite ER5. unfold push. cbn [get esp esi InitialPC set].
    rewrite at_at. change (-12 + 4 + -4) with (-12). rewrite stw_ok by done. done. }
  exists sf. split; [|split; [done|split]].
  - apply (run_app 4 2 _ s4 [] sf [(InterruptEnable, Some d)]); [exact R4|].
    exact (run_app 1 1 _ s5 [(InterruptEnable, Some d)] sf [] R5 R6).
  - cbn [M R esp sf]. rewrite at_at. change (-12 + 4) with (-8). rewrite lookup_insert_ne by offsets. exact D5.
  - intros f s' Hx Es' [Gi Gsp _ _ _ Gdi Gm _]. cbn [M R eip esp edi sf] in Gi, Gsp, Gdi, Gm.
    rewrite lookup_insert_eq in Gi. injection Gi as Gi. rewrite at_at in Gsp. change (-12 + 4) with (-8) in Gsp.
    assert (R7 : run 1 sf = Ok (s', [(si, Some d)])).
    { cbn [run]. unfold step. cbn [eip sf]. rewrite Hx, Es'. cbn [mbind outcome_bind M R esp sf app]. rewrite at_at. change (-12 + 4) with (-8). do 4 f_equal.
      rewrite lookup_insert_ne by offsets. exact D5. }
    eexists. split; [eapply (run_app 1 1 sf s' [(si, Some d)] _ [] R7)|].
    + cbn [run]. unfold step. rewrite <- Gi, He6, C6. cbn [exec]. unfold push. rewrite Gsp, at_at.
      rewrite stw_ok by (apply Gm; eauto with nachos). cbn [mbind outcome_bind app]. reflexivity.
    + exact Gdi.
Qed.
(** C7: A thread that [Fork] prepared with [StackAllocate] starts when it is first
    switched to: [SWITCH] returns into [ThreadRoot], which enables interrupts and
    calls the function of the thread with its argument; if the function returns as
    functions do, [ThreadFinish] is called next. *)
Theorem forked_thread_runs fE t stack func arg m :
  placed ThreadRoot ThreadRoot_code -> extern InterruptEnable = Some fE ->
  (forall s, mapped (M s) (esp (R s)) -> exists s', fE s = Ok s' /\ returned [4; 8] s s') ->
  roomy t stack m ->
  exists m', StackAllocate ThreadRoot InterruptEnable ThreadFinish t stack func arg m = Ok m' /\
    m' !! at_ stack 0 = Some STACK_FENCEPOST /\
    forall t1 pc s, entered t1 t pc s -> is_u32 (esp (R s)) ->
      (forall a, mapped m' a -> mapped (M s) a) ->
      (forall r, initial t stack func arg m r -> apart2 t1 t (R s) r /\ (forall a, a ∈ own t r -> M s !! a = m' !! a)) ->
      exists sf, run 33 s = Ok (sf, [(InterruptEnable, Some (u32 arg))]) /\
        eip sf = func /\ M sf !! at_ (esp (R sf)) 4 = Some (u32 arg) /\
        forall f s', extern func = Some f -> f sf = Ok s' -> returned [8] sf s' ->
          exists s'', run 35 s = Ok (s'', [(InterruptEnable, Some (u32 arg)); (func, Some (u32 arg))]) /\ eip s'' = ThreadFinish.
Proof.
  intros Hp HE Hf Hr. destruct (StackAllocate_parks t stack func arg m Hr) as (m' & r & Em & Hi & Hpk & Hfp & Hup).
  exists m'. split; [done|]. split; [done|]. intros t1 pc s He Hw Hm Ha. destruct (Ha r Hi) as [Hap Hsame].
  destruct (SWITCH_switches t1 t pc s r ThreadRoot He) as (m2 & R27 & _ & Hm2 & _); [|done..|].
  { apply (parked_same _ _ _ m'); [done|apply Hm, (p_slot _ _ _ _ Hpk)|done]. }
  destruct Hi as (_ & _ & _ & Hc & Hd & Hsi & Hdi & Hsp).
  set (s0 := mkState (set ESP (at_ (esp r) 4) r) ThreadRoot m2) in *.
  destruct (ThreadRoot_runs fE (at_ stack (4 * (StackSize - 4))) s0) as (sf & R6 & Ei & Earg & Hfin).
  1-4: done.
  1-2: by destruct r.
  - transitivity (at_ (esp r) 4); [by destruct r|]. rewrite Hsp, !at_at. by f_equal.
  - intros o Ho. rewrite at_at. apply Hm2, Hm, Hup.
    assert (exists i, i ∈ used /\ 4 * (StackSize - 4) + o = 4 * i) as (i & Hi & ->); [|by apply (r_stack _ _ _ Hr)].
    unfold used. rewrite !elem_of_cons, elem_of_nil in Ho.
    exists (StackSize - 4 + o / 4). destruct Ho as [->|[->|[->|[]]]]; (split; [set_solver+|done]).
  - assert (edx (R s0) = u32 arg /\ esi (R s0) = func) as [Ed Es] by (by destruct r). rewrite Ed, Es in *.
    exists sf. split; [exact (run_app 27 6 s s0 [] sf _ R27 R6)|]. do 2 (split; [done|]).
    intros f s' Hx Es' Hret. destruct (Hfin f s' Hx Es' Hret) as (s'' & R2 & E2). exists s''. split; [|done].
    exact (run_app 33 2 s sf _ s'' _ (run_app 27 6 s s0 [] sf _ R27 R6) R2).
Qed.
End Run.

(** ** An example

    Two threads at 1000 and 2000 with stacks around 3000 and 4000, [_eax_save] at
    64, [SWITCH] from 4096 on and [ThreadRoot] from 8192 on, each instruction one
    byte long. *)
Definition code (a : Z) : option (instr * Z) :=
  i ← (if a <? 8192 then SWITCH_code 64 !! Z.to_nat (a - 4096) else ThreadRoot_code !! Z.to_nat (a - 8192)); Some (i, a + 1).

(** A function that returns at once, at 100 and at 200. *)
Definition returns_at_once (s : state) : outcome state :=
  pc ← ldw (M s) (esp (R s)); Ok (mkState (set ESP (at_ (esp (R s)) 4) (R s)) pc (M s)).

Lemma returns_at_once_ok offs s pc : M s !! esp (R s) = Some pc ->
  exists s', returns_at_once s = Ok s' /\ returned offs s s'.
Proof.
  intros Hpc. unfold returns_at_once. rewrite (ldw_ok _ _ pc) by exact Hpc. eexists. split; [reflexivity|]. by destruct s as [[] ? ?].
Qed.

Definition extern (a : Z) : option (state -> outcome state) :=
  if (a =? 100) || (a =? 200) then Some returns_at_once else None.

Definition words (a : Z) (l : list Z) : list (Z * Z) := imap (fun k w => (a + 4 * Z.of_nat k, w)) l.

Definition before : state :=
  mkState (mkRegs 1 2 3 4 5 6 7 3000) 4096
    (list_to_map ([(64, 0)] ++ words 1000 (replicate 9 0) ++ words 2000 [4000; 11; 12; 13; 14; 15; 16; 17; 600] ++
      words 3000 [500; 1000; 2000] ++ words 3992 [0; 0; 600; 0])).

(** The value of a computation that returns. *)
Definition result {A} (d : A) (o : outcome A) : A := match o with Ok a => a | Fault _ => d end.

Lemma result_is {A} (d : A) o a : o = Ok a -> a = result d o.
Proof. by intros ->. Qed.

Definition switched : state := (result (before, []) (run code extern 27 before)).1.

(** The second thread calls [SWITCH(t2, t1)], to return to 700. *)
Definition calls_SWITCH (s : state) : state :=
  mkState (set ESP 3992 (R s)) 4096 (<[3992 := 700]> (<[3996 := 2000]> (<[4000 := 1000]> (M s)))).

Ltac settle :=
  repeat match goal with
  | |- _ /\ _ => split
  | |- exists _, _ => eexists
  | |- placed _ _ _ _ => progress cbn [placed SWITCH_code ThreadRoot_code]
  | |- is_u32 _ => vm_compute; split; [intros; discriminate|reflexivity]
  | |- forall a, a ∈ _ -> _ => refine (proj1 (list.Forall_forall _ _) _); cbv beta
  end;
  lazymatch goal with
  | |- True => exact I
  | |- code _ = _ => reflexivity
  | |- extern _ = _ => reflexivity
  | |- @eq _ _ _ => vm_compute; reflexivity
  | |- _ => apply (bool_decide_unpack _); vm_compute; exact I
  end.

Lemma switched_thread_resumes_witness :
  exists s1', run code extern 27 before = Ok (s1', []) /\ eip s1' = 600 /\
    exists s2', run code extern 27 (calls_SWITCH s1') = Ok (s2', []) /\
      R s2' = mkRegs 1 2 3 4 5 6 7 3004 /\ eip s2' = 500.
Proof.
  destruct (switched_thread_resumes code extern 4096 64 1000 2000 500 before (mkRegs 11 12 13 14 15 16 17 4000) 600)
    as (s1' & E & _ & E2 & H).
  - split; settle.
  - split; settle.
  - split; settle.
  - settle.
  - apply (result_is (before, [])), (f_equal fst) in E. change (s1' = switched) in E. clear E2. subst s1'.
    exists switched. split; [settle|]. split; [settle|].
    assert (Hl : later code extern 4096 64 1000 (R before) switched (calls_SWITCH switched)).
    { eapply later_code; [| |apply later_now].
      - settle.
      - intros a Ha. unfold calls_SWITCH. cbn [M]. do 3 apply mapped_insert. exact Ha. }
    destruct (H (calls_SWITCH switched) 2000 700 Hl) as (s2' & E' & ER & Ei & _).
    + split; settle.
    + split; settle.
    + settle.
    + exists s2'. split; [exact E'|]. split; [|exact Ei]. rewrite ER. reflexivity.
Defined.

(** A thread object at 2000 with a stack from 262144 on, and a thread at 1000 that
    calls [SWITCH] on it. *)
Definition fresh : memory :=
  list_to_map ([(64, 0)] ++ words 1000 (replicate 9 0) ++ words 2000 (replicate 9 0) ++
    words 3000 [500; 1000; 2000] ++ ((fun i => (262144 + 4 * i, 0)) <$> used)).

Definition prepared : memory := result ∅ (StackAllocate 8192 100 300 2000 262144 200 (-1) fresh).

Definition forking : state := mkState (mkRegs 1 2 3 4 5 6 7 3000) 4096 prepared.

Definition in_func : state := (result (forking, []) (run code extern 33 forking)).1.

Lemma forked_thread_runs_witness :
  StackAllocate 8192 100 300 2000 262144 200 (-1) fresh = Ok prepared /\
  exists s'', run code extern 35 forking = Ok (s'', [(100, Some 4294967295); (200, Some 4294967295)]) /\ eip s'' = 300.
Proof.
  destruct (forked_thread_runs code extern 4096 64 8192 100 300 returns_at_once 2000 262144 200 (-1) fresh)
    as (m' & E & _ & H).
  - settle.
  - settle.
  - intros s [pc Hpc]. exact (returns_at_once_ok _ s pc Hpc).
  - split; settle.
  - assert (Em : m' = prepared) by exact (result_is ∅ _ _ E). subst m'. split; [exact E|].
    destruct (H 1000 500 forking) as (sf & E33 & _ & _ & Hf).
    + split; settle.
    + settle.
    + intros a Ha. exact Ha.
    + intros r (_ & _ & _ & _ & _ & _ & _ & Hsp). split; [split|]; unfold own; rewrite ?Hsp; settle.
    + apply (result_is (forking, [])), (f_equal fst) in E33. change (sf = in_func) in E33. subst sf.
      destruct (returns_at_once_ok [8] in_func 8197) as (s' & Es' & Hs'); [settle|].
      destruct (Hf returns_at_once s' ltac:(settle) Es' Hs') as (s'' & E35 & E3).
      exists s''. split; [exact E35|exact E3].
Defined.

End I386.
