(* ===== verification/ContextSwitchRisc.v ===== *)
(** * The context switch on load/store hosts

    threads/switch.c and threads/switch.h for the DEC MIPS (HOST_MIPS) and the HP
    PA-RISC (HOST_SNAKE): [SWITCH], [ThreadRoot], and the part of
    [Thread::StackAllocate] of threads/thread.cc for these hosts.  The two routines
    store the registers that a callee must keep, and load those of the other
    thread; the proof is one for both, over the list of the registers with their
    offsets.

    The MIPS assembler takes care of delay slots; on the PA-RISC they are written
    out, and a branch is modelled together with the instruction in its slot. *)

From S2P Require Import Prelude ContextSwitch.

Local Open Scope Z_scope.

Module Risc.

(** ** The processor *)

Inductive simple :=
| sw (r : nat) (off : Z) (base : nat)      (* sw r, off(base); stw r, off(base) *)
| lw (r : nat) (off : Z) (base : nat)      (* lw r, off(base); ldw off(base), r *)
| move (d r : nat).                        (* move d, r; or r, 0, d *)

Inductive insn :=
| I (i : simple)
| jr (r : nat)                             (* j r *)
| jal (r : nat)                            (* jal r: the return address in $31 *)
| bv (r : nat) (slot : simple)             (* bv 0(r) and its delay slot *)
| ble (r : nat) (slot : simple).           (* ble 0(r) and its delay slot: the return address in %r31 *)

Record state := mkState { R : nat -> Z; pc : Z; M : memory }.

Definition upd (f : nat -> Z) (r : nat) (w : Z) : nat -> Z := fun x => if decide (x = r) then w else f x.

Definition exec1 (i : simple) (s : (nat -> Z) * memory) : outcome ((nat -> Z) * memory) :=
  let '(f, m) := s in
  match i with
  | sw r off base => m ← stw m (at_ (f base) off) (f r); Ok (f, m)
  | lw r off base => w ← ldw m (at_ (f base) off); Ok (upd f r w, m)
  | move d r => Ok (upd f d (f r), m)
  end.

Fixpoint execs (l : list simple) (s : (nat -> Z) * memory) : outcome ((nat -> Z) * memory) :=
  match l with [] => Ok s | i :: l' => s ← exec1 i s; execs l' s end.

(** The instruction at [pc s], the next one being at [next]. *)
Definition exec (i : insn) (next : Z) (s : state) : outcome state :=
  match i with
  | I i => '(f, m) ← exec1 i (R s, M s); Ok (mkState f next m)
  | jr r => Ok (mkState (R s) (R s r) (M s))
  | jal r => Ok (mkState (upd (R s) 31 next) (R s r) (M s))
  | bv r slot => '(f, m) ← exec1 slot (R s, M s); Ok (mkState f (R s r) m)
  | ble r slot => '(f, m) ← exec1 slot (upd (R s) 31 next, M s); Ok (mkState f (R s r) m)
  end.

(** ** The hosts *)

(** The offsets of threads/switch.h with the registers they are for, the first being
    that of the stack pointer; the registers of the arguments, of the return
    address, and those that [ThreadRoot] uses. *)
Record host := mkHost {
  saved : list (nat * Z);
  arg0 : nat; arg1 : nat; link : nat;
  InitialPC : nat; InitialArg : nat; WhenDonePC : nat; StartupPC : nat;
  PC : Z;
  SWITCH_code : list insn;
  ThreadRoot_code : list insn;
  stackTop0 : Z;           (* stackTop - stack, in words *)
  fence : Z;               (* where STACK_FENCEPOST is, in words *)
}.

Definition StackSize : Z := 4 * 1024 * 16.
Definition STACK_FENCEPOST : Z := 0xdeadbeef.

(** *** HOST_MIPS *)

Module Mips.
Definition a0 : nat := 4.
Definition a1 : nat := 5.
Definition s0 : nat := 16.
Definition s1 : nat := 17.
Definition s2 : nat := 18.
Definition s3 : nat := 19.
Definition s4 : nat := 20.
Definition s5 : nat := 21.
Definition s6 : nat := 22.
Definition s7 : nat := 23.
Definition sp : nat := 29.
Definition fp : nat := 30.
Definition ra : nat := 31.

Definition offsets : list (nat * Z) :=
  [(sp, 0); (s0, 4); (s1, 8); (s2, 12); (s3, 16); (s4, 20); (s5, 24); (s6, 28); (s7, 32); (fp, 36); (ra, 40)].

Definition ThreadRoot : list insn :=
  [I (move fp 0); jal s3; I (move a0 s1); jal s0; jal s2].

Definition SWITCH : list insn :=
  [I (sw sp 0 a0); I (sw s0 4 a0); I (sw s1 8 a0); I (sw s2 12 a0); I (sw s3 16 a0); I (sw s4 20 a0);
   I (sw s5 24 a0); I (sw s6 28 a0); I (sw s7 32 a0); I (sw fp 36 a0); I (sw ra 40 a0);
   I (lw sp 0 a1); I (lw s0 4 a1); I (lw s1 8 a1); I (lw s2 12 a1); I (lw s3 16 a1); I (lw s4 20 a1);
   I (lw s5 24 a1); I (lw s6 28 a1); I (lw s7 32 a1); I (lw fp 36 a1); I (lw ra 40 a1);
   jr ra].
End Mips.

Definition HOST_MIPS : host :=
  mkHost Mips.offsets Mips.a0 Mips.a1 Mips.ra Mips.s0 Mips.s1 Mips.s2 Mips.s3 40 Mips.SWITCH Mips.ThreadRoot (StackSize - 4) 0.

(** *** HOST_SNAKE: register [%rN] is [N], [%rp] is 2, [%sp] is 30, [%arg0] is 26, [%arg1] is 25 *)

Module Snake.
Definition offsets : list (nat * Z) :=
  [(30%nat, 0); (3%nat, 4); (4%nat, 8); (5%nat, 12); (6%nat, 16); (7%nat, 20); (8%nat, 24); (9%nat, 28); (10%nat, 32);
   (11%nat, 36); (12%nat, 40); (13%nat, 44); (14%nat, 48); (15%nat, 52); (16%nat, 56); (17%nat, 60); (18%nat, 64); (2%nat, 68)].

Definition ThreadRoot : list insn :=
  [ble 6 (move 2 31); I (move 26 4); ble 3 (move 2 31); ble 5 (move 2 31)].

Definition SWITCH : list insn :=
  [I (sw 30 0 26); I (sw 3 4 26); I (sw 4 8 26); I (sw 5 12 26); I (sw 6 16 26); I (sw 7 20 26); I (sw 8 24 26); I (sw 9 28 26);
   I (sw 10 32 26); I (sw 11 36 26); I (sw 12 40 26); I (sw 13 44 26); I (sw 14 48 26); I (sw 15 52 26); I (sw 16 56 26);
   I (sw 17 60 26); I (sw 18 64 26); I (sw 2 68 26);
   I (lw 30 0 25); I (lw 3 4 25); I (lw 4 8 25); I (lw 5 12 25); I (lw 6 16 25); I (lw 7 20 25); I (lw 8 24 25); I (lw 9 28 25);
   I (lw 10 32 25); I (lw 11 36 25); I (lw 12 40 25); I (lw 13 44 25); I (lw 14 48 25); I (lw 15 52 25); I (lw 16 56 25);
   I (lw 17 60 25); I (lw 2 68 25);
   bv 2 (lw 18 64 25)].
End Snake.

Definition HOST_SNAKE : host :=
  mkHost Snake.offsets 26 25 2 3 4 5 6 68 Snake.SWITCH Snake.ThreadRoot 16 (StackSize - 1).

Section hosts.
Context (h : host).

(** [machineState] follows [stackTop] in the thread; the macros of switch.h give the
    index of a register. *)
Definition offset_of (r : nat) : Z := match list_find (fun p => p.1 = r) (saved h) with Some (_, p) => p.2 | None => 0 end.

(** [Thread::StackAllocate] for a thread [t] with the array [stack]. *)
Definition StackAllocate (ThreadRoot InterruptEnable ThreadFinish t stack func arg : Z) (m : memory) : outcome memory :=
  let machineState i := at_ t (4 + 4 * i) in
  m ← stw m (at_ t 0) (at_ stack (4 * stackTop0 h));
  m ← stw m (at_ stack (4 * fence h)) STACK_FENCEPOST;
  m ← stw m (machineState (Z.quot (PC h) 4 - 1)) ThreadRoot;
  m ← stw m (machineState (Z.quot (offset_of (StartupPC h)) 4 - 1)) InterruptEnable;
  m ← stw m (machineState (Z.quot (offset_of (InitialPC h)) 4 - 1)) func;
  m ← stw m (machineState (Z.quot (offset_of (InitialArg h)) 4 - 1)) (u32 arg);
  stw m (machineState (Z.quot (offset_of (WhenDonePC h)) 4 - 1)) ThreadFinish.

(** ** Execution *)

Variable code : Z -> option (insn * Z).
Variable extern : Z -> option (state -> outcome state).

(** A call of a function of the kernel, with its first argument. *)
Definition event : Type := Z * Z.

Definition step (s : state) : outcome (state * list event) :=
  match extern (pc s) with
  | Some f => s' ← f s; Ok (s', [(pc s, R s (arg0 h))])
  | None =>
      match code (pc s) with
      | Some (i, next) => s' ← exec i next s; Ok (s', [])
      | None => Fault BadAccess
      end
  end.

Fixpoint run (n : nat) (s : state) : outcome (state * list event) :=
  match n with
  | O => Ok (s, [])
  | S n' => '(s, e) ← step s; '(s, es) ← run n' s; Ok (s, e ++ es)
  end.

Fixpoint placed (a : Z) (l : list insn) : Prop :=
  match l with
  | [] => True
  | i :: l' => exists b, extern a = None /\ code a = Some (i, b) /\ placed b l'
  end.

Lemma risc_run_app n k s s1 es1 s2 es2 :
  run n s = Ok (s1, es1) -> run k s1 = Ok (s2, es2) -> run (n + k) s = Ok (s2, es1 ++ es2).
Proof.
  revert s es1. induction n as [|n IH]; intros s es1; cbn [run Nat.add].
  - intros [= -> <-]. done.
  - intros E Ek. destruct (step s) as [[s' e]|]; cbn [mbind outcome_bind] in *; [|done].
    destruct (run n s') as [[s'' es]|] eqn:En; cbn [mbind outcome_bind] in *; [|done].
    injection E as -> <-. rewrite (IH _ _ En Ek). cbn [mbind outcome_bind]. by rewrite app_assoc.
Qed.

Lemma run_insn a i l s s' : placed a (i :: l) -> pc s = a -> (forall b, exec i b s = Ok (s' b)) ->
  exists b, placed b l /\ run 1 s = Ok (s' b, []).
Proof. intros (b & He & Hc & Hp) Hs E. exists b. split; [done|]. cbn [run]. unfold step. by rewrite Hs, He, Hc, E. Qed.

(** Instructions without jumps. *)
Lemma run_execs l l' : forall a s f m, placed a ((I <$> l) ++ l') -> pc s = a -> execs l (R s, M s) = Ok (f, m) ->
  exists b, placed b l' /\ run (length l) s = Ok (mkState f b m, []).
Proof.
  induction l as [|i l IH]; intros a s f m Hp Hs Hm; cbn [fmap list_fmap app execs length] in *.
  - exists a. split; [done|]. cbn [run]. destruct s; cbn in *. by simplify_eq.
  - destruct (exec1 i (R s, M s)) as [[f1 m1]|] eqn:E; cbn [mbind outcome_bind] in Hm; [|done].
    destruct (run_insn a (I i) ((I <$> l) ++ l') s (fun b => mkState f1 b m1) Hp Hs) as (b & Hb & Hr).
    { intros b. cbn [exec]. by rewrite E. }
    destruct (IH b (mkState f1 b m1) f m Hb eq_refl Hm) as (c & Hc & Hn). exists c. split; [done|].
    exact (risc_run_app 1 (length l) s _ [] _ [] Hr Hn).
Qed.

Lemma execs_app l l' s : execs (l ++ l') s = (s ← execs l s; execs l' s).
Proof.
  revert s. induction l as [|i l IH]; intros s; [done|]. cbn [app execs]. destruct (exec1 i s); cbn [mbind outcome_bind]; [apply IH|done].
Qed.

(** *** Saving and restoring *)

Definition stores (base : nat) (l : list (nat * Z)) : list simple := (fun p => sw p.1 p.2 base) <$> l.
Definition loads (base : nat) (l : list (nat * Z)) : list simple := (fun p => lw p.1 p.2 base) <$> l.

Fixpoint save (l : list (nat * Z)) (t : Z) (f : nat -> Z) (m : memory) : memory :=
  match l with [] => m | (r, o) :: l' => save l' t f (<[at_ t o := f r]> m) end.

Definition area (t : Z) : list Z := (fun p => at_ t p.2) <$> saved h.

(** The registers [f] are saved in [t]. *)
Definition parked_by (l : list (nat * Z)) (t : Z) (f : nat -> Z) (m : memory) : Prop :=
  forall p, p ∈ l -> m !! at_ t p.2 = Some (f p.1).
Definition parked := parked_by (saved h).

Lemma stores_ok base f l : forall m, Forall (mapped m) ((fun p => at_ (f base) p.2) <$> l) ->
  execs (stores base l) (f, m) = Ok (f, save l (f base) f m).
Proof.
  induction l as [|[r o] l IH]; intros m Hm; [done|]. cbn [fmap list_fmap fst snd] in Hm. apply Forall_cons_1 in Hm as [H1 H2].
  unfold stores. cbn [fmap list_fmap execs exec1 fst snd]. rewrite stw_ok by done. cbn [mbind outcome_bind save]. apply IH.
  eapply Forall_impl; [|exact H2]. intros a Ha. by apply mapped_insert.
Qed.

Lemma risc_save_other l t f : forall m a, (forall p, p ∈ l -> at_ t p.2 <> a) -> save l t f m !! a = m !! a.
Proof.
  induction l as [|[r o] l IH]; intros m a Ha; [done|]. cbn [save].
  rewrite IH by (intros p Hp; apply Ha; by right). apply lookup_insert_ne. apply (Ha (r, o)). by left.
Qed.

Lemma save_parks l t f : NoDup l.*2 -> Forall (fun o => 0 <= o < 2 ^ 32) l.*2 -> forall m, parked_by l t f (save l t f m).
Proof.
  induction l as [|[r o] l IH]; intros Hn Hr m p Hp; [by apply elem_of_nil in Hp|]. cbn [save fmap list_fmap fst snd] in *.
  apply list.NoDup_cons in Hn as [Hno Hn]. apply Forall_cons_1 in Hr as [Ho Hr]. apply elem_of_cons in Hp as [->|Hp]; [|by apply IH].
  rewrite risc_save_other; [apply lookup_insert_eq|]. intros p Hp E. cbn [snd] in E.
  assert (Hin : p.2 ∈ l.*2) by (by apply list_elem_of_fmap_2). rewrite list.Forall_forall in Hr. specialize (Hr _ Hin).
  apply at_inj in E; [|lia]. by rewrite E in Hin.
Qed.

Lemma loads_ok base f2 l : base ∉ l.*1 -> NoDup l.*1 -> forall f m, parked_by l (f base) f2 m ->
  exists f', execs (loads base l) (f, m) = Ok (f', m) /\ (forall r, r ∈ l.*1 -> f' r = f2 r) /\ (forall r, r ∉ l.*1 -> f' r = f r).
Proof.
  induction l as [|[r o] l IH]; intros Hb Hn f m Hp.
  { exists f. split; [done|]. split; [|done]. intros r Hr. by apply elem_of_nil in Hr. }
  unfold loads. cbn [fmap list_fmap execs exec1 fst snd] in *.
  apply list.NoDup_cons in Hn as [Hnr Hn]. rewrite not_elem_of_cons in Hb. destruct Hb as [Hbr Hb].
  rewrite (ldw_ok _ _ (f2 r)) by (apply (Hp (r, o)); by left). cbn [mbind outcome_bind].
  assert (Eb : upd f r (f2 r) base = f base) by (unfold upd; by rewrite decide_False).
  destruct (IH Hb Hn (upd f r (f2 r)) m) as (f' & E & H1 & H2).
  { intros p Hin. rewrite Eb. apply Hp. by right. }
  exists f'. split; [exact E|]. split.
  - intros x Hx. apply elem_of_cons in Hx as [->|Hx]; [|by apply H1]. rewrite H2 by done. unfold upd. by rewrite decide_True.
  - intros x Hx. rewrite not_elem_of_cons in Hx. destruct Hx as [Hx Hxl]. rewrite H2 by done. unfold upd. by rewrite decide_False.
Qed.

(** ** [SWITCH] *)

(** What [SWITCH] is on a host: the stores of the first thread, the loads of the
    second, and the jump, which may have the last of the loads in its slot. *)
Record switch_shape : Prop := {
  h_shape : SWITCH_code h = (I <$> (stores (arg0 h) (saved h) ++ loads (arg1 h) (saved h))) ++ [jr (link h)] \/
    exists l p, saved h ≡ₚ p :: l /\ p.1 <> link h /\
      SWITCH_code h = (I <$> (stores (arg0 h) (saved h) ++ loads (arg1 h) l)) ++ [bv (link h) (lw p.1 p.2 (arg1 h))];
  h_regs : NoDup (saved h).*1;
  h_offsets : NoDup (saved h).*2;
  h_small : Forall (fun o => 0 <= o < 2 ^ 32) (saved h).*2;
  h_arg1 : arg1 h ∉ (saved h).*1;
  h_link : link h ∈ (saved h).*1 }.

Context (Hsh : switch_shape) (SWITCH : Z).

Record entered (t1 t2 : Z) (s : state) : Prop := {
  e_code : placed SWITCH (SWITCH_code h);
  e_pc : pc s = SWITCH;
  e_t1 : R s (arg0 h) = t1;
  e_t2 : R s (arg1 h) = t2;
  e_area : Forall (mapped (M s)) (area t1) }.

Definition resumed (f : nat -> Z) (s : state) : Prop := pc s = f (link h) /\ forall r, r ∈ (saved h).*1 -> R s r = f r.

Lemma parked_incl l l' t f m : l ⊆ l' -> parked_by l' t f m -> parked_by l t f m.
Proof. intros Hl Hp p Hin. apply Hp. by apply Hl. Qed.

Lemma risc_SWITCH_runs t1 t2 f2 s : entered t1 t2 s -> parked t2 f2 (save (saved h) t1 (R s) (M s)) ->
  exists s', run (length (SWITCH_code h)) s = Ok (s', []) /\ resumed f2 s' /\ M s' = save (saved h) t1 (R s) (M s).
Proof.
  intros [Hc Hpc <- <- Ha] Hp. set (m1 := save (saved h) (R s (arg0 h)) (R s) (M s)) in *.
  pose proof (stores_ok (arg0 h) (R s) (saved h) (M s) Ha) as Es.
  destruct (h_shape Hsh) as [Eq|(l & p & Hperm & Hlk & Eq)]; rewrite Eq in *.
  - destruct (loads_ok (arg1 h) f2 (saved h) (h_arg1 Hsh) (h_regs Hsh) (R s) m1 Hp) as (f' & El & Hf & _).
    assert (Ee : execs (stores (arg0 h) (saved h) ++ loads (arg1 h) (saved h)) (R s, M s) = Ok (f', m1)) by (by rewrite execs_app, Es).
    destruct (run_execs _ [jr (link h)] SWITCH s f' m1 Hc Hpc Ee) as (b & Hb & Hr).
    destruct (run_insn b (jr (link h)) [] (mkState f' b m1) (fun _ => mkState f' (f' (link h)) m1) Hb eq_refl ltac:(done)) as (b' & _ & Hj).
    eexists. split; [rewrite length_app, length_fmap; exact (risc_run_app _ 1 s _ [] _ [] Hr Hj)|]. split; [|done].
    split; [cbn; apply Hf, (h_link Hsh)|exact Hf].
  - assert (Hn1 : NoDup (p.1 :: l.*1)) by (pose proof (h_regs Hsh) as Hn; by rewrite Hperm in Hn).
    assert (Ha1 : arg1 h ∉ p.1 :: l.*1) by (pose proof (h_arg1 Hsh) as Hn; by rewrite Hperm in Hn).
    apply list.NoDup_cons in Hn1 as [Hpl Hnl]. rewrite not_elem_of_cons in Ha1. destruct Ha1 as [Hap Hal].
    destruct (loads_ok (arg1 h) f2 l Hal Hnl (R s) m1) as (f' & El & Hf & Ho).
    { intros q Hq. apply Hp. rewrite Hperm. by right. }
    assert (Ee : execs (stores (arg0 h) (saved h) ++ loads (arg1 h) l) (R s, M s) = Ok (f', m1)) by (by rewrite execs_app, Es).
    destruct (run_execs _ _ SWITCH s f' m1 Hc Hpc Ee) as (b & Hb & Hr).
    assert (Elast : m1 !! at_ (f' (arg1 h)) p.2 = Some (f2 p.1)) by (rewrite Ho by done; apply Hp; rewrite Hperm; by left).
    destruct (run_insn b _ [] (mkState f' b m1) (fun _ => mkState (upd f' p.1 (f2 p.1)) (f' (link h)) m1) Hb eq_refl) as (b' & _ & Hj).
    { intros b0. cbn [exec exec1 R M]. by rewrite (ldw_ok _ _ _ Elast). }
    eexists. split; [rewrite length_app, length_fmap; exact (risc_run_app _ 1 s _ [] _ [] Hr Hj)|]. split; [|done]. split; cbn [pc R].
    + apply Hf. pose proof (h_link Hsh) as Hl. rewrite Hperm in Hl. by apply elem_of_cons in Hl as [Hl|Hl].
    + intros r Hin. rewrite Hperm in Hin. unfold upd. case_decide as E; [by rewrite E|]. apply Hf. by apply elem_of_cons in Hin as [Hin|Hin].
Qed.

(** The memory of two threads, apart. *)
Definition apart2 (t1 t2 : Z) : Prop := forall a, a ∈ area t2 -> a ∉ area t1.

Lemma save_area t f m a : a ∉ area t -> save (saved h) t f m !! a = m !! a.
Proof. intros Ha. apply risc_save_other. intros p Hp <-. apply Ha. apply list_elem_of_fmap. by exists p. Qed.

(** On these hosts, too, a thread that is switched away from resumes its caller with
    the registers that a callee must keep; [SWITCH] writes only the thread object. *)
Lemma risc_SWITCH_switches t1 t2 f2 s : entered t1 t2 s -> parked t2 f2 (M s) -> apart2 t1 t2 ->
  exists s', run (length (SWITCH_code h)) s = Ok (s', []) /\ resumed f2 s' /\ parked t1 (R s) (M s') /\
    (forall a, a ∉ area t1 -> M s' !! a = M s !! a).
Proof.
  intros He Hp Ha. destruct (risc_SWITCH_runs t1 t2 f2 s He) as (s' & E & Hr & Em).
  { intros p Hin. rewrite save_area; [by apply Hp|]. apply Ha. apply list_elem_of_fmap. by exists p. }
  exists s'. split; [done|]. split; [done|]. rewrite Em. split; [apply save_parks; [apply (h_offsets Hsh)|apply (h_small Hsh)]|].
  intros a Hin. by apply save_area.
Qed.

Theorem risc_thread_resumes t1 t2 f2 s1 : entered t1 t2 s1 -> parked t2 f2 (M s1) -> apart2 t1 t2 ->
  exists s1', run (length (SWITCH_code h)) s1 = Ok (s1', []) /\ resumed f2 s1' /\
    forall t3 s2, (forall a, a ∈ area t1 -> M s2 !! a = M s1' !! a) -> entered t3 t1 s2 -> apart2 t3 t1 ->
      exists s2', run (length (SWITCH_code h)) s2 = Ok (s2', []) /\ resumed (R s1) s2' /\ parked t3 (R s2) (M s2').
Proof.
  intros He Hp Ha. destruct (risc_SWITCH_switches t1 t2 f2 s1 He Hp Ha) as (s1' & E & Hr & Hp1 & _). exists s1'. split; [done|]. split; [done|].
  intros t3 s2 Hsame He2 Ha2. destruct (risc_SWITCH_switches t3 t1 (R s1) s2 He2) as (s2' & E2 & Hr2 & Hp3 & _); [|done|by exists s2'].
  intros p Hin. rewrite Hsame by (apply list_elem_of_fmap; by exists p). by apply Hp1.
Qed.

(** ** A new thread *)

(** A function returns to its return address and keeps the registers of its caller. *)
Definition returned (s s' : state) : Prop :=
  pc s' = R s (link h) /\ forall r, r ∈ (saved h).*1 -> r <> link h -> R s' r = R s r.

Variables ThreadRoot InterruptEnable ThreadFinish : Z.

(** [ThreadRoot] on a host: it calls [InterruptEnable] and the function [func], with
    [arg], and if that returns, [ThreadFinish]. *)
Definition root_works : Prop :=
  forall fE s func arg, placed ThreadRoot (ThreadRoot_code h) ->
    extern InterruptEnable = Some fE -> (forall s, exists s', fE s = Ok s' /\ returned s s') ->
    pc s = ThreadRoot -> R s (StartupPC h) = InterruptEnable -> R s (InitialPC h) = func ->
    R s (InitialArg h) = arg -> R s (WhenDonePC h) = ThreadFinish ->
    exists n x sf, run n s = Ok (sf, [(InterruptEnable, x)]) /\ pc sf = func /\ R sf (arg0 h) = arg /\
      forall f s', extern func = Some f -> f sf = Ok s' -> returned sf s' ->
        exists s'', run 2 sf = Ok (s'', [(func, arg)]) /\ pc s'' = ThreadFinish.

(** The call of a function of the kernel. *)
Lemma run_extern f s s' : extern (pc s) = Some f -> f s = Ok s' -> run 1 s = Ok (s', [(pc s, R s (arg0 h))]).
Proof. intros Hx E. cbn [run]. unfold step. by rewrite Hx, E. Qed.

End hosts.

(** ** The hosts have the shape *)

Lemma mips_shape : switch_shape HOST_MIPS.
Proof.
  split; [left; reflexivity|..]; apply (bool_decide_unpack _); vm_compute; exact Logic.I.
Qed.

Lemma snake_shape : switch_shape HOST_SNAKE.
Proof.
  split; [right|..]; [|apply (bool_decide_unpack _); vm_compute; exact Logic.I..].
  exists (filter (fun p => p.1 <> 18%nat) Snake.offsets), (18%nat, 64). split; [apply (bool_decide_unpack _); vm_compute; exact Logic.I|].
  split; [done|reflexivity].
Qed.

(** ** [ThreadRoot] works *)

(** A register that the caller keeps, after a call. *)
Ltac kept H r := rewrite (H r) by (apply (bool_decide_unpack _); vm_compute; exact Logic.I).

Lemma mips_root code extern ThreadRoot InterruptEnable ThreadFinish :
  root_works HOST_MIPS code extern ThreadRoot InterruptEnable ThreadFinish.
Proof.
  intros fE s func arg Hp HE Hf Hpc Hst Hin Harg Hwd. cbn [HOST_MIPS ThreadRoot_code StartupPC InitialPC InitialArg WhenDonePC arg0] in *.
  destruct (run_insn HOST_MIPS code extern ThreadRoot _ _ s (fun b => mkState (upd (R s) Mips.fp (R s 0%nat)) b (M s)) Hp Hpc ltac:(done)) as (b1 & Hp1 & R1).
  set (s1 := mkState _ b1 _) in R1.
  destruct (run_insn HOST_MIPS code extern b1 _ _ s1 (fun b => mkState (upd (R s1) 31 b) (R s1 Mips.s3) (M s1)) Hp1 eq_refl ltac:(done)) as (b2 & Hp2 & R2).
  set (s2 := mkState _ (R s1 Mips.s3) _) in R2. assert (E2 : pc s2 = InterruptEnable) by done.
  destruct (Hf s2) as (s3 & E3 & Hpc3 & Hk3). pose proof (run_extern HOST_MIPS code extern fE s2 s3 ltac:(by rewrite E2) E3) as R3. rewrite E2 in R3.
  destruct (run_insn HOST_MIPS code extern b2 _ _ s3 (fun b => mkState (upd (R s3) Mips.a0 (R s3 Mips.s1)) b (M s3)) Hp2 Hpc3 ltac:(done)) as (b4 & Hp4 & R4).
  set (s4 := mkState _ b4 _) in R4.
  destruct (run_insn HOST_MIPS code extern b4 _ _ s4 (fun b => mkState (upd (R s4) 31 b) (R s4 Mips.s0) (M s4)) Hp4 eq_refl ltac:(done)) as (b5 & Hp5 & R5).
  set (sf := mkState _ (R s4 Mips.s0) _) in R5.
  assert (Ef : pc sf = func) by (change (R s3 Mips.s0 = func); kept Hk3 Mips.s0; exact Hin).
  assert (Ea : R sf Mips.a0 = arg) by (change (R s3 Mips.s1 = arg); kept Hk3 Mips.s1; exact Harg).
  assert (Ew : R sf Mips.s2 = ThreadFinish) by (change (R s3 Mips.s2 = ThreadFinish); kept Hk3 Mips.s2; exact Hwd).
  exists 5%nat, (R s2 Mips.a0), sf. split; [|split; [exact Ef|split; [exact Ea|]]].
  - exact (risc_run_app HOST_MIPS code extern 1 4 s s1 [] sf _ R1 (risc_run_app HOST_MIPS code extern 1 3 s1 s2 [] sf _ R2
      (risc_run_app HOST_MIPS code extern 1 2 s2 s3 [(InterruptEnable, _)] sf [] R3 (risc_run_app HOST_MIPS code extern 1 1 s3 s4 [] sf [] R4 R5)))).
  - intros f s' Hx Es' [Hpc' Hk']. rewrite <- Ef in Hx. pose proof (run_extern HOST_MIPS code extern f sf s' Hx Es') as R6.
    destruct (run_insn HOST_MIPS code extern b5 _ _ s' (fun b => mkState (upd (R s') 31 b) (R s' Mips.s2) (M s')) Hp5 Hpc' ltac:(done)) as (b6 & _ & R7).
    eexists. split; [rewrite <- Ef, <- Ea; exact (risc_run_app HOST_MIPS code extern 1 1 sf s' [_] _ [] R6 R7)|].
    change (R s' Mips.s2 = ThreadFinish). kept Hk' Mips.s2. exact Ew.
Qed.

Lemma snake_root code extern ThreadRoot InterruptEnable ThreadFinish :
  root_works HOST_SNAKE code extern ThreadRoot InterruptEnable ThreadFinish.
Proof.
  intros fE s func arg Hp HE Hf Hpc Hst Hin Harg Hwd. cbn [HOST_SNAKE ThreadRoot_code StartupPC InitialPC InitialArg WhenDonePC arg0] in *.
  set (called := fun (s : state) r b => mkState (upd (upd (R s) 31 b) 2 (upd (R s) 31 b 31%nat)) (R s r) (M s)).
  destruct (run_insn HOST_SNAKE code extern ThreadRoot _ _ s (called s 6%nat) Hp Hpc ltac:(done)) as (b1 & Hp1 & R1).
  set (s1 := called s 6%nat b1) in R1. assert (E1 : pc s1 = InterruptEnable) by done.
  destruct (Hf s1) as (s2 & E2 & Hpc2 & Hk2). pose proof (run_extern HOST_SNAKE code extern fE s1 s2 ltac:(by rewrite E1) E2) as R2. rewrite E1 in R2.
  destruct (run_insn HOST_SNAKE code extern b1 _ _ s2 (fun b => mkState (upd (R s2) 26 (R s2 4%nat)) b (M s2)) Hp1 Hpc2 ltac:(done)) as (b3 & Hp3 & R3).
  set (s3 := mkState _ b3 _) in R3.
  destruct (run_insn HOST_SNAKE code extern b3 _ _ s3 (called s3 3%nat) Hp3 eq_refl ltac:(done)) as (b4 & Hp4 & R4).
  set (sf := called s3 3%nat b4) in R4.
  assert (Ef : pc sf = func) by (change (R s2 3%nat = func); kept Hk2 3%nat; exact Hin).
  assert (Ea : R sf 26%nat = arg) by (change (R s2 4%nat = arg); kept Hk2 4%nat; exact Harg).
  assert (Ew : R sf 5%nat = ThreadFinish) by (change (R s2 5%nat = ThreadFinish); kept Hk2 5%nat; exact Hwd).
  exists 4%nat, (R s1 26%nat), sf. split; [|split; [exact Ef|split; [exact Ea|]]].
  - exact (risc_run_app HOST_SNAKE code extern 1 3 s s1 [] sf _ R1 (risc_run_app HOST_SNAKE code extern 1 2 s1 s2 [(InterruptEnable, _)] sf [] R2
      (risc_run_app HOST_SNAKE code extern 1 1 s2 s3 [] sf [] R3 R4))).
  - intros f s' Hx Es' [Hpc' Hk']. rewrite <- Ef in Hx. pose proof (run_extern HOST_SNAKE code extern f sf s' Hx Es') as R6.
    destruct (run_insn HOST_SNAKE code extern b4 _ _ s' (called s' 5%nat) Hp4 Hpc' ltac:(done)) as (b6 & _ & R7).
    eexists. split; [rewrite <- Ef, <- Ea; exact (risc_run_app HOST_SNAKE code extern 1 1 sf s' [_] _ [] R6 R7)|].
    change (R s' 5%nat = ThreadFinish). kept Hk' 5%nat. exact Ew.
Qed.

(** ** [StackAllocate] parks a new thread *)

(** The registers of a thread as they are saved. *)
Definition saved_regs (h : host) (t : Z) (m : memory) : nat -> Z := fun r => default 0 (m !! at_ t (offset_of h r)).

Definition roomy (h : host) (t stack : Z) (m : memory) : Prop :=
  Forall (mapped m) (area h t) /\ mapped m (at_ stack (4 * fence h)) /\ at_ stack (4 * fence h) ∉ area h t.

Definition allocates (h : host) : Prop :=
  forall TR IE TF t stack func arg m, roomy h t stack m ->
    exists m', StackAllocate h TR IE TF t stack func arg m = Ok m' /\ (forall a, mapped m a -> mapped m' a) /\
      parked h t (saved_regs h t m') m' /\ m' !! at_ stack (4 * fence h) = Some STACK_FENCEPOST /\
      saved_regs h t m' (link h) = TR /\ saved_regs h t m' (StartupPC h) = IE /\ saved_regs h t m' (InitialPC h) = func /\
      saved_regs h t m' (InitialArg h) = u32 arg /\ saved_regs h t m' (WhenDonePC h) = TF.

(** Each register is found at its offset. *)
Lemma offset_ok h p : NoDup (saved h).*1 -> p ∈ saved h -> offset_of h p.1 = p.2.
Proof.
  intros Hn Hp. unfold offset_of. destruct (list_find _ _) as [[k q]|] eqn:E.
  - apply list_find_Some in E as (Hk & Hq & _). apply list_elem_of_lookup in Hp as [k' Hk'].
    assert (k = k') as ->; [|congruence].
    apply (list.NoDup_lookup (saved h).*1 k k' p.1 Hn); rewrite list_lookup_fmap; [rewrite Hk|rewrite Hk']; cbn; congruence.
  - apply list_find_None in E. rewrite list.Forall_forall in E. by destruct (E p Hp).
Qed.

Lemma parked_saved_regs h t m : NoDup (saved h).*1 -> Forall (mapped m) (area h t) -> parked h t (saved_regs h t m) m.
Proof.
  intros Hn Hm p Hp. unfold saved_regs. rewrite (offset_ok h p Hn Hp). rewrite list.Forall_forall in Hm.
  destruct (Hm (at_ t p.2)) as [w ->]; [|done]. apply list_elem_of_fmap. by exists p.
Qed.

Ltac apart H := unfold area in H; cbn [saved HOST_MIPS HOST_SNAKE Mips.offsets Snake.offsets fmap list_fmap fst snd] in H;
  rewrite ?not_elem_of_cons in H; destruct_and? H.
Ltac found := unfold saved_regs;
  repeat match goal with |- context [offset_of ?h ?r] => let v := eval vm_compute in (offset_of h r) in change (offset_of h r) with v end;
  repeat (rewrite lookup_insert_ne by (first [assumption | apply not_eq_sym; assumption | offsets]));
  rewrite lookup_insert_eq; reflexivity.

Ltac allocate h Hsh :=
  intros TR IE TF t stack func arg m (Ha & Hf & Hn); pose proof Ha as Ha'; apart Hn;
  unfold area in Ha'; cbn [saved HOST_MIPS HOST_SNAKE Mips.offsets Snake.offsets fmap list_fmap fst snd] in Ha';
  repeat (apply Forall_cons_1 in Ha' as [? Ha']);
  unfold StackAllocate;
  repeat match goal with |- context [at_ t (4 + 4 * ?i)] => let v := eval vm_compute in (4 + 4 * i) in change (4 + 4 * i) with v end;
  repeat (rewrite stw_ok by (repeat apply mapped_insert; assumption); cbn [mbind outcome_bind]);
  eexists; split; [reflexivity|];
  let Hup := fresh "Hup" in
  match goal with |- (forall a, mapped m a -> mapped ?x a) /\ _ => assert (Hup : forall a, mapped m a -> mapped x a) by (intros a Hx; by repeat apply mapped_insert) end;
  split; [exact Hup|];
  split; [apply parked_saved_regs; [exact (h_regs h Hsh)|eapply Forall_impl; [|exact Ha]; intros a Hx; by apply Hup]|].

Lemma mips_allocates : allocates HOST_MIPS.
Proof. allocate HOST_MIPS mips_shape. split_and!; found. Qed.

Lemma snake_allocates : allocates HOST_SNAKE.
Proof. allocate HOST_SNAKE snake_shape. split_and!; found. Qed.

(** ** What the kernel relies on *)

(** A port of the context switch to a host. *)
Class Ported (h : host) := {
  ported_switch : switch_shape h;
  ported_root : forall code extern ThreadRoot InterruptEnable ThreadFinish, root_works h code extern ThreadRoot InterruptEnable ThreadFinish;
  ported_stack : allocates h;
  ported_regs : Forall (fun r => r ∈ (saved h).*1) [StartupPC h; InitialPC h; InitialArg h; WhenDonePC h] }.

#[export] Instance mips_ported : Ported HOST_MIPS.
Proof.
  split; [exact mips_shape|exact mips_root|exact mips_allocates|]. apply (bool_decide_unpack _); vm_compute; exact Logic.I.
Qed.

#[export] Instance snake_ported : Ported HOST_SNAKE.
Proof.
  split; [exact snake_shape|exact snake_root|exact snake_allocates|]. apply (bool_decide_unpack _); vm_compute; exact Logic.I.
Qed.

Section ported.
Context (h : host) {Hh : Ported h} (code : Z -> option (insn * Z)) (extern : Z -> option (state -> outcome state)).
Context (SWITCH ThreadRoot InterruptEnable ThreadFinish : Z).

(** A thread that [StackAllocate] prepared starts when it is first switched to:
    [SWITCH] jumps to [ThreadRoot], which enables interrupts and calls the function of
    the thread with its argument, and if that returns, [ThreadFinish]. *)
Theorem risc_forked_thread_runs fE t stack func arg m :
  placed code extern ThreadRoot (ThreadRoot_code h) ->
  extern InterruptEnable = Some fE -> (forall s, exists s', fE s = Ok s' /\ returned h s s') ->
  roomy h t stack m ->
  exists m', StackAllocate h ThreadRoot InterruptEnable ThreadFinish t stack func arg m = Ok m' /\
    m' !! at_ stack (4 * fence h) = Some STACK_FENCEPOST /\
    forall t1 s, entered h code extern SWITCH t1 t s -> apart2 h t1 t -> (forall a, a ∈ area h t -> M s !! a = m' !! a) ->
      exists n x sf, run h code extern n s = Ok (sf, [(InterruptEnable, x)]) /\ pc sf = func /\ R sf (arg0 h) = u32 arg /\
        forall f s', extern func = Some f -> f sf = Ok s' -> returned h sf s' ->
          exists s'', run h code extern (n + 2) s = Ok (s'', [(InterruptEnable, x); (func, u32 arg)]) /\ pc s'' = ThreadFinish.
Proof.
  intros Hroot HE Hf Hroom. destruct (ported_stack ThreadRoot InterruptEnable ThreadFinish t stack func arg m Hroom)
    as (m' & Em & _ & Hp & Hfence & Hlink & Hst & Hin & Harg & Hwd).
  exists m'. split; [done|]. split; [done|]. intros t1 s He Ha Hsame. set (f2 := saved_regs h t m') in *.
  assert (Hps : parked h t f2 (M s)).
  { intros p Hi. rewrite Hsame by (apply list_elem_of_fmap; by exists p). by apply Hp. }
  destruct (risc_SWITCH_switches h code extern ported_switch SWITCH t1 t f2 s He Hps Ha) as (s1 & E1 & [Hpc1 Hr1] & _).
  pose proof ported_regs as Hregs. rewrite list.Forall_forall in Hregs.
  destruct (ported_root code extern ThreadRoot InterruptEnable ThreadFinish fE s1 func (u32 arg) Hroot HE Hf) as (n & x & sf & En & Hpcf & Haf & Hdone).
  1: congruence.
  1-4: rewrite Hr1; [assumption|apply Hregs; rewrite !elem_of_cons; tauto].
  exists (length (SWITCH_code h) + n)%nat, x, sf. split; [exact (risc_run_app h code extern _ _ _ _ [] _ _ E1 En)|].
  split; [done|]. split; [done|]. intros f s' Hx Es' Hret. destruct (Hdone f s' Hx Es' Hret) as (s'' & E2 & Hpc''). exists s''. split; [|done].
  rewrite <- Nat.add_assoc. exact (risc_run_app h code extern _ _ _ _ [] _ _ E1 (risc_run_app h code extern _ _ _ _ _ _ _ En E2)).
Qed.

End ported.

(** ** An execution *)

(** [SWITCH] at 4096, [ThreadRoot] at 8192; [InterruptEnable] at 100 and a function at 200,
    which return at once, and [ThreadFinish] at 300.  A thread at 1000 switches to a new
    one at 2000, with its stack at 262144. *)
Definition at_base (base : Z) (l : list insn) (a : Z) : option (insn * Z) :=
  if base <=? a then (fun i => (i, a + 4)) <$> l !! Z.to_nat ((a - base) / 4) else None.

Definition code_of (h : host) (a : Z) : option (insn * Z) :=
  if a <? 8192 then at_base 4096 (SWITCH_code h) a else at_base 8192 (ThreadRoot_code h) a.

Definition extern_of (h : host) (a : Z) : option (state -> outcome state) :=
  if bool_decide (a ∈ [100; 200]) then Some (fun s => Ok (mkState (R s) (R s (link h)) (M s))) else None.

Definition blank (h : host) : memory :=
  list_to_map ((fun a => (a, 0)) <$> (area h 1000 ++ area h 2000 ++ [at_ 262144 (4 * fence h)])).

Definition calls (h : host) (n : nat) : outcome (Z * list event) :=
  m ← StackAllocate h 8192 100 300 2000 262144 200 (-1) (blank h);
  '(s, es) ← run h (code_of h) (extern_of h) n (mkState (upd (upd (fun r => Z.of_nat r) (arg0 h) 1000) (arg1 h) 2000) 4096 m);
  Ok (pc s, es).

Example mips_new_thread : calls HOST_MIPS 30 = Ok (300, [(100, 1000); (200, 4294967295)]).
Proof. vm_compute. reflexivity. Qed.

Example snake_new_thread : calls HOST_SNAKE 42 = Ok (300, [(100, 1000); (200, 4294967295)]).
Proof. vm_compute. reflexivity. Qed.

End Risc.
