(* ===== verification/Threads.v ===== *)
(** * threads/{thread,scheduler,synch}.{h,cc}: threads, the ready list, semaphores

    [Kernel.t] holds the thread control blocks, the ready list, the semaphores
    and [currentThread].  The lists are sequences of thread numbers, which is
    what [Lists.v] shows class [List] to be.  Kernel code runs with interrupts
    off from the moment it touches these structures until it lets a thread
    continue, so each operation of a thread is one step of the model: it ends
    when some thread is back in its own code, or the CPU idles.

    [SWITCH] leaves a thread inside the kernel routine that gave up the CPU;
    [resume] says which one, and [Run] goes on from there: a thread that was
    woken in [Semaphore::P] tests the value again, and may go back to sleep. *)

From S2P Require Import Prelude.

Local Open Scope Z_scope.

Module Kernel.

Inductive ThreadStatus := JUST_CREATED | RUNNING | READY | BLOCKED.

#[export] Instance ThreadStatus_eq_dec : EqDecision ThreadStatus.
Proof. solve_decision. Defined.

(** Where a thread continues when it is given the CPU: at [ThreadRoot], at the
    end of [Yield], in the loop of [P] on a semaphore, or after the call of
    [Sleep] in [Finish], a place the code marks "not reached". *)
Inductive resume_point := AtThreadRoot | InYield | InP (sem : Z) | InFinish.

#[export] Instance resume_point_eq_dec : EqDecision resume_point.
Proof. solve_decision. Defined.

Record Thread := mkThread {
  status : ThreadStatus;
  stack : option Z;         (* the word at the bottom of the stack, None for the main thread *)
  resume : resume_point;
}.

Record Semaphore := mkSem {
  value : Z;
  queue : list Z;
}.

Record t := mk {
  threads : gmap Z Thread;
  readyList : list Z;
  currentThread : Z;
  idle : bool;                        (* in Interrupt::Idle: no thread to run *)
  threadToBeDestroyed : option Z;
  sems : gmap Z Semaphore;
}.

Definition STACK_FENCEPOST : Z := 0xdeadbeef.

(** ** Updates *)

Definition set_threads (s : t) (ts : gmap Z Thread) : t :=
  mk ts (readyList s) (currentThread s) (idle s) (threadToBeDestroyed s) (sems s).
Definition set_ready (s : t) (l : list Z) : t :=
  mk (threads s) l (currentThread s) (idle s) (threadToBeDestroyed s) (sems s).
Definition set_sem (s : t) (i : Z) (x : Semaphore) : t :=
  mk (threads s) (readyList s) (currentThread s) (idle s) (threadToBeDestroyed s) (<[i := x]> (sems s)).
Definition set_idle (s : t) (b : bool) : t :=
  mk (threads s) (readyList s) (currentThread s) b (threadToBeDestroyed s) (sems s).

(** A pointer to a thread or a semaphore, null or freed being undefined. *)
Definition thread (s : t) (i : Z) : outcome Thread :=
  match threads s !! i with Some th => Ok th | None => Fault BadAccess end.
Definition sem (s : t) (i : Z) : outcome Semaphore :=
  match sems s !! i with Some x => Ok x | None => Fault BadAccess end.

Definition setStatus (s : t) (i : Z) (st : ThreadStatus) : outcome t :=
  th ← thread s i;
  Ok (set_threads s (<[i := mkThread st (stack th) (resume th)]> (threads s))).

Definition set_resume (s : t) (i : Z) (r : resume_point) : outcome t :=
  th ← thread s i;
  Ok (set_threads s (<[i := mkThread (status th) (stack th) r]> (threads s))).

(** ** threads/scheduler.cc *)

Definition ReadyToRun (s : t) (i : Z) : outcome t :=
  s ← setStatus s i READY;
  Ok (set_ready s (readyList s ++ [i])).

Definition FindNextToRun (s : t) : option Z * t :=
  match readyList s with
  | [] => (None, s)
  | i :: l => (Some i, set_ready s l)
  end.

Definition CheckOverflow (s : t) (i : Z) : outcome unit :=
  th ← thread s i;
  match stack th with
  | None => Ok tt
  | Some w => ASSERT (s32 w =? s32 STACK_FENCEPOST)
  end.

(** [delete threadToBeDestroyed] with [Thread::~Thread]. *)
Definition destroy (s : t) : outcome t :=
  match threadToBeDestroyed s with
  | None => Ok s
  | Some i =>
      _ ← ASSERT (negb (i =? currentThread s));
      Ok (mk (delete i (threads s)) (readyList s) (currentThread s) (idle s) None (sems s))
  end.

(** [Scheduler::Run] up to the point where [nextThread] continues.  A thread
    that was switched out before returns from its own call of [SWITCH] and
    executes the rest of [Run]; a new thread starts at [ThreadRoot] and does
    not, so the finished thread stays until the next switch to an old one. *)
Definition Run (s : t) (nextThread : Z) : outcome t :=
  _ ← CheckOverflow s (currentThread s);
  let s := mk (threads s) (readyList s) nextThread false (threadToBeDestroyed s) (sems s) in
  s ← setStatus s nextThread RUNNING;
  th ← thread s nextThread;
  match resume th with
  | AtThreadRoot => Ok s
  | InYield | InP _ | InFinish => destroy s
  end.

(** ** threads/thread.cc and threads/synch.cc *)

(** [Scheduler::Run] of thread [n], and what [n] does inside the kernel before
    it is back in its own code.  A thread in the loop of [P] takes the semaphore
    or, when the value is 0 again, calls [Append] and [Sleep], which lets the
    next ready thread run or idles.  [fuel] bounds the number of switches. *)
Fixpoint run_next (fuel : nat) (s : t) (n : Z) : outcome t :=
  match fuel with
  | O => Fault OutOfFuel
  | S fuel' =>
      s ← Run s n;
      th ← thread s n;
      match resume th with
      | AtThreadRoot | InYield => Ok s
      | InFinish => Fault BadAccess
      | InP i =>
          x ← sem s i;
          if value x =? 0 then
            let s := set_sem s i (mkSem (value x) (queue x ++ [currentThread s])) in
            s ← setStatus s (currentThread s) BLOCKED;
            match FindNextToRun s with
            | (None, s) => Ok (set_idle s true)
            | (Some n', s) => run_next fuel' s n'
            end
          else Ok (set_sem s i (mkSem (s32 (value x - 1)) (queue x)))
      end
  end.

(** Enough switches for every ready thread to be tried once. *)
Definition switches (s : t) : nat := S (length (readyList s)).

(** [Thread::Sleep] of the current thread; [idle] stands for the loop around
    [interrupt->Idle()]. *)
Definition Sleep (s : t) : outcome t :=
  s ← setStatus s (currentThread s) BLOCKED;
  match FindNextToRun s with
  | (None, s) => Ok (set_idle s true)
  | (Some n, s) => run_next (switches s) s n
  end.

(** [Semaphore::P] called by the current thread. *)
Definition P (s : t) (i : Z) : outcome t :=
  x ← sem s i;
  if value x =? 0 then
    s ← set_resume s (currentThread s) (InP i);
    Sleep (set_sem s i (mkSem (value x) (queue x ++ [currentThread s])))
  else Ok (set_sem s i (mkSem (s32 (value x - 1)) (queue x))).

(** [Semaphore::V], from a thread or from an interrupt handler. *)
Definition V (s : t) (i : Z) : outcome t :=
  x ← sem s i;
  match queue x with
  | th :: q =>
      s ← ReadyToRun (set_sem s i (mkSem (value x) q)) th;
      Ok (set_sem s i (mkSem (s32 (value x + 1)) q))
  | [] => Ok (set_sem s i (mkSem (s32 (value x + 1)) []))
  end.

(** [Semaphore::Semaphore] at a fresh address. *)
Definition Semaphore_new (s : t) (i initialValue : Z) : t := set_sem s i (mkSem initialValue []).

(** [new Thread] at a fresh address, and [Thread::Fork], which allocates the
    stack with its fence post and makes the thread ready. *)
Definition Thread_new (s : t) (i : Z) : t :=
  set_threads s (<[i := mkThread JUST_CREATED None AtThreadRoot]> (threads s)).
Definition StackAllocate (s : t) (i : Z) : outcome t :=
  th ← thread s i;
  Ok (set_threads s (<[i := mkThread (status th) (Some STACK_FENCEPOST) AtThreadRoot]> (threads s))).
Definition Fork (s : t) (i : Z) : outcome t :=
  s ← StackAllocate s i;
  ReadyToRun s i.

Definition Yield (s : t) : outcome t :=
  let self := currentThread s in
  match FindNextToRun s with
  | (None, s) => Ok s
  | (Some n, s) =>
      s ← ReadyToRun s self;
      s ← set_resume s self InYield;
      run_next (switches s) s n
  end.

Definition Finish (s : t) : outcome t :=
  s ← set_resume s (currentThread s) InFinish;
  Sleep (mk (threads s) (readyList s) (currentThread s) (idle s) (Some (currentThread s)) (sems s)).

(** The loop of [Sleep] when [Idle] returned because a handler made a thread
    ready. *)
Definition leave_idle (s : t) : outcome t :=
  match FindNextToRun s with
  | (None, s) => Ok s
  | (Some n, s) => run_next (switches s) s n
  end.

(** ** The transitions of the kernel *)

(** What can happen next: a kernel call of the running thread, a [V] from an
    interrupt handler, or the end of an idle period.  A semaphore starts with any
    [int]: the system call [CreateSemaphore] passes on what the program gives.  A
    thread is made by [new Thread] and started by a later call of [Fork]; the kernel
    forks a thread once. *)
Inductive step (s : t) : t -> Prop :=
| step_semaphore i v :
    sems s !! i = None -> is_s32 v -> idle s = false -> step s (Semaphore_new s i v)
| step_new i : threads s !! i = None -> idle s = false -> step s (Thread_new s i)
| step_fork i th s' :
    threads s !! i = Some th -> status th = JUST_CREATED -> idle s = false -> Fork s i = Ok s' -> step s s'
| step_yield s' : idle s = false -> Yield s = Ok s' -> step s s'
| step_P i s' : is_Some (sems s !! i) -> idle s = false -> P s i = Ok s' -> step s s'
| step_V i s' : is_Some (sems s !! i) -> V s i = Ok s' -> step s s'
| step_finish s' : idle s = false -> Finish s = Ok s' -> step s s'
| step_leave_idle s' : idle s = true -> leave_idle s = Ok s' -> step s s'.

(** The main thread, which threads/system.cc makes the running one. *)
Definition boot (main : Z) : t :=
  mk {[ main := mkThread RUNNING None AtThreadRoot ]} [] main false None ∅.

(** ** The invariant *)

Definition waits_for (s : t) (i k : Z) : Prop :=
  exists x, sems s !! k = Some x /\ i ∈ queue x.

(** Where a thread is, by its status. *)
Definition placed (s : t) (i : Z) (th : Thread) : Prop :=
  match status th with
  | JUST_CREATED => stack th = None /\ resume th = AtThreadRoot
  | RUNNING => i = currentThread s /\ idle s = false
  | READY => i ∈ readyList s
  | BLOCKED => (exists k, resume th = InP k /\ waits_for s i k) \/ resume th = InFinish
  end.

(** The structural part of the invariant. *)
Record core (s : t) : Prop := {
  c_placed i th : threads s !! i = Some th -> placed s i th;
  c_ready i : i ∈ readyList s ->
    exists th, threads s !! i = Some th /\ status th = READY /\ resume th <> InFinish;
  c_ready_nodup : NoDup (readyList s);
  c_sem k x : sems s !! k = Some x -> is_s32 (value x) /\ NoDup (queue x);
  c_queue k x i : sems s !! k = Some x -> i ∈ queue x ->
    exists th, threads s !! i = Some th /\ status th = BLOCKED /\ resume th = InP k;
  c_resume i th k : threads s !! i = Some th -> resume th = InP k -> is_Some (sems s !! k);
  c_stack i th : threads s !! i = Some th -> stack th = None \/ stack th = Some STACK_FENCEPOST;
  c_current : is_Some (threads s !! currentThread s);
  c_dying i : threadToBeDestroyed s = Some i ->
    exists th, threads s !! i = Some th /\ status th = BLOCKED /\ resume th = InFinish;
}.

(** The ready threads that are in [P] on semaphore [k]. *)
Definition woken (s : t) (k : Z) (l : list Z) : nat :=
  length (filter (fun i => resume <$> threads s !! i = Some (InP k)) l).

(** No wake-up is lost: while threads wait, every unit of the value has a
    thread that was woken for it; [u] is the value as if it did not wrap around. *)
Definition counted (v : Z) (n : Z) : Prop := exists u, v = s32 u /\ 0 <= u <= n.

Definition wakeups (s : t) : Prop :=
  forall k x, sems s !! k = Some x -> queue x <> [] -> counted (value x) (Z.of_nat (woken s k (readyList s))).

Definition inv (s : t) : Prop :=
  core s /\ wakeups s /\
  (idle s = false -> exists th, threads s !! currentThread s = Some th /\ status th = RUNNING).

(** No thread has the CPU. *)
Definition quiet (s : t) : Prop := forall i th, threads s !! i = Some th -> status th <> RUNNING.

Lemma setStatus_ok s i st th : threads s !! i = Some th ->
  setStatus s i st = Ok (set_threads s (<[i := mkThread st (stack th) (resume th)]> (threads s))).
Proof. intros H. unfold setStatus, thread. by rewrite H. Qed.

Lemma CheckOverflow_ok s : core s -> CheckOverflow s (currentThread s) = Ok tt.
Proof.
  intros Hc. destruct (c_current s Hc) as [th Hth]. unfold CheckOverflow, thread. rewrite Hth.
  cbn [mbind outcome_bind]. by destruct (c_stack s Hc _ _ Hth) as [-> | ->].
Qed.

(** The finished thread that a switch to [th] deletes. *)
Definition carcass (s : t) (th : Thread) : option Z :=
  if decide (resume th = AtThreadRoot) then None else threadToBeDestroyed s.

(** The state in which the thread [n] at the head of the ready list has just
    been given the CPU. *)
Definition dispatched (s : t) (n : Z) (th : Thread) (l : list Z) : t :=
  let ts := <[n := mkThread RUNNING (stack th) (resume th)]> (threads s) in
  mk (match carcass s th with Some j => delete j ts | None => ts end) l n false
     (if decide (resume th = AtThreadRoot) then threadToBeDestroyed s else None) (sems s).

(** A ready thread is not waiting for its deletion. *)
Lemma ready_not_dying s i j : core s -> i ∈ readyList s -> threadToBeDestroyed s = Some j -> i <> j.
Proof.
  intros Hc Hi Hj ->. destruct (c_ready s Hc j Hi) as (? & ? & ? & _).
  destruct (c_dying s Hc j Hj) as (? & ? & ? & _). congruence.
Qed.

Lemma Run_ok s n l th :
  core s -> quiet s -> readyList s = n :: l -> threads s !! n = Some th ->
  Run (set_ready s l) n = Ok (dispatched s n th l).
Proof.
  intros Hc Hq Hl Hth. unfold Run.
  assert (CheckOverflow (set_ready s l) (currentThread (set_ready s l)) = Ok tt) as ->
    by exact (CheckOverflow_ok s Hc).
  cbn [mbind outcome_bind]. rewrite (setStatus_ok _ _ _ th) by done. cbn [mbind outcome_bind].
  unfold thread. cbn [threads set_threads]. rewrite lookup_insert_eq. cbn [mbind outcome_bind resume].
  assert (Hd : forall j, threadToBeDestroyed s = Some j -> (j =? n) = false).
  { intros j Hj. apply Z.eqb_neq. intros ->. apply (ready_not_dying s n n Hc); [rewrite Hl; left|done|done]. }
  unfold destroy, dispatched, carcass. cbn [threadToBeDestroyed currentThread set_threads set_ready].
  destruct (resume th); [done|..]; (rewrite !decide_False by done);
    (destruct (threadToBeDestroyed s) as [j|]; [rewrite (Hd j) by done|]); done.
Qed.

Lemma dispatched_lookup s n th l i :
  core s -> readyList s = n :: l -> threads s !! n = Some th ->
  threads (dispatched s n th l) !! i =
    if decide (i = n) then Some (mkThread RUNNING (stack th) (resume th))
    else if decide (carcass s th = Some i) then None else threads s !! i.
Proof.
  intros Hc Hl Hth. unfold dispatched. cbn [threads].
  assert (Hne : carcass s th <> Some n).
  { unfold carcass. case_decide; [done|]. intros E.
    apply (ready_not_dying s n n Hc); [rewrite Hl; left|done|done]. }
  destruct (carcass s th) as [j|]; destruct (decide (i = n)) as [->|Hi].
  - rewrite lookup_delete_ne by congruence. by rewrite lookup_insert_eq.
  - destruct (decide (Some j = Some i)) as [[= ->]|Hj]; [by rewrite lookup_delete_eq|].
    rewrite lookup_delete_ne by congruence. by rewrite lookup_insert_ne.
  - by rewrite lookup_insert_eq.
  - rewrite decide_False by done. by rewrite lookup_insert_ne.
Qed.

(** The thread a switch deletes is a finished one. *)
Lemma carcass_finished s th i : core s -> carcass s th = Some i ->
  exists th', threads s !! i = Some th' /\ status th' = BLOCKED /\ resume th' = InFinish.
Proof. intros Hc. unfold carcass. case_decide; [done|]. apply (c_dying s Hc). Qed.

Lemma dispatched_core s n l th :
  core s -> quiet s -> readyList s = n :: l -> threads s !! n = Some th -> core (dispatched s n th l).
Proof.
  intros Hc Hq Hl Hth.
  assert (Hlook := fun i => dispatched_lookup s n th l i Hc Hl Hth).
  pose proof (c_ready_nodup s Hc) as Hnd. rewrite Hl in Hnd. apply list.NoDup_cons in Hnd as [Hnl Hnd].
  assert (Hthr : status th = READY).
  { destruct (c_ready s Hc n) as (th' & ? & ? & _); [rewrite Hl; left|]. congruence. }
  assert (Hkeep : forall i th', threads s !! i = Some th' -> i <> n -> carcass s th <> Some i ->
            threads (dispatched s n th l) !! i = Some th').
  { intros i th' Hi Hne Hd. rewrite Hlook. by rewrite !decide_False. }
  split.
  - intros i th' Hi. rewrite Hlook in Hi. case_decide as Hin; [subst i; injection Hi as <-; done|].
    case_decide as Hd; [done|]. pose proof (c_placed s Hc i th' Hi) as Hp. pose proof (Hq i th' Hi).
    unfold placed in *. destruct (status th'); try done.
    rewrite Hl in Hp. apply elem_of_cons in Hp as [->|?]; done.
  - intros i Hi. destruct (c_ready s Hc i) as (th' & Hi' & Hs); [rewrite Hl; by right|].
    exists th'. split; [|done]. apply Hkeep; [done|by intros ->|].
    intros E. destruct (carcass_finished s th i Hc E) as (? & ? & ? & _). destruct Hs. congruence.
  - done.
  - exact (c_sem s Hc).
  - intros k x i Hx Hi. destruct (c_queue s Hc k x i Hx Hi) as (th' & Hi' & Hs & Hr).
    exists th'. split; [|done]. apply Hkeep; [done|congruence|].
    intros E. destruct (carcass_finished s th i Hc E) as (? & ? & ? & ?). congruence.
  - intros i th' k Hi Hr. rewrite Hlook in Hi. case_decide as Hin.
    + subst i. injection Hi as <-. cbn in Hr. by apply (c_resume s Hc n th k).
    + case_decide; [done|]. by apply (c_resume s Hc i th' k).
  - intros i th' Hi. rewrite Hlook in Hi. case_decide as Hin.
    + subst i. injection Hi as <-. cbn. by apply (c_stack s Hc n th).
    + case_decide; [done|]. by apply (c_stack s Hc i th').
  - cbn [currentThread dispatched]. unfold dispatched. cbn [currentThread].
    rewrite Hlook, decide_True by done. by eexists.
  - intros i. cbn [threadToBeDestroyed dispatched]. unfold dispatched. cbn [threadToBeDestroyed].
    case_decide as E; [|done]. intros Hi. destruct (c_dying s Hc i Hi) as (th' & ? & ? & ?).
    exists th'. split; [|done]. apply Hkeep; [done|congruence|]. unfold carcass. by rewrite decide_True.
Qed.

Lemma woken_ext s s' k l :
  (forall i, i ∈ l -> resume <$> threads s !! i = resume <$> threads s' !! i) -> woken s k l = woken s' k l.
Proof.
  intros H. unfold woken. induction l as [|i l IH]; [done|].
  rewrite !filter_cons. rewrite (H i) by left. case_decide; cbn [length]; rewrite IH; auto; intros; apply H; by right.
Qed.

Lemma woken_cons s k i l :
  woken s k (i :: l) = ((if decide (resume <$> threads s !! i = Some (InP k)) then 1 else 0) + woken s k l)%nat.
Proof. unfold woken. rewrite filter_cons. by case_decide. Qed.

Lemma woken_app s k l1 l2 : woken s k (l1 ++ l2) = (woken s k l1 + woken s k l2)%nat.
Proof. unfold woken. by rewrite list.filter_app, length_app. Qed.

(** Changing the value of a semaphore alone. *)
Lemma core_set_value s k x v :
  core s -> sems s !! k = Some x -> is_s32 v -> core (set_sem s k (mkSem v (queue x))).
Proof.
  intros Hc Hx Hv.
  assert (Hw : forall i j, waits_for (set_sem s k (mkSem v (queue x))) i j <-> waits_for s i j).
  { intros i j. unfold waits_for. cbn. destruct (decide (j = k)) as [->|].
    - rewrite lookup_insert_eq. split; intros (y & Hy & Hi); [|exists (mkSem v (queue x))]; naive_solver.
    - by rewrite lookup_insert_ne. }
  destruct Hc. split; cbn; try done.
  - intros i th Hi. specialize (c_placed0 i th Hi). unfold placed in *. cbn.
    destruct (status th); try done. destruct c_placed0 as [(j & ? & ?)|?]; [left|by right].
    exists j. split; [done|]. by apply Hw.
  - intros j y. destruct (decide (j = k)) as [->|].
    + rewrite lookup_insert_eq. intros [= <-]. cbn. destruct (c_sem0 k x Hx). done.
    + rewrite lookup_insert_ne by done. apply c_sem0.
  - intros j y i. destruct (decide (j = k)) as [->|].
    + rewrite lookup_insert_eq. intros [= <-]. cbn. by apply c_queue0.
    + rewrite lookup_insert_ne by done. apply c_queue0.
  - intros i th j Hi Hr. destruct (decide (j = k)) as [->|]; [rewrite lookup_insert_eq; by eexists|].
    rewrite lookup_insert_ne by done. eauto.
Qed.

(** The running thread goes to sleep on semaphore [k]. *)
Definition blocked_on (s : t) (k : Z) (x : Semaphore) (th : Thread) : t :=
  mk (<[currentThread s := mkThread BLOCKED (stack th) (resume th)]> (threads s)) (readyList s)
     (currentThread s) (idle s) (threadToBeDestroyed s)
     (<[k := mkSem (value x) (queue x ++ [currentThread s])]> (sems s)).

(** A thread that runs is in no list. *)
Lemma running_unlisted s n th : core s -> threads s !! n = Some th -> status th = RUNNING ->
  n ∉ readyList s /\ forall j y, sems s !! j = Some y -> n ∉ queue y.
Proof.
  intros Hc Hth Hrun. split.
  - intros Hin. destruct (c_ready s Hc n Hin) as (? & ? & ? & _). congruence.
  - intros j y Hy Hin. destruct (c_queue s Hc j y n Hy Hin) as (? & ? & ? & ?). congruence.
Qed.

Lemma blocked_on_quiet s k x th : core s -> quiet (blocked_on s k x th).
Proof.
  intros Hc i th'. cbn. destruct (decide (i = currentThread s)) as [->|Hi].
  - rewrite lookup_insert_eq. by intros [= <-].
  - rewrite lookup_insert_ne by done. intros Hi' E. pose proof (c_placed s Hc i th' Hi') as Hp.
    unfold placed in Hp. rewrite E in Hp. by destruct Hp.
Qed.

Lemma blocked_on_core s k x th :
  core s -> threads s !! currentThread s = Some th -> status th = RUNNING -> resume th = InP k ->
  sems s !! k = Some x -> core (blocked_on s k x th) /\ quiet (blocked_on s k x th).
Proof.
  intros Hc Hth Hrun Hres Hx. split; [|by apply blocked_on_quiet]. set (n := currentThread s) in *.
  destruct (running_unlisted s n th Hc Hth Hrun) as [Hnr Hnq].
  assert (Hw : forall i j, waits_for s i j -> waits_for (blocked_on s k x th) i j).
  { intros i j (y & Hy & Hi). unfold waits_for. cbn. destruct (decide (j = k)) as [->|].
    - rewrite lookup_insert_eq. eexists. split; [done|]. cbn. assert (y = x) as -> by congruence. set_solver.
    - rewrite lookup_insert_ne by done. by exists y. }
  split; cbn; try fold n.
  - intros i th'. destruct (decide (i = n)) as [->|Hi].
    + rewrite lookup_insert_eq. intros [= <-]. left. exists k. split; [done|].
      unfold waits_for. cbn. rewrite lookup_insert_eq. eexists. split; [done|]. cbn. fold n. set_solver.
    + rewrite lookup_insert_ne by done. intros Hi'. pose proof (c_placed s Hc i th' Hi') as Hp.
      unfold placed in *. cbn. destruct (status th'); try done.
      destruct Hp as [(j & ? & ?)|?]; [left|by right]. exists j. auto.
  - intros i Hi. destruct (c_ready s Hc i Hi) as (th' & Hi' & ?). exists th'.
    rewrite lookup_insert_ne; [done|]. by intros <-.
  - exact (c_ready_nodup s Hc).
  - intros j y. destruct (decide (j = k)) as [->|].
    + rewrite lookup_insert_eq. intros [= <-]. cbn. destruct (c_sem s Hc k x Hx). split; [done|].
      apply list.NoDup_app. split; [done|]. split; [|apply NoDup_singleton].
      intros i Hi ->%list_elem_of_singleton. by apply (Hnq k x).
    + rewrite lookup_insert_ne by done. apply (c_sem s Hc).
  - intros j y i. destruct (decide (j = k)) as [->|].
    + rewrite lookup_insert_eq. intros [= <-]. cbn. rewrite elem_of_app, list_elem_of_singleton.
      intros [Hi| ->].
      * destruct (c_queue s Hc k x i Hx Hi) as (th' & Hi' & ?). exists th'.
         rewrite lookup_insert_ne; [done|]. intros <-. by apply (Hnq k x).
      * rewrite lookup_insert_eq. eexists. split; [done|]. done.
    + rewrite lookup_insert_ne by done. intros Hy Hi.
      destruct (c_queue s Hc j y i Hy Hi) as (th' & Hi' & ?). exists th'.
      rewrite lookup_insert_ne; [done|]. intros <-. by apply (Hnq j y).
  - intros i th' j. destruct (decide (i = n)) as [->|].
    + rewrite lookup_insert_eq. intros [= <-]. cbn. rewrite Hres. intros [= <-].
      rewrite lookup_insert_eq. by eexists.
    + rewrite lookup_insert_ne by done. intros Hi Hr. destruct (decide (j = k)) as [->|].
      * rewrite lookup_insert_eq. by eexists.
      * rewrite lookup_insert_ne by done. by apply (c_resume s Hc i th' j).
  - intros i th'. destruct (decide (i = n)) as [->|].
    + rewrite lookup_insert_eq. intros [= <-]. cbn. by apply (c_stack s Hc n th).
    + rewrite lookup_insert_ne by done. apply (c_stack s Hc).
  - rewrite lookup_insert_eq. by eexists.
  - intros i Hi. destruct (c_dying s Hc i Hi) as (th' & ? & ? & ?). exists th'.
    rewrite lookup_insert_ne; [done|]. intros <-. congruence.
Qed.

Lemma dispatched_resume s n th l i :
  core s -> readyList s = n :: l -> threads s !! n = Some th -> i ∈ n :: l ->
  resume <$> threads (dispatched s n th l) !! i = resume <$> threads s !! i.
Proof.
  intros Hc Hl Hth Hi. rewrite dispatched_lookup by done. case_decide as E; [subst i; by rewrite Hth|].
  rewrite decide_False; [done|]. intros Hd. destruct (carcass_finished s th i Hc Hd) as (? & ? & ? & _).
  destruct (c_ready s Hc i) as (? & ? & ? & _); [by rewrite Hl|]. congruence.
Qed.

Lemma core_set_idle s : core s -> quiet s -> core (set_idle s true).
Proof.
  intros Hc Hq. destruct Hc. split; try done. intros i th Hi. specialize (c_placed0 i th Hi).
  specialize (Hq i th Hi). unfold placed in *. by destruct (status th).
Qed.

Lemma counted_le v n n' : counted v n -> n <= n' -> counted v n'.
Proof. intros (u & -> & Hu) Hn. exists u. split; [done|lia]. Qed.
Lemma counted_zero n : 0 <= n -> counted 0 n.
Proof. intros Hn. exists 0. split; [done|lia]. Qed.
Lemma counted_succ v n : counted v n -> counted (s32 (v + 1)) (n + 1).
Proof. intros (u & -> & Hu). exists (u + 1). split; [|lia]. apply s32_eq_mod. unfold s32. Z.div_mod_to_equations; lia. Qed.
Lemma counted_pred v n : counted v n -> v <> 0 -> counted (s32 (v - 1)) (n - 1).
Proof.
  intros (u & -> & Hu) Hv. assert (u <> 0) by (by intros ->). exists (u - 1). split; [|lia].
  apply s32_eq_mod. unfold s32. Z.div_mod_to_equations; lia.
Qed.

(** Taking the first thread [n] off the ready list leaves the others woken. *)
Lemma wakeups_taken s s' n l th : wakeups s -> readyList s = n :: l -> threads s !! n = Some th ->
  (forall i, i ∈ l -> resume <$> threads s' !! i = resume <$> threads s !! i) ->
  forall j y, sems s !! j = Some y -> queue y <> [] ->
    counted (value y) (Z.of_nat (woken s' j l) + (if decide (resume th = InP j) then 1 else 0)).
Proof.
  intros Hw Hl Hth Hres j y Hy Hne. specialize (Hw j y Hy Hne). rewrite Hl, woken_cons, Hth in Hw. cbn [fmap option_fmap option_map] in Hw.
  rewrite (woken_ext s' s j l Hres). destruct (decide (resume th = InP j)) as [E|E].
  - rewrite decide_True in Hw by congruence. eapply counted_le; [exact Hw|lia].
  - rewrite decide_False in Hw by congruence. eapply counted_le; [exact Hw|lia].
Qed.

(** The thread goes on, or waits again in [P]: no wake-up is lost. *)
Lemma blocked_wakeups s s1 n l th k x q th' :
  wakeups s -> readyList s = n :: l -> threads s !! n = Some th -> resume th = InP k -> n ∉ l ->
  readyList s1 = l -> sems s1 = sems s -> value x = 0 -> (forall i, i ∈ l -> resume <$> threads s1 !! i = resume <$> threads s !! i) ->
  wakeups (set_threads (set_sem s1 k (mkSem (value x) q)) (<[n := th']> (threads s1))).
Proof.
  intros Hw Hl Hth Er Hnl Er1 Es1 E0 Hres. set (s2 := set_threads _ _). intros j y. unfold s2. cbn [sems set_threads set_sem].
  rewrite Es1. destruct (decide (j = k)) as [->|Hjk].
  - rewrite lookup_insert_eq. intros [= <-] _. cbn [value]. rewrite E0. apply counted_zero. lia.
  - rewrite lookup_insert_ne by done. intros Hy Hne.
    assert (Hv : counted (value y) (Z.of_nat (woken s2 j l) + (if decide (resume th = InP j) then 1 else 0))).
    { apply (wakeups_taken s s2 n l th Hw Hl Hth); [|done..]. intros i Hi. cbn [threads set_threads set_sem s2].
      rewrite lookup_insert_ne by (by intros <-). by apply Hres. }
    rewrite decide_False, Z.add_0_r in Hv by congruence. rewrite <- Er1 in Hv. exact Hv.
Qed.

Lemma passed_wakeups s s1 n l th k x :
  wakeups s -> readyList s = n :: l -> threads s !! n = Some th -> resume th = InP k -> sems s !! k = Some x ->
  readyList s1 = l -> sems s1 = sems s -> value x <> 0 -> (forall i, i ∈ l -> resume <$> threads s1 !! i = resume <$> threads s !! i) ->
  wakeups (set_sem s1 k (mkSem (s32 (value x - 1)) (queue x))).
Proof.
  intros Hw Hl Hth Er Hx Er1 Es1 E0 Hres.
  pose proof (wakeups_taken s (set_sem s1 k (mkSem (s32 (value x - 1)) (queue x))) n l th Hw Hl Hth Hres) as Hv'. rewrite Er in Hv'.
  intros j y. cbn [sems set_sem]. rewrite Es1. change (readyList (set_sem s1 k _)) with (readyList s1). rewrite Er1. destruct (decide (j = k)) as [->|Hjk].
  - rewrite lookup_insert_eq. intros [= <-] Hne. specialize (Hv' k x Hx Hne). rewrite decide_True in Hv' by done. cbn [value].
    eapply counted_le; [exact (counted_pred _ _ Hv' E0)|lia].
  - rewrite lookup_insert_ne by done. intros Hy Hne. specialize (Hv' j y Hy Hne). rewrite decide_False in Hv' by congruence.
    eapply counted_le; [exact Hv'|lia].
Qed.

Lemma run_next_ok fuel : forall s n l,
  core s -> quiet s -> wakeups s -> readyList s = n :: l -> (length l < fuel)%nat ->
  exists s', run_next fuel (set_ready s l) n = Ok s' /\ inv s'.
Proof.
  induction fuel as [|fuel IH]; intros s n l Hc Hq Hw Hl Hf; [lia|]. cbn [run_next].
  destruct (c_ready s Hc n) as (th & Hth & Hst & Hnf); [rewrite Hl; left|].
  rewrite (Run_ok s n l th) by done. cbn [mbind outcome_bind].
  pose proof (dispatched_core s n l th Hc Hq Hl Hth) as Hc1. set (s1 := dispatched s n th l) in *.
  assert (Hn1 : threads s1 !! n = Some (mkThread RUNNING (stack th) (resume th))).
  { unfold s1. rewrite dispatched_lookup by done. by rewrite decide_True. }
  assert (Hres : forall i, i ∈ l -> resume <$> threads s1 !! i = resume <$> threads s !! i)
    by (intros i Hi; apply dispatched_resume; try done; by right).
  unfold thread at 1. rewrite Hn1. cbn [mbind outcome_bind resume].
  assert (Hsame : (forall k, resume th <> InP k) -> exists s', Ok s1 = Ok s' /\ inv s').
  { intros Hnp. exists s1. split; [done|]. split; [done|]. split; [|intros _; by eexists].
    intros k x Hx Hne. pose proof (wakeups_taken s s1 n l th Hw Hl Hth Hres k x Hx Hne) as Hv.
    rewrite decide_False, Z.add_0_r in Hv by apply Hnp. exact Hv. }
  destruct (resume th) as [| |k|] eqn:Er; [by apply Hsame|by apply Hsame|clear Hsame|done].
  destruct (c_resume s Hc n th k Hth Er) as [x Hx]. unfold sem.
  change (sems s1) with (sems s). rewrite Hx. cbn [mbind outcome_bind].
  destruct (Z.eqb_spec (value x) 0) as [E0|E0].
  - assert (Hb : blocked_on s1 k x (mkThread RUNNING (stack th) (InP k)) =
      set_threads (set_sem s1 k (mkSem (value x) (queue x ++ [n])))
        (<[n := mkThread BLOCKED (stack th) (InP k)]> (threads s1))) by done.
    destruct (blocked_on_core s1 k x _ Hc1 Hn1 eq_refl eq_refl Hx) as [Hc2 Hq2]. rewrite Hb in Hc2, Hq2.
    change (currentThread (set_sem s1 k (mkSem (value x) (queue x ++ [currentThread s1])))) with n.
    change (currentThread s1) with n.
    rewrite (setStatus_ok _ _ _ (mkThread RUNNING (stack th) (InP k))) by done.
    cbn [mbind outcome_bind stack resume]. change (threads (set_sem s1 k _)) with (threads s1).
    set (s2 := set_threads _ _) in *.
    assert (Hnl : n ∉ l).
    { pose proof (c_ready_nodup s Hc) as Hnd. rewrite Hl in Hnd. by apply list.NoDup_cons in Hnd as [? _]. }
    assert (Hw2 : wakeups s2) by (by apply (blocked_wakeups s s1 n l th k)).
    unfold FindNextToRun. change (readyList s2) with l. destruct l as [|n' l'] eqn:El.
    + exists (set_idle s2 true). split; [done|]. split; [by apply core_set_idle|]. done.
    + apply (IH s2 n' l' Hc2 Hq2 Hw2 eq_refl). cbn in Hf. lia.
  - destruct (c_sem s Hc k x Hx) as [Hv _].
    exists (set_sem s1 k (mkSem (s32 (value x - 1)) (queue x))). split; [done|].
    split; [apply core_set_value; [done|done|apply s32_range]|]. split; [|intros _; by eexists].
    by apply (passed_wakeups s s1 n l th).
Qed.

(** Picking the next thread when none has the CPU: it returns, and the
    invariant holds. *)
Lemma pick_ok s :
  core s -> quiet s -> wakeups s ->
  exists s', (match FindNextToRun s with
              | (None, s) => Ok (set_idle s true)
              | (Some n, s) => run_next (switches s) s n
              end) = Ok s' /\ inv s'.
Proof.
  intros Hc Hq Hw. unfold FindNextToRun. destruct (readyList s) as [|n l] eqn:El.
  - exists (set_idle s true). split; [done|]. split; [by apply core_set_idle|]. done.
  - apply (run_next_ok _ s n l); try done. unfold switches. cbn. lia.
Qed.

(** ** Moving one thread to the end of the ready list *)

(** Thread [i] becomes ready; [x] replaces semaphore [k] (its queue without [i])
    when the thread was woken from it. *)
Definition readied (s : t) (i : Z) (th : Thread) (ss : gmap Z Semaphore) : t :=
  mk (<[i := th]> (threads s)) (readyList s ++ [i]) (currentThread s) (idle s)
     (threadToBeDestroyed s) ss.

Lemma readied_core s i th ss :
  core s -> status th = READY -> resume th <> InFinish -> i ∉ readyList s ->
  (stack th = None \/ stack th = Some STACK_FENCEPOST) ->
  threadToBeDestroyed s <> Some i ->
  (forall k, is_Some (sems s !! k) -> is_Some (ss !! k)) ->
  (forall k, resume th = InP k -> is_Some (ss !! k)) ->
  (forall k y, ss !! k = Some y -> exists x, sems s !! k = Some x /\ is_s32 (value y) /\ NoDup (queue y) /\
     forall j, j ∈ queue y <-> j ∈ queue x /\ j <> i) ->
  core (readied s i th ss).
Proof.
  intros Hc Hst Hnf Hnr Hstk Hnd Hdom Hres Hss.
  assert (Hw : forall j k, j <> i -> waits_for s j k -> waits_for (readied s i th ss) j k).
  { intros j k Hj (x & Hx & Hjx). destruct (Hdom k) as [y Hy]; [by eexists|]. exists y. split; [done|].
    destruct (Hss k y Hy) as (x' & Hx' & _ & _ & Hq). assert (x' = x) as -> by congruence. by apply Hq. }
  split; cbn.
  - intros j th'. destruct (decide (j = i)) as [->|Hj].
    + rewrite lookup_insert_eq. intros [= <-]. unfold placed. rewrite Hst. cbn. set_solver.
    + rewrite lookup_insert_ne by done. intros Hj'. pose proof (c_placed s Hc j th' Hj') as Hp.
      unfold placed in *. cbn. destruct (status th'); try done; [set_solver|].
      destruct Hp as [(k & ? & ?)|?]; [left|by right]. exists k. auto.
  - intros j. rewrite elem_of_app, list_elem_of_singleton. destruct (decide (j = i)) as [->|Hj].
    + intros _. rewrite lookup_insert_eq. by eexists.
    + rewrite lookup_insert_ne by done. intros [Hj'| ->]; [|done]. by apply (c_ready s Hc).
  - apply list.NoDup_app. split; [exact (c_ready_nodup s Hc)|]. split; [|apply NoDup_singleton].
    intros j Hj ->%list_elem_of_singleton. done.
  - intros k y Hy. by destruct (Hss k y Hy) as (_ & _ & ? & ? & _).
  - intros k y j Hy Hj. destruct (Hss k y Hy) as (x & Hx & _ & _ & Hq).
    destruct (proj1 (Hq j) Hj) as [Hj' Hne].
    rewrite lookup_insert_ne by done. by apply (c_queue s Hc k x j).
  - intros j th' k. destruct (decide (j = i)) as [->|Hj].
    + rewrite lookup_insert_eq. intros [= <-]. apply Hres.
    + rewrite lookup_insert_ne by done. intros Hj' Hr. apply Hdom. by apply (c_resume s Hc j th' k).
  - intros j th'. destruct (decide (j = i)) as [->|Hj].
    + by rewrite lookup_insert_eq; intros [= <-].
    + rewrite lookup_insert_ne by done. apply (c_stack s Hc).
  - destruct (decide (currentThread s = i)) as [->|]; [rewrite lookup_insert_eq; by eexists|].
    rewrite lookup_insert_ne by done. exact (c_current s Hc).
  - intros j Hj. assert (i <> j) by congruence. rewrite lookup_insert_ne by done. by apply (c_dying s Hc).
Qed.

Lemma readied_woken s i th ss k :
  i ∉ readyList s ->
  woken (readied s i th ss) k (readyList (readied s i th ss)) =
    (woken s k (readyList s) + if decide (resume th = InP k) then 1 else 0)%nat.
Proof.
  intros Hi. cbn [readied readyList]. rewrite woken_app, woken_cons. cbn [threads readied].
  rewrite lookup_insert_eq. cbn [fmap option_fmap option_map].
  assert (woken (readied s i th ss) k (readyList s) = woken s k (readyList s)) as ->.
  { apply woken_ext. intros j Hj. cbn. rewrite lookup_insert_ne by (by intros ->). done. }
  f_equal. destruct (decide (Some (resume th) = Some (InP k))) as [[= E]|E];
    destruct (decide (resume th = InP k)); cbn; congruence.
Qed.

(** ** Every kernel call returns and keeps the invariant *)

Lemma current_facts s th :
  core s -> threads s !! currentThread s = Some th -> status th = RUNNING ->
  currentThread s ∉ readyList s /\ threadToBeDestroyed s <> Some (currentThread s) /\
  (forall k x, sems s !! k = Some x -> currentThread s ∉ queue x) /\
  (forall i th', threads s !! i = Some th' -> status th' = RUNNING -> i = currentThread s).
Proof.
  intros Hc Hth Hrun. split; [|split; [|split]].
  - intros Hin. destruct (c_ready s Hc _ Hin) as (? & ? & ? & _). congruence.
  - intros E. destruct (c_dying s Hc _ E) as (? & ? & ? & _). congruence.
  - intros k x Hx Hin. destruct (c_queue s Hc k x _ Hx Hin) as (? & ? & ? & _). congruence.
  - intros i th' Hi E. pose proof (c_placed s Hc i th' Hi) as Hp. unfold placed in Hp.
    rewrite E in Hp. by destruct Hp.
Qed.

Lemma V_ok s k x : inv s -> sems s !! k = Some x -> exists s', V s k = Ok s' /\ inv s'.
Proof.
  intros (Hc & Hw & Hrun) Hx. unfold V, sem. rewrite Hx. cbn [mbind outcome_bind].
  destruct (c_sem s Hc k x Hx) as [Hv Hnd]. destruct (queue x) as [|i q] eqn:Eq.
  - eexists. split; [done|]. rewrite <- Eq. split; [apply core_set_value; [done|done|apply s32_range]|].
    split; [|exact Hrun]. intros j y. cbn [sems set_sem]. destruct (decide (j = k)) as [->|].
    + rewrite lookup_insert_eq. intros [= <-]. cbn. by rewrite Eq.
    + rewrite lookup_insert_ne by done. apply Hw.
  - destruct (c_queue s Hc k x i Hx) as (th & Hth & Hst & Hres); [rewrite Eq; left|].
    apply list.NoDup_cons in Hnd as [Hni Hnd].
    unfold ReadyToRun. rewrite (setStatus_ok _ _ _ th) by done. cbn [mbind outcome_bind].
    set (ss := <[k := mkSem (s32 (value x + 1)) q]> (sems s)).
    exists (readied s i (mkThread READY (stack th) (resume th)) ss).
    split; [unfold readied, set_ready, set_threads, set_sem, ss; cbn; by rewrite insert_insert_eq|].
    assert (Hnr : i ∉ readyList s).
    { intros Hin. destruct (c_ready s Hc i Hin) as (? & ? & ? & _). congruence. }
    assert (Hndy : threadToBeDestroyed s <> Some i).
    { intros E. destruct (c_dying s Hc i E) as (? & ? & ? & ?). congruence. }
    split; [apply readied_core; try done|split].
    + cbn. congruence.
    + by apply (c_stack s Hc i th).
    + intros j Hj. unfold ss. destruct (decide (j = k)) as [->|]; [rewrite lookup_insert_eq; by eexists|].
      by rewrite lookup_insert_ne.
    + intros j Hj. cbn in Hj. assert (j = k) as -> by congruence. unfold ss. rewrite lookup_insert_eq. by eexists.
    + intros j y. unfold ss. destruct (decide (j = k)) as [->|Hjk].
      * rewrite lookup_insert_eq. intros [= <-]. exists x. cbn [value queue]. split; [done|]. split; [apply s32_range|]. split; [done|].
        intros m. rewrite Eq, elem_of_cons. split; [|naive_solver]. intros Hm. split; [by right|by intros ->].
      * rewrite lookup_insert_ne by done. intros Hy. exists y. destruct (c_sem s Hc j y Hy).
        split; [done|]. split; [done|]. split; [done|]. intros m. split; [|by intros [? _]].
        intros Hm. split; [done|]. intros ->. destruct (c_queue s Hc j y i Hy Hm) as (? & ? & ? & ?). congruence.
    + intros j y. rewrite readied_woken by done. cbn [sems readied resume]. unfold ss.
      destruct (decide (j = k)) as [->|Hjk].
      * rewrite lookup_insert_eq. intros [= <-] _. cbn [value]. rewrite decide_True by done.
        assert (Hne : queue x <> []) by (by rewrite Eq). specialize (Hw k x Hx Hne).
        eapply counted_le; [exact (counted_succ _ _ Hw)|lia].
      * rewrite lookup_insert_ne by done. intros Hy Hne. eapply counted_le; [exact (Hw j y Hy Hne)|lia].
    + intros Hid. destruct (Hrun Hid) as (thc & Hthc & Hrc). cbn. exists thc.
      rewrite lookup_insert_ne; [done|]. intros ->. congruence.
Qed.

Lemma P_ok s k x : inv s -> idle s = false -> sems s !! k = Some x ->
  exists s', P s k = Ok s' /\ inv s'.
Proof.
  intros (Hc & Hw & Hrun) Hid Hx. destruct (Hrun Hid) as (th & Hth & Hr).
  destruct (current_facts s th Hc Hth Hr) as (Hnr & Hnd & Hnq & Honly).
  unfold P, sem. rewrite Hx. cbn [mbind outcome_bind]. destruct (c_sem s Hc k x Hx) as [Hv _].
  destruct (Z.eqb_spec (value x) 0) as [E0|E0].
  - unfold set_resume, thread. rewrite Hth. cbn [mbind outcome_bind].
    set (s0 := set_threads s (<[currentThread s := mkThread (status th) (stack th) (InP k)]> (threads s))).
    assert (Hth0 : threads s0 !! currentThread s0 = Some (mkThread RUNNING (stack th) (InP k)))
      by (cbn; rewrite Hr; apply lookup_insert_eq).
    assert (Hc0 : core s0).
    { destruct Hc. split; cbn; try done.
      - intros i th'. destruct (decide (i = currentThread s)) as [->|Hi].
        + rewrite lookup_insert_eq. intros [= <-]. unfold placed. cbn. rewrite Hr. done.
        + rewrite lookup_insert_ne by done. apply c_placed0.
      - intros i Hi. destruct (c_ready0 i Hi) as (th' & ? & ?). exists th'.
        rewrite lookup_insert_ne; [done|]. intros <-. done.
      - intros j y i Hy Hi. destruct (c_queue0 j y i Hy Hi) as (th' & ? & ?). exists th'.
        rewrite lookup_insert_ne; [done|]. intros <-. by apply (Hnq j y).
      - intros i th' j. destruct (decide (i = currentThread s)) as [->|Hi].
        + rewrite lookup_insert_eq. intros [= <-]. cbn. intros [= <-]. by eexists.
        + rewrite lookup_insert_ne by done. apply c_resume0.
      - intros i th'. destruct (decide (i = currentThread s)) as [->|Hi].
        + rewrite lookup_insert_eq. intros [= <-]. cbn. by apply (c_stack0 _ _ Hth).
        + rewrite lookup_insert_ne by done. apply c_stack0.
      - intros i Hi. destruct (c_dying0 i Hi) as (th' & ? & ?). exists th'.
        rewrite lookup_insert_ne; [done|]. congruence. }
    destruct (blocked_on_core s0 k x _ Hc0 Hth0 eq_refl eq_refl Hx) as [Hc1 Hq1].
    unfold Sleep. change (currentThread (set_sem s0 k _)) with (currentThread s0).
    rewrite (setStatus_ok (set_sem s0 k (mkSem (value x) (queue x ++ [currentThread s0]))) _ _ _ Hth0).
    cbn [mbind outcome_bind].
    apply (pick_ok (blocked_on s0 k x (mkThread RUNNING (stack th) (InP k))) Hc1 Hq1).
    intros j y. cbn [sems blocked_on]. destruct (decide (j = k)) as [->|Hjk].
    + rewrite lookup_insert_eq. intros [= <-] _. cbn [value]. rewrite E0. apply counted_zero. lia.
    + rewrite lookup_insert_ne by done. intros Hy Hne. eapply counted_le; [exact (Hw j y Hy Hne)|]. apply Nat2Z.inj_le, Nat.eq_le_incl. symmetry. apply woken_ext.
      intros i Hi. cbn. rewrite !lookup_insert_ne by (intros <-; done). done.
  - eexists. split; [done|]. split; [apply core_set_value; [done|done|apply s32_range]|]. split; [|exact Hrun].
    intros j y. cbn [sems set_sem]. destruct (decide (j = k)) as [->|Hjk].
    + rewrite lookup_insert_eq. intros [= <-] Hne. cbn [value].
      change (woken (set_sem s k _) k _) with (woken s k (readyList s)). eapply counted_le; [exact (counted_pred _ _ (Hw k x Hx Hne) E0)|lia].
    + rewrite lookup_insert_ne by done. apply Hw.
Qed.

(** A new thread is in no list. *)
Lemma Thread_new_ok s i : inv s -> idle s = false -> threads s !! i = None -> inv (Thread_new s i).
Proof.
  intros (Hc & Hw & Hrun) Hid Hi.
  assert (Hkeep : forall j th, threads s !! j = Some th -> threads (Thread_new s i) !! j = Some th).
  { intros j th Hj. cbn. rewrite lookup_insert_ne; [done|]. intros ->. congruence. }
  assert (Hold : forall j th, threads (Thread_new s i) !! j = Some th ->
    th = mkThread JUST_CREATED None AtThreadRoot \/ threads s !! j = Some th).
  { intros j th. cbn. rewrite lookup_insert_Some. naive_solver. }
  split; [|split].
  - destruct Hc. split; try done.
    + intros j th [->|Hj]%Hold; [done|exact (c_placed0 j th Hj)].
    + intros j Hj. destruct (c_ready0 j Hj) as (th & Hth & ?). exists th. auto.
    + intros k x j Hx Hj. destruct (c_queue0 k x j Hx Hj) as (th & Hth & ?). exists th. auto.
    + intros j th k [->|Hj]%Hold Hr; [done|exact (c_resume0 j th k Hj Hr)].
    + intros j th [->|Hj]%Hold; [by left|exact (c_stack0 j th Hj)].
    + destruct c_current0 as [th Hth]. exists th. auto.
    + intros j Hj. destruct (c_dying0 j Hj) as (th & Hth & ?). exists th. auto.
  - intros k x Hx Hne. eapply counted_le; [exact (Hw k x Hx Hne)|]. apply Nat2Z.inj_le, Nat.eq_le_incl. symmetry. apply woken_ext.
    intros j Hj. destruct (c_ready s Hc j Hj) as (th & Hth & _). by rewrite Hth, (Hkeep j th Hth).
  - intros _. destruct (Hrun Hid) as (th & Hth & Hr). exists th. auto.
Qed.

Lemma Fork_ok s i th : inv s -> idle s = false -> threads s !! i = Some th -> status th = JUST_CREATED ->
  exists s', Fork s i = Ok s' /\ inv s'.
Proof.
  intros (Hc & Hw & Hrun) Hid Hi Hst. unfold Fork, StackAllocate, thread. rewrite Hi. cbn [mbind outcome_bind].
  unfold ReadyToRun. rewrite (setStatus_ok _ _ _ (mkThread (status th) (Some STACK_FENCEPOST) AtThreadRoot))
    by (cbn; apply lookup_insert_eq).
  cbn [mbind outcome_bind].
  exists (readied s i (mkThread READY (Some STACK_FENCEPOST) AtThreadRoot) (sems s)).
  split; [unfold readied, set_ready, set_threads; cbn; by rewrite !insert_insert_eq|].
  assert (Hnr : i ∉ readyList s).
  { intros Hin. destruct (c_ready s Hc i Hin) as (? & ? & ? & _). congruence. }
  split; [apply readied_core; try done|split].
  - by right.
  - intros E. destruct (c_dying s Hc i E) as (? & ? & ? & _). congruence.
  - intros k y Hy. exists y. destruct (c_sem s Hc k y Hy). split; [done|]. split; [done|]. split; [done|].
    intros j. split; [|by intros [? _]]. intros Hj. split; [done|]. intros ->.
    destruct (c_queue s Hc k y i Hy Hj) as (? & ? & ? & _). congruence.
  - intros k y Hy Hne. rewrite readied_woken by done. eapply counted_le; [exact (Hw k y Hy Hne)|lia].
  - intros _. destruct (Hrun Hid) as (thc & Hthc & Hrc). exists thc. cbn.
    rewrite lookup_insert_ne; [done|]. intros ->. congruence.
Qed.

Lemma Yield_ok s : inv s -> idle s = false -> exists s', Yield s = Ok s' /\ inv s'.
Proof.
  intros Hinv Hid. pose proof Hinv as (Hc & Hw & Hrun). destruct (Hrun Hid) as (th & Hth & Hr).
  destruct (current_facts s th Hc Hth Hr) as (Hnr & Hnd & Hnq & Honly).
  unfold Yield, FindNextToRun. destruct (readyList s) as [|n l] eqn:El; [by exists s|].
  unfold ReadyToRun. rewrite (setStatus_ok (set_ready s l) _ _ th) by done. cbn [mbind outcome_bind].
  unfold set_resume, thread. cbn [threads set_ready set_threads]. rewrite lookup_insert_eq.
  cbn [mbind outcome_bind status stack].
  set (s0 := readied s (currentThread s) (mkThread READY (stack th) InYield) (sems s)).
  assert (Hr0 : readyList s0 = n :: (l ++ [currentThread s])) by (cbn; by rewrite El).
  assert (Hc0 : core s0).
  { apply readied_core; try done.
    - by rewrite El.
    - exact (c_stack s Hc _ th Hth).
    - intros k y Hy. exists y. destruct (c_sem s Hc k y Hy). split; [done|]. split; [done|]. split; [done|].
      intros j. split; [|by intros [? _]]. intros Hj. split; [done|]. intros ->. by apply (Hnq k y). }
  assert (Hq0 : quiet s0).
  { intros i th'. cbn. destruct (decide (i = currentThread s)) as [->|Hi].
    - rewrite lookup_insert_eq. by intros [= <-].
    - rewrite lookup_insert_ne by done. intros Hi' E. by apply Hi, (Honly i th'). }
  assert (Hw0 : wakeups s0).
  { intros k y Hy Hne. unfold s0. rewrite readied_woken by (by rewrite El). eapply counted_le; [exact (Hw k y Hy Hne)|lia]. }
  match goal with |- context [run_next (switches ?a) ?a n] =>
    assert (Ea : a = set_ready s0 (l ++ [currentThread s]))
      by (unfold s0, readied, set_ready, set_threads; cbn; by rewrite !insert_insert_eq); rewrite Ea end.
  apply (run_next_ok _ s0 n (l ++ [currentThread s])); try done. unfold switches. cbn. lia.
Qed.

Lemma Finish_ok s : inv s -> idle s = false -> exists s', Finish s = Ok s' /\ inv s'.
Proof.
  intros (Hc & Hw & Hrun) Hid. destruct (Hrun Hid) as (th & Hth & Hr).
  destruct (current_facts s th Hc Hth Hr) as (Hnr & Hnd & Hnq & Honly).
  unfold Finish, set_resume, thread, Sleep. rewrite Hth. cbn [mbind outcome_bind currentThread set_threads].
  rewrite (setStatus_ok _ _ _ (mkThread (status th) (stack th) InFinish)) by (cbn; apply lookup_insert_eq).
  cbn [mbind outcome_bind stack resume threads set_threads].
  match goal with |- context [FindNextToRun ?a] => set (s0 := a) end.
  assert (Hcur : threads s0 !! currentThread s = Some (mkThread BLOCKED (stack th) InFinish))
    by (cbn; apply lookup_insert_eq).
  assert (Hkeep : forall i, i <> currentThread s -> threads s0 !! i = threads s !! i).
  { intros i Hne. cbn. by rewrite !lookup_insert_ne. }
  apply pick_ok.
  - split; cbn [readyList sems threadToBeDestroyed currentThread s0 set_threads].
    + intros i th' Hi. destruct (decide (i = currentThread s)) as [->|Hne].
      * rewrite Hcur in Hi. injection Hi as <-. by right.
      * rewrite Hkeep in Hi by done. exact (c_placed s Hc i th' Hi).
    + intros i Hi. rewrite Hkeep by (by intros ->). by apply (c_ready s Hc).
    + exact (c_ready_nodup s Hc).
    + exact (c_sem s Hc).
    + intros k x i Hx Hi. rewrite Hkeep by (intros ->; by apply (Hnq k x)). by apply (c_queue s Hc k x).
    + intros i th' k Hi Hk. destruct (decide (i = currentThread s)) as [->|Hne].
      * rewrite Hcur in Hi. by injection Hi as <-.
      * rewrite Hkeep in Hi by done. by apply (c_resume s Hc i th' k).
    + intros i th' Hi. destruct (decide (i = currentThread s)) as [->|Hne].
      * rewrite Hcur in Hi. injection Hi as <-. exact (c_stack s Hc _ th Hth).
      * rewrite Hkeep in Hi by done. by apply (c_stack s Hc i th').
    + by eexists.
    + intros i [= <-]. by eexists.
  - intros i th' Hi. destruct (decide (i = currentThread s)) as [->|Hne].
    + rewrite Hcur in Hi. by injection Hi as <-.
    + rewrite Hkeep in Hi by done. intros E. by apply Hne, (Honly i th').
  - intros k x Hx Hne. eapply counted_le; [exact (Hw k x Hx Hne)|].
    apply Nat2Z.inj_le, Nat.eq_le_incl. symmetry. apply woken_ext.
    intros i Hi. rewrite Hkeep by (by intros ->). done.
Qed.

Lemma leave_idle_ok s : inv s -> idle s = true -> exists s', leave_idle s = Ok s' /\ inv s'.
Proof.
  intros Hinv Hid. pose proof Hinv as (Hc & Hw & _). unfold leave_idle, FindNextToRun.
  destruct (readyList s) as [|n l] eqn:El; [by exists s|].
  apply (run_next_ok _ s n l); try done; [|unfold switches; cbn; lia].
  intros i th Hi E. pose proof (c_placed s Hc i th Hi) as Hp. unfold placed in Hp. rewrite E in Hp.
  destruct Hp. congruence.
Qed.

Lemma Semaphore_new_ok s i v :
  inv s -> sems s !! i = None -> is_s32 v -> inv (Semaphore_new s i v).
Proof.
  intros (Hc & Hw & Hrun) Hi Hv.
  assert (Hne : forall k x, sems s !! k = Some x -> i <> k) by (intros k x Hx ->; congruence).
  assert (Hwf : forall j k, waits_for s j k -> waits_for (Semaphore_new s i v) j k).
  { intros j k (x & Hx & Hj). exists x. cbn. by rewrite lookup_insert_ne by (by apply (Hne k x)). }
  split; [|split; [|exact Hrun]].
  - destruct Hc. split; cbn; try done.
    + intros j th Hj. specialize (c_placed0 j th Hj). unfold placed in *. cbn.
      destruct (status th); try done. destruct c_placed0 as [(k & ? & ?)|?]; [left; exists k; auto|by right].
    + intros k x. destruct (decide (i = k)) as [->|].
      * rewrite lookup_insert_eq. intros [= <-]. split; [done|apply NoDup_nil_2].
      * rewrite lookup_insert_ne by done. apply c_sem0.
    + intros k x j. destruct (decide (i = k)) as [->|].
      * rewrite lookup_insert_eq. intros [= <-] Hj. by apply not_elem_of_nil in Hj.
      * rewrite lookup_insert_ne by done. apply c_queue0.
    + intros j th k Hj Hk. destruct (c_resume0 j th k Hj Hk) as [x Hx].
      rewrite lookup_insert_ne by (by apply (Hne k x)). by eexists.
  - intros k x. cbn [sems Semaphore_new set_sem]. destruct (decide (i = k)) as [->|].
    + rewrite lookup_insert_eq. by intros [= <-].
    + rewrite lookup_insert_ne by done. apply Hw.
Qed.

Lemma boot_inv m : inv (boot m).
Proof.
  split; [|split].
  - split; cbn; try done.
    + intros i th [<- <-]%lookup_singleton_Some. done.
    + intros i Hi. by apply not_elem_of_nil in Hi.
    + apply NoDup_nil_2.
    + intros i th k [<- <-]%lookup_singleton_Some. done.
    + intros i th [<- <-]%lookup_singleton_Some. by left.
    + rewrite lookup_singleton_eq. by eexists.
  - intros k x Hx. done.
  - intros _. cbn. rewrite lookup_singleton_eq. by eexists.
Qed.

Ltac step_with L :=
  let s' := fresh in let E := fresh in let H := fresh in
  destruct L as (s' & E & H); [try done; eauto..|]; congruence.

Lemma step_inv s s' : inv s -> step s s' -> inv s'.
Proof.
  intros Hinv []; [by apply Semaphore_new_ok|by apply Thread_new_ok|..].
  - step_with (Fork_ok s i th).
  - step_with (Yield_ok s).
  - destruct H as [x Hx]. step_with (P_ok s i x).
  - destruct H as [x Hx]. step_with (V_ok s i x).
  - step_with (Finish_ok s).
  - step_with (leave_idle_ok s).
Qed.

Lemma reachable_inv m s : rtc step (boot m) s -> inv s.
Proof.
  intros H. assert (Hi := boot_inv m). revert Hi. induction H as [|x y z Hxy _ IH]; [done|].
  intros Hi. apply IH. by apply (step_inv x).
Qed.

(** ** The properties *)

(** C1: in every reachable state each thread is in the one place its status
    names: the running thread is [currentThread], a ready thread is once in the
    ready list, a blocked thread is in the queue of the semaphore its [P] is on
    or has finished, and a thread that was created and not forked has no stack and
    is in no list; no list holds a thread twice or a thread that does not
    exist.  The value of a semaphore, which may start with any [int], stays an
    [int]; while threads wait it is a count of threads that were woken, so it is
    not negative unless that count does not fit. *)
Theorem threads_are_placed (m : Z) (s : t) :
  rtc step (boot m) s ->
  (forall i th, threads s !! i = Some th -> placed s i th) /\
  (forall i, i ∈ readyList s -> exists th, threads s !! i = Some th /\ status th = READY) /\
  NoDup (readyList s) /\
  (forall k x, sems s !! k = Some x -> is_s32 (value x) /\ NoDup (queue x) /\
     (queue x <> [] -> Z.of_nat (woken s k (readyList s)) < 2 ^ 31 -> 0 <= value x)) /\
  (forall k x i, sems s !! k = Some x -> i ∈ queue x ->
     exists th, threads s !! i = Some th /\ status th = BLOCKED /\ resume th = InP k).
Proof.
  intros (Hc & Hw & _)%reachable_inv. destruct Hc. split; [done|]. split; [|split; [done|split; [|done]]].
  - intros i Hi. destruct (c_ready0 i Hi) as (th & ? & ? & _). by exists th.
  - intros k x Hx. destruct (c_sem0 k x Hx) as [H1 H2]. split; [done|]. split; [done|]. intros Hq Hlt.
    destruct (Hw k x Hx Hq) as (u & -> & Hu). rewrite s32_small by (unfold is_s32; lia). lia.
Qed.

(** C2: no wake-up is lost.  While threads wait on a semaphore, its value is at
    most the number of ready threads that were woken for it; in particular,
    when nothing is ready to run, every semaphore that has waiters is 0. *)
Theorem no_lost_wakeup (m : Z) (s : t) (k : Z) (x : Semaphore) :
  rtc step (boot m) s -> sems s !! k = Some x -> queue x <> [] ->
  value x <= Z.of_nat (woken s k (readyList s)) /\ (readyList s = [] -> value x = 0).
Proof.
  intros (Hc & Hw & _)%reachable_inv Hx Hq. destruct (Hw k x Hx Hq) as (u & -> & Hu). split.
  - unfold s32. Z.div_mod_to_equations; lia.
  - intros El. rewrite El in Hu. cbn in Hu. by assert (u = 0) as -> by lia.
Qed.

(** C22: every kernel call that the running thread, an interrupt handler or the
    idle loop can make in a reachable state returns: no assertion fails, no
    freed or null pointer is followed, a finished thread never gets the CPU
    again, and the chain of switches ends within the bound. *)
Theorem kernel_calls_return (m : Z) (s : t) :
  rtc step (boot m) s ->
  (idle s = false ->
     (exists s', Yield s = Ok s') /\ (exists s', Finish s = Ok s') /\
     (forall k, is_Some (sems s !! k) -> exists s', P s k = Ok s') /\
     (forall i, threads s !! i = None -> exists s', Fork (Thread_new s i) i = Ok s') /\
     (forall i th, threads s !! i = Some th -> status th = JUST_CREATED -> exists s', Fork s i = Ok s')) /\
  (forall k, is_Some (sems s !! k) -> exists s', V s k = Ok s') /\
  (idle s = true -> exists s', leave_idle s = Ok s').
Proof.
  intros Hi%reachable_inv. split; [intros Hid; split; [|split; [|split; [|split]]]|split].
  - destruct (Yield_ok s Hi Hid) as (s' & ? & _). by exists s'.
  - destruct (Finish_ok s Hi Hid) as (s' & ? & _). by exists s'.
  - intros k [x Hx]. destruct (P_ok s k x Hi Hid Hx) as (s' & ? & _). by exists s'.
  - intros i Hn. destruct (Fork_ok (Thread_new s i) i (mkThread JUST_CREATED None AtThreadRoot)) as (s' & ? & _);
      [by apply Thread_new_ok|done|cbn; apply lookup_insert_eq|done|by exists s'].
  - intros i th Hn Hst. destruct (Fork_ok s i th Hi Hid Hn Hst) as (s' & ? & _). by exists s'.
  - intros k [x Hx]. destruct (V_ok s k x Hi Hx) as (s' & ? & _). by exists s'.
  - intros Hid. destruct (leave_idle_ok s Hi Hid) as (s' & ? & _). by exists s'.
Qed.

(** A run: the main thread 0 creates semaphore 100, forks threads 1 and 2 and
    waits; 1 finishes; 2 signals the semaphore and finishes, and 0 goes on. *)
Definition run_script (s : t) (l : list (t -> outcome t)) : outcome t :=
  foldl (fun r f => r ≫= f) (Ok s) l.
Definition fork (i : Z) (s : t) : outcome t := Fork (Thread_new s i) i.
Definition sem_new (i v : Z) (s : t) : outcome t := Ok (Semaphore_new s i v).

Definition script : list (t -> outcome t) :=
  [sem_new 100 0; fork 1; fork 2; fun s => P s 100].
Definition waiting : t := Eval vm_compute in
  match run_script (boot 0) script with Ok s => s | Fault _ => boot 0 end.
Definition one_finished : t := Eval vm_compute in
  match Finish waiting with Ok s => s | Fault _ => boot 0 end.
Definition signalled : t := Eval vm_compute in
  match V one_finished 100 with Ok s => s | Fault _ => boot 0 end.
Definition both_finished : t := Eval vm_compute in
  match Finish signalled with Ok s => s | Fault _ => boot 0 end.

Lemma waiting_reachable : rtc step (boot 0) waiting.
Proof.
  eapply rtc_l; [apply (step_semaphore _ 100 0); done|].
  eapply rtc_l; [apply (step_new _ 1); done|].
  eapply rtc_l; [eapply (step_fork _ 1); [reflexivity|done|done|vm_compute; done]|].
  eapply rtc_l; [apply (step_new _ 2); done|].
  eapply rtc_l; [eapply (step_fork _ 2); [reflexivity|done|done|vm_compute; done]|].
  eapply rtc_l; [apply (step_P _ 100); [by eexists|done|vm_compute; done]|].
  apply rtc_refl.
Qed.

Lemma both_finished_reachable : rtc step (boot 0) both_finished.
Proof.
  etransitivity; [exact waiting_reachable|].
  eapply rtc_l; [apply (step_finish _ one_finished); done|].
  eapply rtc_l; [apply (step_V _ 100 signalled); [by eexists|done]|].
  eapply rtc_l; [apply (step_finish _ both_finished); done|].
  apply rtc_refl.
Qed.

(** A finished thread can stay allocated for ever.  A new thread starts at
    [ThreadRoot] and does not execute the end of [Scheduler::Run], so when it
    finishes too it overwrites [threadToBeDestroyed]: there is a reachable state
    in which thread 1 has finished, is still in memory, and nothing names it. *)
Theorem finished_thread_can_leak :
  exists s, rtc step (boot 0) s /\
    (exists th, threads s !! 1 = Some th /\ status th = BLOCKED /\ resume th = InFinish) /\
    threadToBeDestroyed s = None /\ 1 ∉ readyList s /\ (forall k, ~ waits_for s 1 k).
Proof.
  exists both_finished. pose proof both_finished_reachable as H. split; [done|].
  pose proof (reachable_inv 0 _ H) as (Hc & _).
  assert (E : threads both_finished !! 1 = Some (mkThread BLOCKED (Some STACK_FENCEPOST) InFinish)) by done.
  split; [by eexists|]. split; [done|]. split.
  - intros Hin. destruct (c_ready _ Hc 1 Hin) as (th & Hth & Hst & _).
    rewrite E in Hth. injection Hth as <-. done.
  - intros k (x & Hx & Hi). destruct (c_queue _ Hc k x 1 Hx Hi) as (th & Hth & _ & Hr).
    rewrite E in Hth. injection Hth as <-. done.
Qed.

Lemma threads_are_placed_witness :
  rtc step (boot 0) waiting /\ placed waiting 0 (mkThread BLOCKED None (InP 100)).
Proof.
  split; [exact waiting_reachable|].
  exact (proj1 (threads_are_placed 0 waiting waiting_reachable) 0 _ eq_refl).
Defined.

Lemma no_lost_wakeup_witness : sems waiting !! 100 = Some (mkSem 0 [0]) /\ 0 <= Z.of_nat 0.
Proof.
  split; [done|].
  exact (proj1 (no_lost_wakeup 0 waiting 100 (mkSem 0 [0]) waiting_reachable eq_refl ltac:(done))).
Defined.

Lemma kernel_calls_return_witness : exists s', Yield waiting = Ok s'.
Proof.
  exact (proj1 (proj1 (kernel_calls_return 0 waiting waiting_reachable) eq_refl)).
Defined.

End Kernel.
