(* ===== verification/InterruptSim.v ===== *)
(** * machine/interrupt.{h,cc}, machine/timer.{h,cc}: simulated time and interrupts

    [Interrupt.t W] is class [Interrupt] with the tick counters of class
    [Statistics] (machine/stats.h) and the rest of the simulator, [W].  An
    interrupt handler is device code: it changes the rest of the simulator and
    calls back [Schedule] and [YieldOnReturn], which are its [action]s.  The
    list of pending interrupts is the sorted sequence that [Lists.v] shows
    [SortedInsert] and [SortedRemove] to implement. *)

From S2P Require Import Prelude Lists.
From stdpp Require Import sorting.

Local Open Scope Z_scope.

Module Interrupt.

Abbreviation insert_sorted := LinkedList.insert_sorted.
Abbreviation key_le := LinkedList.key_le.

Inductive IntStatus := IntOff | IntOn.
Inductive MachineStatus := IdleMode | SystemMode | UserMode.
Inductive IntType := TimerInt | DiskInt | ConsoleWriteInt | ConsoleReadInt | NetworkSendInt | NetworkRecvInt.

#[export] Instance IntStatus_eq_dec : EqDecision IntStatus.
Proof. solve_decision. Defined.
#[export] Instance MachineStatus_eq_dec : EqDecision MachineStatus.
Proof. solve_decision. Defined.
#[export] Instance IntType_eq_dec : EqDecision IntType.
Proof. solve_decision. Defined.

(** class [PendingInterrupt]; [handler] is a function pointer. *)
Record PendingInterrupt := mkPending {
  handler : Z;
  arg : Z;
  when : Z;
  type : IntType;
}.

Record t (W : Type) := mk {
  level : IntStatus;
  pending : list (Z * PendingInterrupt);   (* sorted by time *)
  inHandler : bool;
  yieldOnReturn : bool;
  status : MachineStatus;
  totalTicks : Z;                          (* the counters of class Statistics *)
  idleTicks : Z;
  systemTicks : Z;
  userTicks : Z;
  world : W;
}.
Arguments mk {W}.
Arguments level {W}. Arguments pending {W}. Arguments inHandler {W}. Arguments yieldOnReturn {W}.
Arguments status {W}. Arguments totalTicks {W}. Arguments idleTicks {W}. Arguments systemTicks {W}.
Arguments userTicks {W}. Arguments world {W}.

(** machine/stats.h *)
Definition UserTick : Z := 1.
Definition SystemTick : Z := 10.
Definition TimerTicks : Z := 100.

(** What a handler asks of the interrupt hardware. *)
Inductive action :=
| ASchedule (handler arg fromNow : Z) (type : IntType)
| AYieldOnReturn.

Section operations.

Context {W : Type}.

(** The handlers: the one at a function pointer, called with its argument at a
    time, in a machine status; and [machine->DelayedLoad(0, 0)]. *)
Context (call : Z -> Z -> Z -> MachineStatus -> W -> outcome (W * list action)).
Context (delayed_load : W -> outcome W).

(** [currentThread->Yield()], which returns when the thread runs again. *)
Context (Yield : t W -> outcome (t W)).

Implicit Types s : t W.

Definition set_level s (l : IntStatus) : t W :=
  mk l (pending s) (inHandler s) (yieldOnReturn s) (status s)
     (totalTicks s) (idleTicks s) (systemTicks s) (userTicks s) (world s).
Definition set_pending s (p : list (Z * PendingInterrupt)) : t W :=
  mk (level s) p (inHandler s) (yieldOnReturn s) (status s)
     (totalTicks s) (idleTicks s) (systemTicks s) (userTicks s) (world s).
Definition set_inHandler s (b : bool) : t W :=
  mk (level s) (pending s) b (yieldOnReturn s) (status s)
     (totalTicks s) (idleTicks s) (systemTicks s) (userTicks s) (world s).
Definition set_yieldOnReturn s (b : bool) : t W :=
  mk (level s) (pending s) (inHandler s) b (status s)
     (totalTicks s) (idleTicks s) (systemTicks s) (userTicks s) (world s).
Definition set_status s (st : MachineStatus) : t W :=
  mk (level s) (pending s) (inHandler s) (yieldOnReturn s) st
     (totalTicks s) (idleTicks s) (systemTicks s) (userTicks s) (world s).
Definition set_ticks s (total idle system user : Z) : t W :=
  mk (level s) (pending s) (inHandler s) (yieldOnReturn s) (status s)
     total idle system user (world s).
Definition set_world s (w : W) : t W :=
  mk (level s) (pending s) (inHandler s) (yieldOnReturn s) (status s)
     (totalTicks s) (idleTicks s) (systemTicks s) (userTicks s) w.

(** [Interrupt::Interrupt], with the counters of [Statistics::Statistics]. *)
Definition Interrupt_new (w : W) : t W := mk IntOff [] false false SystemMode 0 0 0 0 w.

Definition ChangeLevel s (now : IntStatus) : t W := set_level s now.

Definition Schedule s (handler arg fromNow : Z) (type : IntType) : outcome (t W) :=
  let when := s32 (totalTicks s + fromNow) in
  let toOccur := mkPending handler arg when type in
  _ ← ASSERT (fromNow >? 0);
  Ok (set_pending s (insert_sorted when toOccur (pending s))).

Definition YieldOnReturn s : outcome (t W) :=
  _ ← ASSERT (inHandler s);
  Ok (set_yieldOnReturn s true).

Definition perform s (a : action) : outcome (t W) :=
  match a with
  | ASchedule h a fromNow ty => Schedule s h a fromNow ty
  | AYieldOnReturn => YieldOnReturn s
  end.

Fixpoint perform_all s (l : list action) : outcome (t W) :=
  match l with
  | [] => Ok s
  | a :: l' => s' ← perform s a; perform_all s' l'
  end.

(** The call of the handler in [CheckIfDue]. *)
Definition fire s (toOccur : PendingInterrupt) : outcome (t W) :=
  let old := status s in
  w ← delayed_load (world s);
  let s := set_status (set_inHandler (set_world s w) true) SystemMode in
  '(w, acts) ← call (handler toOccur) (arg toOccur) (totalTicks s) (status s) (world s);
  s ← perform_all (set_world s w) acts;
  Ok (set_inHandler (set_status s old) false).

(** [CheckIfDue]; the answer is the interrupt that was fired, if any. *)
Definition CheckIfDue s (advanceClock : bool) : outcome (t W * option PendingInterrupt) :=
  _ ← ASSERT (bool_decide (level s = IntOff));
  match pending s with
  | [] => Ok (s, None)
  | (when, toOccur) :: rest =>
      if negb advanceClock && (when >? totalTicks s) then
        Ok (set_pending s (insert_sorted when toOccur rest), None)
      else
        let s1 :=
          if when >? totalTicks s then
            set_ticks s when (s32 (idleTicks s + s32 (when - totalTicks s))) (systemTicks s) (userTicks s)
          else s in
        if bool_decide (status s1 = IdleMode) && bool_decide (type toOccur = TimerInt) &&
           bool_decide (rest = []) then
          Ok (set_pending s1 (insert_sorted when toOccur rest), None)
        else
          s2 ← fire (set_pending s1 rest) toOccur;
          Ok (s2, Some toOccur)
  end.

(** [while (CheckIfDue(FALSE));] with the interrupts it fired, in order. *)
Fixpoint fire_due (fuel : nat) s : outcome (t W * list PendingInterrupt) :=
  match fuel with
  | O => Fault OutOfFuel
  | S fuel' =>
      '(s, r) ← CheckIfDue s false;
      match r with
      | None => Ok (s, [])
      | Some p => '(s, ps) ← fire_due fuel' s; Ok (s, p :: ps)
      end
  end.

(** Handlers schedule only for later, so one call for every interrupt that is
    pending, and one that finds none due, are enough. *)
Definition fuel_for s : nat := S (length (pending s)).

(** [OneTick] up to the test of [yieldOnReturn]. *)
Definition tick s : outcome (t W * list PendingInterrupt) :=
  let s :=
    if bool_decide (status s = SystemMode) then
      set_ticks s (s32 (totalTicks s + SystemTick)) (idleTicks s) (s32 (systemTicks s + SystemTick)) (userTicks s)
    else
      set_ticks s (s32 (totalTicks s + UserTick)) (idleTicks s) (systemTicks s) (s32 (userTicks s + UserTick)) in
  let s := ChangeLevel s IntOff in
  '(s, ps) ← fire_due (fuel_for s) s;
  Ok (ChangeLevel s IntOn, ps).

Definition OneTick s : outcome (t W) :=
  let old := status s in
  '(s, _) ← tick s;
  if yieldOnReturn s then
    s ← Yield (set_status (set_yieldOnReturn s false) SystemMode);
    Ok (set_status s old)
  else Ok s.

Definition SetLevel s (now : IntStatus) : outcome (t W * IntStatus) :=
  let old := level s in
  _ ← ASSERT (bool_decide (now = IntOff) || negb (inHandler s));
  let s := ChangeLevel s now in
  s ← (if bool_decide (now = IntOn) && bool_decide (old = IntOff) then OneTick s else Ok s);
  Ok (s, old).

Definition Enable s : outcome (t W) :=
  '(s, _) ← SetLevel s IntOn; Ok s.

Definition Idle s : outcome (t W * list PendingInterrupt) :=
  let s := set_status s IdleMode in
  '(s, r) ← CheckIfDue s true;
  match r with
  | None => Fault Halted
  | Some p =>
      '(s, ps) ← fire_due (fuel_for s) s;
      Ok (set_status (set_yieldOnReturn s false) SystemMode, p :: ps)
  end.

End operations.

(** ** Specification *)

(** The pending interrupts whose time has come, in order. *)
Definition due (now : Z) (l : list (Z * PendingInterrupt)) : list PendingInterrupt :=
  (filter (fun q => q.1 <= now) l).*2.

Definition entry (p : PendingInterrupt) : Z * PendingInterrupt := (when p, p).

Definition later (now : Z) (l : list (Z * PendingInterrupt)) : Prop := Forall (fun q => now < q.1) l.

(** An entry of the pending list: its key is its time, and its function pointer
    is one of the installed handlers. *)
Definition entry_ok (valid : Z -> Prop) (q : Z * PendingInterrupt) : Prop :=
  q = entry q.2 /\ valid (handler q.2).

(** The pending list is sorted by time and its entries are well formed. *)
Definition wf {W} (valid : Z -> Prop) (s : t W) : Prop :=
  StronglySorted key_le (pending s) /\ Forall (entry_ok valid) (pending s).

(** What a handler may ask when simulated time is at most [horizon]. *)
Definition action_ok (valid : Z -> Prop) (horizon : Z) (a : action) : Prop :=
  match a with
  | ASchedule h _ fromNow _ => valid h /\ 0 < fromNow /\ horizon + fromNow < 2 ^ 31
  | AYieldOnReturn => True
  end.

(** The installed handlers return, and ask for interrupts in the future only,
    at times that an [int] holds. *)
Class HandlersOk {W} (call : Z -> Z -> Z -> MachineStatus -> W -> outcome (W * list action))
    (delayed_load : W -> outcome W) (valid : Z -> Prop) (horizon : Z) : Prop := {
  h_load w : exists w', delayed_load w = Ok w';
  h_call h a now st w : valid h -> 0 <= now <= horizon ->
    exists w' acts, call h a now st w = Ok (w', acts) /\ Forall (action_ok valid horizon) acts;
}.

(** [s'] has the clock and the mode of [s]. *)
Definition same_clock {W} (s s' : t W) : Prop :=
  totalTicks s' = totalTicks s /\ idleTicks s' = idleTicks s /\ systemTicks s' = systemTicks s /\
  userTicks s' = userTicks s /\ level s' = level s /\ status s' = status s.

(** ** Insertion and what is due *)

Lemma due_insert_later now k p l : now < k -> due now (insert_sorted k p l) = due now l.
Proof.
  intros Hk. unfold due. induction l as [|[k' p'] l IH]; cbn [insert_sorted LinkedList.insert_sorted].
  - by rewrite filter_cons_False by (cbn; lia).
  - destruct (k <? k').
    + by rewrite (filter_cons_False _ (k, p)) by (cbn; lia).
    + rewrite !filter_cons. cbn [fst]. case_decide; rewrite ?fmap_cons, IH; done.
Qed.

Lemma due_none now l : later now l -> due now l = [].
Proof.
  unfold due. induction 1 as [|q l Hq _ IH]; [done|]. by rewrite filter_cons_False by lia.
Qed.

Lemma later_sorted now (w : Z) (p : PendingInterrupt) l :
  StronglySorted key_le ((w, p) :: l) -> now < w -> later now ((w, p) :: l).
Proof.
  intros Hs Hw. apply StronglySorted_inv in Hs as [_ Hf]. constructor; [done|].
  eapply Forall_impl; [done|]. unfold LinkedList.key_le. cbn. intros; lia.
Qed.

Lemma wf_insert {W} valid (s : t W) p l :
  valid (handler p) -> StronglySorted key_le l -> Forall (entry_ok valid) l ->
  wf valid (set_pending s (insert_sorted (when p) p l)).
Proof.
  intros Hv Hs Hf. split; cbn [pending set_pending].
  - by apply LinkedList.insert_sorted_sorted.
  - rewrite LinkedList.insert_sorted_perm. by constructor.
Qed.

Section properties.

Context {W : Type}.
Context (call : Z -> Z -> Z -> MachineStatus -> W -> outcome (W * list action)).
Context (delayed_load : W -> outcome W).
Context (valid : Z -> Prop) (horizon : Z) {Hok : HandlersOk call delayed_load valid horizon}.
Context (Hhor : horizon < 2 ^ 31).

Abbreviation wf := (wf valid).

Implicit Types s : t W.

(** What running some code leaves: the clock is the same, and [new] entries,
    all in the future, were added to the pending list. *)
Definition extends s s' (new : list (Z * PendingInterrupt)) : Prop :=
  same_clock s s' /\ wf s' /\ pending s' ≡ₚ pending s ++ new /\ later (totalTicks s) new /\
  due (totalTicks s) (pending s') = due (totalTicks s) (pending s).

Lemma extends_refl s : wf s -> extends s s [].
Proof. intros Hwf. split; [done|]. split; [done|]. rewrite app_nil_r. split; [done|]. split; [constructor|done]. Qed.

Lemma extends_trans s1 s2 s3 n1 n2 : extends s1 s2 n1 -> extends s2 s3 n2 -> extends s1 s3 (n1 ++ n2).
Proof.
  intros (C1 & W1 & P1 & L1 & D1) (C2 & W2 & P2 & L2 & D2).
  destruct C1 as (T1 & ? & ? & ? & ? & ?), C2 as (T2 & ? & ? & ? & ? & ?). rewrite T1 in L2, D2.
  split; [repeat split; congruence|]. split; [done|]. split; [by rewrite P2, P1, app_assoc|].
  split; [by apply Forall_app|congruence].
Qed.

Lemma perform_ok s a :
  wf s -> inHandler s = true -> 0 <= totalTicks s <= horizon -> action_ok valid horizon a ->
  exists s' new, perform s a = Ok s' /\ extends s s' new /\ inHandler s' = true.
Proof.
  intros Hwf Hin Ht Ha. destruct a as [h x f ty|]; cbn [perform action_ok] in *.
  - unfold Schedule. rewrite Z.gtb_ltb, (proj2 (Z.ltb_lt 0 f)) by lia. cbn [ASSERT mbind outcome_bind].
    assert (s32 (totalTicks s + f) = totalTicks s + f) as E.
    { unfold s32. rewrite Z.mod_small by lia. lia. }
    rewrite E. set (p := mkPending h x (totalTicks s + f) ty).
    exists (set_pending s (insert_sorted (when p) p (pending s))), [entry p]. destruct Hwf as [Hs Hf].
    destruct Ha as (Hv & ? & ?).
    split; [done|]. split; [|done]. split; [done|]. split; [by apply wf_insert|].
    split; [cbn; rewrite LinkedList.insert_sorted_perm; apply Permutation_cons_append|].
    split; [repeat constructor; cbn; lia|]. cbn [pending set_pending]. apply due_insert_later. cbn. lia.
  - unfold YieldOnReturn. rewrite Hin. cbn [ASSERT mbind outcome_bind].
    eexists _, []. split; [done|]. split; [by apply (extends_refl s)|done].
Qed.

Lemma perform_all_ok l : forall s,
  wf s -> inHandler s = true -> 0 <= totalTicks s <= horizon -> Forall (action_ok valid horizon) l ->
  exists s' new, perform_all s l = Ok s' /\ extends s s' new.
Proof.
  induction l as [|a l IH]; intros s Hwf Hin Ht Hf; cbn [perform_all].
  - exists s, []. split; [done|by apply extends_refl].
  - apply Forall_cons in Hf as [Ha Hf]. destruct (perform_ok s a) as (s1 & n1 & E1 & X1 & Hin1); try done.
    rewrite E1. cbn [mbind outcome_bind]. pose proof X1 as ((T1 & _) & W1 & _).
    destruct (IH s1) as (s2 & n2 & E2 & X2); [done|done|by rewrite T1|done|].
    exists s2, (n1 ++ n2). split; [done|]. by apply (extends_trans s s1 s2).
Qed.

(** Calling a handler only adds interrupts in the future. *)
Lemma fire_ok s p :
  wf s -> valid (handler p) -> 0 <= totalTicks s <= horizon ->
  exists s' new, fire call delayed_load s p = Ok s' /\ extends s s' new /\ inHandler s' = false.
Proof.
  intros Hwf Hv Ht. unfold fire. destruct (h_load (world s)) as (w1 & ->). cbn [mbind outcome_bind].
  set (s1 := set_status (set_inHandler (set_world s w1) true) SystemMode).
  destruct (h_call (handler p) (arg p) (totalTicks s1) (status s1) (world s1)) as (w2 & acts & -> & Ha);
    [done|done|]. cbn [mbind outcome_bind].
  destruct (perform_all_ok acts (set_world s1 w2)) as (s2 & new & -> & X); [done|done|done|done|].
  cbn [mbind outcome_bind]. eexists _, new. split; [done|]. split; [|done].
  destruct X as (Hcl & Hw & Hp & Hl & Hd). destruct Hcl as (? & ? & ? & ? & ? & ?).
  split; [by unfold same_clock|]. by split.
Qed.

(** What a run of the firing loop leaves: the interrupts [ps] were fired, the
    due ones in order, except that an idle machine keeps a last timer. *)
Definition fired s s' (ps : list PendingInterrupt) (new : list (Z * PendingInterrupt)) : Prop :=
  same_clock s s' /\ wf s' /\ (entry <$> ps) ++ pending s' ≡ₚ pending s ++ new /\
  later (totalTicks s) new /\
  ((due (totalTicks s) (pending s) = ps /\ later (totalTicks s) (pending s')) \/
   exists p, due (totalTicks s) (pending s) = ps ++ [p] /\ pending s' = [entry p] /\
     type p = TimerInt /\ status s = IdleMode).

Lemma fired_cons s1 s2 s' rest w p ps n1 n2 :
  pending s1 = (w, p) :: rest -> w = when p -> w <= totalTicks s1 ->
  extends (set_pending s1 rest) s2 n1 -> fired s2 s' ps n2 -> fired s1 s' (p :: ps) (n1 ++ n2).
Proof.
  intros Ep Ew Hle (C1 & W1 & P1 & L1 & D1) (C2 & W2 & P2 & L2 & D2).
  cbn [pending set_pending totalTicks] in P1, L1, D1.
  destruct C1 as (T1 & ? & ? & ? & ? & St1), C2 as (T2 & ? & ? & ? & ? & St2).
  cbn [totalTicks idleTicks systemTicks userTicks level status set_pending] in *. rewrite T1 in L2, D2.
  split; [repeat split; congruence|]. split; [done|]. split; [|split].
  - rewrite Ep, fmap_cons. cbn [app]. rewrite P2, P1, Ew, app_assoc. done.
  - by apply Forall_app.
  - assert (Hd : due (totalTicks s1) (pending s1) = p :: due (totalTicks s1) (pending s2)).
    { rewrite D1, Ep. unfold due. by rewrite filter_cons_True. }
    rewrite Hd. destruct D2 as [(Hd2 & Hl2)|(q & Hd2 & Hp2 & Ht & Hs)].
    + left. by rewrite Hd2.
    + right. exists q. rewrite Hd2. split; [done|]. split; [done|]. split; [done|congruence].
Qed.

(** The loop returns: it fires one interrupt for every due one. *)
Lemma fire_due_ok fuel : forall s,
  wf s -> level s = IntOff -> 0 <= totalTicks s <= horizon ->
  (length (due (totalTicks s) (pending s)) < fuel)%nat ->
  exists s' ps new, fire_due call delayed_load fuel s = Ok (s', ps) /\ fired s s' ps new.
Proof.
  induction fuel as [|fuel IH]; intros s Hwf Hl Ht Hf; [lia|]. cbn [fire_due]. unfold CheckIfDue.
  rewrite Hl. cbn [bool_decide decide_rel ASSERT mbind outcome_bind]. rewrite bool_decide_true by done.
  cbn [ASSERT mbind outcome_bind negb andb]. destruct Hwf as [Hs Hk].
  destruct (pending s) as [|[w p] rest] eqn:Ep; cbn [mbind outcome_bind].
  { exists s, [], []. split; [done|]. split; [done|]. split; [by split; rewrite Ep|].
    rewrite Ep. split; [done|]. split; [constructor|]. left. split; [done|constructor]. }
  pose proof Hk as [[Ew Hv] Hk']%Forall_cons. cbn in Ew, Hv. injection Ew as Ew.
  pose proof Hs as [Hs' _]%StronglySorted_inv.
  rewrite Z.gtb_ltb. destruct (Z.ltb_spec (totalTicks s) w) as [Hw|Hw]; cbn [mbind outcome_bind].
  - pose proof (later_sorted (totalTicks s) w p rest Hs Hw) as Hla.
    eexists _, [], []. split; [done|]. split; [done|]. split; [rewrite Ew; by apply wf_insert|].
    rewrite Ep, app_nil_r. cbn [pending set_pending fmap list_fmap app].
    split; [apply LinkedList.insert_sorted_perm|]. split; [constructor|]. left.
    split; [by apply due_none|]. unfold later. by rewrite LinkedList.insert_sorted_perm.
  - destruct (_ && _ && _) eqn:Eidle; cbn [mbind outcome_bind].
    + apply andb_prop in Eidle as [Eidle E3%bool_decide_eq_true].
      apply andb_prop in Eidle as [E1%bool_decide_eq_true E2%bool_decide_eq_true]. subst rest.
      eexists _, [], []. split; [done|]. split; [done|]. split; [rewrite Ew; by apply wf_insert|].
      rewrite Ep. split; [done|]. split; [constructor|]. right. exists p. cbn [pending set_pending].
      split; [unfold due; by rewrite filter_cons_True|]. unfold entry. by rewrite <- Ew.
    + destruct (fire_ok (set_pending s rest) p) as (s2 & n1 & -> & X & _); [done|done|done|].
      cbn [mbind outcome_bind]. pose proof X as ((T2 & _ & _ & _ & L2 & _) & W2 & _ & _ & D2).
      cbn [totalTicks level set_pending pending] in *.
      destruct (IH s2) as (s3 & ps & n2 & -> & F); [done|congruence|by rewrite T2| |].
      { rewrite T2, D2. revert Hf. unfold due. rewrite filter_cons_True by done. cbn [length fmap list_fmap]. lia. }
      cbn [mbind outcome_bind]. exists s3, (p :: ps), (n1 ++ n2). split; [done|].
      by apply (fired_cons s s2 s3 rest w p).
Qed.

Lemma due_fuel now l : (length (due now l) < S (length l))%nat.
Proof. unfold due. rewrite length_fmap. pose proof (length_filter (fun q => q.1 <= now) l). lia. Qed.

Definition tick_length s : Z := if bool_decide (status s = SystemMode) then SystemTick else UserTick.

(** C20: one tick of the machine advances the clock by the length of a tick,
    returns, and fires the interrupts whose time has come, all of them and no
    other, in the order of the pending list; whatever the handlers schedule
    stays pending, sorted, and is not due. *)
Theorem OneTick_fires_exactly_due s :
  wf s -> status s <> IdleMode -> 0 <= totalTicks s -> totalTicks s + tick_length s <= horizon ->
  let now := totalTicks s + tick_length s in
  exists s' new,
    tick call delayed_load s = Ok (s', due now (pending s)) /\
    totalTicks s' = now /\ status s' = status s /\ level s' = IntOn /\ wf s' /\
    (entry <$> due now (pending s)) ++ pending s' ≡ₚ pending s ++ new /\
    later now new /\ later now (pending s').
Proof.
  intros Hwf Hst H0 Hh now. unfold tick.
  set (s1 := if bool_decide (status s = SystemMode) then _ else _).
  assert (Et : totalTicks s1 = now).
  { unfold s1, now, tick_length in *. unfold SystemTick, UserTick in *.
    case_bool_decide; cbn; unfold s32; rewrite Z.mod_small; lia. }
  assert (status s1 = status s /\ pending s1 = pending s /\ wf s1) as (Est & Ep & Hw1)
    by (unfold s1; case_bool_decide; done).
  destruct (fire_due_ok (fuel_for (ChangeLevel s1 IntOff)) (ChangeLevel s1 IntOff)) as (s2 & ps & new & -> & F).
  { done. } { done. } { change (0 <= totalTicks s1 <= horizon). rewrite Et. unfold now, tick_length, SystemTick, UserTick in *. case_bool_decide; lia. }
  { apply due_fuel. }
  cbn [mbind outcome_bind]. destruct F as (C & W2 & P2 & L2 & D2). destruct C as (T2 & _ & _ & _ & _ & St2).
  cbn [pending totalTicks status ChangeLevel set_level] in *. rewrite Et, ?Ep, ?Est in *.
  destruct D2 as [(<- & Hl)|(p & _ & _ & _ & Hi)]; [|done].
  exists (ChangeLevel s2 IntOn), new. split; [done|]. repeat (split; [done|]). done.
Qed.

(** Nothing is pending but, perhaps, the timer. *)
Definition only_timer (l : list (Z * PendingInterrupt)) : Prop :=
  match l with [] => True | (_, p) :: rest => type p = TimerInt /\ rest = [] end.

(** The three counters add up to the clock. *)
Definition ticks_ok s : Prop :=
  0 <= idleTicks s /\ 0 <= systemTicks s /\ 0 <= userTicks s /\
  totalTicks s = idleTicks s + systemTicks s + userTicks s.

(** The first call of [CheckIfDue] in [Idle]. *)
Lemma CheckIfDue_idle s w p rest :
  wf s -> level s = IntOff -> status s = IdleMode -> ticks_ok s -> pending s = (w, p) :: rest ->
  ~ only_timer (pending s) -> Z.max (totalTicks s) w <= horizon ->
  exists s1 new, CheckIfDue call delayed_load s true = Ok (s1, Some p) /\
    totalTicks s1 = Z.max (totalTicks s) w /\ ticks_ok s1 /\ wf s1 /\ level s1 = IntOff /\
    status s1 = IdleMode /\ pending s1 ≡ₚ rest ++ new /\ later (totalTicks s1) new.
Proof.
  intros [Hs Hk] Hl Hst Hti Ep Hnt Hh. unfold CheckIfDue. rewrite bool_decide_true by done.
  cbn [ASSERT mbind outcome_bind negb andb]. rewrite Ep in *.
  pose proof Hk as [[_ Hv] Hk']%Forall_cons. pose proof Hs as [Hs' _]%StronglySorted_inv.
  set (s0 := if w >? totalTicks s then _ else s).
  assert (E0 : totalTicks s0 = Z.max (totalTicks s) w /\ ticks_ok s0 /\ status s0 = IdleMode /\ level s0 = IntOff).
  { unfold s0, ticks_ok in *. rewrite Z.gtb_ltb. destruct (Z.ltb_spec (totalTicks s) w); cbn.
    - assert (s32 (w - totalTicks s) = w - totalTicks s) as -> by (unfold s32; rewrite Z.mod_small; lia).
      assert (s32 (idleTicks s + (w - totalTicks s)) = idleTicks s + (w - totalTicks s)) as ->
        by (unfold s32; rewrite Z.mod_small; lia). split; [lia|]. split; [lia|done].
    - split; [lia|]. done. }
  destruct E0 as (Et & Hti0 & Hst0 & Hl0).
  assert ((bool_decide (status s0 = IdleMode) && bool_decide (type p = TimerInt) && bool_decide (rest = [])) = false) as ->.
  { destruct (bool_decide (type p = TimerInt)) eqn:E1, (bool_decide (rest = [])) eqn:E2;
      rewrite ?andb_false_r; try done.
    apply bool_decide_eq_true in E1, E2. exfalso. by apply Hnt. }
  destruct (fire_ok (set_pending s0 rest) p) as (s1 & new & -> & X & _).
  { by split. } { done. } { cbn. unfold ticks_ok in Hti0. lia. }
  cbn [mbind outcome_bind]. destruct X as (C & W1 & P1 & L1 & _). destruct C as (T1 & I1 & S1 & U1 & Le1 & St1).
  cbn [totalTicks idleTicks systemTicks userTicks level status pending set_pending] in *.
  exists s1, new. split; [done|]. split; [congruence|]. split; [unfold ticks_ok in *; lia|].
  split; [done|]. split; [congruence|]. split; [congruence|]. split; [done|]. by rewrite T1.
Qed.

(** [Idle] halts the machine exactly when nothing is pending but the timer.
    Otherwise it returns with the clock moved to the time of the first pending
    interrupt, and never back; that interrupt was fired first, every other one
    that is due then was fired too (a last timer excepted), none was lost, and
    the idle, system and user ticks still add up to the clock. *)
Theorem Idle_advances_to_next_interrupt s :
  wf s -> level s = IntOff -> ticks_ok s ->
  (only_timer (pending s) -> Idle call delayed_load s = Fault Halted) /\
  (forall w p rest, pending s = (w, p) :: rest -> ~ only_timer (pending s) ->
     Z.max (totalTicks s) w <= horizon ->
     exists s' ps new, Idle call delayed_load s = Ok (s', p :: ps) /\
       totalTicks s' = Z.max (totalTicks s) w /\ ticks_ok s' /\ wf s' /\
       status s' = SystemMode /\ level s' = IntOff /\ yieldOnReturn s' = false /\
       (entry <$> p :: ps) ++ pending s' ≡ₚ pending s ++ new /\ later (totalTicks s') new /\
       (later (totalTicks s') (pending s') \/ only_timer (pending s'))).
Proof.
  intros Hwf Hl Hti. unfold Idle. set (s0 := set_status s IdleMode). split.
  - intros Hot. unfold CheckIfDue. rewrite (bool_decide_true (level s0 = IntOff)) by done.
    cbn [ASSERT mbind outcome_bind negb andb]. change (pending s0) with (pending s).
    destruct (pending s) as [|[w p] rest]; [done|]. destruct Hot as [Hty ->].
    rewrite (bool_decide_true (type p = _)), (bool_decide_true ([] = [])) by done.
    destruct (w >? totalTicks s0); cbn [set_ticks status]; rewrite bool_decide_true by done; done.
  - intros w p rest Ep Hnt Hh.
    destruct (CheckIfDue_idle s0 w p rest) as (s1 & n1 & -> & T1 & Ti1 & W1 & L1 & S1 & P1 & La1); try done.
    cbn [mbind outcome_bind]. change (totalTicks s0) with (totalTicks s) in T1.
    assert (Hw : w = when p). { destruct Hwf as [_ Hk]. rewrite Ep in Hk. apply Forall_cons in Hk as [[[=] _] _]. done. }
    destruct (fire_due_ok (fuel_for s1) s1) as (s2 & ps & n2 & -> & F); [done|done| |apply due_fuel|].
    { unfold ticks_ok in Ti1. lia. }
    cbn [mbind outcome_bind]. destruct F as (C & W2 & P2 & L2 & D2). destruct C as (T2 & I2 & Sy2 & U2 & Le2 & St2).
    eexists _, ps, (n1 ++ n2). split; [done|].
    cbn [totalTicks level status yieldOnReturn pending set_status set_yieldOnReturn].
    split; [congruence|]. split; [unfold ticks_ok in *; cbn; lia|]. split; [done|].
    split; [done|]. split; [congruence|]. split; [done|]. split; [|split].
    + rewrite fmap_cons. cbn [app]. rewrite P2, P1, Ep, Hw, app_assoc. done.
    + rewrite T2. by apply Forall_app.
    + rewrite T2. destruct D2 as [(_ & ?)|(q & _ & -> & ? & _)]; [by left|right]. done.
Qed.

End properties.
End Interrupt.

(** * machine/timer.{h,cc} and [TimerInterruptHandler] of threads/system.cc *)
Module Timer.
Import Interrupt.

(** class [Timer], with the state of the host's random numbers. *)
Record t := mk { randomize : bool; seed : Z }.

(** The function pointer [TimerHandler]. *)
Definition TimerHandler : Z := 1.

Section operations.

(** [Random()] of machine/sysdep.cc, which calls the host's [rand()]. *)
Context (Random : Z -> Z * Z).

Definition TimeOfNextInterrupt (w : t) : Z * t :=
  if randomize w then
    let '(r, sd) := Random (seed w) in
    (1 + Z.rem r (TimerTicks * 2), mk (randomize w) sd)
  else (TimerTicks, w).

(** [TimerInterruptHandler] of threads/system.cc *)
Definition TimerInterruptHandler (st : MachineStatus) : list action :=
  if negb (bool_decide (st = IdleMode)) then [AYieldOnReturn] else [].

(** [Timer::TimerExpired] *)
Definition TimerExpired (self : Z) (st : MachineStatus) (w : t) : t * list action :=
  let '(d, w) := TimeOfNextInterrupt w in
  (w, ASchedule TimerHandler self d TimerInt :: TimerInterruptHandler st).

(** The handlers of a machine whose only device is the timer. *)
Definition call (h self now : Z) (st : MachineStatus) (w : t) : outcome (t * list action) :=
  if h =? TimerHandler then Ok (TimerExpired self st w) else Fault BadAccess.

(** [Timer::Timer] *)
Definition Timer_new (s : Interrupt.t t) (self : Z) : outcome (Interrupt.t t) :=
  let '(d, w) := TimeOfNextInterrupt (world s) in
  Schedule (set_world s w) TimerHandler self d TimerInt.

(** [rand()] is never negative. *)
Context (Random_nonneg : forall sd, 0 <= (Random sd).1).

Lemma TimeOfNextInterrupt_range w : 1 <= (TimeOfNextInterrupt w).1 <= TimerTicks * 2.
Proof.
  unfold TimeOfNextInterrupt, TimerTicks. destruct (randomize w); [|cbn; lia].
  specialize (Random_nonneg (seed w)). destruct (Random (seed w)) as [r sd]. cbn in *.
  pose proof (Z.rem_bound_pos r 200 Random_nonneg). change (100 * 2) with 200. lia.
Qed.

(** The timer fires: it is scheduled again and the thread is to yield. *)
Lemma CheckIfDue_timer (s : Interrupt.t t) p :
  pending s = [entry p] -> handler p = TimerHandler -> when p <= totalTicks s ->
  level s = IntOff -> status s <> IdleMode -> 0 <= totalTicks s -> totalTicks s + TimerTicks * 2 < 2 ^ 31 ->
  exists s' d, 1 <= d <= TimerTicks * 2 /\
    CheckIfDue call (fun w => Ok w) s false = Ok (s', Some p) /\
    pending s' = [entry (mkPending TimerHandler (arg p) (totalTicks s + d) TimerInt)] /\
    totalTicks s' = totalTicks s /\ level s' = IntOff /\ yieldOnReturn s' = true.
Proof.
  intros Ep Hh Hdue El Hst H0 Hmax. pose proof (TimeOfNextInterrupt_range (world s)) as Hr.
  unfold CheckIfDue. rewrite bool_decide_true by done. rewrite Ep. unfold entry at 1.
  cbn [ASSERT mbind outcome_bind negb andb].
  rewrite Z.gtb_ltb, (proj2 (Z.ltb_ge _ _)), (bool_decide_false (status s = IdleMode)) by done. cbn [andb].
  unfold fire, call. cbn [mbind outcome_bind set_pending set_inHandler set_status set_world world totalTicks status].
  rewrite Hh, Z.eqb_refl. unfold TimerExpired. destruct (TimeOfNextInterrupt (world s)) as [d w']. cbn [fst] in Hr.
  unfold TimerInterruptHandler. rewrite (bool_decide_false (SystemMode = IdleMode)) by done.
  cbn [negb mbind outcome_bind perform_all perform]. unfold Schedule, YieldOnReturn, TimerTicks in *.
  rewrite Z.gtb_ltb, (proj2 (Z.ltb_lt 0 d)) by lia. cbn.
  assert (s32 (totalTicks s + d) = totalTicks s + d) as -> by (unfold s32; rewrite Z.mod_small; lia).
  eexists _, d. split; [done|]. split; [done|]. done.
Qed.

Lemma CheckIfDue_not_due (s : Interrupt.t t) q :
  pending s = [entry q] -> totalTicks s < when q -> level s = IntOff ->
  CheckIfDue call (fun w => Ok w) s false = Ok (set_pending s [entry q], None).
Proof.
  intros Ep Hw El. unfold CheckIfDue. rewrite bool_decide_true, Ep by done. unfold entry at 1.
  cbn [ASSERT mbind outcome_bind negb andb]. by rewrite Z.gtb_ltb, (proj2 (Z.ltb_lt _ _)).
Qed.

(** The time-slice timer never stops.  When the timer is the pending
    interrupt and its time has come, a tick in user or system mode fires it,
    leaves exactly one timer interrupt pending, 1 to 200 ticks later, and asks
    for the running thread to yield. *)
Theorem timer_rearms_and_preempts (s : Interrupt.t t) (p : PendingInterrupt) :
  pending s = [entry p] -> handler p = TimerHandler -> when p <= totalTicks s + tick_length s ->
  status s <> IdleMode -> 0 <= totalTicks s -> totalTicks s + tick_length s + TimerTicks * 2 < 2 ^ 31 ->
  exists s' q,
    tick call (fun w => Ok w) s = Ok (s', [p]) /\ pending s' = [entry q] /\
    handler q = TimerHandler /\ arg q = arg p /\ type q = TimerInt /\
    totalTicks s' < when q <= totalTicks s' + TimerTicks * 2 /\ yieldOnReturn s' = true.
Proof.
  intros Ep Hh Hdue Hst H0 Hmax.
  assert (Hl : 1 <= tick_length s <= 10)
    by (unfold tick_length, SystemTick, UserTick; case_bool_decide; lia).
  unfold tick. set (s1 := ChangeLevel _ _).
  assert (E1 : totalTicks s1 = totalTicks s + tick_length s /\ pending s1 = [entry p] /\
               level s1 = IntOff /\ status s1 = status s).
  { assert (totalTicks s1 = s32 (totalTicks s + tick_length s)) as ->
      by (unfold s1, tick_length; by case_bool_decide).
    split; [unfold s32, TimerTicks in *; rewrite Z.mod_small; lia|].
    unfold s1. case_bool_decide; done. }
  clearbody s1. destruct E1 as (Et & Ep1 & El & Es). unfold fuel_for. rewrite Ep1. cbn [length fire_due].
  destruct (CheckIfDue_timer s1 p) as (s2 & d & Hd & -> & Ep2 & Et2 & El2 & Hy); try done; try congruence; try lia.
  cbn [mbind outcome_bind]. rewrite (CheckIfDue_not_due s2 _ Ep2) by (try done; cbn; lia). cbn [mbind outcome_bind].
  eexists _, _. split; [done|]. cbn. split; [done|]. split; [done|]. split; [done|]. split; [done|]. split; [cbn [when]; lia|done].
Qed.

End operations.

(** ** Instances *)

Definition no_random (sd : Z) : Z * Z := (0, sd).

(** The timer's handlers meet the contract of the interrupt simulation. *)
Lemma timer_handlers_ok Random horizon :
  (forall sd, 0 <= (Random sd).1) -> horizon + TimerTicks * 2 < 2 ^ 31 ->
  HandlersOk (call Random) (fun w => Ok w) (eq TimerHandler) horizon.
Proof.
  intros Hr Hh. split; [by eexists|]. intros h self now st w <- _. unfold call. rewrite Z.eqb_refl.
  unfold TimerExpired. pose proof (TimeOfNextInterrupt_range Random Hr w) as H.
  destruct (TimeOfNextInterrupt Random w) as [d w']. cbn [fst] in H. eexists _, _. split; [done|].
  constructor; [unfold TimerTicks in *; cbn; lia|].
  unfold TimerInterruptHandler. case_bool_decide; repeat constructor.
Qed.

(** A machine with the timer due at 100 and another timer at 250, at time 95. *)
Definition demo : Interrupt.t t :=
  Interrupt.mk IntOff [entry (mkPending TimerHandler 7 100 TimerInt); entry (mkPending TimerHandler 8 250 DiskInt)]
    false false SystemMode 95 0 95 0 (mk false 0).

Definition demo_one : Interrupt.t t := set_pending demo [entry (mkPending TimerHandler 7 100 TimerInt)].

Lemma demo_interrupts_wf : wf (eq TimerHandler) demo.
Proof.
  split.
  - repeat constructor. unfold LinkedList.key_le. cbn. lia.
  - repeat constructor.
Qed.

Lemma OneTick_fires_exactly_due_witness :
  exists s' new, tick (call no_random) (fun w => Ok w) demo = Ok (s', due 105 (pending demo)) /\
    later 105 new /\ later 105 (pending s').
Proof.
  destruct (OneTick_fires_exactly_due (call no_random) (fun w => Ok w) (eq TimerHandler) 1000
    (Hok := timer_handlers_ok no_random 1000 ltac:(cbn; lia) ltac:(done)) ltac:(done) demo demo_interrupts_wf)
    as (s' & new & H & _ & _ & _ & _ & _ & H1 & H2); try done.
  exists s', new. done.
Defined.

Lemma Idle_advances_to_next_interrupt_witness :
  exists s' ps, Idle (call no_random) (fun w => Ok w) demo = Ok (s', mkPending TimerHandler 7 100 TimerInt :: ps) /\
    totalTicks s' = 100.
Proof.
  destruct (proj2 (Idle_advances_to_next_interrupt (call no_random) (fun w => Ok w) (eq TimerHandler) 1000
    (Hok := timer_handlers_ok no_random 1000 ltac:(cbn; lia) ltac:(done)) ltac:(done) demo demo_interrupts_wf
    eq_refl ltac:(unfold ticks_ok; cbn; lia)) 100 (mkPending TimerHandler 7 100 TimerInt) _ eq_refl)
    as (s' & ps & new & H & H1 & _); [by intros [_ ?]|done|].
  exists s', ps. done.
Defined.

Lemma timer_rearms_and_preempts_witness :
  exists s' q, tick (call no_random) (fun w => Ok w) demo_one = Ok (s', [mkPending TimerHandler 7 100 TimerInt]) /\
    pending s' = [entry q].
Proof.
  destruct (timer_rearms_and_preempts no_random ltac:(cbn; lia) demo_one (mkPending TimerHandler 7 100 TimerInt))
    as (s' & q & H & H1 & _); try done.
  exists s', q. done.
Defined.

End Timer.
