(* ===== verification/AddrSpace.v ===== *)
(** * userprog/addrspace.{h,cc}: the address space of a user program

    [AddrSpace.t] is class [AddrSpace]; [AddrSpace.kernel] holds the globals its
    constructors use: the machine, the bitmap of physical pages and the value of
    the semaphore [addrLock].  The executable is known by what reading it gives,
    so the constructors take [ReadAt] as an argument. *)

From S2P Require Import Prelude Allocator Bitmap MachineSim.
Import Machine.

Local Open Scope Z_scope.

Module AddrSpace.

(** ** bin/noff.h *)

Definition NOFFMAGIC : Z := 0xbadfad.

Record Segment := mkSegment { virtualAddr : Z; inFileAddr : Z; size : Z }.

Record NoffHeader := mkNoff {
  noffMagic : Z;
  code : Segment;
  initData : Segment;
  uninitData : Segment;
}.

(** The header as the 40 bytes at its address: ten integers. *)
Definition sizeof_NoffHeader : Z := 40.
Definition int_at (bs : list Z) (i : nat) : Z := s32 (le_value (slice bs (4 * i) 4)).
Definition segment_at (bs : list Z) (i : nat) : Segment :=
  mkSegment (int_at bs i) (int_at bs (i + 1)) (int_at bs (i + 2)).
Definition noff_of_bytes (bs : list Z) : NoffHeader :=
  mkNoff (int_at bs 0) (segment_at bs 1) (segment_at bs 4) (segment_at bs 7).

(** [WordToHost] applied to an [int]. *)
Definition swap_int (z : Z) : Z := s32 (WordToHost HOST_IS_BIG_ENDIAN (u32 z)).
Definition swap_segment (g : Segment) : Segment :=
  mkSegment (swap_int (virtualAddr g)) (swap_int (inFileAddr g)) (swap_int (size g)).
Definition SwapHeader (h : NoffHeader) : NoffHeader :=
  mkNoff (swap_int (noffMagic h)) (swap_segment (code h)) (swap_segment (initData h))
         (swap_segment (uninitData h)).

(** ** The class and its globals *)

Definition UserStackSize : Z := 1024.

Record t := mk {
  pageTable : list TranslationEntry;
  numPages : Z;                         (* unsigned int *)
}.

Record kernel (T : Type) := mkKernel {
  machine : Machine.t;
  gPhysPageBitMap : T;
  addrLock : Z;                         (* the value of the semaphore *)
}.
Arguments mkKernel {T}. Arguments machine {T}. Arguments gPhysPageBitMap {T}. Arguments addrLock {T}.

Section operations.
Context {T : Type} `{Allocator T}.
Implicit Types k : kernel T.

(** [ReadAt n pos]: the bytes that [executable->ReadAt(into, n, pos)] stores. *)
Context (ReadAt : Z -> Z -> outcome (list Z)).

Definition set_machine k (m : Machine.t) : kernel T := mkKernel m (gPhysPageBitMap k) (addrLock k).
Definition set_pages k (b : T) : kernel T := mkKernel (machine k) b (addrLock k).

Definition lock_P k : outcome (kernel T) :=
  if addrLock k =? 0 then Fault Blocked
  else Ok (mkKernel (machine k) (gPhysPageBitMap k) (addrLock k - 1)).
Definition lock_V k : kernel T := mkKernel (machine k) (gPhysPageBitMap k) (addrLock k + 1).

(** Reading and checking the header; [raw] is what the struct held before. *)
Definition read_header (raw : list Z) : outcome NoffHeader :=
  bs ← ReadAt sizeof_NoffHeader 0;
  let noffH := noff_of_bytes (splice raw 0 bs) in
  let noffH :=
    if negb (noffMagic noffH =? NOFFMAGIC) && (swap_int (noffMagic noffH) =? NOFFMAGIC)
    then SwapHeader noffH else noffH in
  _ ← ASSERT (noffMagic noffH =? NOFFMAGIC);
  Ok noffH.

(** [divRoundUp(size, PageSize)] on an unsigned size. *)
Definition pages_needed (noffH : NoffHeader) : Z :=
  let size := u32 (size (code noffH) + size (initData noffH) + size (uninitData noffH) + UserStackSize) in
  u32 (divRoundUp size PageSize).

(** The loop that fills the page table. *)
Definition map_pages (numPages : Z) (b : T) : outcome (list TranslationEntry * T) :=
  for_range 0 numPages
    (fun i '(pt, b) =>
       '(f, b) ← al_Find b;
       Ok (pt ++ [mkEntry i f true false false false], b))
    ([], b).

(** [executable->ReadAt(&(machine->mainMemory[a]) ..., n, pos)] *)
Definition read_into (m : Machine.t) (a n pos : Z) : outcome Machine.t :=
  bs ← ReadAt n pos;
  if bool_decide (bs = []) then Ok m else mem_set m a bs.

(** The loop that loads a segment. *)
Definition load_segment (m : Machine.t) (pt : list TranslationEntry) (numPages : Z) (g : Segment)
    : outcome Machine.t :=
  if size g >? 0 then
    for_range 0 numPages
      (fun i m =>
         e ← rd pt i;
         read_into m (virtualAddr g + physicalPage e * PageSize) PageSize (s32 (inFileAddr g + i * PageSize)))
      m
  else Ok m.

Definition load k (noffH : NoffHeader) (numPages : Z) : outcome (kernel T * t) :=
  '(pt, b) ← map_pages numPages (gPhysPageBitMap k);
  let k := lock_V (set_pages k b) in
  m ← load_segment (machine k) pt numPages (code noffH);
  m ← load_segment m pt numPages (initData noffH);
  Ok (set_machine k m, mk pt numPages).

(** [AddrSpace::AddrSpace(OpenFile *executable)] for an open file.  When there
    are not enough pages the object keeps the page table pointer it was
    allocated with, [garbage], and the file is deleted. *)
Definition AddrSpace_file (raw : list Z) (garbage : list TranslationEntry) k : outcome (kernel T * t) :=
  noffH ← read_header raw;
  k ← lock_P k;
  let numPages := pages_needed noffH in
  _ ← ASSERT (numPages <=? NumPhysPages);
  nc ← al_NumClear (gPhysPageBitMap k);
  if numPages >? nc then Ok (lock_V k, mk garbage 0)
  else load k noffH numPages.

(** [AddrSpace::AddrSpace(char* filename)] for a file that [Open] finds.  Where
    there are not enough pages the code deletes the file, goes on, and deletes
    it again at its end. *)
Definition AddrSpace_name (raw : list Z) k : outcome (kernel T * t) :=
  noffH ← read_header raw;
  k ← lock_P k;
  let numPages := pages_needed noffH in
  numclear ← al_NumClear (gPhysPageBitMap k);
  if numPages >? numclear then
    _ ← load (lock_V k) noffH 0;
    Fault BadAccess
  else load k noffH numPages.

(** [AddrSpace::~AddrSpace] *)
Definition AddrSpace_destroy k (sp : t) : outcome (kernel T) :=
  b ← for_range 0 (numPages sp)
        (fun i b => e ← rd (pageTable sp) i; al_Clear b (physicalPage e))
        (gPhysPageBitMap k);
  Ok (set_pages k b).

Definition InitRegisters (m : Machine.t) (sp : t) : outcome Machine.t :=
  m ← for_range 0 NumTotalRegs (fun i m => WriteRegister m i 0) m;
  m ← WriteRegister m PCReg 0;
  m ← WriteRegister m NextPCReg 4;
  WriteRegister m StackReg (s32 (numPages sp * PageSize - 16)).

Definition RestoreState (m : Machine.t) (sp : t) : Machine.t :=
  Machine.mk (mainMemory m) (registers m) (tlb m) (Some (pageTable sp)) (numPages sp)
             (singleStep m) (runUntilTime m).

End operations.

(** ** Page tables *)

(** The table that maps page [i] to the [i]th of [frames]. *)
Definition table (frames : list nat) : list TranslationEntry :=
  imap (fun i f => mkEntry (Z.of_nat i) (Z.of_nat f) true false false false) frames.

Lemma table_snoc fs f :
  table (fs ++ [f]) = table fs ++ [mkEntry (Z.of_nat (length fs)) (Z.of_nat f) true false false false].
Proof. unfold table. rewrite imap_app. cbn. by rewrite Nat.add_0_r. Qed.

Lemma lookup_table fs i :
  table fs !! i = (fun f => mkEntry (Z.of_nat i) (Z.of_nat f) true false false false) <$> fs !! i.
Proof. apply list_lookup_imap. Qed.

Lemma length_table fs : length (table fs) = length fs.
Proof. apply length_imap. Qed.

Section allocation.
Context {T : Type} `{AllocatorLaws T}.
Implicit Types k : kernel T.

(** The loop takes the frames [take_slots] hands out. *)
Lemma map_pages_ok n (b : T) :
  al_wf b -> 0 <= n -> (Z.to_nat n <= count_clear (al_bits b))%nat ->
  exists fs b', map_pages n b = Ok (table fs, b') /\ al_wf b' /\
    take_slots (Z.to_nat n) (al_bits b) = (fs, al_bits b') /\ Z.of_nat (length fs) = n.
Proof.
  intros Hwf Hn Hc. unfold map_pages.
  destruct (for_range_inv (fun i '(pt, b') => exists fs, pt = table fs /\ al_wf b' /\
      take_slots (Z.to_nat i) (al_bits b) = (fs, al_bits b') /\ Z.of_nat (length fs) = i)
    0 n (fun i '(pt, b) => '(f, b) ← al_Find b; Ok (pt ++ [mkEntry i f true false false false], b))
    ([], b)) as ([pt b'] & -> & fs & -> & Hwf' & Hks & Hl); [done|by exists []| |by exists fs, b'].
  intros i [pt b1] Hi (fs & -> & Hwf1 & Hks & Hl).
  destruct (take_slots_spec _ _ _ _ Hks) as (_ & _ & _ & _ & _ & Hcnt); [lia|].
  destruct (first_clear (al_bits b1)) as [f|] eqn:Ef.
  2:{ apply first_clear_None in Ef. lia. }
  destruct (al_Find_free b1 f Hwf1 Ef) as (b2 & -> & Hwf2 & Hb2). cbn [mbind outcome_bind].
  eexists. split; [done|]. exists (fs ++ [f]). rewrite table_snoc, Hl. split; [done|]. split; [done|].
  replace (Z.to_nat (i + 1)) with (S (Z.to_nat i)) by lia. rewrite length_app, Hb2. cbn [length].
  split; [|lia]. apply take_slots_snoc; [done|lia|done].
Qed.

(** ** Loading *)

(** The file: reading never fails at a position in range and gives at most the
    bytes that were asked for. *)
Definition readable (ReadAt : Z -> Z -> outcome (list Z)) : Prop :=
  forall n pos, 0 <= n -> 0 <= pos ->
    exists bs, ReadAt n pos = Ok bs /\ Z.of_nat (length bs) <= n /\ Forall is_u8 bs.

(** A segment whose pages, stored where the code stores them, stay inside main
    memory. *)
Definition fits (g : Segment) (fs : list nat) : Prop :=
  0 < size g -> 0 <= virtualAddr g /\ 0 <= inFileAddr g /\
    inFileAddr g + Z.of_nat (length fs) * PageSize < 2 ^ 31 /\
    Forall (fun f => virtualAddr g + (Z.of_nat f + 1) * PageSize <= MemorySize) fs.

(** Only the memory of the machine has changed. *)
Definition same_but_mem (m m' : Machine.t) : Prop :=
  registers m' = registers m /\ tlb m' = tlb m /\ Machine.pageTable m' = Machine.pageTable m /\
  pageTableSize m' = pageTableSize m.

Lemma read_into_ok ReadAt m a pos :
  readable ReadAt -> mem_ok m -> 0 <= a -> a + PageSize <= MemorySize -> 0 <= pos ->
  exists bs, ReadAt PageSize pos = Ok bs /\ Z.of_nat (length bs) <= PageSize /\ Forall is_u8 bs /\
    read_into ReadAt m a PageSize pos = Ok (set_memory m (splice (mainMemory m) (Z.to_nat a) bs)) /\
    mem_ok (set_memory m (splice (mainMemory m) (Z.to_nat a) bs)).
Proof.
  intros Hr [Hl Hu] Ha Hm Hp. destruct (Hr PageSize pos) as (bs & E & Hlen & Hbs); [done|done|].
  exists bs. split; [done|]. split; [done|]. split; [done|].
  assert (mem_ok (set_memory m (splice (mainMemory m) (Z.to_nat a) bs))) as Hok.
  { split; cbn; [rewrite length_splice; lia|]. by apply Forall_splice. }
  split; [|done]. unfold read_into. rewrite E. cbn [mbind outcome_bind].
  case_bool_decide as Eb; [subst bs; rewrite splice_nil; by destruct m|].
  apply mem_set_ok; lia.
Qed.

(** The addresses of main memory at which the code stores the pages of a
    segment: page [j] at [virtualAddr] bytes past the start of its frame. *)
Definition dest (g : Segment) (f : nat) : nat := Z.to_nat (virtualAddr g + Z.of_nat f * PageSize).
Definition stores_to (g : Segment) (fs : list nat) (a : nat) : Prop :=
  exists f, f ∈ fs /\ (dest g f <= a < dest g f + Z.to_nat PageSize)%nat.

(** What loading a segment does to memory. *)
Definition loaded (ReadAt : Z -> Z -> outcome (list Z)) (g : Segment) (fs : list nat) (m m' : Machine.t) : Prop :=
  mem_ok m' /\ same_but_mem m m' /\
  (forall a, ~ stores_to g fs a -> mainMemory m' !! a = mainMemory m !! a) /\
  (NoDup fs -> forall j f bs, fs !! j = Some f ->
     ReadAt PageSize (inFileAddr g + Z.of_nat j * PageSize) = Ok bs ->
     slice (mainMemory m') (dest g f) (length bs) = bs).

Lemma dest_apart g f f' : 0 <= virtualAddr g -> f <> f' ->
  (dest g f + Z.to_nat PageSize <= dest g f' \/ dest g f' + Z.to_nat PageSize <= dest g f)%nat.
Proof. unfold dest, PageSize, SectorSize. lia. Qed.

(** One more page. *)
Lemma loaded_snoc ReadAt g fs f m m1 bs :
  readable ReadAt -> 0 <= virtualAddr g -> 0 <= inFileAddr g ->
  virtualAddr g + (Z.of_nat f + 1) * PageSize <= MemorySize -> loaded ReadAt g fs m m1 ->
  ReadAt PageSize (inFileAddr g + Z.of_nat (length fs) * PageSize) = Ok bs ->
  Z.of_nat (length bs) <= PageSize -> Forall is_u8 bs ->
  loaded ReadAt g (fs ++ [f]) m (set_memory m1 (splice (mainMemory m1) (dest g f) bs)).
Proof.
  intros Hrd Hv Hi Hm ((Hl & Hu) & Hs & Hout & Hin) Hr Hlen Hbs.
  assert (Hfit : (dest g f + length bs <= length (mainMemory m1))%nat).
  { unfold dest, PageSize, MemorySize, NumPhysPages, SectorSize in *. lia. }
  split; [|split; [done|split]].
  - split; cbn; [by rewrite length_splice|by apply Forall_splice].
  - intros a Ha. cbn [mainMemory set_memory]. rewrite lookup_splice_out; [|done|].
    + apply Hout. intros (f' & ? & ?). apply Ha. exists f'. set_solver.
    + destruct (decide (dest g f <= a < dest g f + Z.to_nat PageSize)%nat) as [Hd|Hd]; [|lia].
      exfalso. apply Ha. exists f. set_solver.
  - intros (Hnd & Hnin & _)%list.NoDup_app j f' bs' Hj Hr'. cbn [mainMemory set_memory].
    destruct (decide (j < length fs)%nat) as [Hlt|Hge].
    + rewrite lookup_app_l in Hj by done. rewrite slice_splice_disjoint; [by apply (Hin Hnd j f' bs')|done|].
      assert (f' <> f). { intros ->. apply (Hnin f); [by eapply list_elem_of_lookup_2|set_solver]. }
      destruct (Hrd PageSize (inFileAddr g + Z.of_nat j * PageSize)) as (bs1 & E1 & Hl1 & _);
        [done|unfold PageSize, SectorSize; lia|]. rewrite Hr' in E1. injection E1 as <-.
      pose proof (dest_apart g f f' Hv). lia.
    + rewrite lookup_app_r in Hj by lia. destruct (j - length fs)%nat as [|i] eqn:Ej; [|done].
      cbn in Hj. injection Hj as <-. replace j with (length fs) in Hr' by lia.
      rewrite Hr in Hr'. injection Hr' as <-. by apply slice_splice_same.
Qed.

Lemma load_segment_ok ReadAt m g fs :
  readable ReadAt -> mem_ok m -> fits g fs -> 0 < size g ->
  exists m', load_segment ReadAt m (table fs) (Z.of_nat (length fs)) g = Ok m' /\ loaded ReadAt g fs m m'.
Proof.
  intros Hr Hm Hf Hg. destruct (Hf Hg) as (Hv & Hi & Hmax & Hall). unfold load_segment.
  rewrite Z.gtb_ltb, (proj2 (Z.ltb_lt _ _)) by done.
  destruct (for_range_inv (fun i m' => loaded ReadAt g (take (Z.to_nat i) fs) m m')
    0 (Z.of_nat (length fs))
    (fun i m => e ← rd (table fs) i;
       read_into ReadAt m (virtualAddr g + physicalPage e * PageSize) PageSize (s32 (inFileAddr g + i * PageSize)))
    m) as (m' & E & Hl); [lia| | |].
  - split; [done|]. split; [done|]. split; [done|]. intros _ j f bs Hj. done.
  - intros i m1 Hi1 Hl1. destruct (lookup_lt_is_Some_2 fs (Z.to_nat i)) as [f Ef]; [lia|].
    rewrite (rd_lookup _ _ (mkEntry i (Z.of_nat f) true false false false)); [|lia|].
    2:{ rewrite lookup_table, Ef. cbn. by rewrite Z2Nat.id by lia. }
    cbn [mbind outcome_bind physicalPage].
    pose proof (proj1 (Forall_lookup _ _) Hall _ _ Ef) as Hfit. cbn in Hfit.
    unfold PageSize, SectorSize in *.
    rewrite (s32_small (inFileAddr g + i * 512)) by (unfold is_s32; lia).
    destruct (read_into_ok ReadAt m1 (virtualAddr g + Z.of_nat f * 512) (inFileAddr g + i * 512))
      as (bs & Hbs & Hlen & Hu & E & _);
      [done|by destruct Hl1|lia|unfold PageSize, SectorSize; lia|lia|].
    unfold PageSize, SectorSize in E. rewrite E. eexists. split; [done|].
    replace (Z.to_nat (i + 1)) with (S (Z.to_nat i)) by lia. rewrite (take_S_r _ _ f) by done.
    apply (loaded_snoc ReadAt g _ f m m1 bs); try done. rewrite length_take.
    replace (Z.of_nat (Z.to_nat i `min` length fs)) with i by lia. done.
  - exists m'. split; [done|]. rewrite Nat2Z.id, take_ge in Hl by lia. done.
Qed.

(** Loading any segment keeps the machine well formed and the registers. *)
Lemma load_segment_keeps ReadAt m g fs :
  readable ReadAt -> mem_ok m -> fits g fs ->
  exists m', load_segment ReadAt m (table fs) (Z.of_nat (length fs)) g = Ok m' /\ mem_ok m' /\ same_but_mem m m'.
Proof.
  intros Hr Hm Hf. destruct (decide (0 < size g)) as [Hg|Hg].
  - destruct (load_segment_ok ReadAt m g fs) as (m' & E & ? & ? & _); try done. by exists m'.
  - exists m. split; [|done]. unfold load_segment. rewrite Z.gtb_ltb, (proj2 (Z.ltb_ge _ _)) by lia. done.
Qed.

Lemma load_ok ReadAt k noffH n :
  readable ReadAt -> mem_ok (machine k) -> al_wf (gPhysPageBitMap k) -> 0 <= n ->
  (Z.to_nat n <= count_clear (al_bits (gPhysPageBitMap k)))%nat ->
  (forall fs bs, take_slots (Z.to_nat n) (al_bits (gPhysPageBitMap k)) = (fs, bs) ->
     fits (code noffH) fs /\ fits (initData noffH) fs) ->
  exists k' fs, load ReadAt k noffH n = Ok (k', mk (table fs) n) /\
    take_slots (Z.to_nat n) (al_bits (gPhysPageBitMap k)) = (fs, al_bits (gPhysPageBitMap k')) /\
    Z.of_nat (length fs) = n /\ al_wf (gPhysPageBitMap k') /\ addrLock k' = addrLock k + 1 /\
    mem_ok (machine k') /\ same_but_mem (machine k) (machine k').
Proof.
  intros Hr Hm Hwf Hn Hc Hfit. unfold load.
  destruct (map_pages_ok n (gPhysPageBitMap k)) as (fs & b' & -> & Hwf' & Hks & Hl); [done|done|done|].
  cbn [mbind outcome_bind]. destruct (Hfit fs (al_bits b') Hks) as [Hf1 Hf2].
  cbn [machine lock_V set_pages]. rewrite <- Hl.
  destruct (load_segment_keeps ReadAt (machine k) (code noffH) fs) as (m1 & -> & Hm1 & S1); try done.
  cbn [mbind outcome_bind].
  destruct (load_segment_keeps ReadAt m1 (initData noffH) fs) as (m2 & -> & Hm2 & S2); try done.
  cbn [mbind outcome_bind]. eexists _, fs. split; [done|]. cbn. rewrite Nat2Z.id in *.
  rewrite <- Hl, Nat2Z.id in Hks. split; [done|]. split; [done|]. split; [done|]. split; [lia|]. split; [done|].
  destruct S1 as (? & ? & ? & ?), S2 as (? & ? & ? & ?). repeat split; congruence.
Qed.

Lemma destroy_ok k fs :
  al_wf (gPhysPageBitMap k) -> Forall (fun f => (f < length (al_bits (gPhysPageBitMap k)))%nat) fs ->
  exists k', AddrSpace_destroy k (mk (table fs) (Z.of_nat (length fs))) = Ok k' /\
    al_wf (gPhysPageBitMap k') /\ machine k' = machine k /\ addrLock k' = addrLock k /\
    al_bits (gPhysPageBitMap k') = clear_slots fs (al_bits (gPhysPageBitMap k)).
Proof.
  intros Hwf Hf. unfold AddrSpace_destroy. cbn [numPages pageTable].
  destruct (for_range_inv (fun i b => al_wf b /\
      al_bits b = clear_slots (take (Z.to_nat i) fs) (al_bits (gPhysPageBitMap k)))
    0 (Z.of_nat (length fs)) (fun i b => e ← rd (table fs) i; al_Clear b (physicalPage e))
    (gPhysPageBitMap k)) as (b' & -> & Hwf' & Hb); [lia|done| |].
  - intros i b1 Hi (Hwf1 & Hb1). destruct (lookup_lt_is_Some_2 fs (Z.to_nat i)) as [f Ef]; [lia|].
    rewrite (rd_lookup _ _ (mkEntry i (Z.of_nat f) true false false false)); [|lia|].
    2:{ rewrite lookup_table, Ef. cbn. by rewrite Z2Nat.id by lia. }
    cbn [mbind outcome_bind physicalPage].
    destruct (al_Clear_ok b1 f Hwf1) as (b2 & -> & Hwf2 & Hb2).
    { rewrite Hb1, length_clear_slots. exact (proj1 (Forall_lookup _ _) Hf _ _ Ef). }
    exists b2. split; [done|]. split; [done|]. replace (Z.to_nat (i + 1)) with (S (Z.to_nat i)) by lia.
    by rewrite (take_S_r _ _ f), clear_slots_snoc, <- Hb1.
  - cbn [mbind outcome_bind]. eexists. split; [done|]. cbn. split; [done|]. split; [done|]. split; [done|].
    by rewrite Hb, Nat2Z.id, take_ge by lia.
Qed.

(** ** Properties *)

(** A file and a kernel from which an address space can be made: the header
    reads as [noffH], the lock is free, there are enough physical pages, and the
    segments stay inside main memory wherever its pages are. *)
Record ready ReadAt (raw : list Z) (noffH : NoffHeader) k : Prop := {
  r_file : readable ReadAt;
  r_header : read_header ReadAt raw = Ok noffH;
  r_mem : mem_ok (machine k);
  r_map : al_wf (gPhysPageBitMap k);
  r_lock : 0 < addrLock k;
  r_small : pages_needed noffH <= NumPhysPages;
  r_room : pages_needed noffH <= Z.of_nat (count_clear (al_bits (gPhysPageBitMap k)));
  r_fits fs bs : take_slots (Z.to_nat (pages_needed noffH)) (al_bits (gPhysPageBitMap k)) = (fs, bs) ->
    fits (code noffH) fs /\ fits (initData noffH) fs;
}.

Lemma pages_needed_nonneg h : 0 <= pages_needed h.
Proof. unfold pages_needed. apply u32_range. Qed.

Lemma create_ok ReadAt raw noffH garbage k :
  ready ReadAt raw noffH k ->
  AddrSpace_file ReadAt raw garbage k = AddrSpace_name ReadAt raw k /\
  exists k' fs, AddrSpace_name ReadAt raw k = Ok (k', mk (table fs) (pages_needed noffH)) /\
    take_slots (Z.to_nat (pages_needed noffH)) (al_bits (gPhysPageBitMap k)) = (fs, al_bits (gPhysPageBitMap k')) /\
    Z.of_nat (length fs) = pages_needed noffH /\ al_wf (gPhysPageBitMap k') /\ addrLock k' = addrLock k /\
    mem_ok (machine k') /\ same_but_mem (machine k) (machine k').
Proof.
  intros Hrd. pose proof Hrd as [Hr Hh Hm Hwf Hl Hs Hc Hf]. pose proof (pages_needed_nonneg noffH) as Hn.
  unfold AddrSpace_file, AddrSpace_name. rewrite Hh. cbn [mbind outcome_bind]. unfold lock_P.
  rewrite (proj2 (Z.eqb_neq _ _)) by lia. cbn [mbind outcome_bind].
  rewrite ASSERT_true by (by apply Z.leb_le). cbn [mbind outcome_bind gPhysPageBitMap].
  rewrite al_NumClear_ok by done. cbn [mbind outcome_bind].
  rewrite Z.gtb_ltb, (proj2 (Z.ltb_ge _ _)) by done. split; [done|].
  destruct (load_ok ReadAt (mkKernel (machine k) (gPhysPageBitMap k) (addrLock k - 1)) noffH (pages_needed noffH))
    as (k' & fs & -> & Hks & Hlen & Hwf' & Hlk & Hm' & Hsame); try done; [cbn [gPhysPageBitMap]; lia|].
  cbn in Hlk. exists k', fs. repeat (split; [done|]). split; [lia|]. done.
Qed.

(** C23: the constructors of [AddrSpace] give a program its own physical pages.
    Both build a table that maps page [i] to the [i]th of as many frames as the
    program needs; the frames are pairwise different, were free before and are
    marked after, no other page's mark changes, the registers are untouched and
    [addrLock] is released. *)
Theorem AddrSpace_takes_free_frames ReadAt raw noffH garbage k :
  ready ReadAt raw noffH k ->
  AddrSpace_file ReadAt raw garbage k = AddrSpace_name ReadAt raw k /\
  exists k' fs, AddrSpace_name ReadAt raw k = Ok (k', mk (table fs) (pages_needed noffH)) /\
    Z.of_nat (length fs) = pages_needed noffH /\ NoDup fs /\
    (forall f, f ∈ fs -> al_bits (gPhysPageBitMap k) !! f = Some false) /\
    (forall f, al_bits (gPhysPageBitMap k') !! f =
       if decide (f ∈ fs) then Some true else al_bits (gPhysPageBitMap k) !! f) /\
    addrLock k' = addrLock k /\ registers (machine k') = registers (machine k) /\ mem_ok (machine k').
Proof.
  intros Hrd. destruct (create_ok ReadAt raw noffH garbage k Hrd)
    as (E & k' & fs & Ek & Hks & Hlen & _ & Hlk & Hm & (Hreg & _)). split; [done|].
  destruct (take_slots_spec _ _ _ _ Hks) as (_ & Hnd & Hfree & Hset & _); [destruct Hrd; lia|].
  exists k', fs. done.
Qed.

(** Deleting an address space gives back exactly the physical pages that
    creating it took: the bitmap is what it was before. *)
Theorem AddrSpace_destroy_restores ReadAt raw noffH k k' sp :
  ready ReadAt raw noffH k -> AddrSpace_name ReadAt raw k = Ok (k', sp) ->
  exists k'', AddrSpace_destroy k' sp = Ok k'' /\
    al_bits (gPhysPageBitMap k'') = al_bits (gPhysPageBitMap k) /\ addrLock k'' = addrLock k.
Proof.
  intros Hrd E. destruct (create_ok ReadAt raw noffH [] k Hrd)
    as (_ & k1 & fs & Ek & Hks & Hlen & Hwf' & Hlk & _). rewrite Ek in E. injection E as -> <-.
  assert (Hc : (Z.to_nat (pages_needed noffH) <= count_clear (al_bits (gPhysPageBitMap k)))%nat) by (destruct Hrd; lia).
  destruct (take_slots_spec _ _ _ _ Hks Hc) as (_ & _ & Hfree & _ & Hl' & _).
  rewrite <- Hlen. destruct (destroy_ok k' fs Hwf') as (k2 & -> & _ & _ & Hlk2 & Hb).
  { apply Forall_lookup. intros i f Hf. rewrite Hl'. apply list_elem_of_lookup_2, Hfree in Hf.
    by eapply lookup_lt_Some. }
  exists k2. split; [done|]. split; [|congruence]. rewrite Hb. by apply (clear_take_slots _ _ _ _ Hks).
Qed.

(** Where the loader puts a segment.  A segment that starts at virtual page
    [v] is read page by page, and its [j]th page is stored [v] frames after the
    frame of virtual page [j]; memory elsewhere is not changed.  For a segment at
    virtual page 0 these are the program's frames in the right order; for any
    other it is the frame of virtual page [j + v] only where the frames are
    consecutive. *)
Theorem segment_page_location ReadAt m g fs v :
  readable ReadAt -> mem_ok m -> fits g fs -> 0 < size g -> NoDup fs ->
  virtualAddr g = Z.of_nat v * PageSize ->
  exists m', load_segment ReadAt m (table fs) (Z.of_nat (length fs)) g = Ok m' /\
    (forall j f bs, fs !! j = Some f ->
       ReadAt PageSize (inFileAddr g + Z.of_nat j * PageSize) = Ok bs ->
       slice (mainMemory m') ((f + v) * Z.to_nat PageSize) (length bs) = bs) /\
    (forall a, (forall f, f ∈ fs -> ~ ((f + v) * Z.to_nat PageSize <= a < (f + v + 1) * Z.to_nat PageSize)%nat) ->
       mainMemory m' !! a = mainMemory m !! a).
Proof.
  intros Hr Hm Hf Hg Hnd Hv. destruct (load_segment_ok ReadAt m g fs Hr Hm Hf Hg) as (m' & E & _ & _ & Hout & Hin).
  assert (Hd : forall f, dest g f = ((f + v) * Z.to_nat PageSize)%nat).
  { intros f. unfold dest. rewrite Hv. unfold PageSize, SectorSize. lia. }
  exists m'. split; [done|]. split.
  - intros j f bs Hj Hbs. rewrite <- Hd. by apply (Hin Hnd j f bs).
  - intros a Ha. apply Hout. intros (f & Hf' & Hle). rewrite Hd in Hle. apply (Ha f Hf').
    unfold PageSize, SectorSize in *. lia.
Qed.

(** A program without initialised data: its memory is that of the code. *)
Lemma code_loaded ReadAt raw noffH k k' sp :
  ready ReadAt raw noffH k -> 0 < size (code noffH) -> size (initData noffH) <= 0 ->
  AddrSpace_name ReadAt raw k = Ok (k', sp) ->
  exists fs, sp = mk (table fs) (pages_needed noffH) /\ Z.of_nat (length fs) = pages_needed noffH /\
    take_slots (Z.to_nat (pages_needed noffH)) (al_bits (gPhysPageBitMap k)) = (fs, al_bits (gPhysPageBitMap k')) /\
    fits (code noffH) fs /\ loaded ReadAt (code noffH) fs (machine k) (machine k').
Proof.
  intros Hrd Hc Hi E. destruct (create_ok ReadAt raw noffH [] k Hrd) as (_ & k2 & fs & E2 & Hks & Hlen & _ & _ & Hm' & _).
  rewrite E in E2. injection E2 as <- ->. pose proof Hrd as [Hr Hh Hm Hwf Hl Hs Hroom Hfit]. destruct (Hfit fs _ Hks) as [Hf _].
  exists fs. split; [done|]. split; [done|]. split; [done|]. split; [done|].
  unfold AddrSpace_name in E. rewrite Hh in E. cbn [mbind outcome_bind] in E. inv_bind E. rename x into k1. rename E0 into E1.
  unfold lock_P in E1. destruct (_ =? 0) in E1; [discriminate E1|]. injection E1 as <-. cbn [gPhysPageBitMap] in E. inv_bind E.
  destruct (_ >? _) in E; [inv_bind E; discriminate E|]. unfold load in E. inv_bind E. destruct x0 as [pt b]. cbn [machine lock_V set_pages] in E.
  inv_bind E. rename x0 into m1. rename E2 into E3. inv_bind E. rename x0 into m2. rename E2 into E4. injection E as <- -> .
  rewrite <- Hlen in E3, E4. destruct (load_segment_ok ReadAt (machine k) (code noffH) fs Hr Hm Hf Hc) as (m3 & E5 & HL).
  rewrite E5 in E3. injection E3 as <-. unfold load_segment in E4. rewrite Z.gtb_ltb, (proj2 (Z.ltb_ge _ _)) in E4 by lia. by injection E4 as <-.
Qed.

Lemma load_segment_overrun ReadAt m g fs f bs :
  0 < size g -> 0 <= virtualAddr g -> is_s32 (inFileAddr g) -> mem_ok m ->
  ReadAt PageSize (inFileAddr g) = Ok bs -> bs <> [] -> NumPhysPages <= Z.of_nat f ->
  load_segment ReadAt m (table (f :: fs)) (Z.of_nat (length (f :: fs))) g = Fault BadAccess.
Proof.
  intros Hg Hv Hi (Hl & _) Hbs Hne Hf. unfold load_segment, for_range.
  rewrite Z.gtb_ltb, (proj2 (Z.ltb_lt _ _)) by done. rewrite Z.sub_0_r, Nat2Z.id. cbn [length for_loop].
  rewrite (rd_lookup _ _ (mkEntry 0 (Z.of_nat f) true false false false)) by done.
  cbn [mbind outcome_bind physicalPage]. unfold read_into.
  rewrite Z.mul_0_l, Z.add_0_r, s32_small, Hbs by done. cbn [mbind outcome_bind].
  rewrite bool_decide_false by done. unfold mem_set.
  assert (0 < length bs)%nat by (destruct bs; [done|cbn; lia]).
  rewrite Hl. unfold MemorySize, NumPhysPages, PageSize, SectorSize in *. bool_cases; (done || lia).
Qed.

(** C40: running out of physical memory is not noticed.  The bitmap of physical
    pages may have more bits than the machine has frames (the kernel makes 256
    for 128); when all the frames are taken but bits are left, the constructors
    go on and store the program past the end of main memory. *)
Theorem memory_exhaustion_overruns ReadAt raw noffH garbage k bs :
  readable ReadAt -> read_header ReadAt raw = Ok noffH -> mem_ok (machine k) ->
  al_wf (gPhysPageBitMap k) -> 0 < addrLock k ->
  (forall f, Z.of_nat f < NumPhysPages -> al_bits (gPhysPageBitMap k) !! f = Some true) ->
  0 < pages_needed noffH <= NumPhysPages ->
  pages_needed noffH <= Z.of_nat (count_clear (al_bits (gPhysPageBitMap k))) ->
  0 < size (code noffH) -> 0 <= virtualAddr (code noffH) -> is_s32 (inFileAddr (code noffH)) ->
  ReadAt PageSize (inFileAddr (code noffH)) = Ok bs -> bs <> [] ->
  AddrSpace_file ReadAt raw garbage k = Fault BadAccess /\ AddrSpace_name ReadAt raw k = Fault BadAccess.
Proof.
  intros Hr Hh Hm Hwf Hl Hfull Hn Hc Hg Hv Hi Hbs Hne.
  unfold AddrSpace_file, AddrSpace_name. rewrite Hh. cbn [mbind outcome_bind]. unfold lock_P.
  rewrite (proj2 (Z.eqb_neq _ _)) by lia. cbn [mbind outcome_bind].
  rewrite ASSERT_true by (apply Z.leb_le; lia). cbn [mbind outcome_bind gPhysPageBitMap].
  rewrite al_NumClear_ok by done. cbn [mbind outcome_bind].
  rewrite Z.gtb_ltb, (proj2 (Z.ltb_ge _ _)) by done.
  assert (E : load ReadAt (mkKernel (machine k) (gPhysPageBitMap k) (addrLock k - 1)) noffH (pages_needed noffH)
              = Fault BadAccess); [|by rewrite E].
  unfold load. cbn [gPhysPageBitMap].
  destruct (map_pages_ok (pages_needed noffH) (gPhysPageBitMap k)) as (fs & b' & -> & _ & Hks & Hlen); [done|lia|lia|].
  cbn [mbind outcome_bind lock_V set_pages machine]. destruct fs as [|f fs]; [cbn in Hlen; lia|].
  destruct (take_slots_spec _ _ _ _ Hks) as (_ & _ & Hfree & _); [lia|].
  rewrite <- Hlen, (load_segment_overrun ReadAt _ _ fs f bs); try done.
  destruct (decide (NumPhysPages <= Z.of_nat f)) as [|Hlt]; [done|].
  specialize (Hfree f ltac:(left)). rewrite Hfull in Hfree by lia. done.
Qed.

(** Without enough free pages the constructor from an open file takes
    nothing and releases the lock, but the constructor from a name deletes the
    executable twice. *)
Theorem AddrSpace_without_room ReadAt raw noffH garbage k :
  read_header ReadAt raw = Ok noffH -> al_wf (gPhysPageBitMap k) -> 0 < addrLock k ->
  pages_needed noffH <= NumPhysPages ->
  Z.of_nat (count_clear (al_bits (gPhysPageBitMap k))) < pages_needed noffH ->
  AddrSpace_file ReadAt raw garbage k = Ok (k, mk garbage 0) /\
  AddrSpace_name ReadAt raw k = Fault BadAccess.
Proof.
  intros Hh Hwf Hl Hs Hc. unfold AddrSpace_file, AddrSpace_name. rewrite Hh. cbn [mbind outcome_bind].
  unfold lock_P. rewrite (proj2 (Z.eqb_neq _ _)) by lia. cbn [mbind outcome_bind].
  rewrite ASSERT_true by (apply Z.leb_le; lia). cbn [mbind outcome_bind gPhysPageBitMap].
  rewrite al_NumClear_ok by done. cbn [mbind outcome_bind].
  rewrite Z.gtb_ltb, (proj2 (Z.ltb_lt _ _)) by done. split.
  - unfold lock_V. cbn. rewrite Z.sub_add. by destruct k.
  - unfold load, load_segment, map_pages, for_range. cbn [Z.sub Z.to_nat for_loop mbind outcome_bind Z.add Z.opp].
    by destruct (size (code noffH) >? 0), (size (initData noffH) >? 0).
Qed.

End allocation.

(** ** A concrete program *)

(** A file with given contents. *)
Definition reader (contents : list Z) (n pos : Z) : outcome (list Z) :=
  Ok (slice contents (Z.to_nat pos) (Z.to_nat n)).

Lemma reader_readable contents : Forall is_u8 contents -> readable (reader contents).
Proof.
  intros Hu n pos Hn Hp. eexists. split; [done|]. split; [unfold slice; rewrite length_take; lia|].
  by apply Forall_slice.
Qed.

(** 600 bytes of code at virtual address 0, and nothing else. *)
Definition demo_header : NoffHeader :=
  mkNoff NOFFMAGIC (mkSegment 0 40 600) (mkSegment 0 0 0) (mkSegment 0 0 0).
Definition demo_file : list Z :=
  flat_map (le_bytes 4) [NOFFMAGIC; 0; 40; 600; 0; 0; 0; 0; 0; 0] ++ replicate 600 7.
Definition demo_raw : list Z := replicate 40 0.

Lemma demo_file_readable : readable (reader demo_file).
Proof.
  apply reader_readable. apply Forall_app. split.
  - cbn [flat_map]. repeat (apply Forall_app; split; [apply le_bytes_u8|]). constructor.
  - apply Forall_replicate. unfold is_u8. lia.
Qed.

Lemma demo_read_header : read_header (reader demo_file) demo_raw = Ok demo_header.
Proof. by vm_compute. Qed.

Lemma demo_ready {T} `{AllocatorLaws T} (k : kernel T) fs bs :
  mem_ok (machine k) -> al_wf (gPhysPageBitMap k) -> addrLock k = 1 ->
  (4 <= count_clear (al_bits (gPhysPageBitMap k)))%nat ->
  take_slots 4 (al_bits (gPhysPageBitMap k)) = (fs, bs) -> Forall (fun f => Z.of_nat f < NumPhysPages) fs ->
  ready (reader demo_file) demo_raw demo_header k.
Proof.
  intros Hm Hwf Hl Hc Hks Hf. change (pages_needed demo_header) with 4.
  assert (length fs = 4%nat) as Hlen by (by destruct (take_slots_spec _ _ _ _ Hks Hc) as (? & _)).
  split; [apply demo_file_readable|apply demo_read_header|done|done|lia|done| |].
  - change (pages_needed demo_header) with 4. lia.
  - change (Z.to_nat (pages_needed demo_header)) with 4%nat. intros fs' bs' E. rewrite Hks in E.
    injection E as <- <-. split; intros Hg; [|done]. cbn. split; [done|]. split; [done|].
    rewrite Hlen. split; [done|]. revert Hf. apply Forall_impl. cbn. intros f Hlt.
    unfold MemorySize, NumPhysPages, PageSize, SectorSize in *. lia.
Qed.

(** A kernel with all 256 bits clear and the frames the program gets in it. *)
Lemma demo_kernel :
  exists m (b : BitMap.t), m = Machine_new 0 0 false /\ BitMap.BitMap (fun i => i) 256 = Ok b /\
    regs_ok m /\ mem_ok m /\ al_wf b /\ al_bits b = replicate 256 false /\
    ready (reader demo_file) demo_raw demo_header (mkKernel m b 1).
Proof.
  destruct fresh_machine as [m E]. destruct (BitMap.BitMap_spec (fun i => i) 256 ltac:(done)) as (b & Eb & Hwf & _ & Hb).
  assert (Hok : regs_ok m /\ mem_ok m) by (rewrite E; apply Machine_new_ok). destruct Hok as [Hr Hm].
  change (BitMap.bits b) with (al_bits b) in Hb.
  exists m, b. split; [exact E|]. split; [exact Eb|]. split; [exact Hr|]. split; [exact Hm|].
  split; [exact Hwf|]. split; [exact Hb|]. clear E.
  apply (demo_ready _ [0; 1; 2; 3]%nat (take_slots 4 (replicate 256 false)).2); cbn [machine gPhysPageBitMap addrLock].
  - exact Hm.
  - exact Hwf.
  - done.
  - rewrite Hb, count_clear_replicate. lia.
  - rewrite Hb. by vm_compute.
  - repeat constructor.
Qed.

Lemma AddrSpace_takes_free_frames_witness :
  exists m (b : BitMap.t) k' fs, BitMap.BitMap (fun i => i) 256 = Ok b /\
    AddrSpace_name (reader demo_file) demo_raw (mkKernel m b 1) = Ok (k', mk (table fs) 4) /\ NoDup fs.
Proof.
  destruct demo_kernel as (m & b & _ & Eb & _ & _ & _ & _ & Hrd).
  destruct (AddrSpace_takes_free_frames (reader demo_file) demo_raw demo_header [] (mkKernel m b 1) Hrd)
    as (_ & k' & fs & E & _ & Hnd & _).
  exists m, b, k', fs. split; [exact Eb|]. split; [exact E|exact Hnd].
Defined.

Lemma AddrSpace_destroy_restores_witness :
  exists m (b : BitMap.t) k' sp k'', BitMap.BitMap (fun i => i) 256 = Ok b /\
    AddrSpace_name (reader demo_file) demo_raw (mkKernel m b 1) = Ok (k', sp) /\
    AddrSpace_destroy k' sp = Ok k'' /\ al_bits (gPhysPageBitMap k'') = al_bits b.
Proof.
  destruct demo_kernel as (m & b & _ & Eb & _ & _ & _ & _ & Hrd).
  destruct (create_ok (reader demo_file) demo_raw demo_header [] (mkKernel m b 1) Hrd) as (_ & k' & fs & E & _).
  destruct (AddrSpace_destroy_restores (reader demo_file) demo_raw demo_header (mkKernel m b 1) k' _ Hrd E)
    as (k'' & Ed & Hb & _).
  exists m, b, k', (mk (table fs) (pages_needed demo_header)), k''. split; [exact Eb|]. split; [exact E|]. split; [exact Ed|exact Hb].
Defined.

(** A segment at virtual page 2 of a program whose frames are 0, 1 and 3 is
    stored in frame 2, which is not one of them. *)
Lemma segment_page_location_witness :
  exists m m', m = Machine_new 0 0 false /\
    load_segment (reader (replicate 512 9)) m (table [0; 1; 3]%nat) 3 (mkSegment 1024 0 512) = Ok m' /\
    slice (mainMemory m') (2 * 512) 512 = replicate 512 9.
Proof.
  destruct fresh_machine as [m E]. exists m.
  assert (Hm : mem_ok m) by (rewrite E; apply Machine_new_ok).
  destruct (segment_page_location (reader (replicate 512 9)) m (mkSegment 1024 0 512) [0; 1; 3]%nat 2)
    as (m' & El & Hin & _).
  - apply reader_readable, Forall_replicate. unfold is_u8. lia.
  - exact Hm.
  - intros _. cbn. split; [done|]. split; [done|]. split; [done|].
    unfold MemorySize, NumPhysPages, PageSize, SectorSize. repeat constructor; lia.
  - done.
  - repeat (apply list.NoDup_cons; split; [set_solver|]). apply NoDup_nil_2.
  - done.
  - exists m'. split; [exact E|]. split; [exact El|].
    pose proof (Hin 0%nat 0%nat (replicate 512 9) eq_refl eq_refl) as H. rewrite length_replicate in H. exact H.
Defined.

(** 256 bits of which the first 128 are taken. *)
Lemma full_bitmap :
  exists b : BitMap.t, al_wf b /\ al_bits b = replicate 128 true ++ replicate 128 false.
Proof.
  destruct (BitMap.BitMap_spec (fun i => i) 256 ltac:(done)) as (b & _ & Hwf & _ & Hb).
  change (BitMap.bits b) with (al_bits b) in Hb. change (BitMap.wf b) with (al_wf b) in Hwf.
  destruct (map_pages_ok 128 b Hwf) as (fs & b' & _ & Hwf' & Hks & _); [done| |].
  { rewrite Hb, count_clear_replicate. lia. }
  exists b'. split; [done|]. rewrite Hb in Hks.
  change (Z.to_nat 128) with 128%nat in Hks. change (Z.to_nat 256) with 256%nat in Hks.
  replace (al_bits b') with (take_slots 128 (replicate 256 false)).2 by (by rewrite Hks). by vm_compute.
Qed.

Lemma memory_exhaustion_overruns_witness :
  exists m (b : BitMap.t), al_bits b = replicate 128 true ++ replicate 128 false /\
    AddrSpace_name (reader demo_file) demo_raw (mkKernel m b 1) = Fault BadAccess.
Proof.
  destruct fresh_machine as [m E]. assert (Hm : mem_ok m) by (rewrite E; apply Machine_new_ok).
  destruct full_bitmap as (b & Hwf & Hb). exists m, b. split; [exact Hb|].
  apply (memory_exhaustion_overruns (reader demo_file) demo_raw demo_header [] (mkKernel m b 1) (slice demo_file 40 512)
           demo_file_readable demo_read_header Hm Hwf); cbn [gPhysPageBitMap]; rewrite ?Hb; try done.
  - intros f Hf. change NumPhysPages with 128 in Hf. rewrite lookup_app_l by (rewrite length_replicate; lia).
    apply lookup_replicate_2. lia.
Defined.

Lemma AddrSpace_without_room_witness :
  exists m (b : BitMap.t), BitMap.BitMap (fun i => i) 3 = Ok b /\
    AddrSpace_name (reader demo_file) demo_raw (mkKernel m b 1) = Fault BadAccess.
Proof.
  destruct fresh_machine as [m E].
  destruct (BitMap.BitMap_spec (fun i => i) 3 ltac:(done)) as (b & Eb & Hwf & _ & Hb).
  change (BitMap.bits b) with (al_bits b) in Hb. change (BitMap.wf b) with (al_wf b) in Hwf.
  exists m, b. split; [exact Eb|].
  apply (AddrSpace_without_room (reader demo_file) demo_raw demo_header [] (mkKernel m b 1));
    [exact demo_read_header|exact Hwf|done|done|].
  cbn [gPhysPageBitMap]. by rewrite Hb.
Defined.

End AddrSpace.
