(* ===== verification/Locality.v ===== *)
(** * Programs depend on their own state only

    [like]: two machines that a program cannot tell apart, because they have the
    same registers, the same page table and the same bytes in the frames of that
    table.  Every operation of the simulated machine that a program or the kernel
    on its behalf performs (an instruction, an access to a register, a load, a
    store) does the same on both, and leaves the memory outside those frames
    alone.  [UserThreads.v] builds on this. *)

From S2P Require Import Prelude MachineSim MipsSim.

Local Open Scope Z_scope.

Module Locality.
Import Machine Mips.

(** ** Computations that do the same *)

Definition both {A B} (R : A -> B -> Prop) (o1 : outcome A) (o2 : outcome B) : Prop :=
  match o1, o2 with
  | Ok a, Ok b => R a b
  | Fault f, Fault g => f = g
  | _, _ => False
  end.

Lemma both_bind {A B A' B'} (R : A -> B -> Prop) (S : A' -> B' -> Prop) o1 o2 k1 k2 :
  both R o1 o2 -> (forall a b, R a b -> both S (k1 a) (k2 b)) -> both S (o1 ≫= k1) (o2 ≫= k2).
Proof. destruct o1, o2; cbn; [auto|done|done|auto]. Qed.

Lemma both_same {A} (o : outcome A) : both eq o o.
Proof. by destruct o. Qed.

(** ** The relation *)

(** What a table says about frames, which accesses do not change. *)
Definition shape_of (pt : list TranslationEntry) : list (bool * Z) := (fun e => (valid e, physicalPage e)) <$> pt.
Definition owns (shape : list (bool * Z)) (a : nat) : Prop := exists f, (true, f) ∈ shape /\ u32 f = Z.of_nat a / PageSize.

(** [rest] is the memory outside the frames of the table. *)
Record like (shape : list (bool * Z)) (n : Z) (rest : list Z) (m1 m2 : t) : Prop := {
  l_registers : registers m1 = registers m2 /\ Z.of_nat (length (registers m1)) = NumTotalRegs;
  l_tlb : tlb m1 = None /\ tlb m2 = None;
  l_table : exists pt, pageTable m1 = Some pt /\ pageTable m2 = Some pt /\ shape_of pt = shape;
  l_size : pageTableSize m1 = n /\ pageTableSize m2 = n;
  l_length : length (mainMemory m1) = length (mainMemory m2) /\ length rest = length (mainMemory m1);
  l_memory : forall a, owns shape a -> mainMemory m1 !! a = mainMemory m2 !! a;
  l_rest : forall a, ~ owns shape a -> mainMemory m1 !! a = rest !! a;
}.

Lemma shape_touch pt i e w : pt !! i = Some e -> shape_of (<[i := touch e w]> pt) = shape_of pt.
Proof.
  intros He. unfold shape_of. rewrite list_fmap_insert. apply list_insert_id. by rewrite list_lookup_fmap, He.
Qed.

Lemma like_refl m pt :
  tlb m = None -> pageTable m = Some pt -> Z.of_nat (length (registers m)) = NumTotalRegs ->
  like (shape_of pt) (pageTableSize m) (mainMemory m) m m.
Proof. intros Ht Hp Hl. constructor; try done. by exists pt. Qed.

Lemma like_trans sh k r r' m1 m2 m3 : like sh k r m1 m2 -> like sh k r' m2 m3 -> like sh k r m1 m3.
Proof.
  intros [[E1 R1] [T1 T1'] (pt & P1 & P1' & S1) [N1 N1'] [L1 L1'] M1 X1] [[E2 R2] [T2 T2'] (pt2 & P2 & P2' & S2) [N2 N2'] [L2 L2'] M2 X2].
  rewrite P1' in P2. injection P2 as <-. constructor; try done; [split; [congruence|done]|by exists pt|split; [congruence|done]|].
  intros a Ha. by rewrite M1, M2.
Qed.

Section machines.
Context (shape : list (bool * Z)) (n : Z) (rest : list Z).
Notation like := (like shape n rest).

Lemma like_regs m1 m2 rs : like m1 m2 -> Z.of_nat (length rs) = NumTotalRegs -> like (set_registers m1 rs) (set_registers m2 rs).
Proof. intros [] Hl. by constructor. Qed.

Lemma like_own m1 m2 : like m1 m2 -> Locality.Locality.like shape n (mainMemory m1) m1 m2.
Proof. intros [? ? ? ? [? ?] ? ?]. by constructor. Qed.

Lemma like_rreg m1 m2 i : like m1 m2 -> rreg m2 i = rreg m1 i.
Proof. intros L. unfold rreg. by rewrite (proj1 (l_registers _ _ _ _ _ L)). Qed.

Lemma like_wreg m1 m2 i v : like m1 m2 -> both like (wreg m1 i v) (wreg m2 i v).
Proof.
  intros L. unfold wreg. destruct (l_registers _ _ _ _ _ L) as [<- Hl]. destruct (wr (registers m1) i v) eqn:E; cbn; [|done].
  apply like_regs; [done|]. apply wr_inv in E as [_ ->]. by rewrite length_insert.
Qed.

Lemma both_rreg {A} (R : A -> A -> Prop) m1 m2 i k1 k2 :
  like m1 m2 -> (forall v, both R (k1 v) (k2 v)) -> both R (rreg m1 i ≫= k1) (rreg m2 i ≫= k2).
Proof. intros L Hk. rewrite (like_rreg m1 m2 i L). destruct (rreg m1 i); cbn; auto. Qed.

Lemma both_wreg {A} (R : A -> A -> Prop) m1 m2 i v k1 k2 :
  like m1 m2 -> (forall m1' m2', like m1' m2' -> both R (k1 m1') (k2 m2')) -> both R (wreg m1 i v ≫= k1) (wreg m2 i v ≫= k2).
Proof. intros L Hk. by apply (both_bind _ _ _ _ _ _ (like_wreg m1 m2 i v L)). Qed.

Lemma like_DelayedLoad m1 m2 r v : like m1 m2 -> both like (DelayedLoad m1 r v) (DelayedLoad m2 r v).
Proof.
  intros L. unfold DelayedLoad. apply both_rreg; [done|intros lr]. apply both_rreg; [done|intros lv].
  do 3 (apply both_wreg; [done|clear L m1 m2; intros m1 m2 L]). by apply like_wreg.
Qed.

Lemma like_raise_entry m1 m2 bad : like m1 m2 -> both like (raise_entry m1 bad) (raise_entry m2 bad).
Proof.
  intros L. unfold raise_entry. apply both_wreg; [done|clear L m1 m2; intros m1 m2 L]. by apply like_DelayedLoad.
Qed.

(** ** Memory *)

(** The answers are the same and the machines stay alike. *)
Definition answers {A} (p1 p2 : t * A) : Prop := like p1.1 p2.1 /\ p1.2 = p2.2.

(** What a translation gives: an address in a frame of the table. *)
Definition in_frame (virtAddr : Z) (r : ExceptionType + Z) : Prop :=
  match r with
  | inl _ => True
  | inr pa => exists f, (true, f) ∈ shape /\ u32 f < NumPhysPages /\ pa = u32 f * PageSize + offset_of virtAddr
  end.

Lemma offset_range virtAddr : 0 <= offset_of virtAddr < PageSize.
Proof. apply Z.mod_pos_bound. done. Qed.

Lemma like_Translate m1 m2 virtAddr size w : like m1 m2 ->
  both (fun p1 p2 => answers p1 p2 /\ in_frame virtAddr p1.2 /\ match p1.2 with inr _ => misaligned virtAddr size = false | _ => True end)
    (Translate m1 virtAddr size w) (Translate m2 virtAddr size w).
Proof.
  intros L. unfold Translate. destruct (misaligned virtAddr size) eqn:Em; [done|].
  destruct (l_tlb _ _ _ _ _ L) as [-> ->]. destruct (l_table _ _ _ _ _ L) as (pt & -> & -> & Esh).
  destruct (l_size _ _ _ _ _ L) as [-> ->]. destruct (vpn_of virtAddr >=? n); [done|].
  destruct (rd pt (vpn_of virtAddr)) as [e|] eqn:Er; cbn [mbind outcome_bind]; [|done]. destruct (valid e) eqn:Ev; cbn [negb]; [|done].
  unfold finish_translate. rewrite Er. cbn [mbind outcome_bind]. destruct (readOnly e && w); [done|].
  destruct (u32 (physicalPage e) >=? NumPhysPages) eqn:Ef; [done|]. rewrite Z.geb_leb in Ef. apply Z.leb_gt in Ef.
  destruct (wr pt (vpn_of virtAddr) (touch e w)) as [pt'|] eqn:Ew; cbn [mbind outcome_bind]; [|done].
  destruct (ASSERT _); cbn [mbind outcome_bind both]; [|done].
  apply rd_inv in Er as [_ He]. apply wr_inv in Ew as [_ ->]. pose proof (shape_touch pt _ e w He) as Hsh.
  split; [|split; [|done]].
  - split; [|done]. destruct L. constructor; cbn; try done. eexists. split; [reflexivity|]. split; [reflexivity|congruence].
  - cbn. exists (physicalPage e). pose proof (u32_range (physicalPage e)) as [Hp _]. pose proof (offset_range virtAddr) as Ho.
    unfold NumPhysPages, PageSize, SectorSize in *. split; [|split; [lia|apply s32_small; unfold is_s32; lia]].
    rewrite <- Esh. apply list_elem_of_fmap. exists e. split; [by rewrite Ev|]. by eapply list_elem_of_lookup_2.
Qed.

(** The bytes of an aligned access lie in the frame. *)
Lemma in_frame_owns virtAddr size pa i :
  in_frame virtAddr (inr pa) -> is_size size -> misaligned virtAddr size = false -> (Z.of_nat i < size) -> owns shape (Z.to_nat pa + i).
Proof.
  intros (f & Hf & Hr & ->) Hs Ha Hi. destruct (aligned_offset virtAddr size Hs Ha). exists f. split; [done|].
  pose proof (u32_range f) as [Hp _]. generalize dependent (u32 f). intros g Hr Hp.
  unfold PageSize, SectorSize in *. Z.to_euclidean_division_equations. lia.
Qed.

Lemma in_frame_nonneg virtAddr pa : in_frame virtAddr (inr pa) -> 0 <= pa.
Proof.
  intros (f & _ & _ & ->). pose proof (offset_range virtAddr). pose proof (u32_range f) as [Hp _]. unfold PageSize, SectorSize in *. lia.
Qed.

Lemma like_mem_bytes m1 m2 virtAddr size pa k :
  like m1 m2 -> in_frame virtAddr (inr pa) -> is_size size -> misaligned virtAddr size = false -> Z.of_nat k = size ->
  mem_bytes m2 pa k = mem_bytes m1 pa k.
Proof.
  intros L Hf Hs Ha Hk. unfold mem_bytes. rewrite (proj1 (l_length _ _ _ _ _ L)). destruct (_ && _); [|done]. f_equal.
  apply list_eq. intros i. destruct (decide (i < k)%nat) as [Hi|Hi].
  - rewrite !lookup_slice by done. symmetry. apply (l_memory _ _ _ _ _ L). apply (in_frame_owns virtAddr size); [done..|lia].
  - unfold slice. by rewrite !lookup_take_ge by lia.
Qed.

Lemma like_mem_set m1 m2 virtAddr size pa bs :
  like m1 m2 -> in_frame virtAddr (inr pa) -> is_size size -> misaligned virtAddr size = false -> Z.of_nat (length bs) = size ->
  both like (mem_set m1 pa bs) (mem_set m2 pa bs).
Proof.
  intros L Hf Hs Ha Hk. unfold mem_set. destruct (l_length _ _ _ _ _ L) as [El Er]. rewrite <- El.
  pose proof (in_frame_nonneg _ _ Hf) as Hp.
  destruct (Z.leb_spec 0 pa); [|done]. destruct (Z.leb_spec (pa + Z.of_nat (length bs)) (Z.of_nat (length (mainMemory m1)))); [|done].
  cbn. destruct L. constructor; cbn; try done.
  - rewrite !length_splice by lia. done.
  - intros a Hown. destruct (decide (Z.to_nat pa <= a < Z.to_nat pa + length bs)%nat) as [Hin|Hout].
    + by rewrite !lookup_splice_in by lia.
    + rewrite !lookup_splice_out by lia. auto.
  - intros a Hno. rewrite lookup_splice_out; [auto|lia|].
    destruct (decide (Z.to_nat pa <= a < Z.to_nat pa + length bs)%nat) as [Hin|Hout]; [|lia].
    exfalso. apply Hno. replace a with (Z.to_nat pa + (a - Z.to_nat pa))%nat by lia. apply (in_frame_owns virtAddr size); [done..|lia].
Qed.

Lemma like_ReadMem m1 m2 addr size : like m1 m2 -> both answers (ReadMem m1 addr size) (ReadMem m2 addr size).
Proof.
  intros L. unfold ReadMem, ReadMem_on. apply (both_bind _ _ _ _ _ _ (like_Translate m1 m2 addr size false L)).
  clear L m1 m2. intros [m1 r] [m2 r2] ([L Er] & Hf & Ha). cbn [fst snd] in *. subst r2. destruct r as [e|pa].
  - apply (both_bind _ _ _ _ _ _ (like_raise_entry m1 m2 addr L)). by intros.
  - assert (Hget : forall (g : list Z -> Z) k j, is_size k -> size = k -> Z.of_nat j = k ->
      both answers (bs ← mem_bytes m1 pa j; Ok (m1, @inr ExceptionType Z (g bs))) (bs ← mem_bytes m2 pa j; Ok (m2, inr (g bs)))).
    { intros g k j Hk -> Hj. rewrite (like_mem_bytes m1 m2 addr k pa j L Hf Hk Ha Hj). by destruct (mem_bytes m1 pa j). }
    destruct (Z.eqb_spec size 1) as [E|]; [|destruct (Z.eqb_spec size 2) as [E|]; [|destruct (Z.eqb_spec size 4) as [E|]; [|done]]].
    + apply (Hget (fun bs => s8 (host_load _ bs)) 1 1%nat); [unfold is_size; auto|done|done].
    + apply (Hget (fun bs => ShortToHost _ (host_load _ bs)) 2 2%nat); [unfold is_size; auto|done|done].
    + apply (Hget (fun bs => s32 (WordToHost _ (host_load _ bs))) 4 4%nat); [unfold is_size; auto|done|done].
Qed.

Lemma like_WriteMem m1 m2 addr size v : like m1 m2 -> both answers (WriteMem m1 addr size v) (WriteMem m2 addr size v).
Proof.
  intros L. unfold WriteMem, WriteMem_on. apply (both_bind _ _ _ _ _ _ (like_Translate m1 m2 addr size true L)).
  clear L m1 m2. intros [m1 r] [m2 r2] ([L Er] & Hf & Ha). cbn [fst snd] in *. subst r2. destruct r as [e|pa].
  - apply (both_bind _ _ _ _ _ _ (like_raise_entry m1 m2 addr L)). by intros.
  - assert (Hput : forall bs k, is_size k -> size = k -> Z.of_nat (length bs) = k ->
      both answers (m ← mem_set m1 pa bs; Ok (m, inr tt)) (m ← mem_set m2 pa bs; Ok (m, @inr ExceptionType unit tt))).
    { intros bs k Hk -> Hl. apply (both_bind _ _ _ _ _ _ (like_mem_set m1 m2 addr k pa bs L Hf Hk Ha Hl)). by intros. }
    destruct (Z.eqb_spec size 1); [|destruct (Z.eqb_spec size 2); [|destruct (Z.eqb_spec size 4); [|done]]];
      (eapply Hput; [|eassumption|]; [unfold is_size; auto|unfold host_store; cbn; done]).
Qed.

(** ** Instructions *)

Lemma both_reading m1 m2 addr size k1 k2 :
  like m1 m2 -> (forall m1' m2' v, like m1' m2' -> both answers (k1 m1' v) (k2 m2' v)) ->
  both answers (reading m1 addr size k1) (reading m2 addr size k2).
Proof.
  intros L Hk. unfold reading. apply (both_bind _ _ _ _ _ _ (like_ReadMem m1 m2 addr size L)).
  intros [m1' r] [m2' r2] [L' Er]. cbn [fst snd] in *. subst r2. destruct r; [done|by apply Hk].
Qed.

Lemma both_writing m1 m2 addr size v k1 k2 :
  like m1 m2 -> (forall m1' m2', like m1' m2' -> both answers (k1 m1') (k2 m2')) ->
  both answers (writing m1 addr size v k1) (writing m2 addr size v k2).
Proof.
  intros L Hk. unfold writing. apply (both_bind _ _ _ _ _ _ (like_WriteMem m1 m2 addr size v L)).
  intros [m1' r] [m2' r2] [L' Er]. cbn [fst snd] in *. subst r2. destruct r; [done|by apply Hk].
Qed.

Lemma both_assign m1 m2 pc r v : like m1 m2 -> both answers (assign m1 pc r v) (assign m2 pc r v).
Proof. intros L. unfold assign. apply both_wreg; [done|]. by intros. Qed.

Lemma both_raise m1 m2 e bad : like m1 m2 -> both answers (raise m1 e bad) (raise m2 e bad).
Proof. intros L. unfold raise. apply (both_bind _ _ _ _ _ _ (like_raise_entry m1 m2 bad L)). by intros. Qed.

Ltac like_step :=
  match goal with
  | |- both _ (mbind _ (rreg _ _)) _ => apply both_rreg; [assumption|intros ?]
  | |- both _ (mbind _ (wreg _ _ _)) _ => apply both_wreg; [assumption|intros ? ? ?]
  | |- both _ (mbind _ (ASSERT ?b)) _ => destruct b; cbn [ASSERT mbind outcome_bind]
  | |- both _ (if ?c then _ else _) _ => destruct c
  | |- both _ (let '(_, _) := Mult ?a ?b ?s in _) _ => destruct (Mult a b s)
  | |- both _ (reading _ _ _ _) _ => apply both_reading; [assumption|intros ? ? ? ?]
  | |- both _ (writing _ _ _ _ _) _ => apply both_writing; [assumption|intros ? ? ?]
  | |- both _ (raise _ _ _) _ => apply both_raise; assumption
  | |- both _ (assign _ _ _ _) _ => apply both_assign; assumption
  | |- both _ (next _ _) _ => split; [assumption|reflexivity]
  | |- both _ (load_later _ _ _ _) _ => split; [assumption|reflexivity]
  | |- both _ (Fault _) _ => reflexivity
  end.

Lemma like_execute i m1 m2 pcAfter : like m1 m2 -> both answers (execute i m1 pcAfter) (execute i m2 pcAfter).
Proof. intros L. unfold execute. destruct (opCode i); cbv zeta; repeat like_step. Qed.

Lemma like_retire m1 m2 pc r v : like m1 m2 -> both like (retire m1 pc r v) (retire m2 pc r v).
Proof.
  intros L. unfold retire. apply (both_bind _ _ _ _ _ _ (like_DelayedLoad m1 m2 r v L)). clear L m1 m2. intros m1 m2 L.
  repeat like_step. by apply like_wreg.
Qed.

Lemma like_OneInstruction m1 m2 : like m1 m2 -> both answers (OneInstruction m1) (OneInstruction m2).
Proof.
  intros L. unfold OneInstruction. apply both_rreg; [done|intros pc].
  apply (both_bind _ _ _ _ _ _ (like_ReadMem m1 m2 pc 4 L)). clear L m1 m2. intros [m1 r] [m2 r2] [L Er]. cbn [fst snd] in *. subst r2.
  destruct r as [e|raw]; [done|]. destruct (Decode (u32 raw)) as [i|]; cbn [mbind outcome_bind]; [|done].
  apply both_rreg; [done|intros npc]. apply (both_bind _ _ _ _ _ _ (like_execute i m1 m2 _ L)). clear L m1 m2.
  intros [m1 r] [m2 r2] [L Er]. cbn [fst snd] in *. subst r2. destruct r as [e|[[pc' reg] v]]; [done|].
  apply (both_bind _ _ _ _ _ _ (like_retire m1 m2 pc' reg v L)). by intros.
Qed.

(** ** What the kernel does for a program *)

(** An instruction, or one access of a system call to the machine. *)
Inductive op :=
| Instr                                   (* [OneInstruction] *)
| ReadReg (num : Z)
| WriteReg (num value : Z)
| Load (addr size : Z)
| Store (addr size value : Z).

Inductive answer :=
| Trapped (e : option ExceptionType)
| Register (value : Z)
| Loaded (r : ExceptionType + Z)
| Stored (r : ExceptionType + unit).

Definition act (o : op) (m : t) : outcome (t * answer) :=
  match o with
  | Instr => '(m, e) ← OneInstruction m; Ok (m, Trapped e)
  | ReadReg num => v ← ReadRegister m num; Ok (m, Register v)
  | WriteReg num v => m ← WriteRegister m num v; Ok (m, Register v)
  | Load addr size => '(m, r) ← ReadMem m addr size; Ok (m, Loaded r)
  | Store addr size v => '(m, r) ← WriteMem m addr size v; Ok (m, Stored r)
  end.

Lemma like_act o m1 m2 : like m1 m2 -> both answers (act o m1) (act o m2).
Proof.
  intros L. unfold act, ReadRegister, WriteRegister.
  destruct o as [|num|num v|addr size|addr size v].
  - apply (both_bind _ _ _ _ _ _ (like_OneInstruction m1 m2 L)). intros [? ?] [? ?] [? E]. cbn in E. by subst.
  - destruct (reg_ok num); cbn [ASSERT mbind outcome_bind]; [|done]. apply both_rreg; [done|]. by intros.
  - destruct (reg_ok num); cbn [ASSERT mbind outcome_bind]; [|done]. apply both_wreg; [done|]. by intros.
  - apply (both_bind _ _ _ _ _ _ (like_ReadMem m1 m2 addr size L)). intros [? ?] [? ?] [? E]. cbn in E. by subst.
  - apply (both_bind _ _ _ _ _ _ (like_WriteMem m1 m2 addr size v L)). intros [? ?] [? ?] [? E]. cbn in E. by subst.
Qed.

End machines.

End Locality.
