(* ===== verification/UserThreads.v ===== *)
(** * User programs and context switches

    The parts of threads/thread.cc and threads/scheduler.cc that are compiled with
    USER_PROGRAM, with userprog/addrspace.cc and userprog/progtest.cc: the
    registers of a user program are saved when its thread loses the processor and
    restored when it gets it back.  The machine has a pointer to the page table of
    an address space, [ptr]; the tables are in a heap, at addresses that are not
    used twice, so that what an access does to the table of the machine is done
    to the table of the address space.

    A run of the system interleaves what programs do (their instructions, and the
    accesses of their system calls to the machine) with context switches, new
    threads, programs that start and programs that exit.  The theorem says that a
    program does not notice. *)

From S2P Require Import Prelude Allocator MachineSim MipsSim AddrSpace Locality.

Local Open Scope Z_scope.

Module UserThreads.
Import Machine Locality.

(** ** State *)

Record Space := mkSpace { table_ptr : Z; numPages : Z }.

(** The fields of class [Thread] that belong to user programs. *)
Record Thread := mkThread { userRegisters : list Z; space : option Space }.

Record t := mk {
  machine : Machine.t;                          (* its field [pageTable] is [ptr] *)
  ptr : option Z;
  tables : gmap Z (list TranslationEntry);
  nextptr : Z;
  threads : gmap Z Thread;
  currentThread : Z;
}.

Definition set_machine s m : t := mk m (ptr s) (tables s) (nextptr s) (threads s) (currentThread s).
Definition set_tables s ts : t := mk (machine s) (ptr s) ts (nextptr s) (threads s) (currentThread s).
Definition set_thread s i th : t := mk (machine s) (ptr s) (tables s) (nextptr s) (<[i := th]> (threads s)) (currentThread s).
Definition set_current s i : t := mk (machine s) (ptr s) (tables s) (nextptr s) (threads s) i.
Definition thread s (i : Z) : outcome Thread := match threads s !! i with Some th => Ok th | None => Fault BadAccess end.

(** ** threads/thread.cc *)

Definition SaveUserState (m : Machine.t) (userRegisters : list Z) : outcome (list Z) :=
  for_range 0 NumTotalRegs (fun i u => v ← ReadRegister m i; wr u i v) userRegisters.

Definition RestoreUserState (m : Machine.t) (userRegisters : list Z) : outcome Machine.t :=
  for_range 0 NumTotalRegs (fun i m => v ← rd userRegisters i; WriteRegister m i v) m.

(** [delete space]: the pages go back to the bitmap, which [AddrSpace.v] models,
    and the table is freed; the field [space] keeps the pointer. *)
Definition FreeSpace s : outcome t :=
  th ← thread s (currentThread s);
  match space th with
  | None => Ok s
  | Some sp =>
      match tables s !! table_ptr sp with
      | None => Fault BadAccess
      | Some _ => Ok (set_tables s (delete (table_ptr sp) (tables s)))
      end
  end.

(** ** threads/scheduler.cc, [Scheduler::Run] *)

(** [AddrSpace::RestoreState]: the machine gets the pointer and the size. *)
Definition RestoreState s (sp : Space) : t :=
  let m := machine s in
  mk (Machine.mk (mainMemory m) (registers m) (tlb m) (pageTable m) (numPages sp) (singleStep m) (runUntilTime m))
     (Some (table_ptr sp)) (tables s) (nextptr s) (threads s) (currentThread s).

(** Before the switch; [AddrSpace::SaveState] is empty. *)
Definition save_old s : outcome t :=
  old ← thread s (currentThread s);
  match space old with
  | None => Ok s
  | Some _ => u ← SaveUserState (machine s) (userRegisters old); Ok (set_thread s (currentThread s) (mkThread u (space old)))
  end.

(** After the switch. *)
Definition restore_new s : outcome t :=
  th ← thread s (currentThread s);
  match space th with
  | None => Ok s
  | Some sp => m ← RestoreUserState (machine s) (userRegisters th); Ok (RestoreState (set_machine s m) sp)
  end.

Definition Run s (nextThread : Z) : outcome t :=
  s ← save_old s; restore_new (set_current s nextThread).

(** ** userprog/progtest.cc *)

(** [StartProcess] and [StartProcessID] after the constructor of the address
    space, which gave [sp] and left [mem] in main memory; then the loop of
    [Machine::Run] begins. *)
Definition StartProcess s (sp : AddrSpace.t) (mem : list Z) : outcome t :=
  th ← thread s (currentThread s);
  let n := AddrSpace.numPages sp in
  let p := nextptr s in
  let s := mk (set_memory (machine s) mem) (ptr s) (<[p := AddrSpace.pageTable sp]> (tables s)) (p + 1)
              (<[currentThread s := mkThread (userRegisters th) (Some (mkSpace p n))]> (threads s)) (currentThread s) in
  m ← AddrSpace.InitRegisters (machine s) sp;
  Ok (RestoreState (set_machine s m) (mkSpace p n)).

(** ** A program runs *)

(** The machine with the table it points to. *)
Definition deref s : outcome Machine.t :=
  match ptr s with
  | None => Fault AssertFailed
  | Some p =>
      match tables s !! p with
      | None => Fault BadAccess
      | Some pt => let m := machine s in
          Ok (Machine.mk (mainMemory m) (registers m) (tlb m) (Some pt) (pageTableSize m) (singleStep m) (runUntilTime m))
      end
  end.

Definition store s (m : Machine.t) : t :=
  match ptr s, pageTable m with
  | Some p, Some pt => set_machine (set_tables s (<[p := pt]> (tables s))) m
  | _, _ => set_machine s m
  end.

Definition do_op s (o : op) : outcome (t * answer) :=
  m ← deref s; '(m, a) ← act o m; Ok (store s m, a).

(** Frames that no other table has. *)
Definition own_frames s (sp : AddrSpace.t) : Prop :=
  forall p pt a, tables s !! p = Some pt -> owns (shape_of pt) a -> ~ owns (shape_of (AddrSpace.pageTable sp)) a.

(** An address space with such frames, for which memory was changed in them only.
    [UserSystem.v] has the constructors, and shows when they do this. *)
Definition loads s (sp : AddrSpace.t) (mem : list Z) : Prop :=
  length mem = length (mainMemory (machine s)) /\
  (forall a, ~ owns (shape_of (AddrSpace.pageTable sp)) a -> mem !! a = mainMemory (machine s) !! a) /\ own_frames s sp.

(** [Some (i, o, a)]: thread [i] does [o] and gets the answer [a]. *)
Inductive step s : option (Z * op * answer) -> t -> Prop :=
| step_act th sp o s' a :
    threads s !! currentThread s = Some th -> space th = Some sp -> do_op s o = Ok (s', a) ->
    step s (Some (currentThread s, o, a)) s'
| step_switch j s' : Run s j = Ok s' -> step s None s'
| step_fork i raw : threads s !! i = None -> Z.of_nat (length raw) = NumTotalRegs -> step s None (set_thread s i (mkThread raw None))
| step_start th sp mem s' :
    threads s !! currentThread s = Some th -> space th = None -> loads s sp mem -> StartProcess s sp mem = Ok s' -> step s None s'
| step_exit s' : FreeSpace s = Ok s' -> step s None s'.

Inductive runs : t -> list (Z * op * answer) -> t -> Prop :=
| runs_nil s : runs s [] s
| runs_silent s s1 log s2 : step s None s1 -> runs s1 log s2 -> runs s log s2
| runs_act s e s1 log s2 : step s (Some e) s1 -> runs s1 log s2 -> runs s (e :: log) s2.

(** ** A program alone *)

(** The machine as thread [i] has it, running or not. *)
Definition view s (i : Z) : option Machine.t :=
  th ← threads s !! i; sp ← space th; pt ← tables s !! table_ptr sp;
  let m := machine s in
  Some (Machine.mk (mainMemory m) (if decide (i = currentThread s) then registers m else userRegisters th)
                   (tlb m) (Some pt) (numPages sp) (singleStep m) (runUntilTime m)).

Fixpoint solo (m : Machine.t) (os : list op) : outcome (Machine.t * list answer) :=
  match os with
  | [] => Ok (m, [])
  | o :: os => '(m, a) ← act o m; '(m, l) ← solo m os; Ok (m, a :: l)
  end.

Definition mine (i : Z) (log : list (Z * op * answer)) : list (Z * op * answer) := filter (fun e => e.1.1 = i) log.
Definition ops (i : Z) log : list op := (fun e => e.1.2) <$> mine i log.
Definition answers_of (i : Z) log : list answer := snd <$> mine i log.

(** ** Saving and restoring registers *)

Lemma prefix_step {A} (R u : list A) i v :
  length R = length u -> R !! i = Some v -> <[i := v]> (take i R ++ drop i u) = take (S i) R ++ drop (S i) u.
Proof.
  intros El Hv. pose proof (lookup_lt_Some _ _ _ Hv) as Hlt.
  destruct (lookup_lt_is_Some_2 u i) as [x Hx]; [lia|]. rewrite (drop_S u x i Hx), (take_S_r R i v Hv).
  rewrite insert_app_r_alt by (rewrite length_take; lia). rewrite length_take, Nat.min_l, Nat.sub_diag by lia. cbn.
  by rewrite <- app_assoc.
Qed.

Lemma SaveUserState_ok m u :
  Z.of_nat (length (registers m)) = NumTotalRegs -> Z.of_nat (length u) = NumTotalRegs -> SaveUserState m u = Ok (registers m).
Proof.
  intros Hr Hu. unfold SaveUserState.
  destruct (for_range_inv (fun i u' => u' = take (Z.to_nat i) (registers m) ++ drop (Z.to_nat i) u) 0 NumTotalRegs
    (fun i u => v ← ReadRegister m i; wr u i v) u) as (u' & -> & ->); [done|done| |].
  - intros i u' Hi ->. destruct (rd_total (registers m) i) as (v & Ev & Hv); [lia|]. unfold ReadRegister, reg_ok.
    rewrite Z.geb_leb, (proj2 (Z.leb_le 0 i)), (proj2 (Z.ltb_lt i _)) by lia. cbn [andb ASSERT mbind outcome_bind].
    unfold rreg. rewrite Ev. cbn [mbind outcome_bind]. rewrite wr_ok by (rewrite length_app, length_take, length_drop; lia).
    eexists. split; [reflexivity|]. rewrite (prefix_step _ _ _ v) by (done || lia). do 2 f_equal; lia.
  - f_equal. rewrite take_ge, drop_ge by lia. apply app_nil_r.
Qed.

Lemma RestoreUserState_ok m u :
  Z.of_nat (length (registers m)) = NumTotalRegs -> Z.of_nat (length u) = NumTotalRegs -> RestoreUserState m u = Ok (set_registers m u).
Proof.
  intros Hr Hu. unfold RestoreUserState.
  destruct (for_range_inv (fun i m' => m' = set_registers m (take (Z.to_nat i) u ++ drop (Z.to_nat i) (registers m))) 0 NumTotalRegs
    (fun i m => v ← rd u i; WriteRegister m i v) m) as (m' & -> & ->); [done|by destruct m| |].
  - intros i m' Hi ->. destruct (rd_total u i) as (v & Ev & Hv); [lia|]. rewrite Ev. cbn [mbind outcome_bind]. unfold WriteRegister, reg_ok.
    rewrite Z.geb_leb, (proj2 (Z.leb_le 0 i)), (proj2 (Z.ltb_lt i _)) by lia. cbn [andb ASSERT mbind outcome_bind].
    unfold wreg. cbn [registers set_registers]. rewrite wr_ok by (rewrite length_app, length_take, length_drop; lia). cbn [mbind outcome_bind].
    eexists. split; [reflexivity|]. rewrite (prefix_step _ _ _ v) by (done || lia). unfold set_registers. cbn. do 2 f_equal; f_equal; lia.
  - do 2 f_equal. rewrite take_ge, drop_ge by lia. apply app_nil_r.
Qed.

Lemma wreg_in_range m i v :
  Z.of_nat (length (registers m)) = NumTotalRegs -> 0 <= i < NumTotalRegs ->
  WriteRegister m i v = Ok (set_registers m (<[Z.to_nat i := v]> (registers m))).
Proof.
  intros Hr Hi. unfold WriteRegister, reg_ok, wreg.
  rewrite Z.geb_leb, (proj2 (Z.leb_le 0 i)), (proj2 (Z.ltb_lt i _)) by lia. cbn [andb ASSERT mbind outcome_bind].
  by rewrite wr_ok by lia.
Qed.

Definition only_regs (m m' : Machine.t) : Prop :=
  exists rs, m' = set_registers m rs /\ Z.of_nat (length rs) = NumTotalRegs.

Lemma only_regs_write m m' i v : only_regs m m' -> 0 <= i < NumTotalRegs ->
  exists m'', WriteRegister m' i v = Ok m'' /\ only_regs m m''.
Proof.
  intros (rs & -> & Hl) Hi. rewrite wreg_in_range by done. eexists. split; [reflexivity|]. eexists. split; [reflexivity|].
  cbn. by rewrite length_insert.
Qed.

Lemma InitRegisters_ok m sp : Z.of_nat (length (registers m)) = NumTotalRegs ->
  exists m', AddrSpace.InitRegisters m sp = Ok m' /\ only_regs m m'.
Proof.
  intros Hr. unfold AddrSpace.InitRegisters.
  destruct (for_range_inv (fun _ m' => only_regs m m') 0 NumTotalRegs (fun i m => WriteRegister m i 0) m) as (m1 & -> & H1); [done| | |].
  - exists (registers m). split; [by destruct m|done].
  - intros i m' Hi H. by apply only_regs_write.
  - cbn [mbind outcome_bind]. destruct (only_regs_write m m1 PCReg 0 H1) as (m2 & -> & H2); [done|]. cbn [mbind outcome_bind].
    destruct (only_regs_write m m2 NextPCReg 4 H2) as (m3 & -> & H3); [done|]. cbn [mbind outcome_bind]. by apply only_regs_write.
Qed.

(** ** The invariant *)

Record Inv s : Prop := {
  i_registers : Z.of_nat (length (registers (machine s))) = NumTotalRegs;
  i_tlb : tlb (machine s) = None;
  i_saved : forall i th, threads s !! i = Some th -> Z.of_nat (length (userRegisters th)) = NumTotalRegs;
  i_ptrs : forall i th sp, threads s !! i = Some th -> space th = Some sp -> table_ptr sp < nextptr s;
  i_fresh : forall p pt, tables s !! p = Some pt -> p < nextptr s;
  i_distinct : forall i j th th' sp sp', threads s !! i = Some th -> threads s !! j = Some th' ->
    space th = Some sp -> space th' = Some sp' -> table_ptr sp = table_ptr sp' -> i = j;
  i_apart : forall p p' pt pt' a, tables s !! p = Some pt -> tables s !! p' = Some pt' ->
    owns (shape_of pt) a -> owns (shape_of pt') a -> p = p';
  i_current : forall th sp, threads s !! currentThread s = Some th -> space th = Some sp ->
    ptr s = Some (table_ptr sp) /\ pageTableSize (machine s) = numPages sp;
}.

(** What an operation does to the system: the table keeps its frames, and memory
    changes in them only. *)
Lemma do_op_frame s o s' a th sp :
  Inv s -> threads s !! currentThread s = Some th -> space th = Some sp -> do_op s o = Ok (s', a) ->
  exists pt d d' pt', tables s !! table_ptr sp = Some pt /\ deref s = Ok d /\ act o d = Ok (d', a) /\
    pageTable d = Some pt /\ pageTable d' = Some pt' /\ shape_of pt' = shape_of pt /\
    s' = set_machine (set_tables s (<[table_ptr sp := pt']> (tables s))) d' /\
    like (shape_of pt) (numPages sp) (mainMemory (machine s)) d' d' /\ like (shape_of pt) (numPages sp) (mainMemory (machine s)) d d.
Proof.
  intros I Hth Hsp E. destruct (i_current s I th sp Hth Hsp) as [Hp Hn]. unfold do_op in E. inv_bind E. rename x into d. rename E0 into Ed.
  unfold deref in Ed. rewrite Hp in Ed. destruct (tables s !! table_ptr sp) as [pt|] eqn:Ept; [|discriminate Ed]. injection Ed as Ed.
  assert (L : like (shape_of pt) (numPages sp) (mainMemory (machine s)) d d).
  { rewrite <- Hn. subst d. match goal with |- like _ _ _ ?d _ => exact (like_refl d pt (i_tlb s I) eq_refl (i_registers s I)) end. }
  pose proof (like_act _ _ _ o d d L) as HB. destruct (act o d) as [[d' a']|] eqn:Ea; [|discriminate E]. destruct HB as [L' _]. cbn [fst] in L'.
  cbn [mbind outcome_bind] in E. injection E as <- <-. destruct (l_table _ _ _ _ _ L') as (pt' & Ept' & _ & Hsh).
  exists pt, d, d', pt'. split; [done|]. split; [done|]. split; [done|]. split; [by subst d|].
  split; [done|]. split; [done|]. split; [|done]. unfold store. by rewrite Hp, Ept'.
Qed.

Lemma Inv_tables s ts : Inv s ->
  (forall p pt, ts !! p = Some pt -> exists pt0, tables s !! p = Some pt0 /\ shape_of pt = shape_of pt0) ->
  Inv (set_tables s ts).
Proof.
  intros [] Ht. constructor; cbn; try done.
  - intros p pt Hp. destruct (Ht p pt Hp) as (? & ? & _). eauto.
  - intros p p' pt pt' a Hp Hp'. destruct (Ht p pt Hp) as (? & ? & ->). destruct (Ht p' pt' Hp') as (? & ? & ->). eauto.
Qed.

Lemma Inv_machine s m : Inv s -> Z.of_nat (length (registers m)) = NumTotalRegs -> tlb m = None ->
  pageTableSize m = pageTableSize (machine s) -> Inv (set_machine s m).
Proof. intros [] Hr Ht Hn. constructor; cbn; try done. by rewrite Hn. Qed.

(** ** Context switches *)

Lemma user_Run_ok s j s' : Inv s -> Run s j = Ok s' ->
  exists old th, threads s !! currentThread s = Some old /\
    threads s' = match space old with
                 | None => threads s
                 | Some _ => <[currentThread s := mkThread (registers (machine s)) (space old)]> (threads s)
                 end /\
    threads s' !! j = Some th /\ currentThread s' = j /\ tables s' = tables s /\ nextptr s' = nextptr s /\
    mainMemory (machine s') = mainMemory (machine s) /\ tlb (machine s') = tlb (machine s) /\
    match space th with
    | None => registers (machine s') = registers (machine s)
    | Some sp => registers (machine s') = userRegisters th /\ ptr s' = Some (table_ptr sp) /\ pageTableSize (machine s') = numPages sp
    end.
Proof.
  intros I E. unfold Run in E. inv_bind E. rename x into s1. rename E0 into E1. unfold save_old, thread in E1.
  destruct (threads s !! currentThread s) as [old|] eqn:Eold; [|discriminate E1]. cbn [mbind outcome_bind] in E1.
  set (ts := match space old with None => threads s
             | Some _ => <[currentThread s := mkThread (registers (machine s)) (space old)]> (threads s) end).
  assert (Hs1 : s1 = mk (machine s) (ptr s) (tables s) (nextptr s) ts (currentThread s)).
  { destruct (space old); [|by destruct s; injection E1 as <-].
    rewrite SaveUserState_ok in E1 by (apply (i_registers s I) || exact (i_saved s I _ _ Eold)). by injection E1 as <-. }
  subst s1. clear E1. unfold restore_new, thread in E. cbn in E. destruct (ts !! j) as [th|] eqn:Eth; [|discriminate E]. cbn [mbind outcome_bind] in E.
  assert (Hu : Z.of_nat (length (userRegisters th)) = NumTotalRegs).
  { subst ts. destruct (space old); [|by eapply (i_saved s I)]. destruct (decide (j = currentThread s)) as [->|Hne].
    - rewrite lookup_insert_eq in Eth. injection Eth as <-. apply (i_registers s I).
    - rewrite lookup_insert_ne in Eth by done. by eapply (i_saved s I). }
  exists old, th. split; [done|]. destruct (space th) as [sp|] eqn:Esp.
  - rewrite RestoreUserState_ok in E by (apply (i_registers s I) || exact Hu). cbn in E. injection E as <-. done.
  - injection E as <-. done.
Qed.

Lemma Run_space s j s' i th' : Inv s -> Run s j = Ok s' -> threads s' !! i = Some th' ->
  exists th, threads s !! i = Some th /\ space th' = space th /\
    userRegisters th' = if decide (i = currentThread s) then match space th with Some _ => registers (machine s) | None => userRegisters th end
                        else userRegisters th.
Proof.
  intros I E Hi. destruct (user_Run_ok s j s' I E) as (old & th & Hold & Ets & _). rewrite Ets in Hi.
  destruct (decide (i = currentThread s)) as [->|Hne].
  - exists old. split; [done|]. destruct (space old) eqn:Eo.
    + rewrite lookup_insert_eq in Hi. injection Hi as <-. done.
    + rewrite Hold in Hi. injection Hi as <-. done.
  - exists th'. split; [|done]. destruct (space old); [by rewrite lookup_insert_ne in Hi by done|done].
Qed.

Lemma Inv_Run s j s' : Inv s -> Run s j = Ok s' -> Inv s'.
Proof.
  intros I E. pose proof (fun i th' => Run_space s j s' i th' I E) as Hsp.
  destruct (user_Run_ok s j s' I E) as (old & th & Hold & Ets & Hj & Ecur & Etab & Enext & Emem & Etlb & Hth).
  assert (Hlen : forall i th', threads s' !! i = Some th' -> Z.of_nat (length (userRegisters th')) = NumTotalRegs).
  { intros i th' Hi. destruct (Hsp i th' Hi) as (th0 & H0 & _ & ->). destruct (decide _); [destruct (space th0)|];
      [apply (i_registers s I)|by eapply (i_saved s I)..]. }
  constructor.
  - destruct (space th); [destruct Hth as (-> & _ & _); by eapply Hlen|rewrite Hth; apply (i_registers s I)].
  - rewrite Etlb. apply (i_tlb s I).
  - exact Hlen.
  - intros i th' sp Hi Hs. destruct (Hsp i th' Hi) as (th0 & H0 & Es & _). rewrite Enext. rewrite Es in Hs. by eapply (i_ptrs s I).
  - rewrite Etab, Enext. apply (i_fresh s I).
  - intros i k th1 th2 sp1 sp2 H1 H2 Hs1 Hs2. destruct (Hsp i th1 H1) as (? & ? & Es1 & _). destruct (Hsp k th2 H2) as (? & ? & Es2 & _).
    rewrite Es1 in Hs1. rewrite Es2 in Hs2. by eapply (i_distinct s I).
  - rewrite Etab. apply (i_apart s I).
  - intros th' sp Hi Hs. rewrite Ecur, Hj in Hi. injection Hi as <-. rewrite Hs in Hth. apply Hth.
Qed.

(** ** The other steps *)

Lemma user_start_Inv s sp mem s' th : Inv s -> threads s !! currentThread s = Some th -> space th = None -> own_frames s sp ->
  StartProcess s sp mem = Ok s' ->
  Inv s' /\ currentThread s' = currentThread s /\ mainMemory (machine s') = mem /\
  tables s' = <[nextptr s := AddrSpace.pageTable sp]> (tables s) /\ tlb (machine s') = None /\
  threads s' = <[currentThread s := mkThread (userRegisters th) (Some (mkSpace (nextptr s) (AddrSpace.numPages sp)))]> (threads s).
Proof.
  intros I Hth Hno Hfree E. unfold StartProcess, thread in E. rewrite Hth in E. cbn [mbind outcome_bind] in E.
  destruct (InitRegisters_ok (set_memory (machine s) mem) sp (i_registers s I)) as (m & Em & rs & -> & Hrs).
  cbn [machine] in E. rewrite Em in E. cbn [mbind outcome_bind] in E. injection E as <-. cbn. pose proof (i_tlb s I) as Htlb.
  split; [|done]. constructor; cbn; try done.
  - intros i th' Hi. apply lookup_insert_Some in Hi as [[<- <-]|[Hne Hi]]; cbn; by eapply (i_saved s I).
  - intros i th' sp' Hi Hs. apply lookup_insert_Some in Hi as [[<- <-]|[Hne Hi]].
    + injection Hs as <-. cbn. lia.
    + pose proof (i_ptrs s I i th' sp' Hi Hs). lia.
  - intros p pt Hp. apply lookup_insert_Some in Hp as [[<- <-]|[Hne Hp]]; [lia|]. pose proof (i_fresh s I p pt Hp). lia.
  - intros i j th1 th2 sp1 sp2 H1 H2 Hs1 Hs2 Heq.
    apply lookup_insert_Some in H1 as [[<- <-]|[Hne1 H1]]; apply lookup_insert_Some in H2 as [[<- <-]|[Hne2 H2]]; [done| | |by eapply (i_distinct s I)].
    + injection Hs1 as <-. pose proof (i_ptrs s I j th2 sp2 H2 Hs2). cbn in Heq. lia.
    + injection Hs2 as <-. pose proof (i_ptrs s I i th1 sp1 H1 Hs1). cbn in Heq. lia.
  - intros p p' pt pt' a Hp Hp' Ha Ha'.
    apply lookup_insert_Some in Hp as [[<- <-]|[Hne1 Hp]]; apply lookup_insert_Some in Hp' as [[<- <-]|[Hne2 Hp']]; [done| | |by eapply (i_apart s I)].
    + destruct (Hfree p' pt' a Hp' Ha' Ha).
    + destruct (Hfree p pt a Hp Ha Ha').
  - intros th' sp' Hi Hs. rewrite lookup_insert_eq in Hi. injection Hi as <-. by injection Hs as <-.
Qed.

Lemma FreeSpace_ok s s' : FreeSpace s = Ok s' -> exists ts, s' = set_tables s ts /\ forall p pt, ts !! p = Some pt -> tables s !! p = Some pt.
Proof.
  unfold FreeSpace. intros E. inv_bind E. destruct (space x) as [sp|]; [|exists (tables s); by destruct s; injection E as <-].
  destruct (tables s !! table_ptr sp); [|discriminate E]. injection E as <-. eexists. split; [reflexivity|].
  intros p pt Hp. by apply lookup_delete_Some in Hp as [_ Hp].
Qed.

Lemma user_step_Inv s l s' : Inv s -> step s l s' -> Inv s'.
Proof.
  intros I St. destruct St as [th sp o s' a Hth Hsp E|j s' E|i raw Hno Hraw|th sp mem s' Hth Hno Hl E|s' E].
  - destruct (do_op_frame s o s' a th sp I Hth Hsp E) as (pt & d & d' & pt' & Ept & _ & _ & _ & _ & Hsh & -> & L & _).
    destruct (i_current s I th sp Hth Hsp) as [_ Hn]. apply Inv_machine.
    + apply Inv_tables; [done|]. intros p q Hq. apply lookup_insert_Some in Hq as [[<- <-]|[Hne Hq]]; eauto.
    + apply (l_registers _ _ _ _ _ L).
    + apply (l_tlb _ _ _ _ _ L).
    + cbn. rewrite Hn. apply (l_size _ _ _ _ _ L).
  - by eapply Inv_Run.
  - destruct I. constructor; cbn; try done.
    + intros k th Hk. apply lookup_insert_Some in Hk as [[<- <-]|[Hne Hk]]; eauto.
    + intros k th sp Hk Hs. apply lookup_insert_Some in Hk as [[<- <-]|[Hne Hk]]; [done|eauto].
    + intros k k' th th' sp sp' Hk Hk' Hs Hs'. apply lookup_insert_Some in Hk as [[<- <-]|[Hne Hk]]; [done|].
      apply lookup_insert_Some in Hk' as [[<- <-]|[Hne' Hk']]; [done|eauto].
    + intros th sp Hk Hs. apply lookup_insert_Some in Hk as [[Heq <-]|[Hne Hk]]; [done|eauto].
  - by destruct (user_start_Inv s sp mem s' th I Hth Hno (proj2 (proj2 Hl)) E).
  - destruct (FreeSpace_ok s s' E) as (ts & -> & Ht). apply Inv_tables; [done|]. eauto.
Qed.

(** ** What a thread sees *)

Definition has s (i : Z) (sp : Space) : Prop := exists th, threads s !! i = Some th /\ space th = Some sp.

Definition regs_of s (i : Z) (th : Thread) : list Z := if decide (i = currentThread s) then registers (machine s) else userRegisters th.

Lemma view_spec s i m : view s i = Some m <-> exists th sp pt,
  threads s !! i = Some th /\ space th = Some sp /\ tables s !! table_ptr sp = Some pt /\
  m = Machine.mk (mainMemory (machine s)) (regs_of s i th) (tlb (machine s)) (Some pt) (numPages sp)
                 (singleStep (machine s)) (runUntilTime (machine s)).
Proof.
  unfold view, regs_of. split.
  - intros E. apply bind_Some in E as (th & Hth & E). apply bind_Some in E as (sp & Hsp & E). apply bind_Some in E as (pt & Hpt & E).
    injection E as <-. by exists th, sp, pt.
  - intros (th & sp & pt & -> & Hsp & Hpt & ->). cbn. rewrite Hsp. cbn. by rewrite Hpt.
Qed.

Lemma view_like s i m sp pt : Inv s -> view s i = Some m -> has s i sp -> tables s !! table_ptr sp = Some pt ->
  like (shape_of pt) (numPages sp) (mainMemory m) m m.
Proof.
  intros I Hv (th & Hth & Hsp) Hpt. apply view_spec in Hv as (th' & sp' & pt' & Hth' & Hsp' & Hpt' & ->).
  rewrite Hth in Hth'. injection Hth' as <-. rewrite Hsp in Hsp'. injection Hsp' as <-. rewrite Hpt in Hpt'. injection Hpt' as <-.
  match goal with |- like _ _ _ ?d _ => refine (like_refl d pt (i_tlb s I) eq_refl _) end.
  cbn. unfold regs_of. destruct (decide _); [apply (i_registers s I)|by eapply (i_saved s I)].
Qed.

(** A thread that did nothing sees what it saw. *)
Definition unchanged s s' (i : Z) (sp : Space) : Prop :=
  has s' i sp /\ forall m', view s' i = Some m' -> exists m pt, view s i = Some m /\ tables s !! table_ptr sp = Some pt /\
    like (shape_of pt) (numPages sp) (mainMemory m') m' m.

Lemma unchanged_intro s s' i sp : Inv s' ->
  has s i sp -> has s' i sp ->
  (forall pt, tables s' !! table_ptr sp = Some pt -> tables s !! table_ptr sp = Some pt) ->
  (forall th th', threads s !! i = Some th -> threads s' !! i = Some th' -> regs_of s' i th' = regs_of s i th) ->
  tlb (machine s) = None -> length (mainMemory (machine s')) = length (mainMemory (machine s)) ->
  (forall pt a, tables s !! table_ptr sp = Some pt -> owns (shape_of pt) a -> mainMemory (machine s') !! a = mainMemory (machine s) !! a) ->
  unchanged s s' i sp.
Proof.
  intros I' (th & Hth & Hsp) H' Ht Hr Htlb Hlen Hmem. split; [done|]. intros m' Hv.
  pose proof Hv as Hv0. apply view_spec in Hv0 as (th' & sp' & pt & Hth' & Hsp' & Hpt & Em').
  assert (sp' = sp) as ->. { destruct H' as (th0 & H0 & H1). congruence. }
  pose proof (view_like s' i m' sp pt I' Hv H' Hpt) as L. pose proof (Ht pt Hpt) as Hpt0.
  eexists _, pt. split; [apply view_spec; exists th, sp, pt; done|]. split; [done|].
  specialize (Hr th th' Hth Hth'). subst m'. destruct L as [[Er Lr] Tl Tb Nn Ln Mm Xx]. constructor; cbn in *; try done.
  - split; [apply Tl|done].
  - intros a Ha. by apply (Hmem pt).
Qed.

Lemma unchanged_act s o s' a i sp : Inv s -> step s (Some (currentThread s, o, a)) s' -> i <> currentThread s -> has s i sp ->
  unchanged s s' i sp.
Proof.
  intros I St Hne Hi. pose proof (user_step_Inv _ _ _ I St) as I'.
  inversion St as [thc spc o' s2 a' Hc Hspc E E1 E2| | | |]. subst. destruct Hi as (th & Hth & Hsp).
  destruct (do_op_frame s o s' a thc spc I Hc Hspc E) as (pt & d & d' & pt' & Ept & _ & _ & _ & _ & Hsh & -> & L & _).
  assert (Hp : table_ptr sp <> table_ptr spc). { intros Heq. apply Hne. by eapply (i_distinct s I). }
  apply unchanged_intro; cbn; [done|by exists th|by exists th| | |apply (i_tlb s I)| |].
  - intros q Hq. by rewrite lookup_insert_ne in Hq by done.
  - intros th1 th2 H1 H2. unfold regs_of. cbn. rewrite !decide_False by done. congruence.
  - symmetry. apply (l_length _ _ _ _ _ L).
  - intros q b Hq Hb. apply (l_rest _ _ _ _ _ L). intros Hb'. apply Hp. by eapply (i_apart s I).
Qed.

Lemma unchanged_silent s s' i sp : Inv s -> step s None s' -> has s i sp -> unchanged s s' i sp.
Proof.
  intros I St Hi. pose proof (user_step_Inv _ _ _ I St) as I'. pose proof Hi as (th & Hth & Hsp).
  inversion St as [|j s2 E E1 E2|k raw Hno Hraw E1 E2|thc spc mem s2 Hc Hnone Hl E E1 E2|s2 E E1 E2]; subst.
  - pose proof (fun th' => Run_space s j s' i th' I E) as HS.
    destruct (user_Run_ok s j s' I E) as (old & thj & Hold & Ets & Hj & Ecur & Etab & Enext & Emem & Etlb & Hreg).
    assert (H' : exists th', threads s' !! i = Some th' /\ space th' = Some sp).
    { rewrite Ets. destruct (space old) eqn:Eo; [|by exists th]. destruct (decide (i = currentThread s)) as [->|].
      - rewrite lookup_insert_eq. eexists. split; [reflexivity|]. cbn. rewrite Hold in Hth. injection Hth as <-. by rewrite <- Eo.
      - rewrite lookup_insert_ne by done. by exists th. }
    apply unchanged_intro; [done|done|done|by rewrite Etab| |apply (i_tlb s I)|by rewrite Emem|by rewrite Emem].
    intros th1 th2 H1 H2. rewrite Hth in H1. injection H1 as <-. destruct (HS th2 H2) as (th0 & H0 & Es & Eu).
    rewrite Hth in H0. injection H0 as <-. rewrite Hsp in Es, Eu. unfold regs_of. rewrite Ecur.
    destruct (decide (i = j)) as [->|Hne].
    + rewrite Hj in H2. injection H2 as <-. rewrite Es in Hreg. destruct Hreg as (-> & _). rewrite Eu. by destruct (decide _).
    + rewrite Eu. by destruct (decide _).
  - assert (i <> k) by congruence.
    apply unchanged_intro; cbn; [done|done| |done| |apply (i_tlb s I)|done|done].
    + exists th. cbn. by rewrite lookup_insert_ne by done.
    + intros th1 th2 H1 H2. rewrite lookup_insert_ne in H2 by done. unfold regs_of. cbn. destruct (decide _); congruence.
  - destruct (user_start_Inv s spc mem s' thc I Hc Hnone (proj2 (proj2 Hl)) E) as (_ & Ecur & Emem & Etab & Etlb & Ets). destruct Hl as (Hlen & Hmem & Hfree).
    assert (Hne : i <> currentThread s). { intros ->. rewrite Hc in Hth. injection Hth as <-. congruence. }
    pose proof (i_ptrs s I i th sp Hth Hsp) as Hp.
    apply unchanged_intro; [done|done| | | |apply (i_tlb s I)|by rewrite Emem|].
    + exists th. rewrite Ets, lookup_insert_ne by done. done.
    + rewrite Etab. intros q Hq. by rewrite lookup_insert_ne in Hq by lia.
    + intros th1 th2 H1 H2. rewrite Ets, lookup_insert_ne in H2 by done. unfold regs_of. rewrite Ecur, !decide_False by done. congruence.
    + intros q b Hq Hb. rewrite Emem. apply Hmem. by apply (Hfree (table_ptr sp) q).
  - destruct (FreeSpace_ok s s' E) as (ts & -> & Ht). apply unchanged_intro; cbn; [done|done|done|auto| |apply (i_tlb s I)|done|done].
    intros th1 th2 H1 H2. unfold regs_of. cbn. destruct (decide _); congruence.
Qed.

Lemma act_view s o s' a sp m0 sh : Inv s -> step s (Some (currentThread s, o, a)) s' -> has s (currentThread s) sp ->
  (forall m, view s (currentThread s) = Some m -> like sh (numPages sp) (mainMemory m) m m0) ->
  has s' (currentThread s) sp /\
  exists m1, act o m0 = Ok (m1, a) /\ forall m, view s' (currentThread s) = Some m -> like sh (numPages sp) (mainMemory m) m m1.
Proof.
  intros I St (th & Hth & Hsp) HL. inversion St as [thc spc o' s2 a' Hc Hspc E E1 E2| | | |]. subst.
  rewrite Hth in Hc. injection Hc as <-. rewrite Hsp in Hspc. injection Hspc as <-.
  destruct (i_current s I th sp Hth Hsp) as [Hp Hn].
  destruct (do_op_frame s o s' a th sp I Hth Hsp E) as (pt & d & d' & pt' & Ept & Ed & Ea & _ & Ept' & Hsh & -> & L' & _).
  split; [by exists th|]. assert (Hv : view s (currentThread s) = Some d).
  { apply view_spec. exists th, sp, pt. split; [done|]. split; [done|]. split; [done|]. unfold regs_of. rewrite decide_True by done.
    unfold deref in Ed. rewrite Hp, Ept in Ed. injection Ed as <-. by rewrite Hn. }
  pose proof (like_act _ _ _ o d m0 (HL d Hv)) as HB. rewrite Ea in HB. destruct (act o m0) as [[m1 a1]|] eqn:Ea1; [|done].
  destruct HB as [L1 Eq]. cbn in L1, Eq. subst a1. exists m1. split; [done|]. intros m Hm.
  apply view_spec in Hm as (th2 & sp2 & pt2 & H2 & Hs2 & Hpt2 & ->). cbn in H2, Hpt2 |- *. rewrite Hth in H2. injection H2 as <-.
  rewrite Hsp in Hs2. injection Hs2 as <-. rewrite lookup_insert_eq in Hpt2. injection Hpt2 as <-. unfold regs_of. cbn. rewrite decide_True by done.
  apply like_own in L1. destruct L1 as [[Er Lr] Tl (q & Q1 & Q2 & Q3) [N1 N2] Ln Mm Xx].
  constructor; cbn; try done. exists q. split; [|done]. by rewrite <- Q1, Ept'.
Qed.

Lemma runs_solo s log s' : runs s log s' -> forall i sp sh m0, Inv s -> has s i sp ->
  (forall m, view s i = Some m -> like sh (numPages sp) (mainMemory m) m m0) ->
  exists m1, solo m0 (ops i log) = Ok (m1, answers_of i log) /\
    forall m, view s' i = Some m -> like sh (numPages sp) (mainMemory m) m m1.
Proof.
  assert (Hothers : forall s s1 i sp sh m0, unchanged s s1 i sp ->
    (forall m, view s i = Some m -> like sh (numPages sp) (mainMemory m) m m0) ->
    forall m, view s1 i = Some m -> like sh (numPages sp) (mainMemory m) m m0).
  { intros ? s1 i sp sh m0 [_ Hu] HL m Hm. destruct (Hu m Hm) as (m2 & pt & Hv & Hpt & L). pose proof (HL m2 Hv) as L2.
    assert (shape_of pt = sh) as <-; [|by eapply like_trans].
    destruct (l_table _ _ _ _ _ L2) as (q & Q1 & _ & Q3). destruct (l_table _ _ _ _ _ L) as (q' & _ & Q4 & Q5). congruence. }
  induction 1 as [s|s s1 log s2 St R IH|s e s1 log s2 St R IH]; intros i sp sh m0 I Hi HL.
  - by exists m0.
  - pose proof (unchanged_silent s s1 i sp I St Hi) as U. apply (IH i sp sh m0 (user_step_Inv _ _ _ I St) (proj1 U)). by apply (Hothers s s1).
  - assert (exists o a, e = (currentThread s, o, a)) as (o & a & ->) by (inversion St; eauto).
    unfold ops, answers_of, mine. destruct (decide (currentThread s = i)) as [<-|Hne].
    + rewrite filter_cons_True by done. cbn [fmap list_fmap fst snd solo].
      destruct (act_view s o s1 a sp m0 sh I St Hi HL) as (Hi1 & m1 & -> & HL1). cbn [mbind outcome_bind].
      destruct (IH (currentThread s) sp sh m1 (user_step_Inv _ _ _ I St) Hi1 HL1) as (m2 & E & HL2). unfold ops, answers_of, mine in E. rewrite E.
      by exists m2.
    + rewrite filter_cons_False by done. pose proof (unchanged_act s o s1 a i sp I St ltac:(done) Hi) as U.
      apply (IH i sp sh m0 (user_step_Inv _ _ _ I St) (proj1 U)). by apply (Hothers s s1).
Qed.

(** Two machines on which a program does the same from now on. *)
Definition same_program (m m' : Machine.t) : Prop :=
  registers m = registers m' /\ pageTable m = pageTable m' /\ pageTableSize m = pageTableSize m' /\
  (forall addr size, answer_of (ReadMem m addr size) = answer_of (ReadMem m' addr size)) /\
  forall os, both (fun p1 p2 => p1.2 = p2.2) (solo m os) (solo m' os).

Lemma like_solo sh n r m m' : like sh n r m m' -> forall os, both (fun p1 p2 => p1.2 = p2.2) (solo m os) (solo m' os).
Proof.
  intros L os. revert m m' L. induction os as [|o os IH]; intros m m' L; [done|]. cbn [solo].
  apply (both_bind _ _ _ _ _ _ (like_act sh n r o m m' L)). intros [m1 a] [m2 a2] [L' Ea]. cbn in L', Ea. subst a2.
  apply (both_bind _ _ _ _ _ _ (IH m1 m2 L')). intros [? l] [? l2] El. cbn in *. by rewrite El.
Qed.

Lemma like_same sh n r m m' : like sh n r m m' -> same_program m m'.
Proof.
  intros L. destruct (l_registers _ _ _ _ _ L) as [Er _]. destruct (l_table _ _ _ _ _ L) as (pt & P1 & P2 & _).
  destruct (l_size _ _ _ _ _ L) as [N1 N2]. split; [done|]. split; [congruence|]. split; [congruence|]. split; [|by eapply like_solo].
  intros addr size. pose proof (like_ReadMem sh n r m m' addr size L) as HB.
  destruct (ReadMem m addr size) as [[? ?]|], (ReadMem m' addr size) as [[? ?]|]; try done; [|by rewrite HB].
  destruct HB as [_ E]. cbn in *. by rewrite E.
Qed.

(** However the kernel interleaves programs that are loaded into frames of their
    own, a program does what it would do on a machine of its own. *)
Lemma programs_run_alone s log s' i m0 :
  Inv s -> runs s log s' -> view s i = Some m0 ->
  exists m1, solo m0 (ops i log) = Ok (m1, answers_of i log) /\
    forall m, view s' i = Some m -> same_program m m1.
Proof.
  intros I R Hv. pose proof Hv as Hv0. apply view_spec in Hv0 as (th & sp & pt & Hth & Hsp & Hpt & Em0).
  assert (Hi : has s i sp) by (by exists th).
  destruct (runs_solo s log s' R i sp (shape_of pt) m0 I Hi) as (m1 & E & HL).
  - intros m Hm. rewrite Hv in Hm. injection Hm as <-. by apply (view_like s i).
  - exists m1. split; [done|]. intros m Hm. by eapply like_same, HL.
Qed.

(** ** Two programs *)

(** Threads 10 and 20 have a page each, frames 0 and 1; thread 10 runs. *)
Definition demo_regs : list Z := <[35%nat := 4]> (replicate 40 0).
Definition demo_tables : gmap Z (list TranslationEntry) := {[ 1 := AddrSpace.table [0%nat]; 2 := AddrSpace.table [1%nat] ]}.
Definition demo_threads : gmap Z Thread :=
  {[ 10 := mkThread demo_regs (Some (mkSpace 1 1)); 20 := mkThread demo_regs (Some (mkSpace 2 1)) ]}.
Definition demo : t :=
  mk (Machine.mk (replicate (Z.to_nat MemorySize) 0) demo_regs None None 1 false 0) (Some 1) demo_tables 3 demo_threads 10.

Lemma demo_lookup i th : demo_threads !! i = Some th ->
  (i = 10 /\ th = mkThread demo_regs (Some (mkSpace 1 1))) \/ (i = 20 /\ th = mkThread demo_regs (Some (mkSpace 2 1))).
Proof.
  unfold demo_threads. intros [[<- <-]|[_ H]]%lookup_insert_Some; [auto|]. apply lookup_singleton_Some in H as [<- <-]. auto.
Qed.

Lemma demo_table_lookup p pt : demo_tables !! p = Some pt ->
  (p = 1 /\ shape_of pt = [(true, 0)]) \/ (p = 2 /\ shape_of pt = [(true, 1)]).
Proof.
  unfold demo_tables. intros [[<- <-]|[_ H]]%lookup_insert_Some; [auto|]. apply lookup_singleton_Some in H as [<- <-]. auto.
Qed.

Lemma demo_Inv : Inv demo.
Proof.
  constructor; unfold demo; cbn [machine registers tlb threads tables nextptr currentThread ptr pageTableSize].
  - reflexivity.
  - reflexivity.
  - intros i th [[_ ->]|[_ ->]]%demo_lookup; reflexivity.
  - intros i th sp [[_ ->]|[_ ->]]%demo_lookup; intros [= <-]; cbn; lia.
  - intros p pt [[-> _]|[-> _]]%demo_table_lookup; lia.
  - intros i j th th' sp sp' [[-> ->]|[-> ->]]%demo_lookup [[-> ->]|[-> ->]]%demo_lookup [= <-] [= <-]; cbn; done.
  - intros p p' pt pt' a [[-> H]|[-> H]]%demo_table_lookup [[-> H']|[-> H']]%demo_table_lookup; unfold owns; rewrite H, H'; try done;
      intros (f & Ef & E) (f' & Ef' & E'); apply list_elem_of_singleton in Ef as [= ->]; apply list_elem_of_singleton in Ef' as [= ->]; rewrite <- E in E'; done.
  - intros th sp [[_ ->]|[? ->]]%demo_lookup; intros [= <-]; done.
Qed.

(** The state after an operation and after a switch. *)
Definition after s (o : op) : t := match do_op s o with Ok (s', _) => s' | Fault _ => s end.
Definition switched s (j : Z) : t := match Run s j with Ok s' => s' | Fault _ => s end.
Definition gives s (o : op) : option answer := match do_op s o with Ok (_, a) => Some a | Fault _ => None end.
Definition switches s (j : Z) : bool := match Run s j with Ok _ => true | Fault _ => false end.
Definition runs_now s : option Z := th ← threads s !! currentThread s; space th ≫= fun _ => Some (currentThread s).

Lemma runs_op s o a log s' i : runs_now s = Some i -> gives s o = Some a -> runs (after s o) log s' -> runs s ((i, o, a) :: log) s'.
Proof.
  unfold runs_now, gives, after. intros Hi Hg R. apply bind_Some in Hi as (th & Hth & Hi). apply bind_Some in Hi as (sp & Hsp & Hi).
  injection Hi as <-. destruct (do_op s o) as [[s1 a1]|] eqn:E; [|done]. injection Hg as ->.
  eapply runs_act; [|exact R]. by eapply step_act.
Qed.

Lemma runs_switch s j log s' : switches s j = true -> runs (switched s j) log s' -> runs s log s'.
Proof.
  unfold switches, switched. intros Hs R. destruct (Run s j) as [s1|] eqn:E; [|done]. eapply runs_silent; [|exact R]. by eapply step_switch.
Qed.

(** Thread 10 runs an instruction, thread 20 stores a word at address 16, and
    thread 10 loads the word at that address. *)
Lemma demo_runs : exists s', runs demo [(10, Instr, Trapped None); (20, Store 16 4 77, Stored (inr tt)); (10, Load 16 4, Loaded (inr 0))] s'.
Proof.
  eexists. apply runs_op; [vm_compute; reflexivity..|]. eapply (runs_switch _ 20); [vm_compute; reflexivity|].
  apply runs_op; [vm_compute; reflexivity..|]. eapply (runs_switch _ 10); [vm_compute; reflexivity|].
  apply runs_op; [vm_compute; reflexivity..|]. apply runs_nil.
Qed.

Example demo_runs_alone : exists s' log m0 m1,
  runs demo log s' /\ view demo 10 = Some m0 /\
  solo m0 [Instr; Load 16 4] = Ok (m1, [Trapped None; Loaded (inr 0)]) /\ forall m, view s' 10 = Some m -> same_program m m1.
Proof.
  destruct demo_runs as [s' R]. eexists s', _, _.
  destruct (programs_run_alone demo _ s' 10 _ demo_Inv R eq_refl) as (m1 & E & H).
  exists m1. split; [exact R|]. split; [reflexivity|]. split; [exact E|exact H].
Qed.

End UserThreads.
