(* ===== verification/UserSystem.v ===== *)
(** * Programs, context switches and physical memory

    The system of [UserThreads.v] with the bitmap of physical pages: a program
    starts with the constructor of userprog/addrspace.cc, which takes pages from
    the bitmap and reads the file into memory, and gives the pages back when it
    exits.  The constructor runs from [addrLock->P()] to its end without a context
    switch.

    The loader puts a segment that does not start at address 0 into wrong frames
    ([AddrSpace.segment_page_location]).  So there are two kinds of statements:
    what running programs do to each other, whatever was loaded, and what
    programs do when every file that is loaded has its code at address 0 and no
    initialised data. *)

From S2P Require Import Prelude Allocator Bitmap MachineSim MipsSim AddrSpace Locality UserThreads.

Local Open Scope Z_scope.

Module UserSystem.
Import Machine Locality UserThreads.

(** ** State *)

Record sys := mkSys {
  user : UserThreads.t;
  gPhysPageBitMap : BitMap.t;
  addrLock : Z;
}.

Definition set_user S u : sys := mkSys u (gPhysPageBitMap S) (addrLock S).
Definition kernel_of S : AddrSpace.kernel BitMap.t := AddrSpace.mkKernel (machine (user S)) (gPhysPageBitMap S) (addrLock S).

(** ** Starting and ending a program *)

(** [StartProcess] and [StartProcessID] of userprog/progtest.cc, with the
    constructor from an open file and from a name. *)
Definition StartProgram S (ReadAt : Z -> Z -> outcome (list Z)) (raw : list Z) (garbage : list TranslationEntry) (byname : bool) : outcome sys :=
  '(k, sp) ← (if byname then AddrSpace.AddrSpace_name ReadAt raw (kernel_of S)
              else AddrSpace.AddrSpace_file ReadAt raw garbage (kernel_of S));
  u ← StartProcess (user S) sp (mainMemory (AddrSpace.machine k));
  Ok (mkSys u (AddrSpace.gPhysPageBitMap k) (AddrSpace.addrLock k)).

(** [Thread::FreeSpace] with the destructor of the address space. *)
Definition FreeProgram S : outcome sys :=
  th ← thread (user S) (currentThread (user S));
  match space th with
  | None => Ok S
  | Some sp =>
      match tables (user S) !! table_ptr sp with
      | None => Fault BadAccess
      | Some pt =>
          k ← AddrSpace.AddrSpace_destroy (kernel_of S) (AddrSpace.mk pt (numPages sp));
          u ← FreeSpace (user S);
          Ok (mkSys u (AddrSpace.gPhysPageBitMap k) (addrLock S))
      end
  end.

(** ** The system *)

Section system.
(** What is required of the files that are loaded. *)
Context (loadable : AddrSpace.NoffHeader -> Prop).

Inductive sstep S : option (Z * op * answer) -> sys -> Prop :=
| s_act th sp o u a :
    threads (user S) !! currentThread (user S) = Some th -> space th = Some sp -> do_op (user S) o = Ok (u, a) ->
    sstep S (Some (currentThread (user S), o, a)) (set_user S u)
| s_switch j u : UserThreads.Run (user S) j = Ok u -> sstep S None (set_user S u)
| s_fork i raw : threads (user S) !! i = None -> Z.of_nat (length raw) = NumTotalRegs ->
    sstep S None (set_user S (set_thread (user S) i (mkThread raw None)))
| s_start th ReadAt raw h garbage byname S' :
    threads (user S) !! currentThread (user S) = Some th -> space th = None ->
    AddrSpace.ready ReadAt raw h (kernel_of S) -> loadable h ->
    StartProgram S ReadAt raw garbage byname = Ok S' -> sstep S None S'
| s_exit S' : FreeProgram S = Ok S' -> sstep S None S'.

Inductive sruns : sys -> list (Z * op * answer) -> sys -> Prop :=
| sruns_nil S : sruns S [] S
| sruns_silent S S1 log S2 : sstep S None S1 -> sruns S1 log S2 -> sruns S log S2
| sruns_act S e S1 log S2 : sstep S (Some e) S1 -> sruns S1 log S2 -> sruns S (e :: log) S2.
End system.

(** The kernel after its start: one thread, no program, every page free. *)
Definition fresh S : Prop :=
  Z.of_nat (length (registers (machine (user S)))) = NumTotalRegs /\ tlb (machine (user S)) = None /\
  tables (user S) = ∅ /\ al_wf (gPhysPageBitMap S) /\ Z.of_nat (length (al_bits (gPhysPageBitMap S))) < 2 ^ 32 /\
  exists i raw, threads (user S) = {[ i := mkThread raw None ]} /\ Z.of_nat (length raw) = NumTotalRegs.

(** A file with its code at address 0 and no initialised data. *)
Definition code_only (h : AddrSpace.NoffHeader) : Prop :=
  AddrSpace.virtualAddr (AddrSpace.code h) = 0 /\ 0 < AddrSpace.size (AddrSpace.code h) /\ AddrSpace.size (AddrSpace.initData h) <= 0.

(** ** The invariant *)

(** The tables map pages to frames that are marked in the bitmap. *)
Record SInv S : Prop := {
  s_user : UserThreads.Inv (user S);
  s_map : al_wf (gPhysPageBitMap S) /\ Z.of_nat (length (al_bits (gPhysPageBitMap S))) < 2 ^ 32;
  s_tables : forall p pt, tables (user S) !! p = Some pt -> exists fs, shape_of pt = shape_of (AddrSpace.table fs) /\
    Forall (fun f => al_bits (gPhysPageBitMap S) !! f = Some true) fs;
  s_sizes : forall i th sp pt, threads (user S) !! i = Some th -> space th = Some sp ->
    tables (user S) !! table_ptr sp = Some pt -> numPages sp = Z.of_nat (length pt) }.

Lemma fresh_SInv S : fresh S -> SInv S.
Proof.
  intros (Hr & Ht & Htab & Hwf & Hlen & i & raw & Hth & Hraw). split; [|done|by rewrite Htab|by rewrite Htab].
  assert (Hone : forall j th, threads (user S) !! j = Some th -> th = mkThread raw None).
  { intros j th. rewrite Hth. by intros [_ <-]%lookup_singleton_Some. }
  constructor; rewrite ?Htab; try done.
  - intros j th ->%Hone. done.
  - intros j th sp ->%Hone. done.
  - intros j j' th th' sp sp' ->%Hone. done.
  - intros th sp ->%Hone. done.
Qed.

Lemma owns_table fs a : Forall (fun f => Z.of_nat f < 2 ^ 32) fs ->
  owns (shape_of (AddrSpace.table fs)) a <-> Z.to_nat (Z.of_nat a / PageSize) ∈ fs.
Proof.
  intros Hf. unfold owns, shape_of. assert (Ha : 0 <= Z.of_nat a / PageSize) by (apply Z.div_pos; [lia|done]). split.
  - intros (f0 & Hf0 & Ee). apply list_elem_of_fmap in Hf0 as (e & [= _ ->] & He). apply list_elem_of_lookup in He as (i & Hi). rewrite AddrSpace.lookup_table in Hi.
    destruct (fs !! i) as [f|] eqn:Ei; [|done]. injection Hi as <-. cbn in Ee.
    pose proof (proj1 (Forall_lookup _ _) Hf _ _ Ei) as Hlt. cbn in Hlt. rewrite u32_small in Ee by (unfold is_u32; lia).
    rewrite <- Ee, Nat2Z.id. by eapply list_elem_of_lookup_2.
  - intros Hin. apply list_elem_of_lookup in Hin as (i & Hi). pose proof (proj1 (Forall_lookup _ _) Hf _ _ Hi) as Hlt. cbn in Hlt.
    eexists. split; [apply list_elem_of_fmap; eexists; split; [|eapply list_elem_of_lookup_2; by rewrite AddrSpace.lookup_table, Hi]; reflexivity|].
    cbn. rewrite u32_small by (unfold is_u32; lia). lia.
Qed.

Lemma marked_small S f : SInv S -> al_bits (gPhysPageBitMap S) !! f = Some true -> Z.of_nat f < 2 ^ 32.
Proof. intros I Hf%lookup_lt_Some. pose proof (proj2 (s_map S I)). lia. Qed.

(** The frames of the tables are marked. *)
Lemma owned_marked S p pt a : SInv S -> tables (user S) !! p = Some pt -> owns (shape_of pt) a ->
  al_bits (gPhysPageBitMap S) !! Z.to_nat (Z.of_nat a / PageSize) = Some true.
Proof.
  intros I Hp Ha. destruct (s_tables S I p pt Hp) as (fs & Es & Hfs). rewrite Es in Ha. rewrite list.Forall_forall in Hfs. apply Hfs.
  apply owns_table; [|done]. apply list.Forall_forall. intros f Hf. by apply (marked_small S), Hfs.
Qed.

(** ** Every step keeps the invariant *)

(** What starting a program does, whatever its file holds. *)
Lemma StartProgram_ok S th ReadAt raw h garbage byname S' : SInv S ->
  threads (user S) !! currentThread (user S) = Some th -> space th = None -> AddrSpace.ready ReadAt raw h (kernel_of S) ->
  StartProgram S ReadAt raw garbage byname = Ok S' ->
  exists k fs, AddrSpace.AddrSpace_name ReadAt raw (kernel_of S) = Ok (k, AddrSpace.mk (AddrSpace.table fs) (AddrSpace.pages_needed h)) /\
    Z.of_nat (length fs) = AddrSpace.pages_needed h /\
    take_slots (Z.to_nat (AddrSpace.pages_needed h)) (al_bits (gPhysPageBitMap S)) = (fs, al_bits (gPhysPageBitMap S')) /\
    StartProcess (user S) (AddrSpace.mk (AddrSpace.table fs) (AddrSpace.pages_needed h)) (mainMemory (AddrSpace.machine k)) = Ok (user S') /\
    own_frames (user S) (AddrSpace.mk (AddrSpace.table fs) (AddrSpace.pages_needed h)) /\ al_wf (gPhysPageBitMap S').
Proof.
  intros I Hth Hno Hrd E. destruct (AddrSpace.create_ok ReadAt raw h garbage (kernel_of S) Hrd) as (Ef & k & fs & Ek & Hks & Hlen & Hwf & _).
  change (AddrSpace.gPhysPageBitMap (kernel_of S)) with (gPhysPageBitMap S) in Hks. unfold StartProgram in E. rewrite Ef in E. assert (Eb : (if byname then AddrSpace.AddrSpace_name ReadAt raw (kernel_of S)
    else AddrSpace.AddrSpace_name ReadAt raw (kernel_of S)) = Ok (k, AddrSpace.mk (AddrSpace.table fs) (AddrSpace.pages_needed h))) by (by destruct byname).
  rewrite Eb in E. cbn [mbind outcome_bind] in E. inv_bind E. rename x into u. rename E0 into Eu. injection E as <-.
  exists k, fs. split; [done|]. split; [done|]. split; [done|]. split; [done|]. split; [|done].
  assert (Hroom : (Z.to_nat (AddrSpace.pages_needed h) <= count_clear (al_bits (gPhysPageBitMap S)))%nat)
    by (pose proof (AddrSpace.r_room _ _ _ _ Hrd); cbn in *; lia).
  destruct (take_slots_spec _ _ _ _ Hks Hroom) as (_ & _ & Hfree & _). intros p pt a Hp Ha Hown.
  cbn [AddrSpace.pageTable] in Hown. rewrite owns_table in Hown.
  - pose proof (owned_marked S p pt a I Hp Ha) as Hm. rewrite (Hfree _ Hown) in Hm. discriminate Hm.
  - apply list.Forall_forall. intros f Hf%Hfree%lookup_lt_Some. pose proof (proj2 (s_map S I)). lia.
Qed.

Lemma start_SInv S th ReadAt raw h garbage byname S' : SInv S ->
  threads (user S) !! currentThread (user S) = Some th -> space th = None -> AddrSpace.ready ReadAt raw h (kernel_of S) ->
  StartProgram S ReadAt raw garbage byname = Ok S' -> SInv S'.
Proof.
  intros I Hth Hno Hrd E. destruct (StartProgram_ok S th ReadAt raw h garbage byname S' I Hth Hno Hrd E) as (k & fs & _ & Hlen & Hks & Eu & Hown & Hwf).
  destruct (user_start_Inv _ _ _ _ th (s_user S I) Hth Hno Hown Eu) as (I' & Ecur & _ & Etab & _ & Ets). cbn [AddrSpace.pageTable AddrSpace.numPages] in Etab, Ets.
  assert (Hroom : (Z.to_nat (AddrSpace.pages_needed h) <= count_clear (al_bits (gPhysPageBitMap S)))%nat)
    by (pose proof (AddrSpace.r_room _ _ _ _ Hrd); cbn in *; lia).
  destruct (take_slots_spec _ _ _ _ Hks Hroom) as (_ & _ & _ & Hset & Hl & _). split; [done| | |].
  - split; [done|]. rewrite Hl. apply (s_map S I).
  - intros p pt Hp. rewrite Etab in Hp. apply lookup_insert_Some in Hp as [[<- <-]|[Hne Hp]].
    + exists fs. split; [done|]. apply list.Forall_forall. intros f Hf. by rewrite Hset, decide_True.
    + destruct (s_tables S I p pt Hp) as (gs & Es & Hgs). exists gs. split; [done|]. eapply Forall_impl; [|exact Hgs].
      intros f Hf. rewrite Hset. by destruct (decide _).
  - intros i th' sp pt Hi Hsp Hp. rewrite Ets in Hi. rewrite Etab in Hp. apply lookup_insert_Some in Hi as [[<- <-]|[Hne Hi]].
    + injection Hsp as <-. cbn in Hp |- *. rewrite lookup_insert_eq in Hp. injection Hp as <-. rewrite AddrSpace.length_table. lia.
    + apply lookup_insert_Some in Hp as [[Ep <-]|[Hne' Hp]]; [|by apply (s_sizes S I i th')].
      pose proof (i_ptrs _ (s_user S I) i th' sp Hi Hsp). lia.
Qed.

(** The destructor reads the frames only. *)
Lemma destroy_shape (k : AddrSpace.kernel BitMap.t) pt fs n : shape_of pt = shape_of (AddrSpace.table fs) ->
  AddrSpace.AddrSpace_destroy k (AddrSpace.mk pt n) = AddrSpace.AddrSpace_destroy k (AddrSpace.mk (AddrSpace.table fs) n).
Proof.
  intros E. assert (Er : (physicalPage <$> pt) = (physicalPage <$> AddrSpace.table fs)).
  { apply (f_equal (fmap snd)) in E. unfold shape_of in E. rewrite <- !list_fmap_compose in E. exact E. }
  unfold AddrSpace.AddrSpace_destroy. cbn [AddrSpace.numPages AddrSpace.pageTable]. f_equal. apply for_range_ext. intros i b.
  unfold rd. destruct (0 <=? i); [|done]. apply (f_equal (lookup (Z.to_nat i))) in Er. rewrite !list_lookup_fmap in Er.
  destruct (pt !! Z.to_nat i), (AddrSpace.table fs !! Z.to_nat i); try discriminate Er; [|done]. cbn in Er |- *. by injection Er as ->.
Qed.

(** Frames of different tables are different. *)
Lemma frames_apart S p p' pt pt' fs fs' f : SInv S -> tables (user S) !! p = Some pt -> tables (user S) !! p' = Some pt' ->
  shape_of pt = shape_of (AddrSpace.table fs) -> shape_of pt' = shape_of (AddrSpace.table fs') ->
  Forall (fun f => al_bits (gPhysPageBitMap S) !! f = Some true) fs -> Forall (fun f => al_bits (gPhysPageBitMap S) !! f = Some true) fs' ->
  f ∈ fs -> f ∈ fs' -> p = p'.
Proof.
  intros I Hp Hp' E E' Hfs Hfs' Hf Hf'. apply (i_apart _ (s_user S I) p p' pt pt' (f * Z.to_nat PageSize)%nat Hp Hp').
  all: rewrite ?E, ?E'; apply owns_table; [apply list.Forall_forall; intros g Hg; apply (marked_small S g I)|].
  1,3: by (rewrite list.Forall_forall in Hfs, Hfs'; auto).
  all: replace (Z.to_nat (Z.of_nat (f * Z.to_nat PageSize) / PageSize)) with f; [done|]; unfold PageSize, SectorSize; Z.to_euclidean_division_equations; lia.
Qed.

Lemma exit_SInv S S' : SInv S -> FreeProgram S = Ok S' -> SInv S' /\ FreeSpace (user S) = Ok (user S').
Proof.
  intros I E. unfold FreeProgram in E. inv_bind E. rename x into th. rename E0 into Eth. unfold FreeSpace. rewrite Eth. cbn [mbind outcome_bind].
  unfold thread in Eth. destruct (threads (user S) !! currentThread (user S)) as [th0|] eqn:Ei; [|discriminate Eth]. injection Eth as ->.
  destruct (space th) as [sp|] eqn:Esp; [|by injection E as <-]. destruct (tables (user S) !! table_ptr sp) as [pt|] eqn:Ept; [|discriminate E].
  inv_bind E. rename x into k. rename E0 into Ek. inv_bind E. rename x into u. rename E0 into Eu. injection E as <-. cbn [user].
  assert (Eu' : u = set_tables (user S) (delete (table_ptr sp) (tables (user S)))).
  { unfold FreeSpace, thread in Eu. rewrite Ei in Eu. cbn [mbind outcome_bind] in Eu. rewrite Esp, Ept in Eu. by injection Eu as <-. }
  split; [|by rewrite Eu'].
  destruct (s_tables S I _ pt Ept) as (fs & Es & Hfs). rewrite (destroy_shape _ pt fs _ Es) in Ek.
  pose proof (s_sizes S I _ th sp pt Ei Esp Ept) as Hn. assert (Hl : length pt = length fs).
  { apply (f_equal length) in Es. unfold shape_of in Es. by rewrite !length_fmap, AddrSpace.length_table in Es. }
  rewrite Hn, Hl in Ek. destruct (AddrSpace.destroy_ok (kernel_of S) fs) as (k2 & Ek2 & Hwf & _ & _ & Hb).
  { apply (s_map S I). } { eapply Forall_impl; [|exact Hfs]. intros f Hf. exact (lookup_lt_Some _ _ _ Hf). }
  rewrite Ek in Ek2. injection Ek2 as <-. split; cbn [user gPhysPageBitMap].
  - apply (user_step_Inv (user S) None); [apply (s_user S I)|]. by apply step_exit.
  - split; [done|]. rewrite Hb, length_clear_slots. apply (s_map S I).
  - intros p pt' Hp. rewrite Eu' in Hp. cbn in Hp. apply lookup_delete_Some in Hp as [Hne Hp]. destruct (s_tables S I p pt' Hp) as (fs' & Es' & Hfs').
    exists fs'. split; [done|]. apply list.Forall_forall. intros f Hf. rewrite Hb, lookup_clear_slots, decide_False.
    + rewrite list.Forall_forall in Hfs'. by apply Hfs'.
    + intros [Hin _]. apply Hne. by eapply (frames_apart S _ _ pt pt' fs fs').
  - rewrite Eu'. cbn. intros i th' sp' pt' Hi Hsp' Hp. apply lookup_delete_Some in Hp as [_ Hp]. by apply (s_sizes S I i th').
Qed.

Lemma user_SInv S u : SInv S -> UserThreads.Inv u ->
  (forall p pt, tables u !! p = Some pt -> exists pt0, tables (user S) !! p = Some pt0 /\ shape_of pt = shape_of pt0) ->
  (forall i th sp, threads u !! i = Some th -> space th = Some sp ->
     exists j th0, threads (user S) !! j = Some th0 /\ space th0 = Some sp) ->
  SInv (set_user S u).
Proof.
  intros I Iu Ht Hth. split; cbn [user gPhysPageBitMap set_user]; [done|apply (s_map S I)| |].
  - intros p pt Hp. destruct (Ht p pt Hp) as (pt0 & Hp0 & ->). by apply (s_tables S I p).
  - intros i th sp pt Hi Hsp Hp. destruct (Hth i th sp Hi Hsp) as (j & th0 & Hj & Hsp0). destruct (Ht _ pt Hp) as (pt0 & Hp0 & Es).
    rewrite (s_sizes S I j th0 sp pt0 Hj Hsp0 Hp0). apply (f_equal length) in Es. unfold shape_of in Es. rewrite !length_fmap in Es. by rewrite Es.
Qed.

Lemma sstep_SInv loadable S l S' : SInv S -> sstep loadable S l S' -> SInv S'.
Proof.
  intros I St. pose proof (s_user S I) as Iu.
  destruct St as [th sp o u a Hth Hsp E|j u E|i raw Hno Hraw|th ReadAt raw h garbage byname S' Hth Hno Hrd _ E|S' E].
  - apply user_SInv; [done|eapply user_step_Inv; [exact Iu|by eapply step_act]| |].
    all: destruct (do_op_frame (user S) o u a th sp Iu Hth Hsp E) as (pt & d & d' & pt' & Ept & _ & _ & _ & _ & Hsh & -> & _); cbn.
    + intros p q Hq. apply lookup_insert_Some in Hq as [[<- <-]|[_ Hq]]; eauto.
    + eauto.
  - apply user_SInv; [done|by eapply Inv_Run| |].
    + destruct (user_Run_ok (user S) j u Iu E) as (_ & _ & _ & _ & _ & _ & -> & _). eauto.
    + intros i th sp Hi Hsp. destruct (Run_space (user S) j u i th Iu E Hi) as (th0 & H0 & Es & _). exists i, th0. by rewrite <- Es.
  - apply user_SInv; [done|eapply user_step_Inv; [exact Iu|by apply step_fork]|cbn; eauto|].
    intros k th sp Hk Hsp. cbn in Hk. apply lookup_insert_Some in Hk as [[_ <-]|[_ Hk]]; [done|eauto].
  - by eapply start_SInv.
  - by destruct (exit_SInv S S' I E).
Qed.

Lemma sruns_SInv loadable S log S' : sruns loadable S log S' -> SInv S -> SInv S'.
Proof. induction 1 as [|S S1 log S2 St _ IH|S e S1 log S2 St _ IH]; intros I; [done|..]; apply IH; by eapply sstep_SInv. Qed.

(** ** Files with code only are loaded into the frames of the program *)

Lemma code_only_loads S th ReadAt raw h garbage byname S' : SInv S ->
  threads (user S) !! currentThread (user S) = Some th -> space th = None -> AddrSpace.ready ReadAt raw h (kernel_of S) -> code_only h ->
  StartProgram S ReadAt raw garbage byname = Ok S' -> exists sp mem, loads (user S) sp mem /\ StartProcess (user S) sp mem = Ok (user S').
Proof.
  intros I Hth Hno Hrd (Hv & Hc & Hi) E.
  destruct (StartProgram_ok S th ReadAt raw h garbage byname S' I Hth Hno Hrd E) as (k & fs & Ek & Hlen & Hks & Eu & Hown & _).
  eexists _, _. split; [|exact Eu]. destruct (AddrSpace.code_loaded ReadAt raw h (kernel_of S) k _ Hrd Hc Hi Ek) as (fs' & _ & _ & Hks' & Hf & (Hm3 & _ & Hout & _)).
  change (AddrSpace.gPhysPageBitMap (kernel_of S)) with (gPhysPageBitMap S) in Hks'. rewrite Hks in Hks'. injection Hks' as <- _.
  destruct (Hf Hc) as (_ & _ & _ & Hall). pose proof (AddrSpace.r_mem _ _ _ _ Hrd) as Hm.
  assert (Hsmall : Forall (fun f => Z.of_nat f < 2 ^ 32) fs).
  { revert Hall. apply Forall_impl. intros f Hb. rewrite Hv in Hb. unfold MemorySize, NumPhysPages, PageSize, SectorSize in Hb. lia. }
  split; [|split; [|exact Hown]].
  - destruct Hm as [Hm _], Hm3 as [Hm3 _]. cbn in Hm. lia.
  - intros a Ha. cbn [AddrSpace.pageTable] in Ha. apply Hout. intros (f & Hin & Hlo & Hhi). apply Ha. rewrite owns_table by done.
    unfold AddrSpace.dest in Hlo, Hhi. rewrite Hv in Hlo, Hhi.
    replace (Z.to_nat (Z.of_nat a / PageSize)) with f; [done|]. unfold PageSize, SectorSize in *. Z.to_euclidean_division_equations. lia.
Qed.

(** With such files the system runs as in [UserThreads.v]. *)
Lemma sruns_runs S log S' : sruns code_only S log S' -> SInv S -> runs (user S) log (user S').
Proof.
  assert (Hstep : forall S l S', SInv S -> sstep code_only S l S' -> step (user S) l (user S')).
  { clear. intros S l S' I [th sp o u a Hth Hsp E|j u E|i raw Hno Hraw|th ReadAt raw h garbage byname S1 Hth Hno Hrd Hco E|S1 E]; cbn [user set_user].
    - by eapply step_act.
    - by eapply step_switch.
    - by apply step_fork.
    - destruct (code_only_loads S th ReadAt raw h garbage byname S1 I Hth Hno Hrd Hco E) as (sp & mem & Hl & Eu). by eapply step_start.
    - apply step_exit. by destruct (exit_SInv S S1 I E). }
  induction 1 as [|S S1 log S2 St _ IH|S e S1 log S2 St _ IH]; intros I; [apply runs_nil|eapply runs_silent|eapply runs_act]; eauto using sstep_SInv.
Qed.

(** ** The properties *)

(** C3: multiprogramming is transparent.  From the start of the kernel on, programs
    are loaded by the constructors of [AddrSpace] into pages that are free, run,
    are switched at any point, and exit; every file that is loaded has its code at
    address 0 and no initialised data (the loader puts any other segment into
    frames that may belong to another program), and there is room for it.  Then what
    a program does after it was started and the answers it gets, of every
    instruction, register and memory access, are those of a run of the same
    operations on a machine that it has for itself; and what it has then is what it
    would have there: the same registers and page table, the same memory, and the
    same answers to whatever it does next. *)
Theorem multiprogramming_is_transparent S0 log0 S log S' i m0 :
  fresh S0 -> sruns code_only S0 log0 S -> sruns code_only S log S' -> view (user S) i = Some m0 ->
  exists m1, solo m0 (ops i log) = Ok (m1, answers_of i log) /\
    forall m, view (user S') i = Some m -> same_program m m1.
Proof.
  intros Hf R0 R Hv. pose proof (sruns_SInv _ _ _ _ R0 (fresh_SInv S0 Hf)) as I.
  exact (programs_run_alone (user S) log (user S') i m0 (s_user S I) (sruns_runs S log S' R I) Hv).
Qed.

(** What an operation answers. *)
Definition reply (o : op) (m : Machine.t) : outcome answer := '(_, a) ← act o m; Ok a.

(** C12: running programs are isolated.  Whatever programs were loaded since the
    start of the kernel, with any segments that lie in main memory and room in the
    free pages, and in whatever order they started, ran and exited: an instruction, a load or a store of one program changes the answer
    of no instruction, load or store of another one. *)
Theorem processes_are_isolated S0 log S i j mi mj mi' o o' a :
  fresh S0 -> sruns (fun _ => True) S0 log S -> i <> j -> view (user S) i = Some mi -> view (user S) j = Some mj ->
  act o mi = Ok (mi', a) ->
  reply o' (set_memory mj (mainMemory mi')) = reply o' mj.
Proof.
  intros Hf R Hij Hi Hj Ea. pose proof (sruns_SInv _ _ _ _ R (fresh_SInv S0 Hf)) as I. pose proof (s_user S I) as Iu.
  pose proof Hi as Hi0. apply view_spec in Hi0 as (thi & spi & pti & Hthi & Hspi & Hpti & Emi).
  pose proof Hj as Hj0. apply view_spec in Hj0 as (thj & spj & ptj & Hthj & Hspj & Hptj & Emj).
  pose proof (view_like (user S) i mi spi pti Iu Hi ltac:(by exists thi) Hpti) as Li.
  pose proof (view_like (user S) j mj spj ptj Iu Hj ltac:(by exists thj) Hptj) as Lj.
  assert (Hp : table_ptr spi <> table_ptr spj) by (intros Heq; apply Hij; by eapply (i_distinct _ Iu)).
  pose proof (like_act _ _ _ o mi mi Li) as HB. rewrite Ea in HB. destruct HB as [Li' _]. cbn [fst] in Li'.
  assert (L : like (shape_of ptj) (numPages spj) (mainMemory mi') (set_memory mj (mainMemory mi')) mj).
  { destruct Lj as [Rj Tj Pj Nj Lnj Mj Xj]. destruct Li' as [_ _ _ _ [_ Ln] _ Xi]. assert (Em : mainMemory mj = mainMemory mi) by (by rewrite Emi, Emj).
    constructor; cbn; try done. 1: rewrite <- Ln, Em; done.
    intros b Hb. rewrite Xi, Em; [done|]. intros Hb'. apply Hp. by eapply (i_apart _ Iu). }
  unfold reply. pose proof (like_act _ _ _ o' _ _ L) as HB. destruct (act o' (set_memory mj (mainMemory mi'))) as [[x1 a1]|], (act o' mj) as [[x2 a2]|]; try done.
  - destruct HB as [_ HB]. cbn in HB |- *. by rewrite HB.
  - cbn. by rewrite HB.
Qed.

(** ** Two programs *)

Definition result {A} (d : A) (o : outcome A) : A := match o with Ok a => a | Fault _ => d end.
Definition is_ok {A} (o : outcome A) : bool := match o with Ok _ => true | Fault _ => false end.

Lemma result_ok {A} (d : A) o : is_ok o = true -> o = Ok (result d o).
Proof. by destruct o. Qed.

(** The kernel starts with thread 10. *)
Definition demo_map : BitMap.t := result (BitMap.mk 0 0 []) (BitMap.BitMap (fun i => i) 256).
Definition demo0 : sys :=
  mkSys (UserThreads.mk (Machine_new 0 0 false) None ∅ 1 {[ 10 := mkThread (replicate 40 0) None ]} 10) demo_map 1.

(** Thread 10 starts the program of [AddrSpace.v], thread 20 is forked and starts it,
    too; a word is stored by 20, and loaded by 10. *)
Definition start_demo S : sys := result S (StartProgram S (AddrSpace.reader AddrSpace.demo_file) AddrSpace.demo_raw [] true).
Definition demo1 : sys := start_demo demo0.
Definition demo2 : sys := set_user demo1 (set_thread (user demo1) 20 (mkThread (replicate 40 0) None)).
Definition demo3 : sys := set_user demo2 (result (user demo2) (UserThreads.Run (user demo2) 20)).
Definition demo4 : sys := start_demo demo3.
Definition demo5 : sys := set_user demo4 (after (user demo4) (Store 16 4 77)).
Definition demo6 : sys := set_user demo5 (result (user demo5) (UserThreads.Run (user demo5) 10)).
Definition demo7 : sys := set_user demo6 (after (user demo6) (Load 16 4)).

Definition bytes_ok (l : list Z) : bool := (Z.of_nat (length l) =? MemorySize) && forallb (fun b => (0 <=? b) && (b <? 256)) l.

Lemma bytes_ok_mem m : bytes_ok (mainMemory m) = true -> mem_ok m.
Proof.
  unfold bytes_ok, mem_ok. intros [H1 H2]%andb_true_iff. split; [by apply Z.eqb_eq|]. apply list.Forall_forall. intros b Hb.
  rewrite forallb_forall in H2. apply list_elem_of_In, H2 in Hb. apply andb_true_iff in Hb as [Hl Hh]. unfold is_u8. lia.
Qed.

Lemma demo0_fresh : fresh demo0.
Proof.
  split; [vm_compute; reflexivity|]. split; [reflexivity|]. split; [reflexivity|].
  destruct (BitMap.BitMap_spec (fun i => i) 256 ltac:(done)) as (b & Eb & Hwf & _ & Hb).
  assert (E : demo_map = b) by (unfold demo_map; by rewrite Eb). cbn [gPhysPageBitMap demo0]. rewrite E. split; [exact Hwf|].
  change (BitMap.bits b) with (al_bits b) in Hb. rewrite Hb, length_replicate. split; [done|]. exists 10, (replicate 40 0). split; [reflexivity|]. vm_compute. reflexivity.
Qed.

Lemma start_demo_step S th : SInv S -> threads (user S) !! currentThread (user S) = Some th -> space th = None ->
  bytes_ok (mainMemory (machine (user S))) = true -> addrLock S = 1 ->
  (let '(fs, _) := take_slots 4 (al_bits (gPhysPageBitMap S)) in forallb (fun f => Z.of_nat f <? NumPhysPages) fs) = true ->
  (4 <=? count_clear (al_bits (gPhysPageBitMap S)))%nat = true ->
  is_ok (StartProgram S (AddrSpace.reader AddrSpace.demo_file) AddrSpace.demo_raw [] true) = true ->
  sstep code_only S None (start_demo S).
Proof.
  intros I Hth Hno Hm Hl Hfs Hc Hok. destruct (take_slots 4 (al_bits (gPhysPageBitMap S))) as [fs bs] eqn:Et.
  eapply (s_start _ _ th _ _ AddrSpace.demo_header [] true); [done|done| |done|by apply result_ok].
  apply (AddrSpace.demo_ready (kernel_of S) fs bs); [by apply bytes_ok_mem|apply (s_map S I)|done|by apply Nat.leb_le|done|].
  apply list.Forall_forall. intros f Hf. rewrite forallb_forall in Hfs. apply list_elem_of_In, Hfs in Hf. by apply Z.ltb_lt.
Qed.

Lemma demo_loaded : sruns code_only demo0 [] demo4.
Proof.
  assert (S01 : sstep code_only demo0 None demo1).
  { eapply start_demo_step; [apply fresh_SInv, demo0_fresh|reflexivity|reflexivity|vm_compute; reflexivity..]. }
  assert (S12 : sstep code_only demo1 None demo2) by (apply s_fork; vm_compute; reflexivity).
  assert (S23 : sstep code_only demo2 None demo3) by (eapply s_switch, result_ok; vm_compute; reflexivity).
  assert (I3 : SInv demo3).
  { eapply sstep_SInv; [|exact S23]. eapply sstep_SInv; [|exact S12]. eapply sstep_SInv; [|exact S01]. apply fresh_SInv, demo0_fresh. }
  eapply sruns_silent; [exact S01|]. eapply sruns_silent; [exact S12|]. eapply sruns_silent; [exact S23|].
  eapply sruns_silent; [|apply sruns_nil].
  eapply start_demo_step; [exact I3|vm_compute; reflexivity|reflexivity|vm_compute; reflexivity..].
Qed.

Lemma act_step P S o a i : runs_now (user S) = Some i -> gives (user S) o = Some a ->
  sstep P S (Some (i, o, a)) (set_user S (after (user S) o)).
Proof.
  unfold runs_now, gives, after. intros Hi Hg. apply bind_Some in Hi as (th & Hth & Hi). apply bind_Some in Hi as (sp & Hsp & Hi).
  injection Hi as <-. destruct (do_op (user S) o) as [[s1 a1]|] eqn:E; [|done]. injection Hg as ->. by eapply s_act.
Qed.

Lemma demo_runs_on : sruns code_only demo4 [(20, Store 16 4 77, Stored (inr tt)); (10, Load 16 4, Loaded (inr 117901063))] demo7.
Proof.
  eapply (sruns_act _ demo4 _ demo5); [apply act_step; vm_compute; reflexivity|].
  eapply (sruns_silent _ demo5 demo6); [eapply s_switch, result_ok; vm_compute; reflexivity|].
  eapply (sruns_act _ demo6 _ demo7); [apply act_step; vm_compute; reflexivity|apply sruns_nil].
Qed.

Lemma some_of {A} (o : option A) : match o with Some _ => true | None => false end = true -> exists a, o = Some a.
Proof. destruct o; [by eexists|done]. Qed.

Lemma multiprogramming_is_transparent_witness : exists m0 m1,
  view (user demo4) 10 = Some m0 /\ solo m0 [Load 16 4] = Ok (m1, [Loaded (inr 117901063)]) /\
  forall m, view (user demo7) 10 = Some m -> same_program m m1.
Proof.
  destruct (some_of (view (user demo4) 10)) as [m0 Ev]; [vm_compute; reflexivity|].
  destruct (multiprogramming_is_transparent demo0 [] demo4 _ demo7 10 m0 demo0_fresh demo_loaded demo_runs_on Ev) as (m1 & E & H).
  exists m0, m1. split; [exact Ev|]. split; [exact E|exact H].
Defined.

Lemma sruns_weaken (P Q : AddrSpace.NoffHeader -> Prop) S log S' : (forall h, P h -> Q h) -> sruns P S log S' -> sruns Q S log S'.
Proof.
  intros HPQ R. assert (Hstep : forall S l S', sstep P S l S' -> sstep Q S l S').
  { intros ? ? ? []; [by eapply s_act|by eapply s_switch|by apply s_fork|by eapply s_start; eauto|by apply s_exit]. }
  induction R; [apply sruns_nil|eapply sruns_silent; eauto|eapply sruns_act; eauto].
Qed.

Lemma processes_are_isolated_witness : exists mi mj mi' a,
  view (user demo4) 20 = Some mi /\ view (user demo4) 10 = Some mj /\ act (Store 16 4 77) mi = Ok (mi', a) /\
  reply (Load 16 4) (set_memory mj (mainMemory mi')) = reply (Load 16 4) mj.
Proof.
  destruct (some_of (view (user demo4) 20)) as [mi Ei]; [vm_compute; reflexivity|].
  destruct (some_of (view (user demo4) 10)) as [mj Ej]; [vm_compute; reflexivity|].
  destruct (act (Store 16 4 77) mi) as [[mi' a]|] eqn:Ea.
  - exists mi, mj, mi', a. split; [exact Ei|]. split; [exact Ej|]. split; [exact Ea|].
    exact (processes_are_isolated demo0 [] demo4 20 10 mi mj mi' (Store 16 4 77) (Load 16 4) a demo0_fresh
      (sruns_weaken _ _ _ _ _ (fun _ _ => Logic.I) demo_loaded) ltac:(done) Ei Ej Ea).
  - exfalso. assert (E : (view (user demo4) 20 ≫= fun m => Some (is_ok (act (Store 16 4 77) m))) = Some true) by (vm_compute; reflexivity).
    rewrite Ei in E. cbn [mbind option_bind] in E. by rewrite Ea in E.
Defined.

End UserSystem.
