(* ===== verification/ConsoleDev.v ===== *)
(** * machine/console.{h,cc} and threads/synchcons.{h,cc}: the console

    [Console.t] is the simulated device: what its keyboard will deliver and what
    its display has shown are lists of characters (signed [char]s).  [SynchConsole.t]
    adds the four semaphores of class [SynchConsole], by their values.  A thread
    that waits for the device goes on when the device interrupts: the wait runs
    the interrupt that is pending, and a wait that no interrupt can end is
    [Blocked]. *)

From S2P Require Import Prelude.

Local Open Scope Z_scope.

Module Console.

Definition EOF : Z := -1.

Record t := mk {
  input : list Z;             (* what will be typed *)
  output : list Z;            (* what was displayed *)
  putBusy : bool;
  incoming : Z;
  numConsoleCharsRead : Z;    (* the counters of class Statistics *)
  numConsoleCharsWritten : Z;
}.

(** [Console::Console] on a keyboard that will type [typed]. *)
Definition Console_new (typed : list Z) : t := mk typed [] false EOF 0 0.

(** [Console::CheckCharAvail]; the flag says that it called [readHandler]. *)
Definition CheckCharAvail (c : t) : t * bool :=
  if negb (incoming c =? EOF) then (c, false)
  else match input c with
       | [] => (c, false)
       | ch :: rest => (mk rest (output c) (putBusy c) ch (numConsoleCharsRead c + 1) (numConsoleCharsWritten c), true)
       end.

(** [Console::WriteDone], which then calls [writeHandler]. *)
Definition WriteDone (c : t) : t :=
  mk (input c) (output c) false (incoming c) (numConsoleCharsRead c) (numConsoleCharsWritten c + 1).

Definition GetChar (c : t) : t * Z :=
  (mk (input c) (output c) (putBusy c) EOF (numConsoleCharsRead c) (numConsoleCharsWritten c), incoming c).

(** [Console::PutChar]; the interrupt it schedules is pending while [putBusy]. *)
Definition PutChar (c : t) (ch : Z) : outcome t :=
  _ ← ASSERT (negb (putBusy c));
  Ok (mk (input c) (output c ++ [ch]) true (incoming c) (numConsoleCharsRead c) (numConsoleCharsWritten c)).

End Console.

Module SynchConsole.

Record t := mk {
  cons : Console.t;
  synchReadAvail : Z;
  synchWriteAvail : Z;
  RLineBlock : Z;
  WLineBlock : Z;
}.

(** [SynchConsole::SynchConsole] *)
Definition SynchConsole_new (typed : list Z) : t := mk (Console.Console_new typed) 0 0 1 1.

(** [RLineBlock->P()] and the like. *)
Definition RLine_P (s : t) : outcome t :=
  if RLineBlock s =? 0 then Fault Blocked
  else Ok (mk (cons s) (synchReadAvail s) (synchWriteAvail s) (RLineBlock s - 1) (WLineBlock s)).
Definition RLine_V (s : t) : t :=
  mk (cons s) (synchReadAvail s) (synchWriteAvail s) (RLineBlock s + 1) (WLineBlock s).
Definition WLine_P (s : t) : outcome t :=
  if WLineBlock s =? 0 then Fault Blocked
  else Ok (mk (cons s) (synchReadAvail s) (synchWriteAvail s) (RLineBlock s) (WLineBlock s - 1)).
Definition WLine_V (s : t) : t :=
  mk (cons s) (synchReadAvail s) (synchWriteAvail s) (RLineBlock s) (WLineBlock s + 1).

(** The interrupts of the device, with the handlers [SynchReadFunct] and
    [SynchWriteFunct] of threads/synchcons.cc. *)
Definition read_interrupt (s : t) : t :=
  let '(c, called) := Console.CheckCharAvail (cons s) in
  mk c (if called then synchReadAvail s + 1 else synchReadAvail s) (synchWriteAvail s) (RLineBlock s) (WLineBlock s).
Definition write_interrupt (s : t) : t :=
  if Console.putBusy (cons s) then
    mk (Console.WriteDone (cons s)) (synchReadAvail s) (synchWriteAvail s + 1) (RLineBlock s) (WLineBlock s)
  else s.

(** [synchReadAvail->P()] and [synchWriteAvail->P()]. *)
Definition wait_read (s : t) : outcome t :=
  let s := if synchReadAvail s =? 0 then read_interrupt s else s in
  if synchReadAvail s =? 0 then Fault Blocked
  else Ok (mk (cons s) (synchReadAvail s - 1) (synchWriteAvail s) (RLineBlock s) (WLineBlock s)).
Definition wait_write (s : t) : outcome t :=
  let s := if synchWriteAvail s =? 0 then write_interrupt s else s in
  if synchWriteAvail s =? 0 then Fault Blocked
  else Ok (mk (cons s) (synchReadAvail s) (synchWriteAvail s - 1) (RLineBlock s) (WLineBlock s)).

Definition set_cons (s : t) (c : Console.t) : t :=
  mk c (synchReadAvail s) (synchWriteAvail s) (RLineBlock s) (WLineBlock s).

Definition Write (s : t) (from : list Z) (numBytes : Z) : outcome (t * Z) :=
  s ← WLine_P s;
  s ← for_range 0 numBytes
        (fun loop s =>
           ch ← rd from loop;
           c ← Console.PutChar (cons s) ch;
           wait_write (set_cons s c))
        s;
  Ok (WLine_V s, numBytes).

(** The inner loop of [Read]: wait for a character that is not [EOF]. *)
Fixpoint next_char (fuel : nat) (s : t) : outcome (t * Z) :=
  match fuel with
  | O => Fault OutOfFuel
  | S fuel' =>
      s ← wait_read s;
      let '(c, ch) := Console.GetChar (cons s) in
      let s := set_cons s c in
      if ch =? Console.EOF then next_char fuel' s else Ok (s, ch)
  end.

(** Every wait takes a character from the keyboard or blocks. *)
Definition fuel_for (s : t) : nat := S (S (length (Console.input (cons s)))).

(** The outer loop of [Read], with [loop] characters stored; [ch] is the last
    character.  The answer is the buffer, [loop] and [ch]. *)
Fixpoint read_line (fuel : nat) (s : t) (into : list Z) (loop numBytes ch : Z) : outcome (t * (list Z * Z * Z)) :=
  match fuel with
  | O => Fault OutOfFuel
  | S fuel' =>
      if loop <? numBytes then
        '(s, ch) ← next_char (fuel_for s) s;
        if (ch =? 10) || (ch =? 1) then Ok (s, (into, loop, ch))
        else
          into ← wr into loop ch;
          read_line fuel' s into (loop + 1) numBytes ch
      else Ok (s, (into, loop, ch))
  end.

(** [SynchConsole::Read]; [raw] is what the variable [ch] held, which is read
    when the loop does not run.  The answer is the buffer and the result. *)
Definition Read (raw : Z) (s : t) (into : list Z) (numBytes : Z) : outcome (t * (list Z * Z)) :=
  into ← for_range 0 numBytes (fun loop into => wr into loop 0) into;
  s ← RLine_P s;
  '(s, (into, loop, ch)) ← read_line (S (Z.to_nat numBytes)) s into 0 numBytes raw;
  Ok (RLine_V s, (into, if ch =? 1 then -1 else loop)).

(** ** Specification *)

(** The next character that is not [EOF], and what is typed after it. *)
Fixpoint next_typed (l : list Z) : option (Z * list Z) :=
  match l with
  | [] => None
  | ch :: rest => if ch =? Console.EOF then next_typed rest else Some (ch, rest)
  end.

(** A line of at most [n] characters: the characters, the one that ended it (a
    newline or control-A, none when it is full), and what is typed after it. *)
Fixpoint typed_line (n : nat) (l : list Z) : option (list Z * option Z * list Z) :=
  match n with
  | O => Some ([], None, l)
  | S n' =>
      '(ch, rest) ← next_typed l;
      if (ch =? 10) || (ch =? 1) then Some ([], Some ch, rest)
      else '(cs, e, rest') ← typed_line n' rest; Some (ch :: cs, e, rest')
  end.

(** What a reader will get: the character the device holds, if any, and those
    that will be typed. *)
Definition typed (s : t) : list Z :=
  if Console.incoming (cons s) =? Console.EOF then Console.input (cons s)
  else Console.incoming (cons s) :: Console.input (cons s).

(** The semaphore counts the character the device holds. *)
Definition reading (s : t) : Prop :=
  synchReadAvail s = if Console.incoming (cons s) =? Console.EOF then 0 else 1.

(** No operation is in progress; a character may have arrived. *)
Definition quiet (s : t) : Prop :=
  reading s /\ synchWriteAvail s = 0 /\ RLineBlock s = 1 /\ WLineBlock s = 1 /\
  Console.putBusy (cons s) = false.

(** [s'] differs from [s] only by what the keyboard has delivered. *)
Definition after_input (s s' : t) : Prop :=
  reading s' /\ synchWriteAvail s' = synchWriteAvail s /\ RLineBlock s' = RLineBlock s /\ WLineBlock s' = WLineBlock s /\
  Console.putBusy (cons s') = Console.putBusy (cons s) /\ Console.output (cons s') = Console.output (cons s).

Lemma after_input_trans s1 s2 s3 : after_input s1 s2 -> after_input s2 s3 -> after_input s1 s3.
Proof. unfold after_input. intuition congruence. Qed.

Lemma Write_ok s from n :
  quiet s -> 0 <= n <= Z.of_nat (length from) ->
  exists s', Write s from n = Ok (s', n) /\ quiet s' /\
    Console.output (cons s') = Console.output (cons s) ++ take (Z.to_nat n) from /\
    typed s' = typed s.
Proof.
  intros (Hra & Hwa & Hrl & Hwl & Hb) Hn. unfold Write, WLine_P.
  rewrite Hwl. cbn [Z.eqb mbind outcome_bind].
  destruct (for_range_inv (fun i s' => quiet (WLine_V s') /\
      Console.output (cons s') = Console.output (cons s) ++ take (Z.to_nat i) from /\
      typed s' = typed s)
    0 n (fun loop s => ch ← rd from loop; c ← Console.PutChar (cons s) ch; wait_write (set_cons s c))
    (mk (cons s) (synchReadAvail s) (synchWriteAvail s) (RLineBlock s) (1 - 1)))
    as (s' & -> & Hq & Ho & Hin).
  - lia.
  - split; [done|]. by rewrite app_nil_r.
  - intros i s1 Hi1 ((Hra1 & Hwa1 & Hrl1 & Hwl1 & Hb1) & Ho1 & Hin1).
    cbn [WLine_V synchReadAvail synchWriteAvail RLineBlock WLineBlock cons] in *.
    destruct (rd_total from i) as (ch & -> & Ech); [lia|]. cbn [mbind outcome_bind].
    unfold Console.PutChar. rewrite Hb1. cbn [negb ASSERT mbind outcome_bind].
    unfold wait_write, set_cons. cbn [synchWriteAvail cons]. rewrite Hwa1. cbn [Z.eqb].
    unfold write_interrupt. cbn [cons Console.putBusy synchWriteAvail]. rewrite ?Hwa1. cbn [Z.eqb Z.add].
    eexists. split; [done|]. split; [done|]. cbn [cons Console.output Console.WriteDone Console.input].
    split; [|done]. rewrite Ho1. replace (Z.to_nat (i + 1)) with (S (Z.to_nat i)) by lia.
    by rewrite (take_S_r _ _ ch), app_assoc.
  - cbn [mbind outcome_bind]. exists (WLine_V s'). done.
Qed.

(** Waiting for a character when one will be typed, and when none will. *)
Lemma wait_read_char s ch rest :
  reading s -> typed s = ch :: rest ->
  exists s1, wait_read s = Ok s1 /\ (Console.GetChar (cons s1)).2 = ch /\
    let s2 := set_cons s1 (Console.GetChar (cons s1)).1 in
    after_input s s2 /\ typed s2 = rest.
Proof.
  unfold reading, typed, wait_read, read_interrupt, Console.CheckCharAvail.
  destruct (Console.incoming (cons s) =? Console.EOF); intros Hra Hi; rewrite Hra; cbn [Z.eqb negb].
  - rewrite Hi. cbn [synchReadAvail Z.add Z.eqb]. eexists. split; [done|]. done.
  - injection Hi as <- <-. rewrite ?Hra. cbn [Z.eqb]. eexists. split; [done|]. done.
Qed.

Lemma wait_read_blocked s : reading s -> typed s = [] -> wait_read s = Fault Blocked.
Proof.
  unfold reading, typed, wait_read, read_interrupt, Console.CheckCharAvail.
  destruct (Console.incoming (cons s) =? Console.EOF); intros Hra Hi; [|done].
  rewrite Hra, Hi. done.
Qed.

(** A character that arrives between two operations is kept for the reader. *)
Lemma read_interrupt_ok s :
  quiet s -> head (Console.input (cons s)) <> Some Console.EOF ->
  quiet (read_interrupt s) /\ typed (read_interrupt s) = typed s /\
  Console.output (cons (read_interrupt s)) = Console.output (cons s).
Proof.
  unfold quiet, reading, typed, read_interrupt, Console.CheckCharAvail. intros (Hra & Hrest) Hh.
  destruct (Console.incoming (cons s) =? Console.EOF) eqn:Ei; cbn [negb cons synchReadAvail]; [|by rewrite ?Ei].
  destruct (Console.input (cons s)) as [|ch rest] eqn:Ein; [cbn [cons synchReadAvail]; by rewrite Ei|].
  cbn [cons synchReadAvail Console.incoming Console.input]. change (head (ch :: rest)) with (Some ch) in Hh.
  rewrite (proj2 (Z.eqb_neq ch Console.EOF)) by congruence. rewrite Hra. done.
Qed.

Lemma typed_fuel s : (length (typed s) < fuel_for s)%nat.
Proof. unfold typed, fuel_for. destruct (_ =? _); cbn [length]; lia. Qed.

Lemma next_char_ok fuel : forall s,
  reading s -> (length (typed s) < fuel)%nat ->
  match next_typed (typed s) with
  | Some (ch, rest) => exists s', next_char fuel s = Ok (s', ch) /\ after_input s s' /\ typed s' = rest
  | None => next_char fuel s = Fault Blocked
  end.
Proof.
  induction fuel as [|fuel IH]; intros s Hr Hf; [lia|]. cbn [next_char].
  destruct (typed s) as [|ch rest] eqn:Ei; cbn [next_typed].
  { by rewrite wait_read_blocked. }
  destruct (wait_read_char s ch rest Hr Ei) as (s1 & -> & Hch & Ha & Hi). cbn [mbind outcome_bind].
  destruct (Console.GetChar (cons s1)) as [c ch'] eqn:Eg. cbn [fst snd] in *. subst ch'.
  destruct (ch =? Console.EOF); [|by eexists].
  assert (Hr' : reading (set_cons s1 c)) by apply Ha.
  specialize (IH (set_cons s1 c) Hr'). rewrite Hi in IH. cbn [length] in Hf. specialize (IH ltac:(lia)).
  destruct (next_typed rest) as [[ch' rest']|]; [|done].
  destruct IH as (s' & -> & Ha' & Hi'). exists s'. split; [done|]. split; [|done]. by apply (after_input_trans _ _ _ Ha).
Qed.

Lemma read_line_S fuel s into loop n ch :
  read_line (S fuel) s into loop n ch =
    if loop <? n then
      '(s, ch) ← next_char (fuel_for s) s;
      if (ch =? 10) || (ch =? 1) then Ok (s, (into, loop, ch))
      else into ← wr into loop ch; read_line fuel s into (loop + 1) n ch
    else Ok (s, (into, loop, ch)).
Proof. done. Qed.

(** The loop of [Read]. *)
Lemma read_line_ok n : forall s into loop ch,
  reading s -> 0 <= loop -> loop + Z.of_nat n <= Z.of_nat (length into) ->
  match typed_line n (typed s) with
  | Some (cs, e, rest) => exists s' ch',
      read_line (S n) s into loop (loop + Z.of_nat n) ch =
        Ok (s', (splice into (Z.to_nat loop) cs, loop + Z.of_nat (length cs), ch')) /\
      after_input s s' /\ typed s' = rest /\
      match e with Some x => ch' = x | None => n <> O -> ch' <> 1 end /\
      (n = O -> ch' = ch)
  | None => read_line (S n) s into loop (loop + Z.of_nat n) ch = Fault Blocked
  end.
Proof.
  induction n as [|n IH]; intros s into loop ch Hr Hl Hn; cbn [typed_line].
  - rewrite read_line_S, (proj2 (Z.ltb_ge _ _)) by lia. exists s, ch. rewrite splice_nil, Z.add_0_r.
    done.
  - rewrite read_line_S, (proj2 (Z.ltb_lt _ _)) by lia.
    pose proof (next_char_ok (fuel_for s) s Hr (typed_fuel s)) as Hc.
    destruct (next_typed (typed s)) as [[c rest]|]; cbn [mbind option_bind].
    2:{ by rewrite Hc. }
    destruct Hc as (s1 & -> & Ha & Hi). cbn [mbind outcome_bind].
    assert (Hr1 : reading s1) by apply Ha.
    destruct ((c =? 10) || (c =? 1)) eqn:Ee.
    + exists s1, c. rewrite splice_nil, Z.add_0_r. split; [done|]. done.
    + rewrite wr_ok by lia. cbn [mbind outcome_bind].
      specialize (IH s1 (<[Z.to_nat loop := c]> into) (loop + 1) c Hr1 ltac:(lia)).
      rewrite length_insert in IH. specialize (IH ltac:(lia)). rewrite Hi in IH.
      replace (loop + Z.of_nat (S n)) with (loop + 1 + Z.of_nat n) by lia.
      destruct (typed_line n rest) as [[[cs e] rest']|]; cbn [mbind option_bind]; [|done].
      destruct IH as (s' & ch' & -> & Ha' & Hi' & He & Hz). exists s', ch'. split; [|split; [|split; [done|split; [|done]]]].
      * do 3 f_equal. f_equal; [|cbn [length]; lia].
        replace (Z.to_nat (loop + 1)) with (S (Z.to_nat loop)) by lia. apply splice_insert. lia.
      * by apply (after_input_trans _ _ _ Ha).
      * destruct e; [done|]. intros _. destruct n as [|n]; [|by apply He].
        rewrite Hz by done. intros ->. by rewrite orb_true_r in Ee.
Qed.

(** The buffer is cleared first. *)
Lemma clear_ok into n : 0 <= n <= Z.of_nat (length into) ->
  for_range 0 n (fun loop into => wr into loop 0) into = Ok (replicate (Z.to_nat n) 0 ++ drop (Z.to_nat n) into).
Proof.
  intros Hn.
  destruct (for_range_inv (fun i l => l = replicate (Z.to_nat i) 0 ++ drop (Z.to_nat i) into)
    0 n (fun loop into => wr into loop 0) into) as (l & -> & ->); [lia|done| |done].
  intros i l Hi ->. rewrite wr_ok by (rewrite length_app, length_replicate, length_drop; lia).
  eexists. split; [done|]. replace (Z.to_nat (i + 1)) with (S (Z.to_nat i)) by lia.
  rewrite insert_app_r_alt by (rewrite length_replicate; lia). rewrite length_replicate, Nat.sub_diag.
  destruct (lookup_lt_is_Some_2 into (Z.to_nat i)) as [x Hx]; [lia|].
  rewrite (drop_S _ _ _ Hx). cbn [list_insert insert]. by rewrite replicate_S_end, <- app_assoc.
Qed.

Lemma typed_line_length n : forall l cs e rest, typed_line n l = Some (cs, e, rest) -> (length cs <= n)%nat.
Proof.
  induction n as [|n IH]; intros l cs e rest; cbn [typed_line]; [intros [= <- _ _]; cbn; lia|].
  destruct (next_typed l) as [[ch l']|]; [|done]. cbn [mbind option_bind].
  destruct (_ || _); [intros [= <- _ _]; cbn; lia|].
  destruct (typed_line n l') as [[[cs' e'] r']|] eqn:E; [|done]. cbn [mbind option_bind].
  intros [= <- _ _]. specialize (IH _ _ _ _ E). cbn. lia.
Qed.

(** What [Read] leaves in the buffer and answers. *)
Definition line_answer (into : list Z) (n : nat) (cs : list Z) (e : option Z) : list Z * Z :=
  (cs ++ replicate (n - length cs) 0 ++ drop n into,
   if bool_decide (e = Some 1) then -1 else Z.of_nat (length cs)).

Lemma Read_ok raw s into n :
  quiet s -> 0 < n <= Z.of_nat (length into) ->
  match typed_line (Z.to_nat n) (typed s) with
  | Some (cs, e, rest) => exists s',
      Read raw s into n = Ok (s', line_answer into (Z.to_nat n) cs e) /\ quiet s' /\
      typed s' = rest /\ Console.output (cons s') = Console.output (cons s)
  | None => Read raw s into n = Fault Blocked
  end.
Proof.
  intros (Hra & Hwa & Hrl & Hwl & Hb) Hn. unfold Read. rewrite clear_ok by lia. cbn [mbind outcome_bind].
  unfold RLine_P. rewrite Hrl. cbn [Z.eqb mbind outcome_bind].
  set (s0 := mk (cons s) (synchReadAvail s) (synchWriteAvail s) (1 - 1) (WLineBlock s)).
  set (buf := replicate (Z.to_nat n) 0 ++ drop (Z.to_nat n) into).
  pose proof (read_line_ok (Z.to_nat n) s0 buf 0 raw ltac:(done) ltac:(lia)) as H.
  assert (Hlen : length buf = length into) by (unfold buf; rewrite length_app, length_replicate, length_drop; lia).
  rewrite Hlen in H. specialize (H ltac:(lia)). rewrite Z2Nat.id in H by lia. rewrite Z.add_0_l in H.
  change (typed s0) with (typed s) in H.
  destruct (typed_line (Z.to_nat n) (typed s)) as [[[cs e] rest]|] eqn:Et; [|by rewrite H].
  destruct H as (s' & ch' & -> & Ha & Hin & He & _). cbn [mbind outcome_bind].
  destruct Ha as (A1 & A3 & A4 & A5 & A6 & A7). cbn in A3, A4, A5, A6, A7.
  exists (RLine_V s'). split; [|split; [|by split]].
  - unfold line_answer.
    assert (splice buf (Z.to_nat 0) cs = cs ++ replicate (Z.to_nat n - length cs) 0 ++ drop (Z.to_nat n) into) as ->.
    { apply typed_line_length in Et. unfold splice, buf. change (Z.to_nat 0) with 0%nat. cbn [take app Nat.add].
      rewrite drop_app_le by (rewrite length_replicate; lia). by rewrite drop_replicate. }
    do 3 f_equal.
    + destruct e as [x|].
      * subst ch'. destruct (Z.eqb_spec x 1) as [->|Hne]; [done|]. by rewrite bool_decide_false by congruence.
      * rewrite bool_decide_false by done. rewrite (proj2 (Z.eqb_neq _ _)); [done|]. apply He. lia.
  - split; [exact A1|]. unfold RLine_V. cbn. rewrite A3, A4, A5, A6. done.
Qed.

(** C39: the synchronous console hides the interrupts of the device.  [Write]
    displays exactly the characters it is given, in order, and never finds the
    device busy; [Read] stores the line that is typed, up to the newline, the
    control-A or the size of the buffer, fills the rest with zeros and answers
    the number of characters, -1 after control-A; it waits when the line is not
    complete.  Both leave the console ready for the next operation, and a
    character that arrives between two operations changes what neither does. *)
Theorem synchconsole_is_a_line_device raw s from n into k :
  quiet s -> 0 <= n <= Z.of_nat (length from) -> 0 < k <= Z.of_nat (length into) ->
  (exists s', Write s from n = Ok (s', n) /\ quiet s' /\
     Console.output (cons s') = Console.output (cons s) ++ take (Z.to_nat n) from /\
     typed s' = typed s) /\
  match typed_line (Z.to_nat k) (typed s) with
  | Some (cs, e, rest) => exists s',
      Read raw s into k = Ok (s', line_answer into (Z.to_nat k) cs e) /\ quiet s' /\
      typed s' = rest /\ Console.output (cons s') = Console.output (cons s)
  | None => Read raw s into k = Fault Blocked
  end /\
  (head (Console.input (cons s)) <> Some Console.EOF ->
     quiet (read_interrupt s) /\ typed (read_interrupt s) = typed s /\
     Console.output (cons (read_interrupt s)) = Console.output (cons s)).
Proof. intros Hq Hn Hk. split; [by apply Write_ok|]. split; [by apply Read_ok|by apply read_interrupt_ok]. Qed.

Lemma synchconsole_is_a_line_device_witness :
  exists s', Write (SynchConsole_new [104; 105; 10; 33]) [52; 50; 0] 2 = Ok (s', 2) /\
    Console.output (cons s') = [52; 50].
Proof.
  destruct (synchconsole_is_a_line_device 0 (SynchConsole_new [104; 105; 10; 33]) [52; 50; 0] 2 [7; 7; 7; 7] 3)
    as ((s' & E & _ & Ho & _) & _); [done|cbn; lia|cbn; lia|]. exists s'. split; [exact E|exact Ho].
Defined.

End SynchConsole.
