(* ===== verification/Demos.v ===== *)
(** * threads/threadtest.cc and the console test of userprog/progtest.cc

    The two demonstrations of the base system: a ping-pong of two threads, on the
    kernel of [Threads.v], and the echo of the keyboard, on the console of
    [ConsoleDev.v]. *)

From S2P Require Import Prelude Threads ConsoleDev.

Local Open Scope Z_scope.

(** ** threads/threadtest.cc *)

Module ThreadTest.

(** The kernel, and for every thread in [SimpleThread] its argument [which] and
    its variable [num]. *)
Record t := mk {
  kernel : Kernel.t;
  simple : gmap Z (Z * Z);
}.

(** The running thread from one call of the kernel to the next: a line of output
    and [Yield]; or, at the end of the loop, [Finish], which [ThreadRoot] calls for
    the forked thread and [main] for its own. *)
Definition SimpleThread_step (s : t) : outcome (t * option (Z * Z)) :=
  let me := Kernel.currentThread (kernel s) in
  match simple s !! me with
  | None => Fault BadAccess
  | Some (which, num) =>
      if num <? 5 then
        k ← Kernel.Yield (kernel s);
        Ok (mk k (<[me := (which, num + 1)]> (simple s)), Some (which, num))
      else
        k ← Kernel.Finish (kernel s);
        Ok (mk k (delete me (simple s)), None)
  end.

(** The threads run until none is left. *)
Fixpoint run (fuel : nat) (s : t) : outcome (t * list (Z * Z)) :=
  match fuel with
  | O => Fault OutOfFuel
  | S fuel' =>
      if Kernel.idle (kernel s) then Ok (s, [])
      else
        '(s, line) ← SimpleThread_step s;
        '(s, out) ← run fuel' s;
        Ok (s, match line with Some l => l :: out | None => out end)
  end.

(** [new Thread], [Fork(SimpleThread, 1)] and [SimpleThread(0)]. *)
Definition ThreadTest1 (k : Kernel.t) (forked : Z) : outcome t :=
  k ← Kernel.Fork (Kernel.Thread_new k forked) forked;
  Ok (mk k {[ Kernel.currentThread k := (0, 0); forked := (1, 0) ]}).

(** [ThreadTest]: only the test 1 exists. *)
Definition ThreadTest (testnum : Z) (k : Kernel.t) (forked : Z) : outcome (option t) :=
  if testnum =? 1 then s ← ThreadTest1 k forked; Ok (Some s) else Ok None.

(** The two threads take turns: every pass of the loop of the main thread is
    followed by the same pass of the forked thread, and then both have finished. *)
Theorem threads_take_turns :
  exists s0 s, ThreadTest 1 (Kernel.boot 1) 2 = Ok (Some s0) /\
    run 13 s0 = Ok (s, [(0, 0); (1, 0); (0, 1); (1, 1); (0, 2); (1, 2); (0, 3); (1, 3); (0, 4); (1, 4)]) /\
    simple s = ∅ /\ Kernel.readyList (kernel s) = [].
Proof. eexists _, _. split; [vm_compute; reflexivity|]. split; [vm_compute; reflexivity|]. by split. Qed.

End ThreadTest.

(** ** userprog/progtest.cc: [ConsoleTest] *)

Module ConsoleTest.
Import SynchConsole.

Definition char_q : Z := 113.

(** The console with the semaphores [readAvail] and [writeDone], which are used as
    [SynchConsole] uses its own; the test takes no locks. *)
Definition ConsoleTest_new (keys : list Z) : SynchConsole.t := SynchConsole.mk (Console.Console_new keys) 0 0 1 1.

Fixpoint echo (fuel : nat) (s : SynchConsole.t) : outcome SynchConsole.t :=
  match fuel with
  | O => Fault OutOfFuel
  | S fuel' =>
      s ← wait_read s;
      let '(c, ch) := Console.GetChar (cons s) in
      c ← Console.PutChar c ch;
      s ← wait_write (set_cons s c);
      if ch =? char_q then Ok s else echo fuel' s
  end.

(** One pass of the loop. *)
Lemma echo_step fuel s ch rest : quiet s -> typed s = ch :: rest ->
  exists s', quiet s' /\ typed s' = rest /\ Console.output (cons s') = Console.output (cons s) ++ [ch] /\
    echo (S fuel) s = if ch =? char_q then Ok s' else echo fuel s'.
Proof.
  intros (Hr & Hw & Hrl & Hwl & Hb) Ht. cbn [echo].
  destruct (wait_read_char s ch rest Hr Ht) as (s1 & -> & Hch & (Hr1 & Hw1 & Hrl1 & Hwl1 & Hb1 & Ho1) & Ht1). cbn [mbind outcome_bind].
  destruct (Console.GetChar (cons s1)) as [c ch'] eqn:Eg. cbn [fst snd set_cons synchReadAvail synchWriteAvail RLineBlock WLineBlock cons] in *.
  subst ch'. unfold Console.PutChar. rewrite Hb1, Hb. cbn [negb ASSERT mbind outcome_bind].
  unfold wait_write, write_interrupt, set_cons. cbn [synchWriteAvail cons Console.putBusy]. rewrite Hw1, Hw. cbn [Z.eqb Z.add cons synchWriteAvail mbind outcome_bind].
  eexists. split; [|split; [|split]]; [| | |reflexivity].
  - unfold quiet, reading in *. cbn. by rewrite Hrl1, Hwl1.
  - exact Ht1.
  - cbn. by rewrite Ho1.
Qed.

(** The test echoes what is typed up to and including the first [q], and returns;
    without a [q] it waits for ever. *)
Theorem console_echo cs rest : forall fuel s, quiet s -> Forall (fun c => c <> char_q) cs ->
  typed s = cs ++ char_q :: rest -> (length cs < fuel)%nat ->
  exists s', echo fuel s = Ok s' /\ quiet s' /\ typed s' = rest /\
    Console.output (cons s') = Console.output (cons s) ++ cs ++ [char_q].
Proof.
  induction cs as [|c cs IH]; intros [|fuel] s Hq Hcs Ht Hf; cbn [length] in Hf; try lia.
  - destruct (echo_step fuel s char_q rest Hq Ht) as (s' & Hq' & Ht' & Ho' & ->). by exists s'.
  - apply Forall_cons_1 in Hcs as [Hc Hcs].
    destruct (echo_step fuel s c (cs ++ char_q :: rest) Hq Ht) as (s1 & Hq1 & Ht1 & Ho1 & ->).
    rewrite (proj2 (Z.eqb_neq _ _)) by done.
    destruct (IH fuel s1 Hq1 Hcs Ht1 ltac:(lia)) as (s' & -> & Hq' & Ht' & Ho').
    exists s'. split; [done|]. split; [done|]. split; [done|]. by rewrite Ho', Ho1, <- app_assoc.
Qed.

Theorem console_echo_waits : forall cs fuel s, quiet s -> Forall (fun c => c <> char_q) cs -> typed s = cs ->
  (length cs < fuel)%nat -> echo fuel s = Fault Blocked.
Proof.
  induction cs as [|c cs IH]; intros [|fuel] s Hq Hcs Ht Hf; cbn [length] in Hf; try lia.
  - cbn [echo]. by rewrite (wait_read_blocked s (proj1 Hq) Ht).
  - apply Forall_cons_1 in Hcs as [Hc Hcs].
    destruct (echo_step fuel s c cs Hq Ht) as (s1 & Hq1 & Ht1 & Ho1 & ->).
    rewrite (proj2 (Z.eqb_neq _ _)) by done. apply IH; [done|done|done|lia].
Qed.

Example console_echo_example : exists s',
  echo 4 (ConsoleTest_new [104; 105; 113; 33]) = Ok s' /\ Console.output (cons s') = [104; 105; 113].
Proof. eexists. split; vm_compute; reflexivity. Qed.

End ConsoleTest.
