(* ===== verification/Syscalls.v ===== *)
(** * userprog/exception.cc: traps into the kernel

    [Syscall.t] holds the machine and the console that the handlers work on.
    This file models the entry point [ExceptionHandler], the copies between user
    and kernel memory, and the system calls on numbers, characters and strings;
    the calls on files, processes and semaphores are an argument of the entry
    point.  A buffer from [new char[...]] starts with arbitrary bytes, the
    argument [raw] of the handler. *)

From S2P Require Import Prelude MachineSim ConsoleDev.
Import Machine.

Local Open Scope Z_scope.

Module Syscall.

Record t := mk {
  machine : Machine.t;
  gSynchConsole : SynchConsole.t;
}.

Definition set_machine (s : t) (m : Machine.t) : t := mk m (gSynchConsole s).
Definition set_console (s : t) (c : SynchConsole.t) : t := mk (machine s) c.

(** userprog/syscall.h *)
Definition SC_Halt : Z := 0.
Definition SC_ReadInt : Z := 11.
Definition SC_PrintInt : Z := 12.
Definition SC_ReadChar : Z := 13.
Definition SC_PrintChar : Z := 14.
Definition SC_ReadString : Z := 15.
Definition SC_PrintString : Z := 16.
Definition SC_Sub : Z := 43.

(** The characters the code compares with. *)
Definition char_minus : Z := 45.
Definition char_dot : Z := 46.
Definition char_0 : Z := 48.
Definition char_9 : Z := 57.

Definition IncreasePC (m : Machine.t) : outcome Machine.t :=
  counter ← ReadRegister m PCReg;
  m ← WriteRegister m PrevPCReg counter;
  counter ← ReadRegister m NextPCReg;
  m ← WriteRegister m PCReg counter;
  WriteRegister m NextPCReg (s32 (counter + 4)).

(** ** Copies between user and kernel memory *)

(** An access that fails traps to [ExceptionHandler], which halts. *)
Definition user_load (m : Machine.t) (addr : Z) : outcome (Machine.t * Z) :=
  '(m, r) ← ReadMem m addr 1;
  match r with inl _ => Fault Halted | inr v => Ok (m, v) end.
Definition user_store (m : Machine.t) (addr v : Z) : outcome Machine.t :=
  '(m, r) ← WriteMem m addr 1 v;
  match r with inl _ => Fault Halted | inr _ => Ok m end.

(** The loop of [User2System], with [n] iterations left. *)
Fixpoint copy_in (n : nat) (m : Machine.t) (virtAddr i : Z) (buf : list Z) : outcome (Machine.t * list Z) :=
  match n with
  | O => Ok (m, buf)
  | S n' =>
      '(m, oneChar) ← user_load m (s32 (virtAddr + i));
      buf ← wr buf i (s8 oneChar);
      if oneChar =? 0 then Ok (m, buf) else copy_in n' m virtAddr (i + 1) buf
  end.

(** [new char[limit+1]] throws for a negative size. *)
Definition User2System (m : Machine.t) (virtAddr limit : Z) : outcome (Machine.t * list Z) :=
  if limit + 1 <? 0 then Fault BadAccess
  else copy_in (Z.to_nat limit) m virtAddr 0 (replicate (Z.to_nat (limit + 1)) 0).

(** The loop of [System2User]: a do-while, with [n] iterations left. *)
Fixpoint copy_out (n : nat) (m : Machine.t) (virtAddr i len : Z) (buffer : list Z) : outcome (Machine.t * Z) :=
  match n with
  | O => Fault OutOfFuel
  | S n' =>
      oneChar ← rd buffer i;
      m ← user_store m (s32 (virtAddr + i)) oneChar;
      let i := i + 1 in
      if (i <? len) && negb (oneChar =? 0) then copy_out n' m virtAddr i len buffer else Ok (m, i)
  end.

Definition System2User (m : Machine.t) (virtAddr len : Z) (buffer : list Z) : outcome (Machine.t * Z) :=
  if len <? 0 then Ok (m, -1)
  else if len =? 0 then Ok (m, len)
  else copy_out (Z.to_nat len) m virtAddr 0 len buffer.

(** ** Numbers *)

Definition SubFunction (s : t) : outcome t :=
  op1 ← ReadRegister (machine s) 4;
  op2 ← ReadRegister (machine s) 5;
  m ← WriteRegister (machine s) 2 (s32 (op1 - op2));
  Ok (set_machine s m).

Definition MAX_BUFFER : Z := 255.

(** The check of [ReadIntFunction]: [None] for an invalid input, or [endPos]. *)
Fixpoint scan_int (n : nat) (buffer : list Z) (i size endPos : Z) : outcome (option Z) :=
  match n with
  | O => Ok (Some endPos)
  | S n' =>
      c ← rd buffer i;
      if (c <? char_0) || (c >? char_9) then Ok None
      else if c =? char_dot then
        if i + 1 <? size then
          (if negb (c =? char_0) then Ok None else Ok (Some (i - 1)))
        else Ok (Some (i - 1))
      else scan_int n' buffer (i + 1) size i
  end.

(** The conversion of [buffer[startPos .. endPos]]. *)
Definition convert_int (buffer : list Z) (startPos endPos : Z) : outcome Z :=
  for_range startPos (endPos + 1) (fun i res => c ← rd buffer i; Ok (s32 (res * 10 + (c - 48)))) 0.

Definition ReadIntFunction (raw : list Z) (s : t) : outcome t :=
  '(c, (buffer, size)) ← SynchConsole.Read 0 (gSynchConsole s) raw MAX_BUFFER;
  let s := set_console s c in
  b0 ← rd buffer 0;
  let startPos := if b0 =? char_minus then 1 else 0 in
  r ← scan_int (Z.to_nat (size - startPos)) buffer startPos size startPos;
  match r with
  | None => m ← WriteRegister (machine s) 2 0; Ok (set_machine s m)
  | Some endPos =>
      res ← convert_int buffer startPos endPos;
      let res := if b0 =? char_minus then s32 (res * -1) else res in
      m ← WriteRegister (machine s) 2 res;
      Ok (set_machine s m)
  end.

(** [while(count) { length++; count = count/10; }] *)
Fixpoint count_digits (fuel : nat) (count length : Z) : outcome Z :=
  match fuel with
  | O => Fault OutOfFuel
  | S fuel' => if count =? 0 then Ok length else count_digits fuel' (Z.quot count 10) (length + 1)
  end.

(** The loop that writes [n] digits down from position [i]. *)
Fixpoint write_digits (n : nat) (buffer : list Z) (i tempNum : Z) : outcome (list Z) :=
  match n with
  | O => Ok buffer
  | S n' =>
      buffer ← wr buffer i (s8 (Z.rem tempNum 10 + 48));
      write_digits n' buffer (i - 1) (Z.quot tempNum 10)
  end.

(** An [int] has at most 10 digits. *)
Definition digit_fuel : nat := 11.

Definition PrintIntFunction (raw : list Z) (s : t) : outcome t :=
  num ← ReadRegister (machine s) 4;
  if num =? 0 then
    '(c, _) ← SynchConsole.Write (gSynchConsole s) [char_0] 1;
    Ok (set_console s c)
  else
    let tempNum := num in
    let startPos := if num <? 0 then 1 else 0 in
    let num := if num <? 0 then s32 (num * -1) else num in
    length ← count_digits digit_fuel tempNum 0;
    buffer ← write_digits (Z.to_nat length) raw (startPos + length - 1) tempNum;
    if num <? 0 then
      buffer ← wr buffer 0 char_minus;
      buffer ← wr buffer (length + 1) 0;
      '(c, _) ← SynchConsole.Write (gSynchConsole s) buffer (length + 1);
      m ← IncreasePC (machine s);
      Ok (mk m c)
    else
      buffer ← wr buffer length 0;
      '(c, _) ← SynchConsole.Write (gSynchConsole s) buffer length;
      Ok (set_console s c).

(** ** Characters and strings *)

Definition ReadCharFunction (raw : list Z) (s : t) : outcome t :=
  '(c, (buffer, length)) ← SynchConsole.Read 0 (gSynchConsole s) raw MAX_BUFFER;
  let s := set_console s c in
  m ← (if length =? 0 then WriteRegister (machine s) 2 0 else Ok (machine s));
  m ← (if length >? 1 then WriteRegister m 2 0 else Ok m);
  m ← (if length =? 1 then b0 ← rd buffer 0; WriteRegister m 2 b0 else Ok m);
  Ok (set_machine s m).

Definition PrintCharFunction (s : t) : outcome t :=
  r ← ReadRegister (machine s) 4;
  '(c, _) ← SynchConsole.Write (gSynchConsole s) [s8 r] 1;
  Ok (set_console s c).

(** [junk] is what a local variable of [SynchConsole::Read] held. *)
Definition ReadStringFunction (junk : Z) (s : t) : outcome t :=
  VirtualAddr ← ReadRegister (machine s) 4;
  length ← ReadRegister (machine s) 5;
  '(m, buffer) ← User2System (machine s) VirtualAddr length;
  '(c, (buffer, _)) ← SynchConsole.Read junk (gSynchConsole s) buffer length;
  '(m, _) ← System2User m VirtualAddr length buffer;
  Ok (mk m c).

(** [while(buffer[length]!='\0') length++;] *)
Fixpoint strlen (fuel : nat) (buffer : list Z) (length : Z) : outcome Z :=
  match fuel with
  | O => Fault OutOfFuel
  | S fuel' =>
      c ← rd buffer length;
      if negb (c =? 0) then strlen fuel' buffer (length + 1) else Ok length
  end.

Definition PrintStringFunction (s : t) : outcome t :=
  VirtualAddr ← ReadRegister (machine s) 4;
  '(m, buffer) ← User2System (machine s) VirtualAddr MAX_BUFFER;
  length ← strlen (S (List.length buffer)) buffer 0;
  '(c, _) ← SynchConsole.Write (gSynchConsole s) buffer (length + 1);
  Ok (mk m c).

(** ** The entry point *)

(** The calls on files, processes and semaphores. *)
Definition ExceptionHandler (other : Z -> t -> outcome t) (raw : list Z) (junk : Z)
    (which : ExceptionType) (s : t) : outcome t :=
  type ← ReadRegister (machine s) 2;
  match which with
  | NoException => Ok s
  | PageFaultException | ReadOnlyException | BusErrorException | AddressErrorException
  | OverflowException | IllegalInstrException | NumExceptionTypes => Fault Halted
  | SyscallException =>
      s ← (if type =? SC_Halt then Fault Halted
           else if type =? SC_Sub then SubFunction s
           else if type =? SC_ReadInt then ReadIntFunction raw s
           else if type =? SC_PrintInt then PrintIntFunction raw s
           else if type =? SC_ReadChar then ReadCharFunction raw s
           else if type =? SC_PrintChar then PrintCharFunction s
           else if type =? SC_ReadString then ReadStringFunction junk s
           else if type =? SC_PrintString then PrintStringFunction s
           else other type s);
      m ← IncreasePC (machine s);
      Ok (set_machine s m)
  end.

(** ** Decimal numbers *)

Definition is_digit (c : Z) : Prop := char_0 <= c <= char_9.

(** The value of a string of digits. *)
Definition dec_value (cs : list Z) : Z := foldl (fun v c => v * 10 + (c - 48)) 0 cs.

(** [cs] is the decimal numeral of [n]: digits, of value [n], without a leading
    zero. *)
Definition is_decimal (n : Z) (cs : list Z) : Prop :=
  Forall is_digit cs /\ dec_value cs = n /\ cs <> [] /\ (cs = [char_0] \/ head cs <> Some char_0).

(** The [k] low digits of [n]. *)
Fixpoint digits (k : nat) (n : Z) : list Z :=
  match k with
  | O => []
  | S k' => digits k' (n / 10) ++ [n mod 10 + 48]
  end.

(** The decimal numeral of a number. *)
Definition decimal (n : Z) : list Z :=
  if n =? 0 then [char_0]
  else match count_digits digit_fuel n 0 with Ok k => digits (Z.to_nat k) n | Fault _ => [] end.

Lemma length_digits k : forall n, length (digits k n) = k.
Proof. induction k as [|k IH]; intros n; cbn [digits]; [done|]. rewrite length_app, IH. cbn. lia. Qed.

Lemma digits_are_digits k : forall n, Forall is_digit (digits k n).
Proof.
  induction k as [|k IH]; intros n; cbn [digits]; [constructor|]. apply Forall_app. split; [done|].
  constructor; [|constructor]. unfold is_digit, char_0, char_9. pose proof (Z.mod_pos_bound n 10 ltac:(lia)). lia.
Qed.

Lemma dec_value_snoc cs c : dec_value (cs ++ [c]) = dec_value cs * 10 + (c - 48).
Proof. unfold dec_value. by rewrite foldl_app. Qed.

Lemma dec_value_digits k : forall n, 0 <= n < 10 ^ Z.of_nat k -> dec_value (digits k n) = n.
Proof.
  induction k as [|k IH]; intros n Hn; cbn [digits]; [change (10 ^ Z.of_nat 0) with 1 in Hn; cbn; lia|].
  rewrite dec_value_snoc, IH.
  - pose proof (Z.div_mod n 10 ltac:(lia)). lia.
  - rewrite Nat2Z.inj_succ, Z.pow_succ_r in Hn by lia.
    split; [apply Z.div_pos; lia|]. apply Z.div_lt_upper_bound; lia.
Qed.

Lemma digits_head k : forall n, 0 <= n -> digits (S k) n = (n / 10 ^ Z.of_nat k) mod 10 + 48 :: digits k n.
Proof.
  induction k as [|k IH]; intros n Hn.
  - cbn. by rewrite Z.div_1_r.
  - change (digits (S (S k)) n) with (digits (S k) (n / 10) ++ [n mod 10 + 48]).
    rewrite IH by (apply Z.div_pos; lia). cbn [app digits]. f_equal.
    rewrite Nat2Z.inj_succ, Z.pow_succ_r, Z.div_div by lia. done.
Qed.

Lemma digits_decimal k n : 10 ^ Z.of_nat k <= n < 10 ^ Z.of_nat (S k) -> is_decimal n (digits (S k) n).
Proof.
  intros Hn. assert (0 < 10 ^ Z.of_nat k) by (apply Z.pow_pos_nonneg; lia).
  split; [apply digits_are_digits|]. split; [apply dec_value_digits; lia|].
  rewrite digits_head by lia. split; [done|]. right. cbn. intros [= E].
  rewrite Nat2Z.inj_succ, Z.pow_succ_r in Hn by lia.
  assert (1 <= n / 10 ^ Z.of_nat k < 10) as Hq.
  { split; [apply Z.div_le_lower_bound; lia|apply Z.div_lt_upper_bound; lia]. }
  rewrite Z.mod_small in E by lia. unfold char_0 in E. lia.
Qed.

Lemma count_digits_ok fuel : forall n acc, 0 < n < 10 ^ Z.of_nat fuel ->
  exists k, count_digits (S fuel) n acc = Ok (acc + Z.of_nat (S k)) /\ 10 ^ Z.of_nat k <= n < 10 ^ Z.of_nat (S k).
Proof.
  induction fuel as [|fuel IH]; intros n acc Hn; [change (10 ^ Z.of_nat 0) with 1 in Hn; lia|].
  change (count_digits (S (S fuel)) n acc) with
    (if n =? 0 then Ok acc else count_digits (S fuel) (Z.quot n 10) (acc + 1)).
  rewrite (proj2 (Z.eqb_neq n 0)) by lia. rewrite Z.quot_div_nonneg by lia.
  destruct (Z.ltb_spec n 10) as [Hlt|Hge].
  - rewrite Z.div_small by lia. exists 0%nat. change (Z.of_nat 1) with 1. split; [done|]. cbn. lia.
  - destruct (IH (n / 10) (acc + 1)) as (k & -> & Hk).
    { rewrite Nat2Z.inj_succ, Z.pow_succ_r in Hn by lia. split; [apply Z.div_str_pos; lia|].
      apply Z.div_lt_upper_bound; lia. }
    exists (S k). split; [f_equal; lia|]. rewrite !Nat2Z.inj_succ, !Z.pow_succ_r in * by lia.
    pose proof (Z.div_mod n 10 ltac:(lia)). pose proof (Z.mod_pos_bound n 10 ltac:(lia)). lia.
Qed.

Lemma write_digits_ok k : forall buf i n,
  0 <= n -> 0 <= i -> i + Z.of_nat k <= Z.of_nat (length buf) ->
  write_digits k buf (i + Z.of_nat k - 1) n = Ok (splice buf (Z.to_nat i) (digits k n)).
Proof.
  induction k as [|k IH]; intros buf i n Hn Hi Hl; cbn [write_digits digits]; [by rewrite splice_nil|].
  rewrite Z.rem_mod_nonneg, Z.quot_div_nonneg by lia. pose proof (Z.mod_pos_bound n 10 ltac:(lia)).
  assert (s8 (n mod 10 + 48) = n mod 10 + 48) as -> by (unfold s8; rewrite Z.mod_small; lia).
  rewrite wr_ok by lia. cbn [mbind outcome_bind].
  replace (i + Z.of_nat (S k) - 1 - 1) with (i + Z.of_nat k - 1) by lia.
  rewrite IH by (rewrite ?length_insert; try apply Z.div_pos; lia).
  replace (Z.to_nat (i + Z.of_nat (S k) - 1)) with (Z.to_nat i + length (digits k (n / 10)))%nat
    by (rewrite length_digits; lia).
  rewrite splice_insert_end; [done|]. rewrite length_digits. lia.
Qed.

(** ** Registers *)

Definition has_regs (m : Machine.t) : Prop := Z.of_nat (length (registers m)) = NumTotalRegs.

Lemma ReadRegister_ok m i v : (0 <= i < NumTotalRegs) -> registers m !! Z.to_nat i = Some v -> ReadRegister m i = Ok v.
Proof.
  intros Hi Hv. unfold ReadRegister, rreg, reg_ok. rewrite Z.geb_leb, ASSERT_true.
  - cbn [mbind outcome_bind]. apply rd_lookup; [lia|done].
  - by rewrite andb_true_iff, Z.leb_le, Z.ltb_lt.
Qed.

Lemma WriteRegister_ok m i v : has_regs m -> (0 <= i < NumTotalRegs) ->
  WriteRegister m i v = Ok (set_registers m (<[Z.to_nat i := v]> (registers m))).
Proof.
  unfold has_regs. intros Hm Hi. unfold WriteRegister, wreg, reg_ok. rewrite Z.geb_leb, ASSERT_true.
  - cbn [mbind outcome_bind]. rewrite wr_ok by lia. done.
  - by rewrite andb_true_iff, Z.leb_le, Z.ltb_lt.
Qed.

(** ** Printing numbers *)

(** The numeral a non-negative number is printed as. *)
Lemma PrintInt_ok raw s n :
  registers (machine s) !! 4%nat = Some n -> 0 <= n < 2 ^ 31 ->
  SynchConsole.quiet (gSynchConsole s) -> Z.of_nat (length raw) = MAX_BUFFER + 1 ->
  exists c ds, PrintIntFunction raw s = Ok (set_console s c) /\ SynchConsole.quiet c /\ is_decimal n ds /\
    (length ds <= 10)%nat /\ ds = decimal n /\
    Console.output (SynchConsole.cons c) = Console.output (SynchConsole.cons (gSynchConsole s)) ++ ds /\
    SynchConsole.typed c = SynchConsole.typed (gSynchConsole s).
Proof.
  intros Hr Hn Hq Hraw. unfold PrintIntFunction. rewrite (ReadRegister_ok _ 4 n) by done. cbn [mbind outcome_bind].
  destruct (Z.eqb_spec n 0) as [->|Hne].
  - destruct (SynchConsole.Write_ok (gSynchConsole s) [char_0] 1 Hq) as (c & -> & Hc & Ho & Hi); [cbn; lia|].
    cbn [mbind outcome_bind]. exists c, [char_0]. split; [done|]. split; [done|]. split; [|split; [cbn; lia|by split]].
    split; [repeat constructor; unfold is_digit, char_0, char_9; lia|]. split; [done|]. split; [done|by left].
  - rewrite (proj2 (Z.ltb_ge n 0)) by lia. cbn [mbind outcome_bind].
    destruct (count_digits_ok 10 n 0) as (k & Hk & Hkn); [change (10 ^ Z.of_nat 10) with 10000000000; lia|].
    unfold digit_fuel. rewrite Hk. cbn [mbind outcome_bind]. rewrite Z.add_0_l.
    assert (Hk10 : (S k <= 10)%nat).
    { destruct (decide (S k <= 10)%nat) as [|Hgt]; [done|]. exfalso.
      assert (10 ^ 10 <= 10 ^ Z.of_nat k) by (apply Z.pow_le_mono_r; lia). lia. }
    rewrite Nat2Z.id. unfold MAX_BUFFER in Hraw.
    rewrite (write_digits_ok (S k) raw 0 n) by lia. cbn [mbind outcome_bind].
    rewrite (proj2 (Z.ltb_ge n 0)) by lia.
    assert (Hl : length (splice raw (Z.to_nat 0) (digits (S k) n)) = length raw).
    { apply length_splice. rewrite length_digits. lia. }
    rewrite wr_ok by lia. cbn [mbind outcome_bind].
    set (buf := <[_ := 0]> _).
    destruct (SynchConsole.Write_ok (gSynchConsole s) buf (Z.of_nat (S k)) Hq) as (c & -> & Hc & Ho & Hi).
    { unfold buf. rewrite length_insert. lia. }
    cbn [mbind outcome_bind]. exists c, (digits (S k) n). split; [done|]. split; [done|].
    split; [by apply digits_decimal|]. split; [by rewrite length_digits|].
    split; [unfold decimal, digit_fuel; by rewrite (proj2 (Z.eqb_neq n 0)), Hk, Z.add_0_l, Nat2Z.id by done|]. split; [|done].
    rewrite Ho. f_equal. unfold buf. rewrite Nat2Z.id, take_insert_ge by lia. unfold splice.
    change (Z.to_nat 0) with 0%nat. rewrite take_0. cbn [app]. by rewrite take_app_length' by (by rewrite length_digits).
Qed.

(** ** Reading numbers *)

Lemma next_typed_plain c rest : c <> Console.EOF -> SynchConsole.next_typed (c :: rest) = Some (c, rest).
Proof. intros Hc. cbn [SynchConsole.next_typed]. by rewrite (proj2 (Z.eqb_neq _ _)). Qed.

(** A line of printable characters that ends in a newline. *)
Lemma typed_line_plain cs : forall n rest,
  Forall (fun c => 1 < c /\ c <> 10) cs -> (length cs < n)%nat ->
  SynchConsole.typed_line n (cs ++ 10 :: rest) = Some (cs, Some 10, rest).
Proof.
  induction cs as [|c cs IH]; intros n rest Hcs Hn; cbn [length] in Hn; (destruct n as [|n]; [lia|]).
  - cbn [app SynchConsole.typed_line]. by rewrite next_typed_plain.
  - apply Forall_cons_1 in Hcs as [[Hc1 Hc2] Hcs]. cbn [app SynchConsole.typed_line].
    rewrite next_typed_plain by (unfold Console.EOF; lia). cbn [mbind option_bind].
    rewrite (proj2 (Z.eqb_neq c 10)), (proj2 (Z.eqb_neq c 1)) by lia. cbn [orb].
    rewrite IH by (done || lia). done.
Qed.

Lemma scan_int_ok n : forall buf i size e,
  0 <= i -> size = i + Z.of_nat n ->
  (forall j, i <= j < size -> exists c, buf !! Z.to_nat j = Some c /\ is_digit c) ->
  scan_int n buf i size e = Ok (Some (if decide (n = 0%nat) then e else size - 1)).
Proof.
  induction n as [|n IH]; intros buf i size e Hi Hsz Hd; cbn [scan_int]; [done|].
  destruct (Hd i) as (c & Hc & Hdc); [lia|]. rewrite (rd_lookup _ _ c) by done. cbn [mbind outcome_bind].
  unfold is_digit, char_0, char_9, char_dot in *.
  rewrite (proj2 (Z.ltb_ge c 48)), Z.gtb_ltb, (proj2 (Z.ltb_ge 57 c)), (proj2 (Z.eqb_neq c 46)) by lia. cbn [orb].
  rewrite IH; [|lia|lia|]. { do 2 f_equal. destruct (decide (n = 0%nat)); [subst n; rewrite decide_False by lia; lia|]. by rewrite decide_False by lia. }
  intros j Hj. apply Hd. lia.
Qed.

Lemma s32_digit v c : s32 (s32 v * 10 + c) = s32 (v * 10 + c).
Proof.
  apply s32_eq_mod. unfold s32.
  rewrite (Z.add_mod (_ * 10)), (Z.mul_mod _ 10) by done. rewrite Zminus_mod, Z.mod_mod, <- Zminus_mod by done.
  rewrite <- Z.mul_mod, <- Z.add_mod by done. f_equal. lia.
Qed.

(** The conversion of digits that stand at position [st] of the buffer. *)
Lemma convert_int_ok buf st cs :
  0 <= st -> cs <> [] -> (forall j c, cs !! j = Some c -> buf !! (Z.to_nat st + j)%nat = Some c) ->
  convert_int buf st (st + Z.of_nat (length cs) - 1) = Ok (s32 (dec_value cs)).
Proof.
  intros Hst Hne Hb. unfold convert_int.
  destruct (for_range_inv (fun i res => res = s32 (dec_value (take (Z.to_nat (i - st)) cs)))
    st (st + Z.of_nat (length cs) - 1 + 1)
    (fun i res => c ← rd buf i; Ok (s32 (res * 10 + (c - 48)))) 0) as (res & -> & ->).
  - lia.
  - rewrite Z.sub_diag. done.
  - intros i res Hi ->. destruct (lookup_lt_is_Some_2 cs (Z.to_nat (i - st))) as [c Hc]; [lia|].
    rewrite (rd_lookup _ _ c); [|lia|].
    2:{ rewrite <- (Hb _ _ Hc). f_equal. lia. }
    cbn [mbind outcome_bind]. eexists. split; [done|].
    replace (Z.to_nat (i + 1 - st)) with (S (Z.to_nat (i - st))) by lia.
    by rewrite (take_S_r _ _ c), dec_value_snoc, s32_digit.
  - do 2 f_equal. rewrite take_ge; [done|lia].
Qed.

#[local] Instance is_digit_dec c : Decision (is_digit c).
Proof. unfold is_digit. apply _. Defined.

(** The number that [ReadIntFunction] makes of a line. *)
Definition parse_int (cs : list Z) : Z :=
  let neg := bool_decide (head cs = Some char_minus) in
  let ds := if neg then tail cs else cs in
  if decide (Forall is_digit ds) then
    let v := if decide (ds = []) then -48 else dec_value ds in
    s32 (if neg then - v else v)
  else 0.

(** Characters that a line can hold: not control-A, newline or [EOF]. *)
Definition plain (c : Z) : Prop := 1 < c /\ c <> 10.

Lemma scan_int_bad n : forall buf i size e,
  0 <= i -> size = i + Z.of_nat n ->
  (forall j, i <= j < size -> is_Some (buf !! Z.to_nat j)) ->
  (exists j c, i <= j < size /\ buf !! Z.to_nat j = Some c /\ ~ is_digit c) ->
  scan_int n buf i size e = Ok None.
Proof.
  induction n as [|n IH]; intros buf i size e Hi Hsz Hb (j & c & Hj & Hc & Hnd); [lia|]. cbn [scan_int].
  destruct (Hb i) as [x Hx]; [lia|]. rewrite (rd_lookup _ _ x) by done. cbn [mbind outcome_bind].
  destruct (decide (is_digit x)) as [Hd|Hd].
  - unfold is_digit, char_0, char_9, char_dot in Hd |- *.
    rewrite (proj2 (Z.ltb_ge x 48)), Z.gtb_ltb, (proj2 (Z.ltb_ge 57 x)), (proj2 (Z.eqb_neq x 46)) by lia. cbn [orb].
    apply IH; [lia|lia|intros k Hk; apply Hb; lia|]. exists j, c. split; [|done].
    destruct (decide (j = i)) as [->|]; [|lia]. exfalso. apply Hnd. assert (c = x) as -> by congruence. done.
  - unfold is_digit, char_0, char_9 in Hd |- *. destruct (Z.ltb_spec x 48); [done|].
    rewrite Z.gtb_ltb, (proj2 (Z.ltb_lt 57 x)) by lia. done.
Qed.

(** What the code computes from a buffer that starts with the line [cs] and a
    zero. *)
Lemma parse_buffer buf cs :
  (forall j c, cs !! j = Some c -> buf !! j = Some c) -> buf !! length cs = Some 0 ->
  let size := Z.of_nat (length cs) in
  let b0 := default 0 (head cs) in
  let st := if b0 =? char_minus then 1 else 0 in
  exists r, scan_int (Z.to_nat (size - st)) buf st size st = Ok r /\
    match r with
    | None => parse_int cs = 0
    | Some e => exists res, convert_int buf st e = Ok res /\
        parse_int cs = if b0 =? char_minus then s32 (res * -1) else res
    end.
Proof.
  intros Hb Hz size b0 st.
  assert (Hneg : bool_decide (head cs = Some char_minus) = (b0 =? char_minus)).
  { unfold b0. destruct cs as [|c cs]; [done|]. change (head (c :: cs)) with (Some c). cbn [default].
    unfold default, id. destruct (Z.eqb_spec c char_minus) as [->|Hne]; [by rewrite bool_decide_true|].
    rewrite bool_decide_false; [done|congruence]. }
  set (ds := if b0 =? char_minus then tail cs else cs).
  assert (Hds : ds = drop (Z.to_nat st) cs) by (unfold ds, st; destruct (b0 =? char_minus), cs; done).
  assert (Hst : 0 <= st <= 1 /\ st <= size).
  { unfold st, size, b0. destruct cs; [cbn; lia|]. cbn [length]. destruct (_ =? _); lia. }
  assert (Hat : forall j c, ds !! j = Some c -> buf !! (Z.to_nat st + j)%nat = Some c).
  { intros j c Hj. rewrite Hds, lookup_drop in Hj. by apply Hb. }
  assert (Hlen : Z.of_nat (length ds) = size - st) by (rewrite Hds, length_drop; unfold size; lia).
  unfold parse_int. rewrite Hneg. fold ds.
  destruct (decide (Forall is_digit ds)) as [Hd|Hd].
  - assert (Hall : forall j, st <= j < size -> exists c, buf !! Z.to_nat j = Some c /\ is_digit c).
    { intros j Hj. destruct (lookup_lt_is_Some_2 ds (Z.to_nat (j - st))) as [c Hc]; [lia|]. exists c.
      split; [rewrite <- (Hat _ _ Hc); f_equal; lia|]. rewrite Forall_lookup in Hd. by apply (Hd _ _ Hc). }
    assert (Hn : size = st + Z.of_nat (Z.to_nat (size - st))) by lia.
    rewrite (scan_int_ok (Z.to_nat (size - st)) buf st size st (proj1 (proj1 Hst)) Hn Hall). eexists. split; [done|].
    destruct (decide (ds = [])) as [Ed|Ed].
    + rewrite Ed in Hlen. cbn in Hlen. rewrite decide_True by lia. exists (-48). split.
      * unfold convert_int, for_range. replace (Z.to_nat (st + 1 - st)) with 1%nat by lia. cbn [for_loop].
        rewrite (rd_lookup _ _ 0); [done|lia|]. rewrite <- Hz. f_equal. unfold size in Hlen. lia.
      * by destruct (b0 =? char_minus).
    + assert (0 < length ds)%nat by (destruct ds; [done|cbn; lia]).
      rewrite decide_False by lia. exists (s32 (dec_value ds)). split.
      * replace (size - 1) with (st + Z.of_nat (length ds) - 1) by lia. apply convert_int_ok; [lia|done|done].
      * destruct (b0 =? char_minus); [|done]. apply s32_eq_mod. unfold s32.
        rewrite (Z.mul_mod (_ - _) (-1)), Zminus_mod, Z.mod_mod, <- Zminus_mod, <- Z.mul_mod by done. f_equal. lia.
  - assert (Hbad : exists j c, ds !! j = Some c /\ ~ is_digit c).
    { apply not_Forall_Exists in Hd; [|apply _]. apply list.Exists_exists in Hd as (c & (j & Hj)%list_elem_of_lookup & Hn). by exists j, c. }
    destruct Hbad as (j & c & Hj & Hn). pose proof (lookup_lt_Some _ _ _ Hj).
    exists None. split; [|done]. apply scan_int_bad; [lia|lia| |].
    + intros i Hi. destruct (lookup_lt_is_Some_2 ds (Z.to_nat (i - st))) as [x Hx]; [lia|].
      exists x. rewrite <- (Hat _ _ Hx). f_equal. lia.
    + exists (st + Z.of_nat j), c. split; [lia|]. split; [|done]. rewrite <- (Hat _ _ Hj). f_equal. lia.
Qed.

Lemma ReadInt_ok raw s cs rest :
  has_regs (machine s) -> SynchConsole.quiet (gSynchConsole s) -> Z.of_nat (length raw) = MAX_BUFFER + 1 ->
  Forall plain cs -> Z.of_nat (length cs) < MAX_BUFFER ->
  SynchConsole.typed (gSynchConsole s) = cs ++ 10 :: rest ->
  exists c, ReadIntFunction raw s =
      Ok (mk (set_registers (machine s) (<[2%nat := parse_int cs]> (registers (machine s)))) c) /\
    SynchConsole.quiet c /\ SynchConsole.typed c = rest /\
    Console.output (SynchConsole.cons c) = Console.output (SynchConsole.cons (gSynchConsole s)).
Proof.
  intros Hm Hq Hraw Hcs Hlen Hin. unfold ReadIntFunction.
  pose proof (SynchConsole.Read_ok 0 (gSynchConsole s) raw MAX_BUFFER Hq) as HR. unfold MAX_BUFFER in *.
  specialize (HR ltac:(lia)). rewrite Hin in HR. rewrite typed_line_plain in HR by (done || lia).
  destruct HR as (c & -> & Hqc & Hic & Hoc). cbn [mbind outcome_bind]. unfold SynchConsole.line_answer.
  rewrite bool_decide_false by done. cbn [mbind outcome_bind].
  set (buf := cs ++ replicate (Z.to_nat 255 - length cs) 0 ++ drop (Z.to_nat 255) raw).
  assert (Hb : forall j x, cs !! j = Some x -> buf !! j = Some x).
  { intros j x Hj. unfold buf. rewrite lookup_app_l; [done|]. by eapply lookup_lt_Some. }
  assert (Hz : buf !! length cs = Some 0).
  { unfold buf. rewrite lookup_app_r, Nat.sub_diag by lia. rewrite lookup_app_l by (rewrite length_replicate; lia).
    apply lookup_replicate_2. lia. }
  assert (H0 : rd buf 0 = Ok (default 0 (head cs))).
  { apply rd_lookup; [done|]. destruct cs as [|x cs]; [exact Hz|done]. }
  rewrite H0. cbn [mbind outcome_bind].
  destruct (parse_buffer buf cs Hb Hz) as (r & -> & Hr). cbn [mbind outcome_bind].
  assert (HW : forall v, WriteRegister (machine s) 2 v = Ok (set_registers (machine s) (<[2%nat := v]> (registers (machine s)))))
    by (intros v; by apply WriteRegister_ok).
  destruct r as [e|].
  - destruct Hr as (res & -> & ->). cbn [mbind outcome_bind set_console machine]. rewrite HW.
    cbn [mbind outcome_bind]. by exists c.
  - rewrite Hr. cbn [set_console machine]. rewrite HW. cbn [mbind outcome_bind]. by exists c.
Qed.

Lemma parse_decimal n ds : is_decimal n ds -> is_s32 n -> parse_int ds = n.
Proof.
  intros (Hd & Hv & Hne & _) Hn. unfold parse_int.
  assert (bool_decide (head ds = Some char_minus) = false) as ->.
  { destruct ds as [|d ds]; [done|]. apply bool_decide_false. change (head (d :: ds)) with (Some d). intros [= ->].
    apply Forall_cons_1 in Hd as [Hd _]. unfold is_digit, char_minus, char_0 in Hd. lia. }
  rewrite decide_True, decide_False by done. rewrite Hv. by apply s32_small.
Qed.

(** The system calls on numbers agree: what [PrintInt] displays for a
    non-negative number is its decimal numeral, and [ReadInt] answers the number
    when that numeral and a newline are typed. *)
Theorem PrintInt_ReadInt raw s n s2 raw2 rest :
  registers (machine s) !! 4%nat = Some n -> 0 <= n < 2 ^ 31 ->
  SynchConsole.quiet (gSynchConsole s) -> Z.of_nat (length raw) = MAX_BUFFER + 1 ->
  exists s' ds, PrintIntFunction raw s = Ok s' /\ machine s' = machine s /\ is_decimal n ds /\
    Console.output (SynchConsole.cons (gSynchConsole s')) =
      Console.output (SynchConsole.cons (gSynchConsole s)) ++ ds /\
    (has_regs (machine s2) -> SynchConsole.quiet (gSynchConsole s2) -> Z.of_nat (length raw2) = MAX_BUFFER + 1 ->
     SynchConsole.typed (gSynchConsole s2) = ds ++ 10 :: rest ->
     exists s2', ReadIntFunction raw2 s2 = Ok s2' /\ registers (machine s2') !! 2%nat = Some n /\
       SynchConsole.typed (gSynchConsole s2') = rest).
Proof.
  intros Hr Hn Hq Hraw. destruct (PrintInt_ok raw s n Hr Hn Hq Hraw) as (c & ds & E & _ & Hd & Hl & _ & Ho & _).
  exists (set_console s c), ds. split; [done|]. split; [done|]. split; [done|]. split; [done|].
  intros Hm2 Hq2 Hraw2 Hin.
  destruct (ReadInt_ok raw2 s2 ds rest) as (c2 & E2 & _ & Hi2 & _); try done.
  - destruct Hd as [Hd _]. revert Hd. apply Forall_impl. unfold is_digit, plain, char_0, char_9. lia.
  - unfold MAX_BUFFER. lia.
  - eexists. split; [exact E2|]. cbn [machine registers set_registers gSynchConsole]. split; [|done].
    rewrite (parse_decimal n ds Hd) by (unfold is_s32; lia). apply list_lookup_insert_eq.
    unfold has_regs, NumTotalRegs in Hm2. lia.
Qed.

(** A machine whose argument register holds [n]. *)
Definition calling (m : Machine.t) (n : Z) : Machine.t := set_registers m (<[4%nat := n]> (registers m)).

Lemma calling_arg m n : regs_ok m -> registers (calling m n) !! 4%nat = Some n.
Proof. intros [Hl _]. unfold calling. cbn [set_registers registers]. apply list_lookup_insert_eq. unfold NumTotalRegs in Hl. lia. Qed.

Lemma PrintInt_ReadInt_witness : exists m s' ds,
  m = Machine_new 0 0 false /\
  PrintIntFunction (replicate 256 7) (mk (calling m 1307) (SynchConsole.SynchConsole_new [])) = Ok s' /\
  is_decimal 1307 ds /\ Console.output (SynchConsole.cons (gSynchConsole s')) = ds.
Proof.
  destruct fresh_machine as [m E].
  assert (Hok : regs_ok m) by (rewrite E; exact (proj1 (Machine_new_ok 0 0 false))).
  set (s := mk (calling m 1307) (SynchConsole.SynchConsole_new [])).
  destruct (PrintInt_ReadInt (replicate 256 7) s 1307 s [] []) as (s' & ds & E' & _ & Hd & Ho & _).
  - by apply calling_arg.
  - lia.
  - done.
  - done.
  - exists m, s', ds. split; [exact E|]. split; [exact E'|]. split; [exact Hd|exact Ho].
Defined.

(** [ReadInt] on any line of fewer than 255 plain characters: an optional
    minus sign and digits give the number they denote, modulo 2^32; any other
    character gives 0; and a line without digits gives -48, or 48 after a minus
    sign. *)
Theorem ReadInt_parses_line raw s cs rest :
  has_regs (machine s) -> SynchConsole.quiet (gSynchConsole s) -> Z.of_nat (length raw) = MAX_BUFFER + 1 ->
  Forall plain cs -> Z.of_nat (length cs) < MAX_BUFFER ->
  SynchConsole.typed (gSynchConsole s) = cs ++ 10 :: rest ->
  exists s', ReadIntFunction raw s = Ok s' /\
    registers (machine s') = <[2%nat := parse_int cs]> (registers (machine s)) /\
    SynchConsole.typed (gSynchConsole s') = rest /\ SynchConsole.quiet (gSynchConsole s').
Proof.
  intros Hm Hq Hraw Hcs Hl Hin. destruct (ReadInt_ok raw s cs rest) as (c & E & Hqc & Hi & _); try done.
  eexists. split; [exact E|]. done.
Qed.

Lemma ReadInt_parses_line_witness : exists m s',
  m = Machine_new 0 0 false /\
  ReadIntFunction (replicate 256 7) (mk m (SynchConsole.SynchConsole_new [45; 52; 50; 10; 33])) = Ok s' /\
  registers (machine s') = <[2%nat := -42]> (registers m) /\
  SynchConsole.typed (gSynchConsole s') = [33].
Proof.
  destruct fresh_machine as [m E]. exists m.
  assert (Hok : regs_ok m) by (rewrite E; exact (proj1 (Machine_new_ok 0 0 false))).
  destruct (ReadInt_parses_line (replicate 256 7) (mk m (SynchConsole.SynchConsole_new [45; 52; 50; 10; 33])) [45; 52; 50] [33])
    as (s' & E' & Hr & Hi & _).
  - apply Hok.
  - done.
  - done.
  - repeat constructor; done.
  - done.
  - done.
  - exists s'. split; [exact E|]. split; [exact E'|]. split; [exact Hr|exact Hi].
Defined.

(** ** Negative numbers *)

Lemma count_digits_opp fuel : forall n acc, count_digits fuel (- n) acc = count_digits fuel n acc.
Proof.
  induction fuel as [|fuel IH]; intros n acc; [done|]. cbn [count_digits].
  assert ((- n =? 0) = (n =? 0)) as -> by (bool_cases; (done || lia)).
  destruct (n =? 0); [done|]. by rewrite Z.quot_opp_l, IH by lia.
Qed.

(** Writing digits from position [i] on leaves what is before it. *)
Lemma write_digits_frame k : forall buf i n,
  0 <= i -> i + Z.of_nat k <= Z.of_nat (length buf) ->
  exists buf', write_digits k buf (i + Z.of_nat k - 1) n = Ok buf' /\ length buf' = length buf /\
    forall j, (j < Z.to_nat i)%nat -> buf' !! j = buf !! j.
Proof.
  induction k as [|k IH]; intros buf i n Hi Hl; cbn [write_digits]; [by exists buf|].
  rewrite wr_ok by lia. cbn [mbind outcome_bind].
  replace (i + Z.of_nat (S k) - 1 - 1) with (i + Z.of_nat k - 1) by lia.
  destruct (IH (<[Z.to_nat (i + Z.of_nat (S k) - 1) := s8 (Z.rem n 10 + 48)]> buf) i (Z.quot n 10))
    as (buf' & -> & Hlen & Hj); [done|rewrite length_insert; lia|].
  exists buf'. split; [done|]. rewrite length_insert in Hlen. split; [done|].
  intros j Hlt. rewrite Hj by done. apply list_lookup_insert_ne. lia.
Qed.

(** Negative numbers are not printed.  The test for the sign comes after
    the number was negated, so [PrintInt] displays as many characters as the
    number has digits, the first of which is the byte its buffer happened to
    hold: no sign, and not the digits. *)
Theorem PrintInt_negative_unsigned raw s n x :
  registers (machine s) !! 4%nat = Some n -> - 2 ^ 31 < n < 0 ->
  SynchConsole.quiet (gSynchConsole s) -> Z.of_nat (length raw) = MAX_BUFFER + 1 -> raw !! 0%nat = Some x ->
  exists s' out k, PrintIntFunction raw s = Ok s' /\ 10 ^ Z.of_nat k <= - n < 10 ^ Z.of_nat (S k) /\
    Console.output (SynchConsole.cons (gSynchConsole s')) =
      Console.output (SynchConsole.cons (gSynchConsole s)) ++ out /\
    length out = S k /\ head out = Some x.
Proof.
  intros Hr Hn Hq Hraw Hx. unfold PrintIntFunction. rewrite (ReadRegister_ok _ 4 n) by done. cbn [mbind outcome_bind].
  rewrite (proj2 (Z.eqb_neq n 0)), (proj2 (Z.ltb_lt n 0)) by lia.
  destruct (count_digits_ok 10 (- n) 0) as (k & Hk & Hkn); [change (10 ^ Z.of_nat 10) with 10000000000; lia|].
  rewrite count_digits_opp in Hk. unfold digit_fuel. rewrite Hk. cbn [mbind outcome_bind]. rewrite Z.add_0_l.
  assert (Hk10 : (S k <= 10)%nat).
  { destruct (decide (S k <= 10)%nat) as [|Hgt]; [done|]. exfalso.
    assert (10 ^ 10 <= 10 ^ Z.of_nat k) by (apply Z.pow_le_mono_r; lia). lia. }
  rewrite Nat2Z.id. unfold MAX_BUFFER in Hraw.
  destruct (write_digits_frame (S k) raw 1 n) as (buf & -> & Hl & Hj); [lia|lia|]. cbn [mbind outcome_bind].
  rewrite s32_small by (unfold is_s32; lia). rewrite (proj2 (Z.ltb_ge (n * -1) 0)) by lia.
  rewrite wr_ok by lia. cbn [mbind outcome_bind].
  destruct (SynchConsole.Write_ok (gSynchConsole s) (<[Z.to_nat (Z.of_nat (S k)) := 0]> buf) (Z.of_nat (S k)) Hq)
    as (c & -> & _ & Ho & _); [rewrite length_insert; lia|].
  cbn [mbind outcome_bind]. eexists _, _, k. split; [done|]. split; [done|]. split; [exact Ho|].
  rewrite Nat2Z.id, length_take, length_insert. split; [lia|].
  rewrite head_lookup, lookup_take_lt, list_lookup_insert_ne, Hj by lia. done.
Qed.

Lemma PrintInt_negative_unsigned_witness : exists m s' out,
  m = Machine_new 0 0 false /\
  PrintIntFunction (replicate 256 7) (mk (calling m (-42)) (SynchConsole.SynchConsole_new [])) = Ok s' /\
  Console.output (SynchConsole.cons (gSynchConsole s')) = out /\ head out = Some 7.
Proof.
  destruct fresh_machine as [m E]. exists m.
  assert (Hok : regs_ok m) by (rewrite E; exact (proj1 (Machine_new_ok 0 0 false))).
  destruct (PrintInt_negative_unsigned (replicate 256 7) (mk (calling m (-42)) (SynchConsole.SynchConsole_new [])) (-42) 7)
    as (s' & out & k & E' & _ & Ho & _ & Hh).
  - by apply calling_arg.
  - lia.
  - done.
  - done.
  - done.
  - exists s', out. split; [exact E|]. split; [exact E'|]. split; [exact Ho|exact Hh].
Defined.

End Syscall.
