(* ===== verification/UserStrings.v ===== *)
(** * userprog/exception.cc: strings in user memory

    The loops of [User2System] and [System2User] against user memory seen as an
    array of bytes, and the system calls [ReadString] and [PrintString] that use
    them.  A string in user memory is its characters and a zero byte. *)

From S2P Require Import Prelude MachineSim ConsoleDev Syscalls.
Import Machine Syscall.

Local Open Scope Z_scope.

Module Strings.

Section strings.

(** The page table of the calling process; its use and dirty bits change. *)
Context (pt : list TranslationEntry) (n : Z).

Definition uses (m : Machine.t) : Prop :=
  mem_ok m /\ exists pt', m = with_table m pt' n /\ 0 <= n <= Z.of_nat (length pt') /\
    forall va writing, xlate pt' n va 1 writing = xlate pt n va 1 writing.

(** The byte of user memory at a virtual address, as a [char]. *)
Definition ubyte (m : Machine.t) (a : Z) : option Z :=
  match xlate pt n a 1 false with
  | inl _ => None
  | inr pa => s8 <$> mainMemory m !! Z.to_nat pa
  end.
Definition writable (a : Z) : Prop := exists pa, xlate pt n a 1 true = inr pa.

(** [cs] and a zero byte are stored at [va]. *)
Definition string_at (m : Machine.t) (va : Z) (cs : list Z) : Prop :=
  forall j c, (cs ++ [0]) !! j = Some c -> ubyte m (s32 (va + Z.of_nat j)) = Some c.

(** Characters a string in memory can hold. *)
Definition is_text (c : Z) : Prop := plain c /\ c < 128.
(** Characters that a copy does not end at. *)
Definition is_char (c : Z) : Prop := s8 c = c /\ c <> 0.

(** ** One byte *)

Lemma uses_touch m pt' va writing :
  uses m -> m = with_table m pt' n -> uses (set_pageTable m (touch_at pt' va writing)).
Proof.
  intros (Hm & pt1 & E1 & Hn & Hx) E. assert (pt1 = pt') as ->.
  { rewrite E1 in E. unfold with_table in E. cbn in E. by injection E. }
  split; [done|]. exists (touch_at pt' va writing). split; [by rewrite E|].
  unfold touch_at at 1. rewrite length_alter. split; [done|]. intros. rewrite xlate_touch. apply Hx.
Qed.

Lemma is_size_1 : is_size 1.
Proof. by left. Qed.

(** An address that translates lies in memory. *)
Lemma xlate_in_memory m a writing pa :
  mem_ok m -> xlate pt n a 1 writing = inr pa ->
  (Z.to_nat pa < length (mainMemory m))%nat /\ 0 <= pa /\ xlate pt n a 1 false = inr pa.
Proof.
  intros [Hl _] Hx. apply (xlate_inr pt n a 1) in Hx as (e & _ & _ & Hf & -> & ? & ? & ->); [|apply is_size_1].
  unfold MemorySize, NumPhysPages, PageSize, SectorSize in *. split; [lia|]. split; [lia|done].
Qed.

Lemma writable_ubyte m a : uses m -> writable a -> is_Some (ubyte m a).
Proof.
  intros [Hm _] [pa Hx]. destruct (xlate_in_memory m a true pa Hm Hx) as (Hlt & _ & Hr).
  unfold ubyte. rewrite Hr. destruct (lookup_lt_is_Some_2 _ _ Hlt) as [x ->]. by eexists.
Qed.

(** A machine that differs from [m] by the bits of its page table. *)
Definition touched (m m' : Machine.t) : Prop :=
  uses m' /\ registers m' = registers m /\ mainMemory m' = mainMemory m.

Lemma touched_trans m1 m2 m3 : touched m1 m2 -> touched m2 m3 -> touched m1 m3.
Proof. unfold touched. intuition congruence. Qed.

Lemma touched_ubyte m m' a : touched m m' -> ubyte m' a = ubyte m a.
Proof. intros (_ & _ & E). unfold ubyte. by rewrite E. Qed.

Lemma user_load_ok m a c : uses m -> ubyte m a = Some c ->
  exists m', user_load m a = Ok (m', c) /\ touched m m'.
Proof.
  intros Hu Hc. pose proof Hu as (Hm & pt' & E & Hn & Hx). unfold user_load, ReadMem.
  assert (Ht : table_ok m) by (rewrite E; exact Hn).
  rewrite ReadMem_on_spec by (done || apply is_size_1).
  rewrite (Translate_page_table m pt') by (try apply is_size_1; by rewrite E).
  assert (pageTableSize m = n) as -> by (by rewrite E). rewrite Hx. unfold ubyte in Hc.
  destruct (xlate pt n a 1 false) as [e|pa] eqn:Ex; [done|]. cbn [mbind outcome_bind].
  destruct (xlate_in_memory m a false pa Hm Ex) as (Hlt & Hpa & _).
  destruct (mainMemory m !! Z.to_nat pa) as [x|] eqn:El; [|done]. cbn in Hc. injection Hc as <-.
  eexists. split.
  - do 3 f_equal. unfold decode. cbn [Z.eqb Pos.eqb]. change (Z.to_nat 1) with 1%nat. unfold slice.
    rewrite (drop_S _ _ _ El). cbn [take le_value]. by rewrite Z.mul_0_r, Z.add_0_r.
  - split; [by apply uses_touch|]. done.
Qed.

Lemma user_store_ok m a v : uses m -> own_frames pt pt True -> writable a ->
  exists m', user_store m a v = Ok m' /\ uses m' /\ registers m' = registers m /\
    ubyte m' a = Some (s8 v) /\ forall b, u32 b <> u32 a -> ubyte m' b = ubyte m b.
Proof.
  intros Hu Hown [pa Ex]. pose proof Hu as (Hm & pt' & E & Hn & Hx). unfold user_store, WriteMem.
  assert (Ht : table_ok m) by (rewrite E; exact Hn).
  rewrite WriteMem_on_spec by (done || apply is_size_1).
  rewrite (Translate_page_table m pt') by (try apply is_size_1; by rewrite E).
  assert (pageTableSize m = n) as -> by (by rewrite E). rewrite Hx, Ex. cbn [mbind outcome_bind].
  destruct (xlate_in_memory m a true pa Hm Ex) as (Hlt & Hpa & Exr).
  destruct (uses_touch m pt' a true Hu E) as (_ & pt2 & E2 & Hn2 & Hx2).
  set (mem := splice (mainMemory m) (Z.to_nat pa) (le_bytes (Z.to_nat 1) v)).
  assert (Hlen : length mem = length (mainMemory m)) by (apply length_splice; rewrite length_le_bytes; lia).
  eexists. split; [done|]. split; [|split; [done|split]].
  - split.
    + destruct Hm as [Hl Hb]. split; cbn [mainMemory set_memory]; [by rewrite Hlen|].
      apply Forall_splice; [done|apply le_bytes_u8].
    + exists pt2. split; [|done]. by rewrite E2.
  - unfold ubyte. rewrite Exr. cbn [mainMemory set_memory]. unfold mem.
    rewrite lookup_splice_in by (rewrite ?length_le_bytes; lia). rewrite Nat.sub_diag. change (Z.to_nat 1) with 1%nat.
    cbn [le_bytes]. change (s8 <$> _) with (Some (s8 (v mod 2 ^ 8))). f_equal. unfold s8. by rewrite Zplus_mod_idemp_l.
  - intros b Hb. unfold ubyte. destruct (xlate pt n b 1 false) as [e|pb] eqn:Eb; [done|].
    cbn [mainMemory set_memory]. unfold mem. f_equal.
    destruct (xlate_disjoint pt pt n n a b 1 1 true pa pb True) as [Hd|Hd];
      try (apply is_size_1 || done || lia).
    all: destruct (xlate_in_memory m b false pb Hm Eb) as (_ & ? & _); apply lookup_splice_out; rewrite length_le_bytes; lia.
Qed.

(** ** The loops *)

Lemma addresses_differ va i j : 0 < Z.abs (i - j) < 2 ^ 32 -> u32 (s32 (va + i)) <> u32 (s32 (va + j)).
Proof.
  intros H. rewrite !u32_s32. unfold u32. intros E.
  assert (((va + i) - (va + j)) mod 2 ^ 32 = 0) as Hz by (rewrite Zminus_mod, E, Z.sub_diag; done).
  apply Z.mod_divide in Hz as [k Hk]; [|done]. nia.
Qed.

(** [copy_in] on readable memory returns, with a buffer of the same size. *)
Lemma copy_in_total va k : forall m i buf,
  uses m -> 0 <= i -> i + Z.of_nat k <= Z.of_nat (length buf) ->
  (forall j, i <= j < i + Z.of_nat k -> is_Some (ubyte m (s32 (va + j)))) ->
  exists m' buf', copy_in k m va i buf = Ok (m', buf') /\ touched m m' /\ length buf' = length buf.
Proof.
  induction k as [|k IH]; intros m i buf Hu Hi Hl Hr; cbn [copy_in].
  { exists m, buf. done. }
  destruct (Hr i) as [c Hc]; [lia|]. destruct (user_load_ok m _ c Hu Hc) as (m1 & -> & Ht). cbn [mbind outcome_bind].
  rewrite wr_ok by lia. cbn [mbind outcome_bind]. destruct (c =? 0).
  { eexists _, _. split; [done|]. by rewrite length_insert. }
  destruct (IH m1 (i + 1) (<[Z.to_nat i := s8 c]> buf)) as (m2 & buf2 & -> & Ht2 & Hl2).
  - apply Ht.
  - lia.
  - rewrite length_insert. lia.
  - intros j Hj. rewrite (touched_ubyte m) by done. apply Hr. lia.
  - exists m2, buf2. split; [done|]. split; [by eapply touched_trans|]. by rewrite Hl2, length_insert.
Qed.

Lemma is_text_s8 c : is_text c -> is_char c.
Proof. intros [[? ?] ?]. split; [|lia]. unfold s8. rewrite Z.mod_small; lia. Qed.

Lemma text_chars cs : Forall is_text cs -> Forall is_char cs.
Proof. apply Forall_impl. exact is_text_s8. Qed.

Lemma text_zero_s8 cs j c : Forall is_char cs -> (cs ++ [0]) !! j = Some c -> s8 c = c.
Proof.
  intros Hcs Hj. apply lookup_app_Some in Hj as [Hj | [_ Hj]].
  - by apply (Forall_lookup_1 _ _ _ _ Hcs Hj).
  - apply list_lookup_singleton_Some in Hj as [_ <-]. done.
Qed.

(** [copy_in] into a buffer of zeros, of characters that a zero or the limit
    ends. *)
Lemma copy_in_string va cs : forall k m i pre r,
  uses m -> Forall is_char cs -> Z.of_nat (length pre) = i -> (length cs <= k <= r)%nat ->
  (forall j c, cs !! j = Some c -> ubyte m (s32 (va + (i + Z.of_nat j))) = Some c) ->
  ((length cs < k)%nat -> ubyte m (s32 (va + (i + Z.of_nat (length cs)))) = Some 0) ->
  exists m', copy_in k m va i (pre ++ replicate r 0) = Ok (m', pre ++ cs ++ replicate (r - length cs) 0) /\ touched m m'.
Proof.
  induction cs as [|c cs IH]; intros k m i pre r Hu Hcs Hi Hk Hs Hz; cbn [length] in Hk.
  - cbn [app length]. rewrite Nat.sub_0_r. destruct k as [|k]; cbn [copy_in]; [by exists m|].
    specialize (Hz ltac:(cbn; lia)). cbn [length Z.of_nat] in Hz. rewrite Z.add_0_r in Hz.
    destruct (user_load_ok m _ 0 Hu Hz) as (m1 & -> & Ht). cbn [mbind outcome_bind].
    rewrite wr_ok by (rewrite length_app, length_replicate; lia). cbn [mbind outcome_bind Z.eqb].
    exists m1. split; [|done]. do 2 f_equal. apply list_insert_id. rewrite lookup_app_r by lia.
    rewrite lookup_replicate. split; [done|lia].
  - apply Forall_cons_1 in Hcs as [Hc Hcs]. destruct k as [|k]; [lia|]. cbn [copy_in].
    pose proof (Hs 0%nat c eq_refl) as H0. rewrite Z.add_0_r in H0.
    destruct (user_load_ok m _ c Hu H0) as (m1 & -> & Ht). cbn [mbind outcome_bind].
    rewrite wr_ok by (rewrite length_app, length_replicate; lia). cbn [mbind outcome_bind].
    destruct Hc as [-> Hne]. rewrite (proj2 (Z.eqb_neq c 0)) by done.
    destruct r as [|r]; [lia|]. rewrite insert_app_r_alt by lia.
    replace (Z.to_nat i - length pre)%nat with 0%nat by lia. cbn [replicate list_insert insert].
    replace (pre ++ c :: replicate r 0) with ((pre ++ [c]) ++ replicate r 0) by (by rewrite <- app_assoc).
    destruct (IH k m1 (i + 1) (pre ++ [c]) r) as (m2 & E & Ht2); [apply Ht|done|rewrite length_app; cbn; lia|lia| | |].
    + intros j x Hj. rewrite (touched_ubyte m) by done. specialize (Hs (S j) x Hj). rewrite <- Hs. do 2 f_equal. lia.
    + intros Hlt. rewrite (touched_ubyte m) by done. cbn [length] in Hz. rewrite <- Hz by lia. do 2 f_equal. lia.
    + exists m2. split; [|by eapply touched_trans]. rewrite E, <- app_assoc. done.
Qed.

Lemma User2System_string m va limit cs :
  uses m -> Forall is_char cs -> Z.of_nat (length cs) <= limit -> string_at m va cs ->
  exists m', User2System m va limit = Ok (m', cs ++ replicate (Z.to_nat (limit + 1) - length cs) 0) /\ touched m m'.
Proof.
  intros Hu Hcs Hl Hs. unfold User2System. rewrite (proj2 (Z.ltb_ge _ _)) by lia.
  apply (copy_in_string va cs (Z.to_nat limit) m 0 [] (Z.to_nat (limit + 1))); [done|done|done|lia| |].
  - intros j c Hj. apply Hs. by apply lookup_app_l_Some.
  - intros _. apply Hs. by apply list_lookup_middle.
Qed.

(** The same for characters that fill the limit. *)
Lemma User2System_full m va cs :
  uses m -> Forall is_char cs ->
  (forall j c, cs !! j = Some c -> ubyte m (s32 (va + Z.of_nat j)) = Some c) ->
  exists m', User2System m va (Z.of_nat (length cs)) = Ok (m', cs ++ [0]) /\ touched m m'.
Proof.
  intros Hu Hcs Hs. unfold User2System. rewrite (proj2 (Z.ltb_ge _ _)) by lia.
  destruct (copy_in_string va cs (length cs) m 0 [] (S (length cs))) as (m' & E & Ht); [done|done|done|lia|done|lia|].
  exists m'. split; [|done]. replace (Z.to_nat (Z.of_nat (length cs))) with (length cs) by lia.
  replace (Z.to_nat (Z.of_nat (length cs) + 1)) with (S (length cs)) by lia.
  replace (S (length cs) - length cs)%nat with 1%nat in E by lia. exact E.
Qed.

(** What a copy to user memory stores: [out] at [va + i], and nothing else. *)
Definition stored (m m' : Machine.t) (va i : Z) (out : list Z) : Prop :=
  uses m' /\ registers m' = registers m /\
  (forall j c, out !! j = Some c -> ubyte m' (s32 (va + (i + Z.of_nat j))) = Some c) /\
  (forall b, (forall j, (j < length out)%nat -> u32 b <> u32 (s32 (va + (i + Z.of_nat j)))) -> ubyte m' b = ubyte m b).

(** [copy_out] stops after a zero, or when [k] characters are stored. *)
Lemma copy_out_ok va buffer out : forall k m i,
  uses m -> own_frames pt pt True -> out <> [] -> 0 <= i -> (length out <= k)%nat -> Z.of_nat k < 2 ^ 32 ->
  (forall j, i <= j < i + Z.of_nat k -> writable (s32 (va + j))) ->
  (forall j c, out !! j = Some c -> buffer !! (Z.to_nat i + j)%nat = Some c /\ s8 c = c) ->
  (forall j c, out !! j = Some c -> (S j < length out)%nat -> c <> 0) ->
  length out = k \/ list.last out = Some 0 ->
  exists m', copy_out k m va i (i + Z.of_nat k) buffer = Ok (m', i + Z.of_nat (length out)) /\ stored m m' va i out.
Proof.
  induction out as [|c out IH]; intros k m i Hu Hown Hne Hi Hk Hk2 Hw Hb Hnz Hend; [done|].
  destruct k as [|k]; cbn [length] in Hk; [lia|]. cbn [copy_out].
  destruct (Hb 0%nat c eq_refl) as [Hb0 Hc8]. rewrite Nat.add_0_r in Hb0. rewrite (rd_lookup _ _ c) by done. cbn [mbind outcome_bind].
  destruct (user_store_ok m (s32 (va + i)) c Hu Hown) as (m1 & -> & Hu1 & Hr1 & Hs1 & Ho1); [apply Hw; lia|].
  rewrite Hc8 in Hs1. cbn [mbind outcome_bind]. destruct out as [|d out].
  - assert ((i + 1 <? i + Z.of_nat (S k)) && negb (c =? 0) = false) as ->.
    { destruct Hend as [Hl | [= ->]]; [|by rewrite andb_false_r]. cbn in Hl. rewrite (proj2 (Z.ltb_ge _ _)) by lia. done. }
    exists m1. split; [done|]. split; [done|]. split; [done|]. split.
    + intros [|[|j]] x Hj; [|done..]. injection Hj as <-. by rewrite Z.add_0_r.
    + intros b Hne'. apply Ho1. specialize (Hne' 0%nat ltac:(cbn; lia)). by rewrite Z.add_0_r in Hne'.
  - pose proof (Hnz 0%nat c eq_refl ltac:(cbn; lia)) as Hc0. cbn [length] in Hk.
    rewrite (proj2 (Z.eqb_neq c 0)), (proj2 (Z.ltb_lt _ _)) by lia. cbn [negb andb].
    replace (i + Z.of_nat (S k)) with (i + 1 + Z.of_nat k) by lia.
    destruct (IH k m1 (i + 1)) as (m2 & -> & Hu2 & Hr2 & Hs2 & Ho2); [done|done|done|lia|cbn [length]; lia|lia| | | | |].
    + intros j Hj. apply Hw. lia.
    + intros j x Hj. destruct (Hb (S j) x Hj) as [<- ?]. split; [f_equal; lia|done].
    + intros j x Hj Hlt. apply (Hnz (S j)); [done|]. cbn [length] in *. lia.
    + destruct Hend as [Hl|Hl]; [left; cbn [length] in *; lia|by right].
    + exists m2. split; [do 2 f_equal; cbn [length]; lia|]. split; [done|]. split; [congruence|]. split.
      * intros [|j] x Hj; cbn in Hj.
        -- injection Hj as <-. rewrite Z.add_0_r, Ho2, Hs1; [done|]. intros j Hj. apply addresses_differ. cbn [length] in Hj. lia.
        -- rewrite <- (Hs2 j x Hj). do 2 f_equal. lia.
      * intros b Hne'. rewrite Ho2.
        -- apply Ho1. specialize (Hne' 0%nat ltac:(cbn; lia)). by rewrite Z.add_0_r in Hne'.
        -- intros j Hj. specialize (Hne' (S j) ltac:(cbn in *; lia)). replace (i + 1 + Z.of_nat j) with (i + Z.of_nat (S j)) by lia. done.
Qed.

Lemma System2User_ok m va len buffer out :
  uses m -> own_frames pt pt True -> out <> [] -> Z.of_nat (length out) <= len < 2 ^ 31 ->
  (forall j, 0 <= j < len -> writable (s32 (va + j))) ->
  (forall j c, out !! j = Some c -> buffer !! j = Some c /\ s8 c = c) ->
  (forall j c, out !! j = Some c -> (S j < length out)%nat -> c <> 0) ->
  Z.of_nat (length out) = len \/ list.last out = Some 0 ->
  exists m', System2User m va len buffer = Ok (m', Z.of_nat (length out)) /\ stored m m' va 0 out.
Proof.
  intros Hu Hown Hne Hl Hw Hb Hnz Hend. unfold System2User.
  assert (0 < length out)%nat by (destruct out; [done|cbn; lia]).
  rewrite (proj2 (Z.ltb_ge len 0)), (proj2 (Z.eqb_neq len 0)) by lia.
  destruct (copy_out_ok va buffer out (Z.to_nat len) m 0) as (m' & E & Hs); try done || lia.
  - intros j Hj. apply Hw. lia.
  - destruct Hend; [left; lia|by right].
  - exists m'. rewrite Z.add_0_l, Z2Nat.id in E by lia. done.
Qed.

(** ** The system calls *)

Lemma Forall_text_plain cs : Forall is_text cs -> Forall plain cs.
Proof. apply Forall_impl. by intros c [? _]. Qed.

(** [ReadString] stores the line that is typed and a zero byte. *)
Lemma ReadString_ok junk s va L cs rest :
  uses (machine s) -> own_frames pt pt True ->
  registers (machine s) !! 4%nat = Some va -> registers (machine s) !! 5%nat = Some L ->
  0 < L < 2 ^ 31 -> (forall j, 0 <= j < L -> writable (s32 (va + j))) ->
  SynchConsole.quiet (gSynchConsole s) -> Forall is_text cs -> Z.of_nat (length cs) < L ->
  SynchConsole.typed (gSynchConsole s) = cs ++ 10 :: rest ->
  exists s', ReadStringFunction junk s = Ok s' /\ uses (machine s') /\
    registers (machine s') = registers (machine s) /\ string_at (machine s') va cs /\
    (forall b, (forall j, (j <= length cs)%nat -> u32 b <> u32 (va + Z.of_nat j)) ->
       ubyte (machine s') b = ubyte (machine s) b) /\
    SynchConsole.quiet (gSynchConsole s') /\ SynchConsole.typed (gSynchConsole s') = rest /\
    Console.output (SynchConsole.cons (gSynchConsole s')) = Console.output (SynchConsole.cons (gSynchConsole s)).
Proof.
  intros Hu Hown H4 H5 HL Hw Hq Hcs Hlen Hin. unfold ReadStringFunction.
  rewrite (ReadRegister_ok _ 4 va), (ReadRegister_ok _ 5 L) by done. cbn [mbind outcome_bind].
  unfold User2System. rewrite (proj2 (Z.ltb_ge _ _)) by lia.
  destruct (copy_in_total va (Z.to_nat L) (machine s) 0 (replicate (Z.to_nat (L + 1)) 0)) as (m1 & buf & -> & Ht & Hl);
    [done|done|rewrite length_replicate; lia| |].
  { intros j Hj. apply writable_ubyte; [done|]. apply Hw. lia. }
  rewrite length_replicate in Hl. cbn [mbind outcome_bind].
  pose proof (SynchConsole.Read_ok junk (gSynchConsole s) buf L Hq ltac:(lia)) as HR.
  rewrite Hin, typed_line_plain in HR by (by apply Forall_text_plain || lia).
  destruct HR as (c & -> & Hqc & Hic & Hoc). cbn [mbind outcome_bind].
  unfold SynchConsole.line_answer. cbn [fst].
  destruct (System2User_ok m1 va L (cs ++ replicate (Z.to_nat L - length cs) 0 ++ drop (Z.to_nat L) buf) (cs ++ [0]))
    as (m2 & E & Hu2 & Hr2 & Hs2 & Ho2); try done.
  - apply Ht.
  - by destruct cs.
  - rewrite length_app. cbn. lia.
  - intros j x Hj. split.
    + destruct (Z.to_nat L - length cs)%nat as [|r] eqn:Er; [lia|]. cbn [replicate app].
      change (0 :: replicate r 0 ++ drop (Z.to_nat L) buf) with ([0] ++ (replicate r 0 ++ drop (Z.to_nat L) buf)).
      rewrite app_assoc, lookup_app_l; [done|]. by eapply lookup_lt_Some.
    + by apply (text_zero_s8 cs j); [apply text_chars|].
  - intros j x Hj Hlt. rewrite length_app in Hlt. cbn in Hlt. rewrite lookup_app_l in Hj by lia.
    apply is_text_s8. by apply (Forall_lookup_1 _ _ _ _ Hcs Hj).
  - right. by rewrite last_snoc.
  - rewrite E. cbn [mbind outcome_bind].
    eexists. split; [done|]. cbn [machine gSynchConsole]. destruct Ht as (_ & Hr1 & Hm1).
    split; [done|]. split; [congruence|]. split; [exact Hs2|]. split; [|done].
    intros b Hb. rewrite Ho2; [unfold ubyte; by rewrite Hm1|]. intros j Hj. rewrite length_app in Hj. cbn in Hj.
    rewrite u32_s32. apply Hb. lia.
Qed.

Lemma strlen_ok cs : forall fuel pre suf,
  Forall is_char cs -> (length cs < fuel)%nat ->
  strlen fuel (pre ++ cs ++ 0 :: suf) (Z.of_nat (length pre)) = Ok (Z.of_nat (length pre + length cs)).
Proof.
  induction cs as [|c cs IH]; intros fuel pre suf Hcs Hf; cbn [length] in Hf; (destruct fuel as [|fuel]; [lia|]); cbn [strlen].
  - rewrite (rd_lookup _ _ 0); [|lia|].
    2:{ rewrite Nat2Z.id, lookup_app_r, Nat.sub_diag by lia. done. }
    cbn [mbind outcome_bind Z.eqb negb length]. by rewrite Nat.add_0_r.
  - apply Forall_cons_1 in Hcs as [Hc Hcs]. destruct Hc as [_ Hne].
    rewrite (rd_lookup _ _ c); [|lia|].
    2:{ rewrite Nat2Z.id, lookup_app_r, Nat.sub_diag by lia. done. }
    cbn [mbind outcome_bind]. rewrite (proj2 (Z.eqb_neq c 0)) by done. cbn [negb].
    specialize (IH fuel (pre ++ [c]) suf Hcs ltac:(lia)). rewrite length_app in IH. cbn [length] in IH.
    rewrite <- app_assoc in IH. cbn [app] in IH |- *. replace (Z.of_nat (length pre) + 1) with (Z.of_nat (length pre + 1)) by lia.
    rewrite IH. f_equal. cbn [length]. lia.
Qed.

(** [PrintString] displays the string and its zero byte. *)
Lemma PrintString_ok s va cs :
  uses (machine s) -> registers (machine s) !! 4%nat = Some va -> SynchConsole.quiet (gSynchConsole s) ->
  Forall is_char cs -> Z.of_nat (length cs) <= MAX_BUFFER -> string_at (machine s) va cs ->
  exists s', PrintStringFunction s = Ok s' /\ touched (machine s) (machine s') /\ SynchConsole.quiet (gSynchConsole s') /\
    SynchConsole.typed (gSynchConsole s') = SynchConsole.typed (gSynchConsole s) /\
    Console.output (SynchConsole.cons (gSynchConsole s')) =
      Console.output (SynchConsole.cons (gSynchConsole s)) ++ cs ++ [0].
Proof.
  intros Hu H4 Hq Hcs Hl Hs. unfold PrintStringFunction.
  rewrite (ReadRegister_ok _ 4 va) by done. cbn [mbind outcome_bind].
  destruct (User2System_string (machine s) va MAX_BUFFER cs Hu Hcs Hl Hs) as (m' & -> & Ht). cbn [mbind outcome_bind].
  unfold MAX_BUFFER in *. change (Z.to_nat (255 + 1)) with 256%nat.
  destruct (256 - length cs)%nat as [|r] eqn:Er; [lia|]. cbn [replicate].
  rewrite (strlen_ok cs _ [] (replicate r 0)) by (done || rewrite length_app; cbn [length]; lia).
  cbn [mbind outcome_bind app length Nat.add].
  destruct (SynchConsole.Write_ok (gSynchConsole s) (cs ++ 0 :: replicate r 0) (Z.of_nat (length cs) + 1) Hq)
    as (c & -> & Hqc & Ho & Hi); [rewrite length_app; cbn [length]; lia|].
  cbn [mbind outcome_bind]. eexists. split; [done|]. cbn [machine gSynchConsole]. split; [done|]. split; [done|].
  split; [done|]. rewrite Ho. f_equal.
  replace (cs ++ 0 :: replicate r 0) with ((cs ++ [0]) ++ replicate r 0) by (by rewrite <- app_assoc).
  rewrite take_app_le by (rewrite length_app; cbn [length]; lia). apply take_ge. rewrite length_app. cbn [length]. lia.
Qed.

(** C38: a line that a program reads with [ReadString] into a buffer it may write
    is what [PrintString] of the buffer displays (with the zero byte that ends
    it), and the call changes no byte of the process outside the line it stores
    and no register. *)
Theorem ReadString_PrintString junk s va L cs rest :
  uses (machine s) -> own_frames pt pt True ->
  registers (machine s) !! 4%nat = Some va -> registers (machine s) !! 5%nat = Some L ->
  0 < L < 2 ^ 31 -> (forall j, 0 <= j < L -> writable (s32 (va + j))) ->
  SynchConsole.quiet (gSynchConsole s) -> Forall is_text cs -> Z.of_nat (length cs) < L -> Z.of_nat (length cs) <= MAX_BUFFER ->
  SynchConsole.typed (gSynchConsole s) = cs ++ 10 :: rest ->
  exists s' s'', ReadStringFunction junk s = Ok s' /\ PrintStringFunction s' = Ok s'' /\
    Console.output (SynchConsole.cons (gSynchConsole s'')) =
      Console.output (SynchConsole.cons (gSynchConsole s)) ++ cs ++ [0] /\
    SynchConsole.typed (gSynchConsole s'') = rest /\
    registers (machine s'') = registers (machine s) /\
    (forall b, (forall j, (j <= length cs)%nat -> u32 b <> u32 (va + Z.of_nat j)) ->
       ubyte (machine s'') b = ubyte (machine s) b).
Proof.
  intros Hu Hown H4 H5 HL Hw Hq Hcs Hlen Hmax Hin.
  destruct (ReadString_ok junk s va L cs rest) as (s1 & E1 & Hu1 & Hr1 & Hs1 & Hb1 & Hq1 & Hi1 & Ho1); [done..|].
  destruct (PrintString_ok s1 va cs) as (s2 & E2 & Ht & _ & Hi2 & Ho2); [done|congruence|done|by apply text_chars|done..|].
  exists s1, s2. split; [done|]. split; [done|]. split; [congruence|]. split; [congruence|].
  pose proof Ht as (_ & Hr2 & _). split; [congruence|]. intros b Hb. rewrite (touched_ubyte (machine s1)) by done. by apply Hb1.
Qed.

End strings.

(** C38 at a machine whose page 0 is in frame 5. *)
Lemma ReadString_PrintString_witness : exists m s' s'',
  m = Machine_new 0 0 false /\
  let m' := set_registers (with_table m demo_table 2) (<[4%nat := 100]> (<[5%nat := 8]> (registers m))) in
  ReadStringFunction 0 (mk m' (SynchConsole.SynchConsole_new [104; 105; 10; 33])) = Ok s' /\
  PrintStringFunction s' = Ok s'' /\ Console.output (SynchConsole.cons (gSynchConsole s'')) = [104; 105; 0].
Proof.
  destruct fresh_machine as [m E]. exists m.
  assert (Hok : regs_ok m /\ mem_ok m) by (rewrite E; exact (Machine_new_ok 0 0 false)). destruct Hok as [[Hr _] Hm].
  unfold NumTotalRegs in Hr.
  set (m' := set_registers (with_table m demo_table 2) (<[4%nat := 100]> (<[5%nat := 8]> (registers m)))).
  destruct (ReadString_PrintString demo_table 2 0 (mk m' (SynchConsole.SynchConsole_new [104; 105; 10; 33])) 100 8 [104; 105] [33])
    as (s' & s'' & E1 & E2 & Ho & _).
  - split; [exact Hm|]. exists demo_table. split; [done|]. split; [cbn; lia|done].
  - apply demo_table_own.
  - unfold m'. cbn [machine set_registers registers]. apply list_lookup_insert_eq. rewrite length_insert. lia.
  - unfold m'. cbn [machine set_registers registers]. rewrite list_lookup_insert_ne by lia. apply list_lookup_insert_eq. lia.
  - lia.
  - intros j Hj. assert (j = 0 \/ j = 1 \/ j = 2 \/ j = 3 \/ j = 4 \/ j = 5 \/ j = 6 \/ j = 7) as Hc by lia.
    destruct Hc as [-> | [-> | [-> | [-> | [-> | [-> | [-> | ->]]]]]]]; eexists; vm_compute; reflexivity.
  - done.
  - repeat constructor; done.
  - done.
  - done.
  - done.
  - exists s', s''. split; [exact E|]. split; [exact E1|]. split; [exact E2|exact Ho].
Defined.

End Strings.
