(* ===== verification/Processes.v ===== *)
(** * userprog/ptable.{h,cc} and userprog/pcb.{h,cc}: the process table

    [Process.t] is the global [pTab] with the objects it points to and the
    threads of the processes.  PCBs live in a heap at addresses that are not
    used twice, so that following a pointer to a deleted PCB is [BadAccess];
    the thread of a process is named by the address of its PCB.  The name of a
    thread, [Thread::name], points to the string that [ExecFunction] copied from
    user memory, which it deletes when it returns: [names] has the strings that are
    still allocated, and reading another one is [BadAccess] too.  A thread can
    lose the processor in every [P], [V] and [Fork], so the operations are cut
    there: [loc] names the points in between, [call] runs a system call up to
    the first of them and [micro] runs one piece. *)

From S2P Require Import Prelude Allocator Bitmap.

Local Open Scope Z_scope.

Module Process.

Definition MAX_PROCESS : Z := 10.

(** "./test/scheduler" *)
Definition scheduler_name : list Z :=
  [46; 47; 116; 101; 115; 116; 47; 115; 99; 104; 101; 100; 117; 108; 101; 114].

(** "main", the name that threads/system.cc gives to the first thread. *)
Definition main_name : list Z := [109; 97; 105; 110].

(** Class [PCB]; the semaphores by their values. *)
Record PCB := mkPCB {
  joinsem : Z;
  exitsem : Z;
  multex : Z;
  exitcode : Z;
  numwait : Z;
  thread : option Z;
  FileName : list Z;
  parentID : Z;
}.

(** Where a thread is. *)
Inductive loc :=
| User (result : Z)                                 (* in the user program; what the last call returned *)
| ExecLock (name : list Z)                          (* ExecUpdate: bmsem->P() *)
| ExecSlot (name : list Z)                          (* GetFreeSlot, the tests and the new PCB *)
| ExecMultexP (a i : Z)                             (* PCB::Exec: multex->P() *)
| ExecFork (a i : Z)                                (* the new thread *)
| ExecMultexV (a i : Z)                             (* multex->V() *)
| ExecUnlock (r : Z) (child : option Z)             (* ExecUpdate: bmsem->V(), return r *)
| ExecReturn (r : Z) (child : option Z)             (* ExecFunction: delete[] progName, the name of child *)
| JoinIncP (q id : Z) | JoinInc (q id : Z) | JoinIncV (q id : Z)   (* IncNumWait of q *)
| JoinEval (id : Z)                                 (* pcb[id]->JoinWait() *)
| JoinWait (a id : Z)                               (* joinsem->P() *)
| JoinFetch (id : Z)                                (* GetExitCode, ExitRelease, return *)
| ExitDecP (q id : Z) | ExitDec (q id : Z) | ExitDecV (q id : Z)   (* DecNumWait of q *)
| ExitJoinV (id : Z)                                (* pcb[id]->JoinRelease() *)
| ExitEval (id : Z)                                 (* pcb[id]->ExitWait() *)
| ExitWait (a id : Z)                               (* exitsem->P() *)
| ExitRemove (id : Z).                              (* Remove(id) *)

Record Thread := mkThread { processID : Z; at_ : loc }.

Record t (T : Type) := mk {
  bm : T;
  pcb : list (option Z);
  bmsem : Z;
  heap : gmap Z PCB;
  threads : gmap Z Thread;
  names : gmap Z (list Z);      (* the string that the name of a thread points to *)
  next : Z;                     (* the next address [new] returns *)
}.
Arguments mk {T}. Arguments bm {T}. Arguments pcb {T}. Arguments bmsem {T}.
Arguments heap {T}. Arguments threads {T}. Arguments names {T}. Arguments next {T}.

Inductive syscall :=
| CExec (name : list Z)
| CJoin (id : Z)
| CExit (ec : Z).

Section operations.
Context {T : Type} `{AL : Allocator T}.
Implicit Types s : t T.

Definition set_heap s h : t T := mk (bm s) (pcb s) (bmsem s) h (threads s) (names s) (next s).
Definition set_threads s ths : t T := mk (bm s) (pcb s) (bmsem s) (heap s) ths (names s) (next s).
Definition set_names s ns : t T := mk (bm s) (pcb s) (bmsem s) (heap s) (threads s) ns (next s).
Definition set_bmsem s v : t T := mk (bm s) (pcb s) v (heap s) (threads s) (names s) (next s).
Definition set_bm s b : t T := mk b (pcb s) (bmsem s) (heap s) (threads s) (names s) (next s).

Definition goto s (me : Z) (l : loc) : t T :=
  set_threads s (alter (fun th => mkThread (processID th) l) me (threads s)).

(** The object at an address, and [pcb[i]] as a pointer that is followed. *)
Definition deref s (a : Z) : outcome PCB :=
  match heap s !! a with Some p => Ok p | None => Fault BadAccess end.
Definition slot s (i : Z) : outcome Z :=
  x ← rd (pcb s) i;
  match x with Some a => Ok a | None => Fault BadAccess end.
Definition store s (a : Z) (p : PCB) : t T := set_heap s (<[a := p]> (heap s)).

Definition set_joinsem (p : PCB) v := mkPCB v (exitsem p) (multex p) (exitcode p) (numwait p) (thread p) (FileName p) (parentID p).
Definition set_exitsem (p : PCB) v := mkPCB (joinsem p) v (multex p) (exitcode p) (numwait p) (thread p) (FileName p) (parentID p).
Definition set_multex (p : PCB) v := mkPCB (joinsem p) (exitsem p) v (exitcode p) (numwait p) (thread p) (FileName p) (parentID p).
Definition SetExitCode (p : PCB) v := mkPCB (joinsem p) (exitsem p) (multex p) v (numwait p) (thread p) (FileName p) (parentID p).
Definition set_numwait (p : PCB) v := mkPCB (joinsem p) (exitsem p) (multex p) (exitcode p) v (thread p) (FileName p) (parentID p).
Definition set_thread (p : PCB) v := mkPCB (joinsem p) (exitsem p) (multex p) (exitcode p) (numwait p) v (FileName p) (parentID p).
Definition set_parentID (p : PCB) v := mkPCB (joinsem p) (exitsem p) (multex p) (exitcode p) (numwait p) (thread p) (FileName p) v.

(** [char FileName[32]] and [strcpy]. *)
Definition SetFileName (p : PCB) (fn : list Z) : outcome PCB :=
  if 32 <=? Z.of_nat (length fn) then Fault BadAccess
  else Ok (mkPCB (joinsem p) (exitsem p) (multex p) (exitcode p) (numwait p) (thread p) fn (parentID p)).

(** [PCB::PCB(int id)] *)
Definition PCB_new (id : Z) : PCB := mkPCB 0 0 1 0 0 None [] (if negb (id =? 0) then id else -1).

(** [PTable::PTable(int size)] given the new bitmap with bit 0 marked, and the
    thread of the main program, whose [processID] is 0. *)
Definition PTable_new (b : T) : outcome (t T) :=
  p ← SetFileName (PCB_new 0) scheduler_name;
  Ok (mk b (Some 0 :: replicate (Z.to_nat (MAX_PROCESS - 1)) None) 1
         {[0 := set_parentID p (-1)]} {[0 := mkThread 0 (User 0)]} {[0 := main_name]} 1).

(** ** The first piece of each call *)

Definition JoinUpdate s (me : Z) (th : Thread) (id : Z) : outcome (t T) :=
  if id <? 0 then Ok (goto s me (User (-1)))
  else
    a ← slot s id;
    p ← deref s a;
    if negb (processID th =? parentID p) then Ok (goto s me (User (-1)))
    else
      q ← slot s (parentID p);
      Ok (goto s me (JoinIncP q id)).

(** [ExitUpdate], called by [ExitFunction], which finishes the thread after it. *)
Definition ExitUpdate s (me : Z) (th : Thread) (ec : Z) : outcome (t T) :=
  let id := processID th in
  if id =? 0 then Fault Halted
  else
    exist ← al_Test (bm s) id;
    if negb exist then Ok (set_threads s (delete me (threads s)))
    else
      a ← slot s id;
      p ← deref s a;
      let s := store s a (SetExitCode p ec) in
      q ← slot s (parentID p);
      Ok (goto s me (ExitDecP q id)).

(** [ExitFunction] returns to the program when the status is not 0. *)
Definition ExitFunction s (me : Z) (th : Thread) (status : Z) : outcome (t T) :=
  if negb (status =? 0) then Ok s else ExitUpdate s me th status.

Definition call s (me : Z) (c : syscall) : outcome (t T) :=
  match threads s !! me with
  | Some th =>
      match c with
      | CExec name => Ok (goto s me (ExecLock name))
      | CJoin id => JoinUpdate s me th id
      | CExit status => ExitFunction s me th status
      end
  | None => Fault BadAccess
  end.

(** ** The other pieces; [None] when the thread has to wait *)

(** [currentThread->getName()], as a string that is read. *)
Definition getName s (me : Z) : outcome (list Z) :=
  match names s !! me with Some nm => Ok nm | None => Fault BadAccess end.

(** [GetFreeSlot] and the tests and allocation of [ExecUpdate]. *)
Definition exec_slot s (me : Z) (th : Thread) (name : list Z) : outcome (t T) :=
  '(index, b) ← al_Find (bm s);
  let s := set_bm s b in
  refused ← (if (index <? 0) || bool_decide (name = scheduler_name) then Ok true
             else nm ← getName s me; Ok (bool_decide (name = nm)));
  if (refused : bool) then Ok (goto s me (ExecUnlock (-1) None))
  else
    p ← SetFileName (PCB_new index) name;
    let p := set_parentID p (processID th) in
    let a := next s in
    tab ← wr (pcb s) index (Some a);
    Ok (goto (mk (bm s) tab (bmsem s) (<[a := p]> (heap s)) (threads s) (names s) (a + 1)) me (ExecMultexP a index)).

(** [PCB::Exec] between its two uses of [multex]: the new thread.  Its name is the
    string of which [FileName] is a copy. *)
Definition exec_fork s (th : Thread) (a i : Z) : outcome (t T) :=
  p ← deref s a;
  let s := set_names s (<[a := FileName p]> (names s)) in
  let p := set_parentID (set_thread p (Some a)) (processID th) in
  let s := store s a p in
  Ok (set_threads s (<[a := mkThread i (User 0)]> (threads s))).

(** [delete[] progName] at the end of [ExecFunction]. *)
Definition free_name s (child : option Z) : t T :=
  match child with Some a => set_names s (delete a (names s)) | None => s end.

(** [PCB::IncNumWait] and [PCB::DecNumWait] between their uses of [multex]. *)
Definition IncNumWait (p : PCB) : PCB := set_numwait p (numwait p + 1).
Definition DecNumWait (p : PCB) : PCB := set_numwait p (if numwait p >? 0 then numwait p - 1 else numwait p).

(** [Remove(id)]: [delete pcb[id]] finishes the thread of the process. *)
Definition Remove s (me id : Z) : outcome (t T) :=
  b ← al_Clear (bm s) id;
  let s := set_bm s b in
  x ← rd (pcb s) id;
  match x with
  | None => Ok (set_threads s (delete me (threads s)))
  | Some a =>
      p ← deref s a;
      _ ← ASSERT (match thread p with Some th => th =? me | None => true end);
      Ok (set_threads (set_heap s (delete a (heap s))) (delete me (threads s)))
  end.

(** [P] and [V] on a semaphore of the PCB at [a], then go to [l]. *)
Definition pcb_P s (me a : Z) (get : PCB -> Z) (set : PCB -> Z -> PCB) (l : loc) : outcome (option (t T)) :=
  p ← deref s a;
  if get p =? 0 then Ok None
  else Ok (Some (goto (store s a (set p (get p - 1))) me l)).
Definition pcb_V s (me a : Z) (get : PCB -> Z) (set : PCB -> Z -> PCB) (l : loc) : outcome (option (t T)) :=
  p ← deref s a;
  Ok (Some (goto (store s a (set p (get p + 1))) me l)).

Definition micro s (me : Z) : outcome (option (t T)) :=
  match threads s !! me with
  | None => Ok None
  | Some th =>
      match at_ th with
      | User _ => Ok None
      | ExecLock name =>
          if bmsem s =? 0 then Ok None
          else Ok (Some (goto (set_bmsem s (bmsem s - 1)) me (ExecSlot name)))
      | ExecSlot name => s ← exec_slot s me th name; Ok (Some s)
      | ExecMultexP a i => pcb_P s me a multex set_multex (ExecFork a i)
      | ExecFork a i =>
          s ← exec_fork s th a i;
          Ok (Some (goto s me (ExecMultexV a i)))
      | ExecMultexV a i => pcb_V s me a multex set_multex (ExecUnlock i (Some a))
      | ExecUnlock r child => Ok (Some (goto (set_bmsem s (bmsem s + 1)) me (ExecReturn r child)))
      | ExecReturn r child => Ok (Some (goto (free_name s child) me (User r)))
      | JoinIncP q id => pcb_P s me q multex set_multex (JoinInc q id)
      | JoinInc q id =>
          p ← deref s q;
          Ok (Some (goto (store s q (IncNumWait p)) me (JoinIncV q id)))
      | JoinIncV q id => pcb_V s me q multex set_multex (JoinEval id)
      | JoinEval id => a ← slot s id; Ok (Some (goto s me (JoinWait a id)))
      | JoinWait a id => pcb_P s me a joinsem set_joinsem (JoinFetch id)
      | JoinFetch id =>
          a ← slot s id;
          p ← deref s a;
          pcb_V s me a exitsem set_exitsem (User (exitcode p))
      | ExitDecP q id => pcb_P s me q multex set_multex (ExitDec q id)
      | ExitDec q id =>
          p ← deref s q;
          Ok (Some (goto (store s q (DecNumWait p)) me (ExitDecV q id)))
      | ExitDecV q id => pcb_V s me q multex set_multex (ExitJoinV id)
      | ExitJoinV id => a ← slot s id; pcb_V s me a joinsem set_joinsem (ExitEval id)
      | ExitEval id => a ← slot s id; Ok (Some (goto s me (ExitWait a id)))
      | ExitWait a id => pcb_P s me a exitsem set_exitsem (ExitRemove id)
      | ExitRemove id => s ← Remove s me id; Ok (Some s)
      end
  end.

(** A system call is started in user mode only. *)
Definition in_user s (me : Z) : Prop := exists th r, threads s !! me = Some th /\ at_ th = User r.

(** What can happen: a thread makes a call, or runs a piece. *)
Inductive step s : t T -> Prop :=
| step_call me c s' : in_user s me -> call s me c = Ok s' -> step s s'
| step_micro me s' : micro s me = Ok (Some s') -> step s s'.

End operations.

(** [PTable::PTable(int size)] for a size that is not negative; the words of the
    new bitmap are [raw].  The field [psize] is never read. *)
Definition PTable (raw : Z -> Z) (size : Z) : outcome (t BitMap.t) :=
  b ← BitMap.BitMap raw size;
  b ← BitMap.Mark b 0;
  PTable_new b.

End Process.
