(* ===== verification/ProcessProtocol.v ===== *)
(** * The join and exit protocol of the process table

    Invariants of [Process.t] under every interleaving of the pieces of the
    system calls, for programs that keep to a protocol: join every process they
    create once, and exit after that. *)

From S2P Require Import Prelude Allocator Bitmap Processes.
Import Process.

Local Open Scope Z_scope.

Module Protocol.

Section protocol.
Context {T : Type} `{AL : Allocator T}.
Implicit Types s : t T.

(** ** The protocol that programs keep to *)

(** What is recorded about a process besides the state of the kernel: its
    identifier, the process that created it, how far that one is in joining it,
    and the code it exited with. *)
Inductive phase := Unjoined | Joining | Fetching | Joined.
Record history := mkHistory {
  pid : Z;
  creator : Z;
  joined : phase;
  code : option Z;
}.
Implicit Types G : gmap Z history.

Definition set_joined (j : phase) (g : history) : history := mkHistory (pid g) (creator g) j (code g).
Definition set_code (ec : Z) (g : history) : history := mkHistory (pid g) (creator g) (joined g) (Some ec).

(** A program joins only processes it created, each of them once, and exits
    after it has joined all of them; names fit in [FileName].  (An [Exit] with a
    status that is not 0 does not exit.) *)
Definition allowed s G (me : Z) (c : syscall) : Prop :=
  match c with
  | CExec name => (length name < 32)%nat
  | CJoin id => exists a g, G !! a = Some g /\ creator g = me /\ pid g = id /\ joined g = Unjoined
  | CExit status => status = 0 -> forall a g, G !! a = Some g -> creator g = me -> joined g = Joined
  end.

(** The record after a call and after a piece. *)
Definition note_call s G (me : Z) (c : syscall) : gmap Z history :=
  match c with
  | CExec _ => G
  | CJoin id => match slot s id with Ok a => alter (set_joined Joining) a G | Fault _ => G end
  | CExit status => if status =? 0 then alter (set_code status) me G else G
  end.
Definition note_micro s G (me : Z) (s' : t T) : gmap Z history :=
  match at_ <$> threads s !! me with
  | Some (ExecSlot _) =>
      match at_ <$> threads s' !! me with
      | Some (ExecMultexP a i) => <[a := mkHistory i me Unjoined None]> G
      | _ => G
      end
  | Some (JoinWait a _) => alter (set_joined Fetching) a G
  | Some (JoinFetch id) => match slot s id with Ok a => alter (set_joined Joined) a G | Fault _ => G end
  | _ => G
  end.

(** Runs of programs that keep to the protocol. *)
Inductive reachable (s0 : t T) : t T -> gmap Z history -> Prop :=
| reach_start : reachable s0 s0 ∅
| reach_call s G me c s' :
    reachable s0 s G -> in_user s me -> allowed s G me c -> call s me c = Ok s' ->
    reachable s0 s' (note_call s G me c)
| reach_micro s G me s' :
    reachable s0 s G -> micro s me = Ok (Some s') -> reachable s0 s' (note_micro s G me s').

(** ** The invariant *)

(** How far a thread is in [ExitUpdate]: 1 after [JoinRelease], 2 after
    [ExitWait]. *)
Definition stage (x : option loc) : Z :=
  match x with
  | Some (ExitEval _) | Some (ExitWait _ _) => 1
  | Some (ExitRemove _) => 2
  | _ => 0
  end.
Definition exiting (x : option loc) : bool :=
  match x with
  | Some (ExitDecP _ _) | Some (ExitDec _ _) | Some (ExitDecV _ _) | Some (ExitJoinV _)
  | Some (ExitEval _) | Some (ExitWait _ _) | Some (ExitRemove _) => true
  | _ => false
  end.
Definition where_ s (a : Z) : option loc := at_ <$> threads s !! a.

(** The semaphores of a PCB say how far the two processes are. *)
Definition sems_ok (x : option loc) (j : phase) (p : PCB) : Prop :=
  match j with
  | Unjoined | Joining => joinsem p = (if stage x =? 0 then 0 else 1) /\ exitsem p = 0 /\ stage x < 2
  | Fetching => joinsem p = 0 /\ exitsem p = 0 /\ stage x = 1
  | Joined => joinsem p = 0 /\ exitsem p = (if stage x =? 1 then 1 else 0) /\ 1 <= stage x
  end.

Definition pidof s (a : Z) : option Z := processID <$> threads s !! a.

Definition pcb_ok s (a : Z) (p : PCB) (g : history) : Prop :=
  0 < pid g < MAX_PROCESS /\ pcb s !! Z.to_nat (pid g) = Some (Some a) /\
  al_bits (bm s) !! Z.to_nat (pid g) = Some true /\
  thread p = (match threads s !! a with Some _ => Some a | None => None end) /\
  sems_ok (where_ s a) (joined g) p /\
  (exiting (where_ s a) = true -> code g = Some (exitcode p)) /\
  creator g <> a /\
  (joined g <> Joined -> pidof s (creator g) = Some (parentID p)).

(** [me] is joining the process [id]. *)
Definition joining G (me id : Z) (j : phase) (a : Z) : Prop :=
  exists g, G !! a = Some g /\ creator g = me /\ pid g = id /\ joined g = j.
Definition all_joined G (me : Z) : Prop :=
  forall a g, G !! a = Some g -> creator g = me -> joined g = Joined.

Definition loc_ok s G (me id0 : Z) (l : loc) : Prop :=
  match l with
  | User _ => True
  | ExecUnlock _ child | ExecReturn _ child => child <> Some 0
  | ExecLock name | ExecSlot name => (length name < 32)%nat
  | ExecMultexP a i | ExecFork a i => threads s !! a = None /\ a <> me /\ joining G me i Unjoined a
  | ExecMultexV a i => joining G me i Unjoined a
  | JoinIncP q id | JoinInc q id | JoinIncV q id => q = me /\ exists a, joining G me id Joining a
  | JoinEval id => exists a, joining G me id Joining a
  | JoinWait a id => joining G me id Joining a
  | JoinFetch id => exists a, joining G me id Fetching a
  | ExitDecP q id | ExitDec q id | ExitDecV q id =>
      me <> 0 /\ id = id0 /\ all_joined G me /\ exists g, G !! me = Some g /\ creator g = q
  | ExitJoinV id | ExitEval id | ExitRemove id => me <> 0 /\ id = id0 /\ all_joined G me
  | ExitWait a id => me <> 0 /\ id = id0 /\ all_joined G me /\ a = me
  end.

(** What holds of the PCB, the history and the thread at an address. *)
Record obj_ok s G (b : Z) : Prop := {
  obj_heap p : heap s !! b = Some p -> b <> 0 -> exists g, G !! b = Some g /\ pcb_ok s b p g;
  obj_live g : G !! b = Some g -> joined g <> Joined -> is_Some (heap s !! b);
  obj_thread th : threads s !! b = Some th ->
    is_Some (heap s !! b) /\ (b <> 0 -> exists g, G !! b = Some g /\ pid g = processID th) /\
    loc_ok s G b (processID th) (at_ th);
}.

Record Inv s G : Prop := {
  inv_bm : al_wf (bm s) /\ Z.of_nat (length (al_bits (bm s))) = MAX_PROCESS /\ Z.of_nat (length (pcb s)) = MAX_PROCESS;
  inv_root : pcb s !! 0%nat = Some (Some 0) /\ al_bits (bm s) !! 0%nat = Some true /\ is_Some (heap s !! 0) /\
             pidof s 0 = Some 0 /\ exiting (where_ s 0) = false /\ G !! 0 = None;
  inv_next : 0 < next s /\ forall a, next s <= a -> heap s !! a = None /\ threads s !! a = None /\ G !! a = None;
  inv_obj : forall b, obj_ok s G b;
  inv_name : is_Some (names s !! 0);
}.

(** ** Frame lemmas *)

Lemma lookup_goto s me l a :
  threads (goto s me l) !! a =
    if decide (a = me) then (fun th => mkThread (processID th) l) <$> threads s !! me else threads s !! a.
Proof.
  unfold goto. cbn [threads set_threads]. destruct (decide (a = me)) as [->|].
  - apply lookup_alter_eq.
  - by apply lookup_alter_ne.
Qed.

Lemma lookup_goto_me s me l th : threads s !! me = Some th ->
  threads (goto s me l) !! me = Some (mkThread (processID th) l).
Proof. intros E. by rewrite lookup_goto, decide_True, E by done. Qed.

Lemma lookup_goto_ne s me l a : a <> me -> threads (goto s me l) !! a = threads s !! a.
Proof. intros. by rewrite lookup_goto, decide_False. Qed.

Lemma pidof_goto s me l a : pidof (goto s me l) a = pidof s a.
Proof. unfold pidof. rewrite lookup_goto. destruct (decide (a = me)) as [->|]; [|done]. by destruct (threads s !! me). Qed.

Lemma goto_None s me l a : threads (goto s me l) !! a = None <-> threads s !! a = None.
Proof. rewrite lookup_goto. destruct (decide (a = me)) as [->|]; [|done]. apply fmap_None. Qed.

Lemma where_goto_me s me l th : threads s !! me = Some th -> where_ (goto s me l) me = Some l.
Proof. intros E. unfold where_. by rewrite (lookup_goto_me _ _ _ _ E). Qed.

(** The children of [b] have the same identifiers and are as far joined. *)
Definition same_children G G' (b : Z) : Prop := forall a i j, joining G' b i j a <-> joining G b i j a.

Lemma same_children_refl G b : same_children G G b.
Proof. done. Qed.

(** The place of a thread stays right when its own history keeps its creator,
    its children keep their histories, and no thread of a child appears. *)
Lemma loc_ok_frame s G s' G' b id l :
  same_children G G' b ->
  (forall g, G !! b = Some g -> exists g', G' !! b = Some g' /\ creator g' = creator g) ->
  (forall a g, G !! a = Some g -> creator g = b -> threads s !! a = None -> threads s' !! a = None) ->
  loc_ok s G b id l -> loc_ok s' G' b id l.
Proof.
  intros Hch Hme Hnone.
  assert (HJ : forall i j a, joining G b i j a -> joining G' b i j a).
  { intros i j a. apply Hch. }
  assert (HA : all_joined G b -> all_joined G' b).
  { intros H a g Hg Hc. assert (joining G' b (pid g) (joined g) a) as Hj by (by exists g).
    apply Hch in Hj as (g0 & Hg0 & Hc0 & _ & <-). by apply (H a g0). }
  assert (HC : forall q, (exists g, G !! b = Some g /\ creator g = q) -> exists g, G' !! b = Some g /\ creator g = q).
  { intros q (g & Hg & <-). destruct (Hme g Hg) as (g' & ? & ?). by exists g'. }
  assert (HN : forall a i, threads s !! a = None /\ a <> b /\ joining G b i Unjoined a ->
      threads s' !! a = None /\ a <> b /\ joining G' b i Unjoined a).
  { intros a i (Hn & ? & Hj). split; [|by auto]. destruct Hj as (g & Hg & Hc & _). by apply (Hnone a g). }
  destruct l; cbn [loc_ok]; auto; naive_solver.
Qed.

(** An object that a step does not touch, but for the place of its thread. *)
Lemma obj_frame_loc s G s' G' b :
  heap s' !! b = heap s !! b -> threads s' !! b = threads s !! b -> G' !! b = G !! b ->
  (forall g, G !! b = Some g -> is_Some (heap s !! b) ->
     pcb s' !! Z.to_nat (pid g) = pcb s !! Z.to_nat (pid g) /\
     al_bits (bm s') !! Z.to_nat (pid g) = al_bits (bm s) !! Z.to_nat (pid g)) ->
  (forall g, G !! b = Some g -> joined g <> Joined -> pidof s' (creator g) = pidof s (creator g)) ->
  (forall th, threads s !! b = Some th -> loc_ok s G b (processID th) (at_ th) -> loc_ok s' G' b (processID th) (at_ th)) ->
  obj_ok s G b -> obj_ok s' G' b.
Proof.
  intros Eh Et EG Hslot Hpid Hloc [H1 H2 H3]. split; rewrite ?Eh, ?Et, ?EG.
  - intros p Hp Hb. destruct (H1 p Hp Hb) as (g & Hg & P1 & P2 & P3 & P4 & P5 & P6 & P7 & P8). exists g. split; [done|].
    destruct (Hslot g Hg) as [E1 E2]; [by eexists|]. unfold pcb_ok, where_. rewrite E1, E2, Et.
    repeat (split; [done|]). intros Hj. rewrite Hpid by done. by apply P8.
  - done.
  - intros th Hth. destruct (H3 th Hth) as (? & ? & Hl). split; [done|]. split; [done|]. by apply Hloc.
Qed.

Lemma obj_frame s G s' G' b :
  heap s' !! b = heap s !! b -> threads s' !! b = threads s !! b -> G' !! b = G !! b -> same_children G G' b ->
  (forall g, G !! b = Some g -> is_Some (heap s !! b) ->
     pcb s' !! Z.to_nat (pid g) = pcb s !! Z.to_nat (pid g) /\
     al_bits (bm s') !! Z.to_nat (pid g) = al_bits (bm s) !! Z.to_nat (pid g)) ->
  (forall g, G !! b = Some g -> joined g <> Joined -> pidof s' (creator g) = pidof s (creator g)) ->
  (forall a g, G !! a = Some g -> creator g = b -> threads s !! a = None -> threads s' !! a = None) ->
  obj_ok s G b -> obj_ok s' G' b.
Proof.
  intros Eh Et EG Hch Hslot Hpid Hnone. apply obj_frame_loc; try done. intros th _.
  apply loc_ok_frame; try done. intros g Hg. exists g. by rewrite EG.
Qed.

(** The same when only the heap at [q] and the place of [me] change. *)
Lemma obj_frame_goto s G G' q p' me l b :
  b <> q -> b <> me -> G' !! b = G !! b -> same_children G G' b -> obj_ok s G b -> obj_ok (goto (store s q p') me l) G' b.
Proof.
  intros Hq Hme EG Hch. apply obj_frame; try done.
  - cbn. by rewrite lookup_insert_ne.
  - by rewrite lookup_goto_ne.
  - intros. by rewrite pidof_goto.
  - intros a g _ _ Hn. by apply goto_None.
Qed.

(** The fields that the invariant reads besides the semaphores. *)
Definition same_pcb (p p' : PCB) : Prop :=
  exitcode p' = exitcode p /\ thread p' = thread p /\ parentID p' = parentID p.

Lemma is_Some_store s a q p' : is_Some (heap s !! a) -> is_Some (heap (store s q p') !! a).
Proof. intros Ha. cbn. destruct (decide (a = q)) as [->|]; [by rewrite lookup_insert_eq|by rewrite lookup_insert_ne]. Qed.

(** A step of [me] to [l] that updates the PCB at [q] and keeps the histories'
    identifiers: what is left to show about the three objects involved. *)
Lemma Inv_step s G G' me th q p p' l :
  Inv s G -> threads s !! me = Some th -> heap s !! q = Some p ->
  (forall b, next s <= b -> G' !! b = None) -> G' !! 0 = None ->
  (me = 0 -> exiting (Some l) = false) ->
  (forall b, b <> q -> b <> me -> G' !! b = G !! b /\ same_children G G' b) ->
  obj_ok (goto (store s q p') me l) G' q -> obj_ok (goto (store s q p') me l) G' me ->
  Inv (goto (store s q p') me l) G'.
Proof.
  intros [Hbm Hroot [Hn0 Hn] Hobj Hnm] Eth Hp HGn HG0 Hl0 Hfr Hq Hme. split; try done.
  - destruct Hroot as (? & ? & ? & ? & Hex & ?). split; [done|]. split; [done|]. split; [by apply is_Some_store|].
    rewrite pidof_goto. split; [done|]. split; [|done]. unfold where_ in *. rewrite lookup_goto.
    destruct (decide (0 = me)) as [<-|]; [|done]. cbn. rewrite Eth. by apply Hl0.
  - split; [done|]. intros a Ha. destruct (Hn a Ha) as (Hh & Ht & _). rewrite goto_None. cbn.
    rewrite lookup_insert_ne by congruence. by auto.
  - intros b. destruct (decide (b = q)) as [->|]; [done|]. destruct (decide (b = me)) as [->|]; [done|].
    destruct (Hfr b) as [HG Hch]; [done..|]. by apply (obj_frame_goto s G).
Qed.

(** *** Steps that do not matter to the protocol *)

Lemma obj_plain s G me th q p p' l b :
  threads s !! me = Some th -> heap s !! q = Some p ->
  same_pcb p p' -> joinsem p' = joinsem p -> exitsem p' = exitsem p ->
  stage (Some l) = stage (Some (at_ th)) -> exiting (Some l) = exiting (Some (at_ th)) ->
  loc_ok s G me (processID th) l -> obj_ok s G b -> obj_ok (goto (store s q p') me l) G b.
Proof.
  intros Eth Hp (E3 & E4 & E5) E1 E2 Est Eex Hl [H1 H2 H3]. split.
  - intros pb Hpb Hb. cbn in Hpb.
    assert (exists p0, heap s !! b = Some p0 /\ same_pcb p0 pb /\ joinsem pb = joinsem p0 /\ exitsem pb = exitsem p0)
      as (p0 & Hp0 & (F3 & F4 & F5) & F1 & F2).
    { destruct (decide (b = q)) as [->|].
      - rewrite lookup_insert_eq in Hpb. injection Hpb as <-. by exists p.
      - rewrite lookup_insert_ne in Hpb by done. by exists pb. }
    destruct (H1 p0 Hp0 Hb) as (g & Hg & P1 & P2 & P3 & P4 & P5 & P6 & P7 & P8). exists g. split; [done|].
    unfold pcb_ok, sems_ok, where_ in *. rewrite pidof_goto, lookup_goto, F1, F2, F3, F4, F5.
    destruct (decide (b = me)) as [->|]; [|done]. cbn [threads store set_heap].
    rewrite Eth in P4, P5, P6 |- *. change (at_ <$> Some th) with (Some (at_ th)) in P5, P6.
    change (at_ <$> (_ <$> Some th)) with (Some l).
    rewrite <- Est in P5. rewrite <- Eex in P6. done.
  - intros g Hg Hj. apply is_Some_store. by apply (H2 g).
  - intros thb Hb. rewrite lookup_goto in Hb. cbn in Hb. destruct (decide (b = me)) as [->|].
    + rewrite Eth in Hb. injection Hb as <-. destruct (H3 th Eth) as (? & ? & _).
      split; [by apply is_Some_store|]. split; [done|]. cbn [processID at_].
      apply (loc_ok_frame s G); try done; [eauto|]. intros a g _ _ Hn. by apply goto_None.
    + destruct (H3 thb Hb) as (? & ? & ?). split; [by apply is_Some_store|]. split; [done|].
      apply (loc_ok_frame s G); try done; [eauto|]. intros a g _ _ Hn. by apply goto_None.
Qed.

Lemma Inv_plain s G me th q p p' l :
  Inv s G -> threads s !! me = Some th -> heap s !! q = Some p ->
  same_pcb p p' -> joinsem p' = joinsem p -> exitsem p' = exitsem p ->
  stage (Some l) = stage (Some (at_ th)) -> exiting (Some l) = exiting (Some (at_ th)) ->
  loc_ok s G me (processID th) l -> Inv (goto (store s q p') me l) G.
Proof.
  intros HI Eth Hp Hs Hj He Est Eex Hl. apply (Inv_step s G G me th q p); try done.
  - intros b Hb. by apply (inv_next _ _ HI).
  - by apply (inv_root _ _ HI).
  - intros ->. rewrite Eex. pose proof (inv_root _ _ HI) as (_ & _ & _ & _ & H & _). unfold where_ in H. by rewrite Eth in H.
  - by apply (obj_plain s G me th q p); try apply (inv_obj _ _ HI).
  - by apply (obj_plain s G me th q p); try apply (inv_obj _ _ HI).
Qed.

(** Every thread has its PCB, and its slot of the table points to it. *)
Lemma thread_pcb s G me th : Inv s G -> threads s !! me = Some th ->
  exists p, heap s !! me = Some p /\ deref s me = Ok p /\ slot s (processID th) = Ok me /\ 0 <= processID th < MAX_PROCESS /\
    al_bits (bm s) !! Z.to_nat (processID th) = Some true.
Proof.
  intros HI Eth. destruct (obj_thread _ _ _ (inv_obj _ _ HI me) th Eth) as ([p Hp] & Hg & _).
  exists p. split; [done|]. unfold deref. rewrite Hp. split; [done|]. unfold slot.
  destruct (decide (me = 0)) as [->|Hne].
  - pose proof (inv_root _ _ HI) as (H1 & H2 & _ & H3 & _). unfold pidof in H3. rewrite Eth in H3. injection H3 as ->.
    rewrite (rd_lookup _ _ (Some 0)) by done. done.
  - destruct (Hg Hne) as (g & Hg1 & <-). destruct (obj_heap _ _ _ (inv_obj _ _ HI me) p Hp Hne) as (g' & Hg2 & P1 & P2 & P3 & _).
    assert (g' = g) as -> by congruence. rewrite (rd_lookup _ _ (Some me)) by (done || lia). cbn [mbind outcome_bind].
    split; [done|]. split; [lia|done].
Qed.

Lemma Inv_goto s G me th l :
  Inv s G -> threads s !! me = Some th ->
  stage (Some l) = stage (Some (at_ th)) -> exiting (Some l) = exiting (Some (at_ th)) ->
  loc_ok s G me (processID th) l -> Inv (goto s me l) G.
Proof.
  intros HI Eth Est Eex Hl. destruct (thread_pcb s G me th HI Eth) as (p & Hp & _).
  replace (goto s me l) with (goto (store s me p) me l).
  - by apply (Inv_plain s G me th me p).
  - f_equal. unfold store, set_heap. rewrite insert_id by done. by destruct s.
Qed.

Lemma Inv_bmsem s G v : Inv s G -> Inv (set_bmsem s v) G.
Proof. intros [? ? ? H ?]. split; try done. intros b. destruct (H b). by split. Qed.

Lemma Inv_names s G ns : Inv s G -> is_Some (ns !! 0) -> Inv (set_names s ns) G.
Proof. intros [? ? ? H ?] Hn. split; try done. intros b. destruct (H b). by split. Qed.

Lemma Inv_free_name s G child : Inv s G -> child <> Some 0 -> Inv (free_name s child) G.
Proof.
  intros HI Hc. destruct child as [a|]; [|done]. apply Inv_names; [done|].
  rewrite lookup_delete_ne by congruence. apply (inv_name _ _ HI).
Qed.

(** *** The steps of a join *)

Lemma history_not_root s G a g : Inv s G -> G !! a = Some g -> a <> 0.
Proof. intros HI Hg ->. pose proof (inv_root _ _ HI) as (_ & _ & _ & _ & _ & H). congruence. Qed.

Lemma alter_joined_children G a g j b : G !! a = Some g -> creator g <> b -> same_children G (alter (set_joined j) a G) b.
Proof.
  intros Hg Hne x i j'. unfold joining. destruct (decide (x = a)) as [->|]; [|by rewrite lookup_alter_ne].
  rewrite lookup_alter_eq, Hg. split; intros (g' & [= <-] & Hc & _); done.
Qed.

Lemma insert_code_children G a g g' b :
  G !! a = Some g -> pid g' = pid g -> creator g' = creator g -> joined g' = joined g -> same_children G (<[a := g']> G) b.
Proof.
  intros Hg Ep Ec Ej x i j. unfold joining. destruct (decide (x = a)) as [->|]; [|by rewrite lookup_insert_ne].
  rewrite lookup_insert_eq, Hg. split; intros (g0 & [= <-] & ?); eexists; (split; [done|]); congruence.
Qed.

(** The conditions of [Inv_step] on the histories, when one is updated. *)
Lemma histories_next s G a g' b : Inv s G -> is_Some (G !! a) -> next s <= b -> (<[a := g']> G) !! b = None.
Proof.
  intros HI [g Hg] Hb. pose proof (proj2 (inv_next _ _ HI) b Hb) as (_ & _ & H).
  rewrite lookup_insert_ne; [done|]. congruence.
Qed.

Lemma Inv_joins s G me th a g p p' j l :
  Inv s G -> threads s !! me = Some th -> exiting (Some (at_ th)) = false ->
  G !! a = Some g -> creator g = me -> joined g <> Joined -> heap s !! a = Some p ->
  same_pcb p p' -> sems_ok (where_ s a) j p' -> exiting (Some l) = false ->
  loc_ok s (alter (set_joined j) a G) me (processID th) l ->
  Inv (goto (store s a p') me l) (alter (set_joined j) a G).
Proof.
  intros HI Eth Eex Hg Hc Hj Hp (E3 & E4 & E5) Hsem Hel Hl.
  pose proof (history_not_root _ _ _ _ HI Hg) as Ha.
  destruct (obj_heap _ _ _ (inv_obj _ _ HI a) p Hp Ha) as (g0 & Hg0 & P1 & P2 & P3 & P4 & P5 & P6 & P7 & P8).
  assert (g0 = g) as -> by congruence. clear Hg0. assert (Hne : a <> me) by congruence.
  assert (Hal : alter (set_joined j) a G = <[a := set_joined j g]> G).
  { apply map_eq. intros x. destruct (decide (x = a)) as [->|]; [by rewrite lookup_alter_eq, lookup_insert_eq, Hg|].
    by rewrite lookup_alter_ne, lookup_insert_ne. }
  apply (Inv_step s G _ me th a p); try done.
  - intros b Hb. rewrite Hal. by apply (histories_next s).
  - rewrite lookup_alter_ne by done. apply (inv_root _ _ HI).
  - intros b Hba Hbm. rewrite lookup_alter_ne by done. split; [done|]. apply (alter_joined_children G a g); congruence.
  - destruct (inv_obj _ _ HI a) as [_ _ H3]. split.
    + intros pa Hpa _. cbn in Hpa. rewrite lookup_insert_eq in Hpa. injection Hpa as <-. exists (set_joined j g).
      rewrite lookup_alter_eq, Hg. split; [done|]. unfold pcb_ok, where_ in *. rewrite pidof_goto, lookup_goto_ne, E3, E4, E5 by done.
      cbn [set_joined pid creator joined code]. repeat (split; [done|]). intros _. by apply P8.
    + intros _ _ _. cbn. rewrite lookup_insert_eq. by eexists.
    + intros tha Htha. rewrite lookup_goto_ne in Htha by done. destruct (H3 tha Htha) as (_ & Hg' & Hla).
      split; [cbn; rewrite lookup_insert_eq; by eexists|]. rewrite lookup_alter_eq, Hg. split.
      * intros _. destruct (Hg' Ha) as (g1 & Hg1 & ?). exists (set_joined j g). split; [done|]. cbn. congruence.
      * apply (loc_ok_frame s G); try done; [apply (alter_joined_children G a g); congruence| |].
        -- intros g1 Hg1. exists (set_joined j g). rewrite lookup_alter_eq, Hg. split; [done|]. cbn. congruence.
        -- intros x gx _ _ Hn. by apply goto_None.
  - destruct (inv_obj _ _ HI me) as [H1 H2 H3]. split.
    + intros pm Hpm Hm. cbn in Hpm. rewrite lookup_insert_ne in Hpm by done. rewrite lookup_alter_ne by done.
      destruct (H1 pm Hpm Hm) as (gm & Hgm & Q1 & Q2 & Q3 & Q4 & Q5 & Q6 & Q7). exists gm. split; [done|].
      unfold pcb_ok, where_, sems_ok in *. rewrite pidof_goto, (lookup_goto_me _ _ _ th) by done. rewrite Eth in Q4, Q5.
      change (at_ <$> Some th) with (Some (at_ th)) in Q5. change (at_ <$> Some _) with (Some l).
      assert (stage (Some l) = stage (Some (at_ th))) as -> by (destruct l, (at_ th); done). rewrite Hel. done.
    + rewrite lookup_alter_ne by done. intros gm Hgm Hj'. apply is_Some_store. by apply (H2 gm).
    + intros tm Htm. rewrite (lookup_goto_me _ _ _ th) in Htm by done. injection Htm as <-.
      destruct (H3 th Eth) as (? & ? & _). split; [by apply is_Some_store|]. rewrite lookup_alter_ne by done. split; [done|].
      cbn [processID at_]. apply (loc_ok_frame s (alter (set_joined j) a G)); try done; [eauto|].
      intros x gx _ _ Hn. by apply goto_None.
Qed.

(** *** The steps of an exit *)

Lemma Inv_exits s G me th g g' p p' l :
  Inv s G -> threads s !! me = Some th -> me <> 0 -> G !! me = Some g -> heap s !! me = Some p ->
  thread p' = thread p -> parentID p' = parentID p ->
  pid g' = pid g -> creator g' = creator g -> joined g' = joined g -> code g' = Some (exitcode p') ->
  sems_ok (Some l) (joined g) p' ->
  loc_ok s (<[me := g']> G) me (processID th) l ->
  Inv (goto (store s me p') me l) (<[me := g']> G).
Proof.
  intros HI Eth H0 Hg Hp E4 E5 Ep Ec Ej Eco Hsem Hl.
  destruct (obj_heap _ _ _ (inv_obj _ _ HI me) p Hp H0) as (g0 & Hg0 & P1 & P2 & P3 & P4 & P5 & P6 & P7 & P8).
  assert (g0 = g) as -> by congruence. clear Hg0. rewrite Eth in P4.
  assert (Hobj : obj_ok (goto (store s me p') me l) (<[me := g']> G) me).
  { split.
    - intros pm Hpm _. cbn in Hpm. rewrite lookup_insert_eq in Hpm. injection Hpm as <-. exists g'. rewrite lookup_insert_eq.
      split; [done|]. unfold pcb_ok. rewrite pidof_goto, (where_goto_me _ _ _ th), (lookup_goto_me _ _ _ th) by done.
      rewrite Ep, Ec, Ej, E4, E5. done.
    - intros _ _ _. cbn. rewrite lookup_insert_eq. by eexists.
    - intros tm Htm. rewrite (lookup_goto_me _ _ _ th) in Htm by done. injection Htm as <-.
      destruct (obj_thread _ _ _ (inv_obj _ _ HI me) th Eth) as (_ & Hg' & _).
      split; [cbn; rewrite lookup_insert_eq; by eexists|]. rewrite lookup_insert_eq. split.
      + intros _. destruct (Hg' H0) as (g1 & Hg1 & ?). exists g'. split; [done|]. cbn. congruence.
      + cbn [processID at_]. apply (loc_ok_frame s (<[me := g']> G)); try done; [eauto|].
        intros x gx _ _ Hn. by apply goto_None. }
  apply (Inv_step s G _ me th me p); try done.
  - intros b Hb. apply (histories_next s); [done|by eexists|done].
  - rewrite lookup_insert_ne by done. apply (inv_root _ _ HI).
  - intros b Hb _. rewrite lookup_insert_ne by done. split; [done|]. by apply (insert_code_children G me g).
Qed.

(** *** Creating a process *)

Context `{!AllocatorLaws T}.

(** The identifier of a process that exists is marked. *)
Lemma pid_marked s G b g : Inv s G -> G !! b = Some g -> is_Some (heap s !! b) ->
  al_bits (bm s) !! Z.to_nat (pid g) = Some true /\ 0 < pid g /\ pcb s !! Z.to_nat (pid g) = Some (Some b).
Proof.
  intros HI Hg [p Hp]. pose proof (history_not_root _ _ _ _ HI Hg) as Hb.
  destruct (obj_heap _ _ _ (inv_obj _ _ HI b) p Hp Hb) as (g' & Hg' & P1 & P2 & P3 & _).
  assert (g' = g) as -> by congruence. split; [done|]. split; [lia|done].
Qed.

Lemma Inv_mark s G i b : Inv s G -> al_wf b -> al_bits b = <[i := true]> (al_bits (bm s)) -> Inv (set_bm s b) G.
Proof.
  intros HI Hwf Hb. pose proof HI as [Hbm Hroot Hnext Hobj Hnm].
  assert (Hm : forall k, al_bits (bm s) !! k = Some true -> al_bits b !! k = Some true).
  { intros k Hk. rewrite Hb. destruct (decide (k = i)) as [->|]; [|by rewrite list_lookup_insert_ne].
    apply list_lookup_insert_eq. by eapply lookup_lt_Some. }
  split; try done.
  - destruct Hbm as (_ & ? & ?). cbn. rewrite Hb, length_insert. done.
  - destruct Hroot as (? & ? & ?). split; [done|]. split; [by apply Hm|done].
  - intros x. apply (obj_frame s G); try done. intros g Hg Hh. split; [done|].
    destruct (pid_marked s G x g HI Hg Hh) as [E _]. cbn. rewrite E. by apply Hm.
Qed.

(** The new PCB and its slot. *)
Lemma Inv_alloc s G me th i nm :
  Inv s G -> threads s !! me = Some th ->
  (exists name, at_ th = ExecSlot name) ->
  0 < i < MAX_PROCESS -> al_bits (bm s) !! Z.to_nat i = Some true ->
  (forall b g, G !! b = Some g -> is_Some (heap s !! b) -> pid g <> i) ->
  let p := mkPCB 0 0 1 0 0 None nm (processID th) in
  Inv (mk (bm s) (<[Z.to_nat i := Some (next s)]> (pcb s)) (bmsem s) (<[next s := p]> (heap s)) (threads s) (names s) (next s + 1))
      (<[next s := mkHistory i me Unjoined None]> G).
Proof.
  intros HI Eth (name & El) Hi Hbit Hfresh p. pose proof HI as [Hbm Hroot [Hn0 Hn] Hobj Hnm].
  destruct (Hn (next s)) as (Fh & Ft & FG); [lia|].
  assert (Hmn : me <> next s) by congruence. assert (H0n : 0 <> next s) by lia.
  split.
  - cbn. rewrite length_insert. done.
  - cbn. rewrite list_lookup_insert_ne, !lookup_insert_ne by (done || lia). done.
  - cbn. split; [lia|]. intros a Ha. rewrite !lookup_insert_ne by lia. apply Hn. lia.
  - intros b. destruct (decide (b = next s)) as [->|Hb].
    + split; cbn [heap threads]; rewrite ?lookup_insert_eq, ?Ft; [|by eauto|done].
      intros p' [= <-] _. eexists. split; [done|]. unfold pcb_ok, where_, pidof. cbn [pid pcb bm threads joined code creator].
      rewrite Ft, Eth, list_lookup_insert_eq by (destruct Hbm as (_ & _ & ?); lia). cbn. done.
    + apply (obj_frame_loc s G); cbn [heap threads pcb bm]; rewrite ?lookup_insert_ne by done; try done.
      * intros g Hg Hh. split; [|done]. apply list_lookup_insert_ne.
        destruct (pid_marked s G b g HI Hg Hh) as (_ & ? & _). specialize (Hfresh b g Hg Hh). lia.
      * intros thb Hthb Hl. destruct (decide (b = me)) as [->|Hbme].
        { assert (thb = th) as -> by congruence. rewrite El in *. exact Hl. }
        revert Hl. apply loc_ok_frame; try done.
        -- intros x k j. unfold joining. destruct (decide (x = next s)) as [->|]; [|by rewrite lookup_insert_ne].
           rewrite lookup_insert_eq, FG. split; intros (g & [= <-] & Hc & _). done.
        -- intros g Hg. exists g. by rewrite lookup_insert_ne.
  - exact Hnm.
Qed.

(** A thread in [ExecUpdate], started by an [Exec] itself, is about to read its name,
    which has been deleted. *)
Definition reads_freed_name s (me : Z) : Prop :=
  me <> 0 /\ names s !! me = None /\ exists name, where_ s me = Some (ExecSlot name).

Lemma exec_slot_ok s G me th name :
  Inv s G -> threads s !! me = Some th -> at_ th = ExecSlot name ->
  (exists s', exec_slot s me th name = Ok s' /\ Inv s' (note_micro s G me s')) \/
  (exec_slot s me th name = Fault BadAccess /\ reads_freed_name s me).
Proof.
  intros HI Eth El. pose proof (inv_bm _ _ HI) as (Hwf & Hlen & Hlp).
  destruct (obj_thread _ _ _ (inv_obj _ _ HI me) th Eth) as (_ & _ & Hname). rewrite El in Hname. cbn [loc_ok] in Hname.
  assert (Hfail : forall b, Inv (set_bm s b) G ->
    Inv (goto (set_bm s b) me (ExecUnlock (-1) None)) (note_micro s G me (goto (set_bm s b) me (ExecUnlock (-1) None)))).
  { intros b Hb. unfold note_micro. rewrite Eth, (lookup_goto_me _ _ _ th) by done. cbn. rewrite El.
    apply (Inv_goto _ _ _ th); rewrite ?El; done. }
  unfold exec_slot. destruct (first_clear (al_bits (bm s))) as [i|] eqn:Ef.
  - destruct (al_Find_free (bm s) i Hwf Ef) as (b & -> & Hwfb & Hb). cbn [mbind outcome_bind].
    pose proof (Inv_mark s G i b HI Hwfb Hb) as HIb. pose proof (first_clear_lt _ _ Ef) as Hlt.
    apply first_clear_Some in Ef as [Ei _].
    rewrite (proj2 (Z.ltb_ge (Z.of_nat i) 0)) by lia. cbn [orb].
    destruct (bool_decide (name = scheduler_name)); cbn [mbind outcome_bind]; [left; eexists; split; [done|]; by apply Hfail|].
    unfold getName. cbn [names set_bm]. destruct (names s !! me) as [nm|] eqn:Enm; cbn [mbind outcome_bind].
    2:{ right. split; [done|]. split; [|split; [done|]].
        - intros ->. destruct (inv_name _ _ HI) as [? ?]. congruence.
        - exists name. unfold where_. rewrite Eth. cbn. by rewrite El. }
    left. destruct (bool_decide (name = nm)); [eexists; split; [done|]; by apply Hfail|].
    unfold SetFileName. rewrite (proj2 (Z.leb_gt 32 _)) by lia. cbn [mbind outcome_bind]. cbn [pcb set_bm next heap bmsem threads names bm].
    rewrite wr_ok by lia. cbn [mbind outcome_bind]. eexists. split; [done|].
    assert (Hi0 : i <> 0%nat).
    { intros ->. pose proof (inv_root _ _ HI) as (_ & H & _). congruence. }
    unfold note_micro. rewrite Eth, (lookup_goto_me _ _ _ th) by done. cbn [fmap option_fmap option_map at_]. rewrite El.
    pose proof (Inv_alloc (set_bm s b) G me th (Z.of_nat i) name HIb Eth ltac:(eauto) ltac:(unfold MAX_PROCESS in *; lia)) as HA.
    cbn [bm set_bm pcb bmsem heap threads names next] in HA.
    assert (Hnew : al_bits b !! Z.to_nat (Z.of_nat i) = Some true) by (rewrite Nat2Z.id, Hb; by apply list_lookup_insert_eq).
    specialize (HA Hnew). refine ((fun HI' => _) (HA _)).
    + apply (Inv_goto _ _ _ th); rewrite ?El; try done. cbn [loc_ok threads].
      pose proof (proj2 (inv_next _ _ HI) (next s) ltac:(lia)) as (_ & Ft & _).
      split; [done|]. split; [congruence|]. eexists. rewrite lookup_insert_eq. done.
    + intros x g Hg Hh Epid. destruct (pid_marked s G x g HI Hg Hh) as (Hmk & _ & _). rewrite Epid, Nat2Z.id in Hmk. congruence.
  - rewrite (al_Find_full (bm s) Hwf Ef). cbn [mbind outcome_bind]. cbn [Z.ltb Z.compare orb].
    left. eexists. split; [done|]. apply Hfail. by destruct s.
Qed.

(** The new thread. *)
Lemma Inv_spawn s G me th a i g p :
  Inv s G -> threads s !! me = Some th -> at_ th = ExecMultexV a i ->
  G !! a = Some g -> creator g = me -> pid g = i -> joined g = Unjoined -> threads s !! a = None -> heap s !! a = Some p ->
  Inv (set_threads (store s a (set_thread p (Some a))) (<[a := mkThread i (User 0)]> (threads s))) G.
Proof.
  intros HI Eth El Hg Hc Hpid Hj Hn Hp. pose proof HI as [Hbm Hroot [Hn0 Hnx] Hobj Hnm].
  pose proof (history_not_root _ _ _ _ HI Hg) as Ha0. assert (Hmea : me <> a) by congruence.
  split; try done.
  - destruct Hroot as (? & ? & ? & R & W & ?). split; [done|]. split; [done|]. split; [by apply (is_Some_store s)|].
    unfold pidof, where_ in *. cbn. rewrite lookup_insert_ne by done. done.
  - split; [done|]. intros b Hb. destruct (Hnx b Hb) as (? & ? & ?). cbn. rewrite !lookup_insert_ne by congruence. done.
  - intros b. destruct (decide (b = a)) as [->|Hb].
    + destruct (obj_heap _ _ _ (Hobj a) p Hp Ha0) as (g' & Hg' & P1 & P2 & P3 & P4 & P5 & P6 & P7 & P8).
      assert (g' = g) as -> by congruence. split; cbn; rewrite ?lookup_insert_eq; [|by eauto|].
      * intros p' [= <-] _. exists g. split; [done|]. unfold pcb_ok, where_, pidof in *. cbn. rewrite lookup_insert_eq.
        rewrite lookup_insert_ne by congruence. rewrite Hn in P5. cbn in P5 |- *. rewrite Hj in *. done.
      * intros th' [= <-]. cbn. split; [by eexists|]. split; [by eauto|done].
    + apply (obj_frame_loc s G); cbn; rewrite ?lookup_insert_ne by done; try done.
      * intros gb Hgb Hjb. unfold pidof. cbn. destruct (decide (creator gb = a)) as [Ec|]; [|by rewrite lookup_insert_ne].
        exfalso. destruct (obj_live _ _ _ (Hobj b) gb Hgb Hjb) as [pb Hpb].
        destruct (obj_heap _ _ _ (Hobj b) pb Hpb (history_not_root _ _ _ _ HI Hgb)) as (gb' & Hgb' & _ & _ & _ & _ & _ & _ & _ & Q8).
        assert (gb' = gb) as -> by congruence. specialize (Q8 Hjb). unfold pidof in Q8. rewrite Ec, Hn in Q8. done.
      * intros thb Hthb Hl. destruct (decide (b = me)) as [->|Hbme].
        { assert (thb = th) as -> by congruence. rewrite El in *. exact Hl. }
        revert Hl. apply loc_ok_frame; try done; [by eauto|]. intros x gx Hgx Hcx Hnx'. cbn.
        rewrite lookup_insert_ne; [done|]. intros ->. congruence.
Qed.

(** *** Removing a process *)

Lemma Remove_process_ok s G me th id :
  Inv s G -> threads s !! me = Some th -> at_ th = ExitRemove id ->
  exists s', Remove s me id = Ok s' /\ Inv s' G.
Proof.
  intros HI Eth El. pose proof HI as [Hbm Hroot [Hn0 Hnx] Hobj Hnm]. destruct Hbm as (Hwf & Hlen & Hlp).
  destruct (obj_thread _ _ _ (Hobj me) th Eth) as ([p Hp] & Hg & Hl). rewrite El in Hl. destruct Hl as (H0 & -> & Hall).
  destruct (Hg H0) as (g & Hg1 & Hpid). destruct (pid_marked s G me g HI Hg1 (mk_is_Some _ _ Hp)) as (Hbit & Hpos & Hslot).
  rewrite Hpid in *.
  assert (Hid : 0 < processID th < MAX_PROCESS) by (unfold MAX_PROCESS in *; pose proof (lookup_lt_Some _ _ _ Hslot); lia).
  destruct (obj_heap _ _ _ (Hobj me) p Hp H0) as (g' & Hg' & _ & _ & _ & P4 & P5 & _). assert (g' = g) as -> by congruence.
  assert (Hjo : joined g = Joined).
  { unfold where_ in P5. rewrite Eth in P5. cbn in P5. rewrite El in P5. unfold sems_ok in P5. cbn in P5. destruct (joined g); naive_solver lia. }
  unfold Remove. destruct (al_Clear_ok (bm s) (Z.to_nat (processID th)) Hwf) as (b & Eb & Hwfb & Hb); [by eapply lookup_lt_Some|].
  rewrite Z2Nat.id in Eb by lia. rewrite Eb. cbn [mbind outcome_bind]. cbn [pcb set_bm].
  rewrite (rd_lookup _ _ (Some me)) by (done || lia). cbn [mbind outcome_bind]. unfold deref. cbn [heap set_bm]. rewrite Hp.
  cbn [mbind outcome_bind]. rewrite P4, Eth, Z.eqb_refl. cbn [ASSERT mbind outcome_bind].
  eexists. split; [done|]. split.
  - cbn. rewrite Hb, length_insert. done.
  - destruct Hroot as (R1 & R2 & R3 & R4 & R5 & R6). unfold pidof, where_ in *. cbn.
    rewrite Hb, list_lookup_insert_ne, !lookup_delete_ne by (done || lia). done.
  - split; [done|]. intros x Hx. destruct (Hnx x Hx) as (? & ? & ?). cbn. rewrite !lookup_delete_None. auto.
  - intros x. destruct (decide (x = me)) as [->|Hx].
    + split; cbn; rewrite ?lookup_delete_eq; try done. intros gx Hgx Hj. congruence.
    + apply (obj_frame s G); cbn; rewrite ?lookup_delete_ne by done; try done.
      * intros gx Hgx Hh. split; [done|]. rewrite Hb. apply list_lookup_insert_ne. intros E.
        destruct (pid_marked s G x gx HI Hgx Hh) as (_ & ? & Hs). rewrite <- E in Hs. congruence.
      * intros gx Hgx Hj. unfold pidof. cbn. rewrite lookup_delete_ne; [done|]. intros E. apply Hj. by apply (Hall x gx).
      * intros y gy _ _ Hn. apply lookup_delete_None. by right.
  - exact Hnm.
Qed.

(** *** Every step *)

(** What [micro] answers in a state where the invariant holds. *)
Definition good s G (me : Z) (o : outcome (option (t T))) : Prop :=
  (exists r, o = Ok r /\ forall s', r = Some s' -> Inv s' (note_micro s G me s')) \/
  (o = Fault BadAccess /\ reads_freed_name s me).

Lemma good_some s G me s' : Inv s' (note_micro s G me s') -> good s G me (Ok (Some s')).
Proof. intros H. left. eexists. split; [done|]. by intros ? [= <-]. Qed.
Lemma good_none s G me : good s G me (Ok None).
Proof. left. by exists None. Qed.

(** The places whose step leaves the histories alone. *)
Definition quiet_loc (l : loc) : Prop :=
  match l with ExecSlot _ | JoinWait _ _ | JoinFetch _ => False | _ => True end.
Lemma note_quiet s G me th s' : threads s !! me = Some th -> quiet_loc (at_ th) -> note_micro s G me s' = G.
Proof. intros E H. unfold note_micro. rewrite E. cbn. by destruct (at_ th). Qed.

(** A place of the same stage, right for the histories as they are. *)
Definition next_loc s G (me : Z) (th : Thread) (l : loc) : Prop :=
  stage (Some l) = stage (Some (at_ th)) /\ exiting (Some l) = exiting (Some (at_ th)) /\ loc_ok s G me (processID th) l.

Lemma good_goto s G me th l :
  Inv s G -> threads s !! me = Some th -> quiet_loc (at_ th) -> next_loc s G me th l -> good s G me (Ok (Some (goto s me l))).
Proof.
  intros HI Eth Hq (? & ? & ?). apply good_some. rewrite (note_quiet _ _ _ th) by done. by apply (Inv_goto s G me th).
Qed.

Lemma good_store s G me th q p p' l :
  Inv s G -> threads s !! me = Some th -> quiet_loc (at_ th) -> heap s !! q = Some p ->
  same_pcb p p' -> joinsem p' = joinsem p -> exitsem p' = exitsem p ->
  next_loc s G me th l -> good s G me (Ok (Some (goto (store s q p') me l))).
Proof.
  intros HI Eth Hq Hp Hs H1 H2 (? & ? & ?). apply good_some. rewrite (note_quiet _ _ _ th) by done.
  by apply (Inv_plain s G me th q p).
Qed.

Lemma good_multex_P s G me th q l :
  Inv s G -> threads s !! me = Some th -> quiet_loc (at_ th) -> is_Some (heap s !! q) ->
  next_loc s G me th l -> good s G me (pcb_P s me q multex set_multex l).
Proof.
  intros HI Eth Hq [p Hp] Hl. unfold pcb_P, deref. rewrite Hp. cbn [mbind outcome_bind].
  destruct (multex p =? 0); [apply good_none|]. by apply (good_store s G me th q p).
Qed.

Lemma good_multex_V s G me th q l :
  Inv s G -> threads s !! me = Some th -> quiet_loc (at_ th) -> is_Some (heap s !! q) ->
  next_loc s G me th l -> good s G me (pcb_V s me q multex set_multex l).
Proof.
  intros HI Eth Hq [p Hp] Hl. unfold pcb_V, deref. rewrite Hp. cbn [mbind outcome_bind]. by apply (good_store s G me th q p).
Qed.

(** The process that is being joined exists. *)
Lemma joining_live s G me id j a : Inv s G -> joining G me id j a -> j <> Joined ->
  exists g p, G !! a = Some g /\ creator g = me /\ pid g = id /\ joined g = j /\ heap s !! a = Some p /\ a <> 0 /\
    slot s id = Ok a /\ deref s a = Ok p /\ sems_ok (where_ s a) j p /\
    (exiting (where_ s a) = true -> code g = Some (exitcode p)).
Proof.
  intros HI (g & Hg & Hc & Hid & Hj) Hne. pose proof (history_not_root _ _ _ _ HI Hg) as Ha.
  destruct (obj_live _ _ _ (inv_obj _ _ HI a) g Hg) as [p Hp]; [congruence|].
  destruct (obj_heap _ _ _ (inv_obj _ _ HI a) p Hp Ha) as (g' & Hg' & P1 & P2 & _ & _ & P5 & P6 & _).
  assert (g' = g) as -> by congruence. exists g, p. repeat (split; [done|]). unfold slot, deref.
  rewrite Hp, (rd_lookup _ _ (Some a)); [|lia|by rewrite <- Hid]. cbn [mbind outcome_bind].
  split; [done|]. split; [done|]. rewrite <- Hj. done.
Qed.

(** A process that has not released its creator still has one. *)
Lemma exit_creator s G me th g : Inv s G -> threads s !! me = Some th -> G !! me = Some g ->
  stage (Some (at_ th)) = 0 ->
  joined g <> Joined /\ joined g <> Fetching /\ exists p thq, heap s !! me = Some p /\ threads s !! creator g = Some thq /\
    parentID p = processID thq /\ is_Some (heap s !! creator g) /\ sems_ok (Some (at_ th)) (joined g) p.
Proof.
  intros HI Eth Hg Hst. pose proof (history_not_root _ _ _ _ HI Hg) as H0.
  destruct (obj_thread _ _ _ (inv_obj _ _ HI me) th Eth) as ([p Hp] & _ & _).
  destruct (obj_heap _ _ _ (inv_obj _ _ HI me) p Hp H0) as (g' & Hg' & _ & _ & _ & _ & P5 & _ & _ & P8).
  assert (g' = g) as -> by congruence. unfold where_ in P5. rewrite Eth in P5. cbn [fmap option_fmap option_map] in P5.
  assert (Hj : joined g <> Joined /\ joined g <> Fetching).
  { unfold sems_ok in P5. rewrite Hst in P5. destruct (joined g); naive_solver lia. }
  split; [apply Hj|]. split; [apply Hj|]. specialize (P8 (proj1 Hj)). unfold pidof in P8.
  destruct (threads s !! creator g) as [thq|] eqn:Eq; [|done]. cbn in P8. injection P8 as Epar.
  exists p, thq. split; [done|]. split; [done|]. split; [done|]. split; [|done].
  by destruct (obj_thread _ _ _ (inv_obj _ _ HI (creator g)) thq Eq).
Qed.

(** *** The pieces of [JoinUpdate] and [ExitUpdate] that use the semaphores *)

Lemma good_JoinWait s G me th a id :
  Inv s G -> threads s !! me = Some th -> at_ th = JoinWait a id -> good s G me (micro s me).
Proof.
  intros HI Eth El. destruct (obj_thread _ _ _ (inv_obj _ _ HI me) th Eth) as (_ & _ & Hl). rewrite El in Hl. cbn [loc_ok] in Hl.
  destruct (joining_live s G me id Joining a HI Hl) as (g & p & Hg & Hc & Hid & Hj & Hp & Ha & Hs & Hd & Hsem & _); [done|].
  unfold micro. rewrite Eth, El. unfold pcb_P. rewrite Hd. cbn [mbind outcome_bind].
  destruct (joinsem p =? 0) eqn:Ez; [apply good_none|]. apply good_some. unfold note_micro. rewrite Eth. cbn [fmap option_fmap option_map].
  rewrite El. apply (Inv_joins s G me th a g p); rewrite ?El; try done; [congruence| |].
  - unfold sems_ok in *. destruct Hsem as (H1 & H2 & H3). cbn. rewrite H1, H2 in *.
    destruct (where_ s a) as [[]|]; cbn in *; try done; lia.
  - cbn [loc_ok]. exists a. exists (set_joined Fetching g). rewrite lookup_alter_eq, Hg. done.
Qed.

Lemma good_JoinFetch s G me th id :
  Inv s G -> threads s !! me = Some th -> at_ th = JoinFetch id -> good s G me (micro s me).
Proof.
  intros HI Eth El. destruct (obj_thread _ _ _ (inv_obj _ _ HI me) th Eth) as (_ & _ & Hl). rewrite El in Hl.
  destruct Hl as [a Hl].
  destruct (joining_live s G me id Fetching a HI Hl) as (g & p & Hg & Hc & Hid & Hj & Hp & Ha & Hs & Hd & Hsem & _); [done|].
  unfold micro. rewrite Eth, El, Hs. cbn [mbind outcome_bind]. rewrite Hd. cbn [mbind outcome_bind]. unfold pcb_V. rewrite Hd.
  cbn [mbind outcome_bind]. apply good_some. unfold note_micro. rewrite Eth. cbn [fmap option_fmap option_map]. rewrite El, Hs.
  apply (Inv_joins s G me th a g p); rewrite ?El; try done; [congruence|].
  unfold sems_ok in *. destruct Hsem as (H1 & H2 & H3). cbn. rewrite H1, H2, H3. done.
Qed.

(** The exiting process at one of its places: what is known. *)
Lemma exit_self s G me th : Inv s G -> threads s !! me = Some th -> exiting (Some (at_ th)) = true -> me <> 0 ->
  exists g p, G !! me = Some g /\ heap s !! me = Some p /\ slot s (processID th) = Ok me /\ deref s me = Ok p /\
    code g = Some (exitcode p) /\ sems_ok (Some (at_ th)) (joined g) p.
Proof.
  intros HI Eth Hex H0. destruct (thread_pcb s G me th HI Eth) as (p & Hp & Hd & Hs & _).
  destruct (obj_heap _ _ _ (inv_obj _ _ HI me) p Hp H0) as (g & Hg & _ & _ & _ & _ & P5 & P6 & _).
  unfold where_ in *. rewrite Eth in *. cbn [fmap option_fmap option_map] in *. exists g, p. auto 7.
Qed.

Lemma good_exit s G me th p p' l :
  Inv s G -> threads s !! me = Some th -> exiting (Some (at_ th)) = true -> quiet_loc (at_ th) -> me <> 0 ->
  heap s !! me = Some p -> same_pcb p p' ->
  (forall g, G !! me = Some g -> sems_ok (Some (at_ th)) (joined g) p -> sems_ok (Some l) (joined g) p') ->
  loc_ok s G me (processID th) l -> good s G me (Ok (Some (goto (store s me p') me l))).
Proof.
  intros HI Eth Hex Hq H0 Hp (E3 & E4 & E5) Hsem Hl. apply good_some. rewrite (note_quiet _ _ _ th) by done.
  destruct (exit_self s G me th HI Eth Hex H0) as (g & p0 & Hg & Hp0 & _ & _ & Hco & Hs0).
  assert (p0 = p) as -> by congruence.
  rewrite <- (insert_id G me g Hg). apply (Inv_exits s G me th g g p); try done; [congruence|by apply Hsem|].
  by rewrite insert_id.
Qed.

Lemma good_ExitJoinV s G me th id :
  Inv s G -> threads s !! me = Some th -> at_ th = ExitJoinV id -> good s G me (micro s me).
Proof.
  intros HI Eth El. destruct (obj_thread _ _ _ (inv_obj _ _ HI me) th Eth) as (_ & _ & Hl). rewrite El in Hl.
  destruct Hl as (H0 & -> & Hall). destruct (exit_self s G me th HI Eth ltac:(by rewrite El) H0) as (g & p & _ & Hp & Hs & Hd & _).
  unfold micro. rewrite Eth, El, Hs. cbn [mbind outcome_bind]. unfold pcb_V. rewrite Hd. cbn [mbind outcome_bind].
  apply (good_exit s G me th p); rewrite ?El; try done.
  intros g' _. unfold sems_ok. cbn. destruct (joined g'); intros (? & ? & ?); lia.
Qed.

Lemma good_ExitWait s G me th a id :
  Inv s G -> threads s !! me = Some th -> at_ th = ExitWait a id -> good s G me (micro s me).
Proof.
  intros HI Eth El. destruct (obj_thread _ _ _ (inv_obj _ _ HI me) th Eth) as (_ & _ & Hl). rewrite El in Hl.
  destruct Hl as (H0 & -> & Hall & ->). destruct (exit_self s G me th HI Eth ltac:(by rewrite El) H0) as (g & p & _ & Hp & Hs & Hd & _).
  unfold micro. rewrite Eth, El. unfold pcb_P. rewrite Hd. cbn [mbind outcome_bind].
  destruct (exitsem p =? 0) eqn:Ez; [apply good_none|].
  apply (good_exit s G me th p); rewrite ?El; try done.
  intros g' _. unfold sems_ok. cbn. destruct (joined g'); intros (? & ? & ?); lia.
Qed.

Lemma good_ExecFork s G me th a i :
  Inv s G -> threads s !! me = Some th -> at_ th = ExecFork a i -> good s G me (micro s me).
Proof.
  intros HI Eth El. destruct (obj_thread _ _ _ (inv_obj _ _ HI me) th Eth) as (_ & _ & Hl). rewrite El in Hl.
  destruct Hl as (Hn & Hne & Hjo).
  destruct (joining_live s G me i Unjoined a HI Hjo) as (g & p & Hg & Hc & Hid & Hj & Hp & Ha & _ & Hd & _); [done|].
  unfold micro, exec_fork. rewrite Eth, El, Hd. cbn [mbind outcome_bind]. apply good_some. rewrite (note_quiet _ _ _ th) by (done || by rewrite El).
  set (s1 := set_names s (<[a := FileName p]> (names s))).
  assert (HI1 : Inv s1 G) by (apply Inv_names; [done|]; rewrite lookup_insert_ne by done; apply (inv_name _ _ HI)).
  assert (HI' : Inv (goto s1 me (ExecMultexV a i)) G) by (apply (Inv_goto s1 G me th); rewrite ?El; done).
  assert (Hpar : parentID p = processID th).
  { destruct (obj_heap _ _ _ (inv_obj _ _ HI a) p Hp Ha) as (g' & Hg' & _ & _ & _ & _ & _ & _ & _ & P8).
    assert (g' = g) as -> by congruence. specialize (P8 ltac:(congruence)). unfold pidof in P8. rewrite Hc, Eth in P8. by injection P8. }
  pose proof (Inv_spawn _ G me _ a i g p HI' (lookup_goto_me s1 _ _ th Eth) eq_refl Hg Hc Hid Hj) as HS.
  rewrite goto_None in HS. specialize (HS Hn Hp).
  replace (set_parentID (set_thread p (Some a)) (processID th)) with (set_thread p (Some a)) by (unfold set_parentID; cbn; by rewrite <- Hpar).
  replace (goto _ me (ExecMultexV a i)) with (set_threads (store (goto s1 me (ExecMultexV a i)) a (set_thread p (Some a)))
     (<[a := mkThread i (User 0)]> (threads (goto s1 me (ExecMultexV a i))))); [exact HS|].
  unfold goto, set_threads, store, set_heap. cbn. f_equal. by rewrite alter_insert_ne.
Qed.

(** No piece of a system call fails, and each keeps the invariant. *)
Lemma micro_ok s G me : Inv s G -> good s G me (micro s me).
Proof.
  intros HI. destruct (threads s !! me) as [th|] eqn:Eth.
  2:{ unfold micro. rewrite Eth. apply good_none. }
  destruct (obj_thread _ _ _ (inv_obj _ _ HI me) th Eth) as (Hh & _ & Hl).
  destruct (at_ th) as [r|name|name|a i|a i|a i|r child|r child|q id|q id|q id|id|a id|id|q id|q id|q id|id|id|a id|id] eqn:El;
    try (by eapply good_ExecFork); try (by eapply good_JoinWait); try (by eapply good_JoinFetch);
    try (by eapply good_ExitJoinV); try (by eapply good_ExitWait);
    unfold micro; rewrite Eth, El; cbn [loc_ok] in Hl.
  - apply good_none.
  - destruct (bmsem s =? 0); [apply good_none|].
    apply good_some. rewrite (note_quiet _ _ _ th) by (done || by rewrite El).
    apply (Inv_goto _ _ _ th); rewrite ?El; try done. by apply Inv_bmsem.
  - destruct (exec_slot_ok s G me th name HI Eth El) as [(s' & -> & H')|[-> H']]; [by apply good_some|by right].
  - destruct Hl as (Hn & Hne & Hjo).
    destruct (joining_live s G me i Unjoined a HI Hjo) as (g & p & _ & _ & _ & _ & Hp & _); [done|].
    apply (good_multex_P s G me th); unfold next_loc; rewrite ?El; cbn [loc_ok]; split_and?; solve [done | eauto 8].
  - destruct (joining_live s G me i Unjoined a HI Hl) as (g & p & _ & _ & _ & _ & Hp & Ha & _); [done|].
    apply (good_multex_V s G me th); unfold next_loc; rewrite ?El; cbn [loc_ok]; split_and?; solve [done | congruence | eauto 8].
  - apply good_some. rewrite (note_quiet _ _ _ th) by (done || by rewrite El).
    apply (Inv_goto _ _ _ th); rewrite ?El; try done. by apply Inv_bmsem.
  - apply good_some. rewrite (note_quiet _ _ _ th) by (done || by rewrite El).
    apply (Inv_goto _ _ _ th); rewrite ?El; try done; [by apply Inv_free_name|by destruct child].
  - destruct Hl as [-> Hl]. apply (good_multex_P s G me th); unfold next_loc; rewrite ?El; cbn [loc_ok]; split_and?; solve [done | eauto 8].
  - destruct Hl as [-> Hl]. unfold deref. destruct Hh as [p Hp]. rewrite Hp. cbn [mbind outcome_bind].
    apply (good_store s G me th me p); unfold next_loc; rewrite ?El; cbn [loc_ok]; split_and?; solve [done | eauto 8].
  - destruct Hl as [-> Hl]. apply (good_multex_V s G me th); unfold next_loc; rewrite ?El; cbn [loc_ok]; split_and?; solve [done | eauto 8].
  - destruct Hl as [a Hl]. destruct (joining_live s G me id Joining a HI Hl) as (g & p & _ & _ & _ & _ & _ & _ & -> & _); [done|].
    cbn [mbind outcome_bind]. apply (good_goto s G me th); unfold next_loc; rewrite ?El; cbn [loc_ok]; split_and?; solve [done | eauto 8].
  - destruct Hl as (H0 & -> & Hall & g & Hg & <-).
    destruct (exit_creator s G me th g HI Eth Hg ltac:(by rewrite El)) as (_ & _ & p & thq & _ & _ & _ & Hcr & _).
    apply (good_multex_P s G me th); unfold next_loc; rewrite ?El; cbn [loc_ok]; split_and?; solve [done | eauto 8].
  - destruct Hl as (H0 & -> & Hall & g & Hg & <-).
    destruct (exit_creator s G me th g HI Eth Hg ltac:(by rewrite El)) as (_ & _ & p & thq & _ & _ & _ & [pc Hpc] & _).
    unfold deref. rewrite Hpc. cbn [mbind outcome_bind].
    apply (good_store s G me th _ pc); unfold next_loc; rewrite ?El; cbn [loc_ok]; split_and?; solve [done | eauto 8].
  - destruct Hl as (H0 & -> & Hall & g & Hg & <-).
    destruct (exit_creator s G me th g HI Eth Hg ltac:(by rewrite El)) as (_ & _ & p & thq & _ & _ & _ & Hcr & _).
    apply (good_multex_V s G me th); unfold next_loc; rewrite ?El; cbn [loc_ok]; split_and?; solve [done | eauto 8].
  - destruct Hl as (H0 & -> & Hall). destruct (exit_self s G me th HI Eth ltac:(by rewrite El) H0) as (g & p & _ & _ & -> & _).
    cbn [mbind outcome_bind]. apply (good_goto s G me th); unfold next_loc; rewrite ?El; cbn [loc_ok]; split_and?; solve [done | eauto 8].
  - destruct (Remove_process_ok s G me th id HI Eth El) as (s' & -> & H'). cbn [mbind outcome_bind].
    apply good_some. by rewrite (note_quiet _ _ _ th) by (done || by rewrite El).
Qed.

(** The calls that the protocol allows do not fail either. *)
Lemma JoinUpdate_ok s G me th id a :
  Inv s G -> threads s !! me = Some th -> (exists r, at_ th = User r) -> joining G me id Unjoined a ->
  exists s', JoinUpdate s me th id = Ok s' /\ Inv s' (alter (set_joined Joining) a G) /\ slot s id = Ok a.
Proof.
  intros HI Eth [r El] Hjo.
  destruct (joining_live s G me id Unjoined a HI Hjo) as (g & p & Hg & Hc & Hid & Hj & Hp & Ha & Hs & Hd & Hsem & _); [done|].
  destruct (obj_heap _ _ _ (inv_obj _ _ HI a) p Hp Ha) as (g' & Hg' & P1 & _ & _ & _ & _ & _ & _ & P8).
  assert (g' = g) as -> by congruence. specialize (P8 ltac:(congruence)). unfold pidof in P8. rewrite Hc, Eth in P8. injection P8 as Epar.
  unfold JoinUpdate. rewrite (proj2 (Z.ltb_ge id 0)) by lia. rewrite Hs. cbn [mbind outcome_bind]. rewrite Hd. cbn [mbind outcome_bind].
  rewrite Epar, Z.eqb_refl. cbn [negb]. destruct (thread_pcb s G me th HI Eth) as (pm & _ & _ & Hsm & _). rewrite <- Epar, Hsm.
  cbn [mbind outcome_bind]. eexists. split; [done|]. split; [|done].
  replace (goto s me (JoinIncP me id)) with (goto (store s a p) me (JoinIncP me id)).
  - apply (Inv_joins s G me th a g p); rewrite ?El; try done; [congruence|]. cbn [loc_ok]. split; [done|].
    exists a, (set_joined Joining g). rewrite lookup_alter_eq, Hg. done.
  - f_equal. unfold store, set_heap. rewrite insert_id by done. by destruct s.
Qed.

Lemma ExitUpdate_ok s G me th ec :
  Inv s G -> threads s !! me = Some th -> (exists r, at_ th = User r) -> all_joined G me -> me <> 0 ->
  exists s', ExitUpdate s me th ec = Ok s' /\ Inv s' (alter (set_code ec) me G).
Proof.
  intros HI Eth [r El] Hall H0. destruct (thread_pcb s G me th HI Eth) as (p & Hp & Hd & Hs & Hid & Hbit).
  destruct (obj_thread _ _ _ (inv_obj _ _ HI me) th Eth) as (_ & Hg & _). destruct (Hg H0) as (g & Hg1 & Hpid).
  destruct (pid_marked s G me g HI Hg1 (mk_is_Some _ _ Hp)) as (_ & Hpos & _).
  destruct (exit_creator s G me th g HI Eth Hg1 ltac:(by rewrite El)) as (Hj1 & Hj2 & p' & thq & Hp' & Eq & Epar & _ & Hsem).
  assert (p' = p) as -> by congruence. destruct (thread_pcb s G _ thq HI Eq) as (pq & _ & _ & Hsq & _).
  unfold ExitUpdate. rewrite (proj2 (Z.eqb_neq _ 0)) by lia. pose proof (inv_bm _ _ HI) as (Hwf & _).
  pose proof (al_Test_ok (bm s) (Z.to_nat (processID th)) true Hwf Hbit) as Ht. rewrite Z2Nat.id in Ht by lia. rewrite Ht.
  cbn [mbind outcome_bind negb]. rewrite Hs. cbn [mbind outcome_bind]. rewrite Hd. cbn [mbind outcome_bind].
  change (slot (store s me (SetExitCode p ec)) (parentID p)) with (slot s (parentID p)). rewrite Epar, Hsq.
  cbn [mbind outcome_bind]. eexists. split; [done|].
  assert (alter (set_code ec) me G = <[me := set_code ec g]> G) as ->.
  { apply map_eq. intros x. destruct (decide (x = me)) as [->|]; [by rewrite lookup_alter_eq, lookup_insert_eq, Hg1|].
    by rewrite lookup_alter_ne, lookup_insert_ne. }
  apply (Inv_exits s G me th g (set_code ec g) p); try done.
  - unfold sems_ok in *. rewrite El in Hsem. exact Hsem.
  - cbn [loc_ok]. split; [done|]. split; [done|]. split.
    + intros x gx. destruct (decide (x = me)) as [->|]; [|rewrite lookup_insert_ne by done; apply Hall].
      rewrite lookup_insert_eq. intros [= <-] Hc. by apply (Hall me g).
    + exists (set_code ec g). by rewrite lookup_insert_eq.
Qed.

Lemma call_ok s G me c :
  Inv s G -> in_user s me -> allowed s G me c ->
  (exists s', call s me c = Ok s' /\ Inv s' (note_call s G me c)) \/
  (me = 0 /\ call s me c = Fault Halted /\ c = CExit 0).
Proof.
  intros HI (th & r & Eth & El) Hal. unfold call. rewrite Eth. destruct c as [name|id|ec]; cbn [allowed note_call] in *.
  - left. eexists. split; [done|]. apply (Inv_goto s G me th); rewrite ?El; done.
  - destruct Hal as (a & g & Hg & Hc & Hid & Hj).
    destruct (JoinUpdate_ok s G me th id a) as (s' & -> & HI' & ->); [done|done|by eexists|by exists g|]. left. by eexists.
  - unfold ExitFunction. destruct (Z.eqb_spec ec 0) as [->|Hec]; cbn [negb]; [|left; by exists s]. specialize (Hal eq_refl).
    destruct (decide (me = 0)) as [->|H0].
    + right. split; [done|]. split; [|done]. unfold ExitUpdate.
      pose proof (inv_root _ _ HI) as (_ & _ & _ & H & _). unfold pidof in H. rewrite Eth in H. by injection H as ->.
    + destruct (ExitUpdate_ok s G me th 0) as (s' & -> & HI'); [done|done|by eexists|done|done|]. left. by eexists.
Qed.

(** ** Properties *)

Definition fresh_bitmap (b : T) : Prop :=
  al_wf b /\ Z.of_nat (length (al_bits b)) = MAX_PROCESS /\ al_bits b !! 0%nat = Some true.

Lemma Inv_start b s0 : fresh_bitmap b -> PTable_new b = Ok s0 -> Inv s0 ∅.
Proof.
  intros (Hwf & Hlen & H0). unfold PTable_new. cbn [SetFileName length scheduler_name Z.of_nat Z.leb Z.compare mbind outcome_bind].
  intros [= <-]. split; try done.
  - cbn. split; [lia|]. intros a Ha. rewrite !lookup_singleton_ne by lia. done.
  - intros x. split; cbn.
    + intros p Hp Hx. by rewrite lookup_singleton_ne in Hp.
    + done.
    + intros th Hth. apply lookup_singleton_Some in Hth as [<- <-]. rewrite lookup_singleton_eq. done.
Qed.

Lemma reachable_Inv b s0 s G : fresh_bitmap b -> PTable_new b = Ok s0 -> reachable s0 s G -> Inv s G.
Proof.
  intros Hb Es0. induction 1 as [|s G me c s' _ IH Hu Hal Ec|s G me s' _ IH Em].
  - by apply (Inv_start b).
  - destruct (call_ok s G me c IH Hu Hal) as [(s1 & E1 & H1)|(_ & E1 & _)]; [|congruence]. congruence.
  - destruct (micro_ok s G me IH) as [(r & Er & H1)|[Er _]]; [|congruence]. rewrite Em in Er. injection Er as <-. by apply H1.
Qed.

(** The codes that exits record. *)
Lemma codes_are_zero s0 s G : reachable s0 s G -> forall a g x, G !! a = Some g -> code g = Some x -> x = 0.
Proof.
  assert (HJ : forall G (j : phase) c, (forall a g x, G !! a = Some g -> code g = Some x -> x = 0) ->
    forall a g x, alter (set_joined j) c G !! a = Some g -> code g = Some x -> x = 0).
  { intros G0 j c IH a g x Ha Hx. apply lookup_alter_Some in Ha as [(-> & g0 & Hg0 & ->)|[_ Ha]]; by eapply IH. }
  induction 1 as [|s G me c s' _ IH _ _ _|s G me s' _ IH _]; [done|..].
  - destruct c as [name|id|ec]; cbn [note_call]; [done| |].
    + destruct (slot s id); [by apply HJ|done].
    + destruct (Z.eqb_spec ec 0) as [->|]; [|done]. intros a g x Ha Hx.
      apply lookup_alter_Some in Ha as [(-> & g0 & Hg0 & ->)|[_ Ha]]; [cbn in Hx; congruence|by eapply IH].
  - unfold note_micro. repeat case_match; try done; try by apply HJ.
    intros b g x Hb Hx. apply lookup_insert_Some in Hb as [[_ <-]|[_ Hb]]; [done|by eapply IH].
Qed.


(** C14: a join waits for the exit of the process it names and returns its exit
    code.  For programs that join each process they create once and exit after that,
    whenever a thread is about to return from a join, the process it named was created
    by it, has exited, still has its PCB, and the call returns the code recorded when
    it exited, which is 0: [ExitFunction] does not exit with another status. *)
Theorem join_returns_exit_code b s0 s G me th id :
  fresh_bitmap b -> PTable_new b = Ok s0 -> reachable s0 s G ->
  threads s !! me = Some th -> at_ th = JoinFetch id ->
  exists a g s', G !! a = Some g /\ creator g = me /\ pid g = id /\ code g = Some 0 /\ exiting (where_ s a) = true /\
    micro s me = Ok (Some s') /\ threads s' !! me = Some (mkThread (processID th) (User 0)).
Proof.
  intros Hb E0 HR Eth El. pose proof (reachable_Inv b s0 s G Hb E0 HR) as HI.
  destruct (obj_thread _ _ _ (inv_obj _ _ HI me) th Eth) as (_ & _ & Hl). rewrite El in Hl. destruct Hl as [a Hl].
  destruct (joining_live s G me id Fetching a HI Hl) as (g & p & Hg & Hc & Hid & Hj & Hp & Ha & Hs & Hd & Hsem & Hco); [done|].
  assert (Hex : exiting (where_ s a) = true) by (destruct Hsem as (_ & _ & Hst); destruct (where_ s a) as [[]|]; done).
  specialize (Hco Hex). pose proof (codes_are_zero s0 s G HR a g _ Hg Hco) as Hz.
  exists a, g. unfold micro. rewrite Eth, El, Hs. cbn [mbind outcome_bind]. rewrite Hd.
  cbn [mbind outcome_bind]. unfold pcb_V. rewrite Hd. cbn [mbind outcome_bind]. rewrite Hz in *. eexists.
  do 5 (split; [done|]). split; [done|by apply lookup_goto_me].
Qed.

(** Neither side of a join waits longer than it has to: a thread in
    [JoinWait] waits exactly as long as the process it joins has not released
    it, and a thread in [ExitWait] exactly as long as its creator has not
    fetched its exit code. *)
Theorem join_and_exit_meet b s0 s G me th a id :
  fresh_bitmap b -> PTable_new b = Ok s0 -> reachable s0 s G -> threads s !! me = Some th ->
  (at_ th = JoinWait a id -> micro s me = Ok None <-> stage (where_ s a) = 0) /\
  (at_ th = ExitWait a id -> micro s me = Ok None <-> exists g, G !! me = Some g /\ joined g <> Joined).
Proof.
  intros Hb E0 HR Eth. pose proof (reachable_Inv b s0 s G Hb E0 HR) as HI.
  destruct (obj_thread _ _ _ (inv_obj _ _ HI me) th Eth) as (_ & _ & Hl).
  split; intros El; rewrite El in Hl; cbn [loc_ok] in Hl; unfold micro; rewrite Eth, El; unfold pcb_P.
  - destruct (joining_live s G me id Joining a HI Hl) as (g & p & _ & _ & _ & _ & _ & _ & _ & -> & (H1 & _ & _) & _); [done|].
    cbn [mbind outcome_bind]. rewrite H1. destruct (Z.eqb_spec (stage (where_ s a)) 0); by cbn.
  - destruct Hl as (H0 & -> & _ & ->). destruct (exit_self s G me th HI Eth ltac:(by rewrite El) H0) as (g & p & Hg & _ & _ & -> & _ & Hsem).
    cbn [mbind outcome_bind]. rewrite El in Hsem. unfold sems_ok in Hsem. cbn in Hsem. rewrite Hg.
    destruct (joined g) eqn:Ej; destruct Hsem as (_ & -> & _); cbn; (split; [intros H; (done || (exists g; split; [done|congruence]))|]); try done.
    intros (g' & [= <-] & Hn). congruence.
Qed.

(** An [Exec] that is refused for its name still takes a slot of the table:
    the bit that [GetFreeSlot] marked is not cleared, no PCB uses it and no exit
    will free it, so that the number of processes that can ever be created goes
    down by one. *)
Theorem refused_exec_leaks_slot s me th name :
  al_wf (bm s) -> count_clear (al_bits (bm s)) <> 0%nat -> threads s !! me = Some th -> at_ th = ExecSlot name ->
  name = scheduler_name \/ names s !! me = Some name ->
  exists s', micro s me = Ok (Some s') /\ at_ <$> threads s' !! me = Some (ExecUnlock (-1) None) /\
    pcb s' = pcb s /\ heap s' = heap s /\ S (count_clear (al_bits (bm s'))) = count_clear (al_bits (bm s)).
Proof.
  intros Hwf Hc Eth El Href. unfold micro. rewrite Eth, El. unfold exec_slot.
  destruct (first_clear (al_bits (bm s))) as [i|] eqn:Ef; [|apply first_clear_None in Ef; done].
  destruct (al_Find_free (bm s) i Hwf Ef) as (b & -> & _ & Hb). cbn [mbind outcome_bind].
  rewrite (proj2 (Z.ltb_ge (Z.of_nat i) 0)) by lia. cbn [orb].
  assert ((if bool_decide (name = scheduler_name) then Ok true else nm ← getName (set_bm s b) me; Ok (bool_decide (name = nm))) = Ok true) as ->.
  { destruct Href as [->|Hn]; [by rewrite bool_decide_true|]. unfold getName. cbn [names set_bm]. rewrite Hn. cbn [mbind outcome_bind].
    rewrite (bool_decide_true (name = name)) by done. by case_bool_decide. }
  cbn [mbind outcome_bind]. eexists. split; [done|]. rewrite (lookup_goto_me _ _ _ th) by done.
  split; [done|]. split; [done|]. split; [done|]. cbn [bm goto set_threads set_bm]. rewrite Hb.
  symmetry. by apply count_clear_insert_true, first_clear_Some.
Qed.

(** ** Runs of given programs *)

#[local] Instance phase_eq_dec : EqDecision phase.
Proof. solve_decision. Defined.

Definition allowedb s G (me : Z) (c : syscall) : bool :=
  match c with
  | CExec name => Nat.ltb (length name) 32
  | CJoin id =>
      match slot s id with
      | Ok a => match G !! a with
                | Some g => (creator g =? me) && (pid g =? id) && bool_decide (joined g = Unjoined)
                | None => false
                end
      | Fault _ => false
      end
  | CExit status => negb (status =? 0) || forallb (fun '(_, g) => negb (creator g =? me) || bool_decide (joined g = Joined)) (map_to_list G)
  end.
Definition in_userb s (me : Z) : bool :=
  match where_ s me with Some (User _) => true | _ => false end.

(** A schedule: who runs, and the call it makes when it is in its program. *)
Fixpoint play (keep : bool) (es : list (Z * option syscall)) s G : option (t T * gmap Z history) :=
  match es with
  | [] => Some (s, G)
  | (me, Some c) :: es' =>
      if in_userb s me && (negb keep || allowedb s G me c) then
        match call s me c with Ok s' => play keep es' s' (note_call s G me c) | Fault _ => None end
      else None
  | (me, None) :: es' =>
      match micro s me with Ok (Some s') => play keep es' s' (note_micro s G me s') | _ => None end
  end.

Lemma in_userb_ok s me : in_userb s me = true -> in_user s me.
Proof.
  unfold in_userb, in_user, where_. destruct (threads s !! me) as [[i l]|]; [|done]. cbn. destruct l; try done.
  intros _. by eexists _, _.
Qed.

Lemma allowedb_ok s G me c : allowedb s G me c = true -> allowed s G me c.
Proof.
  destruct c as [name|id|ec]; cbn [allowedb allowed].
  - by rewrite Nat.ltb_lt.
  - destruct (slot s id) as [a|]; [|done]. destruct (G !! a) as [g|] eqn:Eg; [|done].
    rewrite !andb_true_iff, !Z.eqb_eq, bool_decide_eq_true. intros [[? ?] ?]. by exists a, g.
  - intros H ->. cbn in H. revert H. rewrite forallb_forall. intros H a g Hg Hc.
    assert (In (a, g) (map_to_list G)) as Hin by (by apply list_elem_of_In, elem_of_map_to_list).
    specialize (H _ Hin). cbn in H. rewrite Hc, Z.eqb_refl in H. cbn in H. by apply bool_decide_eq_true in H.
Qed.

Lemma play_reachable s0 es : forall s G s' G',
  reachable s0 s G -> play true es s G = Some (s', G') -> reachable s0 s' G'.
Proof.
  induction es as [|[me [c|]] es IH]; intros s G s' G' HR; cbn [play negb orb].
  - by intros [= <- <-].
  - destruct (in_userb s me) eqn:Eu; [|done]. destruct (allowedb s G me c) eqn:Ea; [|done]. cbn [andb].
    destruct (call s me c) as [s1|] eqn:Ec; [|done]. apply IH.
    apply (reach_call s0 s G me c); auto using in_userb_ok, allowedb_ok.
  - destruct (micro s me) as [[s1|]|] eqn:Em; [|done..]. apply IH. by apply (reach_micro s0 s G me).
Qed.

Lemma play_steps keep es : forall s G s' G', play keep es s G = Some (s', G') -> rtc step s s'.
Proof.
  induction es as [|[me [c|]] es IH]; intros s G s' G'; cbn [play].
  - by intros [= <- <-].
  - destruct (in_userb s me) eqn:Eu; [|done]. destruct (_ || _); [|done]. cbn [andb].
    destruct (call s me c) as [s1|] eqn:Ec; [|done]. intros H. eapply rtc_l; [|by eapply IH].
    apply (step_call s me c); [by apply in_userb_ok|done].
  - destruct (micro s me) as [[s1|]|] eqn:Em; [|done..]. intros H. eapply rtc_l; [|by eapply IH]. by apply (step_micro s me).
Qed.

End protocol.

(** The table that threads/system.cc creates. *)
Lemma PTable_fresh raw : exists b s0, PTable raw 10 = Ok s0 /\ PTable_new b = Ok s0 /\ fresh_bitmap b.
Proof.
  unfold PTable. destruct (BitMap.BitMap_spec raw 10 ltac:(done)) as (b & -> & Hwf & Hn & Hb). cbn [mbind outcome_bind].
  destruct (BitMap.Mark_spec b 0 Hwf) as (b' & E & Hwf' & _ & Hb'); [rewrite Hn; lia|]. change (Z.of_nat 0) with 0 in E. rewrite E.
  cbn [mbind outcome_bind]. eexists b', _. split; [reflexivity|]. split; [reflexivity|]. split; [exact Hwf'|].
  change (al_bits b') with (BitMap.bits b'). rewrite Hb', Hb. done.
Qed.

(** A schedule of the main program (process 0), which creates a process and
    joins it, and of that process (at address 1), which exits. *)
Definition pieces (n : nat) (me : Z) : list (Z * option syscall) := replicate n (me, None).
Definition demo_create : list (Z * option syscall) := (0, Some (CExec [47; 97])) :: pieces 7 0.
Definition demo_join : list (Z * option syscall) :=
  demo_create ++ (0, Some (CJoin 1)) :: pieces 4 0 ++ (1, Some (CExit 7)) :: (1, Some (CExit 0)) :: pieces 4 1.

Definition demo_bitmap : BitMap.t := BitMap.mk 10 1 [1].
Lemma demo_bitmap_fresh : fresh_bitmap demo_bitmap.
Proof.
  split; [|split; vm_compute; reflexivity]. split; [done|]. split; [done|]. split; [done|].
  constructor; [by vm_compute|constructor].
Qed.
Definition demo_start : t BitMap.t :=
  match PTable_new demo_bitmap with Ok s => s | Fault _ => mk demo_bitmap [] 0 ∅ ∅ ∅ 0 end.
Definition demo_state (es : list (Z * option syscall)) : t BitMap.t * gmap Z history :=
  match play true es demo_start ∅ with Some r => r | None => (demo_start, ∅) end.

Lemma demo_reachable es : (if play true es demo_start ∅ then true else false) = true ->
  reachable demo_start (demo_state es).1 (demo_state es).2.
Proof.
  intros H. unfold demo_state. destruct (play true es demo_start ∅) as [[s G]|] eqn:E; [|done].
  apply (play_reachable demo_start es demo_start ∅); [constructor|exact E].
Qed.

(** The main program waits in its join; then it goes on.  When the new process calls
    [Exec] after the main program has returned from its own, the exception happens. *)
Definition demo_nested : list (Z * option syscall) := demo_create ++ (1, Some (CExec [47; 98])) :: pieces 1 1.


(** [Exec] from a process that was itself started by [Exec] reads the name of the
    calling thread after it was deleted. *)
Lemma nested_exec_reads_freed_name :
  micro (demo_state demo_join).1 0 <> Fault BadAccess /\ micro (demo_state demo_nested).1 1 = Fault BadAccess.
Proof. split; [vm_compute; discriminate|vm_compute; reflexivity]. Qed.

Lemma join_returns_exit_code_witness :
  exists s', micro (demo_state (demo_join ++ pieces 1 0)).1 0 = Ok (Some s') /\ threads s' !! 0 = Some (mkThread 0 (User 0)).
Proof.
  set (st := demo_state (demo_join ++ pieces 1 0)).
  destruct (join_returns_exit_code demo_bitmap demo_start st.1 st.2 0 (mkThread 0 (JoinFetch 1)) 1 demo_bitmap_fresh) as (a & g & s' & _ & _ & _ & _ & _ & Em & Et).
  - vm_compute. reflexivity.
  - apply demo_reachable. vm_compute. reflexivity.
  - vm_compute. reflexivity.
  - reflexivity.
  - exists s'. split; [exact Em|exact Et].
Defined.

Lemma join_and_exit_meet_witness :
  exists a, at_ <$> threads (demo_state (demo_create ++ (0, Some (CJoin 1)) :: pieces 4 0)).1 !! 0 = Some (JoinWait a 1) /\
    micro (demo_state (demo_create ++ (0, Some (CJoin 1)) :: pieces 4 0)).1 0 = Ok None.
Proof.
  set (st := demo_state (demo_create ++ (0, Some (CJoin 1)) :: pieces 4 0)).
  assert (Eth : threads st.1 !! 0 = Some (mkThread 0 (JoinWait 1 1))) by (vm_compute; reflexivity).
  exists 1. split; [rewrite Eth; reflexivity|].
  destruct (join_and_exit_meet demo_bitmap demo_start st.1 st.2 0 (mkThread 0 (JoinWait 1 1)) 1 1 demo_bitmap_fresh ltac:(vm_compute; reflexivity)
    ltac:(apply demo_reachable; vm_compute; reflexivity) Eth) as [H _].
  apply (H eq_refl). vm_compute. reflexivity.
Defined.

Lemma refused_exec_leaks_slot_witness :
  exists s s', threads s !! 0 = Some (mkThread 0 (ExecSlot scheduler_name)) /\ micro s 0 = Ok (Some s') /\
    S (count_clear (al_bits (bm s'))) = count_clear (al_bits (bm s)).
Proof.
  exists (goto demo_start 0 (ExecSlot scheduler_name)).
  destruct (refused_exec_leaks_slot (goto demo_start 0 (ExecSlot scheduler_name)) 0
    (mkThread 0 (ExecSlot scheduler_name)) scheduler_name) as (s' & E & _ & _ & _ & H).
  - exact (proj1 demo_bitmap_fresh).
  - vm_compute. discriminate.
  - vm_compute. reflexivity.
  - reflexivity.
  - by left.
  - exists s'. split; [vm_compute; reflexivity|]. split; [exact E|exact H].
Defined.

(** The main program creates A; A creates B, while the main program has not returned
    from its [Exec]; the main program joins A and A exits. *)
Definition demo_orphan : list (Z * option syscall) :=
  (0, Some (CExec [47; 97])) :: pieces 6 0 ++ (1, Some (CExec [47; 98])) :: pieces 2 1 ++ pieces 1 0 ++ pieces 5 1 ++ (0, Some (CJoin 1)) :: pieces 4 0 ++
  (1, Some (CExit 0)) :: pieces 4 1 ++ pieces 2 0 ++ pieces 3 1.

Lemma demo_orphan_faults :
  match play false demo_orphan demo_start ∅ with
  | Some (s, _) =>
      in_userb s 2 &&
      match call s 2 (CExit 0) with
      | Ok s' => match micro s' 2 with Fault BadAccess => true | _ => false end
      | Fault _ => false
      end
  | None => false
  end = true.
Proof. vm_compute. reflexivity. Qed.

(** A process whose creator was removed cannot exit: there is a run after
    which a process calls [Exit] and [ExitUpdate] follows [pcb[parentID]] to the
    deleted PCB of its creator. *)
Theorem orphan_exit_uses_freed_pcb : exists s me s',
  rtc step demo_start s /\ in_user s me /\ call s me (CExit 0) = Ok s' /\ micro s' me = Fault BadAccess.
Proof.
  pose proof demo_orphan_faults as H. destruct (play false demo_orphan demo_start ∅) as [[s G]|] eqn:E; [|discriminate H].
  apply play_steps in E. apply andb_true_iff in H as [Hu H]. exists s, 2. revert H.
  destruct (call s 2 (CExit 0)) as [s'|] eqn:Ec; [|discriminate]. intros H. exists s'. split; [exact E|].
  split; [by apply in_userb_ok|]. split; [reflexivity|]. destruct (micro s' 2) as [r|f]; [discriminate H|].
  destruct f; (discriminate H || reflexivity).
Qed.

End Protocol.
