(* ===== verification/STables.v ===== *)
(** * userprog/stable.{h,cc}: semaphores by name

    [STable.t] is class [STable]: a bitmap of the slots in use and the table of
    named semaphores.  The semaphores themselves are those of [Threads.v], by
    their addresses; the address of a new one is an argument of [Create]. *)

From S2P Require Import Prelude Allocator Bitmap Threads.

Local Open Scope Z_scope.

Module STable.

Definition MAX_SEMAPHORE : Z := 10.

(** Class [Sem]: [char name[50]] and a semaphore. *)
Record Sem := mkSem { name : list Z; sem : Z }.

Record t (T : Type) := mk { bm : T; semTab : list (option Sem) }.
Arguments mk {T}. Arguments bm {T}. Arguments semTab {T}.

Section operations.
Context {T : Type} `{AL : Allocator T}.
Implicit Types tb : t T.
Implicit Types k : Kernel.t.

(** [Sem::Sem]: [strcpy] into the array, and the new semaphore at [addr]. *)
Definition Sem_new k (na : list Z) (i addr : Z) : outcome (Kernel.t * Sem) :=
  if 50 <=? Z.of_nat (length na) then Fault BadAccess
  else Ok (Kernel.Semaphore_new k addr i, mkSem na addr).

(** [Sem::Wait] and [Sem::Signal] *)
Definition Sem_Wait k (x : Sem) : outcome Kernel.t := Kernel.P k (sem x).
Definition Sem_Signal k (x : Sem) : outcome Kernel.t := Kernel.V k (sem x).

(** [STable::STable] given the new bitmap. *)
Definition STable_new (b : T) : t T := mk b (replicate (Z.to_nat MAX_SEMAPHORE) None).

(** The loop all operations share: the entry in use with the given name. *)
Fixpoint find_name (n : nat) (i : Z) tb (nm : list Z) : outcome (option Sem) :=
  match n with
  | O => Ok None
  | S n' =>
      busy ← al_Test (bm tb) i;
      if busy : bool then
        x ← rd (semTab tb) i;
        match x with
        | None => Fault BadAccess
        | Some x => if bool_decide (nm = name x) then Ok (Some x) else find_name n' (i + 1) tb nm
        end
      else find_name n' (i + 1) tb nm
  end.
Definition find_sem tb (nm : list Z) : outcome (option Sem) := find_name (Z.to_nat MAX_SEMAPHORE) 0 tb nm.

Definition FindFreeSlot tb : outcome (Z * t T) :=
  '(i, b) ← al_Find (bm tb); Ok (i, mk b (semTab tb)).

Definition Create k tb (nm : list Z) (init addr : Z) : outcome (Kernel.t * t T * Z) :=
  r ← find_sem tb nm;
  match r with
  | Some _ => Ok (k, tb, -1)
  | None =>
      '(id, tb) ← FindFreeSlot tb;
      if id <? 0 then Ok (k, tb, -1)
      else
        '(k, x) ← Sem_new k nm init addr;
        tab ← wr (semTab tb) id (Some x);
        Ok (k, mk (bm tb) tab, 0)
  end.

(** The kernel after the call of [P]: the thread that made it may be waiting. *)
Definition Wait k tb (nm : list Z) : outcome (Kernel.t * Z) :=
  r ← find_sem tb nm;
  match r with
  | Some x => k ← Sem_Wait k x; Ok (k, 0)
  | None => Ok (k, -1)
  end.

Definition Signal k tb (nm : list Z) : outcome (Kernel.t * Z) :=
  r ← find_sem tb nm;
  match r with
  | Some x => k ← Sem_Signal k x; Ok (k, 0)
  | None => Ok (k, -1)
  end.

(** ** Specification: a finite map from names to semaphores *)

Definition in_use tb : list Sem := omap id (semTab tb).
Definition view tb : gmap (list Z) Z := list_to_map ((fun x => (name x, sem x)) <$> in_use tb).

(** A slot is marked exactly when it holds a semaphore; names are different, and
    the semaphores exist. *)
Record wf k tb : Prop := {
  wf_bm : al_wf (bm tb);
  wf_length : Z.of_nat (length (semTab tb)) = MAX_SEMAPHORE;
  wf_bits : al_bits (bm tb) = (fun x => bool_decide (is_Some x)) <$> semTab tb;
  wf_names : NoDup (name <$> in_use tb);
  wf_sems x : x ∈ in_use tb -> is_Some (Kernel.sems k !! sem x);
}.

Context `{!AllocatorLaws T}.

Lemma elem_of_in_use tb x : x ∈ in_use tb <-> Some x ∈ semTab tb.
Proof. unfold in_use. rewrite list_elem_of_omap. unfold id. split; [by intros (y & ? & ->)|by exists (Some x)]. Qed.

Lemma view_Some k tb nm i : wf k tb -> view tb !! nm = Some i <-> mkSem nm i ∈ in_use tb.
Proof.
  intros Hwf. unfold view. rewrite <- elem_of_list_to_map.
  - rewrite list_elem_of_fmap. split; [intros ([] & [= -> ->] & ?); done|]. intros ?. by exists (mkSem nm i).
  - rewrite <- list_fmap_compose. apply (wf_names _ _ Hwf).
Qed.

(** The loop finds the entry with the name, if there is one. *)
Lemma find_name_ok k tb nm n : forall i, wf k tb -> i + Z.of_nat n = MAX_SEMAPHORE -> 0 <= i ->
  (forall j x, (j < Z.to_nat i)%nat -> semTab tb !! j = Some (Some x) -> name x <> nm) ->
  exists r, find_name n i tb nm = Ok r /\
    match r with
    | Some x => x ∈ in_use tb /\ name x = nm
    | None => forall x, x ∈ in_use tb -> name x <> nm
    end.
Proof.
  induction n as [|n IH]; intros i Hwf Hn Hi Hpre; cbn [find_name]; pose proof (wf_length _ _ Hwf) as Hlen.
  - exists None. split; [done|]. intros x [j Hj]%elem_of_in_use%list_elem_of_lookup. apply (Hpre j); [|done].
    apply lookup_lt_Some in Hj. lia.
  - destruct (lookup_lt_is_Some_2 (semTab tb) (Z.to_nat i)) as [x Hx]; [unfold MAX_SEMAPHORE in *; lia|].
    assert (Hb : al_bits (bm tb) !! Z.to_nat i = Some (bool_decide (is_Some x))).
    { by rewrite (wf_bits _ _ Hwf), list_lookup_fmap, Hx. }
    pose proof (al_Test_ok _ _ _ (wf_bm _ _ Hwf) Hb) as HT. rewrite Z2Nat.id in HT by lia. rewrite HT. cbn [mbind outcome_bind].
    assert (Hstep : (forall y, x = Some y -> name y <> nm) ->
      exists r, find_name n (i + 1) tb nm = Ok r /\
        match r with Some x => x ∈ in_use tb /\ name x = nm | None => forall x, x ∈ in_use tb -> name x <> nm end).
    { intros Hne. apply IH; [done|lia|lia|]. intros j y Hj Hy. destruct (decide (j = Z.to_nat i)) as [->|]; [|apply (Hpre j); [lia|done]].
      apply Hne. congruence. }
    destruct x as [x|]; cbn [bool_decide].
    + rewrite bool_decide_true by (by eexists). rewrite (rd_lookup _ _ _ Hi Hx). cbn [mbind outcome_bind].
      destruct (bool_decide_reflect (nm = name x)) as [->|Hne].
      * exists (Some x). split; [done|]. split; [|done]. apply elem_of_in_use, list_elem_of_lookup. by exists (Z.to_nat i).
      * apply Hstep. intros y [= <-]. congruence.
    + rewrite bool_decide_false by (by intros [? [=]]). apply Hstep. done.
Qed.

Lemma find_sem_ok k tb nm : wf k tb -> find_sem tb nm = Ok (mkSem nm <$> view tb !! nm).
Proof.
  intros Hwf. unfold find_sem.
  destruct (find_name_ok k tb nm (Z.to_nat MAX_SEMAPHORE) 0) as (r & -> & Hr); [done|done|done|intros; lia|].
  f_equal. destruct r as [x|].
  - destruct Hr as [Hin <-]. assert (view tb !! name x = Some (sem x)) as ->; [|by destruct x].
    apply (view_Some k); [done|]. by destruct x.
  - destruct (view tb !! nm) as [i|] eqn:Ev; [|done]. apply (view_Some k) in Ev; [|done]. by specialize (Hr _ Ev).
Qed.

(** Putting an entry into a free slot. *)
Lemma omap_insert_free {A} (l : list (option A)) i x :
  l !! i = Some None -> omap id (<[i := Some x]> l) ≡ₚ x :: omap id l.
Proof.
  revert i. induction l as [|y l IH]; intros [|i]; cbn; [done|done|by intros [= ->]|].
  intros Hi. specialize (IH i Hi). destruct y as [y|]; cbn [id]; [|done]. rewrite IH. apply Permutation_swap.
Qed.

Lemma count_clear_slots {A} (l : list (option A)) :
  (count_clear ((fun x => bool_decide (is_Some x)) <$> l) + length (omap id l) = length l)%nat.
Proof. induction l as [|[x|] l IH]; [done|cbn in *; lia|cbn in *; lia]. Qed.

Lemma size_view k tb : wf k tb -> size (view tb) = length (in_use tb).
Proof.
  intros Hwf. unfold view. rewrite map_size_list_to_map, length_fmap; [done|].
  rewrite <- list_fmap_compose. apply (wf_names _ _ Hwf).
Qed.

Lemma view_insert tb tb' nm addr :
  NoDup (name <$> in_use tb) -> nm ∉ (name <$> in_use tb) -> in_use tb' ≡ₚ mkSem nm addr :: in_use tb ->
  view tb' = <[nm := addr]> (view tb).
Proof.
  intros Hnd Hnew Hp. unfold view. rewrite (list_to_map_proper _ ((nm, addr) :: ((fun x => (name x, sem x)) <$> in_use tb))).
  - done.
  - rewrite <- list_fmap_compose. rewrite Hp. cbn. by apply NoDup_cons_2.
  - by rewrite Hp.
Qed.

Lemma Create_ok k tb nm init addr :
  wf k tb -> (length nm < 50)%nat -> Kernel.sems k !! addr = None ->
  match view tb !! nm with
  | Some _ => Create k tb nm init addr = Ok (k, tb, -1)
  | None =>
      if Z.of_nat (size (view tb)) =? MAX_SEMAPHORE then Create k tb nm init addr = Ok (k, tb, -1)
      else exists tb', Create k tb nm init addr = Ok (Kernel.Semaphore_new k addr init, tb', 0) /\
             wf (Kernel.Semaphore_new k addr init) tb' /\ view tb' = <[nm := addr]> (view tb)
  end.
Proof.
  intros Hwf Hl Hfresh. unfold Create. rewrite (find_sem_ok k) by done. cbn [mbind outcome_bind].
  destruct (view tb !! nm) as [i|] eqn:Ev; cbn [fmap option_fmap option_map]; [done|].
  pose proof (count_clear_slots (semTab tb)) as Hcc. rewrite <- (wf_bits _ _ Hwf) in Hcc.
  pose proof (size_view k tb Hwf) as Hsz. unfold in_use in Hsz. pose proof (wf_length _ _ Hwf) as Hlen.
  unfold FindFreeSlot. destruct (first_clear (al_bits (bm tb))) as [i|] eqn:Ef.
  - assert (Hc0 : count_clear (al_bits (bm tb)) <> 0%nat) by (intros E; apply first_clear_None in E; congruence).
    rewrite (proj2 (Z.eqb_neq _ _)) by lia.
    destruct (al_Find_free (bm tb) i (wf_bm _ _ Hwf) Ef) as (b & -> & Hwb & Hb). cbn [mbind outcome_bind].
    rewrite (proj2 (Z.ltb_ge (Z.of_nat i) 0)) by lia. unfold Sem_new. rewrite (proj2 (Z.leb_gt 50 _)) by lia. cbn [mbind outcome_bind].
    apply first_clear_Some in Ef as [Ei _]. rewrite (wf_bits _ _ Hwf), list_lookup_fmap in Ei.
    destruct (semTab tb !! i) as [[x|]|] eqn:Es; try done. pose proof (lookup_lt_Some _ _ _ Es).
    cbn [semTab]. rewrite wr_ok by lia. cbn [mbind outcome_bind bm]. rewrite Nat2Z.id.
    pose proof (omap_insert_free (semTab tb) i (mkSem nm addr) Es) as Hp.
    assert (Hnew : nm ∉ (name <$> in_use tb)).
    { intros ([n0 i0] & -> & Hx)%list_elem_of_fmap. cbn in *. apply (view_Some k) in Hx; [|done]. congruence. }
    eexists. split; [done|]. split; [split|].
    + done.
    + cbn. by rewrite length_insert.
    + cbn. by rewrite Hb, (wf_bits _ _ Hwf), list_fmap_insert.
    + unfold in_use. cbn [semTab]. rewrite Hp. cbn. apply NoDup_cons_2; [done|]. apply (wf_names _ _ Hwf).
    + intros x. unfold in_use. cbn [semTab]. rewrite Hp. intros [-> | Hx]%elem_of_cons; cbn.
      * rewrite lookup_insert_eq. by eexists.
      * destruct (wf_sems _ _ Hwf x Hx) as [y Hy]. rewrite lookup_insert_ne; [by eexists|congruence].
    + apply view_insert; [apply (wf_names _ _ Hwf)|done|done].
  - pose proof (proj1 (first_clear_None _) Ef). rewrite (proj2 (Z.eqb_eq _ _)) by lia.
    rewrite (al_Find_full (bm tb) (wf_bm _ _ Hwf) Ef). cbn [mbind outcome_bind]. cbn [Z.ltb Z.compare]. by destruct tb.
Qed.

(** C32: the table of semaphores is a finite map from names to semaphores, and
    the system calls on it are the kernel's own: [Create] adds a new semaphore
    with the given value under a name that is not in the map, and answers -1 and changes nothing
    when the name is taken or all ten slots are; [Wait] and [Signal] are [P]
    and [V] of the semaphore the map gives for the name, and answer -1 and
    change nothing when there is none.  Every change of the kernel is one of its
    steps, so that what [Threads.v] shows of semaphores holds of named ones. *)
Theorem semaphore_table_is_a_map k tb nm init addr :
  wf k tb -> (length nm < 50)%nat -> Kernel.sems k !! addr = None -> is_s32 init -> Kernel.idle k = false ->
  match view tb !! nm with
  | Some _ => Create k tb nm init addr = Ok (k, tb, -1)
  | None =>
      if Z.of_nat (size (view tb)) =? MAX_SEMAPHORE then Create k tb nm init addr = Ok (k, tb, -1)
      else exists k' tb', Create k tb nm init addr = Ok (k', tb', 0) /\ k' = Kernel.Semaphore_new k addr init /\ Kernel.step k k' /\
             wf k' tb' /\ view tb' = <[nm := addr]> (view tb)
  end /\
  match view tb !! nm with
  | Some i =>
      Wait k tb nm = (k' ← Kernel.P k i; Ok (k', 0)) /\ Signal k tb nm = (k' ← Kernel.V k i; Ok (k', 0)) /\
      (forall k', Kernel.P k i = Ok k' \/ Kernel.V k i = Ok k' -> Kernel.step k k')
  | None => Wait k tb nm = Ok (k, -1) /\ Signal k tb nm = Ok (k, -1)
  end.
Proof.
  intros Hwf Hl Hf Hi Hid. split.
  - pose proof (Create_ok k tb nm init addr Hwf Hl Hf) as H. destruct (view tb !! nm); [done|].
    destruct (_ =? _); [done|]. destruct H as (tb' & E & ? & ?). eexists _, tb'. split; [exact E|].
    split; [done|]. split; [by apply Kernel.step_semaphore|done].
  - unfold Wait, Signal. rewrite (find_sem_ok k) by done. cbn [mbind outcome_bind].
    destruct (view tb !! nm) as [i|] eqn:Ev; cbn [fmap option_fmap option_map]; [|done].
    split; [done|]. split; [done|]. apply (view_Some k) in Ev; [|done]. pose proof (wf_sems _ _ Hwf _ Ev) as Hs.
    intros k' [E|E]; [by apply (Kernel.step_P k i)|by apply (Kernel.step_V k i)].
Qed.

Lemma STable_new_wf k b : al_wf b -> al_bits b = replicate (Z.to_nat MAX_SEMAPHORE) false -> wf k (STable_new b).
Proof. intros Hb Hbits. split; try done; [constructor|]. intros x Hx. by apply elem_of_nil in Hx. Qed.

End operations.

(** C32 at the table that threads/system.cc creates. *)
Lemma semaphore_table_is_a_map_witness : exists (b : BitMap.t) k' tb',
  Create (Kernel.boot 1) (STable_new b) [109; 116; 120] 1 7 = Ok (k', tb', 0) /\
  view tb' = {[ [109; 116; 120] := 7 ]} /\ Wait (Kernel.boot 1) (STable_new b) [109] = Ok (Kernel.boot 1, -1).
Proof.
  destruct (BitMap.BitMap_spec (fun i => i) 10 ltac:(done)) as (b & _ & Hwf & _ & Hb). exists b.
  pose proof (STable_new_wf (Kernel.boot 1) b Hwf Hb) as Hw.
  destruct (semaphore_table_is_a_map (Kernel.boot 1) (STable_new b) [109; 116; 120] 1 7 Hw) as [(k' & tb' & E & _ & _ & _ & Hv) _];
    [cbn; lia|done|done|done|].
  destruct (semaphore_table_is_a_map (Kernel.boot 1) (STable_new b) [109] 1 7 Hw) as [_ [HW _]]; [cbn; lia|done|done|done|].
  exists k', tb'. split; [exact E|]. split; [rewrite Hv; reflexivity|exact HW].
Defined.

End STable.
