(* ===== verification/Startup.v ===== *)
(** * threads/main.cc, threads/system.cc, threads/utility.cc: starting Nachos

    [main] reads the command line twice: [Initialize] takes the options from it
    and makes the global objects, then [main] itself runs the commands.  Both
    passes step over words they do not know one at a time.  The [#ifdef]s of the
    four builds are the fields of [build]; a command line is the list of the words
    after the name of the program.  [DebugInit] and the choice of the messages to
    print are modelled, printing is not. *)

From stdpp Require Import strings.
From S2P Require Import Prelude Allocator Bitmap MachineSim Threads InterruptSim ConsoleDev Processes ProcessProtocol STables.

Local Open Scope Z_scope.

Module Startup.

(** What the build defines. *)
Record build := mkBuild {
  THREADS : bool;
  USER_PROGRAM : bool;
  FILESYS_NEEDED : bool;
  FILESYS : bool;
  NETWORK : bool;
}.

Definition says (a : string) (flag : string) : bool := String.eqb a flag.

(** ** Numbers of the command line *)

(** [isspace] *)
Definition is_space (n : nat) : bool := (n =? 32)%nat || ((9 <=? n)%nat && (n <=? 13)%nat).

Fixpoint digits_value (s : string) (v : Z) : Z :=
  match s with
  | String c s' =>
      let n := Ascii.nat_of_ascii c in
      if (48 <=? n)%nat && (n <=? 57)%nat then digits_value s' (v * 10 + (Z.of_nat n - 48)) else v
  | EmptyString => v
  end.

(** [atoi] of the C library, which saturates. *)
Fixpoint atoi (s : string) : Z :=
  match s with
  | String c s' =>
      let n := Ascii.nat_of_ascii c in
      if is_space n then atoi s'
      else if (n =? 45)%nat then Z.max (- 2 ^ 31) (- digits_value s' 0)
      else if (n =? 43)%nat then Z.min (2 ^ 31 - 1) (digits_value s' 0)
      else Z.min (2 ^ 31 - 1) (digits_value s 0)
  | EmptyString => 0
  end.

(** ** The options *)

(** The variables of [Initialize]; [seed] is what [RandomInit] was last called
    with, and [rely] the word that is given to [atof]. *)
Record options := mkOptions {
  debugArgs : string;
  randomYield : bool;
  seed : option Z;
  debugUserProg : bool;
  format : bool;
  rely : option string;
  netname : Z;
}.

Definition no_options : options := mkOptions "" false None false false None 0.

Definition set_debugArgs (o : options) (x : string) : options :=
  mkOptions x (randomYield o) (seed o) (debugUserProg o) (format o) (rely o) (netname o).
Definition set_seed (o : options) (x : Z) : options :=
  mkOptions (debugArgs o) true (Some x) (debugUserProg o) (format o) (rely o) (netname o).
Definition set_debugUserProg (o : options) : options :=
  mkOptions (debugArgs o) (randomYield o) (seed o) true (format o) (rely o) (netname o).
Definition set_format (o : options) : options :=
  mkOptions (debugArgs o) (randomYield o) (seed o) (debugUserProg o) true (rely o) (netname o).
Definition set_rely (o : options) (x : string) : options :=
  mkOptions (debugArgs o) (randomYield o) (seed o) (debugUserProg o) (format o) (Some x) (netname o).
Definition set_netname (o : options) (x : Z) : options :=
  mkOptions (debugArgs o) (randomYield o) (seed o) (debugUserProg o) (format o) (rely o) x.

(** [ASSERT(argc > 1)] and [*(argv + 1)], for the words after the flag. *)
Definition parameter (rest : list string) : outcome string :=
  match rest with [] => Fault AssertFailed | x :: _ => Ok x end.

(** The body of the loop of [Initialize] at the word [a], which [rest] follows;
    it returns [argCount]. *)
Definition init_arg (b : build) (a : string) (rest : list string) (o : options) : outcome (options * nat) :=
  '(o, argCount) ←
    (if says a "-d" then
       match rest with
       | [] => Ok (set_debugArgs o "+", 1%nat)
       | x :: _ => Ok (set_debugArgs o x, 2%nat)
       end
     else if says a "-rs" then x ← parameter rest; Ok (set_seed o (atoi x), 2%nat)
     else Ok (o, 1%nat));
  let o := if USER_PROGRAM b && says a "-s" then set_debugUserProg o else o in
  let o := if FILESYS_NEEDED b && says a "-f" then set_format o else o in
  if NETWORK b && says a "-l" then x ← parameter rest; Ok (set_rely o x, 2%nat)
  else if NETWORK b && says a "-m" then x ← parameter rest; Ok (set_netname o (atoi x), 2%nat)
  else Ok (o, argCount).

Fixpoint init_args (fuel : nat) (b : build) (argv : list string) (o : options) : outcome options :=
  match fuel with
  | O => Fault OutOfFuel
  | S fuel' =>
      match argv with
      | [] => Ok o
      | a :: rest => '(o, argCount) ← init_arg b a rest o; init_args fuel' b (drop argCount argv) o
      end
  end.

(** The first half of [Initialize]. *)
Definition Initialize_options (b : build) (argv : list string) : outcome options :=
  init_args (S (length argv)) b argv no_options.

(** [DebugIsEnabled]; [enableFlags] is null before [DebugInit]. *)
Definition DebugIsEnabled (enableFlags : option string) (flag : Ascii.ascii) : bool :=
  match enableFlags with
  | Some s => bool_decide (flag ∈ String.list_ascii_of_string s) || bool_decide (Ascii.ascii_of_nat 43 ∈ String.list_ascii_of_string s)
  | None => false
  end.

(** ** The commands *)

Inductive command :=
| Copyright
| StartProcess (f : string)
| ConsoleTest (io : option (string * string))
| Copy (unixFile nachosFile : string)
| PrintFile (f : string)
| Remove (f : string)
| ListDirectory
| PrintFileSystem
| PerformanceTest
| MailTest (farAddr : Z).

(** How [main] ends: with [currentThread->Finish()], inside a command, or with a
    failed [ASSERT]. *)
Inductive ending := Finished | InCommand | Aborted.

(** The commands that were started, and the ending or [argCount] so far. *)
Definition progress : Type := list command * (ending + nat).

Definition go_on (p : progress) (f : nat -> progress) : progress :=
  match p with
  | (cs, inr k) => let '(cs', r) := f k in (cs ++ cs', r)
  | (cs, inl e) => (cs, inl e)
  end.

Section main.

(** Whether [StartProcess] finds the program: it comes back only if not. *)
Context (opens : string -> bool).

(** The three parts of the body of the loop of [main]. *)
Definition user_arg (b : build) (a : string) (rest : list string) : progress :=
  if USER_PROGRAM b && says a "-x" then
    match rest with
    | [] => ([], inl Aborted)
    | f :: _ => ([StartProcess f], if opens f then inl InCommand else inr 2%nat)
    end
  else if USER_PROGRAM b && says a "-c" then
    match rest with
    | [] => ([ConsoleTest None], inl InCommand)
    | [_] => ([], inl Aborted)
    | i :: o :: _ => ([ConsoleTest (Some (i, o))], inl InCommand)
    end
  else ([], inr 1%nat).

Definition filesys_arg (b : build) (a : string) (rest : list string) (argCount : nat) : progress :=
  if negb (FILESYS b) then ([], inr argCount)
  else if says a "-cp" then
    match rest with x :: y :: _ => ([Copy x y], inr 3%nat) | _ => ([], inl Aborted) end
  else if says a "-p" then
    match rest with x :: _ => ([PrintFile x], inr 2%nat) | [] => ([], inl Aborted) end
  else if says a "-r" then
    match rest with x :: _ => ([Remove x], inr 2%nat) | [] => ([], inl Aborted) end
  else if says a "-l" then ([ListDirectory], inr argCount)
  else if says a "-D" then ([PrintFileSystem], inr argCount)
  else if says a "-t" then ([PerformanceTest], inr argCount)
  else ([], inr argCount).

(** [MailTest] ends with [interrupt->Halt()]. *)
Definition network_arg (b : build) (a : string) (rest : list string) (argCount : nat) : progress :=
  if NETWORK b && says a "-o" then
    match rest with x :: _ => ([MailTest (atoi x)], inl InCommand) | [] => ([], inl Aborted) end
  else ([], inr argCount).

Definition main_arg (b : build) (a : string) (rest : list string) : progress :=
  go_on ((if says a "-z" then [Copyright] else []), inr 1%nat) (fun _ =>
  go_on (user_arg b a rest) (fun k =>
  go_on (filesys_arg b a rest k) (fun k => network_arg b a rest k))).

Fixpoint main_args (fuel : nat) (b : build) (argv : list string) : outcome (list command * ending) :=
  match fuel with
  | O => Fault OutOfFuel
  | S fuel' =>
      match argv with
      | [] => Ok ([], Finished)
      | a :: rest =>
          match main_arg b a rest with
          | (cs, inl e) => Ok (cs, e)
          | (cs, inr k) => '(cs', e) ← main_args fuel' b (drop k argv); Ok (cs ++ cs', e)
          end
      end
  end.

(** The loop of a THREADS build: [testnum], from [argv[0][1]]. *)
Fixpoint thread_args (fuel : nat) (argv : list string) (testnum : Z) : outcome Z :=
  match fuel with
  | O => Fault OutOfFuel
  | S fuel' =>
      match argv with
      | [] => Ok testnum
      | a :: rest =>
          match a with
          | EmptyString => Fault BadAccess
          | String _ (String c _) =>
              if (Ascii.nat_of_ascii c =? 113)%nat then
                match rest with
                | [] => Fault BadAccess
                | x :: rest' => thread_args fuel' rest' (atoi x)
                end
              else thread_args fuel' rest 1
          | String _ EmptyString => thread_args fuel' rest 1
          end
      end
  end.

(** [main]: the options, the number given to [ThreadTest], the commands and the
    ending.  After the loop of a THREADS build [argc] is 0, and [argc--] makes it
    negative: the loop over the commands does nothing. *)
Definition main (b : build) (argv : list string) : outcome (options * option Z * list command * ending) :=
  o ← Initialize_options b argv;
  if THREADS b then
    testnum ← thread_args (S (length argv)) argv 1;
    Ok (o, Some testnum, [], Finished)
  else
    '(cs, e) ← main_args (S (length argv)) b argv;
    Ok (o, None, cs, e).

End main.

(** ** The global objects of a user-program build *)

Record globals := mkGlobals {
  kernel : Kernel.t;
  interrupt : Interrupt.t Timer.t;
  machine : Machine.t;
  gSynchConsole : SynchConsole.t;
  gPhysPageBitMap : BitMap.t;
  pTab : Process.t BitMap.t;
  semTab : STable.t BitMap.t;
}.

(** The main thread and the semaphore [addrLock], at two addresses. *)
Definition main_thread : Z := 1.
Definition addrLock : Z := 2.

(** The second half of [Initialize].  [Random] and [Yield] are those of the timer
    and of [OneTick]; the uninitialised memory of the bit maps and of the machine
    is [raw]; [keys] is what will be typed. *)
Definition Initialize (Random : Z -> Z * Z) (Yield : Interrupt.t Timer.t -> outcome (Interrupt.t Timer.t))
    (raw : Z -> Z) (keys : list Z) (o : options) : outcome globals :=
  let i := Interrupt.Interrupt_new (Timer.mk (randomYield o) (default 0 (seed o))) in
  i ← (if randomYield o then Timer.Timer_new Random i 0 else Ok i);
  let k := Kernel.boot main_thread in
  i ← Interrupt.Enable (Timer.call Random) (fun w => Ok w) Yield i;
  let m := Machine.Machine_new (raw 0) (raw 1) (debugUserProg o) in
  let c := SynchConsole.SynchConsole_new keys in
  pages ← BitMap.BitMap raw 256;
  let k := Kernel.Semaphore_new k addrLock 1 in
  pt ← Process.PTable raw 10;
  b ← BitMap.BitMap raw STable.MAX_SEMAPHORE;
  Ok (mkGlobals k i m c pages pt (STable.STable_new b)).

(** ** Command lines *)

(** An option or a command with its parameters, and the words for it.  The usage
    in main.cc writes the reliability of the network as [IReliability]; system.cc
    reads it from [IRely]. *)
Inductive item :=
| IDebug (x : string) | ISeed (x : string) | IStep | IFormat | IRely (x : string) | IReliability (x : string) | INet (x : string)
| ICopyright | IRun (f : string) | IConsole (i o : string) | ICopy (x y : string) | IPrint (f : string)
| IRemove (f : string) | IList | IPrintAll | ITest | IMail (x : string).

Definition words (i : item) : list string :=
  match i with
  | IDebug x => ["-d"; x] | ISeed x => ["-rs"; x] | IStep => ["-s"] | IFormat => ["-f"]
  | IRely x => ["-l"; x] | IReliability x => ["-n"; x] | INet x => ["-m"; x]
  | ICopyright => ["-z"] | IRun f => ["-x"; f] | IConsole i o => ["-c"; i; o] | ICopy x y => ["-cp"; x; y]
  | IPrint f => ["-p"; f] | IRemove f => ["-r"; f] | IList => ["-l"] | IPrintAll => ["-D"] | ITest => ["-t"]
  | IMail x => ["-o"; x]
  end.

Definition command_line (its : list item) : list string := flat_map words its.

(** What an item means in a build: the change of the options, the command.  [-n]
    means nothing. *)
Definition option_of (b : build) (i : item) (o : options) : options :=
  match i with
  | IDebug x => set_debugArgs o x
  | ISeed x => set_seed o (atoi x)
  | IStep => if USER_PROGRAM b then set_debugUserProg o else o
  | IFormat => if FILESYS_NEEDED b then set_format o else o
  | IRely x => if NETWORK b then set_rely o x else o
  | INet x => if NETWORK b then set_netname o (atoi x) else o
  | _ => o
  end.

Definition command_of (b : build) (i : item) : option command :=
  match i with
  | ICopyright => Some Copyright
  | IRun f => if USER_PROGRAM b then Some (StartProcess f) else None
  | IConsole i o => if USER_PROGRAM b then Some (ConsoleTest (Some (i, o))) else None
  | ICopy x y => if FILESYS b then Some (Copy x y) else None
  | IPrint f => if FILESYS b then Some (PrintFile f) else None
  | IRemove f => if FILESYS b then Some (Remove f) else None
  | IList => if FILESYS b then Some ListDirectory else None
  | IPrintAll => if FILESYS b then Some PrintFileSystem else None
  | ITest => if FILESYS b then Some PerformanceTest else None
  | IMail x => if NETWORK b then Some (MailTest (atoi x)) else None
  | _ => None
  end.

Definition returns (opens : string -> bool) (c : command) : bool :=
  match c with
  | StartProcess f => negb (opens f)
  | ConsoleTest _ | MailTest _ => false
  | _ => true
  end.

(** The commands in their order, up to one that does not return. *)
Fixpoint run_items (opens : string -> bool) (b : build) (its : list item) : list command * ending :=
  match its with
  | [] => ([], Finished)
  | i :: its' =>
      match command_of b i with
      | None => run_items opens b its'
      | Some c => if returns opens c then let '(cs, e) := run_items opens b its' in (c :: cs, e) else ([c], InCommand)
      end
  end.

Definition flags : list string :=
  ["-d"; "-rs"; "-s"; "-f"; "-l"; "-m"; "-z"; "-x"; "-c"; "-cp"; "-p"; "-r"; "-D"; "-t"; "-o"].

(** A parameter that is not taken for a flag by the other pass. *)
Definition word (x : string) : Prop := x ∉ flags.

Definition parameters (i : item) : list string :=
  match words i with [] => [] | _ :: xs => xs end.

(** The flag [-l] has two meanings: it is unambiguous when the build has only one
    of them. *)
Definition proper (b : build) (i : item) : Prop :=
  Forall word (parameters i) /\
  match i with
  | IList => NETWORK b = false
  | IRely _ => FILESYS b = false
  | _ => True
  end.

#[export] Instance word_dec x : Decision (word x).
Proof. unfold word. apply _. Defined.
#[export] Instance proper_dec b i : Decision (proper b i).
Proof. unfold proper. destruct i; apply _. Defined.

(** ** The passes *)

Lemma says_refl a : says a a = true.
Proof. apply String.eqb_refl. Qed.

Lemma word_says x f : word x -> bool_decide (f ∈ flags) = true -> says x f = false.
Proof. intros Hx Hf%bool_decide_eq_true. unfold says. apply String.eqb_neq. intros ->. by apply Hx. Qed.

(** A parameter is passed over, by either pass. *)
Lemma init_arg_word b x rest o : word x -> init_arg b x rest o = Ok (o, 1%nat).
Proof.
  intros Hx. unfold init_arg. rewrite !(word_says x _ Hx), !andb_false_r by reflexivity. done.
Qed.

Lemma main_arg_word opens b x rest : word x -> main_arg opens b x rest = ([], inr 1%nat).
Proof.
  intros Hx. unfold main_arg, user_arg, filesys_arg, network_arg.
  rewrite !(word_says x _ Hx), !andb_false_r by reflexivity. cbn. by destruct (FILESYS b).
Qed.

Lemma init_args_words b o : forall xs fuel rest, Forall word xs ->
  init_args (length xs + fuel) b (xs ++ rest) o = init_args fuel b rest o.
Proof.
  induction xs as [|x xs IH]; intros fuel rest Hxs; [done|]. apply Forall_cons_1 in Hxs as [Hx Hxs].
  cbn [length Nat.add init_args app]. rewrite init_arg_word by done. cbn [mbind outcome_bind]. change (drop 1 (x :: xs ++ rest)) with (xs ++ rest). by apply IH.
Qed.

Lemma main_args_words opens b : forall xs fuel rest, Forall word xs ->
  main_args opens (length xs + fuel) b (xs ++ rest) = main_args opens fuel b rest.
Proof.
  induction xs as [|x xs IH]; intros fuel rest Hxs; [done|]. apply Forall_cons_1 in Hxs as [Hx Hxs].
  cbn [length Nat.add main_args app]. rewrite main_arg_word by done. change (drop 1 (x :: xs ++ rest)) with (xs ++ rest). rewrite IH by done.
  by destruct (main_args opens fuel b rest) as [[cs e]|].
Qed.

(** The flag of an item, by either pass: how many words it takes, and what it
    does. *)
Definition init_takes (b : build) (i : item) : nat :=
  match i with
  | IDebug _ | ISeed _ => 2
  | IRely _ | INet _ => if NETWORK b then 2 else 1
  | _ => 1
  end.

Lemma init_arg_item b i rest o : proper b i ->
  match words i with
  | [] => False
  | a :: xs => init_arg b a (xs ++ rest) o = Ok (option_of b i o, init_takes b i)
  end.
Proof.
  intros [_ Hp]. destruct b as [? [] [] [] []], i; first [discriminate Hp|reflexivity].
Qed.

Definition main_takes (b : build) (i : item) : nat :=
  match i with
  | IRun _ => if USER_PROGRAM b then 2 else 1
  | ICopy _ _ => if FILESYS b then 3 else 1
  | IPrint _ | IRemove _ => if FILESYS b then 2 else 1
  | _ => 1
  end.

Lemma main_arg_item opens b i rest : proper b i ->
  match words i with
  | [] => False
  | a :: xs => main_arg opens b a (xs ++ rest) =
      match command_of b i with
      | None => ([], inr (main_takes b i))
      | Some c => ([c], if returns opens c then inr (main_takes b i) else inl InCommand)
      end
  end.
Proof.
  intros [_ Hp]. destruct b as [? [] [] [] []], i; try discriminate Hp; try reflexivity;
    cbn; unfold main_arg, user_arg; cbn; by destruct (opens _).
Qed.

(** The parameters a flag does not take are passed over. *)
Lemma drop_item k (xs rest : list string) a :
  (1 <= k <= S (length xs))%nat -> drop k ((a :: xs) ++ rest) = drop (k - 1) xs ++ rest.
Proof.
  intros Hk. destruct k as [|k]; [lia|]. cbn [drop app Nat.sub]. rewrite Nat.sub_0_r. rewrite drop_app_le by lia. done.
Qed.

Lemma takes_bound b i : match words i with
  | [] => False
  | _ :: xs => (1 <= init_takes b i <= S (length xs))%nat /\ (1 <= main_takes b i <= S (length xs))%nat
  end.
Proof. destruct b as [? [] ? [] []], i; cbn; lia. Qed.

Lemma Forall_word_drop k xs : Forall word xs -> Forall word (drop k xs).
Proof. apply Forall_drop. Qed.

Lemma init_args_items b : forall its o fuel, Forall (proper b) its -> (length (command_line its) < fuel)%nat ->
  init_args fuel b (command_line its) o = Ok (foldl (fun o i => option_of b i o) o its).
Proof.
  induction its as [|i its IH]; intros o fuel Hp Hf.
  - by destruct fuel; [cbn in Hf; lia|].
  - apply Forall_cons_1 in Hp as [Hi Hp]. pose proof (init_arg_item b i (command_line its) o Hi) as Ha.
    pose proof (takes_bound b i) as Hk. destruct Hi as [Hw _]. unfold parameters in Hw.
    change (command_line (i :: its)) with (words i ++ command_line its) in *.
    destruct (words i) as [|a xs]; [done|]. destruct Hk as [Hk _]. rewrite length_app in Hf. cbn [length] in Hf.
    destruct fuel as [|fuel]; [lia|]. cbn [init_args app]. rewrite Ha. cbn [mbind outcome_bind].
    change (a :: xs ++ command_line its) with ((a :: xs) ++ command_line its). rewrite drop_item by done.
    set (ys := drop (init_takes b i - 1) xs). assert (length ys <= length xs)%nat by (unfold ys; rewrite length_drop; lia).
    replace fuel with (length ys + (fuel - length ys))%nat by lia.
    rewrite init_args_words by (by apply Forall_drop). cbn [foldl]. apply IH; [done|lia].
Qed.

Lemma main_args_items opens b : forall its fuel, Forall (proper b) its -> (length (command_line its) < fuel)%nat ->
  main_args opens fuel b (command_line its) = Ok (run_items opens b its).
Proof.
  induction its as [|i its IH]; intros fuel Hp Hf.
  - by destruct fuel; [cbn in Hf; lia|].
  - apply Forall_cons_1 in Hp as [Hi Hp]. pose proof (main_arg_item opens b i (command_line its) Hi) as Ha.
    pose proof (takes_bound b i) as Hk. destruct Hi as [Hw _]. unfold parameters in Hw.
    change (command_line (i :: its)) with (words i ++ command_line its) in *.
    destruct (words i) as [|a xs]; [done|]. destruct Hk as [_ Hk]. rewrite length_app in Hf. cbn [length] in Hf.
    destruct fuel as [|fuel]; [lia|]. cbn [main_args app run_items]. rewrite Ha.
    assert (Hrest : main_args opens fuel b (drop (main_takes b i) (a :: xs ++ command_line its)) = Ok (run_items opens b its)).
    { change (a :: xs ++ command_line its) with ((a :: xs) ++ command_line its). rewrite drop_item by done.
      set (ys := drop (main_takes b i - 1) xs). assert (length ys <= length xs)%nat by (unfold ys; rewrite length_drop; lia).
      replace fuel with (length ys + (fuel - length ys))%nat by lia.
      rewrite main_args_words by (by apply Forall_drop). apply IH; [done|lia]. }
    destruct (command_of b i) as [c|]; [destruct (returns opens c)|]; cbn [mbind outcome_bind]; rewrite ?Hrest;
      cbn [mbind outcome_bind]; try done; by destruct (run_items opens b its).
Qed.

(** ** Every command line *)

(** A word makes progress and takes no more words than there are. *)
Lemma init_arg_takes b a rest o o' k : init_arg b a rest o = Ok (o', k) -> (1 <= k <= S (length rest))%nat.
Proof.
  unfold init_arg, parameter. destruct rest as [|x rest];
    repeat (case_match; cbn [mbind outcome_bind length]; try discriminate); intros [= _ <-]; lia.
Qed.

Lemma init_args_total b : forall fuel argv o, (length argv < fuel)%nat ->
  match init_args fuel b argv o with Ok _ => True | Fault e => e = AssertFailed end.
Proof.
  induction fuel as [|fuel IH]; intros argv o Hf; [lia|]. cbn [init_args]. destruct argv as [|a rest]; [done|].
  destruct (init_arg b a rest o) as [[o' k]|e] eqn:E; cbn [mbind outcome_bind].
  - apply init_arg_takes in E. apply IH. rewrite length_drop. cbn [length] in *. lia.
  - unfold init_arg, parameter in E. destruct rest; repeat (case_match; cbn [mbind outcome_bind] in E; simplify_eq; try done).
Qed.

Lemma main_arg_takes opens b a rest cs k : main_arg opens b a rest = (cs, inr k) -> (1 <= k)%nat.
Proof.
  unfold main_arg, user_arg, filesys_arg, network_arg, go_on.
  repeat (case_match; simplify_eq; try done); intros; simplify_eq; lia.
Qed.

Lemma main_args_total opens b : forall fuel argv, (length argv < fuel)%nat ->
  exists cs e, main_args opens fuel b argv = Ok (cs, e).
Proof.
  induction fuel as [|fuel IH]; intros argv Hf; [lia|]. cbn [main_args]. destruct argv as [|a rest]; [by eexists _, _|].
  destruct (main_arg opens b a rest) as [cs [e|k]] eqn:E; [by eexists _, _|].
  apply main_arg_takes in E. destruct (IH (drop k (a :: rest))) as (cs' & e & ->); [rewrite length_drop; cbn [length] in *; lia|].
  cbn [mbind outcome_bind]. by eexists _, _.
Qed.

(** ** Theorems *)


Definition userprog : build := mkBuild false true true false false.


(** Reading the command line ends for every command line: with options, or with
    the failed [ASSERT] of a flag without its parameter; and so do the commands. *)
Theorem command_line_ends opens b argv : THREADS b = false ->
  match main opens b argv with Ok _ => True | Fault e => e = AssertFailed end.
Proof.
  intros Ht. unfold main, Initialize_options. pose proof (init_args_total b (S (length argv)) argv no_options ltac:(lia)) as Hi.
  destruct (init_args _ b argv no_options) as [o|e]; [|done]. cbn [mbind outcome_bind]. rewrite Ht.
  destruct (main_args_total opens b (S (length argv)) argv ltac:(lia)) as (cs & e & ->). done.
Qed.

(** The flag that main.cc documents for the reliability is none: [-n] is ignored;
    and in a build with the network [-l], the list command, is an error. *)
Theorem reliability_flag b x : word x ->
  Initialize_options b ["-n"; x] = Ok no_options /\
  (NETWORK b = true -> Initialize_options b ["-l"] = Fault AssertFailed).
Proof.
  intros Hx. split.
  - unfold Initialize_options. cbn [init_args length]. rewrite (init_arg_word b "-n") by (apply (bool_decide_unpack _); vm_compute; exact I).
    cbn [mbind outcome_bind drop]. rewrite init_arg_word by done. done.
  - destruct b as [? [] [] ? []]; done.
Qed.

(** In the build of the thread assignment no command is run, and the number
    after [-q] counts only if nothing follows it. *)
Theorem thread_build_arguments opens b x c d s :
  THREADS b = true -> Ascii.nat_of_ascii d <> 113%nat -> String c (String d s) ∉ flags -> word x ->
  main opens b ["-z"] = Ok (no_options, Some 1, [], Finished) /\
  main opens b ["-q"; x] = Ok (no_options, Some (atoi x), [], Finished) /\
  main opens b ["-q"; x; String c (String d s)] = Ok (no_options, Some 1, [], Finished).
Proof.
  intros Ht Hd Hw Hx. unfold main, Initialize_options. rewrite Ht.
  assert (Hq : word "-q") by (apply (bool_decide_unpack _); vm_compute; exact I).
  split; [by destruct b as [? [] [] ? []]|]. cbn [length init_args]. rewrite !(init_arg_word b "-q") by done. cbn [mbind outcome_bind drop].
  rewrite !(init_arg_word b x) by done. cbn [mbind outcome_bind drop]. rewrite (init_arg_word b (String c (String d s))) by done.
  cbn [mbind outcome_bind drop thread_args Ascii.nat_of_ascii]. split; [done|]. apply Nat.eqb_neq in Hd. by rewrite Hd.
Qed.

(** [Initialize] of a user-program build without [-rs] returns, and every object it
    makes satisfies the invariant its component starts from: the threads and
    semaphores, the registers and the memory, an idle console, a map of 256 free
    pages, the table of processes and an empty table of semaphores. *)
Theorem Initialize_establishes Random Yield raw keys o : randomYield o = false ->
  exists g, Initialize Random Yield raw keys o = Ok g /\
    Kernel.inv (kernel g) /\ Kernel.sems (kernel g) !! addrLock = Some (Kernel.mkSem 1 []) /\
    Interrupt.pending (interrupt g) = [] /\ Interrupt.level (interrupt g) = Interrupt.IntOn /\
    Machine.regs_ok (machine g) /\ Machine.mem_ok (machine g) /\ Machine.singleStep (machine g) = debugUserProg o /\
    SynchConsole.quiet (gSynchConsole g) /\ SynchConsole.typed (gSynchConsole g) = keys /\
    BitMap.wf (gPhysPageBitMap g) /\ BitMap.bits (gPhysPageBitMap g) = replicate 256 false /\
    Protocol.Inv (pTab g) ∅ /\ STable.wf (kernel g) (semTab g).
Proof.
  intros Hr. unfold Initialize. rewrite Hr. cbn [mbind outcome_bind].
  destruct (BitMap.BitMap_spec raw 256 ltac:(lia)) as (pages & Ep & Hpw & _ & Hpb).
  destruct (Protocol.PTable_fresh raw) as (b0 & pt & Et & Et' & Hf).
  destruct (BitMap.BitMap_spec raw STable.MAX_SEMAPHORE ltac:(done)) as (b & Eb & Hbw & _ & Hbb).
  rewrite Ep, Et, Eb. cbn [mbind outcome_bind]. eexists. split; [reflexivity|].
  cbn [kernel interrupt machine gSynchConsole gPhysPageBitMap pTab semTab].
  destruct (Machine.Machine_new_ok (raw 0) (raw 1) (debugUserProg o)) as [Hrg Hm].
  split; [apply Kernel.Semaphore_new_ok; [apply Kernel.boot_inv|done|unfold is_s32; lia]|].
  split; [apply lookup_insert_eq|]. do 2 (split; [done|]). split; [exact Hrg|]. split; [exact Hm|]. clear Hrg Hm.
  split; [reflexivity|]. split; [repeat split|]. split; [reflexivity|]. split; [done|]. split; [done|].
  split; [by eapply Protocol.Inv_start|by apply STable.STable_new_wf].
Qed.

End Startup.
