(* ===== verification/HostFiles.v ===== *)
(** * machine/sysdep.cc and the FILESYS_STUB classes: files of the host

    The build of userprog/ keeps its files in files of the host: classes
    [OpenFile] and [FileSystem] of filesys/openfile.h and filesys/filesys.h call
    the wrappers of machine/sysdep.cc, which call UNIX.  UNIX is a parameter, the
    class [Host]; [HostLaws] states what the manual says of [read], [write] and
    [lseek] on a regular file.  [UnixModel] shows that the laws can hold. *)

From S2P Require Import Prelude.

Local Open Scope Z_scope.

(** ** The system calls of the host *)

Class Host (H : Type) := {
  h_open : H -> list Z -> bool -> H * Z;        (* open; the flag adds O_CREAT|O_TRUNC *)
  h_read : H -> Z -> Z -> H * Z * list Z;       (* read: the result and the bytes *)
  h_write : H -> Z -> list Z -> H * Z;          (* write *)
  h_lseek : H -> Z -> Z -> Z -> H * Z;          (* lseek *)
  h_close : H -> Z -> H * Z;                    (* close *)
  h_unlink : H -> list Z -> H * Z;              (* unlink *)
  h_fd : H -> Z -> option (Z * Z);              (* the file and the offset of a descriptor *)
  h_data : H -> Z -> list Z;                    (* the bytes of a file *)
  h_name : H -> list Z -> option Z;             (* the file with a name *)
}.

Definition SEEK_SET : Z := 0.
Definition SEEK_CUR : Z := 1.
Definition SEEK_END : Z := 2.

(** The bytes of a file after a write at [off]; a gap is filled with zeros. *)
Definition written (off : nat) (bs data : list Z) : list Z :=
  take off (data ++ replicate (off - length data) 0) ++ bs ++ drop (off + length bs) data.

(** Only the offset of [fd] changes, to [off]. *)
Definition moved {H} `{Host H} (h h' : H) (fd ino off : Z) : Prop :=
  h_fd h' fd = Some (ino, off) /\ (forall fd', fd' <> fd -> h_fd h' fd' = h_fd h fd') /\ forall name, h_name h' name = h_name h name.

Class HostLaws (H : Type) `{Host H} := {
  h_read_ok h fd ino off n :
    h_fd h fd = Some (ino, off) -> 0 <= off -> 0 <= n ->
    let bs := slice (h_data h ino) (Z.to_nat off) (Z.to_nat n) in
    exists h', h_read h fd n = (h', Z.of_nat (length bs), bs) /\
      moved h h' fd ino (off + Z.of_nat (length bs)) /\ forall f, h_data h' f = h_data h f;
  h_write_ok h fd ino off bs :
    h_fd h fd = Some (ino, off) -> 0 <= off ->
    exists h', h_write h fd bs = (h', Z.of_nat (length bs)) /\
      moved h h' fd ino (off + Z.of_nat (length bs)) /\
      h_data h' ino = written (Z.to_nat off) bs (h_data h ino) /\
      forall f, f <> ino -> h_data h' f = h_data h f;
  h_lseek_ok h fd ino off pos whence :
    h_fd h fd = Some (ino, off) ->
    let target := if whence =? SEEK_SET then pos
                  else if whence =? SEEK_CUR then off + pos
                  else Z.of_nat (length (h_data h ino)) + pos in
    0 <= target -> 0 <= whence <= 2 ->
    exists h', h_lseek h fd pos whence = (h', target) /\ moved h h' fd ino target /\ forall f, h_data h' f = h_data h f;
}.

(** [open] and [close], as long as the host does not run out of descriptors or
    of space and the files may be read and written: a file that exists is opened
    at its start, with [O_TRUNC] it is emptied; one that does not exist is made
    with [O_CREAT] and refused without.  The descriptor is a new one. *)
Class HostOpenLaws (H : Type) `{Host H} := {
  h_open_existing h name create ino :
    h_name h name = Some ino ->
    exists h' fd, h_open h name create = (h', fd) /\ 0 <= fd /\ h_fd h fd = None /\ moved h h' fd ino 0 /\
      h_data h' ino = (if create then [] else h_data h ino) /\ forall f, f <> ino -> h_data h' f = h_data h f;
  h_open_new h name :
    h_name h name = None ->
    exists h' fd ino, h_open h name true = (h', fd) /\ 0 <= fd /\ h_fd h fd = None /\ h_fd h' fd = Some (ino, 0) /\
      (forall fd', fd' <> fd -> h_fd h' fd' = h_fd h fd') /\
      (forall name', h_name h name' <> Some ino) /\ h_name h' name = Some ino /\
      (forall name', name' <> name -> h_name h' name' = h_name h name') /\
      h_data h' ino = [] /\ forall f, f <> ino -> h_data h' f = h_data h f;
  h_open_missing h name :
    h_name h name = None ->
    exists h', h_open h name false = (h', -1) /\ (forall fd, h_fd h' fd = h_fd h fd) /\
      (forall name', h_name h' name' = h_name h name') /\ forall f, h_data h' f = h_data h f;
  h_close_ok h fd x :
    h_fd h fd = Some x ->
    exists h', h_close h fd = (h', 0) /\ h_fd h' fd = None /\ (forall fd', fd' <> fd -> h_fd h' fd' = h_fd h fd') /\
      (forall name, h_name h' name = h_name h name) /\ forall f, h_data h' f = h_data h f;
}.

Module HostFile.

(** Class [OpenFile] of the stub. *)
Record OpenFile := mkFile { file : Z; currentOffset : Z; type : Z }.

(** Class [FileSystem] of the stub, with the host. *)
Record t (H : Type) := mk { host : H; openfile : list (option OpenFile) }.
Arguments mk {H}. Arguments host {H}. Arguments openfile {H}.

Section operations.
Context {H : Type} `{HH : Host H}.
Implicit Types h : H.
Implicit Types f : OpenFile.

(** ** machine/sysdep.cc *)

Definition OpenForWrite h (name : list Z) : outcome (H * Z) :=
  let '(h, fd) := h_open h name true in
  _ ← ASSERT (fd >=? 0);
  Ok (h, fd).
Definition OpenForReadWrite h (name : list Z) (crashOnError : bool) : outcome (H * Z) :=
  let '(h, fd) := h_open h name false in
  _ ← ASSERT (negb crashOnError || (fd >=? 0));
  Ok (h, fd).
Definition ReadPartial h (fd nBytes : Z) : H * Z * list Z := h_read h fd nBytes.
Definition WriteFile h (fd : Z) (buffer : list Z) (nBytes : Z) : outcome H :=
  bs ← (if (0 <=? nBytes) && (nBytes <=? Z.of_nat (length buffer)) then Ok (take (Z.to_nat nBytes) buffer) else Fault BadAccess);
  let '(h, retVal) := h_write h fd bs in
  _ ← ASSERT (retVal =? nBytes);
  Ok h.
Definition Lseek h (fd offset whence : Z) : outcome H :=
  let '(h, retVal) := h_lseek h fd offset whence in
  _ ← ASSERT (retVal >=? 0);
  Ok h.
Definition Tell h (fd : Z) : H * Z := h_lseek h fd 0 SEEK_CUR.
Definition Close h (fd : Z) : outcome H :=
  let '(h, retVal) := h_close h fd in
  _ ← ASSERT (retVal >=? 0);
  Ok h.
(** [Unlink] converts the result to [bool]. *)
Definition Unlink h (name : list Z) : H * bool :=
  let '(h, r) := h_unlink h name in (h, negb (r =? 0)).

(** ** Class OpenFile *)

Definition ReadAt h f (numBytes position : Z) : outcome (H * Z * list Z) :=
  h ← Lseek h (file f) position SEEK_SET;
  Ok (ReadPartial h (file f) numBytes).
Definition WriteAt h f (from : list Z) (numBytes position : Z) : outcome (H * Z) :=
  h ← Lseek h (file f) position SEEK_SET;
  h ← WriteFile h (file f) from numBytes;
  Ok (h, numBytes).
Definition set_offset f (o : Z) : OpenFile := mkFile (file f) o (type f).
Definition Seek h f (pos : Z) : outcome (H * OpenFile * Z) :=
  h ← Lseek h (file f) pos SEEK_SET;
  let '(h, o) := Tell h (file f) in
  Ok (h, set_offset f o, o).
Definition Length h f : outcome (H * Z) :=
  h ← Lseek h (file f) 0 SEEK_END;
  let '(h, len) := Tell h (file f) in
  h ← Lseek h (file f) (currentOffset f) SEEK_SET;
  Ok (h, len).
(** The bytes read replace the first ones of [into]. *)
Definition Read h f (into : list Z) (numBytes : Z) : outcome (H * OpenFile * list Z * Z) :=
  '(h, numRead, bs) ← ReadAt h f numBytes (currentOffset f);
  if Z.of_nat (length bs) <=? Z.of_nat (length into) then
    Ok (h, set_offset f (s32 (currentOffset f + numRead)), splice into 0 bs, numRead)
  else Fault BadAccess.
Definition Write h f (from : list Z) (numBytes : Z) : outcome (H * OpenFile * Z) :=
  '(h, numWritten) ← WriteAt h f from numBytes (currentOffset f);
  Ok (h, set_offset f (s32 (currentOffset f + numWritten)), numWritten).
Definition GetCurrentPos h f : H * OpenFile * Z :=
  let '(h, o) := Tell h (file f) in (h, set_offset f o, o).

(** ** Class FileSystem *)

Implicit Types fs : t H.

Definition NumSlots : Z := 15.

Definition Create fs (name : list Z) : outcome (t H * bool) :=
  '(h, fd) ← OpenForWrite (host fs) name;
  if fd =? -1 then Ok (mk h (openfile fs), false)
  else h ← Close h fd; Ok (mk h (openfile fs), true).

(** [FileSystem::Open] with and without a type; without one the field keeps
    what the memory held. *)
Definition Open fs (name : list Z) (type : Z) : outcome (t H * option OpenFile) :=
  '(h, fd) ← OpenForReadWrite (host fs) name false;
  Ok (mk h (openfile fs), if fd =? -1 then None else Some (mkFile fd 0 type)).

Definition Remove fs (name : list Z) : t H * bool :=
  let '(h, r) := Unlink (host fs) name in (mk h (openfile fs), negb r).

Fixpoint FindFreeSlot_from (n : nat) (i : Z) fs : outcome Z :=
  match n with
  | O => Ok (-1)
  | S n' => x ← rd (openfile fs) i; match x with None => Ok i | Some _ => FindFreeSlot_from n' (i + 1) fs end
  end.
Definition FindFreeSlot fs : outcome Z := FindFreeSlot_from (Z.to_nat (NumSlots - 2)) 2 fs.

Definition put_slot fs (i : Z) (x : option OpenFile) : outcome (t H) :=
  tab ← wr (openfile fs) i x; Ok (mk (host fs) tab).

Definition FileSystem_new h (stdin stdout : list Z) : outcome (t H) :=
  let fs := mk h (replicate (Z.to_nat NumSlots) None) in
  '(fs, _) ← Create fs stdin;
  '(fs, _) ← Create fs stdout;
  '(fs, x) ← Open fs stdin 2;
  fs ← put_slot fs 0 x;
  '(fs, x) ← Open fs stdout 3;
  put_slot fs 1 x.

(** ** Files as byte strings *)

Context `{HL : !HostLaws H}.

(** The file is open on [ino], and its object and the host agree on the offset. *)
Definition open_on h f (ino off : Z) : Prop :=
  h_fd h (file f) = Some (ino, off) /\ currentOffset f = off /\ 0 <= off.

Lemma Lseek_ok h fd ino off pos : h_fd h fd = Some (ino, off) -> 0 <= pos ->
  exists h', Lseek h fd pos SEEK_SET = Ok h' /\ moved h h' fd ino pos /\ forall i, h_data h' i = h_data h i.
Proof.
  intros Hf Hp. destruct (h_lseek_ok h fd ino off pos SEEK_SET Hf) as (h' & E & Hm & Hd); [done|done|].
  exists h'. unfold Lseek. rewrite E. cbn [Z.eqb SEEK_SET]. rewrite Z.geb_leb, (proj2 (Z.leb_le 0 pos)) by done. done.
Qed.

Lemma Tell_ok h fd ino off : h_fd h fd = Some (ino, off) -> 0 <= off ->
  exists h', Tell h fd = (h', off) /\ moved h h' fd ino off /\ forall i, h_data h' i = h_data h i.
Proof.
  intros Hf Ho. destruct (h_lseek_ok h fd ino off 0 SEEK_CUR Hf) as (h' & E & Hm & Hd); cbn [Z.eqb SEEK_CUR SEEK_SET Pos.eqb]; [lia|unfold SEEK_CUR; lia|].
  cbn [Z.eqb SEEK_CUR SEEK_SET Pos.eqb] in *. rewrite Z.add_0_r in *. by exists h'.
Qed.

Lemma moved_trans h1 h2 h3 fd ino o1 o2 : moved h1 h2 fd ino o1 -> moved h2 h3 fd ino o2 -> moved h1 h3 fd ino o2.
Proof. intros (? & E1 & N1) (? & E2 & N2). split; [done|]. split; [intros x Hx; by rewrite E2, E1|]. intros x. by rewrite N2, N1. Qed.

Lemma moved_fd h h' fd ino off : moved h h' fd ino off -> h_fd h' fd = Some (ino, off).
Proof. by intros [? _]. Qed.

(** [GetCurrentPos] *)
Lemma GetCurrentPos_ok h f ino off : open_on h f ino off ->
  exists h', GetCurrentPos h f = (h', f, off) /\ moved h h' (file f) ino off /\ forall i, h_data h' i = h_data h i.
Proof.
  intros (Hf & Hc & Ho). destruct (Tell_ok h (file f) ino off Hf Ho) as (h' & E & Hm & Hd). exists h'.
  unfold GetCurrentPos. rewrite E. split; [|done]. unfold set_offset. rewrite <- Hc. by destruct f.
Qed.

Lemma Seek_ok h f ino off pos : open_on h f ino off -> 0 <= pos ->
  exists h', Seek h f pos = Ok (h', set_offset f pos, pos) /\ moved h h' (file f) ino pos /\ forall i, h_data h' i = h_data h i.
Proof.
  intros (Hf & _ & _) Hp. destruct (Lseek_ok h (file f) ino off pos Hf Hp) as (h1 & E1 & M1 & D1).
  destruct (Tell_ok h1 (file f) ino pos (moved_fd _ _ _ _ _ M1) Hp) as (h2 & E2 & M2 & D2). exists h2.
  unfold Seek. rewrite E1. cbn [mbind outcome_bind]. rewrite E2. split; [done|]. split; [by eapply moved_trans|].
  intros i. by rewrite D2, D1.
Qed.

Lemma Length_ok h f ino off : open_on h f ino off ->
  exists h', Length h f = Ok (h', Z.of_nat (length (h_data h ino))) /\ moved h h' (file f) ino off /\
    forall i, h_data h' i = h_data h i.
Proof.
  intros (Hf & Hc & Ho). unfold Length.
  destruct (h_lseek_ok h (file f) ino off 0 SEEK_END Hf) as (h1 & E1 & M1 & D1); cbn [Z.eqb SEEK_END SEEK_CUR SEEK_SET Pos.eqb]; [lia|unfold SEEK_END; lia|].
  cbn [Z.eqb SEEK_END SEEK_CUR SEEK_SET Pos.eqb] in *. rewrite Z.add_0_r in *. 
  assert (Lseek h (file f) 0 SEEK_END = Ok h1) as ->.
  { unfold Lseek. rewrite E1, Z.geb_leb, (proj2 (Z.leb_le 0 _)) by lia. done. }
  cbn [mbind outcome_bind].
  destruct (Tell_ok h1 (file f) ino _ (moved_fd _ _ _ _ _ M1) ltac:(lia)) as (h2 & -> & M2 & D2).
  destruct (Lseek_ok h2 (file f) ino _ off (moved_fd _ _ _ _ _ M2) Ho) as (h3 & E3 & M3 & D3). rewrite Hc, E3.
  cbn [mbind outcome_bind]. exists h3. split; [done|]. split; [|intros i; by rewrite D3, D2, D1].
  eapply moved_trans; [|exact M3]. by eapply moved_trans.
Qed.

(** [Write] of the first [n] bytes of a buffer, and [Read] into one. *)
Lemma host_Write_ok h f ino off from n :
  open_on h f ino off -> 0 <= n <= Z.of_nat (length from) -> off + n < 2 ^ 31 ->
  exists h', Write h f from n = Ok (h', set_offset f (off + n), n) /\ moved h h' (file f) ino (off + n) /\
    h_data h' ino = written (Z.to_nat off) (take (Z.to_nat n) from) (h_data h ino) /\
    forall i, i <> ino -> h_data h' i = h_data h i.
Proof.
  intros (Hf & Hc & Ho) Hn Hlt. unfold Write, WriteAt. rewrite Hc.
  destruct (Lseek_ok h (file f) ino off off Hf Ho) as (h1 & -> & M1 & D1). cbn [mbind outcome_bind]. unfold WriteFile.
  rewrite (proj2 (Z.leb_le 0 n)), (proj2 (Z.leb_le n _)) by lia. cbn [andb mbind outcome_bind].
  assert (Hl : length (take (Z.to_nat n) from) = Z.to_nat n) by (rewrite length_take; lia).
  destruct (h_write_ok h1 (file f) ino off (take (Z.to_nat n) from) (moved_fd _ _ _ _ _ M1) Ho) as (h2 & -> & M2 & D2 & D2').
  rewrite Hl, Z2Nat.id, Z.eqb_refl by lia. cbn [ASSERT mbind outcome_bind]. exists h2.
  rewrite s32_small by (unfold is_s32; lia). rewrite Hl, Z2Nat.id in M2 by lia.
  split; [done|]. split; [by eapply moved_trans|]. split; [by rewrite D2, D1|]. intros i Hi. by rewrite D2', D1.
Qed.

Lemma host_Read_ok h f ino off into n :
  open_on h f ino off -> 0 <= n <= Z.of_nat (length into) -> off + n < 2 ^ 31 ->
  let bs := slice (h_data h ino) (Z.to_nat off) (Z.to_nat n) in
  exists h', Read h f into n = Ok (h', set_offset f (off + Z.of_nat (length bs)), splice into 0 bs, Z.of_nat (length bs)) /\
    moved h h' (file f) ino (off + Z.of_nat (length bs)) /\ forall i, h_data h' i = h_data h i.
Proof.
  intros (Hf & Hc & Ho) Hn Hlt bs. unfold Read, ReadAt. rewrite Hc.
  destruct (Lseek_ok h (file f) ino off off Hf Ho) as (h1 & -> & M1 & D1). cbn [mbind outcome_bind]. unfold ReadPartial.
  destruct (h_read_ok h1 (file f) ino off n (moved_fd _ _ _ _ _ M1) Ho ltac:(lia)) as (h2 & -> & M2 & D2).
  rewrite D1 in *. fold bs in M2 |- *. assert (Hl : (length bs <= Z.to_nat n)%nat) by (unfold bs, slice; rewrite length_take; lia).
  rewrite (proj2 (Z.leb_le _ _)) by lia. exists h2. rewrite s32_small by (unfold is_s32; lia).
  split; [done|]. split; [by eapply moved_trans|]. intros i. by rewrite D2, D1.
Qed.

End operations.
End HostFile.

(** ** A host that keeps its files in memory *)

Module UnixModel.

Record t := mk {
  names : gmap (list Z) Z;
  data : gmap Z (list Z);
  fds : gmap Z (Z * Z);
}.

Definition empty : t := mk ∅ ∅ ∅.

(** A number above all that a map holds. *)
Definition above {K A} `{Countable K} (f : K -> A -> Z) (m : gmap K A) : Z := map_fold (fun k x n => Z.max (f k x + 1) n) 3 m.

Lemma above_lower {K A} `{Countable K} (f : K -> A -> Z) (m : gmap K A) : 3 <= above f m.
Proof. unfold above. apply (map_fold_weak_ind (fun n _ => 3 <= n)); [done|]. lia. Qed.

Lemma above_spec {K A} `{Countable K} (f : K -> A -> Z) (m : gmap K A) k x : m !! k = Some x -> f k x < above f m.
Proof.
  unfold above. revert k x. apply (map_fold_weak_ind (fun n m => forall k x, m !! k = Some x -> f k x < n)); [done|].
  intros k x m' n _ IH k' x' [[<- <-]|[_ Hk]]%lookup_insert_Some; [lia|]. specialize (IH _ _ Hk). lia.
Qed.

Definition contents (u : t) (ino : Z) : list Z := default [] (data u !! ino).
Definition set_fd (u : t) (fd ino off : Z) : t := mk (names u) (data u) (<[fd := (ino, off)]> (fds u)).

Definition open (u : t) (name : list Z) (create : bool) : t * Z :=
  let fd := above (fun fd _ => fd) (fds u) in
  match names u !! name with
  | Some ino =>
      (mk (names u) (if create then <[ino := []]> (data u) else data u) (<[fd := (ino, 0)]> (fds u)), fd)
  | None =>
      if create then
        let ino := above (fun _ ino => ino) (names u) in
        (mk (<[name := ino]> (names u)) (<[ino := []]> (data u)) (<[fd := (ino, 0)]> (fds u)), fd)
      else (u, -1)
  end.

Definition read (u : t) (fd n : Z) : t * Z * list Z :=
  match fds u !! fd with
  | Some (ino, off) =>
      let bs := slice (contents u ino) (Z.to_nat off) (Z.to_nat n) in
      (set_fd u fd ino (off + Z.of_nat (length bs)), Z.of_nat (length bs), bs)
  | None => (u, -1, [])
  end.

Definition write (u : t) (fd : Z) (bs : list Z) : t * Z :=
  match fds u !! fd with
  | Some (ino, off) =>
      let u' := set_fd u fd ino (off + Z.of_nat (length bs)) in
      (mk (names u') (<[ino := written (Z.to_nat off) bs (contents u ino)]> (data u')) (fds u'),
       Z.of_nat (length bs))
  | None => (u, -1)
  end.

Definition lseek (u : t) (fd pos whence : Z) : t * Z :=
  match fds u !! fd with
  | Some (ino, off) =>
      let target := if whence =? SEEK_SET then pos
                    else if whence =? SEEK_CUR then off + pos
                    else Z.of_nat (length (contents u ino)) + pos in
      if target <? 0 then (u, -1) else (set_fd u fd ino target, target)
  | None => (u, -1)
  end.

Definition close (u : t) (fd : Z) : t * Z :=
  match fds u !! fd with
  | Some _ => (mk (names u) (data u) (delete fd (fds u)), 0)
  | None => (u, -1)
  end.

Definition unlink (u : t) (name : list Z) : t * Z :=
  match names u !! name with
  | Some _ => (mk (delete name (names u)) (data u) (fds u), 0)
  | None => (u, -1)
  end.

#[export] Instance unix_host : Host t := {|
  h_open := open; h_read := read; h_write := write; h_lseek := lseek; h_close := close; h_unlink := unlink;
  h_fd := fun u fd => fds u !! fd; h_data := contents; h_name := fun u n => names u !! n |}.

Lemma set_fd_moved u fd ino off : moved u (set_fd u fd ino off) fd ino off.
Proof. split; cbn; [by rewrite lookup_insert_eq|]. split; [|done]. intros fd' Hne. by rewrite lookup_insert_ne. Qed.

#[export] Instance unix_laws : HostLaws t.
Proof.
  split; cbn.
  - intros u fd ino off n Hf _ _. unfold read. rewrite Hf. eexists. split; [done|]. split; [apply set_fd_moved|done].
  - intros u fd ino off bs Hf _. unfold write. rewrite Hf. eexists. split; [done|]. split; [|split].
    + split; cbn; [by rewrite lookup_insert_eq|]. split; [|done]. intros fd' Hne. by rewrite lookup_insert_ne.
    + unfold contents at 1. cbn. by rewrite lookup_insert_eq.
    + intros i Hi. unfold contents. cbn. by rewrite lookup_insert_ne.
  - intros u fd ino off pos whence Hf Ht _. unfold lseek. rewrite Hf, (proj2 (Z.ltb_ge _ 0)) by done.
    eexists. split; [done|]. split; [apply set_fd_moved|done].
Qed.

#[export] Instance unix_open_laws : HostOpenLaws t.
Proof.
  split; cbn.
  - intros u name create ino Hn. unfold open. rewrite Hn. set (fd := above _ _). eexists _, fd. split; [done|].
    assert (Hf : fds u !! fd = None) by (destruct (fds u !! fd) as [x|] eqn:E; [|done]; pose proof (above_spec (fun fd _ => fd) _ _ _ E); unfold fd in *; lia).
    split; [pose proof (above_lower (fun fd _ => fd) (fds u)); unfold fd; lia|]. split; [done|]. split; [|split].
    + split; cbn; [by rewrite lookup_insert_eq|]. split; [|done]. intros fd' Hne. by rewrite lookup_insert_ne.
    + unfold contents. cbn. destruct create; [by rewrite lookup_insert_eq|done].
    + intros f Hne. unfold contents. cbn. destruct create; [by rewrite lookup_insert_ne|done].
  - intros u name Hn. unfold open. rewrite Hn. set (fd := above (fun fd _ => fd) _). set (ino := above (fun _ ino => ino) _). eexists _, fd, ino. split; [done|].
    split; [pose proof (above_lower (fun fd _ => fd) (fds u)); unfold fd; lia|].
    split; [destruct (fds u !! fd) as [x|] eqn:E; [|done]; pose proof (above_spec (fun fd _ => fd) _ _ _ E); unfold fd in *; lia|].
    cbn. split; [by rewrite lookup_insert_eq|]. split; [intros; by rewrite lookup_insert_ne|].
    split; [intros name' E; pose proof (above_spec (fun _ ino => ino) _ _ _ E); unfold ino in *; lia|].
    split; [by rewrite lookup_insert_eq|]. split; [intros; by rewrite lookup_insert_ne|]. unfold contents. cbn.
    split; [by rewrite lookup_insert_eq|]. intros; by rewrite lookup_insert_ne.
  - intros u name Hn. unfold open. rewrite Hn. by exists u.
  - intros u fd x Hf. unfold close. rewrite Hf. eexists. split; [done|]. cbn. split; [by rewrite lookup_delete_eq|].
    split; [|done]. intros; by rewrite lookup_delete_ne.
Qed.

End UnixModel.

#[export] Existing Instance UnixModel.unix_host.
#[export] Existing Instance UnixModel.unix_laws.
#[export] Existing Instance UnixModel.unix_open_laws.
