(* ===== verification/Converter.v ===== *)
(** * bin/coff2noff.c: from COFF to NOFF

    The program that turns the output of the cross compiler into the format that
    address spaces are loaded from ([AddrSpace.v]).  The files are their bytes and
    a position; a run ends with the bytes of the output, or with the message of an
    [exit(1)], after which there is no output file. *)

From S2P Require Import Prelude Allocator Bitmap MachineSim AddrSpace HostFiles.
Import Machine AddrSpace.

Local Open Scope Z_scope.

Module Coff2noff.

(** ** Runs that can exit *)

Inductive message := TooShort | NotCoff | NotOmagic | BothData | BothBss | UnknownSegment.

Inductive run (A : Type) := Done (a : A) | Exit (e : message).
Arguments Done {A} a. Arguments Exit {A} e.

#[export] Instance run_bind : MBind run := fun A B f r => match r with Done a => f a | Exit e => Exit e end.

(** ** Files *)

Record file := mkFile { bytes : list Z; pos : Z }.

(** [read] and [write] of UNIX through the checks of [Read] and [Write].  Asked
    for a negative number of bytes [read] transfers nothing and returns -1, which
    the check of [Read] takes for success when it was asked for -1 bytes.  Writing
    does not fail. *)
Definition Read (f : file) (nBytes : Z) : run (list Z * file) :=
  let bs := slice (bytes f) (Z.to_nat (pos f)) (Z.to_nat nBytes) in
  let n := if nBytes <? 0 then -1 else Z.of_nat (length bs) in
  if n =? nBytes then Done (bs, mkFile (bytes f) (pos f + Z.of_nat (length bs))) else Exit TooShort.
Definition Write (f : file) (buf : list Z) : file :=
  mkFile (written (Z.to_nat (pos f)) buf (bytes f)) (pos f + Z.of_nat (length buf)).
(** [lseek(fd, offset, 0)], which refuses a negative offset. *)
Definition lseek (f : file) (offset : Z) : file := if offset <? 0 then f else mkFile (bytes f) offset.

(** ** coff.h, with 32-bit [long] *)

Definition sizeof_filehdr : Z := 20.
Definition sizeof_aouthdr : Z := 56.
Definition sizeof_scnhdr : Z := 40.
Definition MIPSELMAGIC : Z := 0x0162.
Definition OMAGIC : Z := 0x0107.        (* 0407 in octal *)

Definition s16 (z : Z) : Z := (z + 2 ^ 15) mod 2 ^ 16 - 2 ^ 15.
Definition short_at (bs : list Z) (i : nat) : Z := ShortToHost HOST_IS_BIG_ENDIAN (le_value (slice bs i 2)).
Definition long_at (bs : list Z) (i : nat) : Z := swap_int (s32 (le_value (slice bs i 4))).

(** The fields that are used of a section header. *)
Record scnhdr := mkScn { s_name : list Z; s_paddr : Z; s_size : Z; s_scnptr : Z }.

Definition scn_of_bytes (bs : list Z) : scnhdr :=
  mkScn (slice bs 0 8) (long_at bs 8) (long_at bs 16) (long_at bs 20).

(** The section headers, one after the other. *)
Definition sections_of (n : Z) (bs : list Z) : list scnhdr :=
  (fun i => scn_of_bytes (slice bs (Z.to_nat (i * sizeof_scnhdr)) (Z.to_nat sizeof_scnhdr))) <$> seqZ 0 n.

(** [!strcmp(s_name, lit)]: the characters of [lit] and the terminating zero, all
    inside the eight characters for the literals that are used. *)
Definition is_name (name lit : list Z) : bool := bool_decide (take (S (length lit)) name = lit ++ [0]).

Definition text : list Z := [46; 116; 101; 120; 116].
Definition data : list Z := [46; 100; 97; 116; 97].
Definition rdata : list Z := [46; 114; 100; 97; 116; 97].
Definition bss : list Z := [46; 98; 115; 115].
Definition sbss : list Z := [46; 115; 98; 115; 115].

(** ** [main] *)

Record st := mkSt { fdIn : file; fdOut : file; noffH : NoffHeader; inNoffFile : Z }.

Definition set_code h g : NoffHeader := mkNoff (noffMagic h) g (initData h) (uninitData h).
Definition set_initData h g : NoffHeader := mkNoff (noffMagic h) (code h) g (uninitData h).
Definition set_uninitData h g : NoffHeader := mkNoff (noffMagic h) (code h) (initData h) g.

(** The section is copied to the end of the output; [put] enters it into the
    header. *)
Definition copy_section (put : NoffHeader -> Segment -> NoffHeader) (sc : scnhdr) (s : st) : run st :=
  let h := put (noffH s) (mkSegment (s_paddr sc) (inNoffFile s) (s_size sc)) in
  '(buffer, fdIn) ← Read (lseek (fdIn s) (s_scnptr sc)) (s_size sc);
  Done (mkSt fdIn (Write (fdOut s) buffer) h (s32 (inNoffFile s + s_size sc))).

(** The body of the loop over the sections. *)
Definition one_section (sc : scnhdr) (s : st) : run st :=
  if s_size sc =? 0 then Done s
  else if is_name (s_name sc) text then copy_section set_code sc s
  else if is_name (s_name sc) data || is_name (s_name sc) rdata then
    if negb (size (initData (noffH s)) =? 0) then Exit BothData else copy_section set_initData sc s
  else if is_name (s_name sc) bss || is_name (s_name sc) sbss then
    let u := uninitData (noffH s) in
    if negb (size u =? 0) then
      if s_paddr sc =? s32 (virtualAddr u + size u) then Exit BothBss
      else Done (mkSt (fdIn s) (fdOut s) (set_uninitData (noffH s) (mkSegment (virtualAddr u) (inFileAddr u) (s32 (size u + s_size sc)))) (inNoffFile s))
    else Done (mkSt (fdIn s) (fdOut s) (set_uninitData (noffH s) (mkSegment (s_paddr sc) (inFileAddr u) (s_size sc))) (inNoffFile s))
  else Exit UnknownSegment.

Fixpoint all_sections (l : list scnhdr) (s : st) : run st :=
  match l with
  | [] => Done s
  | sc :: l => s ← one_section sc s; all_sections l s
  end.

(** The header as bytes. *)
Definition segment_ints (g : Segment) : list Z := [virtualAddr g; inFileAddr g; size g].
Definition header_ints (h : NoffHeader) : list Z :=
  noffMagic h :: segment_ints (code h) ++ segment_ints (initData h) ++ segment_ints (uninitData h).
Definition header_bytes (h : NoffHeader) : list Z := flat_map (le_bytes 4) (header_ints h).

(** The section headers of the input. *)
Definition read_sections (coff : list Z) : run (list scnhdr * file) :=
  '(fileh, fdIn) ← Read (mkFile coff 0) sizeof_filehdr;
  if negb (short_at fileh 0 =? MIPSELMAGIC) then Exit NotCoff
  else
    '(systemh, fdIn) ← Read fdIn sizeof_aouthdr;
    if negb (s16 (short_at systemh 0) =? OMAGIC) then Exit NotOmagic
    else
      let numsections := short_at fileh 2 in
      '(bs, fdIn) ← Read fdIn (numsections * sizeof_scnhdr);
      Done (sections_of numsections bs, fdIn).

(** [raw]: what the header held; the code sets its magic number and its sizes. *)
Definition initial (raw : NoffHeader) (fdIn : file) : st :=
  let zero g := mkSegment (virtualAddr g) (inFileAddr g) 0 in
  mkSt fdIn (lseek (mkFile [] 0) sizeof_NoffHeader) (mkNoff NOFFMAGIC (zero (code raw)) (zero (initData raw)) (zero (uninitData raw))) sizeof_NoffHeader.

Definition convert (raw : NoffHeader) (coff : list Z) : run (list Z) :=
  '(sections, fdIn) ← read_sections coff;
  s ← all_sections sections (initial raw fdIn);
  Done (bytes (Write (lseek (fdOut s) 0) (header_bytes (noffH s)))).

(** ** Specification *)

Inductive kind := Empty | Text | Data | Bss | Unknown.
#[export] Instance kind_eq_dec : EqDecision kind.
Proof. solve_decision. Defined.

Definition kind_of (sc : scnhdr) : kind :=
  if s_size sc =? 0 then Empty
  else if is_name (s_name sc) text then Text
  else if is_name (s_name sc) data || is_name (s_name sc) rdata then Data
  else if is_name (s_name sc) bss || is_name (s_name sc) sbss then Bss
  else Unknown.

Definition chosen (k : kind) (l : list scnhdr) : list scnhdr := filter (fun sc => kind_of sc = k) l.
Fixpoint total (l : list scnhdr) : Z := match l with [] => 0 | sc :: l => s_size sc + total l end.

(** The sections that the format has room for: at most one of each kind, all of
    them inside the file. *)
Record convertible (coff : list Z) (l : list scnhdr) : Prop := {
  c_kinds : chosen Unknown l = [];
  c_one : forall k, k <> Empty -> (length (chosen k l) <= 1)%nat;
  c_inside : Forall (fun sc => 0 <= s_size sc /\ is_s32 (s_paddr sc) /\
               (kind_of sc = Text \/ kind_of sc = Data -> 0 <= s_scnptr sc /\ s_scnptr sc + s_size sc <= Z.of_nat (length coff))) l;
  c_total : sizeof_NoffHeader + total l < 2 ^ 31;
}.

Definition segment_s32 (g : Segment) : Prop := is_s32 (virtualAddr g) /\ is_s32 (inFileAddr g) /\ is_s32 (size g).
Definition header_s32 (h : NoffHeader) : Prop :=
  is_s32 (noffMagic h) /\ segment_s32 (code h) /\ segment_s32 (initData h) /\ segment_s32 (uninitData h).

(** The segment [g] of the output [out] is the section [sc]. *)
Definition copied (coff out : list Z) (g : Segment) (sc : scnhdr) : Prop :=
  virtualAddr g = s_paddr sc /\ size g = s_size sc /\ sizeof_NoffHeader <= inFileAddr g /\
  inFileAddr g + size g <= Z.of_nat (length out) /\
  slice out (Z.to_nat (inFileAddr g)) (Z.to_nat (size g)) = slice coff (Z.to_nat (s_scnptr sc)) (Z.to_nat (s_size sc)).

Definition segment_is (coff out : list Z) (l : list scnhdr) (k : kind) (g : Segment) : Prop :=
  match chosen k l with [] => size g = 0 | sc :: _ => copied coff out g sc end.
Definition bss_is (l : list scnhdr) (g : Segment) : Prop :=
  match chosen Bss l with [] => size g = 0 | sc :: _ => virtualAddr g = s_paddr sc /\ size g = s_size sc end.

(** ** Files *)

Lemma file_Read_ok coff p n :
  0 <= p -> 0 <= n -> p + n <= Z.of_nat (length coff) ->
  Read (mkFile coff p) n = Done (slice coff (Z.to_nat p) (Z.to_nat n), mkFile coff (p + n)).
Proof.
  intros Hp Hn Hle. unfold Read. cbn [bytes pos]. rewrite length_slice by lia. rewrite (proj2 (Z.ltb_ge _ _)) by lia.
  rewrite (proj2 (Z.eqb_eq _ _)) by lia. by rewrite Z2Nat.id by lia.
Qed.

Lemma lseek_ok f offset : 0 <= offset -> lseek f offset = mkFile (bytes f) offset.
Proof. intros H. unfold lseek. by rewrite (proj2 (Z.ltb_ge _ _)). Qed.

Lemma written_end off bs data : (length data <= off)%nat -> written off bs data = (data ++ replicate (off - length data) 0) ++ bs.
Proof.
  intros H. unfold written. rewrite take_ge by (rewrite length_app, length_replicate; lia).
  rewrite (drop_ge data) by lia. by rewrite app_nil_r.
Qed.

Lemma copied_app coff out more g sc : 0 <= size g -> copied coff out g sc -> copied coff (out ++ more) g sc.
Proof.
  intros Hs (H1 & H2 & H3 & H4 & H5). unfold copied. rewrite length_app. unfold sizeof_NoffHeader in *.
  split; [done|]. split; [done|]. split; [done|]. split; [lia|]. rewrite <- H5. apply slice_app_left. clear H5. lia.
Qed.

(** ** The loop *)

(** After the sections [l]. *)
Record Inv (coff : list Z) (l : list scnhdr) (s : st) : Prop := {
  i_in : bytes (fdIn s) = coff;
  i_out : pos (fdOut s) = inNoffFile s /\ Z.of_nat (length (bytes (fdOut s))) <= inNoffFile s;
  i_addr : sizeof_NoffHeader <= inNoffFile s <= sizeof_NoffHeader + total l;
  i_s32 : header_s32 (noffH s);
  i_magic : noffMagic (noffH s) = NOFFMAGIC;
  i_code : segment_is coff (bytes (fdOut s)) l Text (code (noffH s));
  i_data : segment_is coff (bytes (fdOut s)) l Data (initData (noffH s));
  i_bss : bss_is l (uninitData (noffH s));
}.

Lemma total_app l l' : total (l ++ l') = total l + total l'.
Proof. induction l as [|sc l IH]; [done|]. cbn [app total] in *. rewrite IH. lia. Qed.

Lemma chosen_snoc k l sc : chosen k (l ++ [sc]) = chosen k l ++ (if decide (kind_of sc = k) then [sc] else []).
Proof. unfold chosen. rewrite list.filter_app. f_equal. Qed.

Lemma total_nonneg l : Forall (fun sc => 0 <= s_size sc) l -> 0 <= total l.
Proof. induction 1 as [|sc l H _ IH]; [done|]. cbn [total]. lia. Qed.

(** A section of a kind that is chosen is the first one of that kind. *)
Lemma chosen_first coff l sc : convertible coff (l ++ [sc]) -> kind_of sc <> Empty -> chosen (kind_of sc) l = [].
Proof.
  intros C Hk. pose proof (c_one _ _ C (kind_of sc) Hk) as H. rewrite chosen_snoc, decide_True, length_app in H by done. cbn in H.
  destruct (chosen (kind_of sc) l); [done|cbn in H; lia].
Qed.

Lemma segment_is_other coff out more l sc k g : kind_of sc <> k -> 0 <= size g ->
  segment_is coff out l k g -> segment_is coff (out ++ more) (l ++ [sc]) k g.
Proof.
  intros Hk Hs. unfold segment_is. rewrite chosen_snoc, decide_False, app_nil_r by done. destruct (chosen k l); [done|]. by apply copied_app.
Qed.

Lemma segment_size coff out l k g : Forall (fun sc => 0 <= s_size sc) l -> segment_is coff out l k g -> 0 <= size g.
Proof.
  intros Hl. unfold segment_is. destruct (chosen k l) as [|sc r] eqn:E; [lia|]. intros (_ & -> & _).
  assert (Hin : sc ∈ chosen k l) by (rewrite E; left). apply list_elem_of_filter in Hin as [_ Hin].
  exact (proj1 (list.Forall_forall _ _) Hl sc Hin).
Qed.

(** The copy of a section. *)
Lemma copy_section_ok coff l s put sc :
  Inv coff l s -> 0 <= s_size sc -> 0 <= s_scnptr sc -> s_scnptr sc + s_size sc <= Z.of_nat (length coff) ->
  sizeof_NoffHeader + total l + s_size sc < 2 ^ 31 ->
  exists s' more, copy_section put sc s = Done s' /\ bytes (fdIn s') = coff /\
    pos (fdOut s') = inNoffFile s' /\ Z.of_nat (length (bytes (fdOut s'))) = inNoffFile s' /\ inNoffFile s' = inNoffFile s + s_size sc /\
    bytes (fdOut s') = bytes (fdOut s) ++ more /\
    noffH s' = put (noffH s) (mkSegment (s_paddr sc) (inNoffFile s) (s_size sc)) /\
    copied coff (bytes (fdOut s')) (mkSegment (s_paddr sc) (inNoffFile s) (s_size sc)) sc.
Proof.
  intros [Ein [Epos Hlen] Haddr _ _ _ _ _] Hs Hp Hle Hmax. unfold copy_section. rewrite lseek_ok by lia. rewrite Ein.
  rewrite file_Read_ok by done. cbn [mbind run_bind]. unfold sizeof_NoffHeader in *.
  set (bs := slice coff (Z.to_nat (s_scnptr sc)) (Z.to_nat (s_size sc))).
  assert (Lbs : Z.of_nat (length bs) = s_size sc) by (unfold bs; rewrite length_slice; lia).
  eexists _, _. split; [reflexivity|]. cbn [fdIn fdOut noffH inNoffFile bytes pos Write].
  rewrite (s32_small (inNoffFile s + s_size sc)) by (unfold is_s32; lia). rewrite Epos, written_end by lia.
  split; [done|]. split; [lia|]. split; [rewrite !length_app, length_replicate; lia|]. split; [done|].
  split; [rewrite <- app_assoc; reflexivity|]. split; [done|]. unfold copied. cbn [virtualAddr inFileAddr size].
  split; [done|]. split; [done|]. split; [unfold sizeof_NoffHeader; lia|]. split; [rewrite !length_app, length_replicate; lia|].
  unfold slice at 1. rewrite drop_app_length' by (rewrite length_app, length_replicate; lia). rewrite take_ge by lia. done.
Qed.

Lemma sizes_nonneg coff l : Forall (fun sc => 0 <= s_size sc /\ is_s32 (s_paddr sc) /\
  (kind_of sc = Text \/ kind_of sc = Data -> 0 <= s_scnptr sc /\ s_scnptr sc + s_size sc <= Z.of_nat (@length Z coff))) l ->
  Forall (fun sc => 0 <= s_size sc) l.
Proof. apply Forall_impl. by intros sc [H _]. Qed.

Lemma convertible_prefix coff l r : convertible coff (l ++ r) -> convertible coff l.
Proof.
  intros [Hk H1 Hin Ht]. apply Forall_app in Hin as [Hl Hr].
  pose proof (total_nonneg _ (sizes_nonneg _ _ Hr)) as Hr0.
  split; [|intros k Hne; specialize (H1 k Hne)|done|rewrite total_app in Ht; lia].
  - unfold chosen in Hk. rewrite list.filter_app in Hk. apply app_eq_nil in Hk as [Hk _]. exact Hk.
  - unfold chosen in H1. rewrite list.filter_app, length_app in H1. unfold chosen. lia.
Qed.

(** The loop body by the kind of the section. *)
Lemma one_section_kind sc s :
  one_section sc s =
  match kind_of sc with
  | Empty => Done s
  | Text => copy_section set_code sc s
  | Data => if negb (size (initData (noffH s)) =? 0) then Exit BothData else copy_section set_initData sc s
  | Bss =>
      let u := uninitData (noffH s) in
      if negb (size u =? 0) then
        if s_paddr sc =? s32 (virtualAddr u + size u) then Exit BothBss
        else Done (mkSt (fdIn s) (fdOut s) (set_uninitData (noffH s) (mkSegment (virtualAddr u) (inFileAddr u) (s32 (size u + s_size sc)))) (inNoffFile s))
      else Done (mkSt (fdIn s) (fdOut s) (set_uninitData (noffH s) (mkSegment (s_paddr sc) (inFileAddr u) (s_size sc))) (inNoffFile s))
  | Unknown => Exit UnknownSegment
  end.
Proof. unfold one_section, kind_of. by repeat case_match. Qed.

(** A segment that has just been copied. *)
Lemma segment_is_new coff out l sc g : chosen (kind_of sc) l = [] -> copied coff out g sc -> segment_is coff out (l ++ [sc]) (kind_of sc) g.
Proof. intros E H. unfold segment_is. by rewrite chosen_snoc, E, decide_True. Qed.

Lemma bss_is_other l sc g : kind_of sc <> Bss -> bss_is l g -> bss_is (l ++ [sc]) g.
Proof. intros H. unfold bss_is. by rewrite chosen_snoc, decide_False, app_nil_r. Qed.

Lemma new_segment_s32 s sc l : sizeof_NoffHeader <= inNoffFile s <= sizeof_NoffHeader + total l -> is_s32 (s_paddr sc) ->
  0 <= s_size sc -> 0 <= total l -> sizeof_NoffHeader + (total l + s_size sc) < 2 ^ 31 ->
  segment_s32 (mkSegment (s_paddr sc) (inNoffFile s) (s_size sc)).
Proof. unfold segment_s32, is_s32, sizeof_NoffHeader. cbn. lia. Qed.

(** One section. *)
Lemma one_section_ok coff l sc s :
  convertible coff (l ++ [sc]) -> Inv coff l s -> exists s', one_section sc s = Done s' /\ Inv coff (l ++ [sc]) s'.
Proof.
  intros C I. pose proof (c_inside _ _ C) as Hin. apply Forall_app in Hin as [Hl Hr]. apply Forall_inv in Hr as (Hs & Hp & Hf).
  pose proof (sizes_nonneg _ _ Hl) as Hl0.
  pose proof (c_total _ _ C) as Ht. rewrite total_app in Ht. cbn [total] in Ht. rewrite Z.add_0_r in Ht.
  pose proof (chosen_first coff l sc C) as Hfirst. pose proof (c_kinds _ _ C) as Hun. rewrite chosen_snoc in Hun.
  pose proof (segment_size _ _ _ _ _ Hl0 (i_code _ _ _ I)) as Hc0. pose proof (segment_size _ _ _ _ _ Hl0 (i_data _ _ _ I)) as Hd0.
  pose proof I as [Ein [Epos Hlen] Haddr (Hm & Hc & Hd & Hu) Hmag Hcode Hdata Hbss].
  pose proof (total_nonneg _ Hl0) as Hl1. pose proof (new_segment_s32 s sc l Haddr Hp ltac:(lia) Hl1 Ht) as Hnew.
  assert (Hkeep : forall k g, kind_of sc <> k -> 0 <= size g -> segment_is coff (bytes (fdOut s)) l k g ->
    segment_is coff (bytes (fdOut s)) (l ++ [sc]) k g).
  { intros k g Hk Hg H. rewrite <- (app_nil_r (bytes (fdOut s))). by apply segment_is_other. }
  rewrite one_section_kind. destruct (kind_of sc) eqn:Ek.
  - exists s. split; [done|]. split; try done.
    + rewrite total_app. cbn [total]. lia.
    + apply Hkeep; [congruence|done|done].
    + apply Hkeep; [congruence|done|done].
    + apply bss_is_other; [congruence|done].
  - destruct (copy_section_ok coff l s set_code sc I Hs) as (s' & more & E & E1 & E2 & E3 & E4 & E5 & E6 & E7); [apply Hf; tauto|apply Hf; tauto|lia|].
    exists s'. split; [done|]. assert (Hn : kind_of sc <> Data) by congruence.
    split; rewrite ?E6; [done|lia|rewrite total_app; cbn [total]; lia|done|done| | |].
    + rewrite <- Ek. apply segment_is_new; [|done]. rewrite Ek. by apply Hfirst.
    + rewrite E5. by apply segment_is_other.
    + apply bss_is_other; [congruence|done].
  - unfold segment_is in Hdata. rewrite (Hfirst ltac:(done)) in Hdata. rewrite Hdata. cbn [Z.eqb negb].
    destruct (copy_section_ok coff l s set_initData sc I Hs) as (s' & more & E & E1 & E2 & E3 & E4 & E5 & E6 & E7); [apply Hf; tauto|apply Hf; tauto|lia|].
    exists s'. split; [done|]. assert (Hn : kind_of sc <> Text) by congruence.
    split; rewrite ?E6; [done|lia|rewrite total_app; cbn [total]; lia|done|done| | |].
    + rewrite E5. by apply segment_is_other.
    + rewrite <- Ek. apply segment_is_new; [|done]. rewrite Ek. by apply Hfirst.
    + apply bss_is_other; [congruence|done].
  - unfold bss_is in Hbss. rewrite (Hfirst ltac:(done)) in Hbss. cbn zeta. rewrite Hbss. cbn [Z.eqb negb]. eexists. split; [reflexivity|].
    split; cbn [fdIn fdOut noffH inNoffFile]; try done.
    + rewrite total_app. cbn [total]. lia.
    + destruct Hu as (_ & Hu & _), Hnew as (Hn1 & _ & Hn3). unfold header_s32, segment_s32 in *. cbn. tauto.
    + apply Hkeep; [congruence|done|done].
    + apply Hkeep; [congruence|done|done].
    + unfold bss_is. by rewrite chosen_snoc, Ek, decide_True, (Hfirst ltac:(done)).
  - by apply app_eq_nil in Hun as [_ Hun].
Qed.

Lemma all_sections_ok coff r : forall l s, convertible coff (l ++ r) -> Inv coff l s ->
  exists s', all_sections r s = Done s' /\ Inv coff (l ++ r) s'.
Proof.
  induction r as [|sc r IH]; intros l s C I.
  - exists s. split; [done|]. by rewrite app_nil_r.
  - change (l ++ sc :: r) with (l ++ [sc] ++ r) in *. rewrite app_assoc in C |- *.
    destruct (one_section_ok coff l sc s) as (s1 & E & I1); [by apply convertible_prefix in C|done|].
    cbn [all_sections]. rewrite E. cbn [mbind run_bind]. by apply IH.
Qed.

(** ** The header *)

Lemma int_at_ints l rest : forall i x, l !! i = Some x -> is_s32 x -> int_at (flat_map (le_bytes 4) l ++ rest) i = x.
Proof.
  induction l as [|y l IH]; intros i x Hi Hx; [done|]. cbn [flat_map]. rewrite <- app_assoc. unfold int_at. destruct i as [|i].
  - injection Hi as ->. rewrite slice_app_start by apply length_le_bytes. rewrite le_value_bytes.
    etransitivity; [apply s32_u32|by apply s32_small].
  - specialize (IH i x Hi Hx). unfold int_at in IH. etransitivity; [|exact IH]. do 2 f_equal. unfold slice.
    rewrite drop_app_ge by (rewrite length_le_bytes; lia). rewrite length_le_bytes. do 2 f_equal. lia.
Qed.

Lemma noff_of_header_bytes h rest : header_s32 h -> noff_of_bytes (header_bytes h ++ rest) = h.
Proof.
  intros (H0 & (H1 & H2 & H3) & (H4 & H5 & H6) & H7 & H8 & H9). unfold noff_of_bytes, segment_at, header_bytes. cbn [Nat.add].
  rewrite (int_at_ints _ _ 0 (noffMagic h)), (int_at_ints _ _ 1 (virtualAddr (code h))), (int_at_ints _ _ 2 (inFileAddr (code h))),
    (int_at_ints _ _ 3 (size (code h))), (int_at_ints _ _ 4 (virtualAddr (initData h))), (int_at_ints _ _ 5 (inFileAddr (initData h))),
    (int_at_ints _ _ 6 (size (initData h))), (int_at_ints _ _ 7 (virtualAddr (uninitData h))), (int_at_ints _ _ 8 (inFileAddr (uninitData h))),
    (int_at_ints _ _ 9 (size (uninitData h))) by done.
  by destruct h as [m [] [] []].
Qed.

Lemma length_header_bytes h : length (header_bytes h) = 40%nat.
Proof. unfold header_bytes, header_ints, segment_ints. cbn [flat_map app]. rewrite !length_app, !length_le_bytes. done. Qed.

(** The loader reads the header that the converter has written. *)
Lemma read_header_written h out raw : header_s32 h -> noffMagic h = NOFFMAGIC ->
  read_header (reader (header_bytes h ++ out)) raw = Ok h.
Proof.
  intros Hh Hm. unfold read_header, reader, sizeof_NoffHeader. cbn [mbind outcome_bind].
  rewrite slice_app_start by apply length_header_bytes. unfold splice. rewrite take_0. cbn [Nat.add app]. rewrite noff_of_header_bytes by done. cbn zeta.
  rewrite Hm, Z.eqb_refl. cbn [negb andb]. rewrite Hm, Z.eqb_refl. done.
Qed.

(** Writing the header over the start of the output keeps the segments. *)
Lemma segment_is_header coff out l k g h : Forall (fun sc => 0 <= s_size sc) l ->
  segment_is coff out l k g -> segment_is coff (written 0 (header_bytes h) out) l k g.
Proof.
  intros Hl H. pose proof (segment_size _ _ _ _ _ Hl H) as Hg. revert H. unfold segment_is. destruct (chosen k l) as [|sc r]; [done|].
  intros (H1 & H2 & H3 & H4 & H5). unfold copied, written. rewrite take_0. cbn [app Nat.add].
  rewrite length_app, length_drop, length_header_bytes. unfold sizeof_NoffHeader in *.
  split; [done|]. split; [done|]. split; [done|]. split; [clear H5; lia|]. rewrite <- H5. unfold slice.
  rewrite drop_app_ge by (rewrite length_header_bytes; clear H5; lia). rewrite length_header_bytes, drop_drop. do 2 f_equal. clear H5. lia.
Qed.

Lemma Read_bytes f n bs f' : Read f n = Done (bs, f') -> bytes f' = bytes f.
Proof. unfold Read. case_match; [|done]. by intros [= <- <-]. Qed.

Lemma read_sections_bytes coff l f : read_sections coff = Done (l, f) -> bytes f = coff.
Proof.
  unfold read_sections. destruct (Read (mkFile coff 0) sizeof_filehdr) as [[fh f1]|] eqn:E1; [|done]. cbn [mbind run_bind].
  case_match; [done|]. destruct (Read f1 sizeof_aouthdr) as [[sh f2]|] eqn:E2; [|done]. cbn [mbind run_bind].
  case_match; [done|]. destruct (Read f2 _) as [[bs f3]|] eqn:E3; [|done]. cbn [mbind run_bind]. intros [= _ <-].
  rewrite (Read_bytes _ _ _ _ E3), (Read_bytes _ _ _ _ E2), (Read_bytes _ _ _ _ E1). done.
Qed.

(** Before the first section. *)
Lemma initial_inv raw coff f : header_s32 raw -> bytes f = coff -> Inv coff [] (initial raw f).
Proof.
  intros (_ & (H1 & H2 & _) & (H3 & H4 & _) & H5 & H6 & _) Hf. unfold initial.
  split; cbn; try done; unfold sizeof_NoffHeader; try lia; try done. all: unfold header_s32, segment_s32, NOFFMAGIC, is_s32 in *; cbn; lia.
Qed.

(** ** Properties *)

Lemma convert_ok raw coff l f :
  header_s32 raw -> read_sections coff = Done (l, f) -> convertible coff l ->
  exists out h, convert raw coff = Done out /\ (forall raw', read_header (reader out) raw' = Ok h) /\
    segment_is coff out l Text (code h) /\ segment_is coff out l Data (initData h) /\ bss_is l (uninitData h).
Proof.
  intros Hraw Hrs C. unfold convert. rewrite Hrs. cbn [mbind run_bind].
  destruct (all_sections_ok coff l [] (initial raw f)) as (s & E & [Ein Eout Haddr Hh Hmag Hc Hd Hb]);
    [done|apply initial_inv; [done|by apply (read_sections_bytes coff l)]|].
  rewrite E. cbn [mbind run_bind]. pose proof (sizes_nonneg _ _ (c_inside _ _ C)) as Hl0. eexists _, (noffH s). split; [reflexivity|].
  unfold Write, lseek. cbn [Z.ltb Z.compare bytes pos Z.to_nat]. split.
  - intros raw'. unfold written. rewrite take_0. cbn [app Nat.add]. by apply read_header_written.
  - split; [by apply segment_is_header|]. split; [by apply segment_is_header|]. done.
Qed.

(** What the converter makes of a compiled program is a program that the
    loader accepts: for a COFF file with at most one section of each kind, all of
    them inside the file, the conversion ends without a message, the header that
    [AddrSpace] reads from the output is a NOFF header, its code and initialised
    data segments have the addresses, the sizes and the bytes of the sections
    .text and .data (or .rdata) wherever these are in the COFF file, its
    uninitialised data has the address and the size of .bss (or .sbss), and a
    segment without a section is empty. *)
Theorem converted_file_loads raw coff l f :
  header_s32 raw -> read_sections coff = Done (l, f) -> convertible coff l ->
  exists out h, convert raw coff = Done out /\ (forall raw', read_header (reader out) raw' = Ok h) /\
    segment_is coff out l Text (code h) /\ segment_is coff out l Data (initData h) /\ bss_is l (uninitData h).
Proof. exact (convert_ok raw coff l f). Qed.

(** A byte of the code in the file. *)
Lemma copied_lookup coff out g sc i : copied coff out g sc -> 0 <= i < s_size sc -> 0 <= s_scnptr sc ->
  out !! Z.to_nat (inFileAddr g + i) = coff !! Z.to_nat (s_scnptr sc + i).
Proof.
  intros (_ & Hs & Hf & _ & E) Hi Hp. unfold sizeof_NoffHeader in Hf. apply (f_equal (fun l => l !! Z.to_nat i)) in E.
  rewrite !lookup_slice in E by lia.
  replace (Z.to_nat (inFileAddr g + i)) with (Z.to_nat (inFileAddr g) + Z.to_nat i)%nat by lia.
  by replace (Z.to_nat (s_scnptr sc + i)) with (Z.to_nat (s_scnptr sc) + Z.to_nat i)%nat by lia.
Qed.

Lemma total_two k k' l : k <> k' -> Forall (fun sc => 0 <= s_size sc) l -> total (chosen k l) + total (chosen k' l) <= total l.
Proof.
  intros Hk. induction 1 as [|sc l H _ IH]; [done|]. unfold chosen in *. rewrite !filter_cons. repeat case_decide; cbn [total]; try congruence; lia.
Qed.

Lemma bss_size l g : Forall (fun sc => 0 <= s_size sc) l -> bss_is l g -> 0 <= size g <= total (chosen Bss l).
Proof.
  intros Hl Hb. assert (Hall : Forall (fun sc => 0 <= s_size sc) (chosen Bss l)).
  { apply list.Forall_forall. intros sc [_ Hin]%list_elem_of_filter. exact (proj1 (list.Forall_forall _ _) Hl sc Hin). }
  unfold bss_is in Hb. destruct (chosen Bss l) as [|b r]; [cbn; lia|]. destruct Hb as [_ ->]. cbn [total].
  pose proof (Forall_inv Hall) as Hb0. pose proof (total_nonneg r (Forall_inv_tail Hall)). cbn in Hb0. lia.
Qed.

Section memory.
Context {T : Type} `{AllocatorLaws T}.
Implicit Types k : kernel T.

(** The code covers the pages that are taken for it. *)
Lemma pages_cover h i :
  0 <= size (code h) -> size (initData h) = 0 -> 0 <= size (uninitData h) -> size (code h) + size (uninitData h) < 2 ^ 31 ->
  0 <= i < size (code h) -> i / PageSize < pages_needed h.
Proof.
  intros Hc Hd Hu Hmax Hi. unfold pages_needed, UserStackSize. rewrite Hd.
  rewrite (u32_small (size (code h) + 0 + size (uninitData h) + 1024)) by (unfold is_u32; lia).
  destruct (divRoundUp_spec (size (code h) + 0 + size (uninitData h) + 1024) PageSize) as [Hr Hr0]; [lia|done|].
  unfold PageSize, SectorSize in *. rewrite u32_small by (unfold is_u32; lia). Z.to_euclidean_division_equations. lia.
Qed.

(** Byte [i] of a segment that is loaded at address 0. *)
Lemma loaded_lookup contents g fs m m' i f :
  loaded (reader contents) g fs m m' -> NoDup fs -> virtualAddr g = 0 -> 0 <= inFileAddr g -> 0 <= i ->
  (Z.to_nat (inFileAddr g + i) < length contents)%nat -> fs !! Z.to_nat (i / PageSize) = Some f ->
  mainMemory m' !! Z.to_nat (Z.of_nat f * PageSize + i mod PageSize) = contents !! Z.to_nat (inFileAddr g + i).
Proof.
  intros (_ & _ & _ & Hin) Hnd Hv Hf0 Hi Hlen Hf.
  specialize (Hin Hnd _ f _ Hf eq_refl). unfold dest in Hin. rewrite Hv in Hin. cbn [Z.add] in Hin.
  assert (Hm : 0 <= i mod PageSize < PageSize) by (apply Z.mod_pos_bound; done).
  assert (Ei : i = PageSize * (i / PageSize) + i mod PageSize) by (apply Z.div_mod; done).
  assert (Hd : 0 <= i / PageSize) by (apply Z.div_pos; [done|done]).
  set (q := i / PageSize) in *. set (r := i mod PageSize) in *. rewrite Ei in Hlen |- *. clearbody q r. clear Ei i Hi.
  apply (f_equal (fun l => l !! Z.to_nat r)) in Hin. unfold PageSize, SectorSize in *.
  rewrite !lookup_slice in Hin; [|lia|].
  2:{ unfold slice. rewrite length_take, length_drop. lia. }
  replace (Z.to_nat (Z.of_nat f * 512 + r)) with (Z.to_nat (Z.of_nat f * 512) + Z.to_nat r)%nat by lia. etransitivity; [exact Hin|].
  f_equal. lia.
Qed.

(** C28: from the compiler to memory: the code of a program without initialised
    data, linked at address 0, converted and loaded into an address space, is in
    main memory where the page table says: byte [i] of the section .text is at
    the offset of [i] in the frame of the page of [i]. *)
Theorem compiled_code_in_memory raw coff l f sc :
  header_s32 raw -> read_sections coff = Done (l, f) -> convertible coff l ->
  chosen Text l = [sc] -> chosen Data l = [] -> s_paddr sc = 0 ->
  exists out, convert raw coff = Done out /\ forall h raw' k, ready (reader out) raw' h k ->
    exists k' fs, AddrSpace_name (reader out) raw' k = Ok (k', mk (table fs) (pages_needed h)) /\
      forall i, 0 <= i < s_size sc -> exists fr, fs !! Z.to_nat (i / PageSize) = Some fr /\
        mainMemory (machine k') !! Z.to_nat (Z.of_nat fr * PageSize + i mod PageSize) = coff !! Z.to_nat (s_scnptr sc + i).
Proof.
  intros Hraw Hrs C Ht Hd Hp. destruct (convert_ok raw coff l f Hraw Hrs C) as (out & h & E & Hh & Hct & Hcd & Hb).
  exists out. split; [done|]. intros h' raw' k Hrd. pose proof (r_header _ _ _ _ Hrd) as Hh'. rewrite Hh in Hh'. injection Hh' as <-.
  unfold segment_is in Hct, Hcd. rewrite Ht in Hct. rewrite Hd in Hcd. pose proof Hct as (Hv & Hs & Hi & Hle & _).
  assert (Hin : sc ∈ chosen Text l) by (rewrite Ht; left). apply list_elem_of_filter in Hin as [Hk Hin].
  destruct (proj1 (list.Forall_forall _ _) (c_inside _ _ C) sc Hin) as (Hs0 & _ & Hf). destruct (Hf (or_introl Hk)) as [Hf1 Hf2].
  assert (Hpos : s_size sc <> 0). { intros E0. unfold kind_of in Hk. rewrite E0 in Hk. discriminate Hk. }
  pose proof (sizes_nonneg _ _ (c_inside _ _ C)) as Hl0. pose proof (total_two Text Bss l ltac:(done) Hl0) as Htot. rewrite Ht in Htot.
  pose proof (bss_size l _ Hl0 Hb) as Hbs.
  pose proof (c_total _ _ C) as Hmax. unfold sizeof_NoffHeader in *. cbn [total] in Htot.
  destruct (create_ok (reader out) raw' h [] k Hrd) as (_ & k' & fs0 & E2 & _).
  destruct (code_loaded (reader out) raw' h k k' _ Hrd ltac:(lia) ltac:(lia) E2) as (fs & E3 & Hlen & Hks & _ & HL). injection E3 as E3.
  exists k', fs. split; [rewrite E2, E3; done|]. intros i Hi1.
  pose proof (pages_cover h i ltac:(lia) Hcd ltac:(lia) ltac:(lia) ltac:(lia)) as Hcov.
  assert (0 <= i / PageSize) by (apply Z.div_pos; [lia|done]).
  destruct (lookup_lt_is_Some_2 fs (Z.to_nat (i / PageSize))) as [fr Ef]; [lia|]. exists fr. split; [done|].
  destruct (take_slots_spec _ _ _ _ Hks) as (_ & Hnd & _); [pose proof (r_room _ _ _ _ Hrd); lia|].
  rewrite (loaded_lookup out (code h) fs (machine k) (machine k') i fr) by (done || lia). by apply copied_lookup.
Qed.

End memory.

Lemma all_sections_app l r : forall s, all_sections (l ++ r) s = s ← all_sections l s; all_sections r s.
Proof.
  induction l as [|sc l IH]; intros s; [done|]. cbn [all_sections app]. destruct (one_section sc s); [|done]. cbn [mbind run_bind]. apply IH.
Qed.

(** Two sections of uninitialised data.  The comment of the code asks that
    .bss and .sbss be contiguous; the test is the other way round: a file in which
    the second follows the first immediately is refused, and the output removed. *)
Theorem contiguous_bss_refused raw coff f l1 b1 l2 b2 l3 :
  header_s32 raw -> read_sections coff = Done (l1 ++ b1 :: l2 ++ b2 :: l3, f) -> convertible coff (l1 ++ b1 :: l2) ->
  kind_of b1 = Bss -> kind_of b2 = Bss -> s_paddr b2 = s_paddr b1 + s_size b1 -> is_s32 (s_paddr b2) ->
  convert raw coff = Exit BothBss.
Proof.
  intros Hraw Hrs C K1 K2 Hadj H32. unfold convert. rewrite Hrs. cbn [mbind run_bind].
  change (l1 ++ b1 :: l2 ++ b2 :: l3) with (l1 ++ (b1 :: l2) ++ b2 :: l3). rewrite app_assoc, all_sections_app.
  destruct (all_sections_ok coff (l1 ++ b1 :: l2) [] (initial raw f)) as (s & E & I);
    [done|apply initial_inv; [done|by eapply read_sections_bytes]|].
  rewrite E. cbn [mbind run_bind all_sections]. rewrite one_section_kind, K2. cbn zeta.
  pose proof (i_bss _ _ _ I) as Hb. pose proof (c_one _ _ C Bss ltac:(done)) as H1. unfold bss_is in Hb. cbn [app] in Hb.
  assert (Hc : chosen Bss (l1 ++ b1 :: l2) = [b1]).
  { assert (Hin : b1 ∈ chosen Bss (l1 ++ b1 :: l2)) by (apply list_elem_of_filter; split; [done|set_solver]).
    destruct (chosen Bss (l1 ++ b1 :: l2)) as [|c [|c' r]]; cbn in H1; [by apply not_elem_of_nil in Hin| |lia].
    by apply list_elem_of_singleton in Hin as ->. }
  rewrite Hc in Hb. destruct Hb as [-> ->].
  assert (Hne : s_size b1 =? 0 = false). { destruct (s_size b1 =? 0) eqn:E0; [|done]. unfold kind_of in K1. rewrite E0 in K1. discriminate K1. }
  rewrite Hne. cbn [negb]. rewrite <- Hadj, s32_small, Z.eqb_refl by done. done.
Qed.

(** ** A compiled program *)

(** A section header: the fields that are not used are zero. *)
Definition scn_bytes (name : list Z) (paddr size scnptr : Z) : list Z :=
  take 8 (name ++ replicate 8 0) ++ flat_map (le_bytes 4) [paddr; 0; size; scnptr; 0; 0; 0; 0].
Definition coff_of (headers : list (list Z)) (contents : list Z) : list Z :=
  le_bytes 2 MIPSELMAGIC ++ le_bytes 2 (Z.of_nat (length headers)) ++ replicate 16 0 ++ le_bytes 2 OMAGIC ++ replicate 54 0 ++
  concat headers ++ contents.

(** 600 bytes of code, an empty section of data and one of uninitialised data. *)
Definition demo_coff : list Z := coff_of [scn_bytes text 0 600 196; scn_bytes data 0 0 0; scn_bytes bss 0 0 0] (replicate 600 7).
Definition demo_sections : list scnhdr :=
  [mkScn (text ++ [0; 0; 0]) 0 600 196; mkScn (data ++ [0; 0; 0]) 0 0 0; mkScn (bss ++ [0; 0; 0; 0]) 0 0 0].
Definition empty_header : NoffHeader := mkNoff 0 (mkSegment 0 0 0) (mkSegment 0 0 0) (mkSegment 0 0 0).

Lemma demo_reads : exists f, read_sections demo_coff = Done (demo_sections, f).
Proof. eexists. vm_compute. reflexivity. Qed.

Lemma demo_convertible : convertible demo_coff demo_sections.
Proof.
  split; [done| |repeat constructor; cbn; intuition discriminate|done]. intros [] Hk; try done; vm_compute; lia.
Qed.

Lemma empty_header_s32 : header_s32 empty_header.
Proof. unfold header_s32, segment_s32, is_s32. cbn. lia. Qed.

(** The conversion is the file of the program that [AddrSpace.v] loads. *)
Lemma demo_converts : convert empty_header demo_coff = Done demo_file.
Proof. vm_compute. reflexivity. Qed.

Lemma converted_file_loads_witness :
  exists out h, convert empty_header demo_coff = Done out /\ (forall raw', read_header (reader out) raw' = Ok h) /\
    size (code h) = 600 /\ size (initData h) = 0.
Proof.
  destruct demo_reads as [f Hf].
  destruct (converted_file_loads empty_header demo_coff demo_sections f empty_header_s32 Hf demo_convertible) as (out & h & E & Hh & Hc & Hd & _).
  exists out, h. split; [exact E|]. split; [exact Hh|]. split; [exact (proj1 (proj2 Hc))|exact Hd].
Defined.

(** Byte 599 is the 88th byte of the second frame that is taken. *)
Lemma compiled_code_in_memory_witness :
  exists m (b : BitMap.t) k' fs fr, BitMap.BitMap (fun i => i) 256 = Ok b /\
    AddrSpace_name (reader demo_file) demo_raw (mkKernel m b 1) = Ok (k', mk (table fs) 4) /\
    fs !! 1%nat = Some fr /\ mainMemory (machine k') !! Z.to_nat (Z.of_nat fr * PageSize + 87) = Some 7.
Proof.
  destruct demo_reads as [f Hf]. destruct demo_kernel as (m & b & _ & Eb & _ & _ & _ & _ & Hrd).
  destruct (compiled_code_in_memory (T := BitMap.t) empty_header demo_coff demo_sections f (mkScn (text ++ [0; 0; 0]) 0 600 196)
    empty_header_s32 Hf demo_convertible eq_refl eq_refl eq_refl) as (out & E & H).
  rewrite demo_converts in E. injection E as <-. destruct (H _ _ _ Hrd) as (k' & fs & E & Hb). destruct (Hb 599 ltac:(split; done)) as (fr & Hfr & Hm).
  exists m, b, k', fs, fr. split; [exact Eb|]. split; [exact E|]. split; [exact Hfr|]. exact Hm.
Defined.

(** 8 bytes of .bss at 512 and 8 bytes of .sbss at 520. *)
Definition two_bss : list Z := coff_of [scn_bytes bss 512 8 0; scn_bytes sbss 520 8 0] [].

Lemma contiguous_bss_refused_witness : convert empty_header two_bss = Exit BothBss.
Proof.
  apply (contiguous_bss_refused empty_header two_bss (mkFile two_bss 156) [] (mkScn (bss ++ [0; 0; 0; 0]) 512 8 0) []
    (mkScn (sbss ++ [0; 0; 0]) 520 8 0) [] empty_header_s32); try (vm_compute; reflexivity).
  - split; [done| |repeat constructor; cbn; intuition discriminate|done]. intros [] Hk; try done; vm_compute; lia.
  - done.
Defined.

End Coff2noff.

(** * bin/coff2flat.c: the converter of Nachos version 2

    The sections are written one after the other, and the file is extended to the
    highest address and the stack. *)

Module Coff2flat.
Import Coff2noff.

Definition StackSize : Z := 1024.

(** The fields are used as they are in the file. *)
Definition short_of (bs : list Z) (i : nat) : Z := le_value (slice bs i 2).
Definition long_of (bs : list Z) (i : nat) : Z := s32 (le_value (slice bs i 4)).
Definition flat_scn_of_bytes (bs : list Z) : scnhdr :=
  mkScn (slice bs 0 8) (long_of bs 8) (long_of bs 16) (long_of bs 20).

Definition flat_read_sections (coff : list Z) : run (list scnhdr * file) :=
  '(fileh, fdIn) ← Read (mkFile coff 0) sizeof_filehdr;
  if negb (short_of fileh 0 =? MIPSELMAGIC) then Exit NotCoff
  else
    '(systemh, fdIn) ← Read fdIn sizeof_aouthdr;
    if negb (s16 (short_of systemh 0) =? OMAGIC) then Exit NotOmagic
    else
      let numsections := short_of fileh 2 in
      '(bs, fdIn) ← Read fdIn (numsections * sizeof_scnhdr);
      Done ((fun i => flat_scn_of_bytes (slice bs (Z.to_nat (i * sizeof_scnhdr)) (Z.to_nat sizeof_scnhdr))) <$> seqZ 0 numsections, fdIn).

Record flat_st := mkFlat { flatIn : file; flatOut : file; top : Z }.

Definition flat_section (sc : scnhdr) (s : flat_st) : run flat_st :=
  let e := s32 (s_paddr sc + s_size sc) in
  let top := if e >? top s then e else top s in
  if negb (is_name (s_name sc) bss) && negb (is_name (s_name sc) sbss) then
    '(buffer, flatIn) ← Read (lseek (flatIn s) (s_scnptr sc)) (s_size sc);
    Done (mkFlat flatIn (Write (flatOut s) buffer) top)
  else Done (mkFlat (flatIn s) (flatOut s) top).

Fixpoint flat_sections (l : list scnhdr) (s : flat_st) : run flat_st :=
  match l with
  | [] => Done s
  | sc :: l => s ← flat_section sc s; flat_sections l s
  end.

Definition flat_convert (coff : list Z) : run (list Z) :=
  '(sections, fdIn) ← flat_read_sections coff;
  s ← flat_sections sections (mkFlat fdIn (mkFile [] 0) 0);
  Done (bytes (Write (lseek (flatOut s) (s32 (top s + StackSize - 4))) (le_bytes 4 0))).

(** ** Specification *)

Definition is_bss (sc : scnhdr) : bool := is_name (s_name sc) bss || is_name (s_name sc) sbss.

(** Sections that follow one another in memory from address [a] on, those
    without contents last. *)
Fixpoint packed (coff : list Z) (a : Z) (l : list scnhdr) : Prop :=
  match l with
  | [] => a + StackSize < 2 ^ 31
  | sc :: l =>
      s_paddr sc = a /\ 0 <= s_size sc /\ (is_bss sc = true -> Forall (fun sc => is_bss sc = true) l) /\
      (is_bss sc = false -> 0 <= s_scnptr sc /\ s_scnptr sc + s_size sc <= Z.of_nat (length coff)) /\
      packed coff (a + s_size sc) l
  end.

(** Memory as the sections say: contents, zeroes, and a stack. *)
Fixpoint image (coff : list Z) (l : list scnhdr) : list Z :=
  match l with
  | [] => replicate (Z.to_nat StackSize) 0
  | sc :: l =>
      (if is_bss sc then replicate (Z.to_nat (s_size sc)) 0
       else slice coff (Z.to_nat (s_scnptr sc)) (Z.to_nat (s_size sc))) ++ image coff l
  end.

Lemma packed_bound coff l : forall a, 0 <= a -> packed coff a l -> a + StackSize < 2 ^ 31.
Proof. induction l as [|sc l IH]; intros a Ha H; [done|]. destruct H as (_ & Hs & _ & _ & H). apply IH in H; lia. Qed.

(** The sections without contents only move the top. *)
Lemma bss_sections coff l : forall a s,
  0 <= a -> packed coff a l -> Forall (fun sc => is_bss sc = true) l -> top s = a ->
  exists t, flat_sections l s = Done (mkFlat (flatIn s) (flatOut s) t) /\ a <= t /\ t + StackSize < 2 ^ 31 /\
    image coff l = replicate (Z.to_nat (t - a + StackSize)) 0.
Proof.
  induction l as [|sc l IH]; intros a s Ha Hp Hb Ht.
  - exists a. cbn [packed flat_sections image] in *. subst a. split; [by destruct s|]. split; [lia|]. split; [done|]. f_equal. lia.
  - destruct Hp as (Hpa & Hs & _ & _ & Hp). pose proof (Forall_inv Hb) as Hb1. pose proof (Forall_inv_tail Hb) as Hb2. cbn in Hb1.
    pose proof (packed_bound coff l (a + s_size sc) ltac:(lia) Hp) as Hmax. unfold StackSize in *.
    cbn [flat_sections image]. unfold flat_section. rewrite Hpa, s32_small by (unfold is_s32; lia). rewrite Hb1. unfold is_bss in Hb1.
    rewrite <- negb_orb, Hb1. cbn [negb mbind run_bind]. rewrite Z.gtb_ltb.
    assert (Et : (if top s <? a + s_size sc then a + s_size sc else top s) = a + s_size sc) by (destruct (Z.ltb_spec (top s) (a + s_size sc)); lia).
    rewrite Et. destruct (IH (a + s_size sc) (mkFlat (flatIn s) (flatOut s) (a + s_size sc)) ltac:(lia) Hp Hb2 eq_refl) as (t & E & H1 & H2 & H3).
    exists t. split; [exact E|]. split; [lia|]. split; [done|]. rewrite H3, <- replicate_add. f_equal. lia.
Qed.

(** The word at the end of the stack. *)
Lemma last_word fo t a : 0 <= a <= t -> t + StackSize < 2 ^ 31 -> Z.of_nat (length (bytes fo)) = a ->
  bytes (Write (lseek fo (s32 (t + StackSize - 4))) (le_bytes 4 0)) = bytes fo ++ replicate (Z.to_nat (t - a + StackSize)) 0.
Proof.
  intros Ha Ht Hl. unfold StackSize in *. rewrite s32_small by (unfold is_s32; lia). rewrite lseek_ok by lia.
  unfold Write. cbn [bytes pos]. rewrite written_end by lia. rewrite <- app_assoc. f_equal.
  change (le_bytes 4 0) with (replicate 4 0). rewrite <- replicate_add. f_equal. lia.
Qed.

(** The file is the image as long as the sections are written. *)
Lemma flat_sections_ok coff l : forall a s,
  0 <= a -> packed coff a l -> bytes (flatIn s) = coff -> top s = a -> Z.of_nat (length (bytes (flatOut s))) = a -> pos (flatOut s) = a ->
  exists s', flat_sections l s = Done s' /\
    bytes (Write (lseek (flatOut s') (s32 (top s' + StackSize - 4))) (le_bytes 4 0)) = bytes (flatOut s) ++ image coff l.
Proof.
  induction l as [|sc l IH]; intros a s Ha Hp Hin Ht Hl Hpos.
  - exists s. split; [done|]. rewrite (last_word _ _ a) by (cbn in Hp; lia || done). f_equal. cbn [image]. f_equal. lia.
  - destruct (is_bss sc) eqn:Eb.
    + destruct (bss_sections coff (sc :: l) a s Ha Hp) as (t & E & H1 & H2 & H3); [|done|].
      { constructor; [done|]. destruct Hp as (_ & _ & Hb & _). by apply Hb. }
      exists (mkFlat (flatIn s) (flatOut s) t). split; [done|]. cbn [flatOut top]. rewrite (last_word _ _ a) by (lia || done). by rewrite H3.
    + destruct Hp as (Hpa & Hs & _ & Hf & Hp). destruct (Hf Eb) as [Hf1 Hf2]. pose proof (packed_bound coff l (a + s_size sc) ltac:(lia) Hp) as Hmax.
      cbn [flat_sections image]. rewrite Eb. unfold flat_section. unfold is_bss in Eb. rewrite <- negb_orb, Eb. cbn [negb].
      rewrite lseek_ok by lia. rewrite Hin, file_Read_ok by lia. cbn [mbind run_bind].
      set (bs := slice coff (Z.to_nat (s_scnptr sc)) (Z.to_nat (s_size sc))).
      assert (Lbs : Z.of_nat (length bs) = s_size sc) by (unfold bs; rewrite length_slice; lia).
      rewrite Hpa, (s32_small (a + s_size sc)) by (unfold is_s32, StackSize in *; lia). rewrite Z.gtb_ltb.
      assert (Et : (if top s <? a + s_size sc then a + s_size sc else top s) = a + s_size sc) by (destruct (Z.ltb_spec (top s) (a + s_size sc)); lia).
      rewrite Et. destruct (IH (a + s_size sc) (mkFlat (mkFile coff (s_scnptr sc + s_size sc)) (Write (flatOut s) bs) (a + s_size sc)))
        as (s' & E & H); [lia|done|done|done| | |].
      * cbn [flatOut Write bytes]. rewrite written_end by lia. rewrite !length_app, length_replicate. lia.
      * cbn [flatOut Write pos]. lia.
      * exists s'. split; [exact E|]. rewrite H. cbn [flatOut Write bytes]. rewrite written_end by lia.
        replace (Z.to_nat (pos (flatOut s)) - length (bytes (flatOut s)))%nat with 0%nat by lia. cbn [replicate]. by rewrite app_nil_r, <- app_assoc.
Qed.

(** For sections that follow one another in memory from address 0, those
    without contents last, the flat file is the image of memory: the contents of
    each section at its address, zeroes for the uninitialised data and for the
    stack. *)
Theorem flat_file_is_memory coff l f :
  flat_read_sections coff = Done (l, f) -> bytes f = coff -> packed coff 0 l -> flat_convert coff = Done (image coff l).
Proof.
  intros E Hf Hp. unfold flat_convert. rewrite E. cbn [mbind run_bind].
  destruct (flat_sections_ok coff l 0 (mkFlat f (mkFile [] 0) 0)) as (s' & -> & H); try done. cbn [mbind run_bind]. by rewrite H.
Qed.

(** 4 bytes of code, 4 bytes of data and 8 bytes of uninitialised data. *)
Definition packed_coff : list Z := coff_of [scn_bytes text 0 4 196; scn_bytes data 4 4 200; scn_bytes bss 8 8 0] [1; 2; 3; 4; 5; 6; 7; 8].

Lemma flat_file_is_memory_witness : flat_convert packed_coff = Done ([1; 2; 3; 4; 5; 6; 7; 8] ++ replicate 8 0 ++ replicate 1024 0).
Proof.
  apply (flat_file_is_memory packed_coff [mkScn (text ++ [0; 0; 0]) 0 4 196; mkScn (data ++ [0; 0; 0]) 4 4 200; mkScn (bss ++ [0; 0; 0; 0]) 8 8 0]
    (mkFile packed_coff 196)); [vm_compute; reflexivity|reflexivity|].
  cbn [packed]. change (Z.of_nat (length packed_coff)) with 204. cbn. repeat split; try done; try lia; repeat constructor.
Defined.

(** With a gap between the sections the data is not at its address: it is not
    written at [s_paddr] but after what was written before. *)
Lemma flat_file_with_gap :
  exists out, flat_convert (coff_of [scn_bytes text 0 4 156; scn_bytes data 16 4 160] [1; 2; 3; 4; 5; 6; 7; 8]) = Done out /\
    slice out 16 4 = [0; 0; 0; 0] /\ slice out 4 4 = [5; 6; 7; 8].
Proof. eexists. split; [vm_compute; reflexivity|]. split; vm_compute; reflexivity. Qed.

End Coff2flat.
