(* ===== verification/FileCalls.v ===== *)
(** * userprog/exception.cc: the system calls on files

    The handlers [CreateFileFunction] to [SeekFunction] over the files of
    [HostFiles.v]: what they store in user memory, in the files of the host and
    in register 2. *)

From S2P Require Import Prelude MachineSim ConsoleDev Syscalls UserStrings HostFiles.
Import Machine Syscall.

Local Open Scope Z_scope.

Module FileCalls.

Definition MAX_LENGTH : Z := 32.

(** The string in a buffer: what comes before the first zero. *)
Fixpoint c_string (buf : list Z) : list Z :=
  match buf with
  | [] => []
  | c :: buf' => if c =? 0 then [] else c :: c_string buf'
  end.

Record t (H : Type) := mk { base : Syscall.t; fileSystem : HostFile.t H }.
Arguments mk {H}. Arguments base {H}. Arguments fileSystem {H}.

Section handlers.
Context {H : Type} `{HH : Host H}.
Implicit Types s : t H.

Definition reg s (i : Z) : outcome Z := ReadRegister (machine (base s)) i.
Definition set_reg s (i v : Z) : outcome (t H) :=
  m ← WriteRegister (machine (base s)) i v;
  Ok (mk (set_machine (base s) m) (fileSystem s)).
Definition with_machine s (m : Machine.t) : t H := mk (set_machine (base s) m) (fileSystem s).
Definition with_fs s (fs : HostFile.t H) : t H := mk (base s) fs.
Definition with_host s (h : H) : t H := with_fs s (HostFile.mk h (HostFile.openfile (fileSystem s))).
Definition with_console s (c : SynchConsole.t) : t H := mk (set_console (base s) c) (fileSystem s).
Definition host_of s : H := HostFile.host (fileSystem s).
Definition user2system s (virtAddr limit : Z) : outcome (t H * list Z) :=
  '(m, buf) ← User2System (machine (base s)) virtAddr limit; Ok (with_machine s m, buf).
Definition system2user s (virtAddr len : Z) (buffer : list Z) : outcome (t H * Z) :=
  '(m, n) ← System2User (machine (base s)) virtAddr len buffer; Ok (with_machine s m, n).
(** [fileSystem->openfile[id]], and updating the object it points to. *)
Definition file_at s (id : Z) : outcome (option HostFile.OpenFile) := rd (HostFile.openfile (fileSystem s)) id.
Definition put_file s (id : Z) (x : option HostFile.OpenFile) : outcome (t H) :=
  fs ← HostFile.put_slot (fileSystem s) id x; Ok (with_fs s fs).

Definition CreateFileFunction s : outcome (t H) :=
  virtualAddr ← reg s 4;
  '(s, name) ← user2system s virtualAddr (MAX_LENGTH + 1);
  if bool_decide (c_string name = []) then set_reg s 2 (-1)
  else
    '(fs, ok) ← HostFile.Create (fileSystem s) (c_string name);
    let s := with_fs s fs in
    if negb ok then set_reg s 2 (-1) else set_reg s 2 0.

Definition OpenFunction s : outcome (t H) :=
  virtualAddr ← reg s 4;
  '(s, name) ← user2system s virtualAddr MAX_LENGTH;
  freeSlot ← HostFile.FindFreeSlot (fileSystem s);
  type ← reg s 5;
  if negb (freeSlot =? -1) then
    if (type =? 0) || (type =? 1) then
      '(fs, x) ← HostFile.Open (fileSystem s) (c_string name) type;
      s ← put_file (with_fs s fs) freeSlot x;
      match x with Some _ => set_reg s 2 freeSlot | None => Ok s end
    else if type =? 2 then set_reg s 2 0
    else if type =? 3 then set_reg s 2 1
    else Ok s
  else set_reg s 2 (-1).

Definition CloseFunction s : outcome (t H) :=
  fileID ← reg s 4;
  x ← (if (fileID >=? 0) && (fileID <=? 14) then file_at s fileID else Ok None);
  match x with
  | Some f =>
      h ← HostFile.Close (host_of s) (HostFile.file f);
      s ← put_file (with_host s h) fileID None;
      set_reg s 2 0
  | None => set_reg s 2 (-1)
  end.

(** [junk] is what a local variable of [SynchConsole::Read] held. *)
Definition ReadFunction (junk : Z) s : outcome (t H) :=
  virtualAddr ← reg s 4;
  charcount ← reg s 5;
  id ← reg s 6;
  if (id <? 0) || (id >? 9) then set_reg s 2 (-1)
  else
    x ← file_at s id;
    match x with
    | None => set_reg s 2 (-1)
    | Some f =>
        if HostFile.type f =? 3 then set_reg s 2 (-1)
        else
          let '(h, f, oldPos) := HostFile.GetCurrentPos (host_of s) f in
          s ← put_file (with_host s h) id (Some f);
          '(s, buffer) ← user2system s virtualAddr charcount;
          if HostFile.type f =? 2 then
            '(c, (buffer, size)) ← SynchConsole.Read junk (gSynchConsole (base s)) buffer charcount;
            '(s, _) ← system2user (with_console s c) virtualAddr size buffer;
            set_reg s 2 size
          else
            '(h, f, buffer, r) ← HostFile.Read (host_of s) f buffer charcount;
            s ← put_file (with_host s h) id (Some f);
            if r >? 0 then
              let '(h, f, newPos) := HostFile.GetCurrentPos (host_of s) f in
              s ← put_file (with_host s h) id (Some f);
              '(s, _) ← system2user s virtualAddr (s32 (newPos - oldPos)) buffer;
              set_reg s 2 (s32 (newPos - oldPos))
            else set_reg s 2 (-2)
    end.

(** The loop that displays a line. *)
Fixpoint put_line (fuel : nat) (c : SynchConsole.t) (buffer : list Z) (i : Z) : outcome (SynchConsole.t * Z) :=
  match fuel with
  | O => Fault OutOfFuel
  | S fuel' =>
      b ← rd buffer i;
      if negb (b =? 0) && negb (b =? 10) then
        '(c, _) ← SynchConsole.Write c [b] 1;
        put_line fuel' c buffer (i + 1)
      else Ok (c, i)
  end.

Definition WriteFunction s : outcome (t H) :=
  virtualAddr ← reg s 4;
  charcount ← reg s 5;
  id ← reg s 6;
  if (id <? 0) || (id >? 9) then set_reg s 2 (-1)
  else
    x ← file_at s id;
    match x with
    | None => set_reg s 2 (-1)
    | Some f =>
        if (HostFile.type f =? 1) || (HostFile.type f =? 2) then set_reg s 2 (-1)
        else
          let '(h, f, oldPos) := HostFile.GetCurrentPos (host_of s) f in
          s ← put_file (with_host s h) id (Some f);
          '(s, buffer) ← user2system s virtualAddr charcount;
          if HostFile.type f =? 0 then
            '(h, f, r) ← HostFile.Write (host_of s) f buffer charcount;
            s ← put_file (with_host s h) id (Some f);
            if r >? 0 then
              let '(h, f, newPos) := HostFile.GetCurrentPos (host_of s) f in
              s ← put_file (with_host s h) id (Some f);
              set_reg s 2 (s32 (newPos - oldPos))
            else Ok s
          else if HostFile.type f =? 3 then
            '(c, i) ← put_line (S (length buffer)) (gSynchConsole (base s)) buffer 0;
            buffer ← wr buffer i 10;
            '(c, _) ← SynchConsole.Write c [10] 1;
            set_reg (with_console s c) 2 (s32 (i - 1))
          else Ok s
    end.

Definition SeekFunction s : outcome (t H) :=
  pos ← reg s 4;
  file_id ← reg s 5;
  x ← (if (file_id <? 0) || (file_id >? 9) || (file_id =? 0) || (file_id =? 1) then Ok None else file_at s file_id);
  match x with
  | None => Ok s
  | Some f =>
      '(h, pos) ← (if pos =? -1 then HostFile.Length (host_of s) f else Ok (host_of s, pos));
      '(h, refused) ←
        (if pos <? 0 then Ok (h, true)
         else '(h, len) ← HostFile.Length h f; Ok (h, pos >? len));
      if refused : bool then Ok (with_host s h)
      else
        '(h, f, _) ← HostFile.Seek h f pos;
        s ← put_file (with_host s h) file_id (Some f);
        set_reg s 2 pos
  end.

(** ** The handlers on a given state *)

Context `{HL : !HostLaws H}.
Implicit Types f : HostFile.OpenFile.
Implicit Types tab : list (option HostFile.OpenFile).

Definition St (m : Machine.t) (c : SynchConsole.t) (h : H) tab : t H := mk (Syscall.mk m c) (HostFile.mk h tab).

Lemma reg_St m c h tab i v : 0 <= i < NumTotalRegs -> registers m !! Z.to_nat i = Some v -> reg (St m c h tab) i = Ok v.
Proof. intros Hi Hv. unfold reg. by apply ReadRegister_ok. Qed.

Lemma set_reg_St m c h tab i v : has_regs m -> 0 <= i < NumTotalRegs ->
  set_reg (St m c h tab) i v = Ok (St (set_registers m (<[Z.to_nat i := v]> (registers m))) c h tab).
Proof. intros Hm Hi. unfold set_reg. cbn [base St machine]. by rewrite WriteRegister_ok. Qed.

Lemma put_file_St m c h tab i x : 0 <= i < Z.of_nat (length tab) ->
  put_file (St m c h tab) i x = Ok (St m c h (<[Z.to_nat i := x]> tab)).
Proof. intros Hi. unfold put_file, HostFile.put_slot. cbn [fileSystem St HostFile.openfile]. by rewrite wr_ok. Qed.

Lemma file_at_St m c h tab i x : 0 <= i -> tab !! Z.to_nat i = Some x -> file_at (St m c h tab) i = Ok x.
Proof. intros Hi Hx. unfold file_at. cbn. by apply rd_lookup. Qed.

Lemma uses_set_registers pt n m rs : Strings.uses pt n m -> Strings.uses pt n (set_registers m rs).
Proof. intros (Hm & pt' & E & ? & ?). split; [done|]. exists pt'. split; [by rewrite E|done]. Qed.

(** The string in a buffer that was filled up with zeros. *)
Lemma c_string_text cs k : Forall Strings.is_char cs -> c_string (cs ++ replicate k 0) = cs.
Proof.
  intros Hcs. induction cs as [|x cs IH]; [by destruct k|]. apply Forall_cons_1 in Hcs as [[_ Hx] Hcs]. cbn [app c_string].
  rewrite (proj2 (Z.eqb_neq x 0)) by done. f_equal. by apply IH.
Qed.

(** The arguments of a call. *)
Definition args (m : Machine.t) (a4 a5 a6 : Z) : Prop :=
  has_regs m /\ registers m !! 4%nat = Some a4 /\ registers m !! 5%nat = Some a5 /\ registers m !! 6%nat = Some a6.

(** The characters [cs] are at [va]. *)
Definition chars_at pt n (m : Machine.t) (va : Z) (cs : list Z) : Prop :=
  forall j c, cs !! j = Some c -> Strings.ubyte pt n m (s32 (va + Z.of_nat j)) = Some c.

Lemma string_chars pt n m va cs : Strings.string_at pt n m va cs -> chars_at pt n m va cs.
Proof. intros Hs j c Hj. apply Hs. by apply lookup_app_l_Some. Qed.

(** [m'] is [m] with a result in register 2 and other use bits. *)
Definition returned pt n (m m' : Machine.t) (v : Z) : Prop :=
  Strings.uses pt n m' /\ registers m' = <[2%nat := v]> (registers m) /\ mainMemory m' = mainMemory m.

Lemma open_on_moved h h' f ino off : HostFile.open_on h f ino off -> moved h h' (HostFile.file f) ino off -> HostFile.open_on h' f ino off.
Proof. intros (_ & Hc & ?) Hm. split; [by apply (HostFile.moved_fd _ _ _ _ _ Hm)|done]. Qed.

Lemma moved_open h h' f ino off : moved h h' (HostFile.file f) ino off -> 0 <= off ->
  HostFile.open_on h' (HostFile.set_offset f off) ino off.
Proof. intros Hm Ho. split; [exact (HostFile.moved_fd _ _ _ _ _ Hm)|]. by split. Qed.

(** A string and what follows its end. *)
Lemma c_string_split cs : Forall (fun c => c <> 0) (c_string cs) /\ (cs = c_string cs \/ exists rest, cs = c_string cs ++ 0 :: rest).
Proof.
  induction cs as [|c cs [IH1 IH2]]; [by split; [|left]|]. cbn [c_string]. destruct (Z.eqb_spec c 0) as [->|Hc]; cbn [app].
  - split; [done|]. right. by exists cs.
  - split; [by constructor|]. destruct IH2 as [E|[rest E]]; [left; congruence|]. right. exists rest. congruence.
Qed.

(** [User2System] stops after a zero, in a buffer of zeros: of the bytes [cs]
    the kernel gets [blanked cs].  [System2User] stops after a zero, too. *)
Definition blanked (cs : list Z) : list Z := c_string cs ++ replicate (length cs - length (c_string cs)) 0.
Definition until_zero (cs : list Z) : list Z := take (S (length (c_string cs))) cs.
Definition is_byte (c : Z) : Prop := s8 c = c.

Lemma length_c_string cs : (length (c_string cs) <= length cs)%nat.
Proof. destruct (c_string_split cs) as [_ [E|[rest E]]]; rewrite E at 2; [done|]. rewrite length_app. lia. Qed.

Lemma length_blanked cs : length (blanked cs) = length cs.
Proof. pose proof (length_c_string cs). unfold blanked. rewrite length_app, length_replicate. lia. Qed.

Lemma blanked_text cs : Forall Strings.is_char cs -> blanked cs = cs.
Proof.
  intros Hcs. pose proof (c_string_text cs 0 Hcs) as E. cbn [replicate] in E. rewrite app_nil_r in E.
  unfold blanked. rewrite E, Nat.sub_diag. cbn. by rewrite app_nil_r.
Qed.

Lemma until_zero_text cs : Forall Strings.is_char cs -> until_zero cs = cs.
Proof.
  intros Hcs. pose proof (c_string_text cs 0 Hcs) as E. cbn [replicate] in E. rewrite app_nil_r in E.
  unfold until_zero. rewrite E. apply take_ge. lia.
Qed.

Lemma text_bytes cs : Forall Strings.is_char cs -> Forall is_byte cs.
Proof. apply Forall_impl. by intros c [? _]. Qed.

Lemma c_string_chars cs : Forall is_byte cs -> Forall Strings.is_char (c_string cs).
Proof.
  intros Hcs. destruct (c_string_split cs) as [Hz Hsp].
  assert (Hb : Forall is_byte (c_string cs)).
  { destruct Hsp as [E|[rest E]]; rewrite E in Hcs; [done|]. by apply Forall_app in Hcs as [? _]. }
  apply list.Forall_forall. intros c Hc. split; [by apply (proj1 (list.Forall_forall _ _) Hb)|by apply (proj1 (list.Forall_forall _ _) Hz)].
Qed.

(** The loop of [User2System] on any bytes. *)
Lemma User2System_bytes pt n m va cs : Strings.uses pt n m -> Forall is_byte cs -> chars_at pt n m va cs ->
  exists m', User2System m va (Z.of_nat (length cs)) = Ok (m', blanked cs ++ [0]) /\ Strings.touched pt n m m'.
Proof.
  intros Hu Hcs Hat. pose proof (c_string_chars cs Hcs) as Hch. pose proof (length_c_string cs) as Hl.
  destruct (proj2 (c_string_split cs)) as [E|[rest E]].
  - rewrite <- E in Hch. rewrite blanked_text by done. by apply Strings.User2System_full.
  - destruct (Strings.User2System_string pt n m va (Z.of_nat (length cs)) (c_string cs) Hu Hch) as (m' & -> & Ht); [lia| |].
    + intros j c Hj. apply Hat. rewrite E. change (0 :: rest) with ([0] ++ rest). rewrite app_assoc. by apply lookup_app_l_Some.
    + exists m'. split; [|done]. unfold blanked. rewrite <- app_assoc. change [0] with (replicate 1 0). rewrite <- replicate_add.
      do 4 f_equal. lia.
Qed.

(** What [System2User] stores of a buffer that begins with [bs]. *)
Lemma until_zero_stored bs : Forall is_byte bs ->
  (length (until_zero bs) <= length bs)%nat /\ (bs <> [] -> until_zero bs <> []) /\
  (forall j c, until_zero bs !! j = Some c -> bs !! j = Some c /\ s8 c = c) /\
  (forall j c, until_zero bs !! j = Some c -> (S j < length (until_zero bs))%nat -> c <> 0) /\
  (length (until_zero bs) = length bs \/ list.last (until_zero bs) = Some 0).
Proof.
  intros Hbs. unfold until_zero. rewrite length_take. split; [lia|]. split; [by destruct bs|]. split.
  { intros j c Hj%lookup_take_Some. destruct Hj as [Hj _]. split; [done|]. apply (Forall_lookup_1 _ _ _ _ Hbs Hj). }
  destruct (c_string_split bs) as [Hz Hsp]. split.
  - intros j c [Hj _]%lookup_take_Some Hlt. apply (Forall_lookup_1 _ _ j c Hz). destruct Hsp as [E|[rest E]]; rewrite E in Hj; [done|].
    by rewrite lookup_app_l in Hj by lia.
  - destruct Hsp as [E|[rest E]]; [left; rewrite <- E; lia|]. right. revert E. generalize (c_string bs). intros s ->.
    replace (S (length s)) with (length (s ++ [0])) by (rewrite length_app; cbn; lia). change (0 :: rest) with ([0] ++ rest).
    rewrite app_assoc, take_app_length. by apply last_snoc.
Qed.

Lemma WriteFunction_bytes pt n m c h tab id f ino off va cs :
  Strings.uses pt n m -> args m va (Z.of_nat (length cs)) id -> 0 <= id <= 9 -> tab !! Z.to_nat id = Some (Some f) ->
  HostFile.type f = 0 -> HostFile.open_on h f ino off -> cs <> [] -> Forall is_byte cs -> chars_at pt n m va cs ->
  off + Z.of_nat (length cs) < 2 ^ 31 ->
  let f' := HostFile.set_offset f (off + Z.of_nat (length cs)) in
  exists m' h', WriteFunction (St m c h tab) = Ok (St m' c h' (<[Z.to_nat id := Some f']> tab)) /\
    returned pt n m m' (Z.of_nat (length cs)) /\ moved h h' (HostFile.file f) ino (off + Z.of_nat (length cs)) /\
    h_data h' ino = written (Z.to_nat off) (blanked cs) (h_data h ino) /\ forall i, i <> ino -> h_data h' i = h_data h i.
Proof.
  intros Hu (Hm & H4 & H5 & H6) Hid Hf Hty Hop Hne Hcs Hat Hlt f'.
  assert (0 < length cs)%nat by (destruct cs; [done|cbn; lia]). pose proof (lookup_lt_Some _ _ _ Hf) as Htab.
  assert (Hoff : 0 <= off) by (by destruct Hop as (_ & _ & ?)).
  unfold WriteFunction. rewrite (reg_St _ _ _ _ 4 va), (reg_St _ _ _ _ 5 (Z.of_nat (length cs))), (reg_St _ _ _ _ 6 id) by done.
  cbn [mbind outcome_bind]. rewrite Z.gtb_ltb, (proj2 (Z.ltb_ge id 0)), (proj2 (Z.ltb_ge 9 id)) by lia. cbn [orb].
  rewrite (file_at_St _ _ _ _ id (Some f)) by (done || lia). cbn [mbind outcome_bind]. rewrite Hty. cbn [Z.eqb Pos.eqb orb].
  destruct (HostFile.GetCurrentPos_ok h f ino off Hop) as (h1 & E1 & M1 & D1). cbn [host_of fileSystem St HostFile.host]. rewrite E1.
  change (with_host (St m c h tab) h1) with (St m c h1 tab).
  rewrite put_file_St by lia. cbn [mbind outcome_bind]. rewrite list_insert_id by done.
  destruct (User2System_bytes pt n m va cs Hu Hcs Hat) as (m1 & E2 & Hu1 & Hr1 & Hmem1).
  unfold user2system at 1. cbn [base St machine]. rewrite E2. cbn [mbind outcome_bind].
  change (with_machine (St m c h1 tab) m1) with (St m1 c h1 tab). rewrite Hty. cbn [Z.eqb].
  pose proof (open_on_moved _ _ _ _ _ Hop M1) as Hop1.
  cbn [host_of fileSystem St HostFile.host].
  destruct (HostFile.host_Write_ok h1 f ino off (blanked cs ++ [0]) (Z.of_nat (length cs)) Hop1) as (h2 & -> & M2 & D2 & D2');
    [rewrite length_app, length_blanked; cbn; lia|lia|].
  cbn [mbind outcome_bind]. fold f'. change (with_host (St m1 c h1 tab) h2) with (St m1 c h2 tab).
  rewrite put_file_St by lia. cbn [mbind outcome_bind]. rewrite Z.gtb_ltb, (proj2 (Z.ltb_lt 0 _)) by lia.
  pose proof (moved_open _ _ _ _ _ M2 ltac:(lia)) as Hop2. fold f' in Hop2.
  destruct (HostFile.GetCurrentPos_ok h2 f' ino _ Hop2) as (h3 & E3 & M3 & D3). cbn [host_of fileSystem St HostFile.host]. rewrite E3.
  change (with_host (St m1 c h2 ?x) h3) with (St m1 c h3 x).
  rewrite put_file_St by (rewrite length_insert; lia). cbn [mbind outcome_bind]. rewrite list_insert_insert_eq.
  rewrite set_reg_St by (done || by unfold has_regs; rewrite Hr1). rewrite s32_small by (unfold is_s32; lia).
  eexists _, h3. split; [done|]. replace (off + Z.of_nat (length cs) - off) with (Z.of_nat (length cs)) by lia.
  rewrite Nat2Z.id, take_app_length' in D2 by (by rewrite length_blanked). split.
  { split; [by apply uses_set_registers|]. cbn. by rewrite Hr1. }
  split; [by eapply HostFile.moved_trans; [exact M1|eapply HostFile.moved_trans; [exact M2|exact M3]]|].
  split; [by rewrite D3, D2, D1|]. intros i Hi. by rewrite D3, D2', D1.
Qed.

Lemma WriteFunction_ok pt n m c h tab id f ino off va cs :
  Strings.uses pt n m -> args m va (Z.of_nat (length cs)) id -> 0 <= id <= 9 -> tab !! Z.to_nat id = Some (Some f) ->
  HostFile.type f = 0 -> HostFile.open_on h f ino off -> cs <> [] -> Forall Strings.is_char cs -> chars_at pt n m va cs ->
  off + Z.of_nat (length cs) < 2 ^ 31 ->
  let f' := HostFile.set_offset f (off + Z.of_nat (length cs)) in
  exists m' h', WriteFunction (St m c h tab) = Ok (St m' c h' (<[Z.to_nat id := Some f']> tab)) /\
    returned pt n m m' (Z.of_nat (length cs)) /\ moved h h' (HostFile.file f) ino (off + Z.of_nat (length cs)) /\
    h_data h' ino = written (Z.to_nat off) cs (h_data h ino) /\ forall i, i <> ino -> h_data h' i = h_data h i.
Proof.
  intros Hu Ha Hid Hf Hty Hop Hne Hcs Hat Hlt f'.
  pose proof (WriteFunction_bytes pt n m c h tab id f ino off va cs Hu Ha Hid Hf Hty Hop Hne (text_bytes cs Hcs) Hat Hlt) as Hw.
  by rewrite (blanked_text cs Hcs) in Hw.
Qed.

Lemma SeekFunction_ok pt n m c h tab id f ino off pos :
  Strings.uses pt n m -> has_regs m -> registers m !! 4%nat = Some pos -> registers m !! 5%nat = Some id ->
  2 <= id <= 9 -> tab !! Z.to_nat id = Some (Some f) ->
  HostFile.open_on h f ino off -> 0 <= pos <= Z.of_nat (length (h_data h ino)) ->
  exists m' h', SeekFunction (St m c h tab) = Ok (St m' c h' (<[Z.to_nat id := Some (HostFile.set_offset f pos)]> tab)) /\
    returned pt n m m' pos /\ moved h h' (HostFile.file f) ino pos /\ forall i, h_data h' i = h_data h i.
Proof.
  intros Hu Hm H4 H5 Hid Hf Hop Hpos. pose proof (lookup_lt_Some _ _ _ Hf) as Htab.
  unfold SeekFunction. rewrite (reg_St _ _ _ _ 4 pos), (reg_St _ _ _ _ 5 id) by done. cbn [mbind outcome_bind].
  rewrite Z.gtb_ltb, (proj2 (Z.ltb_ge id 0)), (proj2 (Z.ltb_ge 9 id)), (proj2 (Z.eqb_neq id 0)), (proj2 (Z.eqb_neq id 1)) by lia.
  cbn [orb]. rewrite (file_at_St _ _ _ _ id (Some f)) by (done || lia). cbn [mbind outcome_bind].
  rewrite (proj2 (Z.eqb_neq pos (-1))) by lia. cbn [mbind outcome_bind].
  rewrite (proj2 (Z.ltb_ge pos 0)) by lia. cbn [host_of fileSystem St HostFile.host].
  destruct (HostFile.Length_ok h f ino off Hop) as (h1 & -> & M1 & D1). cbn [mbind outcome_bind].
  rewrite Z.gtb_ltb, (proj2 (Z.ltb_ge _ pos)) by lia.
  destruct (HostFile.Seek_ok h1 f ino off pos (open_on_moved _ _ _ _ _ Hop M1) ltac:(lia)) as (h2 & -> & M2 & D2).
  cbn [mbind outcome_bind]. change (with_host (St m c h tab) h2) with (St m c h2 tab).
  rewrite put_file_St by lia. cbn [mbind outcome_bind]. rewrite set_reg_St by done.
  eexists _, h2. split; [done|]. split.
  { split; [by apply uses_set_registers|done]. }
  split; [by eapply HostFile.moved_trans|]. intros i; by rewrite D2, D1.
Qed.

(** [Read] up to the test of the number of bytes. *)
Lemma ReadFunction_reads junk pt n m c h tab id f ino off va k bs :
  Strings.uses pt n m -> args m va k id -> 0 <= id <= 9 -> tab !! Z.to_nat id = Some (Some f) ->
  HostFile.type f = 0 \/ HostFile.type f = 1 -> HostFile.open_on h f ino off -> 0 <= k < 2 ^ 31 -> off + k < 2 ^ 31 ->
  (forall j, 0 <= j < k -> Strings.writable pt n (s32 (va + j))) ->
  bs = slice (h_data h ino) (Z.to_nat off) (Z.to_nat k) ->
  let len := Z.of_nat (length bs) in
  let f' := HostFile.set_offset f (off + len) in
  exists m1 h' buf, Strings.touched pt n m m1 /\ moved h h' (HostFile.file f) ino (off + len) /\ (forall i, h_data h' i = h_data h i) /\
    (length bs <= length buf)%nat /\
    ReadFunction junk (St m c h tab) =
      (let s := St m1 c h' (<[Z.to_nat id := Some f']> tab) in
       if len >? 0 then
         let '(h, f, newPos) := HostFile.GetCurrentPos h' f' in
         s ← put_file (with_host s h) id (Some f);
         '(s, _) ← system2user s va (s32 (newPos - off)) (splice buf 0 bs);
         set_reg s 2 (s32 (newPos - off))
       else set_reg s 2 (-2)).
Proof.
  intros Hu (Hm & H4 & H5 & H6) Hid Hf Hty Hop Hk Hlt Hw Hbs len f'. pose proof (lookup_lt_Some _ _ _ Hf) as Htab.
  assert (Hlen : (length bs <= Z.to_nat k)%nat) by (rewrite Hbs; unfold slice; rewrite length_take; lia).
  assert (Ht : (HostFile.type f =? 3) = false /\ (HostFile.type f =? 2) = false) by (destruct Hty as [-> | ->]; done).
  unfold ReadFunction. rewrite (reg_St _ _ _ _ 4 va), (reg_St _ _ _ _ 5 k), (reg_St _ _ _ _ 6 id) by done.
  cbn [mbind outcome_bind]. rewrite Z.gtb_ltb, (proj2 (Z.ltb_ge id 0)), (proj2 (Z.ltb_ge 9 id)) by lia. cbn [orb].
  rewrite (file_at_St _ _ _ _ id (Some f)) by (done || lia). cbn [mbind outcome_bind]. rewrite (proj1 Ht).
  destruct (HostFile.GetCurrentPos_ok h f ino off Hop) as (h1 & E1 & M1 & D1). cbn [host_of fileSystem St HostFile.host]. rewrite E1.
  change (with_host (St m c h tab) h1) with (St m c h1 tab).
  rewrite put_file_St by lia. cbn [mbind outcome_bind]. rewrite list_insert_id by done.
  unfold user2system at 1, User2System. rewrite (proj2 (Z.ltb_ge (k + 1) 0)) by lia. cbn [base St machine].
  destruct (Strings.copy_in_total pt n va (Z.to_nat k) m 0 (replicate (Z.to_nat (k + 1)) 0)) as (m1 & buf & -> & Htc & Hlb);
    [done|done|rewrite length_replicate; lia| |].
  { intros j Hj. apply (Strings.writable_ubyte pt n); [done|]. apply Hw. lia. }
  rewrite length_replicate in Hlb. cbn [mbind outcome_bind].
  change (with_machine (St m c h1 tab) m1) with (St m1 c h1 tab). rewrite (proj2 Ht).
  cbn [host_of fileSystem St HostFile.host].
  destruct (HostFile.host_Read_ok h1 f ino off buf k (open_on_moved _ _ _ _ _ Hop M1)) as (h2 & -> & M2 & D2); [lia|lia|].
  rewrite D1, <- Hbs in *. fold len f' in M2 |- *. cbn [mbind outcome_bind].
  change (with_host (St m1 c h1 tab) h2) with (St m1 c h2 tab). rewrite put_file_St by lia. cbn [mbind outcome_bind].
  exists m1, h2, buf. split; [done|]. split; [by eapply HostFile.moved_trans|]. split; [intros i; by rewrite D2, D1|]. split; [lia|]. done.
Qed.

Lemma ReadFunction_bytes junk pt n m c h tab id f ino off va k bs :
  Strings.uses pt n m -> own_frames pt pt True -> args m va k id -> 0 <= id <= 9 -> tab !! Z.to_nat id = Some (Some f) ->
  HostFile.type f = 0 \/ HostFile.type f = 1 -> HostFile.open_on h f ino off -> 0 <= k < 2 ^ 31 -> off + k < 2 ^ 31 ->
  (forall j, 0 <= j < k -> Strings.writable pt n (s32 (va + j))) ->
  bs = slice (h_data h ino) (Z.to_nat off) (Z.to_nat k) -> bs <> [] -> Forall is_byte bs ->
  let len := Z.of_nat (length bs) in
  let f' := HostFile.set_offset f (off + len) in
  exists m1 m' h', ReadFunction junk (St m c h tab) = Ok (St m' c h' (<[Z.to_nat id := Some f']> tab)) /\
    Strings.stored pt n m m1 va 0 (until_zero bs) /\ returned pt n m1 m' len /\ moved h h' (HostFile.file f) ino (off + len) /\
    forall i, h_data h' i = h_data h i.
Proof.
  intros Hu Hown Ha Hid Hf Hty Hop Hk Hlt Hw Hbs Hne Htx len f'. pose proof Ha as (Hm & _). pose proof (lookup_lt_Some _ _ _ Hf) as Htab.
  assert (0 < length bs)%nat by (destruct bs; [done|cbn; lia]). assert (Hoff : 0 <= off) by (by destruct Hop as (_ & _ & ?)).
  assert (Hlen : (length bs <= Z.to_nat k)%nat) by (rewrite Hbs; unfold slice; rewrite length_take; lia).
  destruct (until_zero_stored bs Htx) as (Hz1 & Hz2 & Hz3 & Hz4 & Hz5).
  destruct (ReadFunction_reads junk pt n m c h tab id f ino off va k bs) as (m1 & h2 & buf & Htc & M2 & D2 & Hbuf & ->); try done || lia.
  cbv zeta. fold len f'. rewrite Z.gtb_ltb, (proj2 (Z.ltb_lt 0 len)) by lia.
  pose proof (moved_open _ _ _ _ _ M2 ltac:(lia)) as Hop2. fold len f' in Hop2.
  destruct (HostFile.GetCurrentPos_ok h2 f' ino _ Hop2) as (h3 & -> & M3 & D3).
  change (with_host (St m1 c h2 ?x) h3) with (St m1 c h3 x).
  rewrite put_file_St by (rewrite length_insert; lia). cbn [mbind outcome_bind]. rewrite list_insert_insert_eq.
  replace (off + len - off) with len by lia. rewrite s32_small by (unfold is_s32, len; lia).
  unfold system2user. cbn [base St machine].
  destruct (Strings.System2User_ok pt n m1 va len (splice buf 0 bs) (until_zero bs)) as (m2 & -> & Hst); try done.
  - apply Htc.
  - by apply Hz2.
  - unfold len. lia.
  - intros j Hj. apply Hw. lia.
  - intros j x Hj. destruct (Hz3 j x Hj) as [Hx ?]. split; [|done].
    pose proof (lookup_lt_Some _ _ _ Hx). rewrite lookup_splice_in by lia. by rewrite Nat.sub_0_r.
  - unfold len. destruct Hz5 as [->|?]; [by left|by right].
  - cbn [mbind outcome_bind]. change (with_machine (St m1 c h3 ?x) m2) with (St m2 c h3 x).
    destruct Htc as (Hu1 & Hr1 & Hmem1). destruct Hst as (Hu2 & Hr2 & Hs2 & Ho2).
    rewrite set_reg_St by (done || by unfold has_regs; rewrite Hr2, Hr1).
    exists m2. eexists _, h3. split; [done|]. split.
    { split; [done|]. split; [congruence|]. split; [done|]. intros b Hb. rewrite Ho2 by done. unfold Strings.ubyte. by rewrite Hmem1. }
    split; [by split; [apply uses_set_registers|]|].
    split; [by eapply HostFile.moved_trans|]. intros i. by rewrite D3, D2.
Qed.

Lemma ReadFunction_ok junk pt n m c h tab id f ino off va k bs :
  Strings.uses pt n m -> own_frames pt pt True -> args m va k id -> 0 <= id <= 9 -> tab !! Z.to_nat id = Some (Some f) ->
  HostFile.type f = 0 \/ HostFile.type f = 1 -> HostFile.open_on h f ino off -> 0 < k < 2 ^ 31 -> off + k < 2 ^ 31 ->
  (forall j, 0 <= j < k -> Strings.writable pt n (s32 (va + j))) ->
  bs = slice (h_data h ino) (Z.to_nat off) (Z.to_nat k) -> bs <> [] -> Forall Strings.is_char bs ->
  let len := Z.of_nat (length bs) in
  let f' := HostFile.set_offset f (off + len) in
  exists m1 m' h', ReadFunction junk (St m c h tab) = Ok (St m' c h' (<[Z.to_nat id := Some f']> tab)) /\
    Strings.stored pt n m m1 va 0 bs /\ returned pt n m1 m' len /\ moved h h' (HostFile.file f) ino (off + len) /\
    forall i, h_data h' i = h_data h i.
Proof.
  intros Hu Hown Ha Hid Hf Hty Hop Hk Hlt Hw Hbs Hne Htx len f'.
  pose proof (ReadFunction_bytes junk pt n m c h tab id f ino off va k bs Hu Hown Ha Hid Hf Hty Hop ltac:(lia) Hlt Hw Hbs Hne (text_bytes bs Htx)) as Hr.
  by rewrite (until_zero_text bs Htx) in Hr.
Qed.

Lemma slice_written off bs data : slice (written off bs data) off (length bs) = bs.
Proof.
  unfold slice, written.
  assert (length (take off (data ++ replicate (off - length data) 0)) = off) as Hl
    by (rewrite length_take, length_app, length_replicate; lia).
  rewrite drop_app_length' by (by rewrite Hl). apply take_app_length.
Qed.

Lemma length_written off bs data : (off + length bs <= length (written off bs data))%nat.
Proof. unfold written. rewrite !length_app, length_take, length_app, length_replicate. lia. Qed.

(** The program changes registers between two calls. *)
Definition only_registers (m m' : Machine.t) : Prop := m' = set_registers m (registers m').

Lemma only_registers_uses pt n m m' : only_registers m m' -> Strings.uses pt n m -> Strings.uses pt n m'.
Proof. intros -> ?. by apply uses_set_registers. Qed.

Lemma returned_regs pt n m m' v : has_regs m -> returned pt n m m' v -> has_regs m' /\ registers m' !! 2%nat = Some v.
Proof.
  unfold has_regs, NumTotalRegs. intros Hm (_ & Hr & _). rewrite Hr, length_insert. split; [done|].
  apply list_lookup_insert_eq. lia.
Qed.

(** What a program writes to a file it reads back.  [Write] of text from
    user memory answers its length and puts it at the offset of the file;
    [Seek] back to that offset and [Read] into a buffer that may be written
    answer the offset and the length, and the buffer then holds the text.  The
    process sees no other change of its memory, and no other file of the host
    changes. *)
Theorem write_seek_read junk pt n m c h tab id f ino off va va2 cs :
  Strings.uses pt n m -> own_frames pt pt True -> 2 <= id <= 9 -> tab !! Z.to_nat id = Some (Some f) ->
  HostFile.type f = 0 -> HostFile.open_on h f ino off -> cs <> [] -> Forall Strings.is_char cs ->
  off + Z.of_nat (length cs) < 2 ^ 31 ->
  args m va (Z.of_nat (length cs)) id -> chars_at pt n m va cs ->
  (forall j, 0 <= j < Z.of_nat (length cs) -> Strings.writable pt n (s32 (va2 + j))) ->
  exists m1 h1 tab1, WriteFunction (St m c h tab) = Ok (St m1 c h1 tab1) /\
    registers m1 !! 2%nat = Some (Z.of_nat (length cs)) /\
    forall m2, only_registers m1 m2 -> args m2 off id id ->
    exists m3 h3 tab3, SeekFunction (St m2 c h1 tab1) = Ok (St m3 c h3 tab3) /\ registers m3 !! 2%nat = Some off /\
      forall m4, only_registers m3 m4 -> args m4 va2 (Z.of_nat (length cs)) id ->
      exists m5 h5 tab5, ReadFunction junk (St m4 c h3 tab3) = Ok (St m5 c h5 tab5) /\
        registers m5 !! 2%nat = Some (Z.of_nat (length cs)) /\ chars_at pt n m5 va2 cs /\
        (forall b, (forall j, (j < length cs)%nat -> u32 b <> u32 (va2 + Z.of_nat j)) ->
           Strings.ubyte pt n m5 b = Strings.ubyte pt n m b) /\
        (forall i, i <> ino -> h_data h5 i = h_data h i).
Proof.
  intros Hu Hown Hid Hf Hty Hop Hne Hcs Hlt Ha Hat Hw.
  assert (Hpos : (0 < length cs)%nat) by (destruct cs; [done|cbn; lia]). assert (Hoff : 0 <= off) by (by destruct Hop as (_ & _ & ?)).
  pose proof (lookup_lt_Some _ _ _ Hf) as Htab.
  destruct (WriteFunction_ok pt n m c h tab id f ino off va cs) as (m1 & h1 & E1 & R1 & O1 & D1 & D1'); try done || lia.
  set (f1 := HostFile.set_offset f (off + Z.of_nat (length cs))) in *. set (tab1 := <[Z.to_nat id := Some f1]> tab) in *.
  exists m1, h1, tab1. split; [done|]. split; [by apply (returned_regs pt n m); [apply Ha|]|].
  intros m2 Hm2 (G1 & G2 & G3 & _).
  destruct (SeekFunction_ok pt n m2 c h1 tab1 id f1 ino (off + Z.of_nat (length cs)) off) as (m3 & h3 & E3 & R3 & O3 & D3); try done.
  { apply (only_registers_uses _ _ m1); [done|]. apply R1. }
  { unfold tab1. apply list_lookup_insert_eq. done. }
  { by apply (moved_open h); [|lia]. }
  { rewrite D1. pose proof (length_written (Z.to_nat off) cs (h_data h ino)). lia. }
  set (f3 := HostFile.set_offset f1 off) in *. set (tab3 := <[Z.to_nat id := Some f3]> tab1) in *.
  exists m3, h3, tab3. split; [done|]. split; [by apply (returned_regs pt n m2)|]. intros m4 Hm4 Ha4.
  destruct (ReadFunction_ok junk pt n m4 c h3 tab3 id f3 ino off va2 (Z.of_nat (length cs)) cs)
    as (m5 & m6 & h6 & E6 & (U5 & Q5 & S5 & B5) & R6 & O6 & D6); try done || lia.
  { apply (only_registers_uses _ _ m3); [done|]. apply R3. }
  { unfold tab3, tab1. apply list_lookup_insert_eq. by rewrite length_insert. }
  { by left. }
  { by apply (moved_open h1). }
  { by rewrite D3, D1, Nat2Z.id, slice_written. }
  destruct R6 as (U6 & Q6 & M6).
  assert (Hmem : mainMemory m4 = mainMemory m).
  { rewrite Hm4. cbn. destruct R3 as (_ & _ & ->). rewrite Hm2. cbn. by destruct R1 as (_ & _ & ->). }
  eexists m6, h6, _. split; [exact E6|]. split.
  { apply (returned_regs pt n m5); [|done]. unfold has_regs. rewrite Q5. apply Ha4. }
  split; [|split].
  - intros j x Hj. unfold Strings.ubyte. rewrite M6. apply (S5 j x Hj).
  - intros b Hb. assert (Strings.ubyte pt n m6 b = Strings.ubyte pt n m5 b) as -> by (unfold Strings.ubyte; by rewrite M6).
    rewrite B5; [unfold Strings.ubyte; by rewrite Hmem|]. intros j Hj. rewrite u32_s32. by apply Hb.
  - intros i Hi. by rewrite D6, D3, D1'.
Qed.

(** ** What the calls answer for files they do not know *)

(** [FindFreeSlot]: the first free slot from 2 on. *)
Lemma FindFreeSlot_from_ok k : forall i (h : H) tab, 0 <= i -> i + Z.of_nat k <= Z.of_nat (length tab) ->
  exists r, HostFile.FindFreeSlot_from k i (HostFile.mk h tab) = Ok r /\
    ((r = -1 /\ forall j, i <= j < i + Z.of_nat k -> exists f, tab !! Z.to_nat j = Some (Some f)) \/
     (i <= r < i + Z.of_nat k /\ tab !! Z.to_nat r = Some None)).
Proof.
  induction k as [|k IH]; intros i h tab Hi Hl; cbn [HostFile.FindFreeSlot_from].
  - exists (-1). split; [done|]. left. split; [done|]. lia.
  - destruct (lookup_lt_is_Some_2 tab (Z.to_nat i)) as [x Hx]; [lia|]. cbn [HostFile.openfile].
    rewrite (rd_lookup _ _ _ Hi Hx). cbn [mbind outcome_bind]. destruct x as [f|].
    + destruct (IH (i + 1) h tab) as (r & E & Hr); [lia|lia|]. exists r. split; [done|].
      destruct Hr as [[-> Hall]|[Hr Hn]]; [left|right; split; [lia|done]]. split; [done|].
      intros j Hj. destruct (decide (j = i)) as [->|]; [by exists f|apply Hall; lia].
    + exists i. split; [done|]. right. split; [lia|done].
Qed.

(** The error answers of the calls on files.  [Open] of a file that the host
    does not open leaves register 2 as it is, so the program gets the number of
    the system call as its descriptor; [Read] and [Write] answer -1 for every
    descriptor above 9, although [Open] gives out those up to 14, and for every
    slot that is not open; [Close] answers -1 for those. *)
Theorem file_calls_errors junk pt n m c h tab va k id name h' :
  Strings.uses pt n m -> args m va k id -> Z.of_nat (length tab) = HostFile.NumSlots ->
  (Forall Strings.is_char name -> Z.of_nat (length name) <= MAX_LENGTH -> Strings.string_at pt n m va name ->
   h_open h name false = (h', -1) -> (exists j, 2 <= j < HostFile.NumSlots /\ tab !! Z.to_nat j = Some None) -> k = 0 \/ k = 1 ->
     exists m', OpenFunction (St m c h tab) = Ok (St m' c h' tab) /\ registers m' = registers m) /\
  (9 < id \/ id < 0 \/ tab !! Z.to_nat id = Some None ->
     let m' := set_registers m (<[2%nat := -1]> (registers m)) in
     ReadFunction junk (St m c h tab) = Ok (St m' c h tab) /\ WriteFunction (St m c h tab) = Ok (St m' c h tab)) /\
  (14 < va \/ va < 0 \/ tab !! Z.to_nat va = Some None ->
     CloseFunction (St m c h tab) = Ok (St (set_registers m (<[2%nat := -1]> (registers m))) c h tab)).
Proof.
  intros Hu (Hm & H4 & H5 & H6) Hl. unfold HostFile.NumSlots in *.
  split; [|split].
  - intros Hn Hln Hat Ho (j & Hj & Hfree) Hk. unfold OpenFunction. rewrite (reg_St _ _ _ _ 4 va) by done. cbn [mbind outcome_bind].
    unfold user2system at 1. cbn [base St machine].
    destruct (Strings.User2System_string pt n m va MAX_LENGTH name Hu Hn Hln Hat) as (m' & -> & Hu' & Hr' & Hmem').
    cbn [mbind outcome_bind]. change (with_machine (St m c h tab) m') with (St m' c h tab). cbn [fileSystem St].
    unfold HostFile.FindFreeSlot, HostFile.NumSlots.
    destruct (FindFreeSlot_from_ok (Z.to_nat (15 - 2)) 2 h tab) as (r & -> & Hr); [lia|lia|]. cbn [mbind outcome_bind].
    destruct Hr as [[-> Hall]|[Hr Hrn]]; [destruct (Hall j) as [f Hf]; [lia|congruence]|].
    fold (St m' c h tab). rewrite (reg_St _ _ _ _ 5 k) by (done || by rewrite Hr'). cbn [mbind outcome_bind].
    rewrite (proj2 (Z.eqb_neq r (-1))) by lia. cbn [negb].
    assert ((k =? 0) || (k =? 1) = true) as -> by (destruct Hk as [-> | ->]; done).
    rewrite c_string_text by done.
    unfold HostFile.Open, HostFile.OpenForReadWrite. cbn [St fileSystem HostFile.host HostFile.openfile]. rewrite Ho.
    cbn [negb orb ASSERT mbind outcome_bind Z.eqb Pos.eqb]. change (with_fs _ (HostFile.mk h' tab)) with (St m' c h' tab).
    rewrite put_file_St by lia. cbn [mbind outcome_bind]. rewrite list_insert_id by done. by exists m'.
  - intros Hbad. unfold ReadFunction, WriteFunction.
    rewrite (reg_St _ _ _ _ 4 va), (reg_St _ _ _ _ 5 k), (reg_St _ _ _ _ 6 id) by done. cbn [mbind outcome_bind].
    rewrite Z.gtb_ltb. destruct ((id <? 0) || (9 <? id)) eqn:Eb; [by rewrite set_reg_St|].
    apply orb_false_iff in Eb as [Eb1%Z.ltb_ge Eb2%Z.ltb_ge]. destruct Hbad as [?|[?|Hb]]; [lia|lia|].
    rewrite (file_at_St _ _ _ _ id None) by (done || lia). cbn [mbind outcome_bind]. by rewrite set_reg_St.
  - intros Hbad. unfold CloseFunction. rewrite (reg_St _ _ _ _ 4 va) by done. cbn [mbind outcome_bind].
    rewrite Z.geb_leb. destruct ((0 <=? va) && (va <=? 14)) eqn:Eb; [|cbn [mbind outcome_bind]; by rewrite set_reg_St].
    apply andb_true_iff in Eb as [Eb1%Z.leb_le Eb2%Z.leb_le]. destruct Hbad as [?|[?|Hb]]; [lia|lia|].
    rewrite (file_at_St _ _ _ _ va None) by (done || lia). cbn [mbind outcome_bind]. by rewrite set_reg_St.
Qed.

End handlers.

(** ** A process with an open file *)

Definition demo_host : UnixModel.t := UnixModel.mk {[ [97] := 1 ]} {[ 1 := [] ]} {[ 3 := (1, 0) ]}.
Definition demo_files : list (option HostFile.OpenFile) :=
  [None; None; Some (HostFile.mkFile 3 0 0)] ++ replicate 12 None.

(** The fresh machine with page 0 in frame 5, a string of two characters at address 100 and
    the arguments [a4], [a5] and [a6]. *)
Definition demo_memory (m : Machine.t) : list Z := splice (mainMemory m) 2660 [104; 105; 0].
Definition demo_call (m : Machine.t) (a4 a5 a6 : Z) : Machine.t :=
  set_registers (set_memory (with_table m demo_table 2) (demo_memory m))
    (<[4%nat := a4]> (<[5%nat := a5]> (<[6%nat := a6]> (registers m)))).

Lemma demo_call_ok m a4 a5 a6 : regs_ok m -> mem_ok m ->
  Strings.uses demo_table 2 (demo_call m a4 a5 a6) /\ args (demo_call m a4 a5 a6) a4 a5 a6 /\
  Strings.string_at demo_table 2 (demo_call m a4 a5 a6) 100 [104; 105].
Proof.
  intros [Hr _] [Hl Hb]. unfold MemorySize, NumPhysPages, PageSize, SectorSize, NumTotalRegs in *. split; [|split].
  - split.
    + unfold mem_ok, demo_call, demo_memory. cbn [mainMemory set_registers set_memory]. rewrite length_splice by (cbn [length]; lia).
      split; [done|]. apply Forall_splice; [done|]. repeat constructor; done.
    + exists demo_table. split; [done|]. split; [cbn; lia|done].
  - unfold args, has_regs, demo_call. cbn [registers set_registers]. rewrite !length_insert. split; [done|].
    split; [apply list_lookup_insert_eq; rewrite !length_insert; lia|].
    split; [rewrite list_lookup_insert_ne by lia; apply list_lookup_insert_eq; rewrite !length_insert; lia|].
    rewrite !list_lookup_insert_ne by lia. apply list_lookup_insert_eq. lia.
  - intros j x Hj. unfold Strings.ubyte, demo_call, demo_memory. cbn [mainMemory set_registers set_memory].
    destruct j as [|[|[|j]]]; [| | |done]; injection Hj as <-.
    + change (xlate demo_table 2 (s32 (100 + Z.of_nat 0)) 1 false) with (@inr ExceptionType Z 2660).
      cbn iota. change (Z.to_nat 2660) with 2660%nat. rewrite lookup_splice_in by (cbn [length]; lia). done.
    + change (xlate demo_table 2 (s32 (100 + Z.of_nat 1)) 1 false) with (@inr ExceptionType Z 2661).
      cbn iota. change (Z.to_nat 2661) with 2661%nat. rewrite lookup_splice_in by (cbn [length]; lia). done.
    + change (xlate demo_table 2 (s32 (100 + Z.of_nat 2)) 1 false) with (@inr ExceptionType Z 2662).
      cbn iota. change (Z.to_nat 2662) with 2662%nat. rewrite lookup_splice_in by (cbn [length]; lia). done.
Qed.

Lemma demo_writable va j : 0 <= va -> va + 2 <= 512 -> 0 <= j < 2 -> Strings.writable demo_table 2 (s32 (va + j)).
Proof.
  intros Hva Hlt Hj. rewrite s32_small by (unfold is_s32; lia). exists (5 * 512 + (va + j)). unfold xlate, vpn_of, offset_of, PageSize, SectorSize.
  assert (u32 (va + j) = va + j) as -> by (unfold u32; rewrite Z.mod_small; lia).
  rewrite Z.div_small, Z.mod_small by lia. done.
Qed.

Lemma write_seek_read_witness : exists m m1 h1 tab1,
  m = Machine_new 0 0 false /\
  WriteFunction (St (demo_call m 100 2 2) (SynchConsole.SynchConsole_new []) demo_host demo_files) =
    Ok (St m1 (SynchConsole.SynchConsole_new []) h1 tab1) /\
  registers m1 !! 2%nat = Some 2.
Proof.
  destruct fresh_machine as [m E]. exists m.
  assert (Hok : regs_ok m /\ mem_ok m) by (rewrite E; exact (Machine_new_ok 0 0 false)). destruct Hok as [Hr Hm].
  destruct (demo_call_ok m 100 2 2 Hr Hm) as (Hu & Ha & Hc).
  destruct (write_seek_read 0 demo_table 2 (demo_call m 100 2 2) (SynchConsole.SynchConsole_new []) demo_host demo_files 2
    (HostFile.mkFile 3 0 0) 1 0 100 200 [104; 105]) as (m1 & h1 & tab1 & E1 & R1 & _).
  - exact Hu.
  - apply demo_table_own.
  - lia.
  - done.
  - done.
  - done.
  - done.
  - repeat constructor; done.
  - cbn. lia.
  - exact Ha.
  - by apply string_chars.
  - intros j Hj. cbn [length] in Hj. apply demo_writable; lia.
  - exists m1, h1, tab1. split; [exact E|]. split; [exact E1|exact R1].
Defined.

Lemma file_calls_errors_witness : exists m,
  m = Machine_new 0 0 false /\
  CloseFunction (St (demo_call m 7 1 12) (SynchConsole.SynchConsole_new []) demo_host demo_files) =
    Ok (St (set_registers (demo_call m 7 1 12) (<[2%nat := -1]> (registers (demo_call m 7 1 12))))
           (SynchConsole.SynchConsole_new []) demo_host demo_files).
Proof.
  destruct fresh_machine as [m E]. exists m. split; [exact E|].
  assert (Hok : regs_ok m /\ mem_ok m) by (rewrite E; exact (Machine_new_ok 0 0 false)). destruct Hok as [Hr Hm].
  destruct (demo_call_ok m 7 1 12 Hr Hm) as (Hu & Ha & _).
  apply (file_calls_errors 0 demo_table 2 (demo_call m 7 1 12) (SynchConsole.SynchConsole_new []) demo_host demo_files 7 1 12 [] demo_host Hu Ha eq_refl).
  right. right. reflexivity.
Defined.

End FileCalls.
