(* ===== verification/ProcessCalls.v ===== *)
(** * userprog/exception.cc: the system calls on processes and semaphores

    The handlers read their arguments from the registers and from user memory,
    call the process table ([Processes.v]) or the semaphore table ([STables.v])
    and put the result into register 2.  A call on the process table goes on in
    pieces, so its handler answers the call that it makes; the result is what
    the thread returns with to its program. *)

From S2P Require Import Prelude Allocator Bitmap MachineSim ConsoleDev Syscalls UserStrings HostFiles FileCalls Threads Processes STables.
Import Machine Syscall.

Local Open Scope Z_scope.

Module ProcessCalls.

Section process_calls.
Context {H : Type} `{HH : Host H}.
Implicit Types s : FileCalls.t H.

(** [ExecFunction] up to [pTab->ExecUpdate(progName)]: the call, or [None] when
    it answered -1.  [raw] is what the field [type] of the new file object held.
    The file it opened is closed after the call, and the name is deleted
    ([Process.free_name]). *)
Definition ExecFunction (raw : Z) s : outcome (FileCalls.t H * option Process.syscall) :=
  virtualAddr ← FileCalls.reg s 4;
  '(s, progName) ← FileCalls.user2system s virtualAddr (FileCalls.MAX_LENGTH + 1);
  '(fs, file) ← HostFile.Open (FileCalls.fileSystem s) (FileCalls.c_string progName) raw;
  let s := FileCalls.with_fs s fs in
  match file with
  | None => s ← FileCalls.set_reg s 2 (-1); Ok (s, None)
  | Some _ => Ok (s, Some (Process.CExec (FileCalls.c_string progName)))
  end.

(** [delete file] at the end of [ExecFunction]. *)
Definition ExecFunction_end s (file : HostFile.OpenFile) (ID : Z) : outcome (FileCalls.t H) :=
  s ← FileCalls.set_reg s 2 ID;
  h ← HostFile.Close (FileCalls.host_of s) (HostFile.file file);
  Ok (FileCalls.with_host s h).

Definition JoinFunction s : outcome Process.syscall :=
  id ← FileCalls.reg s 4; Ok (Process.CJoin id).

(** What [JoinFunction] does with the answer of [pTab->JoinUpdate]. *)
Definition JoinFunction_end s (exitcode : Z) : outcome (FileCalls.t H) := FileCalls.set_reg s 2 exitcode.

(** [ExitFunction]: [None] when it returns to the program. *)
Definition ExitFunction s : outcome (option Process.syscall) :=
  status ← FileCalls.reg s 4;
  if negb (status =? 0) then Ok None else Ok (Some (Process.CExit status)).

(** [Exec] runs the program that the user's string names: the name that
    reaches the process table is the string in user memory, after the host has
    opened a file of that name; when it does not open one the answer is -1 and
    no process is created. *)
Theorem exec_uses_name_in_memory raw pt n m c h tab va name h' fd :
  Strings.uses pt n m -> has_regs m -> registers m !! 4%nat = Some va ->
  Forall Strings.is_char name -> Z.of_nat (length name) <= FileCalls.MAX_LENGTH + 1 -> Strings.string_at pt n m va name ->
  h_open h name false = (h', fd) ->
  exists m', Strings.uses pt n m' /\ mainMemory m' = mainMemory m /\
    ExecFunction raw (FileCalls.St m c h tab) =
      Ok (FileCalls.St m' c h' tab, if fd =? -1 then None else Some (Process.CExec name)) /\
    registers m' = if fd =? -1 then <[2%nat := -1]> (registers m) else registers m.
Proof.
  intros Hu Hm H4 Hn Hl Hat Ho. unfold ExecFunction. rewrite (FileCalls.reg_St _ _ _ _ 4 va) by done. cbn [mbind outcome_bind].
  unfold FileCalls.user2system. cbn [FileCalls.base FileCalls.St machine].
  destruct (Strings.User2System_string pt n m va (FileCalls.MAX_LENGTH + 1) name Hu Hn Hl Hat) as (m1 & -> & Hu1 & Hr1 & Hmem1).
  cbn [mbind outcome_bind]. rewrite FileCalls.c_string_text by done.
  unfold HostFile.Open, HostFile.OpenForReadWrite. cbn [FileCalls.with_machine FileCalls.fileSystem FileCalls.St HostFile.host HostFile.openfile].
  rewrite Ho. cbn [negb orb ASSERT mbind outcome_bind]. destruct (fd =? -1).
  - change (FileCalls.with_fs _ (HostFile.mk h' tab)) with (FileCalls.St m1 c h' tab).
    rewrite FileCalls.set_reg_St by (done || by unfold has_regs; rewrite Hr1). cbn [mbind outcome_bind].
    eexists. split; [by apply FileCalls.uses_set_registers|]. split; [exact Hmem1|]. split; [done|]. cbn. by rewrite Hr1.
  - exists m1. done.
Qed.

End process_calls.

Lemma exec_uses_name_in_memory_witness : exists m m',
  m = Machine_new 0 0 false /\
  ExecFunction 0 (FileCalls.St (FileCalls.demo_call m 100 0 0) (SynchConsole.SynchConsole_new []) FileCalls.demo_host FileCalls.demo_files) =
    Ok (FileCalls.St m' (SynchConsole.SynchConsole_new []) FileCalls.demo_host FileCalls.demo_files, None) /\
  registers m' !! 2%nat = Some (-1).
Proof.
  destruct fresh_machine as [m E]. exists m.
  assert (Hok : regs_ok m /\ mem_ok m) by (rewrite E; exact (Machine_new_ok 0 0 false)). destruct Hok as [Hr Hm].
  destruct (FileCalls.demo_call_ok m 100 0 0 Hr Hm) as (Hu & (Hl & H4 & _) & Hs).
  destruct (exec_uses_name_in_memory 0 demo_table 2 (FileCalls.demo_call m 100 0 0) (SynchConsole.SynchConsole_new [])
    FileCalls.demo_host FileCalls.demo_files 100 [104; 105] FileCalls.demo_host (-1)) as (m' & _ & _ & Ex & Er).
  - exact Hu.
  - exact Hl.
  - exact H4.
  - repeat constructor; done.
  - done.
  - exact Hs.
  - reflexivity.
  - exists m'. split; [exact E|]. split; [exact Ex|]. rewrite Er. cbn [Z.eqb Pos.eqb]. apply list_lookup_insert_eq.
    unfold has_regs, NumTotalRegs in Hl. lia.
Defined.

(** ** Semaphores *)

Record t (T : Type) := mk { base : Syscall.t; kernel : Kernel.t; semTab : STable.t T }.
Arguments mk {T}. Arguments base {T}. Arguments kernel {T}. Arguments semTab {T}.

Section semaphore_calls.
Context {T : Type} `{AL : Allocator T}.
Implicit Types s : t T.

Definition set_reg s (v : Z) : outcome (t T) :=
  m ← WriteRegister (machine (base s)) 2 v;
  Ok (mk (set_machine (base s) m) (kernel s) (semTab s)).

(** The name that a call gives in user memory. *)
Definition name_of s (virtualAddr : Z) : outcome (t T * list Z) :=
  '(m, buf) ← User2System (machine (base s)) virtualAddr (FileCalls.MAX_LENGTH + 1);
  Ok (mk (set_machine (base s) m) (kernel s) (semTab s), FileCalls.c_string buf).

(** [addr] is the address of the new semaphore. *)
Definition CreateSemaphoreFunction (addr : Z) s : outcome (t T) :=
  virtualAddr ← ReadRegister (machine (base s)) 4;
  semval ← ReadRegister (machine (base s)) 5;
  '(s, name) ← name_of s virtualAddr;
  '(k, tb, result) ← STable.Create (kernel s) (semTab s) name semval addr;
  let s := mk (base s) k tb in
  if result =? -1 then set_reg s (-1) else set_reg s result.

(** A call that has to wait writes its result when the thread runs again:
    [Blocked] here. *)
Definition WaitFunction s : outcome (t T) :=
  virtualAddr ← ReadRegister (machine (base s)) 4;
  '(s, name) ← name_of s virtualAddr;
  '(k, result) ← STable.Wait (kernel s) (semTab s) name;
  if negb (Kernel.currentThread k =? Kernel.currentThread (kernel s)) || Kernel.idle k then Fault Blocked
  else
    let s := mk (base s) k (semTab s) in
    if result =? -1 then set_reg s (-1) else set_reg s result.

Definition SignalFunction s : outcome (t T) :=
  virtualAddr ← ReadRegister (machine (base s)) 4;
  '(s, name) ← name_of s virtualAddr;
  '(k, result) ← STable.Signal (kernel s) (semTab s) name;
  let s := mk (base s) k (semTab s) in
  if result =? -1 then set_reg s (-1) else set_reg s result.

Context `{!AllocatorLaws T}.

Definition St (m : Machine.t) (c : SynchConsole.t) (k : Kernel.t) (tb : STable.t T) : t T := mk (Syscall.mk m c) k tb.

Lemma put_result_St m c k tb v : has_regs m ->
  set_reg (mk (Syscall.mk m c) k tb) v = Ok (mk (Syscall.mk (set_registers m (<[2%nat := v]> (registers m))) c) k tb).
Proof. intros Hm. unfold set_reg. cbn [base machine]. by rewrite WriteRegister_ok. Qed.

Lemma name_of_St pt n m c k tb va name :
  Strings.uses pt n m -> Forall Strings.is_char name -> Z.of_nat (length name) <= FileCalls.MAX_LENGTH + 1 -> Strings.string_at pt n m va name ->
  exists m', name_of (St m c k tb) va = Ok (St m' c k tb, name) /\ Strings.touched pt n m m'.
Proof.
  intros Hu Hn Hl Hat. unfold name_of. cbn [base St machine].
  destruct (Strings.User2System_string pt n m va (FileCalls.MAX_LENGTH + 1) name Hu Hn Hl Hat) as (m1 & -> & Ht).
  cbn [mbind outcome_bind]. rewrite FileCalls.c_string_text by done. by exists m1.
Qed.

(** The semaphore calls act on the semaphore that the user's string names:
    [CreateSemaphore] answers 0 and adds it, or -1 when there is one of that
    name or no room; [Signal] is [V] of it and answers 0, -1 when there is none;
    [Wait] answers -1 when there is none, decrements a value that is not 0 and
    answers 0. *)
Theorem semaphore_calls_use_name_in_memory pt n m c k tb va init addr name :
  Strings.uses pt n m -> has_regs m -> registers m !! 4%nat = Some va -> registers m !! 5%nat = Some init ->
  Forall Strings.is_char name -> Z.of_nat (length name) <= FileCalls.MAX_LENGTH + 1 -> Strings.string_at pt n m va name ->
  STable.wf k tb -> Kernel.sems k !! addr = None -> Kernel.idle k = false ->
  let result m' v := FileCalls.returned pt n m m' v in
  (exists m' k' tb', CreateSemaphoreFunction addr (St m c k tb) = Ok (St m' c k' tb') /\
     if bool_decide (STable.view tb !! name = None) && negb (Z.of_nat (size (STable.view tb)) =? STable.MAX_SEMAPHORE)
     then result m' 0 /\ k' = Kernel.Semaphore_new k addr init /\ STable.view tb' = <[name := addr]> (STable.view tb)
     else result m' (-1) /\ k' = k /\ tb' = tb) /\
  match STable.view tb !! name with
  | None => exists m', WaitFunction (St m c k tb) = Ok (St m' c k tb) /\ SignalFunction (St m c k tb) = Ok (St m' c k tb) /\ result m' (-1)
  | Some i =>
      (forall k', Kernel.V k i = Ok k' -> exists m', SignalFunction (St m c k tb) = Ok (St m' c k' tb) /\ result m' 0) /\
      (forall x, Kernel.sems k !! i = Some x -> Kernel.value x <> 0 ->
         exists m', WaitFunction (St m c k tb) =
           Ok (St m' c (Kernel.set_sem k i (Kernel.mkSem (s32 (Kernel.value x - 1)) (Kernel.queue x))) tb) /\ result m' 0)
  end.
Proof.
  intros Hu Hm H4 H5 Hn Hl Hat Hwf Hfr Hid result.
  assert (Hl50 : (length name < 50)%nat) by (unfold FileCalls.MAX_LENGTH in Hl; lia).
  destruct (name_of_St pt n m c k tb va name Hu Hn Hl Hat) as (m1 & Ename & Hu1 & Hr1 & Hmem1).
  assert (Hm1 : has_regs m1) by (unfold has_regs; by rewrite Hr1).
  assert (Hres : forall v, result (set_registers m1 (<[2%nat := v]> (registers m1))) v).
  { intros v. split; [by apply FileCalls.uses_set_registers|]. cbn. by rewrite Hr1. }
  split.
  - unfold CreateSemaphoreFunction. cbn [base St machine]. rewrite (ReadRegister_ok m 4 va), (ReadRegister_ok m 5 init) by done.
    cbn [mbind outcome_bind]. rewrite Ename. cbn [mbind outcome_bind kernel semTab St base].
    pose proof (STable.Create_ok k tb name init addr Hwf Hl50 Hfr) as HC. destruct (STable.view tb !! name) as [i|] eqn:Ev.
    + rewrite bool_decide_false by done. cbn [andb]. rewrite HC. cbn [mbind outcome_bind Z.eqb Pos.eqb].
      cbn [base kernel semTab St]; rewrite put_result_St by done. eexists _, _, _. split; [done|]. by split.
    + rewrite bool_decide_true by done. cbn [andb]. destruct (_ =? _); cbn [negb].
      * rewrite HC. cbn [mbind outcome_bind Z.eqb Pos.eqb]. cbn [base kernel semTab St]; rewrite put_result_St by done. eexists _, _, _. split; [done|]. by split.
      * destruct HC as (tb' & -> & _ & Hv). cbn [mbind outcome_bind Z.eqb]. cbn [base kernel semTab St]; rewrite put_result_St by done. eexists _, _, _. split; [done|].
        by split.
  - unfold WaitFunction, SignalFunction. cbn [base St machine]. rewrite (ReadRegister_ok m 4 va) by done. cbn [mbind outcome_bind].
    rewrite Ename. cbn [mbind outcome_bind kernel semTab St base]. unfold STable.Wait, STable.Signal.
    rewrite (STable.find_sem_ok k) by done. cbn [mbind outcome_bind].
    destruct (STable.view tb !! name) as [i|] eqn:Ev; cbn [fmap option_fmap option_map]; unfold STable.Sem_Wait, STable.Sem_Signal; cbn [STable.sem].
    + split.
      * intros k' ->. cbn [mbind outcome_bind Z.eqb]. cbn [base kernel semTab St]; rewrite put_result_St by done. eexists. by split.
      * intros x Hx Hv. unfold Kernel.P, Kernel.sem. rewrite Hx. cbn [mbind outcome_bind].
        rewrite (proj2 (Z.eqb_neq _ 0)) by done. cbn [mbind outcome_bind Kernel.set_sem Kernel.currentThread Kernel.idle].
        rewrite Z.eqb_refl, Hid. cbn [negb orb Z.eqb]. cbn [base kernel semTab St]; rewrite put_result_St by done. eexists. by split.
    + cbn [mbind outcome_bind]. rewrite Z.eqb_refl, Hid. cbn [negb orb Z.eqb Pos.eqb]. cbn [base kernel semTab St]; rewrite put_result_St by done. eexists. by split.
Qed.

End semaphore_calls.

Lemma semaphore_calls_use_name_in_memory_witness : exists (b : BitMap.t) m m' k' tb',
  m = Machine_new 0 0 false /\
  CreateSemaphoreFunction 7 (St (FileCalls.demo_call m 100 1 0) (SynchConsole.SynchConsole_new []) (Kernel.boot 1) (STable.STable_new b)) =
    Ok (St m' (SynchConsole.SynchConsole_new []) k' tb') /\
  registers m' !! 2%nat = Some 0 /\ STable.view tb' = {[ [104; 105] := 7 ]}.
Proof.
  destruct (BitMap.BitMap_spec (fun i => i) 10 ltac:(done)) as (b & _ & Hwf & _ & Hb). exists b.
  pose proof (STable.STable_new_wf (Kernel.boot 1) b Hwf Hb) as Hw.
  destruct fresh_machine as [m E]. exists m.
  assert (Hok : regs_ok m /\ mem_ok m) by (rewrite E; exact (Machine_new_ok 0 0 false)). destruct Hok as [Hr Hm].
  destruct (FileCalls.demo_call_ok m 100 1 0 Hr Hm) as (Hu & (Hl & H4 & H5 & _) & Hs).
  destruct (semaphore_calls_use_name_in_memory demo_table 2 (FileCalls.demo_call m 100 1 0) (SynchConsole.SynchConsole_new [])
    (Kernel.boot 1) (STable.STable_new b) 100 1 7 [104; 105]) as ((m' & k' & tb' & Ex & HR) & _).
  - exact Hu.
  - exact Hl.
  - exact H4.
  - exact H5.
  - repeat constructor; done.
  - done.
  - exact Hs.
  - exact Hw.
  - done.
  - done.
  - cbn in HR. destruct HR as ((_ & Er & _) & _ & Hv). exists m', k', tb'. split; [exact E|]. split; [exact Ex|]. split.
    + rewrite Er. apply list_lookup_insert_eq. unfold has_regs, NumTotalRegs in Hl. lia.
    + exact Hv.
Defined.
End ProcessCalls.
