(* ===== verification/CallFrames.v ===== *)
(** * userprog/exception.cc: what every system call keeps

    A handler reads its arguments from the registers, copies between user and
    kernel memory, and writes at most register 2.  The lemmas of this file show
    that for each handler of [Syscalls.v], [FileCalls.v] and [ProcessCalls.v]:
    whatever it does to the console, the files and the semaphores, it returns with
    the translation of the program as it was and with all registers but the second
    unchanged. *)

From S2P Require Import Prelude Allocator MachineSim ConsoleDev Syscalls UserStrings HostFiles FileCalls Threads Processes STables ProcessCalls.
Import Machine Syscall.

Local Open Scope Z_scope.

Module Frames.

Section frames.
Context (pt : list TranslationEntry) (n : Z).
Local Abbreviation uses := (Strings.uses pt n).

(** [m'] has the registers of [m], or differs from it in register 2; in both cases it
    translates addresses the same way. *)
Definition keeps (m m' : Machine.t) : Prop := uses m -> uses m' /\ registers m' = registers m.
Definition answers (m m' : Machine.t) : Prop :=
  uses m -> uses m' /\ exists v, registers m' = <[2%nat := v]> (registers m).

Lemma keeps_refl m : keeps m m.
Proof. by intros Hu. Qed.
Lemma keeps_trans m1 m2 m3 : keeps m1 m2 -> keeps m2 m3 -> keeps m1 m3.
Proof. intros H1 H2 Hu. destruct (H1 Hu) as [Hu2 E2]. destruct (H2 Hu2) as [Hu3 E3]. split; [done|]. congruence. Qed.
Lemma keeps_answers m1 m2 m3 : keeps m1 m2 -> answers m2 m3 -> answers m1 m3.
Proof. intros H1 H2 Hu. destruct (H1 Hu) as [Hu2 E2]. destruct (H2 Hu2) as [Hu3 [v E3]]. split; [done|]. exists v. congruence. Qed.
Lemma answers_answers m1 m2 m3 : answers m1 m2 -> answers m2 m3 -> answers m1 m3.
Proof.
  intros H1 H2 Hu. destruct (H1 Hu) as [Hu2 [v E2]]. destruct (H2 Hu2) as [Hu3 [w E3]]. split; [done|]. exists w.
  by rewrite E3, E2, list_insert_insert_eq.
Qed.
(** Register 2 holds the number of the call until it is written. *)
Lemma keeps_answer m m' v : registers m !! 2%nat = Some v -> keeps m m' -> answers m m'.
Proof. intros Hv Hk Hu. destruct (Hk Hu) as [Hu' E]. split; [done|]. exists v. by rewrite list_insert_id. Qed.

Lemma WriteRegister_answers m v m' : WriteRegister m 2 v = Ok m' -> answers m m'.
Proof.
  unfold WriteRegister, wreg. intros E Hu. inv_bind E. inv_bind E. injection E as <-. apply wr_inv in E1 as [_ ->].
  split; [by apply FileCalls.uses_set_registers|]. by exists v.
Qed.

(** ** Copies between user and kernel memory *)

Lemma user_load_keeps m a m' v : user_load m a = Ok (m', v) -> keeps m m'.
Proof.
  unfold user_load, ReadMem. intros E Hu. pose proof Hu as (Hm & pt' & Et & Hn & Hx).
  assert (Ht : table_ok m) by (rewrite Et; exact Hn). rewrite ReadMem_on_spec in E by (done || apply Strings.is_size_1).
  rewrite (Translate_page_table m pt') in E by (try apply Strings.is_size_1; by rewrite Et).
  destruct (xlate pt' (pageTableSize m) a 1 false) as [e|pa]; cbn [mbind outcome_bind] in E.
  - by destruct (raise_entry m a).
  - injection E as <- _. split; [by apply Strings.uses_touch|done].
Qed.

Lemma user_store_keeps m a v m' : user_store m a v = Ok m' -> keeps m m'.
Proof.
  unfold user_store, WriteMem. intros E Hu. pose proof Hu as (Hm & pt' & Et & Hn & Hx).
  assert (Ht : table_ok m) by (rewrite Et; exact Hn). rewrite WriteMem_on_spec in E by (done || apply Strings.is_size_1).
  rewrite (Translate_page_table m pt') in E by (try apply Strings.is_size_1; by rewrite Et).
  assert (En : pageTableSize m = n) by (by rewrite Et). rewrite En, Hx in E.
  destruct (xlate pt n a 1 true) as [e|pa] eqn:Ex; cbn [mbind outcome_bind] in E; [by destruct (raise_entry m a)|].
  injection E as <-. destruct (Strings.xlate_in_memory pt n m a true pa Hm Ex) as (Hlt & Hpa & _).
  destruct (Strings.uses_touch pt n m pt' a true Hu Et) as (_ & pt2 & E2 & Hn2 & Hx2). split; [|done]. split.
  - destruct Hm as [Hl Hb]. split; cbn [mainMemory set_memory]; [rewrite length_splice; [done|cbn; lia]|].
    apply Forall_splice; [done|apply (le_bytes_u8 1)].
  - exists pt2. split; [|done]. by rewrite E2.
Qed.

Lemma copy_in_keeps k : forall m va i buf m' buf', copy_in k m va i buf = Ok (m', buf') -> keeps m m'.
Proof.
  induction k as [|k IH]; intros m va i buf m' buf' E; cbn [copy_in] in E.
  - injection E as <- _. apply keeps_refl.
  - inv_bind E. destruct x as [m1 c]. inv_bind E. apply user_load_keeps in E0. destruct (c =? 0).
    + by injection E as <- _.
    + eapply keeps_trans; [exact E0|]. by eapply IH.
Qed.

Lemma User2System_keeps m va limit m' buf : User2System m va limit = Ok (m', buf) -> keeps m m'.
Proof. unfold User2System. case_match; [done|]. apply copy_in_keeps. Qed.

Lemma copy_out_keeps k : forall m va i len buf m' j, copy_out k m va i len buf = Ok (m', j) -> keeps m m'.
Proof.
  induction k as [|k IH]; intros m va i len buf m' j E; cbn [copy_out] in E; [done|].
  inv_bind E. inv_bind E. apply user_store_keeps in E1. destruct (_ && _).
  - eapply keeps_trans; [exact E1|]. by eapply IH.
  - by injection E as <- _.
Qed.

Lemma System2User_keeps m va len buf m' j : System2User m va len buf = Ok (m', j) -> keeps m m'.
Proof.
  unfold System2User. case_match; [intros [= <- _]; apply keeps_refl|]. case_match; [intros [= <- _]; apply keeps_refl|]. apply copy_out_keeps.
Qed.

(** ** Reading a handler from its result *)

(** Split the result of a handler along its binds and tests. *)
Ltac split_result E :=
  repeat (inv_bind E || match type of E with
    | (let '(_, _) := ?x in _) = Ok _ => destruct x
    | (if ?b then _ else _) = Ok _ => destruct b eqn:?
    | match ?x with Some _ => _ | None => _ end = Ok _ => destruct x
    end).

(** ** The handlers on numbers, characters and strings *)

Section console_handlers.
Context (s : Syscall.t) (v : Z) (H2 : registers (machine s) !! 2%nat = Some v).

Lemma SubFunction_answers s' : SubFunction s = Ok s' -> answers (machine s) (machine s').
Proof. unfold SubFunction. intros E. split_result E. injection E as <-. by eapply WriteRegister_answers. Qed.

Lemma ReadIntFunction_answers raw s' : ReadIntFunction raw s = Ok s' -> answers (machine s) (machine s').
Proof. unfold ReadIntFunction. intros E. split_result E; injection E as <-; by eapply WriteRegister_answers. Qed.

(** For the smallest number the handler advances the program counter itself. *)
Lemma PrintIntFunction_answers raw s' : registers (machine s) !! 4%nat <> Some (- 2 ^ 31) -> regs_ok (machine s) ->
  PrintIntFunction raw s = Ok s' -> answers (machine s) (machine s').
Proof.
  unfold PrintIntFunction. intros Hmin (Hl & Hf & _) E. apply keeps_answer with v; [done|]. inv_bind E.
  assert (Hx : registers (machine s) !! 4%nat = Some x).
  { unfold ReadRegister, rreg in E0. inv_bind E0. by apply rd_inv in E0 as [_ E0]. }
  assert (is_s32 x) by (by eapply (Forall_lookup_1 _ _ _ _ Hf)).
  assert (Hneg : ((if x <? 0 then s32 (x * -1) else x) <? 0) = false).
  { apply Z.ltb_ge. destruct (Z.ltb_spec x 0); [|done]. assert (x <> - 2 ^ 31) by congruence. unfold is_s32 in *. rewrite s32_small; unfold is_s32; lia. }
  rewrite Hneg in E. split_result E; injection E as <-; apply keeps_refl.
Qed.

Lemma ReadCharFunction_answers raw s' : ReadCharFunction raw s = Ok s' -> answers (machine s) (machine s').
Proof.
  unfold ReadCharFunction. intros E. inv_bind E. destruct x as [c [buf len]]. inv_bind E. inv_bind E. inv_bind E. injection E as <-.
  cbn [machine set_machine set_console] in *.
  assert (HA : answers (machine s) x).
  { destruct (len =? 0); [by eapply WriteRegister_answers|]. injection E1 as <-. by eapply keeps_answer; [|apply keeps_refl]. }
  assert (HB : answers (machine s) x0).
  { destruct (len >? 1); [|by injection E2 as <-]. eapply answers_answers; [exact HA|]. by eapply WriteRegister_answers. }
  destruct (len =? 1); [|by injection E3 as <-]. inv_bind E3. eapply answers_answers; [exact HB|]. by eapply WriteRegister_answers.
Qed.

Lemma PrintCharFunction_answers s' : PrintCharFunction s = Ok s' -> answers (machine s) (machine s').
Proof. unfold PrintCharFunction. intros E. split_result E. injection E as <-. by eapply keeps_answer; [|apply keeps_refl]. Qed.

Lemma ReadStringFunction_answers junk s' : ReadStringFunction junk s = Ok s' -> answers (machine s) (machine s').
Proof.
  unfold ReadStringFunction. intros E. split_result E. injection E as <-. apply keeps_answer with v; [done|]. cbn [machine].
  eapply keeps_trans; [by eapply User2System_keeps|by eapply System2User_keeps].
Qed.

Lemma PrintStringFunction_answers s' : PrintStringFunction s = Ok s' -> answers (machine s) (machine s').
Proof.
  unfold PrintStringFunction. intros E. split_result E. injection E as <-. apply keeps_answer with v; [done|]. by eapply User2System_keeps.
Qed.

End console_handlers.

(** ** The handlers on files *)

(** Follow the machines of the states in between. *)
Ltac follow :=
  repeat match goal with
  | K : keeps _ _ |- answers _ _ => refine (keeps_answers _ _ _ K _); clear K
  | K : keeps _ _ |- keeps _ _ => refine (keeps_trans _ _ _ K _); clear K
  end.

Section file_handlers.
Context {H : Type} `{HH : Host H}.
Implicit Types s : FileCalls.t H.
Local Abbreviation mach s := (machine (FileCalls.base s)).

Lemma user2system_keeps s va limit s' buf : FileCalls.user2system s va limit = Ok (s', buf) -> keeps (mach s) (mach s').
Proof. unfold FileCalls.user2system. intros E. inv_bind E. destruct x as [m b]. injection E as <- _. by eapply User2System_keeps. Qed.

Lemma system2user_keeps s va len buf s' j : FileCalls.system2user s va len buf = Ok (s', j) -> keeps (mach s) (mach s').
Proof. unfold FileCalls.system2user. intros E. inv_bind E. destruct x as [m b]. injection E as <- _. by eapply System2User_keeps. Qed.

Lemma set_reg_answers s v s' : FileCalls.set_reg s 2 v = Ok s' -> answers (mach s) (mach s').
Proof. unfold FileCalls.set_reg. intros E. inv_bind E. injection E as <-. by eapply WriteRegister_answers. Qed.

Lemma put_file_keeps s i x s' : FileCalls.put_file s i x = Ok s' -> keeps (mach s) (mach s').
Proof. unfold FileCalls.put_file. intros E. inv_bind E. injection E as <-. apply keeps_refl. Qed.

(** The pieces of a handler's result, as facts about machines. *)
Ltac pieces :=
  repeat match goal with
  | E : FileCalls.user2system _ _ _ = Ok (_, _) |- _ => apply user2system_keeps in E
  | E : FileCalls.system2user _ _ _ _ = Ok (_, _) |- _ => apply system2user_keeps in E
  | E : FileCalls.put_file _ _ _ = Ok _ |- _ => apply put_file_keeps in E
  end.

Context (s : FileCalls.t H) (v : Z) (H2 : registers (mach s) !! 2%nat = Some v).

(** The end of a handler: its answer in register 2, or none. *)
Ltac ends E :=
  pieces; first [apply set_reg_answers in E; follow; exact E | injection E as <-; apply (keeps_answer _ _ v H2); follow; apply keeps_refl].

Lemma CreateFileFunction_answers s' : FileCalls.CreateFileFunction s = Ok s' -> answers (mach s) (mach s').
Proof. unfold FileCalls.CreateFileFunction. intros E. split_result E; ends E. Qed.

Lemma OpenFunction_answers s' : FileCalls.OpenFunction s = Ok s' -> answers (mach s) (mach s').
Proof. unfold FileCalls.OpenFunction. intros E. split_result E; ends E. Qed.

Lemma CloseFunction_answers s' : FileCalls.CloseFunction s = Ok s' -> answers (mach s) (mach s').
Proof. unfold FileCalls.CloseFunction. intros E. split_result E; ends E. Qed.

Lemma ReadFunction_answers junk s' : FileCalls.ReadFunction junk s = Ok s' -> answers (mach s) (mach s').
Proof. unfold FileCalls.ReadFunction. intros E. split_result E; ends E. Qed.

Lemma WriteFunction_answers s' : FileCalls.WriteFunction s = Ok s' -> answers (mach s) (mach s').
Proof. unfold FileCalls.WriteFunction. intros E. split_result E; ends E. Qed.

Lemma SeekFunction_answers s' : FileCalls.SeekFunction s = Ok s' -> answers (mach s) (mach s').
Proof. unfold FileCalls.SeekFunction. intros E. split_result E; ends E. Qed.

(** [Exec] when it does not reach the process table. *)
Lemma ExecFunction_answers raw s' : ProcessCalls.ExecFunction raw s = Ok (s', None) -> answers (mach s) (mach s').
Proof.
  unfold ProcessCalls.ExecFunction. intros E. split_result E; [discriminate E|]. injection E as <-. rename E3 into E. ends E.
Qed.

End file_handlers.

(** ** The handlers on semaphores *)

Section semaphore_handlers.
Context {T : Type} `{AL : Allocator T}.
Implicit Types s : ProcessCalls.t T.
Local Abbreviation mach s := (machine (ProcessCalls.base s)).

Lemma name_of_keeps s va s' name : ProcessCalls.name_of s va = Ok (s', name) -> keeps (mach s) (mach s').
Proof. unfold ProcessCalls.name_of. intros E. inv_bind E. destruct x as [m b]. injection E as <- _. by eapply User2System_keeps. Qed.

Lemma put_result_answers s v s' : ProcessCalls.set_reg s v = Ok s' -> answers (mach s) (mach s').
Proof. unfold ProcessCalls.set_reg. intros E. inv_bind E. injection E as <-. by eapply WriteRegister_answers. Qed.

Ltac ends E :=
  repeat match goal with E : ProcessCalls.name_of _ _ = Ok (_, _) |- _ => apply name_of_keeps in E end;
  apply put_result_answers in E; follow; exact E.

Lemma CreateSemaphoreFunction_answers addr s s' : ProcessCalls.CreateSemaphoreFunction addr s = Ok s' -> answers (mach s) (mach s').
Proof. unfold ProcessCalls.CreateSemaphoreFunction. intros E. split_result E; ends E. Qed.

Lemma WaitFunction_answers s s' : ProcessCalls.WaitFunction s = Ok s' -> answers (mach s) (mach s').
Proof. unfold ProcessCalls.WaitFunction. intros E. split_result E; (discriminate E || ends E). Qed.

Lemma SignalFunction_answers s s' : ProcessCalls.SignalFunction s = Ok s' -> answers (mach s) (mach s').
Proof. unfold ProcessCalls.SignalFunction. intros E. split_result E; ends E. Qed.

End semaphore_handlers.

End frames.
End Frames.
