(* ===== verification/KernelEntry.v ===== *)
(** * userprog/exception.cc and machine/mipssim.cc: running a user program

    [Kernel entry]: the whole [ExceptionHandler] over the handlers of
    [Syscalls.v], [FileCalls.v] and [ProcessCalls.v], and the loop body of
    [Machine::Run] that executes an instruction and enters the kernel when the
    instruction raises an exception.  The theorems follow a system call from the
    stub in test/start.s that makes it to its return. *)

From S2P Require Import Prelude Allocator Bitmap MachineSim MipsSim ConsoleDev Syscalls UserStrings HostFiles FileCalls Threads Processes STables ProcessCalls CallFrames.
Import Machine Syscall.

Local Open Scope Z_scope.

Module Entry.

(** userprog/syscall.h *)
Definition SC_Exit : Z := 1.
Definition SC_Exec : Z := 2.
Definition SC_Join : Z := 3.
Definition SC_Open : Z := 5.
Definition SC_Read : Z := 6.
Definition SC_Write : Z := 7.
Definition SC_Close : Z := 8.
Definition SC_CreateFile : Z := 17.
Definition SC_CreateSemaphore : Z := 18.
Definition SC_Wait : Z := 19.
Definition SC_Signal : Z := 20.
Definition SC_Seek : Z := 21.

(** What the handlers work on. *)
Record t (H T : Type) := mk {
  base : Syscall.t;
  fileSystem : HostFile.t H;
  kernel : Kernel.t;
  semTab : STable.t T;
}.
Arguments mk {H T}. Arguments base {H T}. Arguments fileSystem {H T}. Arguments kernel {H T}. Arguments semTab {H T}.

(** What a call finds outside of the state: the bytes a new buffer held, the
    local variable of [SynchConsole::Read], the field [type] of a new object, and
    the address of a new semaphore. *)
Record env := mkEnv { raw : list Z; junk : Z; raw_type : Z; new_sem : Z }.

(** A call returns to the program, or goes on in the process table. *)
Inductive answer (A : Type) := Returned (s : A) | Entered (s : A) (c : Process.syscall).
Arguments Returned {A} s. Arguments Entered {A} s c.

Section entry.
Context {H T : Type} `{HH : Host H} `{AL : Allocator T}.
Implicit Types s : t H T.

Definition with_base s (b : Syscall.t) : t H T := mk b (fileSystem s) (kernel s) (semTab s).
Definition with_machine s (m : Machine.t) : t H T := with_base s (set_machine (base s) m).
Definition machine_of s : Machine.t := machine (base s).

(** A call of each group on its part of the state. *)
Definition console_call (f : Syscall.t -> outcome Syscall.t) s : outcome (answer (t H T)) :=
  b ← f (base s); Ok (Returned (with_base s b)).
Definition on_files s (r : FileCalls.t H) : t H T := mk (FileCalls.base r) (FileCalls.fileSystem r) (kernel s) (semTab s).
Definition file_call (f : FileCalls.t H -> outcome (FileCalls.t H)) s : outcome (answer (t H T)) :=
  r ← f (FileCalls.mk (base s) (fileSystem s)); Ok (Returned (on_files s r)).
Definition semaphore_call (f : ProcessCalls.t T -> outcome (ProcessCalls.t T)) s : outcome (answer (t H T)) :=
  r ← f (ProcessCalls.mk (base s) (kernel s) (semTab s));
  Ok (Returned (mk (ProcessCalls.base r) (fileSystem s) (ProcessCalls.kernel r) (ProcessCalls.semTab r))).

(** The inner [switch] of [ExceptionHandler]; a number without a case does
    nothing. *)
Definition dispatch (e : env) (type : Z) s : outcome (answer (t H T)) :=
  let fc := FileCalls.mk (base s) (fileSystem s) in
  if type =? SC_Halt then Fault Halted
  else if type =? SC_Sub then console_call SubFunction s
  else if type =? SC_ReadInt then console_call (ReadIntFunction (raw e)) s
  else if type =? SC_PrintInt then console_call (PrintIntFunction (raw e)) s
  else if type =? SC_ReadChar then console_call (ReadCharFunction (raw e)) s
  else if type =? SC_PrintChar then console_call PrintCharFunction s
  else if type =? SC_ReadString then console_call (ReadStringFunction (junk e)) s
  else if type =? SC_PrintString then console_call PrintStringFunction s
  else if type =? SC_CreateFile then file_call FileCalls.CreateFileFunction s
  else if type =? SC_Open then file_call FileCalls.OpenFunction s
  else if type =? SC_Close then file_call FileCalls.CloseFunction s
  else if type =? SC_Read then file_call (FileCalls.ReadFunction (junk e)) s
  else if type =? SC_Write then file_call FileCalls.WriteFunction s
  else if type =? SC_Exec then
    '(r, c) ← ProcessCalls.ExecFunction (raw_type e) fc;
    Ok (match c with Some c => Entered (on_files s r) c | None => Returned (on_files s r) end)
  else if type =? SC_Join then
    c ← ProcessCalls.JoinFunction fc; Ok (Entered s c)
  else if type =? SC_Exit then
    c ← ProcessCalls.ExitFunction fc; Ok (match c with Some c => Entered s c | None => Returned s end)
  else if type =? SC_CreateSemaphore then semaphore_call (ProcessCalls.CreateSemaphoreFunction (new_sem e)) s
  else if type =? SC_Wait then semaphore_call ProcessCalls.WaitFunction s
  else if type =? SC_Signal then semaphore_call ProcessCalls.SignalFunction s
  else if type =? SC_Seek then file_call FileCalls.SeekFunction s
  else Ok (Returned s).

(** The end of a call, after which the program goes on. *)
Definition leave s : outcome (t H T) :=
  m ← IncreasePC (machine_of s); Ok (with_machine s m).

Definition ExceptionHandler (e : env) (which : ExceptionType) s : outcome (answer (t H T)) :=
  type ← ReadRegister (machine_of s) 2;
  match which with
  | NoException => Ok (Returned s)
  | PageFaultException | ReadOnlyException | BusErrorException | AddressErrorException
  | OverflowException | IllegalInstrException | NumExceptionTypes => Fault Halted
  | SyscallException =>
      a ← dispatch e type s;
      match a with
      | Returned s => s ← leave s; Ok (Returned s)
      | Entered s c => Ok (Entered s c)
      end
  end.

(** What the handler does when the process table has answered. *)
Definition exec_returns s (file : HostFile.OpenFile) (ID : Z) : outcome (t H T) :=
  r ← ProcessCalls.ExecFunction_end (FileCalls.mk (base s) (fileSystem s)) file ID; leave (on_files s r).
Definition join_returns s (exitcode : Z) : outcome (t H T) :=
  r ← ProcessCalls.JoinFunction_end (FileCalls.mk (base s) (fileSystem s)) exitcode; leave (on_files s r).

(** One instruction of [Machine::Run] with the exception it raises. *)
Definition user_step (e : env) s : outcome (answer (t H T)) :=
  '(m, x) ← Mips.OneInstruction (machine_of s);
  let s := with_machine s m in
  match x with
  | None => Ok (Returned s)
  | Some which => ExceptionHandler e which s
  end.

(** [n] instructions, as long as no call goes on in the process table; [tick] is
    [interrupt->OneTick()]. *)
Fixpoint Run (tick : t H T -> outcome (t H T)) (n : nat) (e : env) s : outcome (answer (t H T)) :=
  match n with
  | O => Ok (Returned s)
  | S n =>
      a ← user_step e s;
      match a with
      | Returned s => s ← tick s; Run tick n e s
      | Entered s c => Ok (Entered s c)
      end
  end.

End entry.

(** ** Instructions in user memory *)

(** Equality of register files up to the order of the updates. *)
Ltac regs_eq := apply list_eq; intros ?r; rewrite !list_lookup_insert, ?length_insert; repeat case_decide; try done; try lia; try congruence.

Section stubs.
Context (pt : list TranslationEntry) (n : Z).

(** The instruction [w] is at the address [a]. *)
Definition word_at (m : Machine.t) (a w : Z) : Prop :=
  is_u32 w /\ exists pa, xlate pt n a 4 false = inr pa /\ slice (mainMemory m) (Z.to_nat pa) 4 = le_bytes 4 w.

(** A stub of test/start.s: [addiu $2,$0,code; syscall; j $31] and the delay
    slot that the assembler fills with a [nop]. *)
Definition stub_at (m : Machine.t) (a code : Z) : Prop :=
  word_at m a (Mips.encode_I 9 0 2 code) /\ word_at m (a + 4) (Mips.encode_R 0 0 0 0 12) /\
  word_at m (a + 8) (Mips.encode_R 31 0 0 0 8) /\ word_at m (a + 12) 0.

Lemma xlate_word a pa : xlate pt n a 4 false = inr pa -> xlate pt n a 1 false = inr pa /\ misaligned a 4 = false.
Proof.
  unfold xlate. destruct (misaligned a 4) eqn:E; [done|]. assert (misaligned a 1 = false) as -> by done. done.
Qed.

Lemma misaligned_free a pt' : misaligned a 4 = false -> xlate pt' n a 4 false = xlate pt' n a 1 false.
Proof. intros E. unfold xlate. rewrite E. done. Qed.

Lemma fetch_ok m a w : Strings.uses pt n m -> word_at m a w ->
  exists m', ReadMem m a 4 = Ok (m', inr (s32 w)) /\ Strings.touched pt n m m'.
Proof.
  intros Hu (Hw & pa & Hx & Hs). pose proof Hu as (Hm & pt' & E & Hn & Hx'). unfold ReadMem.
  assert (Ht : table_ok m) by (rewrite E; exact Hn). assert (Hsz : is_size 4) by (by right; right).
  rewrite ReadMem_on_spec by done. rewrite (Translate_page_table m pt') by (done || by rewrite E).
  assert (pageTableSize m = n) as -> by (by rewrite E). apply xlate_word in Hx as [Hx Ha].
  rewrite misaligned_free, Hx', Hx by done. cbn [mbind outcome_bind]. change (Z.to_nat 4) with 4%nat. rewrite Hs. eexists. split.
  - unfold decode. cbn [Z.eqb Pos.eqb]. do 3 f_equal. rewrite le_value_bytes. apply s32_u32.
  - split; [by apply Strings.uses_touch|]. done.
Qed.

Lemma word_at_mem m m' a w : mainMemory m' = mainMemory m -> word_at m a w -> word_at m' a w.
Proof. intros E (Hw & pa & Hx & Hs). split; [done|]. exists pa. by rewrite E. Qed.

(** ** Machines without a pending load *)

(** Register 0 is 0, and the registers of the delayed load are empty. *)
Definition calm (m : Machine.t) : Prop :=
  has_regs m /\ registers m !! 0%nat = Some 0 /\ registers m !! 37%nat = Some 0 /\ registers m !! 38%nat = Some 0.

Definition quiet (m : Machine.t) : Prop :=
  regs_ok m /\ registers m !! 0%nat = Some 0 /\ registers m !! 37%nat = Some 0 /\ registers m !! 38%nat = Some 0.

Lemma rreg_at m r v : 0 <= r -> registers m !! Z.to_nat r = Some v -> rreg m r = Ok v.
Proof. intros Hr Hv. unfold rreg. by apply rd_lookup. Qed.

Lemma quiet_calm m : quiet m -> calm m.
Proof. by intros ((Hl & _) & H). Qed.

Lemma wreg_has m r v : has_regs m -> 0 <= r < NumTotalRegs -> wreg m r v = Ok (set_registers m (<[Z.to_nat r := v]> (registers m))).
Proof. intros Hl Hr. unfold wreg. unfold has_regs in Hl. by rewrite wr_ok by lia. Qed.

(** Writing a register its own contents. *)
Lemma wreg_same m r v : has_regs m -> 0 <= r < NumTotalRegs -> registers m !! Z.to_nat r = Some v -> wreg m r v = Ok m.
Proof. intros Hl Hr Hv. rewrite wreg_has, list_insert_id by done. by destruct m. Qed.

Lemma DelayedLoad_calm m : calm m -> DelayedLoad m 0 0 = Ok m.
Proof.
  intros (Hl & H0 & H37 & H38). unfold DelayedLoad. rewrite (rreg_at m LoadReg 0), (rreg_at m LoadValueReg 0) by done. cbn [mbind outcome_bind].
  rewrite (wreg_same m 0 0) by done. cbn [mbind outcome_bind]. rewrite (wreg_same m LoadReg 0) by done. cbn [mbind outcome_bind].
  rewrite (wreg_same m LoadValueReg 0) by done. cbn [mbind outcome_bind]. by rewrite (wreg_same m 0 0).
Qed.

Lemma DelayedLoad_quiet m : quiet m -> DelayedLoad m 0 0 = Ok m.
Proof. intros Hq. by apply DelayedLoad_calm, quiet_calm. Qed.

(** The program counters after an instruction. *)
Definition pc_regs (rs : list Z) (pc npc pcAfter : Z) : list Z := <[35%nat := pcAfter]> (<[34%nat := npc]> (<[36%nat := pc]> rs)).

Lemma advance_calm m pc npc pcAfter : calm m -> registers m !! 35%nat = Some npc ->
  (m ← wreg m PrevPCReg pc; npc ← rreg m NextPCReg; m ← wreg m PCReg npc; wreg m NextPCReg pcAfter) =
    Ok (set_registers m (pc_regs (registers m) pc npc pcAfter)).
Proof.
  intros (Hl & _) Hnpc. rewrite wreg_has by done. cbn [mbind outcome_bind].
  rewrite (rreg_at _ NextPCReg npc); [|done|cbn [registers set_registers]; by rewrite list_lookup_insert_ne]. cbn [mbind outcome_bind].
  rewrite wreg_has by (unfold has_regs; cbn [registers set_registers]; rewrite ?length_insert; done). cbn [mbind outcome_bind].
  rewrite wreg_has by (unfold has_regs; cbn [registers set_registers]; rewrite ?length_insert; done). done.
Qed.

Lemma retire_calm m pc npc pcAfter : calm m -> registers m !! 34%nat = Some pc -> registers m !! 35%nat = Some npc ->
  Mips.retire m pcAfter 0 0 = Ok (set_registers m (pc_regs (registers m) pc npc pcAfter)).
Proof.
  intros Hc Hpc Hnpc. unfold Mips.retire. rewrite DelayedLoad_calm by done. cbn [mbind outcome_bind].
  rewrite (rreg_at m PCReg pc) by done. cbn [mbind outcome_bind]. by apply advance_calm.
Qed.

Lemma IncreasePC_calm m pc npc : calm m -> registers m !! 34%nat = Some pc -> registers m !! 35%nat = Some npc ->
  IncreasePC m = Ok (set_registers m (pc_regs (registers m) pc npc (s32 (npc + 4)))).
Proof.
  intros Hc Hpc Hnpc. unfold IncreasePC, ReadRegister, WriteRegister. change (ASSERT (reg_ok PCReg)) with (Ok tt).
  change (ASSERT (reg_ok NextPCReg)) with (Ok tt). change (ASSERT (reg_ok PrevPCReg)) with (Ok tt). cbn [mbind outcome_bind].
  rewrite (rreg_at m PCReg pc) by done. cbn [mbind outcome_bind].
  pose proof (advance_calm m pc npc (s32 (npc + 4)) Hc Hnpc) as E. destruct (wreg m PrevPCReg pc) as [m1|] eqn:E1; [|done].
  cbn [mbind outcome_bind] in *. destruct (rreg m1 NextPCReg) as [x|] eqn:E2; [|done]. cbn [mbind outcome_bind] in *.
  assert (x = npc) as ->; [|done]. destruct Hc as [Hl _]. rewrite wreg_has in E1 by done. injection E1 as <-.
  unfold rreg in E2. apply rd_inv in E2 as [_ E2]. cbn [registers set_registers] in E2. rewrite list_lookup_insert_ne in E2 by done.
  change (Z.to_nat NextPCReg) with 35%nat in E2. congruence.
Qed.

Lemma calm_pc m rs pc npc pcAfter : calm m -> rs = registers m -> calm (set_registers m (pc_regs rs pc npc pcAfter)).
Proof.
  intros (Hl & H0 & H37 & H38) ->. unfold calm, has_regs, pc_regs in *. cbn [registers set_registers]. rewrite !length_insert.
  by rewrite !list_lookup_insert_ne by done.
Qed.

(** Only registers from 1 to 31 and the program counters are written. *)
Lemma quiet_set m r v : quiet m -> is_s32 v -> 0 < r < NumTotalRegs -> r <> LoadReg -> r <> LoadValueReg ->
  wreg m r v = Ok (set_registers m (<[Z.to_nat r := v]> (registers m))) /\
  quiet (set_registers m (<[Z.to_nat r := v]> (registers m))).
Proof.
  intros (Hm & H0 & H37 & H38) Hv Hr H1 H2. split; [apply wreg_ok; [done|lia]|]. unfold LoadReg, LoadValueReg in *.
  split; [apply regs_ok_set; [done|done|by left|lia]|]. cbn [registers set_registers]. rewrite !list_lookup_insert_ne by lia. done.
Qed.

Lemma quiet_pc m pc npc pcAfter : quiet m -> is_s32 pcAfter -> registers m !! 34%nat = Some pc -> registers m !! 35%nat = Some npc ->
  quiet (set_registers m (pc_regs (registers m) pc npc pcAfter)).
Proof.
  intros Hq Ha Hpc Hnpc. pose proof Hq as ((_ & Hf & _) & _).
  assert (is_s32 pc) by (by eapply (Forall_lookup_1 _ _ _ _ Hf)). assert (is_s32 npc) by (by eapply (Forall_lookup_1 _ _ _ _ Hf)).
  destruct (quiet_set m PrevPCReg pc Hq) as [_ Hq1]; [done..|]. destruct (quiet_set _ PCReg npc Hq1) as [_ Hq2]; [done..|].
  destruct (quiet_set _ NextPCReg pcAfter Hq2) as [_ Hq3]; [done..|]. exact Hq3.
Qed.

Lemma retire_quiet m pc npc pcAfter : quiet m -> registers m !! 34%nat = Some pc -> registers m !! 35%nat = Some npc -> is_s32 pcAfter ->
  exists m', Mips.retire m pcAfter 0 0 = Ok m' /\ quiet m' /\ m' = set_registers m (pc_regs (registers m) pc npc pcAfter).
Proof.
  intros Hq Hpc Hnpc Ha. eexists. split; [by apply retire_calm, Hnpc; [apply quiet_calm|]|]. split; [by apply quiet_pc|done].
Qed.

(** ** The instructions of a stub *)

(** A machine at [pc] whose delay slot is at [npc], with no load pending. *)
Definition at_pc (m : Machine.t) (pc npc : Z) : Prop :=
  Strings.uses pt n m /\ quiet m /\ registers m !! 34%nat = Some pc /\ registers m !! 35%nat = Some npc.

(** [m'] is [m] with the registers [rs] and other use bits. *)
Definition moves (m m' : Machine.t) (rs : list Z) : Prop :=
  Strings.uses pt n m' /\ quiet m' /\ mainMemory m' = mainMemory m /\ registers m' = rs.

Lemma quiet_touched m m' : Strings.touched pt n m m' -> quiet m -> quiet m'.
Proof. intros (_ & E & _). unfold quiet, regs_ok. by rewrite E. Qed.

Lemma at_pc_s32 m pc npc : at_pc m pc npc -> is_s32 pc /\ is_s32 npc.
Proof. intros (_ & ((_ & Hf & _) & _) & H1 & H2). split; by eapply (Forall_lookup_1 _ _ _ _ Hf). Qed.

(** Fetch and decode. *)
Lemma OneInstruction_at m pc npc w i : at_pc m pc npc -> word_at m pc w -> Mips.Decode w = Ok i ->
  exists m1, moves m m1 (registers m) /\
    Mips.OneInstruction m =
      '(m, r) ← Mips.execute i m1 (s32 (npc + 4));
      match r with
      | inl e => Ok (m, Some e)
      | inr (pcAfter, nextLoadReg, nextLoadValue) => m ← Mips.retire m pcAfter nextLoadReg nextLoadValue; Ok (m, None)
      end.
Proof.
  intros (Hu & Hq & Hpc & Hnpc) Hw Hi. destruct (fetch_ok m pc w Hu Hw) as (m1 & E & Ht). exists m1. split.
  { destruct Ht as (Hu1 & Hr & Hm). split; [done|]. split; [by apply (quiet_touched m)|]. done. }
  unfold Mips.OneInstruction. rewrite (rreg_at m PCReg pc) by done. cbn [mbind outcome_bind]. rewrite E. cbn [mbind outcome_bind].
  destruct Hw as [Hw _]. rewrite u32_s32, (u32_small w), Hi by done. cbn [mbind outcome_bind].
  rewrite (rreg_at m1 NextPCReg npc); [done|done|]. destruct Ht as (_ & -> & _). done.
Qed.

(** The end of an instruction that raises nothing. *)
Lemma retire_moves m m1 rs pc npc pcAfter : moves m m1 rs -> rs !! 34%nat = Some pc -> rs !! 35%nat = Some npc -> is_s32 pcAfter ->
  exists m', (m ← Mips.retire m1 pcAfter 0 0; Ok (m, @None ExceptionType)) = Ok (m', None) /\
    moves m m' (<[35%nat := pcAfter]> (<[34%nat := npc]> (<[36%nat := pc]> rs))).
Proof.
  intros (Hu & Hq & Hm & <-) Hpc Hnpc Ha. destruct (retire_quiet m1 pc npc pcAfter Hq Hpc Hnpc Ha) as (m' & -> & Hq' & ->).
  eexists. split; [done|]. split; [by apply FileCalls.uses_set_registers|]. done.
Qed.

Lemma is_s32_imm c : 0 <= c < 2 ^ 15 -> is_s32 c.
Proof. unfold is_s32. lia. Qed.

Lemma step_addiu m pc npc code : at_pc m pc npc -> word_at m pc (Mips.encode_I 9 0 2 code) -> 0 <= code < 2 ^ 15 ->
  exists m', Mips.OneInstruction m = Ok (m', None) /\
    moves m m' (<[35%nat := s32 (npc + 4)]> (<[34%nat := npc]> (<[36%nat := pc]> (<[2%nat := code]> (registers m))))).
Proof.
  intros Ha Hw Hc. destruct (proj1 (proj2 (Mips.Decode_encode 0 2 0 0 0 9 code 0 Mips.OP_ADDIU ltac:(lia) ltac:(lia) ltac:(lia) ltac:(lia) ltac:(lia)
    ltac:(lia) ltac:(lia) ltac:(lia))) eq_refl ltac:(done)) as [rd' Hd].
  destruct (OneInstruction_at m pc npc _ _ Ha Hw Hd) as (m1 & (Hu & Hq & Hm & Hr) & ->). destruct Ha as (_ & (_ & H0 & _) & Hpc & Hnpc).
  unfold Mips.execute. cbn [Mips.opCode Mips.rs Mips.rt Mips.extra]. rewrite (rreg_at m1 0 0) by (done || by rewrite Hr). cbn [mbind outcome_bind].
  rewrite Z.add_0_l, (s32_small code) by (by apply is_s32_imm). unfold Mips.assign, Mips.next.
  destruct (quiet_set m1 2 code Hq (is_s32_imm _ Hc)) as [-> Hq2]; [done|done|done|]. cbn [mbind outcome_bind].
  apply retire_moves; [|rewrite !list_lookup_insert_ne by done; done..|apply s32_range].
  split; [by apply FileCalls.uses_set_registers|]. split; [done|]. split; [done|]. cbn. by rewrite Hr.
Qed.

Lemma step_syscall m pc npc : at_pc m pc npc -> word_at m pc (Mips.encode_R 0 0 0 0 12) ->
  exists m', Mips.OneInstruction m = Ok (m', Some SyscallException) /\ moves m m' (<[39%nat := 0]> (registers m)).
Proof.
  intros Ha Hw. destruct (OneInstruction_at m pc npc _ (Mips.mkInstr (Mips.encode_R 0 0 0 0 12) Mips.OP_SYSCALL 0 0 0 0) Ha Hw eq_refl) as (m1 & (Hu & Hq & Hm & Hr) & ->).
  unfold Mips.execute. cbn [Mips.opCode]. unfold Mips.raise, raise_entry.
  destruct (quiet_set m1 BadVAddrReg 0 Hq) as [-> Hq2]; [by unfold is_s32|done|done|done|]. cbn [mbind outcome_bind].
  rewrite DelayedLoad_quiet by done. cbn [mbind outcome_bind]. eexists. split; [done|].
  split; [by apply FileCalls.uses_set_registers|]. split; [done|]. split; [done|]. cbn. by rewrite Hr.
Qed.

Lemma step_nop m pc npc : at_pc m pc npc -> word_at m pc 0 ->
  exists m', Mips.OneInstruction m = Ok (m', None) /\
    moves m m' (<[35%nat := s32 (npc + 4)]> (<[34%nat := npc]> (<[36%nat := pc]> (registers m)))).
Proof.
  intros Ha Hw. destruct (OneInstruction_at m pc npc _ (Mips.mkInstr 0 Mips.OP_SLL 0 0 0 0) Ha Hw eq_refl) as (m1 & Hmv & ->).
  pose proof Hmv as (Hu & Hq & Hm & Hr). pose proof Ha as (_ & (_ & H0 & _) & Hpc & Hnpc).
  unfold Mips.execute. cbn [Mips.opCode Mips.rt Mips.rd_ Mips.extra]. rewrite (rreg_at m1 0 0) by (done || by rewrite Hr). cbn [mbind outcome_bind].
  unfold Mips.assign, Mips.next. destruct Hq as [Hq1 Hq2]. rewrite wreg_ok by done. cbn [mbind outcome_bind].
  change (s32 (Z.shiftl 0 0)) with 0. change (Z.to_nat 0) with 0%nat. rewrite list_insert_id by (by rewrite Hr).
  replace (set_registers m1 (registers m1)) with m1 by (by destruct m1). apply retire_moves; try done. apply s32_range.
Qed.

Lemma IncreasePC_quiet m pc npc : quiet m -> registers m !! 34%nat = Some pc -> registers m !! 35%nat = Some npc ->
  exists m', IncreasePC m = Ok m' /\ quiet m' /\ m' = set_registers m (pc_regs (registers m) pc npc (s32 (npc + 4))).
Proof.
  intros Hq Hpc Hnpc. eexists. split; [apply IncreasePC_calm; [by apply quiet_calm|done|done]|]. split; [|done].
  apply quiet_pc; [done|apply s32_range|done|done].
Qed.

(** The registers of a system call: at its entry, and at its return to [ra]. *)
Definition call_regs (rs : list Z) (a code : Z) : list Z :=
  <[39%nat := 0]> (<[35%nat := a + 8]> (<[34%nat := a + 4]> (<[36%nat := a]> (<[2%nat := code]> rs)))).
Definition return_regs (rs : list Z) (a ra v : Z) : list Z :=
  <[39%nat := 0]> (<[36%nat := a + 12]> (<[35%nat := s32 (ra + 4)]> (<[34%nat := ra]> (<[2%nat := v]> rs)))).

Lemma return_regs_eq rs a ra code v :
  <[35%nat := s32 (ra + 4)]> (<[34%nat := ra]> (<[36%nat := a + 12]>
    (<[35%nat := ra]> (<[34%nat := a + 12]> (<[36%nat := a + 8]>
      (<[35%nat := a + 12]> (<[34%nat := a + 8]> (<[36%nat := a + 4]> (<[2%nat := v]> (call_regs rs a code))))))))))
  = return_regs rs a ra v.
Proof. unfold call_regs, return_regs. regs_eq. Qed.

(** ** A call through its stub *)

Context {H T : Type} `{HH : Host H} `{AL : Allocator T}.
Implicit Types s : t H T.

Lemma at_pc_moves m m' rs pc npc : moves m m' rs -> rs !! 34%nat = Some pc -> rs !! 35%nat = Some npc -> at_pc m' pc npc.
Proof. intros (Hu & Hq & _ & <-) H1 H2. done. Qed.

Lemma moves_word m m' rs a w : moves m m' rs -> word_at m a w -> word_at m' a w.
Proof. intros (_ & _ & E & _). by apply word_at_mem. Qed.

Lemma lookup_insert_len {A} (l : list A) i x k : (k <= length l)%nat -> (i < k)%nat -> <[i := x]> l !! i = Some x.
Proof. intros. apply list_lookup_insert_eq. lia. Qed.

(** From the first instruction of the stub into the kernel. *)
Lemma stub_enters s a code : at_pc (machine_of s) a (a + 4) -> is_s32 (a + 16) ->
  stub_at (machine_of s) a code -> 0 <= code < 2 ^ 15 ->
  exists m1 m2, Mips.OneInstruction (machine_of s) = Ok (m1, None) /\ Mips.OneInstruction m1 = Ok (m2, Some SyscallException) /\
    moves (machine_of s) m2 (call_regs (registers (machine_of s)) a code).
Proof.
  intros Ha H32 (W0 & W1 & _) Hc. pose proof (at_pc_s32 _ _ _ Ha) as [Ha1 _]. pose proof Ha as (_ & ((Hl & _) & _) & _).
  destruct (step_addiu _ a (a + 4) code Ha W0 Hc) as (m1 & E1 & M1). rewrite (s32_small (a + 4 + 4)) in M1 by (unfold is_s32 in *; lia).
  assert (Hl' : length (registers (machine_of s)) = 40%nat) by (unfold NumTotalRegs in Hl; lia).
  destruct (step_syscall m1 (a + 4) (a + 8)) as (m2 & E2 & M2).
  { eapply at_pc_moves; [exact M1|..].
    - rewrite list_lookup_insert_ne by done. apply list_lookup_insert_eq. rewrite !length_insert. lia.
    - rewrite list_lookup_insert_eq by (rewrite !length_insert; lia). f_equal. lia. }
  { by eapply moves_word. }
  exists m1, m2. split; [done|]. split; [done|]. destruct M1 as (_ & _ & Em & Er), M2 as (Hu & Hq & Em2 & Er2).
  split; [done|]. split; [done|]. split; [congruence|]. rewrite Er2, Er. unfold call_regs. by replace (a + 4 + 4) with (a + 8) by lia.
Qed.

(** *** The end of a stub, whatever the handler left in register 2 *)

Definition goes (m m' : Machine.t) (rs : list Z) : Prop :=
  Strings.uses pt n m' /\ calm m' /\ mainMemory m' = mainMemory m /\ registers m' = rs.

Lemma calm_fetch m pc npc w i : Strings.uses pt n m -> calm m -> registers m !! 34%nat = Some pc -> registers m !! 35%nat = Some npc ->
  word_at m pc w -> Mips.Decode w = Ok i ->
  exists m1, goes m m1 (registers m) /\
    Mips.OneInstruction m =
      '(m, r) ← Mips.execute i m1 (s32 (npc + 4));
      match r with
      | inl e => Ok (m, Some e)
      | inr (pcAfter, nextLoadReg, nextLoadValue) => m ← Mips.retire m pcAfter nextLoadReg nextLoadValue; Ok (m, None)
      end.
Proof.
  intros Hu Hc Hpc Hnpc Hw Hi. destruct (fetch_ok m pc w Hu Hw) as (m1 & E & Hu1 & Hr & Hm). exists m1. split.
  { split; [done|]. split; [|done]. unfold calm, has_regs in *. by rewrite Hr. }
  unfold Mips.OneInstruction. rewrite (rreg_at m PCReg pc) by done. cbn [mbind outcome_bind]. rewrite E. cbn [mbind outcome_bind].
  destruct Hw as [Hw _]. rewrite u32_s32, (u32_small w), Hi by done. cbn [mbind outcome_bind].
  by rewrite (rreg_at m1 NextPCReg npc) by (done || by rewrite Hr).
Qed.

Lemma calm_next m m1 pc npc pcAfter : goes m m1 (registers m) -> registers m !! 34%nat = Some pc -> registers m !! 35%nat = Some npc ->
  exists m', (m ← Mips.retire m1 pcAfter 0 0; Ok (m, @None ExceptionType)) = Ok (m', None) /\ goes m m' (pc_regs (registers m) pc npc pcAfter).
Proof.
  intros (Hu & Hc & Hm & Hr) Hpc Hnpc. rewrite (retire_calm m1 pc npc) by (done || by rewrite Hr). eexists. split; [done|].
  split; [by apply FileCalls.uses_set_registers|]. split; [by apply calm_pc|]. split; [done|]. cbn. by rewrite Hr.
Qed.

Lemma calm_jr m pc npc ra : Strings.uses pt n m -> calm m -> registers m !! 34%nat = Some pc -> registers m !! 35%nat = Some npc ->
  word_at m pc (Mips.encode_R 31 0 0 0 8) -> registers m !! 31%nat = Some ra ->
  exists m', Mips.OneInstruction m = Ok (m', None) /\ goes m m' (pc_regs (registers m) pc npc ra).
Proof.
  intros Hu Hc Hpc Hnpc Hw Hra.
  destruct (calm_fetch m pc npc _ (Mips.mkInstr (Mips.encode_R 31 0 0 0 8) Mips.OP_JR 31 0 0 0) Hu Hc Hpc Hnpc Hw eq_refl) as (m1 & Hg & ->).
  unfold Mips.execute. cbn [Mips.opCode Mips.rs]. pose proof Hg as (_ & _ & _ & Hr). rewrite (rreg_at m1 31 ra) by (done || by rewrite Hr).
  cbn [mbind outcome_bind]. unfold Mips.next. cbn [mbind outcome_bind]. by apply calm_next.
Qed.

Lemma calm_nop m pc npc : Strings.uses pt n m -> calm m -> registers m !! 34%nat = Some pc -> registers m !! 35%nat = Some npc -> word_at m pc 0 ->
  exists m', Mips.OneInstruction m = Ok (m', None) /\ goes m m' (pc_regs (registers m) pc npc (s32 (npc + 4))).
Proof.
  intros Hu Hc Hpc Hnpc Hw.
  destruct (calm_fetch m pc npc _ (Mips.mkInstr 0 Mips.OP_SLL 0 0 0 0) Hu Hc Hpc Hnpc Hw eq_refl) as (m1 & Hg & ->).
  pose proof Hg as (_ & (Hl & H0 & _) & _ & Hr). unfold Mips.execute, Mips.assign. cbn [Mips.opCode Mips.rt Mips.rd_ Mips.extra].
  rewrite (rreg_at m1 0 0) by done. cbn [mbind outcome_bind]. change (s32 (Z.shiftl 0 0)) with 0.
  rewrite wreg_same by done. cbn [mbind outcome_bind]. unfold Mips.next. cbn [mbind outcome_bind]. by apply calm_next.
Qed.

(** From the return of the handler to the caller. *)
Lemma stub_leaves m rs a ra v code : Strings.uses pt n m -> calm m -> registers m = <[2%nat := v]> (call_regs rs a code) ->
  length rs = 40%nat -> rs !! 31%nat = Some ra ->
  is_s32 a -> is_s32 (a + 16) -> word_at m (a + 8) (Mips.encode_R 31 0 0 0 8) -> word_at m (a + 12) 0 ->
  exists m1 m2 m3, IncreasePC m = Ok m1 /\ Mips.OneInstruction m1 = Ok (m2, None) /\ Mips.OneInstruction m2 = Ok (m3, None) /\
    goes m m3 (return_regs rs a ra v).
Proof.
  intros Hu Hc Er Hl Hra Ha H32 W2 W3.
  assert (Hlen : length (registers m) = 40%nat) by (rewrite Er; unfold call_regs; by rewrite !length_insert).
  assert (Hpc : registers m !! 34%nat = Some (a + 4)).
  { rewrite Er. unfold call_regs. rewrite 3!list_lookup_insert_ne by done. apply list_lookup_insert_eq. rewrite !length_insert. lia. }
  assert (Hnpc : registers m !! 35%nat = Some (a + 8)).
  { rewrite Er. unfold call_regs. rewrite 2!list_lookup_insert_ne by done. apply list_lookup_insert_eq. rewrite !length_insert. lia. }
  pose proof (IncreasePC_calm m (a + 4) (a + 8) Hc Hpc Hnpc) as E1.
  rewrite (s32_small (a + 8 + 4)) in E1 by (unfold is_s32 in *; lia). replace (a + 8 + 4) with (a + 12) in E1 by lia.
  set (m1 := set_registers m _) in E1.
  assert (L1 : length (registers m1) = 40%nat) by (cbn; unfold pc_regs; by rewrite !length_insert).
  destruct (calm_jr m1 (a + 8) (a + 12) ra) as (m2 & E2 & Hu2 & Hc2 & Em2 & Er2).
  { by apply FileCalls.uses_set_registers. }
  { by apply calm_pc. }
  { cbn. unfold pc_regs. rewrite list_lookup_insert_ne by done. apply list_lookup_insert_eq. rewrite !length_insert. lia. }
  { cbn. unfold pc_regs. apply list_lookup_insert_eq. rewrite !length_insert. lia. }
  { by eapply word_at_mem. }
  { cbn. rewrite Er. unfold pc_regs, call_regs. by rewrite !list_lookup_insert_ne by done. }
  destruct (calm_nop m2 (a + 12) ra) as (m3 & E3 & Hu3 & Hc3 & Em3 & Er3); [done|done| | |by eapply word_at_mem|].
  { rewrite Er2. unfold pc_regs at 1. rewrite list_lookup_insert_ne by done. apply list_lookup_insert_eq. rewrite length_insert. lia. }
  { rewrite Er2. unfold pc_regs at 1. apply list_lookup_insert_eq. rewrite !length_insert. lia. }
  exists m1, m2, m3. split; [done|]. split; [done|]. split; [done|]. split; [done|]. split; [done|].
  split; [by rewrite Em3, Em2|]. rewrite Er3, Er2. cbn [m1 registers set_registers]. rewrite Er. apply return_regs_eq.
Qed.

Lemma user_step_plain e s m : Mips.OneInstruction (machine_of s) = Ok (m, None) -> user_step e s = Ok (Returned (with_machine s m)).
Proof. intros E. unfold user_step. by rewrite E. Qed.

Lemma handler_returns e s s3 m4 code : registers (machine_of s) !! 2%nat = Some code -> dispatch e code s = Ok (Returned s3) ->
  IncreasePC (machine_of s3) = Ok m4 -> ExceptionHandler e SyscallException s = Ok (Returned (with_machine s3 m4)).
Proof.
  intros Hr Ed E. unfold ExceptionHandler. rewrite (ReadRegister_ok (machine_of s) 2 code) by done. cbn [mbind outcome_bind].
  rewrite Ed. cbn [mbind outcome_bind]. unfold leave. by rewrite E.
Qed.

Lemma Run_step tick k e s s' : (forall s, tick s = Ok s) -> user_step e s = Ok (Returned s') -> Run tick (S k) e s = Run tick k e s'.
Proof. intros Ht E. cbn [Run]. rewrite E. cbn [mbind outcome_bind]. by rewrite Ht. Qed.

(** ** Every handler keeps the registers of its caller *)

Lemma dispatch_answers e code s s3 : registers (machine_of s) !! 2%nat = Some code -> regs_ok (machine_of s) ->
  (code = SC_PrintInt -> registers (machine_of s) !! 4%nat <> Some (- 2 ^ 31)) ->
  dispatch e code s = Ok (Returned s3) -> Frames.answers pt n (machine_of s) (machine_of s3).
Proof.
  intros H2 Hr Hmin E. unfold dispatch in E.
  assert (HC : forall f, (forall b', f (base s) = Ok b' -> Frames.answers pt n (machine (base s)) (machine b')) ->
    console_call f s = Ok (Returned s3) -> Frames.answers pt n (machine_of s) (machine_of s3)).
  { intros f Hf Ef. unfold console_call in Ef. inv_bind Ef. injection Ef as <-. by apply Hf. }
  assert (HF : forall f, (forall r, f (FileCalls.mk (base s) (fileSystem s)) = Ok r -> Frames.answers pt n (machine (base s)) (machine (FileCalls.base r))) ->
    file_call f s = Ok (Returned s3) -> Frames.answers pt n (machine_of s) (machine_of s3)).
  { intros f Hf Ef. unfold file_call in Ef. inv_bind Ef. injection Ef as <-. by apply Hf. }
  assert (HS : forall f, (forall r, f (ProcessCalls.mk (base s) (kernel s) (semTab s)) = Ok r -> Frames.answers pt n (machine (base s)) (machine (ProcessCalls.base r))) ->
    semaphore_call f s = Ok (Returned s3) -> Frames.answers pt n (machine_of s) (machine_of s3)).
  { intros f Hf Ef. unfold semaphore_call in Ef. inv_bind Ef. injection Ef as <-. by apply Hf. }
  assert (HN : s3 = s -> Frames.answers pt n (machine_of s) (machine_of s3)).
  { intros ->. by eapply Frames.keeps_answer, Frames.keeps_refl. }
  destruct (code =? SC_Halt); [done|].
  destruct (code =? SC_Sub); [eapply HC, E; intros; by eapply Frames.SubFunction_answers|].
  destruct (code =? SC_ReadInt); [eapply HC, E; intros; by eapply Frames.ReadIntFunction_answers|].
  destruct (Z.eqb_spec code SC_PrintInt); [eapply HC, E; intros; eapply Frames.PrintIntFunction_answers; eauto|].
  destruct (code =? SC_ReadChar); [eapply HC, E; intros; by eapply Frames.ReadCharFunction_answers|].
  destruct (code =? SC_PrintChar); [eapply HC, E; intros; by eapply Frames.PrintCharFunction_answers|].
  destruct (code =? SC_ReadString); [eapply HC, E; intros; by eapply Frames.ReadStringFunction_answers|].
  destruct (code =? SC_PrintString); [eapply HC, E; intros; by eapply Frames.PrintStringFunction_answers|].
  destruct (code =? SC_CreateFile); [eapply HF, E; intros ? Er; by eapply Frames.CreateFileFunction_answers in Er|].
  destruct (code =? SC_Open); [eapply HF, E; intros ? Er; by eapply Frames.OpenFunction_answers in Er|].
  destruct (code =? SC_Close); [eapply HF, E; intros ? Er; by eapply Frames.CloseFunction_answers in Er|].
  destruct (code =? SC_Read); [eapply HF, E; intros ? Er; by eapply Frames.ReadFunction_answers in Er|].
  destruct (code =? SC_Write); [eapply HF, E; intros ? Er; by eapply Frames.WriteFunction_answers in Er|].
  destruct (code =? SC_Exec).
  { inv_bind E. destruct x as [r [c|]]; [done|]. injection E as <-. by eapply Frames.ExecFunction_answers in E0. }
  destruct (code =? SC_Join); [by inv_bind E|].
  destruct (code =? SC_Exit); [inv_bind E; destruct x; [done|]; injection E as ->; by apply HN|].
  destruct (code =? SC_CreateSemaphore); [eapply HS, E; intros ? Er; by eapply Frames.CreateSemaphoreFunction_answers in Er|].
  destruct (code =? SC_Wait); [eapply HS, E; intros ? Er; by eapply Frames.WaitFunction_answers in Er|].
  destruct (code =? SC_Signal); [eapply HS, E; intros ? Er; by eapply Frames.SignalFunction_answers in Er|].
  destruct (code =? SC_Seek); [eapply HF, E; intros ? Er; by eapply Frames.SeekFunction_answers in Er|].
  injection E as ->. by apply HN.
Qed.

(** ** A call through its stub *)

(** The end of a call of the stub at [a] after which the handler returned [s3]: the
    answer of the call is in register 2, and the other registers are those of the
    caller. *)
Definition call_returns tick (e : env) s (a ra : Z) (s3 : t H T) : Prop :=
  exists v m', Run tick 4 e s = Ok (Returned (with_machine s3 m')) /\ registers (machine_of s3) !! 2%nat = Some v /\
    mainMemory m' = mainMemory (machine_of s3) /\ Strings.uses pt n m' /\ registers m' = return_regs (registers (machine_of s)) a ra v.

Lemma Run_enters tick e s m1 m2 : (forall s, tick s = Ok s) ->
  Mips.OneInstruction (machine_of s) = Ok (m1, None) -> Mips.OneInstruction m1 = Ok (m2, Some SyscallException) ->
  Run tick 4 e s = (a ← ExceptionHandler e SyscallException (with_machine s m2);
    match a with Returned s => Run tick 2 e s | Entered s c => Ok (Entered s c) end).
Proof.
  intros Ht E1 E2. rewrite (Run_step tick 3 e s (with_machine s m1)) by (done || by apply user_step_plain).
  change (Run tick 3 e (with_machine s m1)) with (a ← user_step e (with_machine s m1);
    match a with Returned s => s ← tick s; Run tick 2 e s | Entered s c => Ok (Entered s c) end).
  assert (user_step e (with_machine s m1) = ExceptionHandler e SyscallException (with_machine s m2)) as ->.
  { unfold user_step. change (machine_of (with_machine s m1)) with m1. by rewrite E2. }
  destruct (ExceptionHandler e SyscallException (with_machine s m2)) as [[s3|s3 c]|]; [|done|done]. cbn [mbind outcome_bind]. by rewrite Ht.
Qed.

Lemma Run_leaves tick e s3 m4 m5 m6 : (forall s, tick s = Ok s) ->
  Mips.OneInstruction m4 = Ok (m5, None) -> Mips.OneInstruction m5 = Ok (m6, None) ->
  Run tick 2 e (with_machine s3 m4) = Ok (Returned (with_machine s3 m6)).
Proof.
  intros Ht E4 E5. rewrite (Run_step tick 1 e _ (with_machine s3 m5)) by (done || by apply (user_step_plain e (with_machine s3 m4))).
  by rewrite (Run_step tick 0 e _ (with_machine s3 m6)) by (done || by apply (user_step_plain e (with_machine s3 m5))).
Qed.

Lemma stub_call tick e s a ra code :
  (forall s, tick s = Ok s) -> at_pc (machine_of s) a (a + 4) -> is_s32 (a + 16) ->
  stub_at (machine_of s) a code -> 0 <= code < 2 ^ 15 -> registers (machine_of s) !! 31%nat = Some ra ->
  (code = SC_PrintInt -> registers (machine_of s) !! 4%nat <> Some (- 2 ^ 31)) ->
  exists m2, moves (machine_of s) m2 (call_regs (registers (machine_of s)) a code) /\
    match dispatch e code (with_machine s m2) with
    | Fault f => Run tick 4 e s = Fault f
    | Ok (Entered s3 c) => Run tick 4 e s = Ok (Entered s3 c)
    | Ok (Returned s3) =>
        word_at (machine_of s3) (a + 8) (Mips.encode_R 31 0 0 0 8) -> word_at (machine_of s3) (a + 12) 0 -> call_returns tick e s a ra s3
    end.
Proof.
  intros Ht Ha H32 Hst Hc Hra Hmin. pose proof Ha as (_ & ((Hl & _) & _) & _). pose proof (at_pc_s32 _ _ _ Ha) as [Ha1 _].
  assert (Hl' : length (registers (machine_of s)) = 40%nat) by (unfold NumTotalRegs in Hl; lia).
  destruct (stub_enters s a code Ha H32 Hst Hc) as (m1 & m2 & E1 & E2 & M2). exists m2. split; [exact M2|].
  pose proof (Run_enters tick e s m1 m2 Ht E1 E2) as ER. unfold ExceptionHandler in ER. change (machine_of (with_machine s m2)) with m2 in ER.
  pose proof M2 as (Hu2 & Hq2 & _ & Er2). assert (H2 : registers m2 !! 2%nat = Some code).
  { rewrite Er2. unfold call_regs. rewrite !(list_lookup_insert_ne _ _ 2) by done. apply list_lookup_insert_eq. lia. }
  rewrite (ReadRegister_ok m2 2 code) in ER by done. cbn [mbind outcome_bind] in ER.
  destruct (dispatch e code (with_machine s m2)) as [[s3|s3 c]|f] eqn:Ed; [|done|done]. cbn [mbind outcome_bind] in ER.
  intros W2 W3. destruct (dispatch_answers e code (with_machine s m2) s3 H2 (proj1 Hq2)) as (Hu3 & v & Er3); [|exact Ed|exact Hu2|].
  { intros Hp. change (machine_of (with_machine s m2)) with m2. rewrite Er2. unfold call_regs. rewrite !list_lookup_insert_ne by done. by apply Hmin. }
  change (machine_of (with_machine s m2)) with m2 in Er3. rewrite Er2 in Er3.
  assert (Hc3 : calm (machine_of s3)).
  { apply quiet_calm in Hq2. unfold calm, has_regs in *. rewrite Er3, <- Er2, length_insert, !list_lookup_insert_ne by done. done. }
  destruct (stub_leaves (machine_of s3) (registers (machine_of s)) a ra v code) as (m4 & m5 & m6 & E4 & E5 & E6 & Hu6 & _ & Em6 & Er6); try done.
  exists v, m6. unfold leave in ER. rewrite E4 in ER. cbn [mbind outcome_bind] in ER. rewrite ER, (Run_leaves tick e s3 m4 m5 m6 Ht E5 E6). split; [done|]. split; [|done].
  rewrite Er3. apply list_lookup_insert_eq. unfold call_regs. rewrite !length_insert. lia.
Qed.

(** C4: every system call through its stub returns to its caller with only register 2
    changed.  When the program is at a stub of test/start.s for the call [code],
    whatever number that is, four instructions of [Machine::Run] with no interrupt due
    lead through the exception to the handler of that call; if the handler does not
    return (it halts, waits, or goes on in the process table), neither does the stub;
    if it returns, and has not overwritten the last two instructions of the stub, the
    program goes on at its return address, with the handler's answer in register 2,
    every other general register as before the call, its page table translating as
    before, and the rest of the state as the handler left it.  The one exception is
    [PrintInt] of the smallest integer, whose handler advances the program counter
    itself. *)
Theorem system_call_returns tick e s a ra code :
  (forall s, tick s = Ok s) -> at_pc (machine_of s) a (a + 4) -> is_s32 (a + 16) ->
  stub_at (machine_of s) a code -> 0 <= code < 2 ^ 15 -> registers (machine_of s) !! 31%nat = Some ra ->
  (code = SC_PrintInt -> registers (machine_of s) !! 4%nat <> Some (- 2 ^ 31)) ->
  exists m2, moves (machine_of s) m2 (call_regs (registers (machine_of s)) a code) /\
    match dispatch e code (with_machine s m2) with
    | Fault f => Run tick 4 e s = Fault f
    | Ok (Entered s3 c) => Run tick 4 e s = Ok (Entered s3 c)
    | Ok (Returned s3) =>
        word_at (machine_of s3) (a + 8) (Mips.encode_R 31 0 0 0 8) -> word_at (machine_of s3) (a + 12) 0 -> call_returns tick e s a ra s3
    end.
Proof. apply stub_call. Qed.

(** ** Calls of a program *)

(** The arguments of a call are still in their registers at its entry. *)
Lemma call_regs_arg rs a code i : (3 <= i < 34)%nat -> call_regs rs a code !! i = rs !! i.
Proof. intros Hi. unfold call_regs. by rewrite !list_lookup_insert_ne by lia. Qed.

Lemma moves_has_regs m m2 rs : moves m m2 rs -> has_regs m2.
Proof. by intros (_ & ((Hl & _) & _) & _). Qed.

Context `{HL : !HostLaws H}.

(** The file [ino] behind [id] after the characters [cs] were written at [off]. *)
Definition file_written s (id : Z) (f : HostFile.OpenFile) ino (off : Z) (cs : list Z) (s3 : t H T) : Prop :=
  let h := HostFile.host (fileSystem s) in let h' := HostFile.host (fileSystem s3) in
  let f' := HostFile.set_offset f (off + Z.of_nat (length cs)) in
  HostFile.openfile (fileSystem s3) = <[Z.to_nat id := Some f']> (HostFile.openfile (fileSystem s)) /\
  HostFile.open_on h' f' ino (off + Z.of_nat (length cs)) /\
  h_data h' ino = written (Z.to_nat off) cs (h_data h ino) /\ (forall i, i <> ino -> h_data h' i = h_data h i) /\
  kernel s3 = kernel s /\ semTab s3 = semTab s /\ gSynchConsole (base s3) = gSynchConsole (base s).

Lemma dispatch_Write e s a m2 id f ino off va cs : moves (machine_of s) m2 (call_regs (registers (machine_of s)) a SC_Write) ->
  FileCalls.args (machine_of s) va (Z.of_nat (length cs)) id -> 0 <= id <= 9 ->
  HostFile.openfile (fileSystem s) !! Z.to_nat id = Some (Some f) -> HostFile.type f = 0 ->
  HostFile.open_on (HostFile.host (fileSystem s)) f ino off -> cs <> [] -> Forall Strings.is_char cs ->
  FileCalls.chars_at pt n (machine_of s) va cs -> off + Z.of_nat (length cs) < 2 ^ 31 ->
  exists s3, dispatch e SC_Write (with_machine s m2) = Ok (Returned s3) /\ file_written s id f ino off cs s3 /\
    registers (machine_of s3) = <[2%nat := Z.of_nat (length cs)]> (registers m2) /\ mainMemory (machine_of s3) = mainMemory (machine_of s).
Proof.
  intros M2 (Hr & H4 & H5 & H6) Hid Hf Hty Hop Hne Hcs Hat Hmax. pose proof M2 as (Hu & Hq & Em & Er).
  destruct s as [b [h tab] k tb]. cbn [fileSystem HostFile.host HostFile.openfile machine_of base] in *.
  destruct (FileCalls.WriteFunction_ok pt n m2 (gSynchConsole b) h tab id f ino off va cs) as (m' & h' & E & (Hu' & Hr' & Hm') & Ho & Hd & Hd');
    try done.
  { split; [by eapply moves_has_regs|]. rewrite Er, !call_regs_arg by lia. done. }
  { intros j c Hj. specialize (Hat j c Hj). unfold Strings.ubyte in *. by rewrite Em. }
  exists (mk (Syscall.mk m' (gSynchConsole b)) (HostFile.mk h' (<[Z.to_nat id := Some (HostFile.set_offset f (off + Z.of_nat (length cs)))]> tab)) k tb).
  split.
  { unfold dispatch. cbn [Z.eqb Pos.eqb SC_Sub SC_Halt SC_Write SC_ReadInt SC_PrintInt SC_ReadChar SC_PrintChar SC_ReadString SC_PrintString SC_CreateFile SC_Open SC_Close SC_Read].
    unfold file_call, with_machine, with_base. cbn [base fileSystem]. unfold FileCalls.St in E.
    change (set_machine b m2) with (Syscall.mk m2 (gSynchConsole b)). rewrite E. done. }
  destruct Hop as (_ & _ & Hoff). apply FileCalls.moved_open in Ho; [|lia].
  split; [unfold file_written; cbn [fileSystem HostFile.host HostFile.openfile kernel semTab base gSynchConsole]; auto 10|]. cbn [machine_of base machine].
  split; [done|]. congruence.
Qed.

(** A machine at the return address, with words in its registers. *)
Lemma return_at_pc m m' a ra v : quiet m -> is_s32 v -> is_s32 (a + 12) -> registers m !! 31%nat = Some ra -> Strings.uses pt n m' ->
  registers m' = return_regs (registers m) a ra v -> at_pc m' ra (s32 (ra + 4)).
Proof.
  intros Hq Hv Ha Hra Hu Er. pose proof Hq as ((Hl & Hf & _) & _). assert (Hl' : length (registers m) = 40%nat) by (unfold NumTotalRegs in Hl; lia).
  assert (is_s32 ra) by (by eapply (Forall_lookup_1 _ _ _ _ Hf)). pose proof (s32_range (ra + 4)).
  assert (Hq' : quiet (set_registers m (return_regs (registers m) a ra v))).
  { destruct (quiet_set m 2 v Hq) as [_ Hq1]; [done..|]. destruct (quiet_set _ PCReg ra Hq1) as [_ Hq2]; [done..|].
    destruct (quiet_set _ NextPCReg (s32 (ra + 4)) Hq2) as [_ Hq3]; [done..|]. destruct (quiet_set _ PrevPCReg (a + 12) Hq3) as [_ Hq4]; [done..|].
    destruct (quiet_set _ BadVAddrReg 0 Hq4) as [_ Hq5]; [by unfold is_s32|done|done|done|]. exact Hq5. }
  split; [done|]. split; [unfold quiet, regs_ok in *; rewrite Er; exact Hq'|]. rewrite Er. unfold return_regs.
  split; [rewrite !(list_lookup_insert_ne _ _ 34) by done|rewrite 2!(list_lookup_insert_ne _ _ 35) by done]; apply list_lookup_insert_eq; rewrite !length_insert; lia.
Qed.

(** C5: a program that calls [Write] through its stub on a file that is open for
    reading and writing (type 0) under an identifier from 0 to 9 gets the number of
    bytes, goes on after the call with its other registers as they were, and the file
    has the bytes that the program has in its memory, at the position of the file: the
    instructions of the stub, the exception, the dispatch, the copy from user memory
    and the file of the host together.  The bytes are one or more, none of them is 0
    (the copy would stop there), the file position stays an [int], and no interrupt is
    due during the four instructions. *)
Theorem program_writes_file tick e s a ra id f ino off va cs :
  (forall s, tick s = Ok s) -> at_pc (machine_of s) a (a + 4) -> is_s32 (a + 16) ->
  stub_at (machine_of s) a SC_Write -> registers (machine_of s) !! 31%nat = Some ra ->
  FileCalls.args (machine_of s) va (Z.of_nat (length cs)) id -> 0 <= id <= 9 ->
  HostFile.openfile (fileSystem s) !! Z.to_nat id = Some (Some f) -> HostFile.type f = 0 ->
  HostFile.open_on (HostFile.host (fileSystem s)) f ino off -> cs <> [] -> Forall Strings.is_char cs ->
  FileCalls.chars_at pt n (machine_of s) va cs -> off + Z.of_nat (length cs) < 2 ^ 31 ->
  exists s', Run tick 4 e s = Ok (Returned s') /\ file_written s id f ino off cs s' /\
    at_pc (machine_of s') ra (s32 (ra + 4)) /\
    registers (machine_of s') = return_regs (registers (machine_of s)) a ra (Z.of_nat (length cs)).
Proof.
  intros Ht Ha H32 Hst Hra Hargs Hid Hf Hty Hop Hne Hcs Hat Hmax.
  destruct (stub_call tick e s a ra SC_Write Ht Ha H32 Hst ltac:(done) Hra ltac:(done)) as (m2 & M2 & HR).
  destruct (dispatch_Write e s a m2 id f ino off va cs M2 Hargs Hid Hf Hty Hop Hne Hcs Hat Hmax) as (s3 & Ed & HQ & Er & Em).
  rewrite Ed in HR. destruct Hst as (_ & _ & W2 & W3). destruct HR as (v & m' & E & Hv & _ & Hu & Hr); [by eapply word_at_mem..|].
  assert (v = Z.of_nat (length cs)) as ->.
  { rewrite Er, list_lookup_insert_eq in Hv; [by injection Hv|]. pose proof (moves_has_regs _ _ _ M2) as Hl. unfold has_regs, NumTotalRegs in Hl. lia. }
  exists (with_machine s3 m'). split; [done|]. split; [exact HQ|]. split; [|done].
  pose proof Ha as (_ & Hq & _). pose proof (at_pc_s32 _ _ _ Ha) as [Ha1 _].
  apply (return_at_pc (machine_of s) m' a ra (Z.of_nat (length cs))); try done; unfold is_s32 in *; [|lia].
  destruct Hop as (_ & _ & Hoff). lia.
Qed.

End stubs.

(** ** A program that calls Write and Sub *)

Definition stub_bytes (code : Z) : list Z :=
  flat_map (le_bytes 4) [Mips.encode_I 9 0 2 code; Mips.encode_R 0 0 0 0 12; Mips.encode_R 31 0 0 0 8; 0].

(** The machine of the file calls, at a stub at address 200 that was called from
    before address 300. *)
Definition demo_program (m : Machine.t) (code : Z) : Machine.t :=
  set_registers (set_memory (FileCalls.demo_call m 100 2 2) (splice (FileCalls.demo_memory m) 2760 (stub_bytes code)))
    (<[34%nat := 200]> (<[35%nat := 204]> (<[31%nat := 300]> (registers (FileCalls.demo_call m 100 2 2))))).

Lemma slice_splice_sub (l bs : list Z) p j k :
  (p <= length l)%nat -> (j + k <= length bs)%nat -> slice (splice l p bs) (p + j) k = slice bs j k.
Proof.
  intros Hl Hj. unfold slice, splice. rewrite drop_app_ge by (rewrite length_take; lia). rewrite length_take.
  replace (p + j - p `min` length l)%nat with j by lia. rewrite drop_app_le by lia. rewrite take_app_le; [done|]. rewrite length_drop. lia.
Qed.

Lemma demo_program_ok m code : registers m = replicate 40 0 -> mem_ok m -> code = SC_Sub \/ code = SC_Write ->
  at_pc demo_table 2 (demo_program m code) 200 204 /\ stub_at demo_table 2 (demo_program m code) 200 code /\
  registers (demo_program m code) !! 31%nat = Some 300 /\ FileCalls.args (demo_program m code) 100 2 2 /\
  FileCalls.chars_at demo_table 2 (demo_program m code) 100 [104; 105].
Proof.
  intros Hr [Hl Hb] Hc. unfold MemorySize, NumPhysPages, PageSize, SectorSize in Hl.
  assert (Ls : length (stub_bytes code) = 16%nat) by (by destruct Hc as [-> | ->]).
  assert (Lm : Z.of_nat (length (FileCalls.demo_memory m)) = 65536) by (unfold FileCalls.demo_memory; rewrite length_splice by (cbn [length]; lia); lia).
  assert (Hw : forall j, (j + 4 <= 16)%nat -> slice (mainMemory (demo_program m code)) (2760 + j) 4 = slice (stub_bytes code) j 4).
  { intros j Hj. unfold demo_program. cbn [mainMemory set_registers set_memory]. apply slice_splice_sub; lia. }
  split; [|split; [|split; [|split]]].
  - split; [|split; [|by unfold demo_program, FileCalls.demo_call; cbn [registers set_registers]; rewrite Hr]].
    + split; [|by exists demo_table]. unfold demo_program, mem_ok. cbn [mainMemory set_registers set_memory]. rewrite length_splice by lia.
      split; [rewrite Lm; done|]. apply Forall_splice; [|by destruct Hc as [-> | ->]; repeat constructor].
      unfold FileCalls.demo_memory. apply Forall_splice; [done|]. by repeat constructor.
    + unfold quiet, regs_ok, demo_program, FileCalls.demo_call. cbn [registers set_registers]. rewrite Hr. cbn. split; [|done].
      split; [done|]. split; [repeat constructor; unfold is_s32; lia|]. by exists 0.
  - assert (H32 : is_u32 (Mips.encode_I 9 0 2 code)) by (by destruct Hc as [-> | ->]).
    split; [split; [done|]; exists 2760; split; [done|]; change (Z.to_nat 2760) with (2760 + 0)%nat; rewrite Hw by lia; by destruct Hc as [-> | ->]|].
    split; [split; [done|]; exists 2764; split; [done|]; change (Z.to_nat 2764) with (2760 + 4)%nat; rewrite Hw by lia; by destruct Hc as [-> | ->]|].
    split; [split; [done|]; exists 2768; split; [done|]; change (Z.to_nat 2768) with (2760 + 8)%nat; rewrite Hw by lia; by destruct Hc as [-> | ->]|].
    split; [done|]; exists 2772; split; [done|]; change (Z.to_nat 2772) with (2760 + 12)%nat; rewrite Hw by lia; by destruct Hc as [-> | ->].
  - unfold demo_program, FileCalls.demo_call; cbn [registers set_registers]; by rewrite Hr.
  - unfold FileCalls.args, has_regs, demo_program, FileCalls.demo_call. cbn [registers set_registers]. by rewrite Hr.
  - intros j c Hj. unfold Strings.ubyte, demo_program. cbn [mainMemory set_registers set_memory].
    destruct j as [|[|j]]; [| |done]; injection Hj as <-.
    + change (xlate demo_table 2 (s32 (100 + Z.of_nat 0)) 1 false) with (@inr ExceptionType Z 2660). cbn iota. change (Z.to_nat 2660) with 2660%nat.
      rewrite lookup_splice_out by (try rewrite Ls; lia). unfold FileCalls.demo_memory. rewrite lookup_splice_in by (cbn [length]; lia). done.
    + change (xlate demo_table 2 (s32 (100 + Z.of_nat 1)) 1 false) with (@inr ExceptionType Z 2661). cbn iota. change (Z.to_nat 2661) with 2661%nat.
      rewrite lookup_splice_out by (try rewrite Ls; lia). unfold FileCalls.demo_memory. rewrite lookup_splice_in by (cbn [length]; lia). done.
Qed.

Definition demo_state (m : Machine.t) (b : BitMap.t) : t UnixModel.t BitMap.t :=
  mk (Syscall.mk m (SynchConsole.SynchConsole_new [])) (HostFile.mk FileCalls.demo_host FileCalls.demo_files) (Kernel.boot 1) (STable.STable_new b).
Definition demo_env : env := mkEnv [] 0 0 0.

Lemma demo_start : exists m b, m = Machine_new 0 0 false /\ registers m = replicate 40 0 /\ mem_ok m /\ BitMap.BitMap (fun i => i) 10 = Ok b.
Proof.
  destruct fresh_machine as [m E]. destruct (BitMap.BitMap_spec (fun i => i) 10 ltac:(done)) as (b & Eb & _). exists m, b.
  split; [exact E|]. split; [by rewrite E|]. split; [|exact Eb]. rewrite E. exact (proj2 (Machine_new_ok 0 0 false)).
Qed.

(** [Sub(100, 2)] returns 98 to address 300. *)
Lemma dispatch_Sub {H T} `{HH : Host H} `{AL : Allocator T} e (s : t H T) m2 op1 op2 : has_regs m2 ->
  registers m2 !! 4%nat = Some op1 -> registers m2 !! 5%nat = Some op2 ->
  dispatch e SC_Sub (with_machine s m2) = Ok (Returned (with_machine s (set_registers m2 (<[2%nat := s32 (op1 - op2)]> (registers m2))))).
Proof.
  intros Hr H4 H5. unfold dispatch. cbn [Z.eqb Pos.eqb SC_Sub SC_Halt]. unfold console_call, SubFunction.
  change (machine (base (with_machine s m2))) with m2. rewrite (ReadRegister_ok m2 4 op1), (ReadRegister_ok m2 5 op2) by done.
  cbn [mbind outcome_bind]. by rewrite WriteRegister_ok.
Qed.

Lemma system_call_returns_witness : exists m b s',
  m = Machine_new 0 0 false /\
  Run Ok 4 demo_env (demo_state (demo_program m SC_Sub) b) = Ok (Returned s') /\
  registers (machine_of s') !! 2%nat = Some 98 /\ registers (machine_of s') !! 34%nat = Some 300.
Proof.
  destruct demo_start as (m & b & E & Hr & Hm & _). exists m, b.
  destruct (demo_program_ok m SC_Sub Hr Hm (or_introl eq_refl)) as (Ha & Hst & Hra & (Hrg & H4 & H5 & _) & _).
  set (s := demo_state (demo_program m SC_Sub) b) in *.
  destruct (system_call_returns demo_table 2 Ok demo_env s 200 300 SC_Sub) as (m2 & M2 & HR).
  - intros s'. reflexivity.
  - exact Ha.
  - unfold is_s32. lia.
  - exact Hst.
  - done.
  - exact Hra.
  - done.
  - pose proof M2 as (_ & _ & Em2 & Er2). pose proof (moves_has_regs _ _ _ _ _ M2) as Hl2.
    rewrite (dispatch_Sub demo_env s m2 100 2) in HR by (done || rewrite Er2, call_regs_arg by lia; done).
    destruct Hst as (_ & _ & W2 & W3).
    destruct HR as (v & m' & ER & Hv & _ & _ & Hregs); [by eapply word_at_mem..|].
    exists (with_machine (with_machine s (set_registers m2 (<[2%nat := s32 (100 - 2)]> (registers m2)))) m').
    split; [exact E|]. split; [exact ER|].
    change (machine_of (with_machine (with_machine s _) m')) with m'. rewrite Hregs.
    change (registers (machine_of s)) with (registers (demo_program m SC_Sub)).
    unfold has_regs, NumTotalRegs in *. change (registers (machine_of (with_machine s ?x))) with (registers x) in Hv.
    cbn [registers set_registers] in Hv. rewrite list_lookup_insert_eq in Hv by lia. injection Hv as <-.
    unfold return_regs. rewrite !(list_lookup_insert_ne _ _ 2) by done. rewrite !(list_lookup_insert_ne _ _ 34) by done.
    rewrite !list_lookup_insert_eq by (rewrite ?length_insert; lia). done.
Defined.

(** Two characters are written to the file behind 2. *)
Lemma program_writes_file_witness : exists m b s',
  m = Machine_new 0 0 false /\
  Run Ok 4 demo_env (demo_state (demo_program m SC_Write) b) = Ok (Returned s') /\
  h_data (HostFile.host (fileSystem s')) 1 = [104; 105].
Proof.
  destruct demo_start as (m & b & E & Hr & Hm & _). exists m, b.
  destruct (demo_program_ok m SC_Write Hr Hm (or_intror eq_refl)) as (Ha & Hst & Hra & Hargs & Hch).
  destruct (program_writes_file demo_table 2 Ok demo_env (demo_state (demo_program m SC_Write) b) 200 300 2 (HostFile.mkFile 3 0 0) 1 0 100 [104; 105])
    as (s' & ER & Hw & _).
  - intros s. reflexivity.
  - exact Ha.
  - unfold is_s32. lia.
  - exact Hst.
  - exact Hra.
  - exact Hargs.
  - lia.
  - done.
  - done.
  - done.
  - done.
  - repeat constructor; done.
  - exact Hch.
  - cbn. lia.
  - exists s'. split; [exact E|]. split; [exact ER|]. destruct Hw as (_ & _ & Hd & _). exact Hd.
Defined.

End Entry.
