(* ===== verification/StartCode.v ===== *)
(** * test/start.c: the code that every user program starts with

    The assembly of test/start.c (which the build preprocesses into start.o) as
    data: the entry point [__start], which calls [main] and then [Exit(0)], one stub
    per system call, and [__main].  The program is assembled as the cross assembler
    does it, with a delay slot after each jump, and the result is compared with the
    file test/halt of the repository.

    Shown is that the kernel, which starts programs at address 0, gets them to
    [main], that a [main] that returns makes the call [Exit(0)], and that each stub
    makes the call of its name. *)

From S2P Require Import Prelude Allocator Bitmap MachineSim MipsSim ConsoleDev Syscalls UserStrings HostFiles FileCalls Threads Processes STables ProcessCalls KernelEntry AddrSpace.
From stdpp Require Import strings.
Import Machine Syscall Entry.

Local Open Scope Z_scope.

Module Start.

(** ** userprog/syscall.h *)

Definition SC_Create : Z := 4.
Definition SC_Fork : Z := 9.
Definition SC_Yield : Z := 10.

(** ** test/start.c *)

Inductive asm :=
| Label (l : string)
| jal (l : string)
| move (rd rs : Z)          (* move $rd,$rs *)
| addiu (rt rs imm : Z)     (* addiu $rt,$rs,imm *)
| syscall
| j (rs : Z)                (* j $rs *)
| nop.

Definition __start : list asm := [Label "__start"; jal "main"; move 4 0; jal "Exit"].

Definition stub (name : string) (code : Z) : list asm := [Label name; addiu 2 0 code; syscall; j 31].

(** The calls of Nachos, and those that were added for this kernel. *)
Definition stubs_of_nachos : list (string * Z) :=
  [("Halt", SC_Halt); ("Exit", SC_Exit); ("Exec", SC_Exec); ("Join", SC_Join); ("Create", SC_Create);
   ("Open", SC_Open); ("Read", SC_Read); ("Write", SC_Write); ("Close", SC_Close); ("Fork", SC_Fork);
   ("Yield", SC_Yield)].

Definition stubs_added : list (string * Z) :=
  [("Sub", SC_Sub); ("ReadInt", SC_ReadInt); ("PrintInt", SC_PrintInt);
   ("ReadChar", SC_ReadChar); ("PrintChar", SC_PrintChar); ("ReadString", SC_ReadString);
   ("PrintString", SC_PrintString); ("CreateFile", SC_CreateFile); ("CreateSemaphore", SC_CreateSemaphore);
   ("Wait", SC_Wait); ("Signal", SC_Signal); ("Seek", SC_Seek)].

Definition stubs : list (string * Z) := stubs_of_nachos ++ stubs_added.

Definition __main : list asm := [Label "__main"; j 31].

Definition start_c : list asm := __start ++ concat ((fun p => stub p.1 p.2) <$> stubs) ++ __main.

(** ** The assembler

    After a jump comes its delay slot: the instruction before the jump where it is
    a move, and a [nop] otherwise. *)
Fixpoint reorder (l : list asm) : list asm :=
  match l with
  | move rd rs :: jal t :: l' => jal t :: move rd rs :: reorder l'
  | jal t :: l' => jal t :: nop :: reorder l'
  | j rs :: l' => j rs :: nop :: reorder l'
  | i :: l' => i :: reorder l'
  | [] => []
  end.

(** The addresses of the labels of a program at [a]. *)
Fixpoint labels (a : Z) (l : list asm) : list (string * Z) :=
  match l with
  | Label x :: l' => (x, a) :: labels a l'
  | _ :: l' => labels (a + 4) l'
  | [] => []
  end.

Fixpoint address (env : list (string * Z)) (x : string) : Z :=
  match env with
  | (y, a) :: env' => if bool_decide (x = y) then a else address env' x
  | [] => 0
  end.

Definition word (env : list (string * Z)) (i : asm) : list Z :=
  match i with
  | Label _ => []
  | jal t => [Mips.encode_J 3 (address env t / 4)]
  | move rd rs => [Mips.encode_R rs 0 rd 0 33]
  | addiu rt rs imm => [Mips.encode_I 9 rs rt imm]
  | syscall => [Mips.encode_R 0 0 0 0 12]
  | j rs => [Mips.encode_R rs 0 0 0 8]
  | nop => [0]
  end.

(** The code of start.o, linked at 0 with [main] at the given address. *)
Definition image (main : Z) : list Z :=
  let l := reorder start_c in
  let env := ("main", main) :: labels 0 l in
  concat (word env <$> l).

Definition stub_address (x : string) : Z := address (labels 0 (reorder start_c)) x.

(** The words of test/halt, from offset 40 to its end. *)
Definition halt_words : list Z :=
  [0xc000064; 0; 0xc000008; 0x2021; 0x24020000; 0xc; 0x3e00008; 0; 0x24020001; 0xc; 0x3e00008; 0;
   0x24020002; 0xc; 0x3e00008; 0; 0x24020003; 0xc; 0x3e00008; 0; 0x24020004; 0xc; 0x3e00008; 0;
   0x24020005; 0xc; 0x3e00008; 0; 0x24020006; 0xc; 0x3e00008; 0; 0x24020007; 0xc; 0x3e00008; 0;
   0x24020008; 0xc; 0x3e00008; 0; 0x24020009; 0xc; 0x3e00008; 0; 0x2402000a; 0xc; 0x3e00008; 0;
   0x2402002b; 0xc; 0x3e00008; 0; 0x2402000b; 0xc; 0x3e00008; 0; 0x2402000c; 0xc; 0x3e00008; 0;
   0x2402000d; 0xc; 0x3e00008; 0; 0x2402000e; 0xc; 0x3e00008; 0; 0x2402000f; 0xc; 0x3e00008; 0;
   0x24020010; 0xc; 0x3e00008; 0; 0x24020011; 0xc; 0x3e00008; 0; 0x24020012; 0xc; 0x3e00008; 0;
   0x24020013; 0xc; 0x3e00008; 0; 0x24020014; 0xc; 0x3e00008; 0; 0x24020015; 0xc; 0x3e00008; 0;
   0x3e00008; 0; 0; 0;
   0x27bdffe8; 0xafbf0014; 0xafbe0010; 0xc000060; 0x3a0f021; 0xc000004; 0; 0x3c0e821; 0x8fbf0014;
   0x8fbe0010; 0x3e00008; 0x27bd0018].

(** The model of the assembler gives what is in the file, whose [main] is at 400. *)
Lemma halt_starts_with_image : take (length (image 400)) halt_words = image 400.
Proof. vm_compute. reflexivity. Qed.

Lemma stub_table : (fun p => (p.1, stub_address p.1)) <$> stubs = imap (fun k p => (p.1, 16 * (Z.of_nat k + 1))) stubs.
Proof. vm_compute. reflexivity. Qed.

(** ** The words of the image *)

Lemma image_eq main : image main = Mips.encode_J 3 (main / 4) :: drop 1 (image 0).
Proof. reflexivity. Qed.

Lemma stub_words main k name code : stubs !! k = Some (name, code) ->
  stub_address name = 16 * (Z.of_nat k + 1) /\ 0 <= code < 2 ^ 15 /\
  image main !! (4 * k + 4)%nat = Some (Mips.encode_I 9 0 2 code) /\
  image main !! (4 * k + 5)%nat = Some (Mips.encode_R 0 0 0 0 12) /\
  image main !! (4 * k + 6)%nat = Some (Mips.encode_R 31 0 0 0 8) /\
  image main !! (4 * k + 7)%nat = Some 0.
Proof.
  rewrite image_eq. do 23 (destruct k as [|k]; [intros [= <- <-]; vm_compute; intuition congruence|]). done.
Qed.

Section start.
Context (pt : list TranslationEntry) (n main : Z).

(** The image is in the memory of the program, from address 0 on. *)
Definition loaded (m : Machine.t) : Prop :=
  forall k w, image main !! k = Some w -> word_at pt n m (4 * Z.of_nat k) w.

Lemma stub_loaded m k name code : loaded m -> stubs !! k = Some (name, code) -> stub_at pt n m (stub_address name) code.
Proof.
  intros Hl Hk. destruct (stub_words main k name code Hk) as (-> & _ & W0 & W1 & W2 & W3).
  apply Hl in W0, W1, W2, W3. unfold stub_at.
  replace (16 * (Z.of_nat k + 1)) with (4 * Z.of_nat (4 * k + 4)) by lia.
  replace (4 * Z.of_nat (4 * k + 4) + 4) with (4 * Z.of_nat (4 * k + 5)) by lia.
  replace (4 * Z.of_nat (4 * k + 4) + 8) with (4 * Z.of_nat (4 * k + 6)) by lia.
  replace (4 * Z.of_nat (4 * k + 4) + 12) with (4 * Z.of_nat (4 * k + 7)) by lia. done.
Qed.

Lemma loaded_moves m m' rs : moves pt n m m' rs -> loaded m -> loaded m'.
Proof. intros Hm Hl k w Hk. eapply moves_word; [exact Hm|]. by apply Hl. Qed.

(** ** Its instructions *)

Lemma jump_target pc x : 0 <= pc < 2 ^ 28 -> 0 <= x < 2 ^ 26 ->
  s32 (Z.lor (Z.land (u32 pc) 0xf0000000) (u32 (Mips.IndexToAddr x))) = 4 * x.
Proof.
  intros Hp Hx. rewrite (u32_small pc) by (unfold is_u32; lia).
  assert (Z.land pc 0xf0000000 = 0) as ->.
  { apply Z.bits_inj'. intros k Hk. rewrite Z.land_spec, Z.bits_0. destruct (decide (k < 28)).
    - change 0xf0000000 with (Z.shiftl 15 28). rewrite Z.shiftl_spec, (Z.testbit_neg_r 15) by lia. apply andb_false_r.
    - rewrite <- (Z.mod_small pc (2 ^ 28)), Z.mod_pow2_bits_high by lia. done. }
  rewrite Z.lor_0_l. unfold Mips.IndexToAddr. rewrite u32_s32, Z.shiftl_mul_pow2 by lia. rewrite u32_small by (unfold is_u32; lia).
  rewrite s32_small by (unfold is_s32; lia). lia.
Qed.

Lemma step_jal m pc npc x : at_pc pt n m pc npc -> word_at pt n m pc (Mips.encode_J 3 x) ->
  0 <= npc -> npc + 4 < 2 ^ 28 -> 0 <= x < 2 ^ 26 ->
  exists m', Mips.OneInstruction m = Ok (m', None) /\
    moves pt n m m' (<[35%nat := 4 * x]> (<[34%nat := npc]> (<[36%nat := pc]> (<[31%nat := npc + 4]> (registers m))))).
Proof.
  intros Ha Hw Hn Hn' Hx.
  destruct (proj2 (proj2 (Mips.Decode_encode 0 0 0 0 0 3 0 x Mips.OP_JAL ltac:(lia) ltac:(lia) ltac:(lia) ltac:(lia) ltac:(lia)
    ltac:(lia) ltac:(lia) Hx)) eq_refl) as (rs' & rt' & rd' & Hd).
  destruct (OneInstruction_at pt n m pc npc _ _ Ha Hw Hd) as (m1 & (Hu & Hq & Hm & Hr) & ->). destruct Ha as (_ & _ & Hpc & Hnpc).
  unfold Mips.execute. cbn [Mips.opCode Mips.extra]. rewrite (rreg_at m1 NextPCReg npc) by (done || by rewrite Hr). cbn [mbind outcome_bind].
  rewrite (s32_small (npc + 4)) by (unfold is_s32; lia).
  destruct (quiet_set m1 Mips.R31 (npc + 4) Hq) as [-> Hq2]; [unfold is_s32; lia|done|done|done|]. cbn [mbind outcome_bind]. unfold Mips.next.
  rewrite jump_target by lia. cbn [mbind outcome_bind].
  apply (retire_moves pt n m _ (<[31%nat := npc + 4]> (registers m)) pc npc); [|by rewrite list_lookup_insert_ne..|unfold is_s32; lia].
  split; [by apply FileCalls.uses_set_registers|]. split; [done|]. split; [done|]. cbn. by rewrite Hr.
Qed.

(** [move $4,$0] *)
Lemma step_move m pc npc : at_pc pt n m pc npc -> word_at pt n m pc (Mips.encode_R 0 0 4 0 33) ->
  exists m', Mips.OneInstruction m = Ok (m', None) /\
    moves pt n m m' (<[35%nat := s32 (npc + 4)]> (<[34%nat := npc]> (<[36%nat := pc]> (<[4%nat := 0]> (registers m))))).
Proof.
  intros Ha Hw. destruct (OneInstruction_at pt n m pc npc _ (Mips.mkInstr (Mips.encode_R 0 0 4 0 33) Mips.OP_ADDU 0 0 4 0) Ha Hw eq_refl)
    as (m1 & (Hu & Hq & Hm & Hr) & ->). destruct Ha as (_ & (_ & H0 & _) & Hpc & Hnpc).
  unfold Mips.execute. cbn [Mips.opCode Mips.rs Mips.rt Mips.rd_]. rewrite (rreg_at m1 0 0) by (done || by rewrite Hr). cbn [mbind outcome_bind].
  change (s32 (0 + 0)) with 0. unfold Mips.assign, Mips.next.
  destruct (quiet_set m1 4 0 Hq) as [-> Hq2]; [by unfold is_s32|done|done|done|]. cbn [mbind outcome_bind].
  apply (retire_moves pt n m _ (<[4%nat := 0]> (registers m)) pc npc); [|by rewrite list_lookup_insert_ne..|apply s32_range].
  split; [by apply FileCalls.uses_set_registers|]. split; [done|]. split; [done|]. cbn. by rewrite Hr.
Qed.

Context {H T : Type} `{HH : Host H} `{AL : Allocator T}.
Implicit Types s : t H T.

Lemma at_pc_length m pc npc : at_pc pt n m pc npc -> length (registers m) = 40%nat.
Proof. intros (_ & ((Hl & _) & _) & _). unfold NumTotalRegs in Hl. lia. Qed.

(** A jump and its delay slot. *)
Ltac pc_at M := eapply at_pc_moves; [exact M|rewrite list_lookup_insert_ne by done|]; (apply list_lookup_insert_eq; rewrite !length_insert; lia).

(** From address 0 to [main]. *)
Lemma starts_main tick e s : (forall s, tick s = Ok s) -> 0 <= main < 2 ^ 28 -> main mod 4 = 0 ->
  loaded (machine_of s) -> at_pc pt n (machine_of s) 0 4 ->
  exists m', Run tick 2 e s = Ok (Returned (with_machine s m')) /\ at_pc pt n m' main (main + 4) /\
    moves pt n (machine_of s) m'
      (<[35%nat := main + 4]> (<[34%nat := main]> (<[36%nat := 4]> (<[31%nat := 8]> (registers (machine_of s)))))).
Proof.
  intros Ht Hm H4 Hl Ha. pose proof (at_pc_length _ _ _ Ha) as Hlen.
  destruct (step_jal (machine_of s) 0 4 (main / 4) Ha) as (m1 & E1 & M1); [apply (Hl 0%nat); by rewrite image_eq|lia|lia| |].
  { split; [apply Z.div_pos; lia|apply Z.div_lt_upper_bound; lia]. }
  replace (4 * (main / 4)) with main in M1 by (pose proof (Z.div_mod main 4 ltac:(lia)); lia). change (4 + 4) with 8 in M1.
  destruct (step_nop pt n m1 4 main) as (m2 & E2 & M2).
  { pc_at M1. }
  { apply (loaded_moves _ _ _ M1 Hl 1%nat). by rewrite image_eq. }
  exists m2. rewrite (Run_step tick 1 e s (with_machine s m1)) by (done || by apply user_step_plain).
  rewrite (Run_step tick 0 e _ (with_machine s m2)) by (done || by apply (user_step_plain e (with_machine s m1))).
  split; [done|]. destruct M1 as (_ & _ & Em1 & Er1), M2 as (Hu2 & Hq2 & Em2 & Er2). rewrite (s32_small (main + 4)) in Er2 by (unfold is_s32; lia).
  assert (M : moves pt n (machine_of s) m2 (<[35%nat := main + 4]> (<[34%nat := main]> (<[36%nat := 4]> (<[31%nat := 8]> (registers (machine_of s))))))).
  { split; [done|]. split; [done|]. split; [congruence|]. rewrite Er2, Er1. regs_eq. }
  split; [pc_at M|exact M].
Qed.

(** From the return of [main] into the kernel. *)
Lemma exits tick e s : (forall s, tick s = Ok s) -> loaded (machine_of s) -> at_pc pt n (machine_of s) 8 12 ->
  exists m', Run tick 4 e s = Ok (Entered (with_machine s m') (Process.CExit 0)) /\ mainMemory m' = mainMemory (machine_of s).
Proof.
  intros Ht Hl Ha. pose proof (at_pc_length _ _ _ Ha) as Hlen.
  destruct (step_jal (machine_of s) 8 12 8 Ha) as (m1 & E1 & M1); [apply (Hl 2%nat); by rewrite image_eq|lia..|].
  change (4 * 8) with 32 in M1. change (12 + 4) with 16 in M1.
  destruct (step_move m1 12 32) as (m2 & E2 & M2).
  { pc_at M1. }
  { apply (loaded_moves _ _ _ M1 Hl 3%nat). by rewrite image_eq. }
  change (s32 (32 + 4)) with 36 in M2. pose proof (loaded_moves _ _ _ M2 (loaded_moves _ _ _ M1 Hl)) as Hl2.
  assert (Hr1 : length (registers m1) = 40%nat) by (destruct M1 as (_ & _ & _ & ->); by rewrite !length_insert).
  destruct (stub_enters pt n (with_machine s m2) 32 SC_Exit) as (m3 & m4 & E3 & E4 & M4).
  { pc_at M2. }
  { unfold is_s32. lia. }
  { exact (stub_loaded m2 1 "Exit" SC_Exit Hl2 eq_refl). }
  { done. }
  exists m4. rewrite (Run_step tick 3 e s (with_machine s m1)) by (done || by apply user_step_plain).
  rewrite (Run_step tick 2 e _ (with_machine s m2)) by (done || by apply (user_step_plain e (with_machine s m1))).
  rewrite (Run_step tick 1 e _ (with_machine s m3)) by (done || by apply (user_step_plain e (with_machine s m2))).
  change (machine_of (with_machine s m2)) with m2 in M4. split.
  2:{ destruct M1 as (_ & _ & Em1 & _), M2 as (_ & _ & Em2 & _), M4 as (_ & _ & Em4 & _). congruence. }
  cbn [Run]. unfold user_step. change (machine_of (with_machine s m3)) with m3. rewrite E4. cbn [mbind outcome_bind].
  unfold ExceptionHandler. change (machine_of (with_machine (with_machine s m3) m4)) with m4.
  destruct M4 as (_ & _ & _ & Er4), M2 as (_ & _ & _ & Er2). assert (Hr2 : length (registers m2) = 40%nat) by (rewrite Er2; by rewrite !length_insert).
  assert (H2 : registers m4 !! 2%nat = Some SC_Exit).
  { rewrite Er4. unfold call_regs. rewrite !(list_lookup_insert_ne _ _ 2) by done. apply list_lookup_insert_eq. lia. }
  assert (H4 : registers m4 !! 4%nat = Some 0).
  { rewrite Er4, call_regs_arg, Er2 by lia. rewrite !(list_lookup_insert_ne _ _ 4) by done. apply list_lookup_insert_eq. lia. }
  rewrite (ReadRegister_ok m4 2 SC_Exit) by done. cbn [mbind outcome_bind].
  unfold dispatch. cbn [Z.eqb Pos.eqb SC_Exit SC_Halt SC_Sub SC_ReadInt SC_PrintInt SC_ReadChar SC_PrintChar SC_ReadString SC_PrintString
    SC_CreateFile SC_Open SC_Close SC_Read SC_Write SC_Exec SC_Join].
  unfold ProcessCalls.ExitFunction, FileCalls.reg. cbn [FileCalls.base].
  change (machine (base (with_machine (with_machine s m3) m4))) with m4. by rewrite (ReadRegister_ok m4 4 0).
Qed.

(** C8: The start of a program and its end: with the code of start.c at the
    beginning of its memory, a program that the kernel starts at address 0 is after
    two instructions at [main], with the return address 8 and every other register
    as it was; and when [main] returns, whatever it did to registers, data and the
    kernel, four more instructions make the call [Exit(0)].  Each stub is at its
    address and holds the number of its call. *)
Theorem main_runs_and_exits tick e s :
  (forall s, tick s = Ok s) -> 0 <= main < 2 ^ 28 -> main mod 4 = 0 ->
  loaded (machine_of s) -> at_pc pt n (machine_of s) 0 4 ->
  (exists m', Run tick 2 e s = Ok (Returned (with_machine s m')) /\ at_pc pt n m' main (main + 4) /\
     mainMemory m' = mainMemory (machine_of s) /\
     registers m' = <[35%nat := main + 4]> (<[34%nat := main]> (<[36%nat := 4]> (<[31%nat := 8]> (registers (machine_of s)))))) /\
  (forall e s, loaded (machine_of s) -> at_pc pt n (machine_of s) 8 12 ->
     exists m', Run tick 4 e s = Ok (Entered (with_machine s m') (Process.CExit 0)) /\ mainMemory m' = mainMemory (machine_of s)) /\
  (forall k name code, stubs !! k = Some (name, code) -> stub_at pt n (machine_of s) (stub_address name) code).
Proof.
  intros Ht Hm H4 Hl Ha. split; [|split].
  - destruct (starts_main tick e s Ht Hm H4 Hl Ha) as (m' & E & Hpc & (_ & _ & Em & Er)). by exists m'.
  - intros e' s' Hl' Ha'. by apply exits.
  - intros k name code Hk. by apply (stub_loaded _ k).
Qed.

End start.

(** ** The program test/halt

    Its words in frame 5, where the first page of the table is. *)

Definition bytes_of (ws : list Z) : list Z := flat_map (le_bytes 4) ws.

Lemma slice_bytes_of ws : forall k w, ws !! k = Some w -> slice (bytes_of ws) (4 * k) 4 = le_bytes 4 w.
Proof.
  induction ws as [|x ws IH]; intros [|k] w Hk; try done.
  - injection Hk as ->. exact (slice_app_start (le_bytes 4 w) (bytes_of ws) 4 (length_le_bytes 4 w)).
  - rewrite <- (IH k w Hk). unfold slice. replace (4 * S k)%nat with (4 + 4 * k)%nat by lia. rewrite <- drop_drop. done.
Qed.

Definition halt_program (m : Machine.t) (pc : Z) : Machine.t :=
  set_registers (set_memory (with_table m demo_table 2) (splice (mainMemory m) 2560 (bytes_of halt_words)))
    (<[34%nat := pc]> (<[35%nat := pc + 4]> (replicate 40 0))).

Lemma halt_words_u32 : Forall is_u32 halt_words.
Proof. unfold halt_words. repeat constructor; vm_compute; intros; discriminate. Qed.

Lemma halt_pages : (fun k => xlate demo_table 2 (4 * Z.of_nat k) 4 false) <$> seq 0 112 = (fun k => inr (2560 + 4 * Z.of_nat k)) <$> seq 0 112.
Proof. vm_compute. reflexivity. Qed.

Lemma halt_loaded m pc : mem_ok m -> loaded demo_table 2 400 (halt_program m pc).
Proof.
  intros [Hl _] k w Hk. rewrite <- halt_starts_with_image in Hk. apply lookup_take_Some in Hk as [Hk Hlt].
  assert (Hk2 : (k < 112)%nat) by (apply lookup_lt_Some in Hk; exact Hk).
  split; [exact (Forall_lookup_1 _ _ _ _ halt_words_u32 Hk)|]. exists (2560 + 4 * Z.of_nat k). split.
  - pose proof (f_equal (fun l => l !! k) halt_pages) as E. cbv beta in E. rewrite !list_lookup_fmap in E.
    rewrite lookup_seq_lt in E by done. injection E as E. exact E.
  - unfold halt_program. cbn [mainMemory set_registers set_memory]. replace (Z.to_nat (2560 + 4 * Z.of_nat k)) with (2560 + 4 * k)%nat by lia.
    unfold MemorySize, NumPhysPages, PageSize, SectorSize in Hl. assert (Lb : length (bytes_of halt_words) = 448%nat) by reflexivity.
    rewrite slice_splice_sub by (rewrite ?Lb; lia). by apply slice_bytes_of.
Qed.

Lemma halt_at m pc : mem_ok m -> is_s32 pc -> is_s32 (pc + 4) -> at_pc demo_table 2 (halt_program m pc) pc (pc + 4).
Proof.
  intros [Hl Hb] H1 H2. unfold MemorySize, NumPhysPages, PageSize, SectorSize in Hl.
  assert (Lb : length (bytes_of halt_words) = 448%nat) by reflexivity.
  split; [|split; [|done]].
  - split; [|by exists demo_table]. unfold halt_program, mem_ok. cbn [mainMemory set_registers set_memory].
    rewrite length_splice by (rewrite Lb; lia). split; [rewrite Hl; done|]. apply Forall_splice; [done|].
    apply (bool_decide_unpack _). vm_compute. exact I.
  - unfold quiet, regs_ok, halt_program. cbn [registers set_registers]. split; [|done]. split; [done|]. split; [|by exists 0].
    apply Forall_insert; [|done]. apply Forall_insert; [|done]. apply Forall_replicate. by unfold is_s32.
Qed.

Lemma main_runs_and_exits_witness : exists m b s1 s3,
  m = Machine_new 0 0 false /\
  Run Ok 2 demo_env (demo_state (halt_program m 0) b) = Ok (Returned s1) /\
  registers (machine_of s1) !! 34%nat = Some 400 /\
  Run Ok 4 demo_env (demo_state (halt_program m 8) b) = Ok (Entered s3 (Process.CExit 0)) /\
  stub_at demo_table 2 (halt_program m 0) 16 SC_Halt.
Proof.
  destruct demo_start as (m & b & E & _ & Hm & _).
  destruct (main_runs_and_exits demo_table 2 400 Ok demo_env (demo_state (halt_program m 0) b)) as ((m1 & E1 & _ & _ & R1) & Hx & Hs).
  - reflexivity.
  - lia.
  - reflexivity.
  - exact (halt_loaded m 0 Hm).
  - exact (halt_at m 0 Hm ltac:(by unfold is_s32) ltac:(by unfold is_s32)).
  - destruct (Hx demo_env (demo_state (halt_program m 8) b) (halt_loaded m 8 Hm) (halt_at m 8 Hm ltac:(by unfold is_s32) ltac:(by unfold is_s32)))
      as (m3 & E3 & _).
    exists m, b, (with_machine (demo_state (halt_program m 0) b) m1), (with_machine (demo_state (halt_program m 8) b) m3).
    split; [exact E|]. split; [exact E1|]. split; [|split; [exact E3|exact (Hs 0%nat "Halt" SC_Halt eq_refl)]].
    change (machine_of (with_machine (demo_state (halt_program m 0) b) m1)) with m1. rewrite R1. reflexivity.
Defined.

(** The file test/halt as it is in the repository, loaded by the kernel and run from
    the registers that [InitRegisters] sets: after 12 instructions it is at
    the [syscall] of the stub [Halt], which shuts the machine down. *)
Definition halt_file : list Z :=
  bytes_of ([0xbadfad; 0; 0x28; 0x1c0; 0xffffffff; 0xbffd059e; 0; 0x401162f3; 0; 0] ++ halt_words).

Definition run_file (file : list Z) (steps : nat) : outcome (answer (t UnixModel.t BitMap.t)) :=
  pages ← BitMap.BitMap (fun _ => 0) NumPhysPages;
  '(k, sp) ← AddrSpace.AddrSpace_name (AddrSpace.reader file) (replicate 40 0) (AddrSpace.mkKernel (Machine_new 0 0 false) pages 1);
  m ← AddrSpace.InitRegisters (AddrSpace.machine k) sp;
  tab ← BitMap.BitMap (fun _ => 0) 10;
  Run Ok steps demo_env (demo_state (AddrSpace.RestoreState m sp) tab).

Definition register_after (file : list Z) (steps : nat) (r : nat) : option Z :=
  match run_file file steps with Ok (Returned s) => registers (machine_of s) !! r | _ => None end.

Lemma halt_halts :
  register_after halt_file 12 34 = Some 20 /\ register_after halt_file 12 2 = Some SC_Halt /\
  run_file halt_file 13 = Fault Halted.
Proof. vm_compute. done. Qed.

End Start.
