(* ===== verification/FileService.v ===== *)
(** * The files that a process sees

    [Service.t] is the specification of the system calls on files: named files
    and a table of descriptors that all processes share.  One function per call
    says what it answers and what it changes.  [file_calls_refine_service] shows
    that the handlers of [FileCalls.v] implement it over any host that satisfies
    the laws of UNIX; the user programs of [WaterStation.v] are verified against
    the functions of the service. *)

From S2P Require Import Prelude MachineSim ConsoleDev Syscalls UserStrings HostFiles FileCalls Processes ProcessCalls KernelEntry.
Import Machine Syscall FileCalls.

Local Open Scope Z_scope.

Module Service.

(** ** Files and descriptors *)

Record descriptor := mkD { of_name : list Z; pos : Z; mode : Z }.
Record t := mk { files : gmap (list Z) (list Z); slots : list (option descriptor) }.

(** The first free one of the [n] descriptors from [i] on. *)
Fixpoint free_from (n : nat) (i : Z) (sl : list (option descriptor)) : Z :=
  match n with
  | O => -1
  | S n' => match sl !! Z.to_nat i with Some None => i | _ => free_from n' (i + 1) sl end
  end.
Definition free_slot (sv : t) : Z := free_from 13 2 (slots sv).

Definition set_slot (sv : t) (i : Z) (x : option descriptor) : t := mk (files sv) (<[Z.to_nat i := x]> (slots sv)).
Definition descriptor_of (sv : t) (i : Z) : option descriptor := default None (slots sv !! Z.to_nat i).
Definition contents (sv : t) (d : descriptor) : list Z := default [] (files sv !! of_name d).

(** ** The calls *)

Definition CreateFile (sv : t) (name : list Z) : t * Z :=
  match name with [] => (sv, -1) | _ => (mk (<[name := []]> (files sv)) (slots sv), 0) end.

(** A name that does not exist, and an unknown type, are answered with the
    number of the call; the types 2 and 3 give the console, when a descriptor
    is free. *)
Definition Open (sv : t) (name : list Z) (type : Z) : t * Z :=
  let i := free_slot sv in
  if i =? -1 then (sv, -1)
  else if (type =? 0) || (type =? 1) then
    match files sv !! name with
    | Some _ => (set_slot sv i (Some (mkD name 0 type)), i)
    | None => (sv, Entry.SC_Open)
    end
  else if type =? 2 then (sv, 0)
  else if type =? 3 then (sv, 1)
  else (sv, Entry.SC_Open).

Definition Close (sv : t) (id : Z) : t * Z :=
  if (0 <=? id) && (id <=? 14) then
    match descriptor_of sv id with Some _ => (set_slot sv id None, 0) | None => (sv, -1) end
  else (sv, -1).

(** The descriptor of a call that transfers data. *)
Definition transfer (sv : t) (id : Z) : option descriptor :=
  if (id <? 0) || (9 <? id) then None else descriptor_of sv id.

(** The bytes that [Read] brings, and its answer. *)
Definition Read (sv : t) (id n : Z) : t * Z * list Z :=
  match transfer sv id with
  | None => (sv, -1, [])
  | Some d =>
      let bs := slice (contents sv d) (Z.to_nat (pos d)) (Z.to_nat n) in
      match bs with
      | [] => (sv, -2, [])
      | _ => (set_slot sv id (Some (mkD (of_name d) (pos d + Z.of_nat (length bs)) (mode d))), Z.of_nat (length bs), bs)
      end
  end.

Definition Write (sv : t) (id : Z) (bs : list Z) : t * Z :=
  match transfer sv id with
  | None => (sv, -1)
  | Some d =>
      if mode d =? 1 then (sv, -1)
      else (set_slot (mk (<[of_name d := written (Z.to_nat (pos d)) bs (contents sv d)]> (files sv)) (slots sv)) id
              (Some (mkD (of_name d) (pos d + Z.of_nat (length bs)) (mode d))), Z.of_nat (length bs))
  end.

(** A position outside of the file is answered with the number of the call. *)
Definition Seek (sv : t) (p id : Z) : t * Z :=
  match transfer sv id with
  | None => (sv, Entry.SC_Seek)
  | Some d =>
      let p := if p =? -1 then Z.of_nat (length (contents sv d)) else p in
      if (p <? 0) || (Z.of_nat (length (contents sv d)) <? p) then (sv, Entry.SC_Seek)
      else (set_slot sv id (Some (mkD (of_name d) p (mode d))), p)
  end.

(** ** The handlers implement the service *)

Section refinement.
Context {H : Type} `{HH : Host H} `{HL : !HostLaws H} `{HO : !HostOpenLaws H}.
Implicit Types h : H.
Implicit Types tab : list (option HostFile.OpenFile).

Definition agrees h (x : option HostFile.OpenFile) (y : option descriptor) : Prop :=
  match x, y with
  | Some f, Some d =>
      exists ino, h_name h (of_name d) = Some ino /\ HostFile.open_on h f ino (pos d) /\ HostFile.type f = mode d /\ (mode d = 0 \/ mode d = 1)
  | None, None => True
  | _, _ => False
  end.

(** The files of the host have the contents of the service, one name each, and
    the table of open files has its descriptors; 0 and 1 are the console. *)
Record simulates h tab (sv : t) : Prop := {
  sim_tab : length tab = 15%nat;
  sim_slots : length (slots sv) = 15%nat;
  sim_files name : h_data h <$> h_name h name = files sv !! name;
  sim_links n1 n2 ino : h_name h n1 = Some ino -> h_name h n2 = Some ino -> n1 = n2;
  sim_open i x y : (2 <= i)%nat -> tab !! i = Some x -> slots sv !! i = Some y -> agrees h x y;
  sim_fds i j f g : (2 <= i)%nat -> (2 <= j)%nat -> tab !! i = Some (Some f) -> tab !! j = Some (Some g) ->
    HostFile.file f = HostFile.file g -> i = j;
}.

(** The names stay, and a descriptor of another file. *)
Lemma agrees_other h h' f x y : (forall name, h_name h' name = h_name h name) ->
  (forall fd, fd <> f -> h_fd h' fd = h_fd h fd) -> (forall g, x = Some g -> HostFile.file g <> f) ->
  agrees h x y -> agrees h' x y.
Proof.
  intros Hn Hf Hx. unfold agrees. destruct x as [g|], y as [d|]; try done.
  intros (ino & E & (Ho & Hp) & Hm). exists ino. rewrite Hn. split; [done|]. split; [|done]. split; [|done]. rewrite Hf; [done|]. by apply Hx.
Qed.

(** A call moves the offset of descriptor [i] and gives its file the contents [c]. *)
Lemma simulates_moved h h' tab sv i f d ino p c : simulates h tab sv -> (2 <= i)%nat ->
  tab !! i = Some (Some f) -> slots sv !! i = Some (Some d) -> h_name h (of_name d) = Some ino ->
  moved h h' (HostFile.file f) ino p -> 0 <= p -> h_data h' ino = c -> (forall k, k <> ino -> h_data h' k = h_data h k) ->
  simulates h' (<[i := Some (HostFile.set_offset f p)]> tab)
    (mk (<[of_name d := c]> (files sv)) (<[i := Some (mkD (of_name d) p (mode d))]> (slots sv))).
Proof.
  intros Hs Hi Hf Hd Hino Hm Hp Hc Hk. pose proof (sim_open _ _ _ Hs i _ _ Hi Hf Hd) as (ino' & Hino' & _ & Ht & Hmode).
  assert (ino' = ino) as -> by congruence. pose proof Hm as (Hfd & Hfds & Hnames).
  pose proof (lookup_lt_Some _ _ _ Hf) as Li. pose proof (lookup_lt_Some _ _ _ Hd) as Li'.
  split; cbn [files slots].
  - by rewrite length_insert, (sim_tab _ _ _ Hs).
  - by rewrite length_insert, (sim_slots _ _ _ Hs).
  - intros name. rewrite Hnames. destruct (decide (name = of_name d)) as [->|Hne].
    + by rewrite lookup_insert_eq, Hino; cbn; rewrite Hc.
    + rewrite lookup_insert_ne, <- (sim_files _ _ _ Hs) by done. destruct (h_name h name) as [k|] eqn:En; [|done]. cbn. f_equal. apply Hk.
      intros ->. apply Hne. by apply (sim_links _ _ _ Hs _ _ ino).
  - intros n1 n2 k. rewrite !Hnames. apply (sim_links _ _ _ Hs).
  - intros j x y Hj Hx Hy. destruct (decide (j = i)) as [->|Hne].
    + rewrite list_lookup_insert_eq in Hx by done. rewrite list_lookup_insert_eq in Hy by done. injection Hx as <-. injection Hy as <-. exists ino. cbn [of_name pos mode HostFile.set_offset HostFile.type].
      rewrite Hnames. split; [done|]. split; [|done]. by apply (moved_open h).
    + rewrite list_lookup_insert_ne in Hx by done. rewrite list_lookup_insert_ne in Hy by done. apply (agrees_other h _ (HostFile.file f)); [done|done| |by apply (sim_open _ _ _ Hs j)].
      intros g -> E. apply Hne. by apply (sim_fds _ _ _ Hs j i g f).
  - intros j k g1 g2 Hj Hk' H1 H2 E. assert (Hold : forall l g, <[i := Some (HostFile.set_offset f p)]> tab !! l = Some (Some g) ->
      exists g', tab !! l = Some (Some g') /\ HostFile.file g' = HostFile.file g).
    { intros l g Hl. destruct (decide (l = i)) as [->|Hne].
      - rewrite list_lookup_insert_eq in Hl by done. injection Hl as <-. by exists f.
      - rewrite list_lookup_insert_ne in Hl by done. by exists g. }
    destruct (Hold _ _ H1) as (g1' & E1 & F1), (Hold _ _ H2) as (g2' & E2 & F2). apply (sim_fds _ _ _ Hs j k g1' g2'); congruence.
Qed.

(** The same when only the offset moves. *)
Lemma simulates_moved_only h h' tab sv i f d ino p : simulates h tab sv -> (2 <= i)%nat ->
  tab !! i = Some (Some f) -> slots sv !! i = Some (Some d) -> h_name h (of_name d) = Some ino ->
  moved h h' (HostFile.file f) ino p -> 0 <= p -> (forall k, h_data h' k = h_data h k) ->
  simulates h' (<[i := Some (HostFile.set_offset f p)]> tab) (mk (files sv) (<[i := Some (mkD (of_name d) p (mode d))]> (slots sv))).
Proof.
  intros Hs Hi Hf Hd Hino Hm Hp Hk. pose proof (simulates_moved h h' tab sv i f d ino p (h_data h ino) Hs Hi Hf Hd Hino Hm Hp (Hk _) (fun k _ => Hk k)) as Hr.
  rewrite insert_id in Hr; [done|]. by rewrite <- (sim_files _ _ _ Hs), Hino.
Qed.

(** The host changes nothing that the service sees. *)
Lemma simulates_unseen h h' tab sv : simulates h tab sv -> (forall name, h_name h' name = h_name h name) ->
  (forall fd x, h_fd h fd = Some x -> h_fd h' fd = h_fd h fd) -> (forall k, h_data h' k = h_data h k) -> simulates h' tab sv.
Proof.
  intros [Ht Hl Hf Hi Ho Hd] Hn Hfd Hk. split; try done.
  - intros name. rewrite Hn, <- Hf. destruct (h_name h name); [|done]. cbn. by rewrite Hk.
  - intros n1 n2 ino. rewrite !Hn. apply Hi.
  - intros i x y Hi' Hx Hy. specialize (Ho i x y Hi' Hx Hy). destruct x as [f|], y as [d|]; try done.
    destruct Ho as (ino & E & (E2 & Ho) & Hm). exists ino. rewrite Hn. split; [done|]. split; [|done]. split; [|done]. by rewrite (Hfd _ _ E2).
Qed.

(** [open] gives descriptor [i] a file. *)
Lemma simulates_open h h' tab sv i fd name type ino : simulates h tab sv -> (2 <= i)%nat -> tab !! i = Some None ->
  h_name h name = Some ino -> h_fd h fd = None -> moved h h' fd ino 0 -> (forall k, h_data h' k = h_data h k) -> type = 0 \/ type = 1 ->
  simulates h' (<[i := Some (HostFile.mkFile fd 0 type)]> tab) (mk (files sv) (<[i := Some (mkD name 0 type)]> (slots sv))).
Proof.
  intros Hs Hi Hf Hino Hfresh Hm Hk Hty. pose proof Hm as (Hfd & Hfds & Hnames). pose proof (lookup_lt_Some _ _ _ Hf) as Li.
  assert (Hnew : forall j g, (2 <= j)%nat -> tab !! j = Some (Some g) -> HostFile.file g <> fd).
  { intros j g Hj Hg E. destruct (lookup_lt_is_Some_2 (slots sv) j) as [y Hy]; [rewrite (sim_slots _ _ _ Hs), <- (sim_tab _ _ _ Hs); by eapply lookup_lt_Some|].
    pose proof (sim_open _ _ _ Hs j _ _ Hj Hg Hy) as Ha. destruct y as [d|]; [|done]. destruct Ha as (? & _ & (Ha & _) & _). congruence. }
  split; cbn [files slots].
  - by rewrite length_insert, (sim_tab _ _ _ Hs).
  - by rewrite length_insert, (sim_slots _ _ _ Hs).
  - intros name'. rewrite Hnames, <- (sim_files _ _ _ Hs). destruct (h_name h name'); [|done]. cbn. by rewrite Hk.
  - intros n1 n2 k. rewrite !Hnames. apply (sim_links _ _ _ Hs).
  - intros j x y Hj Hx Hy. destruct (decide (j = i)) as [->|Hne].
    + rewrite list_lookup_insert_eq in Hx by done. rewrite list_lookup_insert_eq in Hy by (rewrite (sim_slots _ _ _ Hs), <- (sim_tab _ _ _ Hs); done).
      injection Hx as <-. injection Hy as <-. exists ino. cbn [of_name pos mode HostFile.type]. rewrite Hnames. done.
    + rewrite list_lookup_insert_ne in Hx by done. rewrite list_lookup_insert_ne in Hy by done.
      apply (agrees_other h _ fd); [done|done| |by apply (sim_open _ _ _ Hs j)]. intros g ->. by apply (Hnew j).
  - intros j k g1 g2 Hj Hk' H1 H2 E. destruct (decide (j = i)) as [->|Hji], (decide (k = i)) as [->|Hki]; [done| | |].
    + rewrite list_lookup_insert_eq in H1 by done. rewrite list_lookup_insert_ne in H2 by done. injection H1 as <-.
      exfalso. by apply (Hnew k g2 Hk' H2).
    + rewrite list_lookup_insert_ne in H1 by done. rewrite list_lookup_insert_eq in H2 by done. injection H2 as <-.
      exfalso. by apply (Hnew j g1 Hj H1).
    + rewrite list_lookup_insert_ne in H1 by done. rewrite list_lookup_insert_ne in H2 by done. by apply (sim_fds _ _ _ Hs j k g1 g2).
Qed.

(** A file is emptied, or made. *)
Lemma simulates_create h h' tab sv name ino : simulates h tab sv ->
  h_name h name = Some ino \/ h_name h name = None /\ (forall name', h_name h name' <> Some ino) ->
  h_name h' name = Some ino -> (forall name', name' <> name -> h_name h' name' = h_name h name') ->
  h_data h' ino = [] -> (forall k, k <> ino -> h_data h' k = h_data h k) -> (forall fd x, h_fd h fd = Some x -> h_fd h' fd = h_fd h fd) ->
  simulates h' tab (mk (<[name := []]> (files sv)) (slots sv)).
Proof.
  intros Hs Hold Hname Hnames Hc Hk Hfd.
  assert (Honly : forall name', name' <> name -> h_name h name' <> Some ino).
  { intros name' Hne E. destruct Hold as [Hold|[_ Hold]]; [|by apply (Hold name')]. by apply Hne, (sim_links _ _ _ Hs _ _ ino). }
  split; cbn [files slots]; try apply Hs.
  - intros name'. destruct (decide (name' = name)) as [->|Hne].
    + by rewrite lookup_insert_eq, Hname; cbn; rewrite Hc.
    + rewrite lookup_insert_ne, <- (sim_files _ _ _ Hs), Hnames by done. destruct (h_name h name') as [k|] eqn:E; [|done]. cbn. f_equal. apply Hk.
      intros ->. by apply (Honly name').
  - intros n1 n2 k. destruct (decide (n1 = name)) as [->|H1], (decide (n2 = name)) as [->|H2]; [done| | |].
    + rewrite Hname, Hnames by done. intros [= <-] E. exfalso. by apply (Honly n2).
    + rewrite Hname, Hnames by done. intros E [= <-]. exfalso. by apply (Honly n1).
    + rewrite !Hnames by done. apply (sim_links _ _ _ Hs).
  - intros i x y Hi Hx Hy. pose proof (sim_open _ _ _ Hs i x y Hi Hx Hy) as Ho. destruct x as [f|], y as [d|]; try done.
    destruct Ho as (k & E & (E2 & Ho) & Hm). exists k. split; [|split; [split; [by rewrite (Hfd _ _ E2)|done]|done]].
    destruct (decide (of_name d = name)) as [En|Hne]; [|by rewrite Hnames]. rewrite En in *. destruct Hold as [Hold|[Hold _]]; congruence.
Qed.

Lemma simulates_close h h' tab sv i f : simulates h tab sv -> (2 <= i)%nat -> tab !! i = Some (Some f) ->
  (forall fd, fd <> HostFile.file f -> h_fd h' fd = h_fd h fd) -> (forall name, h_name h' name = h_name h name) -> (forall k, h_data h' k = h_data h k) ->
  simulates h' (<[i := None]> tab) (mk (files sv) (<[i := None]> (slots sv))).
Proof.
  intros Hs Hi Hf Hfd Hnames Hk. pose proof (lookup_lt_Some _ _ _ Hf) as Li. split; cbn [files slots].
  - by rewrite length_insert, (sim_tab _ _ _ Hs).
  - by rewrite length_insert, (sim_slots _ _ _ Hs).
  - intros name'. rewrite Hnames, <- (sim_files _ _ _ Hs). destruct (h_name h name'); [|done]. cbn. by rewrite Hk.
  - intros n1 n2 k. rewrite !Hnames. apply (sim_links _ _ _ Hs).
  - intros j x y Hj Hx Hy. destruct (decide (j = i)) as [->|Hne].
    + rewrite list_lookup_insert_eq in Hx by done. rewrite list_lookup_insert_eq in Hy by (rewrite (sim_slots _ _ _ Hs), <- (sim_tab _ _ _ Hs); done).
      injection Hx as <-. by injection Hy as <-.
    + rewrite list_lookup_insert_ne in Hx by done. rewrite list_lookup_insert_ne in Hy by done.
      apply (agrees_other h _ (HostFile.file f)); [done|done| |by apply (sim_open _ _ _ Hs j)].
      intros g -> E. apply Hne. by apply (sim_fds _ _ _ Hs j i g f).
  - intros j k g1 g2 Hj Hk' H1 H2 E. destruct (decide (j = i)) as [->|Hji]; [by rewrite list_lookup_insert_eq in H1|].
    destruct (decide (k = i)) as [->|Hki]; [by rewrite list_lookup_insert_eq in H2|].
    rewrite list_lookup_insert_ne in H1 by done. rewrite list_lookup_insert_ne in H2 by done. by apply (sim_fds _ _ _ Hs j k g1 g2).
Qed.

(** Descriptors by their numbers. *)
Lemma sim_lookup h tab sv i : simulates h tab sv -> 2 <= i <= 14 ->
  match descriptor_of sv i with
  | None => tab !! Z.to_nat i = Some None
  | Some d => slots sv !! Z.to_nat i = Some (Some d) /\ exists f ino, tab !! Z.to_nat i = Some (Some f) /\ h_name h (of_name d) = Some ino /\
      HostFile.open_on h f ino (pos d) /\ HostFile.type f = mode d /\ (mode d = 0 \/ mode d = 1) /\ contents sv d = h_data h ino
  end.
Proof.
  intros Hs Hi. destruct (lookup_lt_is_Some_2 (slots sv) (Z.to_nat i)) as [y Hy]; [rewrite (sim_slots _ _ _ Hs); lia|].
  destruct (lookup_lt_is_Some_2 tab (Z.to_nat i)) as [x Hx]; [rewrite (sim_tab _ _ _ Hs); lia|].
  pose proof (sim_open _ _ _ Hs (Z.to_nat i) x y ltac:(lia) Hx Hy) as Ha. unfold descriptor_of. rewrite Hy. cbn. destruct y as [d|], x as [f|]; try done.
  split; [done|]. destruct Ha as (ino & E & Ho & Ht & Hm). exists f, ino. do 5 (split; [done|]). unfold contents. rewrite <- (sim_files _ _ _ Hs), E. done.
Qed.

Lemma free_from_ok n : forall i h tab sv, simulates h tab sv -> 2 <= i -> i + Z.of_nat n = 15 ->
  HostFile.FindFreeSlot_from n i (HostFile.mk h tab) = Ok (free_from n i (slots sv)) /\
  (free_from n i (slots sv) <> -1 -> 2 <= free_from n i (slots sv) <= 14 /\ tab !! Z.to_nat (free_from n i (slots sv)) = Some None).
Proof.
  induction n as [|n IH]; intros i h tab sv Hs Hi Hn; cbn [HostFile.FindFreeSlot_from free_from]; [done|].
  pose proof (sim_lookup h tab sv i Hs ltac:(lia)) as Hl. unfold descriptor_of in Hl.
  destruct (lookup_lt_is_Some_2 (slots sv) (Z.to_nat i)) as [y Hy]; [rewrite (sim_slots _ _ _ Hs); lia|]. rewrite Hy in *. cbn [default] in Hl.
  cbn [HostFile.openfile]. destruct y as [d|].
  - destruct Hl as (_ & f & ino & Hf & _). rewrite (rd_lookup _ _ (Some f)) by (done || lia). cbn [mbind outcome_bind]. apply IH; [done|lia|lia].
  - rewrite (rd_lookup _ _ None) by (done || lia). cbn [mbind outcome_bind]. split; [done|]. intros _. split; [lia|done].
Qed.

Section calls.
Context (pt : list TranslationEntry) (n : Z) (m : Machine.t) (c : SynchConsole.t) (h : H) (tab : list (option HostFile.OpenFile)) (sv : t).
Context (Hu : Strings.uses pt n m) (Hown : own_frames pt pt True) (Hregs : has_regs m) (Hs : simulates h tab sv).

(** The handler ends with the files and the answer of the service. *)
Definition served (x : outcome (FileCalls.t H)) (r : t * Z) : Prop :=
  exists m' h' tab', x = Ok (St m' c h' tab') /\ simulates h' tab' (fst r) /\ returned pt n m m' (snd r).

(** A handler that ends with an answer. *)
Lemma served_answer m1 h' tab' sv' v : Strings.touched pt n m m1 -> simulates h' tab' sv' ->
  served (set_reg (St m1 c h' tab') 2 v) (sv', v).
Proof.
  intros (Hu1 & Hr1 & Hm1) Hs'. rewrite set_reg_St by (done || by unfold has_regs; rewrite Hr1).
  eexists _, h', tab'. split; [done|]. split; [done|]. split; [by apply uses_set_registers|]. cbn. by rewrite Hr1.
Qed.

(** A handler that leaves register 2 as it is. *)
Lemma served_kept m1 h' tab' sv' v : Strings.touched pt n m m1 -> simulates h' tab' sv' -> registers m !! 2%nat = Some v ->
  served (Ok (St m1 c h' tab')) (sv', v).
Proof.
  intros (Hu1 & Hr1 & Hm1) Hs' Hv. exists m1, h', tab'. split; [done|]. split; [done|]. split; [done|]. split; [|done].
  cbn [snd]. by rewrite list_insert_id.
Qed.

Lemma touched_same : Strings.touched pt n m m.
Proof. by split. Qed.

Lemma CreateFile_served va name : registers m !! 4%nat = Some va -> Strings.string_at pt n m va name ->
  Forall Strings.is_char name -> Z.of_nat (length name) <= MAX_LENGTH ->
  served (CreateFileFunction (St m c h tab)) (CreateFile sv name).
Proof.
  intros H4 Hat Hch Hlen. unfold CreateFileFunction. rewrite (reg_St _ _ _ _ 4 va) by done. cbn [mbind outcome_bind].
  unfold user2system at 1. cbn [base St machine].
  destruct (Strings.User2System_string pt n m va (MAX_LENGTH + 1) name Hu Hch ltac:(lia) Hat) as (m1 & -> & Ht). cbn [mbind outcome_bind].
  change (with_machine (St m c h tab) m1) with (St m1 c h tab). rewrite c_string_text by done.
  destruct (decide (name = [])) as [->|Hne]; [rewrite bool_decide_true by done; by apply served_answer|]. rewrite bool_decide_false by done.
  assert (CreateFile sv name = (mk (<[name := []]> (files sv)) (slots sv), 0)) as -> by (by destruct name).
  unfold HostFile.Create, HostFile.OpenForWrite. cbn [fileSystem St HostFile.host HostFile.openfile].
  assert (Hc : exists h1 fd ino, h_open h name true = (h1, fd) /\ 0 <= fd /\ h_fd h fd = None /\ h_fd h1 fd = Some (ino, 0) /\
    (forall fd', fd' <> fd -> h_fd h1 fd' = h_fd h fd') /\ simulates h1 tab (mk (<[name := []]> (files sv)) (slots sv))).
  { destruct (h_name h name) as [ino|] eqn:En.
    - destruct (h_open_existing h name true ino En) as (h1 & fd & E & H0 & Hf & (M1 & M2 & M3) & D & Dk). exists h1, fd, ino. do 5 (split; [done|]).
      apply (simulates_create h h1 tab sv name ino); [done|by left|by rewrite M3|intros; apply M3|done|done|].
      intros fd' x Hx. apply M2. congruence.
    - destruct (h_open_new h name En) as (h1 & fd & ino & E & H0 & Hf & M1 & M2 & N0 & N1 & N2 & D & Dk). exists h1, fd, ino. do 5 (split; [done|]).
      apply (simulates_create h h1 tab sv name ino); [done|by right|done|done|done|done|]. intros fd' x Hx. apply M2. congruence. }
  destruct Hc as (h1 & fd & ino & -> & H0 & Hf & M1 & M2 & S1). rewrite Z.geb_leb, (proj2 (Z.leb_le 0 fd)) by done. cbn [ASSERT mbind outcome_bind].
  rewrite (proj2 (Z.eqb_neq fd (-1))) by lia. unfold HostFile.Close.
  destruct (h_close_ok h1 fd (ino, 0) M1) as (h2 & -> & C1 & C2 & C3 & C4). cbn [Z.geb Z.compare ASSERT mbind outcome_bind negb].
  change (with_fs _ (HostFile.mk h2 tab)) with (St m1 c h2 tab). apply served_answer; [done|].
  destruct S1 as [T1 T2 T3 T4 T5 T6]. split; try done.
  - intros name'. rewrite C3, <- T3. destruct (h_name h1 name'); [|done]. cbn. by rewrite C4.
  - intros n1 n2 k. rewrite !C3. apply T4.
  - intros i x y Hi Hx Hy. apply (agrees_other h1 _ fd); [done|done| |by apply (T5 i)].
    intros g -> E. cbn [slots] in Hy. pose proof (sim_open _ _ _ Hs i _ _ Hi Hx Hy) as Ha. destruct y; [|done]. destruct Ha as (? & _ & (Ha & _) & _). congruence.
Qed.

Lemma Open_served va name type : registers m !! 4%nat = Some va -> registers m !! 5%nat = Some type -> registers m !! 2%nat = Some Entry.SC_Open ->
  Strings.string_at pt n m va name -> Forall Strings.is_char name -> Z.of_nat (length name) <= MAX_LENGTH ->
  served (OpenFunction (St m c h tab)) (Open sv name type).
Proof.
  intros H4 H5 H2 Hat Hch Hlen. unfold OpenFunction. rewrite (reg_St _ _ _ _ 4 va) by done. cbn [mbind outcome_bind].
  unfold user2system at 1. cbn [base St machine].
  destruct (Strings.User2System_string pt n m va MAX_LENGTH name Hu Hch Hlen Hat) as (m1 & -> & Ht). cbn [mbind outcome_bind].
  change (with_machine (St m c h tab) m1) with (St m1 c h tab). rewrite c_string_text by done. cbn [fileSystem St].
  unfold HostFile.FindFreeSlot, HostFile.NumSlots. destruct (free_from_ok 13 2 h tab sv Hs ltac:(lia) ltac:(lia)) as [Ef Hfree].
  change (Z.to_nat (15 - 2)) with 13%nat. rewrite Ef. cbn [mbind outcome_bind]. fold (St m1 c h tab).
  rewrite (reg_St _ _ _ _ 5 type) by (done || by destruct Ht as (_ & -> & _)). cbn [mbind outcome_bind].
  unfold Open. fold (free_slot sv) in Hfree |- *. destruct (Z.eqb_spec (free_slot sv) (-1)) as [E|E]; cbn [negb]; [by apply served_answer|].
  destruct (Hfree E) as [Hi Hn]. destruct ((type =? 0) || (type =? 1)) eqn:Ety.
  2:{ destruct (type =? 2); [by apply served_answer|]. destruct (type =? 3); [by apply served_answer|]. by apply served_kept. }
  assert (Hty : type = 0 \/ type = 1) by (apply orb_true_iff in Ety as [?%Z.eqb_eq|?%Z.eqb_eq]; lia).
  unfold HostFile.Open, HostFile.OpenForReadWrite. cbn [St fileSystem HostFile.host HostFile.openfile]. rewrite <- (sim_files _ _ _ Hs).
  assert (Htab : 0 <= free_slot sv < Z.of_nat (length tab)) by (rewrite (sim_tab _ _ _ Hs); lia).
  destruct (h_name h name) as [ino|] eqn:En; cbn [fmap option_fmap option_map].
  - destruct (h_open_existing h name false ino En) as (h1 & fd & -> & H0 & Hf & M & D & Dk). cbn [negb orb ASSERT mbind outcome_bind].
    rewrite (proj2 (Z.eqb_neq fd (-1))) by lia. change (with_fs _ (HostFile.mk h1 tab)) with (St m1 c h1 tab).
    rewrite put_file_St by done. cbn [mbind outcome_bind]. apply served_answer; [done|]. unfold set_slot.
    apply (simulates_open h h1 tab sv _ fd name type ino); [done|lia|done|done|done|done| |done].
    intros k. destruct (decide (k = ino)) as [->|]; [done|by apply Dk].
  - destruct (h_open_missing h name En) as (h1 & -> & F & N & D). cbn [negb orb ASSERT mbind outcome_bind Z.eqb Pos.eqb].
    change (with_fs _ (HostFile.mk h1 tab)) with (St m1 c h1 tab). rewrite put_file_St by done. cbn [mbind outcome_bind].
    rewrite list_insert_id by done. apply served_kept; [done| |done]. by apply (simulates_unseen h).
Qed.

Lemma Close_served id : registers m !! 4%nat = Some id -> id <> 0 -> id <> 1 ->
  served (CloseFunction (St m c h tab)) (Close sv id).
Proof.
  intros H4 N0 N1. unfold CloseFunction, Close. rewrite (reg_St _ _ _ _ 4 id) by done. cbn [mbind outcome_bind]. rewrite Z.geb_leb.
  destruct ((0 <=? id) && (id <=? 14)) eqn:Eb; [|apply served_answer; [apply touched_same|done]].
  apply andb_true_iff in Eb as [Eb1%Z.leb_le Eb2%Z.leb_le]. pose proof (sim_lookup h tab sv id Hs ltac:(lia)) as Hl.
  destruct (descriptor_of sv id) as [d|].
  - destruct Hl as (Hd & f & ino & Hf & Hino & (Ho & _) & _). rewrite (file_at_St _ _ _ _ id (Some f)) by done. cbn [mbind outcome_bind].
    unfold HostFile.Close. cbn [host_of fileSystem St HostFile.host]. destruct (h_close_ok h (HostFile.file f) _ Ho) as (h1 & -> & C1 & C2 & C3 & C4).
    cbn [Z.geb Z.compare ASSERT mbind outcome_bind]. change (with_host (St m c h tab) h1) with (St m c h1 tab).
    rewrite put_file_St by (pose proof (lookup_lt_Some _ _ _ Hf); lia). cbn [mbind outcome_bind]. apply served_answer; [apply touched_same|].
    by apply (simulates_close h h1 tab sv _ f); [|lia|..].
  - rewrite (file_at_St _ _ _ _ id None) by done. cbn [mbind outcome_bind]. apply served_answer; [apply touched_same|done].
Qed.

(** The descriptor of a transfer, in the table of the kernel. *)
Lemma transfer_cases id : id <> 0 -> id <> 1 ->
  match transfer sv id with
  | None => id < 0 \/ 9 < id \/ 0 <= id <= 9 /\ tab !! Z.to_nat id = Some None
  | Some d => 2 <= id <= 9 /\ slots sv !! Z.to_nat id = Some (Some d) /\ exists f ino, tab !! Z.to_nat id = Some (Some f) /\ h_name h (of_name d) = Some ino /\
      HostFile.open_on h f ino (pos d) /\ HostFile.type f = mode d /\ (mode d = 0 \/ mode d = 1) /\ contents sv d = h_data h ino
  end.
Proof.
  intros N0 N1. unfold transfer. destruct ((id <? 0) || (9 <? id)) eqn:Eb.
  - apply orb_true_iff in Eb as [Eb%Z.ltb_lt|Eb%Z.ltb_lt]; lia.
  - apply orb_false_iff in Eb as [Eb1%Z.ltb_ge Eb2%Z.ltb_ge]. pose proof (sim_lookup h tab sv id Hs ltac:(lia)) as Hl.
    destruct (descriptor_of sv id); [split; [lia|done]|]. right. right. by split.
Qed.

(** The calls that transfer data refuse the other descriptors. *)
Lemma refused_test (x : outcome (FileCalls.t H)) (k : HostFile.OpenFile -> outcome (FileCalls.t H)) id :
  id < 0 \/ 9 < id \/ 0 <= id <= 9 /\ tab !! Z.to_nat id = Some None ->
  (if (id <? 0) || (id >? 9) then x else y ← file_at (St m c h tab) id; match y with None => x | Some f => k f end) = x.
Proof.
  intros Hid. rewrite Z.gtb_ltb. destruct ((id <? 0) || (9 <? id)) eqn:Eb; [done|].
  apply orb_false_iff in Eb as [Eb1%Z.ltb_ge Eb2%Z.ltb_ge]. destruct Hid as [?|[?|[? Hn]]]; [lia|lia|]. by rewrite (file_at_St _ _ _ _ id None).
Qed.

Lemma Write_served va id bs : args m va (Z.of_nat (length bs)) id -> id <> 0 -> id <> 1 -> bs <> [] -> Forall is_byte bs -> chars_at pt n m va bs ->
  (forall d, transfer sv id = Some d -> pos d + Z.of_nat (length bs) < 2 ^ 31) ->
  served (WriteFunction (St m c h tab)) (Write sv id (blanked bs)).
Proof.
  intros Ha N0 N1 Hne Hch Hat Hmax. pose proof Ha as (_ & H4 & H5 & H6). pose proof (transfer_cases id N0 N1) as Hc. unfold Write. rewrite length_blanked.
  destruct (transfer sv id) as [d|] eqn:Et.
  - destruct Hc as (Hid & Hd & f & ino & Hf & Hino & Ho & Hty & Hm & Ec). specialize (Hmax d eq_refl).
    pose proof Ho as (_ & _ & Hpos). destruct Hm as [Hm|Hm]; rewrite Hm; cbn [Z.eqb Pos.eqb].
    + destruct (WriteFunction_bytes pt n m c h tab id f ino (pos d) va bs) as (m' & h' & -> & Hr & M & D & Dk); try done || lia.
      eexists m', h', _. split; [done|]. cbn [fst snd]. split; [|done]. unfold set_slot. cbn [files slots]. rewrite <- Hm.
      apply (simulates_moved h h' tab sv _ f d ino); try done; [lia|lia|]. by rewrite D, Ec.
    + unfold WriteFunction. rewrite (reg_St _ _ _ _ 4 va), (reg_St _ _ _ _ 5 (Z.of_nat (length bs))), (reg_St _ _ _ _ 6 id) by done.
      cbn [mbind outcome_bind]. rewrite Z.gtb_ltb, (proj2 (Z.ltb_ge id 0)), (proj2 (Z.ltb_ge 9 id)) by lia. cbn [orb].
      rewrite (file_at_St _ _ _ _ id (Some f)) by (done || lia). cbn [mbind outcome_bind]. rewrite Hty, Hm. cbn [Z.eqb Pos.eqb orb].
      apply served_answer; [apply touched_same|done].
  - unfold WriteFunction. rewrite (reg_St _ _ _ _ 4 va), (reg_St _ _ _ _ 5 (Z.of_nat (length bs))), (reg_St _ _ _ _ 6 id) by done.
    cbn [mbind outcome_bind]. setoid_rewrite refused_test; [|done]. apply served_answer; [apply touched_same|done].
Qed.

(** What [Read] brings is in the buffer, and nothing else of the memory changes. *)
Lemma Read_served junk va id k : args m va k id -> id <> 0 -> id <> 1 -> 0 <= k < 2 ^ 31 -> (forall j, 0 <= j < k -> Strings.writable pt n (s32 (va + j))) ->
  Forall is_byte (snd (Read sv id k)) -> (forall d, transfer sv id = Some d -> pos d + k < 2 ^ 31) ->
  exists m1 m' h' tab', ReadFunction junk (St m c h tab) = Ok (St m' c h' tab') /\ simulates h' tab' (fst (fst (Read sv id k))) /\
    Strings.stored pt n m m1 va 0 (until_zero (snd (Read sv id k))) /\ returned pt n m1 m' (snd (fst (Read sv id k))).
Proof.
  intros Ha N0 N1 Hk Hw Htx Hmax. pose proof Ha as (_ & H4 & H5 & H6). pose proof (transfer_cases id N0 N1) as Hc.
  assert (Hno : forall m1 h' tab' sv' v, Strings.touched pt n m m1 -> simulates h' tab' sv' -> exists m2 m' h'' tab'',
    set_reg (St m1 c h' tab') 2 v = Ok (St m' c h'' tab'') /\ simulates h'' tab'' sv' /\ Strings.stored pt n m m2 va 0 [] /\ returned pt n m2 m' v).
  { intros m1 h' tab' sv' v Ht Hs'. destruct (served_answer m1 h' tab' sv' v Ht Hs') as (m' & h'' & tab'' & E & S' & R').
    exists m, m', h'', tab''. split; [done|]. split; [done|]. split; [|done]. by split. }
  unfold Read in *. destruct (transfer sv id) as [d|] eqn:Et.
  - destruct Hc as (Hid & Hd & f & ino & Hf & Hino & Ho & Hty & Hm & Ec). specialize (Hmax d eq_refl). pose proof Ho as (_ & Hcur & Hpos).
    rewrite Ec in *. set (bs := slice (h_data h ino) (Z.to_nat (pos d)) (Z.to_nat k)) in *. rewrite <- Hty in Hm. destruct (decide (bs = [])) as [Eb|Eb].
    + destruct (ReadFunction_reads junk pt n m c h tab id f ino (pos d) va k bs) as (m1 & h' & buf & Ht & M & D & _ & ->); try done || lia.
      rewrite Eb in *. cbn [length Z.of_nat Z.gtb Z.compare fst snd] in *. apply Hno; [done|]. rewrite Z.add_0_r in *.
      replace sv with (mk (files sv) (<[Z.to_nat id := Some (mkD (of_name d) (pos d) (mode d))]> (slots sv)));
        [|rewrite list_insert_id; [by destruct sv|by rewrite Hd; destruct d]].
      by apply (simulates_moved_only h h' tab sv _ f d ino); [|lia|..].
    + assert (Em : forall (x : t * Z * list Z) y, match bs with [] => x | _ => y end = y) by (by destruct bs). rewrite Em in *. cbn [fst snd] in *.
      assert (0 < length bs)%nat by (destruct bs; [done|cbn; lia]).
      destruct (ReadFunction_bytes junk pt n m c h tab id f ino (pos d) va k bs) as (m1 & m' & h' & E & Hst & Hr & M & D); try done || lia.
      exists m1, m', h'. eexists. split; [exact E|]. split; [|done]. by apply (simulates_moved_only h h' tab sv _ f d ino); [|lia|..|lia|].
  - unfold ReadFunction. rewrite (reg_St _ _ _ _ 4 va), (reg_St _ _ _ _ 5 k), (reg_St _ _ _ _ 6 id) by done.
    cbn [mbind outcome_bind fst snd]. setoid_rewrite refused_test; [|done]. apply Hno; [apply touched_same|done].
Qed.

Lemma Seek_served p id : registers m !! 4%nat = Some p -> registers m !! 5%nat = Some id -> registers m !! 2%nat = Some Entry.SC_Seek -> id <> 0 -> id <> 1 ->
  served (SeekFunction (St m c h tab)) (Seek sv p id).
Proof.
  intros H4 H5 H2 N0 N1. pose proof (transfer_cases id N0 N1) as Hc. unfold SeekFunction, Seek.
  rewrite (reg_St _ _ _ _ 4 p), (reg_St _ _ _ _ 5 id) by done. cbn [mbind outcome_bind]. rewrite (proj2 (Z.eqb_neq id 0)), (proj2 (Z.eqb_neq id 1)), !orb_false_r by done.
  rewrite Z.gtb_ltb. destruct (transfer sv id) as [d|] eqn:Et.
  - destruct Hc as (Hid & Hd & f & ino & Hf & Hino & Ho & Hty & Hm & Ec). pose proof Ho as (_ & Hcur & Hpos). rewrite Ec.
    rewrite (proj2 (Z.ltb_ge id 0)), (proj2 (Z.ltb_ge 9 id)) by lia. cbn [orb]. rewrite (file_at_St _ _ _ _ id (Some f)) by (done || lia). cbn [mbind outcome_bind].
    set (len := Z.of_nat (length (h_data h ino))). cbn [host_of fileSystem St HostFile.host].
    assert (H1 : exists h1, (if p =? -1 then HostFile.Length h f else Ok (h, p)) = Ok (h1, if p =? -1 then len else p) /\
      moved h h1 (HostFile.file f) ino (pos d) /\ forall k, h_data h1 k = h_data h k).
    { destruct (p =? -1); [exact (HostFile.Length_ok h f ino (pos d) Ho)|]. exists h. split; [done|]. split; [|done]. split; [apply Ho|done]. }
    destruct H1 as (h1 & -> & M1 & D1). cbn [mbind outcome_bind]. set (q := if p =? -1 then len else p).
    destruct (HostFile.Length_ok h1 f ino (pos d) (open_on_moved _ _ _ _ _ Ho M1)) as (h2 & E2 & M2 & D2). rewrite D1 in E2. fold len in E2.
    assert (H3 : exists h3, (if q <? 0 then Ok (h1, true) else '(h, len) ← HostFile.Length h1 f; Ok (h, q >? len)) = Ok (h3, (q <? 0) || (len <? q)) /\
      moved h h3 (HostFile.file f) ino (pos d) /\ forall k, h_data h3 k = h_data h k).
    { destruct (q <? 0); [by exists h1|]. rewrite E2. cbn [mbind outcome_bind orb]. rewrite Z.gtb_ltb. exists h2. split; [done|].
      split; [by eapply HostFile.moved_trans|]. intros k. by rewrite D2, D1. }
    destruct H3 as (h3 & -> & M3 & D3). cbn [mbind outcome_bind]. change (with_host (St m c h tab) ?x) with (St m c x tab).
    destruct ((q <? 0) || (len <? q)) eqn:Eq.
    + apply served_kept; [apply touched_same| |done]. apply (simulates_unseen h); [done|apply M3| |done]. intros fd x Hx.
      destruct (decide (fd = HostFile.file f)) as [->|Hne]; [|by apply M3]. destruct M3 as (-> & _). destruct Ho as (-> & _). done.
    + apply orb_false_iff in Eq as [Eq1%Z.ltb_ge Eq2%Z.ltb_ge].
      destruct (HostFile.Seek_ok h3 f ino (pos d) q (open_on_moved _ _ _ _ _ Ho M3) Eq1) as (h4 & -> & M4 & D4). cbn [mbind outcome_bind].
      change (with_host (St m c h tab) h4) with (St m c h4 tab). rewrite put_file_St by (pose proof (lookup_lt_Some _ _ _ Hf); lia). cbn [mbind outcome_bind].
      apply served_answer; [apply touched_same|]. apply (simulates_moved_only h h4 tab sv _ f d ino); try done; [lia|by eapply HostFile.moved_trans|].
      intros k. by rewrite D4, D3.
  - assert ((if (id <? 0) || (9 <? id) then Ok None else file_at (St m c h tab) id) = Ok None) as ->.
    { destruct ((id <? 0) || (9 <? id)) eqn:Eb; [done|]. apply orb_false_iff in Eb as [Eb1%Z.ltb_ge Eb2%Z.ltb_ge].
      destruct Hc as [?|[?|[? Hn]]]; [lia|lia|]. by apply file_at_St. }
    cbn [mbind outcome_bind]. apply served_kept; [apply touched_same|done|done].
Qed.

End calls.

(** C10: the system calls on files implement the service.  For a process that uses
    the page table [pt], with the arguments [a4], [a5] and [a6] of a call in its
    registers, and a table of open files and a host that have the files of [sv],
    every call on a file leaves the files that the function of the service
    gives and answers what it answers; [Read] stores its bytes and no call changes
    another byte of the memory.  Among the answers are the failures: [CreateFile] of
    an empty name -1; [Open] of a name that does not exist, or with an unknown type,
    5, and [Seek] outside of a file 21, the numbers of the calls; -1 when no
    descriptor is free, for a closed descriptor, for [Write] to a read-only file and
    for the descriptors 10 to 14, which can be opened and not be used.  The kernel's
    copy of the buffer ends at a zero byte: [Write] puts zeros in the file for all
    that follows a zero ([blanked]), and [Read] stores no byte after a zero
    ([until_zero]), although both answer the full count.
    The conditions: names are strings of at most 32 characters in mapped memory;
    the descriptors 0 and 1, the console, are not given to [Close], [Seek], [Read]
    and [Write]; [Write] has at least one byte, the buffers are mapped and the one
    of [Read] may be written, and no offset passes [2^31]; and the host opens every
    file that exists and can create every other ([HostOpenLaws]: the kernel asserts
    it for [CreateFile]). *)
Theorem file_calls_refine_service junk pt n m c h tab sv a4 a5 a6 :
  Strings.uses pt n m -> own_frames pt pt True -> args m a4 a5 a6 -> simulates h tab sv ->
  let serves := served pt n m c in
  let s := St m c h tab in
  (forall name, Strings.string_at pt n m a4 name -> Forall Strings.is_char name -> Z.of_nat (length name) <= MAX_LENGTH ->
     serves (CreateFileFunction s) (CreateFile sv name)) /\
  (forall name, Strings.string_at pt n m a4 name -> Forall Strings.is_char name -> Z.of_nat (length name) <= MAX_LENGTH ->
     registers m !! 2%nat = Some Entry.SC_Open -> serves (OpenFunction s) (Open sv name a5)) /\
  (a4 <> 0 -> a4 <> 1 -> serves (CloseFunction s) (Close sv a4)) /\
  (a5 <> 0 -> a5 <> 1 -> registers m !! 2%nat = Some Entry.SC_Seek -> serves (SeekFunction s) (Seek sv a4 a5)) /\
  (a6 <> 0 -> a6 <> 1 -> forall bs, bs <> [] -> Forall is_byte bs -> chars_at pt n m a4 bs -> a5 = Z.of_nat (length bs) ->
     (forall d, transfer sv a6 = Some d -> pos d + a5 < 2 ^ 31) -> serves (WriteFunction s) (Write sv a6 (blanked bs))) /\
  (a6 <> 0 -> a6 <> 1 -> 0 <= a5 < 2 ^ 31 -> (forall j, 0 <= j < a5 -> Strings.writable pt n (s32 (a4 + j))) ->
     (forall d, transfer sv a6 = Some d -> pos d + a5 < 2 ^ 31) -> Forall is_byte (snd (Read sv a6 a5)) ->
     exists m1 m' h' tab', ReadFunction junk s = Ok (St m' c h' tab') /\ simulates h' tab' (fst (fst (Read sv a6 a5))) /\
       Strings.stored pt n m m1 a4 0 (until_zero (snd (Read sv a6 a5))) /\ returned pt n m1 m' (snd (fst (Read sv a6 a5)))).
Proof.
  intros Hu Hown Ha Hs serves s. pose proof Ha as (Hr & H4 & H5 & H6).
  split; [intros; by apply (CreateFile_served _ _ _ _ _ _ _ Hu Hr Hs a4)|].
  split; [intros; by apply (Open_served _ _ _ _ _ _ _ Hu Hr Hs a4)|].
  split; [intros; by apply Close_served|]. split; [intros; by apply Seek_served|].
  split; [intros N0 N1 bs Hne Hch Hat -> Hmax; by apply (Write_served _ _ _ _ _ _ _ Hu Hr Hs a4)|].
  intros. by apply Read_served.
Qed.

End refinement.

(** ** A process with an open file *)

Definition demo_service : t := mk {[ [97] := [] ]} ([None; None; Some (mkD [97] 0 0)] ++ replicate 12 None).

Lemma demo_simulates : simulates demo_host demo_files demo_service.
Proof.
  split; [done|done| | | |].
  - intros name. cbn. destruct (decide (name = [97])) as [->|Hne]; [done|]. by rewrite !lookup_singleton_ne.
  - intros n1 n2 ino. cbn. rewrite !lookup_singleton_Some. by intros [<- _] [<- _].
  - intros i x y Hi Hx Hy. do 2 (destruct i as [|i]; [lia|]). destruct i as [|i].
    + injection Hx as <-. injection Hy as <-. exists 1. split; [done|]. split; [done|]. split; [done|]. by left.
    + cbn [demo_files demo_service slots app lookup list_lookup] in Hx, Hy. apply lookup_replicate in Hx as [-> _]. by apply lookup_replicate in Hy as [-> _].
  - intros i j f g Hi Hj Hf Hg _. do 2 (destruct i as [|i]; [lia|]). do 2 (destruct j as [|j]; [lia|]).
    assert (Hrep : forall l x, replicate 12 (@None HostFile.OpenFile) !! l = Some (Some x) -> False) by (intros l x [? _]%lookup_replicate; done).
    destruct i as [|i], j as [|j]; [done|by destruct (Hrep j g)|by destruct (Hrep i f)|by destruct (Hrep i f)].
Qed.

Lemma file_calls_refine_service_witness : exists m, m = Machine_new 0 0 false /\
  served demo_table 2 (demo_call m 100 2 2) (SynchConsole.SynchConsole_new [])
    (WriteFunction (St (demo_call m 100 2 2) (SynchConsole.SynchConsole_new []) demo_host demo_files)) (Write demo_service 2 (blanked [104; 105])).
Proof.
  destruct fresh_machine as [m E]. exists m. split; [exact E|].
  assert (Hok : regs_ok m /\ mem_ok m) by (rewrite E; exact (Machine_new_ok 0 0 false)). destruct Hok as [Hr Hm].
  destruct (demo_call_ok m 100 2 2 Hr Hm) as (Hu & Ha & Hc).
  apply (file_calls_refine_service 0 demo_table 2 (demo_call m 100 2 2) (SynchConsole.SynchConsole_new []) demo_host demo_files demo_service 100 2 2 Hu demo_table_own Ha demo_simulates).
  - lia.
  - lia.
  - discriminate.
  - repeat constructor.
  - by apply string_chars.
  - reflexivity.
  - intros d Hd. injection Hd as <-. cbn. lia.
Defined.

End Service.
