(* ===== verification/Shell.v ===== *)
(** * test/shell.c: the command interpreter

    The program over the handlers of [FileCalls.v]: it writes a prompt to the
    console, reads a line character by character with [Read] into [buffer], and
    executes the line.  Its variables are in user memory, at the addresses that are
    arguments here.

    [Read] on the console stops at the newline and does not store it, so the loop
    that waits for a newline in the buffer does not see one.  The theorem says what
    the program does instead: no line is ever executed. *)

From S2P Require Import Prelude MachineSim ConsoleDev Syscalls UserStrings HostFiles FileCalls.
Import Machine Syscall FileCalls.

Local Open Scope Z_scope.

Module Shell.

(** userprog/syscall.h *)
Definition ConsoleInput : Z := 0.
Definition ConsoleOutput : Z := 1.

Section shell.
Context {H : Type} `{HH : Host H} (junk : Z) (prompt buffer : Z).
Implicit Types s : t H.

(** The arguments of a call in their registers. *)
Definition with_args s (a4 a5 a6 : Z) : t H :=
  let m := machine (base s) in
  with_machine s (set_registers m (<[6%nat := a6]> (<[5%nat := a5]> (<[4%nat := a4]> (registers m))))).

(** [do { Read(&buffer[i], 1, input); } while( buffer[i++] != '\n' );] the index
    of the newline, where [--i] leaves [i].  The call that is given the address
    past the end of [buffer] waits like the others; once it has its character it
    stores it there, and the test of the loop reads it there. *)
Fixpoint shell_line (fuel : nat) (i : Z) s : outcome (t H * Z) :=
  match fuel with
  | O => Fault OutOfFuel
  | S fuel' =>
      s ← ReadFunction junk (with_args s (s32 (buffer + i)) 1 ConsoleInput);
      _ ← (if i <? 60 then Ok tt else Fault BadAccess);
      '(m, c) ← user_load (machine (base s)) (s32 (buffer + i));
      let s := with_machine s m in
      if negb (c =? 10) then shell_line fuel' (i + 1) s else Ok (s, i)
  end.

Lemma shell_line_S k i s : shell_line (S k) i s =
  (s ← ReadFunction junk (with_args s (s32 (buffer + i)) 1 ConsoleInput);
   _ ← (if i <? 60 then Ok tt else Fault BadAccess);
   '(m, c) ← user_load (machine (base s)) (s32 (buffer + i));
   if negb (c =? 10) then shell_line k (i + 1) (with_machine s m) else Ok (with_machine s m, i)).
Proof. reflexivity. Qed.

(** One round of [while( 1 )] up to the call of [Exec], if there is one. *)
Definition shell_round s : outcome (t H * bool) :=
  s ← WriteFunction (with_args s prompt 2 ConsoleOutput);
  '(s, i) ← shell_line 61 0 s;
  m ← user_store (machine (base s)) (s32 (buffer + i)) 0;
  Ok (with_machine s m, i >? 0).
End shell.

(** ** The calls on the console *)

Section console.
Context {H : Type} `{HH : Host H} `{HL : !HostLaws H} (pt : list TranslationEntry) (n : Z).
Implicit Types tab : list (option HostFile.OpenFile).

Lemma next_typed_Forall (P : Z -> Prop) l ch rest :
  Forall P l -> SynchConsole.next_typed l = Some (ch, rest) -> P ch /\ Forall P rest.
Proof.
  induction 1 as [|x l Hx Hl IH]; [done|]. cbn [SynchConsole.next_typed]. destruct (x =? _); [exact IH|]. by intros [= -> ->].
Qed.

(** [Read] of one character: the handler up to the copy to the program. *)
Lemma ReadFunction_stdin junk m c h tab id f ino off va :
  Strings.uses pt n m -> own_frames pt pt True -> args m va 1 id -> 0 <= id <= 9 -> tab !! Z.to_nat id = Some (Some f) ->
  HostFile.type f = 2 -> HostFile.open_on h f ino off -> Strings.writable pt n (s32 va) ->
  SynchConsole.quiet c -> Forall (fun ch => s8 ch = ch) (SynchConsole.typed c) ->
  match SynchConsole.next_typed (SynchConsole.typed c) with
  | Some (ch, rest) => exists m' c' h', ReadFunction junk (St m c h tab) = Ok (St m' c' h' tab) /\
      Strings.uses pt n m' /\ has_regs m' /\ HostFile.open_on h' f ino off /\
      SynchConsole.quiet c' /\ SynchConsole.typed c' = rest /\
      (forall b, u32 b <> u32 va -> Strings.ubyte pt n m' b = Strings.ubyte pt n m b) /\
      Strings.ubyte pt n m' (s32 va) = if (ch =? 10) || (ch =? 1) then Strings.ubyte pt n m (s32 va) else Some ch
  | None => ReadFunction junk (St m c h tab) = Fault Blocked
  end.
Proof.
  intros Hu Hown (Hm & H4 & H5 & H6) Hid Hf Hty Hop Hw Hq Hch. pose proof (lookup_lt_Some _ _ _ Hf) as Htab.
  unfold ReadFunction. rewrite (reg_St _ _ _ _ 4 va), (reg_St _ _ _ _ 5 1), (reg_St _ _ _ _ 6 id) by done.
  cbn [mbind outcome_bind]. rewrite Z.gtb_ltb, (proj2 (Z.ltb_ge id 0)), (proj2 (Z.ltb_ge 9 id)) by lia. cbn [orb].
  rewrite (file_at_St _ _ _ _ id (Some f)) by (done || lia). cbn [mbind outcome_bind]. rewrite Hty. cbn [Z.eqb Pos.eqb].
  destruct (HostFile.GetCurrentPos_ok h f ino off Hop) as (h1 & E1 & M1 & _). cbn [host_of fileSystem St HostFile.host]. rewrite E1.
  change (with_host (St m c h tab) h1) with (St m c h1 tab).
  rewrite put_file_St by lia. cbn [mbind outcome_bind]. rewrite list_insert_id by done.
  destruct (Strings.copy_in_total pt n va 1 m 0 (replicate 2 0)) as (m1 & buf & E2 & Htc & Hlb); [done|done|cbn; lia| |].
  { intros j Hj. replace j with 0 by lia. rewrite Z.add_0_r. by apply Strings.writable_ubyte. }
  assert (EU : user2system (St m c h1 tab) va 1 = Ok (St m1 c h1 tab, buf)).
  { unfold user2system, User2System. change (1 + 1 <? 0) with false. cbn [base St machine].
    change (Z.to_nat 1) with 1%nat. change (replicate (Z.to_nat (1 + 1)) 0) with (replicate 2 0). by rewrite E2. }
  rewrite EU. cbn [length replicate] in Hlb. cbn [mbind outcome_bind]. rewrite Hty. cbn [Z.eqb Pos.eqb].
  change (gSynchConsole (base (St m1 c h1 tab))) with c.
  pose proof (SynchConsole.Read_ok junk c buf 1 Hq ltac:(lia)) as HR. change (Z.to_nat 1) with 1%nat in HR. cbn [SynchConsole.typed_line] in HR.
  destruct (SynchConsole.next_typed (SynchConsole.typed c)) as [[ch rest]|] eqn:Et; cbn [mbind option_bind] in HR; [|by rewrite HR].
  pose proof (open_on_moved _ _ _ _ _ Hop M1) as Hop1. destruct (next_typed_Forall _ _ _ _ Hch Et) as [Hc8 _].
  destruct Htc as (Hu1 & Hr1 & Hmem1). assert (Hm1 : has_regs m1) by (unfold has_regs; by rewrite Hr1).
  assert (Hub : forall b, Strings.ubyte pt n m1 b = Strings.ubyte pt n m b) by (intros b; unfold Strings.ubyte; by rewrite Hmem1).
  destruct ((ch =? 10) || (ch =? 1)) eqn:Ee.
  - destruct HR as (c' & -> & Hq' & Ht' & _). cbn [mbind outcome_bind]. unfold SynchConsole.line_answer.
    change (with_console (St m1 c h1 tab) c') with (St m1 c' h1 tab). change (Z.of_nat (length [])) with 0.
    set (v := if bool_decide (Some ch = Some 1) then -1 else 0). set (bf := [] ++ _ ++ _).
    assert (E3 : exists k, system2user (St m1 c' h1 tab) va v bf = Ok (St m1 c' h1 tab, k)).
    { unfold v. case_bool_decide; by eexists. }
    destruct E3 as [k ->]. cbn [mbind outcome_bind]. rewrite set_reg_St by done. eexists _, c', h1. split; [done|].
    split; [by apply uses_set_registers|]. split; [unfold has_regs; cbn; by rewrite length_insert|].
    do 3 (split; [done|]). split; [intros b _; apply Hub|apply Hub].
  - destruct HR as (c' & -> & Hq' & Ht' & _). cbn [mbind outcome_bind]. unfold SynchConsole.line_answer.
    rewrite bool_decide_false by done. cbn [length]. change (Z.of_nat 1) with 1.
    change (with_console (St m1 c h1 tab) c') with (St m1 c' h1 tab). unfold system2user. cbn [base St machine].
    destruct (Strings.System2User_ok pt n m1 va 1 ([ch] ++ replicate (1 - 1) 0 ++ drop 1 buf) [ch]) as (m2 & -> & Hu2 & Hr2 & Hs2 & Ho2); try done.
    + intros j Hj. replace j with 0 by lia. by rewrite Z.add_0_r.
    + intros [|j] x Hj; [|done]. injection Hj as <-. done.
    + intros j x Hj Hl. cbn in Hl. lia.
    + by left.
    + cbn [mbind outcome_bind]. change (with_machine (St m1 c' h1 tab) m2) with (St m2 c' h1 tab).
      assert (Hm2 : has_regs m2) by (unfold has_regs; by rewrite Hr2). rewrite set_reg_St by done.
      eexists _, c', h1. split; [done|]. split; [by apply uses_set_registers|]. split; [unfold has_regs; cbn; by rewrite length_insert|].
      split; [done|]. split; [done|]. split; [done|]. split.
      * intros b Hb. rewrite <- Hub. apply Ho2. intros [|j] Hj; [|cbn in Hj; lia]. by rewrite !Z.add_0_r, u32_s32.
      * specialize (Hs2 0%nat ch eq_refl). by rewrite !Z.add_0_r in Hs2.
Qed.


(** Characters that [Write] displays. *)
Definition shown_char (ch : Z) : Prop := Strings.is_char ch /\ ch <> 10.

Lemma put_line_ok cs : forall fuel c pre suf,
  SynchConsole.quiet c -> Forall shown_char cs -> (length cs < fuel)%nat ->
  exists c', put_line fuel c (pre ++ cs ++ 0 :: suf) (Z.of_nat (length pre)) = Ok (c', Z.of_nat (length pre + length cs)) /\
    SynchConsole.quiet c' /\ SynchConsole.typed c' = SynchConsole.typed c /\
    Console.output (SynchConsole.cons c') = Console.output (SynchConsole.cons c) ++ cs.
Proof.
  induction cs as [|x cs IH]; intros fuel c pre suf Hq Hcs Hf; (destruct fuel as [|fuel]; [cbn in Hf; lia|]); cbn [put_line app length].
  - rewrite (rd_lookup _ _ 0) by (lia || by rewrite Nat2Z.id; apply list_lookup_middle). cbn [mbind outcome_bind Z.eqb negb andb].
    exists c. rewrite Nat.add_0_r, app_nil_r. done.
  - apply Forall_cons_1 in Hcs as [[[_ Hx] Hx'] Hcs].
    rewrite (rd_lookup _ _ x) by (lia || by rewrite Nat2Z.id; apply list_lookup_middle). cbn [mbind outcome_bind].
    rewrite (proj2 (Z.eqb_neq x 0)), (proj2 (Z.eqb_neq x 10)) by done. cbn [negb andb].
    destruct (SynchConsole.Write_ok c [x] 1 Hq ltac:(cbn; lia)) as (c1 & -> & Hq1 & Ho1 & Ht1). cbn [mbind outcome_bind].
    destruct (IH fuel c1 (pre ++ [x]) suf Hq1 Hcs) as (c2 & E & Hq2 & Ht2 & Ho2); [cbn in Hf; lia|].
    rewrite length_app in E. cbn [length] in E. rewrite <- app_assoc in E. cbn [app] in E.
    replace (Z.of_nat (length pre + 1)) with (Z.of_nat (length pre) + 1) in E by lia. exists c2. split.
    + rewrite E. do 2 f_equal. lia.
    + split; [done|]. split; [congruence|]. rewrite Ho2, Ho1, <- app_assoc. done.
Qed.

(** [Write] to the console shows the characters and a newline. *)
Lemma WriteFunction_stdout m c h tab id f ino off va cs :
  Strings.uses pt n m -> args m va (Z.of_nat (length cs)) id -> 0 <= id <= 9 -> tab !! Z.to_nat id = Some (Some f) ->
  HostFile.type f = 3 -> HostFile.open_on h f ino off -> Forall shown_char cs -> chars_at pt n m va cs -> SynchConsole.quiet c ->
  exists m' c' h', WriteFunction (St m c h tab) = Ok (St m' c' h' tab) /\
    Strings.uses pt n m' /\ has_regs m' /\ mainMemory m' = mainMemory m /\ moved h h' (HostFile.file f) ino off /\
    SynchConsole.quiet c' /\ SynchConsole.typed c' = SynchConsole.typed c /\
    Console.output (SynchConsole.cons c') = Console.output (SynchConsole.cons c) ++ cs ++ [10].
Proof.
  intros Hu (Hm & H4 & H5 & H6) Hid Hf Hty Hop Hcs Hat Hq. pose proof (lookup_lt_Some _ _ _ Hf) as Htab.
  unfold WriteFunction. rewrite (reg_St _ _ _ _ 4 va), (reg_St _ _ _ _ 5 (Z.of_nat (length cs))), (reg_St _ _ _ _ 6 id) by done.
  cbn [mbind outcome_bind]. rewrite Z.gtb_ltb, (proj2 (Z.ltb_ge id 0)), (proj2 (Z.ltb_ge 9 id)) by lia. cbn [orb].
  rewrite (file_at_St _ _ _ _ id (Some f)) by (done || lia). cbn [mbind outcome_bind]. rewrite Hty. cbn [Z.eqb Pos.eqb orb].
  destruct (HostFile.GetCurrentPos_ok h f ino off Hop) as (h1 & E1 & M1 & _). cbn [host_of fileSystem St HostFile.host]. rewrite E1.
  change (with_host (St m c h tab) h1) with (St m c h1 tab).
  rewrite put_file_St by lia. cbn [mbind outcome_bind]. rewrite list_insert_id by done.
  assert (Hch : Forall Strings.is_char cs) by (revert Hcs; apply Forall_impl; by intros x [? _]).
  destruct (Strings.User2System_full pt n m va cs Hu Hch Hat) as (m1 & E2 & Hu1 & Hr1 & Hmem1).
  unfold user2system. cbn [base St machine]. rewrite E2. cbn [mbind outcome_bind].
  change (with_machine (St m c h1 tab) m1) with (St m1 c h1 tab). rewrite Hty. cbn [Z.eqb Pos.eqb].
  change (gSynchConsole (base (St m1 c h1 tab))) with c.
  destruct (put_line_ok cs (S (length (cs ++ [0]))) c [] [] Hq Hcs) as (c1 & E3 & Hq1 & Ht1 & Ho1); [rewrite length_app; cbn; lia|].
  cbn [app length Nat.add] in E3. change (Z.of_nat 0) with 0 in E3. rewrite E3. cbn [mbind outcome_bind].
  rewrite wr_ok by (rewrite length_app; cbn; lia). cbn [mbind outcome_bind].
  destruct (SynchConsole.Write_ok c1 [10] 1 Hq1 ltac:(cbn; lia)) as (c2 & -> & Hq2 & Ho2 & Ht2). cbn [mbind outcome_bind].
  change (with_console (St m1 c h1 tab) c2) with (St m1 c2 h1 tab).
  assert (Hm1 : has_regs m1) by (unfold has_regs; by rewrite Hr1). rewrite set_reg_St by done.
  eexists _, c2, h1. split; [done|]. split; [by apply uses_set_registers|]. split; [unfold has_regs; cbn; by rewrite length_insert|].
  split; [done|]. split; [done|]. split; [done|]. split; [congruence|]. rewrite Ho2, Ho1, <- app_assoc. done.
Qed.

Lemma moved_same h h' fd ino off fd' : h_fd h fd = Some (ino, off) -> moved h h' fd ino off -> h_fd h' fd' = h_fd h fd'.
Proof. intros Hf (Hm & Ho & _). destruct (decide (fd' = fd)) as [->|Hne]; [congruence|by apply Ho]. Qed.

(** ** The program *)

Context (junk prompt buffer : Z).

(** The state of the shell when [i] characters are in its buffer: no newline is in
    the rest of the buffer, and the buffer and the byte after it are in memory the
    program may write. *)
Record waiting (i : Z) (m : Machine.t) (c : SynchConsole.t) (h : H) tab (f : HostFile.OpenFile) (ino off : Z) : Prop := {
  w_uses : Strings.uses pt n m;
  w_regs : has_regs m;
  w_file : tab !! 0%nat = Some (Some f);
  w_type : HostFile.type f = 2;
  w_open : HostFile.open_on h f ino off;
  w_quiet : SynchConsole.quiet c;
  w_chars : Forall (fun ch => s8 ch = ch) (SynchConsole.typed c);
  w_room : forall j, 0 <= j <= 60 -> Strings.writable pt n (s32 (buffer + j));
  w_rest : forall j, i <= j < 60 -> Strings.ubyte pt n m (s32 (buffer + j)) <> Some 10 }.

(** The characters that are typed, but for those that [Read] skips. *)
Definition delivered (c : SynchConsole.t) : list Z := filter (fun ch => ch <> Console.EOF) (SynchConsole.typed c).

Lemma next_typed_filter l :
  match SynchConsole.next_typed l with
  | Some (ch, rest) => filter (fun ch => ch <> Console.EOF) l = ch :: filter (fun ch => ch <> Console.EOF) rest
  | None => filter (fun ch => ch <> Console.EOF) l = []
  end.
Proof.
  induction l as [|x l IH]; [done|]. cbn [SynchConsole.next_typed]. rewrite filter_cons.
  destruct (Z.eqb_spec x Console.EOF) as [->|Hx]; [by rewrite decide_False by (intros E; by apply E)|by rewrite decide_True].
Qed.

Lemma args_set m a4 a5 a6 : has_regs m ->
  args (set_registers m (<[6%nat := a6]> (<[5%nat := a5]> (<[4%nat := a4]> (registers m))))) a4 a5 a6.
Proof.
  unfold args, has_regs, NumTotalRegs. cbn [registers set_registers]. intros Hm. rewrite !length_insert.
  split; [exact Hm|]. split; [|split].
  - rewrite !list_lookup_insert_ne by done. apply list_lookup_insert_eq. lia.
  - rewrite list_lookup_insert_ne by done. apply list_lookup_insert_eq. rewrite length_insert. lia.
  - apply list_lookup_insert_eq. rewrite !length_insert. lia.
Qed.

(** The call of [Read] in the loop: it waits when nothing is left. *)
Lemma shell_Read f ino off tab i m c h : own_frames pt pt True ->
  waiting i m c h tab f ino off -> 0 <= i <= 60 ->
  match delivered c with
  | [] => ReadFunction junk (with_args (St m c h tab) (s32 (buffer + i)) 1 ConsoleInput) = Fault Blocked
  | ch :: rest => exists m' c' h',
      ReadFunction junk (with_args (St m c h tab) (s32 (buffer + i)) 1 ConsoleInput) = Ok (St m' c' h' tab) /\
      delivered c' = rest /\ waiting (i + 1) m' c' h' tab f ino off /\
      (i < 60 -> Strings.ubyte pt n m' (s32 (buffer + i)) <> Some 10)
  end.
Proof.
  intros Hown [Hu Hm Hf Hty Hop Hq Hch Hroom Hrest] Hi.
  set (va := s32 (buffer + i)). set (m0 := set_registers m (<[6%nat := ConsoleInput]> (<[5%nat := 1]> (<[4%nat := va]> (registers m))))).
  change (with_args (St m c h tab) va 1 ConsoleInput) with (St m0 c h tab).
  assert (Hva : s32 va = va) by (apply s32_small, s32_range).
  pose proof (args_set m va 1 ConsoleInput Hm) as Ha. fold m0 in Ha.
  pose proof (ReadFunction_stdin junk m0 c h tab 0 f ino off va (uses_set_registers pt n m _ Hu) Hown Ha ltac:(lia) Hf Hty Hop) as HR.
  rewrite Hva in HR. specialize (HR (Hroom i Hi) Hq Hch). pose proof (next_typed_filter (SynchConsole.typed c)) as Hd. unfold delivered.
  destruct (SynchConsole.next_typed (SynchConsole.typed c)) as [[ch rest]|] eqn:Et; rewrite Hd; [|done].
  destruct HR as (m' & c' & h' & -> & Hu' & Hm' & Hop' & Hq' & Ht' & Hb' & Hc').
  change (Strings.ubyte pt n m0) with (Strings.ubyte pt n m) in Hb', Hc'.
  exists m', c', h'. split; [done|]. split; [by rewrite Ht'|]. split.
  - destruct (next_typed_Forall _ _ _ _ Hch Et) as [_ Hrc]. split; try done; [by rewrite Ht'|].
    intros j Hj. rewrite Hb'; [apply Hrest; lia|]. unfold va. rewrite !u32_s32. unfold u32. intros E.
    assert (Hz : (buffer + j - (buffer + i)) mod 2 ^ 32 = 0) by (rewrite Zminus_mod, E, Z.sub_diag; done).
    replace (buffer + j - (buffer + i)) with (j - i) in Hz by lia. rewrite Z.mod_small in Hz; lia.
  - intros Hlt. rewrite Hc'. destruct ((ch =? 10) || (ch =? 1)) eqn:Ee; [apply Hrest; lia|].
    intros [= ->]. done.
Qed.

Lemma shell_line_fails f ino off tab : own_frames pt pt True -> forall k i m c h,
  waiting i m c h tab f ino off -> i + Z.of_nat k = 60 -> 0 <= i ->
  shell_line junk buffer (S k) i (St m c h tab) =
    Fault (if Z.of_nat (length (delivered c)) <=? Z.of_nat k then Blocked else BadAccess).
Proof.
  intros Hown. induction k as [|k IH]; intros i m c h Hw Hi H0; rewrite shell_line_S;
    pose proof (shell_Read f ino off tab i m c h Hown Hw ltac:(lia)) as HR;
    (destruct (delivered c) as [|ch rest]; [by rewrite HR|]);
    destruct HR as (m' & c' & h' & -> & <- & Hw' & H10); cbn [mbind outcome_bind length].
  { by rewrite (proj2 (Z.ltb_ge i 60)) by lia. }
  rewrite (proj2 (Z.ltb_lt i 60)) by lia. cbn [mbind outcome_bind base St machine].
  pose proof Hw' as [Hu Hm Hf Hty Hop Hq Hch Hroom Hrest].
  destruct (Strings.writable_ubyte pt n m' (s32 (buffer + i)) Hu (Hroom i ltac:(lia))) as [x Hx].
  assert (Hx10 : x <> 10) by (intros ->; by apply H10; [lia|]).
  destruct (Strings.user_load_ok pt n m' _ x Hu Hx) as (m2 & -> & Hu2 & Hr2 & Hmem2). cbn [mbind outcome_bind].
  rewrite (proj2 (Z.eqb_neq x 10)) by done. cbn [negb]. change (with_machine (St m' c' h' tab) m2) with (St m2 c' h' tab).
  rewrite IH; [f_equal; bool_cases; lia || done| |lia|lia]. split; try done.
  - unfold has_regs. by rewrite Hr2.
  - intros j Hj. unfold Strings.ubyte. rewrite Hmem2. by apply Hrest.
Qed.

(** C33: The shell of test/shell.c executes no command, whatever is typed: [Read] on
    the console never delivers the newline that ends the loop, so that the program,
    if its uninitialised buffer held no newline before, shows its prompt and then
    waits for more input as long as at most 60 characters (newlines included) are
    typed, and once a 61st is typed accesses its buffer past the end. *)
Theorem shell_runs_no_command m c h tab f ino off f1 ino1 off1 :
  waiting 0 m c h tab f ino off -> own_frames pt pt True ->
  tab !! 1%nat = Some (Some f1) -> HostFile.type f1 = 3 -> HostFile.open_on h f1 ino1 off1 ->
  chars_at pt n m prompt [45; 45] ->
  shell_round junk prompt buffer (St m c h tab) =
    Fault (if Z.of_nat (length (delivered c)) <=? 60 then Blocked else BadAccess).
Proof.
  intros [Hu Hm Hf Hty Hop Hq Hch Hroom Hrest] Hown Hf1 Hty1 Hop1 Hp. unfold shell_round.
  set (m0 := set_registers m (<[6%nat := ConsoleOutput]> (<[5%nat := 2]> (<[4%nat := prompt]> (registers m))))).
  change (with_args (St m c h tab) prompt 2 ConsoleOutput) with (St m0 c h tab).
  destruct (WriteFunction_stdout m0 c h tab 1 f1 ino1 off1 prompt [45; 45] (uses_set_registers pt n m _ Hu) (args_set m prompt 2 1 Hm)
    ltac:(lia) Hf1 Hty1 Hop1) as (m' & c' & h' & -> & Hu' & Hm' & Hmem' & Hmv & Hq' & Ht' & _).
  - repeat constructor; done.
  - exact Hp.
  - exact Hq.
  - cbn [mbind outcome_bind]. assert (Hw : waiting 0 m' c' h' tab f ino off).
    { split; try done.
      - destruct Hop as (Ho & Hoff). split; [|done]. rewrite (moved_same h h' (HostFile.file f1) ino1 off1); [done|apply Hop1|done].
      - by rewrite Ht'.
      - intros j Hj. unfold Strings.ubyte. rewrite Hmem'. by apply Hrest. }
    rewrite (shell_line_fails f ino off tab Hown 60 0 m' c' h' Hw) by lia. unfold delivered. by rewrite Ht'.
Qed.

End console.
(** ** A run

    The prompt at 200 and the buffer at 100, in a page that is in frame 5; the files of
    the console are open. *)

Definition demo_shell (m : Machine.t) : Machine.t :=
  set_registers (set_memory (with_table m demo_table 2) (splice (mainMemory m) 2660 (replicate 100 0 ++ [45; 45]))) (replicate 40 0).
Definition demo_unix : UnixModel.t := UnixModel.mk {[ [97] := 1; [98] := 2 ]} {[ 1 := []; 2 := [] ]} {[ 3 := (1, 0); 4 := (2, 0) ]}.
Definition demo_open : list (option HostFile.OpenFile) :=
  [Some (HostFile.mkFile 3 0 2); Some (HostFile.mkFile 4 0 3)] ++ replicate 13 None.

Lemma demo_addresses : (fun k => xlate demo_table 2 (s32 (100 + Z.of_nat k)) 1 true) <$> seq 0 102 = (fun k => inr (2660 + Z.of_nat k)) <$> seq 0 102.
Proof. vm_compute. reflexivity. Qed.

Lemma demo_address j : 0 <= j < 102 -> xlate demo_table 2 (s32 (100 + j)) 1 true = inr (2660 + j).
Proof.
  intros Hj. pose proof (f_equal (fun l => l !! Z.to_nat j) demo_addresses) as E. cbv beta in E. rewrite !list_lookup_fmap in E.
  rewrite lookup_seq_lt in E by lia. cbn [fmap option_fmap option_map Nat.add] in E. rewrite Z2Nat.id in E by lia. by injection E.
Qed.

Lemma demo_byte m j : mem_ok m -> 0 <= j < 102 ->
  Strings.ubyte demo_table 2 (demo_shell m) (s32 (100 + j)) = s8 <$> (replicate 100 0 ++ [45; 45]) !! Z.to_nat j.
Proof.
  intros Hmem Hj. pose proof Hmem as [Hl _]. unfold MemorySize, NumPhysPages, PageSize, SectorSize in Hl.
  destruct (Strings.xlate_in_memory demo_table 2 m _ true _ Hmem (demo_address j Hj)) as (_ & _ & E).
  unfold Strings.ubyte. rewrite E. f_equal. unfold demo_shell. cbn [mainMemory set_registers set_memory].
  rewrite lookup_splice_in by (rewrite ?length_app, ?length_replicate; cbn [length]; lia). f_equal. lia.
Qed.

Lemma demo_waiting m keys : mem_ok m -> Forall (fun ch => s8 ch = ch) keys ->
  waiting demo_table 2 100 0 (demo_shell m) (SynchConsole.SynchConsole_new keys) demo_unix demo_open (HostFile.mkFile 3 0 2) 1 0.
Proof.
  intros Hmem Hk. pose proof Hmem as [Hl Hb]. unfold MemorySize, NumPhysPages, PageSize, SectorSize in Hl. split; try done.
  - split; [|by exists demo_table]. unfold demo_shell, mem_ok. cbn [mainMemory set_registers set_memory].
    rewrite length_splice by (rewrite length_app, length_replicate; cbn [length]; lia). split; [rewrite Hl; done|].
    apply Forall_splice; [done|]. apply (bool_decide_unpack _). vm_compute. exact I.
  - intros j Hj. exists (2660 + j). apply demo_address. lia.
  - intros j Hj. rewrite demo_byte by (done || lia). rewrite lookup_app_l by (rewrite length_replicate; lia).
    rewrite lookup_replicate_2 by lia. done.
Qed.

Lemma shell_runs_no_command_witness : exists m, m = Machine_new 0 0 false /\
  shell_round 0 200 100 (St (demo_shell m) (SynchConsole.SynchConsole_new [108; 115; 10]) demo_unix demo_open) = Fault Blocked /\
  shell_round 0 200 100 (St (demo_shell m) (SynchConsole.SynchConsole_new (replicate 60 97)) demo_unix demo_open) = Fault Blocked /\
  shell_round 0 200 100 (St (demo_shell m) (SynchConsole.SynchConsole_new (replicate 61 97)) demo_unix demo_open) = Fault BadAccess.
Proof.
  destruct fresh_machine as [m E]. exists m. split; [exact E|]. assert (Hmem : mem_ok m) by (rewrite E; exact (proj2 (Machine_new_ok 0 0 false))).
  assert (Hp : chars_at demo_table 2 (demo_shell m) 200 [45; 45]).
  { intros j x Hj. replace (200 + Z.of_nat j) with (100 + (100 + Z.of_nat j)) by lia. pose proof (lookup_lt_Some _ _ _ Hj) as Hlt. cbn in Hlt.
    rewrite demo_byte by (done || lia). rewrite lookup_app_r by (rewrite length_replicate; lia). rewrite length_replicate.
    replace (Z.to_nat (100 + Z.of_nat j) - 100)%nat with j by lia. rewrite Hj. destruct j as [|[|j]]; [injection Hj as <-; done..|cbn in Hlt; lia]. }
  split; [|split].
  - refine (shell_runs_no_command demo_table 2 0 200 100 (demo_shell m) _ demo_unix demo_open (HostFile.mkFile 3 0 2) 1 0 (HostFile.mkFile 4 0 3) 2 0
      (demo_waiting m [108; 115; 10] Hmem _) demo_table_own eq_refl eq_refl _ Hp); [by repeat constructor|done].
  - refine (shell_runs_no_command demo_table 2 0 200 100 (demo_shell m) _ demo_unix demo_open (HostFile.mkFile 3 0 2) 1 0 (HostFile.mkFile 4 0 3) 2 0
      (demo_waiting m (replicate 60 97) Hmem _) demo_table_own eq_refl eq_refl _ Hp); [by repeat constructor|done].
  - refine (shell_runs_no_command demo_table 2 0 200 100 (demo_shell m) _ demo_unix demo_open (HostFile.mkFile 3 0 2) 1 0 (HostFile.mkFile 4 0 3) 2 0
      (demo_waiting m (replicate 61 97) Hmem _) demo_table_own eq_refl eq_refl _ Hp); [by repeat constructor|done].
Defined.

End Shell.
