(* ===== verification/WaterStation.v ===== *)
(** * test/MayRotNuoc.c, test/sinhvien.c, test/voinuoc.c: the water station

    Three user programs that pass the turn to each other with named semaphores
    and exchange data through files.  [MayRotNuoc] reads from input.txt how much
    water the students of every time point want and passes them on line by
    line; [sinhvien] passes each student on to [voinuoc], which sends him to the
    tap that has less to do; both write to output.txt.

    A program is a transition system whose states are its system calls, named
    after the program and the line of the call, with its variables; [code] gives
    the call and what the program does with the answer up to the next one.  The
    calls on files are those of [FileService.v], and a semaphore is its value:
    [Wait] can be performed when it is positive ([no_lost_wakeup] of [Threads.v]).
    Any of the processes that can go on may be the next one to do so. *)

From stdpp Require Import strings.
From S2P Require Import Prelude HostFiles KernelEntry FileService.

Local Open Scope Z_scope.

Module Station.

(** A literal of the programs. *)
Definition txt (s : string) : list Z := (fun c => Z.of_N (Ascii.N_of_ascii c)) <$> String.list_ascii_of_string s.
Arguments txt _%_string.

Definition input_txt : list Z := txt "input.txt".
Definition output_txt : list Z := txt "output.txt".
Definition sinhvien_txt : list Z := txt "sinhvien.txt".
Definition voinuoc_txt : list Z := txt "voinuoc.txt".

(** ** The calls *)

(** The names of the semaphores, which are those of the programs. *)
Inductive name := Main | Sinhvien | Voinuoc.
#[export] Instance name_eq_dec : EqDecision name.
Proof. solve_decision. Defined.

Inductive call :=
  | CreateSemaphore (s : name) (v : Z)
  | CreateFile (f : list Z)
  | Open (f : list Z) (type : Z)
  | Close (id : Z)
  | Read (id : Z)                   (* of one character *)
  | Write (bs : list Z) (id : Z)
  | Seek (p id : Z)
  | Signal (s : name)
  | Wait (s : name)
  | Exec (p : name)
  | PrintString (cs : list Z)
  | Halt.

(** What the processes share: the files, the semaphores that were created, the
    processes that were started and what is on the display. *)
Record world := mkWorld {
  files : Service.t;
  main_sem : option Z; sinhvien_sem : option Z; voinuoc_sem : option Z;
  sinhvien_on : bool; voinuoc_on : bool;
  display : list Z; halted : bool;
}.

Definition sem (w : world) (s : name) : option Z :=
  match s with Main => main_sem w | Sinhvien => sinhvien_sem w | Voinuoc => voinuoc_sem w end.
Definition set_sem (w : world) (s : name) (v : Z) : world :=
  let 'mkWorld f m sv vn a b d h := w in
  match s with
  | Main => mkWorld f (Some v) sv vn a b d h
  | Sinhvien => mkWorld f m (Some v) vn a b d h
  | Voinuoc => mkWorld f m sv (Some v) a b d h
  end.
Definition with_files (w : world) (f : Service.t) : world :=
  mkWorld f (main_sem w) (sinhvien_sem w) (voinuoc_sem w) (sinhvien_on w) (voinuoc_on w) (display w) (halted w).
Definition start (w : world) (p : name) : world :=
  let 'mkWorld f m sv vn a b d h := w in
  match p with Main => w | Sinhvien => mkWorld f m sv vn true b d h | Voinuoc => mkWorld f m sv vn a true d h end.
Definition on (w : world) (p : name) : bool :=
  match p with Main => true | Sinhvien => sinhvien_on w | Voinuoc => voinuoc_on w end.

Section programs.

(** What [Exec] of a program answers. *)
Context (exec : name -> Z).

(** The world after the call, its answer and the bytes it brings; a [Wait] that
    does not return is [None]. *)
Definition perform (w : world) (c : call) : option (world * Z * list Z) :=
  match c with
  | CreateSemaphore s v => match sem w s with Some _ => Some (w, -1, []) | None => Some (set_sem w s v, 0, []) end
  | CreateFile f => let '(sv, r) := Service.CreateFile (files w) f in Some (with_files w sv, r, [])
  | Open f type => let '(sv, r) := Service.Open (files w) f type in Some (with_files w sv, r, [])
  | Close id => let '(sv, r) := Service.Close (files w) id in Some (with_files w sv, r, [])
  | Read id => let '(sv, r, bs) := Service.Read (files w) id 1 in Some (with_files w sv, r, bs)
  | Write bs id => let '(sv, r) := Service.Write (files w) id bs in Some (with_files w sv, r, [])
  | Seek p id => let '(sv, r) := Service.Seek (files w) p id in Some (with_files w sv, r, [])
  | Signal s => match sem w s with Some v => Some (set_sem w s (v + 1), 0, []) | None => Some (w, -1, []) end
  | Wait s =>
      match sem w s with
      | Some v => if 0 <? v then Some (set_sem w s (v - 1), 0, []) else None
      | None => Some (w, -1, [])
      end
  | Exec p => Some ((if exec p =? -1 then w else start w p), exec p, [])
  | PrintString cs =>
      let 'mkWorld f m sv vn a b d h := w in Some (mkWorld f m sv vn a b (d ++ cs) h, 0, [])
  | Halt => let 'mkWorld f m sv vn a b d _ := w in Some (mkWorld f m sv vn a b d true, 0, [])
  end.

(** The next call of a program and what follows its answer; [None] when it has
    returned. *)
Definition next (S : Type) : Type := option (call * (Z -> list Z -> S)).

(** [&charRead] after a [Read]: the character, if one was read. *)
Definition read_char (old : Z) (bs : list Z) : Z := default old (head bs).

(** ** MayRotNuoc *)

Inductive main_line := M10 | M11 | M12 | M14 | M16 | M21 | M27 | M29 | M33 | M41 | M43 | M47 | M56 | M58 | M61 | M62 | M63 | M66 | M67 | M68 | M70.

Record main_state := mkMain { main_at : main_line; timePoints : Z; charRead : Z; si_input : Z; si_sinhvien : Z }.
Definition main_goto (s : main_state) (l : main_line) : main_state := mkMain l (timePoints s) (charRead s) (si_input s) (si_sinhvien s).

(** [while (timePoints--)] *)
Definition main_loop (s : main_state) : main_state :=
  mkMain (if negb (timePoints s =? 0) then M41 else M66) (s32 (timePoints s - 1)) (charRead s) (si_input s) (si_sinhvien s).

Definition code_main (s : main_state) : next main_state :=
  let goto := main_goto s in
  match main_at s with
  | M10 => Some (CreateSemaphore Main 0, fun r _ => goto (if r =? -1 then M70 else M11))
  | M11 => Some (CreateSemaphore Sinhvien 0, fun r _ => goto (if r =? -1 then M70 else M12))
  | M12 => Some (CreateSemaphore Voinuoc 0, fun r _ => goto (if r =? -1 then M70 else M14))
  | M14 => Some (CreateFile output_txt, fun r _ => goto (if r =? -1 then M70 else M16))
  | M16 => Some (Open input_txt 1, fun r _ => mkMain (if r =? -1 then M70 else M21) (timePoints s) (charRead s) r (si_sinhvien s))
  | M21 => Some (Read (si_input s), fun _ bs =>
      let c := read_char (charRead s) bs in
      let s := mkMain M21 (timePoints s) c (si_input s) (si_sinhvien s) in
      if c =? 10 then main_goto s M27
      else if (48 <=? c) && (c <=? 57) then mkMain M21 (s32 (timePoints s * 10 + (c - 48))) c (si_input s) (si_sinhvien s)
      else s)
  | M27 => Some (Exec Sinhvien, fun r _ => goto (if r =? -1 then M29 else M33))
  | M29 => Some (Close (si_input s), fun _ _ => goto M70)
  | M33 => Some (Exec Voinuoc, fun r _ => if r =? -1 then goto M29 else main_loop s)
  | M41 => Some (CreateFile sinhvien_txt, fun r _ => goto (if r =? -1 then M43 else M47))
  | M43 => Some (Close (si_input s), fun _ _ => goto M70)
  | M47 => Some (Open sinhvien_txt 0, fun r _ => mkMain (if r =? -1 then M43 else M56) (timePoints s) (charRead s) (si_input s) r)
  | M56 => Some (Read (si_input s), fun r bs =>
      let c := read_char (charRead s) bs in
      mkMain (if (r <? 1) || (c =? 10) then M61 else M58) (timePoints s) c (si_input s) (si_sinhvien s))
  | M58 => Some (Write [charRead s] (si_sinhvien s), fun _ _ => goto M56)
  | M61 => Some (Close (si_sinhvien s), fun _ _ => goto M62)
  | M62 => Some (Signal Sinhvien, fun _ _ => goto M63)
  | M63 => Some (Wait Main, fun _ _ => main_loop s)
  | M66 => Some (Close (si_input s), fun _ _ => goto M67)
  | M67 => Some (PrintString ([10] ++ txt "Successfully solved the problem." ++ [10] ++ txt "Check output.txt at ./code to see the result." ++ [10]),
                 fun _ _ => goto M68)
  | M68 => Some (Halt, fun _ _ => goto M70)
  | M70 => None
  end.

Definition main_start : main_state := mkMain M10 0 48 0 0.

(** ** sinhvien *)

Inductive sinhvien_line := S14 | S16 | S18 | S22 | S24 | S27 | S28 | S29 | S33 | S43 | S47 | S49 | S57 | S58 | S59 | S64 | S70 | S71 | S72 | S74 | S81 | S92 | S95.

Record sinhvien_state := mkSv {
  sv_at : sinhvien_line; sv_sinhvien : Z; sv_voinuoc : Z; sv_output : Z;
  getWater : bool; fileLen : Z; filePointer : Z; sv_char : Z;
}.
Definition sv_goto (s : sinhvien_state) (l : sinhvien_line) : sinhvien_state :=
  mkSv l (sv_sinhvien s) (sv_voinuoc s) (sv_output s) (getWater s) (fileLen s) (filePointer s) (sv_char s).

(** [while (filePointer < fileLen)], with [getWater = 0;] *)
Definition sv_loop (s : sinhvien_state) : sinhvien_state :=
  if filePointer s <? fileLen s
  then mkSv S43 (sv_sinhvien s) (sv_voinuoc s) (sv_output s) false (fileLen s) (filePointer s) (sv_char s)
  else sv_goto s S92.
(** [filePointer++;] *)
Definition sv_next (s : sinhvien_state) : sinhvien_state :=
  sv_loop (mkSv (sv_at s) (sv_sinhvien s) (sv_voinuoc s) (sv_output s) (getWater s) (fileLen s) (s32 (filePointer s + 1)) (sv_char s)).
(** [if (getWater == 1)] *)
Definition sv_turn (s : sinhvien_state) : sinhvien_state := if getWater s then sv_goto s S70 else sv_next s.
(** [if (filePointer == fileLen - 1)] *)
Definition sv_last (s : sinhvien_state) : sinhvien_state := if filePointer s =? s32 (fileLen s - 1) then sv_goto s S64 else sv_turn s.

(** S28 and S29 are all the places where the program gives up. *)
Definition code_sinhvien (s : sinhvien_state) : next sinhvien_state :=
  let goto := sv_goto s in
  match sv_at s with
  | S14 => Some (Wait Sinhvien, fun _ _ => goto S16)
  | S16 => Some (Open sinhvien_txt 1, fun r _ =>
      mkSv (if r =? -1 then S18 else S22) r (sv_voinuoc s) (sv_output s) (getWater s) (fileLen s) (filePointer s) (sv_char s))
  | S18 => Some (Signal Main, fun _ _ => goto S95)
  | S22 => Some (Seek (-1) (sv_sinhvien s), fun r _ =>
      mkSv S24 (sv_sinhvien s) (sv_voinuoc s) (sv_output s) (getWater s) r (filePointer s) (sv_char s))
  | S24 => Some (Seek 0 (sv_sinhvien s), fun _ _ =>
      mkSv S27 (sv_sinhvien s) (sv_voinuoc s) (sv_output s) (getWater s) (fileLen s) 0 (sv_char s))
  | S27 => Some (CreateFile voinuoc_txt, fun r _ => goto (if r =? -1 then S28 else S33))
  | S28 => Some (Close (sv_sinhvien s), fun _ _ => goto S29)
  | S29 => Some (Signal Main, fun _ _ => goto S95)
  | S33 => Some (Open voinuoc_txt 0, fun r _ =>
      let s := mkSv S33 (sv_sinhvien s) r (sv_output s) (getWater s) (fileLen s) (filePointer s) (sv_char s) in
      if r =? -1 then sv_goto s S28 else sv_loop s)
  | S43 => Some (Read (sv_sinhvien s), fun _ bs =>
      let c := read_char (sv_char s) bs in
      let s' water l := mkSv l (sv_sinhvien s) (sv_voinuoc s) (sv_output s) water (fileLen s) (filePointer s) c in
      if negb (c =? 32) then s' false S47 else sv_last (s' true S43))
  | S47 => Some (Write [sv_char s] (sv_voinuoc s), fun _ _ => goto S49)
  | S49 => Some (Open output_txt 0, fun r _ =>
      mkSv (if r =? -1 then S28 else S57) (sv_sinhvien s) (sv_voinuoc s) r (getWater s) (fileLen s) (filePointer s) (sv_char s))
  | S57 => Some (Seek (-1) (sv_output s), fun _ _ => goto S58)
  | S58 => Some (Write [sv_char s] (sv_output s), fun _ _ => goto S59)
  | S59 => Some (Close (sv_output s), fun _ _ => sv_last s)
  | S64 => Some (Write (txt "*") (sv_voinuoc s), fun _ _ =>
      sv_turn (mkSv S64 (sv_sinhvien s) (sv_voinuoc s) (sv_output s) true (fileLen s) (filePointer s) (sv_char s)))
  | S70 => Some (Close (sv_voinuoc s), fun _ _ => goto S71)
  | S71 => Some (Signal Voinuoc, fun _ _ => goto S72)
  | S72 => Some (Wait Sinhvien, fun _ _ => goto S74)
  | S74 => Some (CreateFile voinuoc_txt, fun r _ => goto (if r =? -1 then S28 else S81))
  | S81 => Some (Open voinuoc_txt 0, fun r _ =>
      let s := mkSv S81 (sv_sinhvien s) r (sv_output s) (getWater s) (fileLen s) (filePointer s) (sv_char s) in
      if r =? -1 then sv_goto s S28 else sv_next s)
  | S92 => Some (Signal Main, fun _ _ => mkSv S14 (sv_sinhvien s) (sv_voinuoc s) (sv_output s) (getWater s) 0 (filePointer s) (sv_char s))
  | S95 => None
  end.

Definition sinhvien_start : sinhvien_state := mkSv S14 0 0 0 false 0 0 48.

(** ** voinuoc *)

Inductive voinuoc_line := V13 | V15 | V17 | V25 | V26 | V34 | V41 | V43 | V48 | V53 | V56 | V62 | V64 | V65 | V67 | V69 | V74.

Record voinuoc_state := mkVn {
  vn_at : voinuoc_line; vn_voinuoc : Z; vn_output : Z;
  tap1 : Z; tap2 : Z; tapTime : Z; problemSolved : bool; vn_char : Z;
}.
Definition vn_goto (s : voinuoc_state) (l : voinuoc_line) : voinuoc_state :=
  mkVn l (vn_voinuoc s) (vn_output s) (tap1 s) (tap2 s) (tapTime s) (problemSolved s) (vn_char s).

(** [if (problemSolved == 1) { tap1 = tap2 = 0; ... } else ...] *)
Definition vn_end (s : voinuoc_state) : voinuoc_state :=
  if problemSolved s then mkVn V62 (vn_voinuoc s) (vn_output s) 0 0 (tapTime s) true (vn_char s) else vn_goto s V67.
(** [if (tapTime != 0) ...] *)
Definition vn_tap (s : voinuoc_state) : voinuoc_state :=
  if negb (tapTime s =? 0) then
    if tap1 s <=? tap2 s
    then mkVn V53 (vn_voinuoc s) (vn_output s) (s32 (tap1 s + tapTime s)) (tap2 s) (tapTime s) (problemSolved s) (vn_char s)
    else mkVn V56 (vn_voinuoc s) (vn_output s) (tap1 s) (s32 (tap2 s + tapTime s)) (tapTime s) (problemSolved s) (vn_char s)
  else vn_end s.

Definition code_voinuoc (s : voinuoc_state) : next voinuoc_state :=
  let goto := vn_goto s in
  match vn_at s with
  | V13 => Some (Wait Voinuoc, fun _ _ => mkVn V15 (vn_voinuoc s) (vn_output s) (tap1 s) (tap2 s) (tapTime s) (problemSolved s) 0)
  | V15 => Some (Open voinuoc_txt 1, fun r _ =>
      if r =? -1 then mkVn V17 r (vn_output s) (tap1 s) (tap2 s) (tapTime s) (problemSolved s) (vn_char s)
      else mkVn V25 r (vn_output s) (tap1 s) (tap2 s) 0 false (vn_char s))
  | V17 => Some (Signal Sinhvien, fun _ _ => goto V74)
  | V25 => Some (Read (vn_voinuoc s), fun r bs =>
      let c := read_char (vn_char s) bs in
      let s' l time solved := mkVn l (vn_voinuoc s) (vn_output s) (tap1 s) (tap2 s) time solved c in
      if r =? -2 then s' V26 (tapTime s) (problemSolved s)
      else if c =? 42 then s' V34 (tapTime s) true
      else s' V25 (s32 (tapTime s * 10 + (c - 48))) (problemSolved s))
  | V26 | V34 => Some (Close (vn_voinuoc s), fun _ _ => goto V41)
  | V41 => Some (Open output_txt 0, fun r _ =>
      mkVn (if r =? -1 then V43 else V48) (vn_voinuoc s) r (tap1 s) (tap2 s) (tapTime s) (problemSolved s) (vn_char s))
  | V43 => Some (Close (vn_voinuoc s), fun _ _ => goto V17)
  | V48 => Some (Seek (-1) (vn_output s), fun _ _ => vn_tap s)
  | V53 => Some (Write (txt " 1") (vn_output s), fun _ _ => vn_end s)
  | V56 => Some (Write (txt " 2") (vn_output s), fun _ _ => vn_end s)
  | V62 => Some (Write [13; 10] (vn_output s), fun _ _ => goto V64)
  | V64 => Some (Close (vn_output s), fun _ _ => goto V65)
  | V65 => Some (Signal Sinhvien, fun _ _ => goto V13)
  | V67 => Some (Write (txt "   ") (vn_output s), fun _ _ => goto V69)
  | V69 => Some (Close (vn_output s), fun _ _ => goto V65)
  | V74 => None
  end.

Definition voinuoc_start : voinuoc_state := mkVn V13 0 0 0 0 0 false 48.

(** ** The three processes *)

Record system := mkSys { shared : world; main : main_state; sinhvien : sinhvien_state; voinuoc : voinuoc_state }.

(** The call of a process and its next state. *)
Definition perform_next {S} (w : world) (x : next S) : option (world * S) :=
  match x with
  | Some (c, k) => match perform w c with Some (w, r, bs) => Some (w, k r bs) | None => None end
  | None => None
  end.

Definition step_of (p : name) (s : system) : option system :=
  let w := shared s in
  if halted w || negb (on w p) then None
  else match p with
  | Main => '(w, x) ← perform_next w (code_main (main s)); Some (mkSys w x (sinhvien s) (voinuoc s))
  | Sinhvien => '(w, x) ← perform_next w (code_sinhvien (sinhvien s)); Some (mkSys w (main s) x (voinuoc s))
  | Voinuoc => '(w, x) ← perform_next w (code_voinuoc (voinuoc s)); Some (mkSys w (main s) (sinhvien s) x)
  end.

(** Any process makes the next step. *)
Definition step (s s' : system) : Prop := exists p, step_of p s = Some s'.

(** The programs started on a file system. *)
Definition initial (f : Service.t) : system :=
  mkSys (mkWorld f None None None false false [] false) main_start sinhvien_start voinuoc_start.

(** An execution: the first process that can go on does. *)
Definition step_first (s : system) : option system :=
  match step_of Main s with
  | Some s => Some s
  | None => match step_of Sinhvien s with Some s => Some s | None => step_of Voinuoc s end
  end.
Fixpoint run (n : nat) (s : system) : system :=
  match n with
  | O => s
  | S n => match step_first s with Some s => run n s | None => s end
  end.

(** ** The turn *)

(** A process that has returned or waits for a semaphore that exists. *)
Definition idle {S} (w : world) (x : next S) : bool :=
  match x with
  | None => true
  | Some (Wait n, _) => bool_decide (is_Some (sem w n))
  | _ => false
  end.

Definition busy {S} (w : world) (p : name) (x : next S) : Z := if on w p && negb (idle w x) then 1 else 0.
Definition value (w : world) (n : name) : Z := default 0 (sem w n).

(** What process [p] has of the turn. *)
Definition share (p : name) (s : system) : Z :=
  value (shared s) p +
  match p with
  | Main => busy (shared s) Main (code_main (main s))
  | Sinhvien => busy (shared s) Sinhvien (code_sinhvien (sinhvien s))
  | Voinuoc => busy (shared s) Voinuoc (code_voinuoc (voinuoc s))
  end.

Definition made (w : world) : Prop := forall n, is_Some (sem w n).

(** The semaphores that exist when the main program is at [l]. *)
Definition made_at (w : world) (l : main_line) : Prop :=
  match l with
  | M10 | M70 => True
  | M11 => is_Some (main_sem w)
  | M12 => is_Some (main_sem w) /\ is_Some (sinhvien_sem w)
  | _ => made w
  end.

(** At most one process has the turn: it is busy, or its semaphore has been
    signalled. *)
Record turn (s : system) : Prop := {
  turn_values n : 0 <= value (shared s) n;
  turn_one : share Main s + share Sinhvien s + share Voinuoc s <= 1;
  turn_made : made_at (shared s) (main_at (main s));
  turn_on p : p <> Main -> on (shared s) p = true -> made (shared s);
  turn_off : (sinhvien_on (shared s) = false -> sv_at (sinhvien s) = S14) /\ (voinuoc_on (shared s) = false -> vn_at (voinuoc s) = V13);
}.

Lemma busy_range {S} w p (x : next S) : 0 <= busy w p x <= 1.
Proof. unfold busy. destruct (_ && _); lia. Qed.

Lemma share_nonneg p s : turn s -> 0 <= share p s.
Proof.
  intros Ht. unfold share. pose proof (turn_values s Ht p).
  destruct p; [pose proof (busy_range (shared s) Main (code_main (main s)))|pose proof (busy_range (shared s) Sinhvien (code_sinhvien (sinhvien s)))
    |pose proof (busy_range (shared s) Voinuoc (code_voinuoc (voinuoc s)))]; lia.
Qed.

(** A process waits for its own semaphore. *)
Lemma wait_main s n k : code_main s = Some (Wait n, k) -> n = Main.
Proof. unfold code_main. destruct (main_at s); congruence. Qed.
Lemma wait_sinhvien s n k : code_sinhvien s = Some (Wait n, k) -> n = Sinhvien.
Proof. unfold code_sinhvien. destruct (sv_at s); congruence. Qed.
Lemma wait_voinuoc s n k : code_voinuoc s = Some (Wait n, k) -> n = Voinuoc.
Proof. unfold code_voinuoc. destruct (vn_at s); congruence. Qed.

(** A process that can go on has the turn. *)
Lemma perform_busy {S} w p (x : next S) y : (forall n k, x = Some (Wait n, k) -> n = p) -> (forall n, 0 <= value w n) -> on w p = true ->
  perform_next w x = Some y -> 1 <= value w p + busy w p x.
Proof.
  intros Hw Hv Hon Hp. specialize (Hv p). unfold busy. rewrite Hon. cbn [andb]. destruct x as [[c k]|]; [|done]. cbn [perform_next] in Hp.
  destruct (idle w (Some (c, k))) eqn:Ei; cbn [negb]; [|lia]. destruct c; try done. cbn [idle] in Ei. apply bool_decide_eq_true in Ei as [v Ev].
  assert (s = p) as -> by (by apply (Hw s k)). unfold value in *. rewrite Ev. cbn [default from_option perform] in *. rewrite Ev in Hp.
  destruct (Z.ltb_spec 0 v); [cbn; lia|done].
Qed.

Lemma step_share p s s' : turn s -> step_of p s = Some s' -> 1 <= share p s.
Proof.
  intros Ht Hs. unfold step_of in Hs. destruct (halted (shared s) || negb (on (shared s) p)) eqn:Eh; [done|].
  apply orb_false_iff in Eh as [_ Eon%negb_false_iff]. unfold share. pose proof (turn_values s Ht) as Hv.
  destruct p; (destruct (perform_next _ _) eqn:Ep in Hs; [|done]);
    [eapply (perform_busy _ Main)|eapply (perform_busy _ Sinhvien)|eapply (perform_busy _ Voinuoc)]; eauto using wait_main, wait_sinhvien, wait_voinuoc.
Qed.

(** So the next step of the system is determined. *)
Lemma step_process s p q s1 s2 : turn s -> step_of p s = Some s1 -> step_of q s = Some s2 -> p = q.
Proof.
  intros Ht H1 H2.
  pose proof (step_share p s s1 Ht H1) as Hp. pose proof (step_share q s s2 Ht H2) as Hq. pose proof (turn_one s Ht).
  pose proof (share_nonneg Main s Ht). pose proof (share_nonneg Sinhvien s Ht). pose proof (share_nonneg Voinuoc s Ht).
  destruct p, q; done || lia.
Qed.
Lemma step_unique s s1 s2 : turn s -> step s s1 -> step s s2 -> s1 = s2.
Proof. intros Ht [p H1] [q H2]. rewrite (step_process s p q s1 s2 Ht H1 H2) in H1. congruence. Qed.

(** What a call does to the semaphores. *)
Lemma sem_set w n v n' : sem (set_sem w n v) n' = if decide (n' = n) then Some v else sem w n'.
Proof. by destruct w, n, n'. Qed.
Lemma on_set w n v p : on (set_sem w n v) p = on w p.
Proof. by destruct w, n, p. Qed.
Lemma sem_start w p n : sem (start w p) n = sem w n.
Proof. by destruct w, p, n. Qed.

Lemma perform_effect w c w' r bs : perform w c = Some (w', r, bs) ->
  match c with
  | CreateSemaphore n v => (sem w n = None /\ w' = set_sem w n v) \/ w' = w
  | Signal n => (exists v, sem w n = Some v /\ w' = set_sem w n (v + 1)) \/ (sem w n = None /\ w' = w)
  | Wait n => (exists v, sem w n = Some v /\ 0 < v /\ w' = set_sem w n (v - 1)) \/ (sem w n = None /\ w' = w)
  | Exec p => w' = start w p \/ w' = w
  | _ => (forall n, sem w' n = sem w n) /\ (forall p, on w' p = on w p)
  end.
Proof.
  destruct c; cbn [perform]; try (destruct (Service.CreateFile _ _) || destruct (Service.Open _ _ _) || destruct (Service.Close _ _)
    || destruct (Service.Read _ _ _) as [[? ?] ?] || destruct (Service.Write _ _ _) || destruct (Service.Seek _ _ _));
    try (intros [= <- _ _]; by split; intros []).
  - destruct (sem w s) eqn:E; intros [= <- _ _]; [by right|by left].
  - destruct (sem w s) eqn:E; intros [= <- _ _]; [left; eauto|by right].
  - destruct (sem w s) as [v|] eqn:E; [|intros [= <- _ _]; by right]. destruct (Z.ltb_spec 0 v); [|done]. intros [= <- _ _]. left. eauto.
  - destruct (_ =? _); intros [= <- _ _]; [by right|by left].
  - destruct w. intros [= <- _ _]. by split; intros [].
  - destruct w. intros [= <- _ _]. by split; intros [].
Qed.

(** Semaphores stay, and only [Exec] starts a process. *)
Lemma perform_keeps w c w' r bs : perform w c = Some (w', r, bs) -> forall n, is_Some (sem w n) -> is_Some (sem w' n).
Proof.
  intros Hp n Hn. apply perform_effect in Hp. destruct c; try (destruct Hp as [-> _]; done).
  all: try (destruct Hp as [[_ ->] | ->] || destruct Hp as [(v & _ & ->)|[_ ->]] || destruct Hp as [(v & _ & _ & ->)|[_ ->]]); try done.
  1-3: rewrite sem_set; by destruct (decide _).
  destruct Hp as [-> | ->]; [by rewrite sem_start|done].
Qed.

Lemma perform_on w c w' r bs p : perform w c = Some (w', r, bs) -> (forall q, c <> Exec q) -> on w' p = on w p.
Proof.
  intros Hp Hc. apply perform_effect in Hp. destruct c; try (by destruct Hp as [_ ->]).
  all: try (destruct Hp as [[_ ->] | ->] || destruct Hp as [(v & _ & ->)|[_ ->]] || destruct Hp as [(v & _ & _ & ->)|[_ ->]]); rewrite ?on_set; try done.
  by destruct (Hc p0).
Qed.

Lemma busy_mono {S} w w' p (x : next S) : (forall n, is_Some (sem w n) -> is_Some (sem w' n)) -> on w' p = on w p -> busy w' p x <= busy w p x.
Proof.
  intros Hk Ho. unfold busy. rewrite Ho. destruct (on w p); cbn [andb]; [|lia]. assert (Hi : idle w x = true -> idle w' x = true).
  { destruct x as [[c k]|]; [|done]. destruct c; try done. cbn [idle]. rewrite !bool_decide_eq_true. auto. }
  destruct (idle w x); [rewrite Hi by done; done|]. cbn. destruct (idle w' x); cbn; lia.
Qed.

Lemma value_Some w n v : sem w n = Some v -> value w n = v.
Proof. unfold value. by intros ->. Qed.
Lemma value_None w n : sem w n = None -> value w n = 0.
Proof. unfold value. by intros ->. Qed.

Definition sum (w : world) : Z := value w Main + value w Sinhvien + value w Voinuoc.

Lemma value_set w n v n' : value (set_sem w n v) n' = if decide (n' = n) then v else value w n'.
Proof. unfold value. rewrite sem_set. by destruct (decide _). Qed.

Lemma sum_set w n v : sum (set_sem w n v) = sum w + v - value w n.
Proof. destruct w, n; unfold sum, value; cbn; lia. Qed.

(** A process does not get more of the turn by a call: it gives its turn away
    with [Signal] and goes on after [Wait] with the turn it has got. *)
Lemma perform_sum {S} w p c (k : Z -> list Z -> S) w' r bs (y : next S) : perform w c = Some (w', r, bs) -> on w p = true ->
  (forall n v, c = CreateSemaphore n v -> v = 0) -> (forall n, c = Signal n -> is_Some (sem w n) -> idle w' y = true) ->
  sum w' + busy w' p y <= sum w + busy w p (Some (c, k)).
Proof.
  intros Hp Hon Hz Hs. pose proof (busy_range w' p y). apply perform_effect in Hp.
  assert (Hb : idle w (Some (c, k)) = false -> busy w p (Some (c, k)) = 1) by (intros E; unfold busy; by rewrite Hon, E).
  assert (Hsame : (forall n, sem w' n = sem w n) -> sum w' = sum w) by (intros E; unfold sum, value; by rewrite !E).
  destruct c; try (destruct Hp as [Hp _]; rewrite Hsame, Hb by done; lia).
  - rewrite Hb by done. destruct Hp as [[E ->] | ->]; [|lia]. pose proof (Hz s v eq_refl). rewrite sum_set, (value_None _ _ E). lia.
  - rewrite Hb by done. destruct Hp as [(v & E & ->)|[_ ->]]; [|lia]. rewrite sum_set, (value_Some _ _ _ E).
    unfold busy. rewrite (Hs s eq_refl) by (by exists v). cbn [negb]. rewrite andb_false_r. lia.
  - destruct Hp as [(v & E & _ & ->)|[E ->]].
    + rewrite sum_set, (value_Some _ _ _ E). pose proof (busy_range w p (Some (Wait s, k))). lia.
    + rewrite Hb; [lia|]. cbn [idle]. by rewrite E.
  - rewrite Hb by done. destruct Hp as [-> | ->]; [|lia]. rewrite Hsame by (intros; apply sem_start). lia.
Qed.

Lemma perform_values w c w' r bs : perform w c = Some (w', r, bs) -> (forall n v, c = CreateSemaphore n v -> v = 0) ->
  (forall n, 0 <= value w n) -> forall n, 0 <= value w' n.
Proof.
  intros Hp Hz Hv n. apply perform_effect in Hp. destruct c; try (destruct Hp as [Hp _]; unfold value; rewrite Hp; apply Hv).
  - destruct Hp as [[E ->] | ->]; [|done]. rewrite value_set, (Hz s v eq_refl). destruct (decide _); [lia|done].
  - destruct Hp as [(v & E & ->)|[_ ->]]; [|done]. rewrite value_set. specialize (Hv s) as H1. rewrite (value_Some _ _ _ E) in H1. destruct (decide _); [lia|done].
  - destruct Hp as [(v & E & ? & ->)|[_ ->]]; [|done]. rewrite value_set. destruct (decide _); [lia|done].
  - destruct Hp as [-> | ->]; [|done]. unfold value. rewrite sem_start. apply Hv.
Qed.

(** After [Signal] the programs wait or return. *)
Lemma signal_main s n k r bs w : code_main s = Some (Signal n, k) -> made w -> idle w (code_main (k r bs)) = true.
Proof. unfold code_main at 1. destruct (main_at s); try done. intros [= _ <-] Hm. by apply bool_decide_eq_true, (Hm Main). Qed.
Lemma signal_sinhvien s n k r bs w : code_sinhvien s = Some (Signal n, k) -> made w -> idle w (code_sinhvien (k r bs)) = true.
Proof. unfold code_sinhvien at 1. destruct (sv_at s); try done; intros [= _ <-] Hm; try done; by apply bool_decide_eq_true, (Hm Sinhvien). Qed.
Lemma signal_voinuoc s n k r bs w : code_voinuoc s = Some (Signal n, k) -> made w -> idle w (code_voinuoc (k r bs)) = true.
Proof. unfold code_voinuoc at 1. destruct (vn_at s); try done; intros [= _ <-] Hm; try done; by apply bool_decide_eq_true, (Hm Voinuoc). Qed.

Lemma share_sum s : share Main s + share Sinhvien s + share Voinuoc s =
  sum (shared s) + busy (shared s) Main (code_main (main s)) + busy (shared s) Sinhvien (code_sinhvien (sinhvien s)) + busy (shared s) Voinuoc (code_voinuoc (voinuoc s)).
Proof. unfold share, sum. lia. Qed.

Lemma made_at_any w l : made w -> made_at w l.
Proof. intros Hm. destruct l; try done; [apply (Hm Main)|split; [apply (Hm Main)|apply (Hm Sinhvien)]]. Qed.

Lemma turn_sinhvien w m v x c k w' r bs : turn (mkSys w m x v) -> on w Sinhvien = true -> code_sinhvien x = Some (c, k) -> perform w c = Some (w', r, bs) ->
  turn (mkSys w' m (k r bs) v).
Proof.
  intros [Hv H1 Hm Ho Hf] Hon Hc Hp. cbn [shared main sinhvien voinuoc] in *. pose proof (perform_keeps _ _ _ _ _ Hp) as Hk.
  assert (Hex : forall q, c <> Exec q) by (intros q ->; unfold code_sinhvien in Hc; by destruct (sv_at x)).
  assert (Hcr : forall n v, c = CreateSemaphore n v -> v = 0) by (intros n u ->; unfold code_sinhvien in Hc; by destruct (sv_at x)).
  pose proof (Ho Sinhvien ltac:(done) Hon) as Hmade. assert (Hmade' : made w') by (intros n; auto).
  assert (Hon' : forall p, on w' p = on w p) by (intros p; by apply (perform_on _ _ _ _ _ p Hp)).
  split; cbn [shared main sinhvien voinuoc].
  - by apply (perform_values _ _ _ _ _ Hp).
  - rewrite share_sum in *. cbn [shared main sinhvien voinuoc] in *. rewrite Hc in H1.
    pose proof (perform_sum w Sinhvien c k w' r bs (code_sinhvien (k r bs)) Hp Hon Hcr) as Hsum. specialize (Hsum ltac:(intros n -> _; by apply (signal_sinhvien _ _ _ _ _ _ Hc))).
    pose proof (busy_mono w w' Main (code_main m) Hk (Hon' _)). pose proof (busy_mono w w' Voinuoc (code_voinuoc v) Hk (Hon' _)). lia.
  - by apply made_at_any.
  - intros p Hne Hp'. done.
  - split; [intros E; specialize (Hon' Sinhvien); cbn in Hon', Hon; congruence|]. intros E. apply Hf. specialize (Hon' Voinuoc). cbn in Hon'. congruence.
Qed.

Lemma turn_voinuoc w m v x c k w' r bs : turn (mkSys w m v x) -> on w Voinuoc = true -> code_voinuoc x = Some (c, k) -> perform w c = Some (w', r, bs) ->
  turn (mkSys w' m v (k r bs)).
Proof.
  intros [Hv H1 Hm Ho Hf] Hon Hc Hp. cbn [shared main sinhvien voinuoc] in *. pose proof (perform_keeps _ _ _ _ _ Hp) as Hk.
  assert (Hex : forall q, c <> Exec q) by (intros q ->; unfold code_voinuoc in Hc; by destruct (vn_at x)).
  assert (Hcr : forall n v, c = CreateSemaphore n v -> v = 0) by (intros n u ->; unfold code_voinuoc in Hc; by destruct (vn_at x)).
  pose proof (Ho Voinuoc ltac:(done) Hon) as Hmade. assert (Hmade' : made w') by (intros n; auto).
  assert (Hon' : forall p, on w' p = on w p) by (intros p; by apply (perform_on _ _ _ _ _ p Hp)).
  split; cbn [shared main sinhvien voinuoc].
  - by apply (perform_values _ _ _ _ _ Hp).
  - rewrite share_sum in *. cbn [shared main sinhvien voinuoc] in *. rewrite Hc in H1.
    pose proof (perform_sum w Voinuoc c k w' r bs (code_voinuoc (k r bs)) Hp Hon Hcr) as Hsum. specialize (Hsum ltac:(intros n -> _; by apply (signal_voinuoc _ _ _ _ _ _ Hc))).
    pose proof (busy_mono w w' Main (code_main m) Hk (Hon' _)). pose proof (busy_mono w w' Sinhvien (code_sinhvien v) Hk (Hon' _)). lia.
  - by apply made_at_any.
  - intros p Hne Hp'. done.
  - split; [|intros E; specialize (Hon' Voinuoc); cbn in Hon', Hon; congruence]. intros E. apply Hf. specialize (Hon' Sinhvien). cbn in Hon'. congruence.
Qed.

(** A process that is started finds its semaphore. *)
Lemma on_start w p q : on (start w p) q = on w q || bool_decide (q = p).
Proof. destruct w, p, q; cbn; rewrite ?orb_true_r, ?orb_false_r; done. Qed.

Lemma idle_start {S} w p (x : next S) : idle (start w p) x = idle w x.
Proof. destruct x as [[c k]|]; [|done]. destruct c; try done. cbn [idle]. by rewrite sem_start. Qed.

Lemma busy_start {S} w p q (x : next S) : (on w q = false -> idle w x = true) -> busy (start w p) q x <= busy w q x.
Proof.
  intros Hi. unfold busy. rewrite on_start, idle_start. destruct (on w q); [done|]. rewrite Hi by done. cbn. by rewrite andb_false_r.
Qed.

Lemma perform_on_keeps w c w' r bs p : perform w c = Some (w', r, bs) -> on w p = true -> on w' p = true.
Proof.
  intros Hp Ho. destruct c; try (by rewrite (perform_on _ _ _ _ _ p Hp)). apply perform_effect in Hp as [-> | ->]; [|done]. by rewrite on_start, Ho.
Qed.

Lemma made_main w x c k w' r bs : made_at w (main_at x) -> code_main x = Some (c, k) -> perform w c = Some (w', r, bs) -> made_at w' (main_at (k r bs)).
Proof.
  intros Hm Hc Hp. pose proof (perform_keeps _ _ _ _ _ Hp) as Hk. unfold code_main in Hc.
  destruct (main_at x) eqn:El; cbn [made_at] in Hm; [| | |apply made_at_any; intros n; apply Hk, Hm..|done].
  all: injection Hc as <- <-; cbn [perform] in Hp.
  - destruct (sem w Main); simplify_eq; [done|]. cbn. by destruct w.
  - destruct (sem w Sinhvien); simplify_eq; [done|]. cbn. destruct w. by split.
  - destruct (sem w Voinuoc); simplify_eq; [done|]. cbn. destruct w, Hm as [? ?]. by intros [].
Qed.

Lemma turn_main w x sv vn c k w' r bs : turn (mkSys w x sv vn) -> code_main x = Some (c, k) -> perform w c = Some (w', r, bs) ->
  turn (mkSys w' (k r bs) sv vn).
Proof.
  intros [Hv H1 Hm Ho Hf] Hc Hp. cbn [shared main sinhvien voinuoc] in *. pose proof (perform_keeps _ _ _ _ _ Hp) as Hk.
  assert (Hcr : forall n v, c = CreateSemaphore n v -> v = 0) by (intros n u ->; unfold code_main in Hc; by destruct (main_at x); simplify_eq).
  assert (Hmade : (exists n, c = Signal n) \/ (exists p, c = Exec p) -> made w).
  { unfold code_main in Hc. intros [[? ->]|[? ->]]; destruct (main_at x); done. }
  assert (Hother : forall q, q <> Main -> (exists p, c = Exec p) \/ on w' q = on w q).
  { intros q _. destruct c; try (right; by apply (perform_on _ _ _ _ _ q Hp)). left. by exists p. }
  assert (Hsv : (exists p, c = Exec p) -> on w Sinhvien = false -> idle w (code_sinhvien sv) = true).
  { intros He E. unfold code_sinhvien. rewrite (proj1 Hf E). by apply bool_decide_eq_true, (Hmade (or_intror He) Sinhvien). }
  assert (Hvn : (exists p, c = Exec p) -> on w Voinuoc = false -> idle w (code_voinuoc vn) = true).
  { intros He E. unfold code_voinuoc. rewrite (proj2 Hf E). by apply bool_decide_eq_true, (Hmade (or_intror He) Voinuoc). }
  assert (Hbusy : busy w' Sinhvien (code_sinhvien sv) <= busy w Sinhvien (code_sinhvien sv) /\ busy w' Voinuoc (code_voinuoc vn) <= busy w Voinuoc (code_voinuoc vn)).
  { destruct c; try (split; apply busy_mono; [done|by apply (perform_on _ _ _ _ _ _ Hp)|done|by apply (perform_on _ _ _ _ _ _ Hp)]).
    apply perform_effect in Hp as [-> | ->]; [|done]. split; apply busy_start; eauto. }
  split; cbn [shared main sinhvien voinuoc].
  - by apply (perform_values _ _ _ _ _ Hp).
  - rewrite share_sum in *. cbn [shared main sinhvien voinuoc] in *. rewrite Hc in H1.
    pose proof (perform_sum w Main c k w' r bs (code_main (k r bs)) Hp eq_refl Hcr) as Hsum.
    specialize (Hsum ltac:(intros n -> _; apply (signal_main _ _ _ _ _ _ Hc); intros n'; apply Hk, Hmade; left; by exists n)). lia.
  - by apply (made_main w x c).
  - intros p Hne E n. apply Hk. destruct (Hother p Hne) as [He|E']; [apply Hmade; by right|]. by apply (Ho p Hne); rewrite <- E'.
  - pose proof (perform_on_keeps _ _ _ _ _ Sinhvien Hp) as K1. pose proof (perform_on_keeps _ _ _ _ _ Voinuoc Hp) as K2. cbn [on] in K1, K2.
    split; intros E; apply Hf; [destruct (sinhvien_on w)|destruct (voinuoc_on w)]; (done || (rewrite K1 in E by done; done) || (rewrite K2 in E by done; done)).
Qed.

(** The turn is kept. *)
Lemma turn_step s s' : turn s -> step s s' -> turn s'.
Proof.
  intros Ht [p Hs]. unfold step_of in Hs. destruct (halted (shared s) || negb (on (shared s) p)) eqn:Eh; [done|].
  apply orb_false_iff in Eh as [_ Eon%negb_false_iff]. destruct s as [w m sv vn]. cbn [shared main sinhvien voinuoc] in *.
  destruct p; cbn [perform_next] in Hs.
  - destruct (code_main m) as [[c k]|] eqn:Ec; [|done]. cbn [perform_next] in Hs. destruct (perform w c) as [[[w' r] bs]|] eqn:Ep; [|done].
    injection Hs as <-. by eapply turn_main.
  - destruct (code_sinhvien sv) as [[c k]|] eqn:Ec; [|done]. cbn [perform_next] in Hs. destruct (perform w c) as [[[w' r] bs]|] eqn:Ep; [|done].
    injection Hs as <-. by eapply turn_sinhvien.
  - destruct (code_voinuoc vn) as [[c k]|] eqn:Ec; [|done]. cbn [perform_next] in Hs. destruct (perform w c) as [[[w' r] bs]|] eqn:Ep; [|done].
    injection Hs as <-. by eapply turn_voinuoc.
Qed.

Lemma turn_initial f : turn (initial f).
Proof. split; cbn; try done; by intros []. Qed.

(** All runs go the same way: what one run reaches every other run reaches. *)
Lemma runs_converge s s1 s2 : turn s -> rtc step s s1 -> rtc step s s2 -> rtc step s1 s2 \/ rtc step s2 s1.
Proof.
  intros Ht H1. revert s2. induction H1 as [s|s s' s1 Hstep Hrun IH]; intros s2 H2; [by left|].
  destruct H2 as [|s s'' s2 Hstep2 H2]; [right; by eapply rtc_l|].
  assert (s'' = s') as -> by (by eapply step_unique). apply IH; [by eapply turn_step|done].
Qed.

End programs.

End Station.
