(* ===== verification/WaterRun.v ===== *)
(** * The runs of the water station

    What the three programs of [WaterStation.v] do with a whole input: lemmas
    for the turns of the processes on symbolic files and descriptors, from the
    character that [sinhvien] copies up to the time points of the main program.
    [water_station_correct] gives the output for up to three time points, and
    [water_station_hangs] shows that there is none for more, because two
    descriptors are not closed at each. *)

From stdpp Require Import strings.
From S2P Require Import Prelude HostFiles KernelEntry FileService WaterStation.
Import Station.

Local Open Scope Z_scope.

Module StationRuns.

(** ** Descriptors *)

Section descriptors.
Context (sv : Service.t) (id : Z).

Lemma transfer_slot x : 0 <= id <= 9 -> Service.slots sv !! Z.to_nat id = Some x -> Service.transfer sv id = x.
Proof.
  intros Hid Hx. unfold Service.transfer, Service.descriptor_of. rewrite (proj2 (Z.ltb_ge id 0)), (proj2 (Z.ltb_ge 9 id)), Hx by lia. done.
Qed.

Context (d : Service.descriptor) (c : list Z).
Context (Hid : 0 <= id <= 9) (Hd : Service.slots sv !! Z.to_nat id = Some (Some d)) (Hc : Service.files sv !! Service.of_name d = Some c).

Lemma contents_slot : Service.contents sv d = c.
Proof. unfold Service.contents. by rewrite Hc. Qed.

Lemma Read_char ch : c !! Z.to_nat (Service.pos d) = Some ch ->
  Service.Read sv id 1 = (Service.set_slot sv id (Some (Service.mkD (Service.of_name d) (Service.pos d + 1) (Service.mode d))), 1, [ch]).
Proof.
  intros Hch. unfold Service.Read. rewrite (transfer_slot (Some d) Hid Hd), contents_slot.
  assert (slice c (Z.to_nat (Service.pos d)) (Z.to_nat 1) = [ch]) as ->; [|done].
  unfold slice. rewrite (drop_S _ _ _ Hch). done.
Qed.

Lemma Read_end : c !! Z.to_nat (Service.pos d) = None -> Service.Read sv id 1 = (sv, -2, []).
Proof.
  intros Hch. unfold Service.Read. rewrite (transfer_slot (Some d) Hid Hd), contents_slot.
  assert (slice c (Z.to_nat (Service.pos d)) (Z.to_nat 1) = []) as ->; [|done].
  unfold slice. rewrite drop_ge; [done|]. by apply lookup_ge_None.
Qed.

Lemma Write_end bs : Service.mode d = 0 -> Service.pos d = Z.of_nat (length c) ->
  Service.Write sv id bs = (Service.mk (<[Service.of_name d := c ++ bs]> (Service.files sv))
    (<[Z.to_nat id := Some (Service.mkD (Service.of_name d) (Z.of_nat (length (c ++ bs))) 0)]> (Service.slots sv)), Z.of_nat (length bs)).
Proof.
  intros Hm Hp. unfold Service.Write. rewrite (transfer_slot (Some d) Hid Hd), contents_slot, Hm, Hp. cbn [Z.eqb].
  unfold Service.set_slot. cbn [Service.files Service.slots]. unfold written. rewrite Nat2Z.id, Nat.sub_diag, app_nil_r, take_ge, drop_ge, app_nil_r by lia.
  rewrite length_app. repeat f_equal. lia.
Qed.

Lemma Seek_to p q : q = (if p =? -1 then Z.of_nat (length c) else p) -> 0 <= q <= Z.of_nat (length c) ->
  Service.Seek sv p id = (Service.set_slot sv id (Some (Service.mkD (Service.of_name d) q (Service.mode d))), q).
Proof.
  intros -> Hq. unfold Service.Seek. rewrite (transfer_slot (Some d) Hid Hd), contents_slot. cbv zeta.
  rewrite (proj2 (Z.ltb_ge _ 0)), (proj2 (Z.ltb_ge (Z.of_nat (length c)) _)) by lia. done.
Qed.

Lemma Close_slot : Service.Close sv id = (Service.set_slot sv id None, 0).
Proof.
  unfold Service.Close. rewrite (proj2 (Z.leb_le 0 id)), (proj2 (Z.leb_le id 14)) by lia. unfold Service.descriptor_of. rewrite Hd. done.
Qed.

End descriptors.

(** ** The table of open files

    Descriptor 2 is input.txt, [l] are the descriptors that were not closed at the
    earlier time points, and the next three are in use. *)

Definition tbl (inp : option Service.descriptor) (l : list Service.descriptor) (a b c : option Service.descriptor) (r : nat) : list (option Service.descriptor) :=
  [None; None; inp] ++ (Some <$> l) ++ [a; b; c] ++ replicate r None.
Definition base (l : list Service.descriptor) : Z := 3 + Z.of_nat (length l).

Section table.
Context (inp : option Service.descriptor) (l : list Service.descriptor) (a b c x : option Service.descriptor) (r : nat).

Lemma tbl_lookup (i : nat) : tbl inp l a b c r !! (3 + length l + i)%nat = ([a; b; c] ++ replicate r None) !! i.
Proof.
  unfold tbl. rewrite lookup_app_r by (cbn; lia). rewrite lookup_app_r by (cbn; rewrite length_fmap; lia). f_equal. cbn. rewrite length_fmap. lia.
Qed.

Lemma tbl_insert (i : nat) : <[(3 + length l + i)%nat := x]> (tbl inp l a b c r) = [None; None; inp] ++ (Some <$> l) ++ <[i := x]> ([a; b; c] ++ replicate r None).
Proof.
  unfold tbl. rewrite insert_app_r_alt by (cbn; lia). f_equal. rewrite insert_app_r_alt by (cbn; rewrite length_fmap; lia). f_equal. f_equal. cbn. rewrite length_fmap. lia.
Qed.

Lemma tbl_get_a : tbl inp l a b c r !! Z.to_nat (base l) = Some a.
Proof. replace (Z.to_nat (base l)) with (3 + length l + 0)%nat by (unfold base; lia). by rewrite tbl_lookup. Qed.
Lemma tbl_get_b : tbl inp l a b c r !! Z.to_nat (base l + 1) = Some b.
Proof. replace (Z.to_nat (base l + 1)) with (3 + length l + 1)%nat by (unfold base; lia). by rewrite tbl_lookup. Qed.
Lemma tbl_get_c : tbl inp l a b c r !! Z.to_nat (base l + 2) = Some c.
Proof. replace (Z.to_nat (base l + 2)) with (3 + length l + 2)%nat by (unfold base; lia). by rewrite tbl_lookup. Qed.
Lemma tbl_set_a : <[Z.to_nat (base l) := x]> (tbl inp l a b c r) = tbl inp l x b c r.
Proof. replace (Z.to_nat (base l)) with (3 + length l + 0)%nat by (unfold base; lia). by rewrite tbl_insert. Qed.
Lemma tbl_set_b : <[Z.to_nat (base l + 1) := x]> (tbl inp l a b c r) = tbl inp l a x c r.
Proof. replace (Z.to_nat (base l + 1)) with (3 + length l + 1)%nat by (unfold base; lia). by rewrite tbl_insert. Qed.
Lemma tbl_set_c : <[Z.to_nat (base l + 2) := x]> (tbl inp l a b c r) = tbl inp l a b x r.
Proof. replace (Z.to_nat (base l + 2)) with (3 + length l + 2)%nat by (unfold base; lia). by rewrite tbl_insert. Qed.
Lemma tbl_set_input : <[Z.to_nat 2 := x]> (tbl inp l a b c r) = tbl x l a b c r.
Proof. done. Qed.

End table.

Lemma free_from_first n : forall i j sl, 0 <= i <= j -> j < i + Z.of_nat n -> sl !! Z.to_nat j = Some None ->
  (forall k, i <= k < j -> exists d, sl !! Z.to_nat k = Some (Some d)) -> Service.free_from n i sl = j.
Proof.
  induction n as [|n IH]; intros i j sl Hi Hj Hn Hs; [lia|]. cbn [Service.free_from]. destruct (decide (i = j)) as [->|Hne]; [by rewrite Hn|].
  destruct (Hs i ltac:(lia)) as [d ->]. apply IH; [lia|lia|done|]. intros k Hk. apply Hs. lia.
Qed.

(** The first free descriptor. *)
Lemma tbl_leaked inp l a b c r k : 2 <= k < base l -> exists d, tbl (Some inp) l a b c r !! Z.to_nat k = Some (Some d).
Proof.
  unfold base. intros Hk. destruct (decide (k = 2)) as [->|]; [by exists inp|]. unfold tbl. rewrite lookup_app_r by (cbn; lia).
  destruct (lookup_lt_is_Some_2 l (Z.to_nat k - 3)) as [d Hd]; [lia|]. exists d. cbn [length]. rewrite lookup_app_l by (rewrite length_fmap; lia).
  by rewrite list_lookup_fmap, Hd.
Qed.

Lemma free_a F inp l b c r : (length l <= 9)%nat -> Service.free_slot (Service.mk F (tbl (Some inp) l None b c r)) = base l.
Proof.
  intros Hl. apply free_from_first; [unfold base; lia|unfold base; lia|apply tbl_get_a|]. intros k Hk. by apply tbl_leaked.
Qed.
Lemma free_b F inp l a c r : (length l <= 9)%nat -> Service.free_slot (Service.mk F (tbl (Some inp) l (Some a) None c r)) = base l + 1.
Proof.
  intros Hl. apply free_from_first; [unfold base; lia|unfold base; lia|apply tbl_get_b|]. intros k Hk. cbn [Service.slots].
  destruct (decide (k = base l)) as [->|]; [rewrite tbl_get_a; by exists a|]. apply tbl_leaked. lia.
Qed.
Lemma free_c F inp l a b r : (length l <= 9)%nat -> Service.free_slot (Service.mk F (tbl (Some inp) l (Some a) (Some b) None r)) = base l + 2.
Proof.
  intros Hl. apply free_from_first; [unfold base; lia|unfold base; lia|apply tbl_get_c|]. intros k Hk. cbn [Service.slots].
  destruct (decide (k = base l)) as [->|]; [rewrite tbl_get_a; by exists a|].
  destruct (decide (k = base l + 1)) as [->|]; [rewrite tbl_get_b; by exists b|]. apply tbl_leaked. lia.
Qed.

Lemma Open_slot sv nm type c i : (type =? 0) || (type =? 1) = true -> Service.files sv !! nm = Some c -> Service.free_slot sv = i -> 0 <= i ->
  Service.Open sv nm type = (Service.set_slot sv i (Some (Service.mkD nm 0 type)), i).
Proof. intros Ht Hf <- Hi. unfold Service.Open. rewrite (proj2 (Z.eqb_neq _ (-1))), Hf by lia. by rewrite Ht. Qed.

(** Descriptors that are not closed. *)
Lemma tbl_leak inp l a b r : tbl inp l (Some a) (Some b) None (S (S r)) = tbl inp (l ++ [a; b]) None None None r.
Proof. unfold tbl. rewrite fmap_app, <- !app_assoc. done. Qed.

(** ** Runs *)

(** The file that a name stands for. *)
Definition has (F : gmap (list Z) (list Z)) (i o : list Z) (s v : option (list Z)) : Prop :=
  F !! input_txt = Some i /\ F !! output_txt = Some o /\ F !! sinhvien_txt = s /\ F !! voinuoc_txt = v.

Section has.
Context (F : gmap (list Z) (list Z)) (i o : list Z) (s v : option (list Z)) (x : list Z) (Hh : has F i o s v).

Lemma has_output : has (<[output_txt := x]> F) i x s v.
Proof. destruct Hh as (? & ? & ? & ?). unfold has. rewrite lookup_insert_eq, !lookup_insert_ne by done. done. Qed.
Lemma has_sinhvien : has (<[sinhvien_txt := x]> F) i o (Some x) v.
Proof. destruct Hh as (? & ? & ? & ?). unfold has. rewrite lookup_insert_eq, !lookup_insert_ne by done. done. Qed.
Lemma has_voinuoc : has (<[voinuoc_txt := x]> F) i o s (Some x).
Proof. destruct Hh as (? & ? & ? & ?). unfold has. rewrite lookup_insert_eq, !lookup_insert_ne by done. done. Qed.

End has.

(** All processes are started; the values of the semaphores. *)
Definition W (F : gmap (list Z) (list Z)) (T : list (option Service.descriptor)) (a b c : Z) (d : list Z) : world :=
  mkWorld (Service.mk F T) (Some a) (Some b) (Some c) true true d false.

(** The calls on files. *)
Definition effect (sv : Service.t) (c : call) : option (Service.t * Z * list Z) :=
  match c with
  | CreateFile f => let '(sv, r) := Service.CreateFile sv f in Some (sv, r, [])
  | Open f type => let '(sv, r) := Service.Open sv f type in Some (sv, r, [])
  | Close id => let '(sv, r) := Service.Close sv id in Some (sv, r, [])
  | Read id => Some (Service.Read sv id 1)
  | Write bs id => let '(sv, r) := Service.Write sv id bs in Some (sv, r, [])
  | Seek p id => let '(sv, r) := Service.Seek sv p id in Some (sv, r, [])
  | _ => None
  end.

Section effects.
Context (F : gmap (list Z) (list Z)) (T T' : list (option Service.descriptor)) (id : Z).

Lemma eff_open nm type c : (type =? 0) || (type =? 1) = true -> F !! nm = Some c -> Service.free_slot (Service.mk F T) = id -> 0 <= id -> <[Z.to_nat id := Some (Service.mkD nm 0 type)]> T = T' ->
  effect (Service.mk F T) (Open nm type) = Some (Service.mk F T', id, []).
Proof. intros Ht Hf Hi Hid <-. cbn [effect]. by rewrite (Open_slot _ nm type c id). Qed.

Context (nm c : list Z) (p md : Z) (Hid : 0 <= id <= 9) (Hd : T !! Z.to_nat id = Some (Some (Service.mkD nm p md))).

Lemma eff_close : <[Z.to_nat id := None]> T = T' -> effect (Service.mk F T) (Close id) = Some (Service.mk F T', 0, []).
Proof. intros <-. cbn [effect]. by rewrite (Close_slot _ _ (Service.mkD nm p md)). Qed.

Context (Hc : F !! nm = Some c).

Lemma eff_read ch : c !! Z.to_nat p = Some ch -> <[Z.to_nat id := Some (Service.mkD nm (p + 1) md)]> T = T' ->
  effect (Service.mk F T) (Read id) = Some (Service.mk F T', 1, [ch]).
Proof. intros Hch <-. cbn [effect]. by rewrite (Read_char (Service.mk F T) id (Service.mkD nm p md) c Hid Hd Hc ch). Qed.
Lemma eff_read_end : c !! Z.to_nat p = None -> effect (Service.mk F T) (Read id) = Some (Service.mk F T, -2, []).
Proof. intros Hch. cbn [effect]. by rewrite (Read_end (Service.mk F T) id (Service.mkD nm p md) c Hid Hd Hc). Qed.
Lemma eff_write bs : md = 0 -> p = Z.of_nat (length c) -> <[Z.to_nat id := Some (Service.mkD nm (Z.of_nat (length (c ++ bs))) 0)]> T = T' ->
  effect (Service.mk F T) (Write bs id) = Some (Service.mk (<[nm := c ++ bs]> F) T', Z.of_nat (length bs), []).
Proof. intros Hm Hp <-. cbn [effect]. by rewrite (Write_end (Service.mk F T) id (Service.mkD nm p md) c Hid Hd Hc bs). Qed.
Lemma eff_seek_end : <[Z.to_nat id := Some (Service.mkD nm (Z.of_nat (length c)) md)]> T = T' ->
  effect (Service.mk F T) (Seek (-1) id) = Some (Service.mk F T', Z.of_nat (length c), []).
Proof. intros <-. cbn [effect]. by rewrite (Seek_to (Service.mk F T) id (Service.mkD nm p md) c Hid Hd Hc (-1) (Z.of_nat (length c))) by (done || lia). Qed.
Lemma eff_seek_start : <[Z.to_nat id := Some (Service.mkD nm 0 md)]> T = T' -> effect (Service.mk F T) (Seek 0 id) = Some (Service.mk F T', 0, []).
Proof. intros <-. cbn [effect]. by rewrite (Seek_to (Service.mk F T) id (Service.mkD nm p md) c Hid Hd Hc 0 0) by (done || lia). Qed.

End effects.

Section runs.
Context (exec : name -> Z).
Notation step := (step exec).

Lemma perform_files F T a b c d cl F' T' r bs : effect (Service.mk F T) cl = Some (Service.mk F' T', r, bs) ->
  perform exec (W F T a b c d) cl = Some (W F' T' a b c d, r, bs).
Proof.
  destruct cl; try done; cbn [effect perform W files].
  1-3, 5-6: destruct (Service.CreateFile _ _) || destruct (Service.Open _ _ _) || destruct (Service.Close _ _) || destruct (Service.Write _ _ _)
    || destruct (Service.Seek _ _ _); by intros [= -> <- <-].
  destruct (Service.Read _ _ _) as [[? ?] ?]. by intros [= -> -> ->].
Qed.

Section go.
Context (F : gmap (list Z) (list Z)) (T : list (option Service.descriptor)) (a b c : Z) (d : list Z).
Context (m : main_state) (s : sinhvien_state) (v : voinuoc_state) (cl : call) (w' : world) (r : Z) (bs : list Z) (z : system).

Lemma go_main k : code_main m = Some (cl, k) -> perform exec (W F T a b c d) cl = Some (w', r, bs) ->
  rtc step (mkSys w' (k r bs) s v) z -> rtc step (mkSys (W F T a b c d) m s v) z.
Proof. intros Hc Hp. apply rtc_l. exists Main. unfold step_of. cbn [shared main W halted on orb negb]. rewrite Hc. cbn [perform_next]. fold (W F T a b c d). by rewrite Hp. Qed.
Lemma go_sinhvien k : code_sinhvien s = Some (cl, k) -> perform exec (W F T a b c d) cl = Some (w', r, bs) ->
  rtc step (mkSys w' m (k r bs) v) z -> rtc step (mkSys (W F T a b c d) m s v) z.
Proof. intros Hc Hp. apply rtc_l. exists Sinhvien. unfold step_of. cbn [shared sinhvien W halted on orb negb sinhvien_on]. rewrite Hc. cbn [perform_next]. fold (W F T a b c d). by rewrite Hp. Qed.
Lemma go_voinuoc k : code_voinuoc v = Some (cl, k) -> perform exec (W F T a b c d) cl = Some (w', r, bs) ->
  rtc step (mkSys w' m s (k r bs)) z -> rtc step (mkSys (W F T a b c d) m s v) z.
Proof. intros Hc Hp. apply rtc_l. exists Voinuoc. unfold step_of. cbn [shared voinuoc W halted on orb negb voinuoc_on]. rewrite Hc. cbn [perform_next]. fold (W F T a b c d). by rewrite Hp. Qed.

End go.

(** Performing a call on a file: the descriptor is found and replaced. *)
Ltac slot := first [apply tbl_get_a | apply tbl_get_b | apply tbl_get_c | reflexivity].
Ltac slot' := first [apply tbl_set_a | apply tbl_set_b | apply tbl_set_c | reflexivity].
Ltac fields := cbn [vn_goto vn_at vn_voinuoc vn_output tap1 tap2 tapTime problemSolved vn_char
  sv_goto sv_at sv_sinhvien sv_voinuoc sv_output getWater fileLen filePointer sv_char
  main_goto main_at timePoints charRead si_input si_sinhvien read_char head default from_option id] in *.
Ltac go_file tac := apply perform_files; fields; tac.

(** ** voinuoc serves a student *)

Definition digit (c : Z) : Prop := 48 <= c <= 57.
Definition amount (a : list Z) : Z := fold_left (fun v c => v * 10 + (c - 48)) a 0.

Lemma amount_app a c : amount (a ++ [c]) = amount a * 10 + (c - 48).
Proof. unfold amount. by rewrite fold_left_app. Qed.
Lemma amount_nonneg a : Forall digit a -> 0 <= amount a.
Proof.
  induction a as [|c a IH] using rev_ind; [done|]. rewrite Forall_app, Forall_singleton. intros [Ha Hc]. rewrite amount_app.
  specialize (IH Ha). unfold digit in Hc. lia.
Qed.

Lemma amount_prefix a b : 0 <= amount a -> Forall digit b -> amount a <= amount (a ++ b).
Proof.
  intros Ha. induction b as [|c b IH] using rev_ind; [by rewrite app_nil_r|]. rewrite Forall_app, Forall_singleton. intros [Hb Hc].
  rewrite app_assoc, amount_app. specialize (IH Hb). unfold digit in Hc. lia.
Qed.

(** The number is read digit by digit. *)
Lemma voinuoc_reads F inp l a c r x y z d m s vo t1 t2 star i o sn rest : forall done ch,
  (length l <= 5)%nat -> has F i o sn (Some (done ++ rest ++ star)) -> Forall digit (done ++ rest) -> amount (done ++ rest) < 2 ^ 31 ->
  exists ch', rtc step (mkSys (W F (tbl inp l a (Some (Service.mkD voinuoc_txt (Z.of_nat (length done)) 1)) c r) x y z d) m s (mkVn V25 (base l + 1) vo t1 t2 (amount done) false ch))
    (mkSys (W F (tbl inp l a (Some (Service.mkD voinuoc_txt (Z.of_nat (length (done ++ rest))) 1)) c r) x y z d) m s (mkVn V25 (base l + 1) vo t1 t2 (amount (done ++ rest)) false ch')).
Proof.
  induction rest as [|e rest IH]; intros dn ch Hl Hh Hd Hm; [exists ch; by rewrite app_nil_r|].
  replace (dn ++ e :: rest) with ((dn ++ [e]) ++ rest) in * by (by rewrite <- app_assoc).
  assert (He : digit e) by (rewrite !Forall_app, Forall_singleton in Hd; apply Hd).
  destruct (IH (dn ++ [e]) e Hl) as [ch' Hrun]; [by rewrite <- app_assoc|done|done|]. exists ch'.
  eapply go_voinuoc; [reflexivity| |].
  - go_file ltac:(eapply (eff_read _ _ _ _ voinuoc_txt (dn ++ e :: rest ++ star))); [unfold base; lia|slot| | |slot'].
    + apply Hh.
    + rewrite Nat2Z.id. by apply list_lookup_middle.
  - fields. unfold digit in He. rewrite (proj2 (Z.eqb_neq e 42)) by lia. cbn [Z.eqb Pos.eqb].
    rewrite amount_app, length_app in Hrun. cbn [length] in Hrun. rewrite s32_small; [|].
    + replace (Z.of_nat (length dn + 1)) with (Z.of_nat (length dn) + 1) in Hrun by lia. exact Hrun.
    + rewrite <- amount_app. rewrite Forall_app in Hd. destruct Hd as [Hd1 Hd2]. pose proof (amount_nonneg _ Hd1).
      pose proof (amount_prefix (dn ++ [e]) rest ltac:(done) Hd2). unfold is_s32. lia.
Qed.

(** Signals and waits. *)
Lemma perform_signal F T a b c d n : perform exec (W F T a b c d) (Signal n) =
  Some (match n with Main => W F T (a + 1) b c d | Sinhvien => W F T a (b + 1) c d | Voinuoc => W F T a b (c + 1) d end, 0, []).
Proof. by destruct n. Qed.
Lemma perform_wait F T a b c d n : (match n with Main => a | Sinhvien => b | Voinuoc => c end) = 1 -> perform exec (W F T a b c d) (Wait n) =
  Some (match n with Main => W F T 0 b c d | Sinhvien => W F T a 0 c d | Voinuoc => W F T a b 0 d end, 0, []).
Proof. destruct n; by intros ->. Qed.

(** The tap a student is sent to, and what is written after his amount. *)
Definition tap_text (t1 t2 v : Z) : list Z := if v =? 0 then [] else if t1 <=? t2 then txt " 1" else txt " 2".
Definition tap1_after (t1 t2 v : Z) : Z := if t1 <=? t2 then t1 + v else t1.
Definition tap2_after (t1 t2 v : Z) : Z := if t1 <=? t2 then t2 else t2 + v.
Definition separator (last : bool) : list Z := if last then [13; 10] else txt "   ".

(** From the choice of the tap to the end of the turn. *)
Lemma voinuoc_writes F inp l a r x y d m s vv t1 t2 v last ch i o sn vn :
  (length l <= 5)%nat -> has F i o sn vn -> 0 <= t1 -> 0 <= t2 -> 0 <= v -> t1 + v < 2 ^ 31 -> t2 + v < 2 ^ 31 ->
  exists F' ch', rtc step
    (mkSys (W F (tbl (Some inp) l (Some a) (Some (Service.mkD output_txt (Z.of_nat (length o)) 0)) None r) x y 0 d) m s (vn_tap (mkVn V48 vv (base l + 1) t1 t2 v last ch)))
    (mkSys (W F' (tbl (Some inp) l (Some a) None None r) x (y + 1) 0 d) m s
      (mkVn V13 vv (base l + 1) (if last then 0 else tap1_after t1 t2 v) (if last then 0 else tap2_after t1 t2 v) v last ch')) /\
    has F' i (o ++ tap_text t1 t2 v ++ separator last) sn vn.
Proof.
  intros Hl Hh H1 H2 H0 M1 M2.
  assert (Hend : forall F o' ua ub, has F i o' sn vn -> exists F' ch', rtc step
    (mkSys (W F (tbl (Some inp) l (Some a) (Some (Service.mkD output_txt (Z.of_nat (length o')) 0)) None r) x y 0 d) m s (vn_end (mkVn V48 vv (base l + 1) ua ub v last ch)))
    (mkSys (W F' (tbl (Some inp) l (Some a) None None r) x (y + 1) 0 d) m s (mkVn V13 vv (base l + 1) (if last then 0 else ua) (if last then 0 else ub) v last ch')) /\
    has F' i (o' ++ separator last) sn vn).
  { clear Hh F o. intros F o' ua ub Hh. exists (<[output_txt := o' ++ separator last]> F), ch. split; [|by eapply has_output].
    unfold vn_end. fields. destruct last; fields.
    all: (eapply go_voinuoc; [reflexivity|go_file ltac:(eapply (eff_write _ _ _ _ output_txt o')); [unfold base; lia|slot|apply Hh|done|done|slot']|]); fields.
    all: (eapply go_voinuoc; [reflexivity|go_file ltac:(eapply eff_close); [unfold base; lia|slot|slot']|]); fields.
    all: (eapply go_voinuoc; [reflexivity|apply perform_signal|]); fields; reflexivity. }
  unfold vn_tap, tap_text, tap1_after, tap2_after. fields. destruct (Z.eqb_spec v 0) as [->|Hv]; cbn [negb].
  - replace (if t1 <=? t2 then t1 + 0 else t1) with t1 by (destruct (_ <=? _); lia). replace (if t1 <=? t2 then t2 else t2 + 0) with t2 by (destruct (_ <=? _); lia).
    by apply Hend.
  - destruct (t1 <=? t2).
    + destruct (Hend (<[output_txt := o ++ txt " 1"]> F) (o ++ txt " 1") (s32 (t1 + v)) t2) as (F' & ch' & Hrun & Hh'); [by eapply has_output|].
      exists F', ch'. rewrite <- app_assoc in Hh'. split; [|exact Hh']. rewrite s32_small in Hrun |- * by (unfold is_s32; lia).
      eapply go_voinuoc; [reflexivity|go_file ltac:(eapply (eff_write _ _ _ _ output_txt o)); [unfold base; lia|slot|apply Hh|done|done|slot']|].
      exact Hrun.
    + destruct (Hend (<[output_txt := o ++ txt " 2"]> F) (o ++ txt " 2") t1 (s32 (t2 + v))) as (F' & ch' & Hrun & Hh'); [by eapply has_output|].
      exists F', ch'. rewrite <- app_assoc in Hh'. split; [|exact Hh']. rewrite s32_small in Hrun |- * by (unfold is_s32; lia).
      eapply go_voinuoc; [reflexivity|go_file ltac:(eapply (eff_write _ _ _ _ output_txt o)); [unfold base; lia|slot|apply Hh|done|done|slot']|].
      exact Hrun.
Qed.

(** A turn of [voinuoc]: it has been signalled, voinuoc.txt has the amount of a
    student, with a star if he is the last one, and [sinhvien] has closed it. *)
Lemma voinuoc_serves F inp l a r x y d m s vv vo t1 t2 tt ps ch i o sn tok (last : bool) :
  (length l <= 5)%nat -> has F i o sn (Some (tok ++ if last then [42] else [])) -> Forall digit tok ->
  0 <= t1 -> 0 <= t2 -> t1 + amount tok < 2 ^ 31 -> t2 + amount tok < 2 ^ 31 ->
  exists F' vv' vo' tt' ps' ch', rtc step
    (mkSys (W F (tbl (Some inp) l (Some a) None None r) x y 1 d) m s (mkVn V13 vv vo t1 t2 tt ps ch))
    (mkSys (W F' (tbl (Some inp) l (Some a) None None r) x (y + 1) 0 d) m s
      (mkVn V13 vv' vo' (if last then 0 else tap1_after t1 t2 (amount tok)) (if last then 0 else tap2_after t1 t2 (amount tok)) tt' ps' ch')) /\
    has F' i (o ++ tap_text t1 t2 (amount tok) ++ separator last) sn (Some (tok ++ if last then [42] else [])).
Proof.
  intros Hl Hh Hd H1 H2 M1 M2. pose proof (amount_nonneg tok Hd) as Hn.
  destruct (voinuoc_reads F (Some inp) l (Some a) None r x y 0 d m s vo t1 t2 (if last then [42] else []) i o sn tok [] 0) as [ch1 Hread]; [lia|done|done|cbn [app]; lia|].
  cbn [app length Z.of_nat] in Hread. change (amount []) with 0 in Hread.
  destruct (voinuoc_writes F inp l a r x y d m s (base l + 1) t1 t2 (amount tok) last (if last then 42 else ch1) i o sn _ Hl Hh H1 H2 Hn M1 M2) as (F' & ch' & Hwrite & Hh').
  exists F', (base l + 1), (base l + 1), (amount tok), last, ch'. split; [|exact Hh'].
  eapply go_voinuoc; [reflexivity|by apply perform_wait|]. fields.
  eapply go_voinuoc; [reflexivity|go_file ltac:(eapply (eff_open _ _ _ (base l + 1) voinuoc_txt 1 _ eq_refl)); [apply Hh|apply free_b; lia|unfold base; lia|slot']|]. fields.
  rewrite (proj2 (Z.eqb_neq (base l + 1) (-1))) by (unfold base; lia). etransitivity; [exact Hread|].
  etransitivity; [|exact Hwrite].
  assert (Hmid : forall ln p ch0, ln = V26 \/ ln = V34 -> rtc step
    (mkSys (W F (tbl (Some inp) l (Some a) (Some (Service.mkD voinuoc_txt p 1)) None r) x y 0 d) m s (mkVn ln (base l + 1) vo t1 t2 (amount tok) last ch0))
    (mkSys (W F (tbl (Some inp) l (Some a) (Some (Service.mkD output_txt (Z.of_nat (length o)) 0)) None r) x y 0 d) m s (vn_tap (mkVn V48 (base l + 1) (base l + 1) t1 t2 (amount tok) last ch0)))).
  { intros ln p ch0 Hln.
    eapply go_voinuoc; [by destruct Hln as [-> | ->]|go_file ltac:(eapply eff_close); [unfold base; lia|slot|slot']|]. fields.
    eapply go_voinuoc; [reflexivity|go_file ltac:(eapply (eff_open _ _ _ (base l + 1) output_txt 0 _ eq_refl)); [apply Hh|apply free_b; lia|unfold base; lia|slot']|]. fields.
    rewrite (proj2 (Z.eqb_neq (base l + 1) (-1))) by (unfold base; lia).
    eapply go_voinuoc; [reflexivity|go_file ltac:(eapply (eff_seek_end _ _ _ _ output_txt o)); [unfold base; lia|slot|apply Hh|slot']|]. fields. reflexivity. }
  (* the star or the end of the file *)
  destruct last.
  - eapply go_voinuoc; [reflexivity| |].
    + go_file ltac:(eapply (eff_read _ _ _ _ voinuoc_txt (tok ++ [42]))); [unfold base; lia|slot|apply Hh| |slot']. rewrite Nat2Z.id. by apply list_lookup_middle.
    + apply Hmid. by right.
  - eapply go_voinuoc; [reflexivity| |].
    + go_file ltac:(eapply (eff_read_end _ _ _ voinuoc_txt (tok ++ []))); [unfold base; lia|slot|apply Hh|]. rewrite Nat2Z.id, app_nil_r. apply lookup_ge_None. lia.
    + apply Hmid. by left.
Qed.

(** ** sinhvien reads a line *)

Definition sv_table (inp : Service.descriptor) (l : list Service.descriptor) (p q : Z) (r : nat) : list (option Service.descriptor) :=
  tbl (Some inp) l (Some (Service.mkD sinhvien_txt p 1)) (Some (Service.mkD voinuoc_txt q 0)) None r.

(** A character that is not a space goes to voinuoc.txt and to output.txt. *)
Lemma sinhvien_char F inp l p r x y z d m v so n ch c i o line tok :
  (length l <= 4)%nat -> 0 <= p -> has F i o (Some line) (Some tok) -> line !! Z.to_nat p = Some c -> c <> 32 ->
  exists F', rtc step
    (mkSys (W F (sv_table inp l p (Z.of_nat (length tok)) r) x y z d) m (mkSv S43 (base l) (base l + 1) so false n p ch) v)
    (mkSys (W F' (sv_table inp l (p + 1) (Z.of_nat (length (tok ++ [c]))) r) x y z d) m (sv_last (mkSv S59 (base l) (base l + 1) (base l + 2) false n p c)) v) /\
    has F' i (o ++ [c]) (Some line) (Some (tok ++ [c])).
Proof.
  intros Hl Hp Hh Hc Hne. exists (<[output_txt := o ++ [c]]> (<[voinuoc_txt := tok ++ [c]]> F)). assert (Hh1 := has_voinuoc _ _ _ _ _ (tok ++ [c]) Hh).
  split; [|by eapply has_output]. unfold sv_table.
  eapply go_sinhvien; [reflexivity|go_file ltac:(eapply (eff_read _ _ _ _ sinhvien_txt line)); [unfold base; lia|slot|apply Hh|done|slot']|]. fields.
  rewrite (proj2 (Z.eqb_neq c 32)) by done. cbn [negb].
  eapply go_sinhvien; [reflexivity|go_file ltac:(eapply (eff_write _ _ _ _ voinuoc_txt tok)); [unfold base; lia|slot|apply Hh|done|done|slot']|]. fields.
  eapply go_sinhvien; [reflexivity|go_file ltac:(eapply (eff_open _ _ _ (base l + 2) output_txt 0 _ eq_refl)); [apply Hh1|apply free_c; lia|unfold base; lia|slot']|]. fields.
  rewrite (proj2 (Z.eqb_neq (base l + 2) (-1))) by (unfold base; lia).
  eapply go_sinhvien; [reflexivity|go_file ltac:(eapply (eff_seek_end _ _ _ _ output_txt o)); [unfold base; lia|slot|apply Hh1|slot']|]. fields.
  eapply go_sinhvien; [reflexivity|go_file ltac:(eapply (eff_write _ _ _ _ output_txt o)); [unfold base; lia|slot|apply Hh1|done|done|slot']|]. fields.
  eapply go_sinhvien; [reflexivity|go_file ltac:(eapply eff_close); [unfold base; lia|slot|slot']|]. fields. reflexivity.
Qed.

(** The turn goes to [voinuoc] and comes back. *)
Lemma sinhvien_turn F inp l a q r d m so gw n p ch vv vo t1 t2 tt ps vch i o line tok (last : bool) :
  (length l <= 4)%nat -> has F i o (Some line) (Some (tok ++ if last then [42] else [])) -> Forall digit tok ->
  0 <= t1 -> 0 <= t2 -> t1 + amount tok < 2 ^ 31 -> t2 + amount tok < 2 ^ 31 ->
  exists F' vv' vo' tt' ps' ch', rtc step
    (mkSys (W F (tbl (Some inp) l (Some a) (Some (Service.mkD voinuoc_txt q 0)) None r) 0 0 0 d) m (mkSv S70 (base l) (base l + 1) so gw n p ch) (mkVn V13 vv vo t1 t2 tt ps vch))
    (mkSys (W F' (tbl (Some inp) l (Some a) (Some (Service.mkD voinuoc_txt 0 0)) None r) 0 0 0 d) m (sv_next (mkSv S81 (base l) (base l + 1) so gw n p ch))
      (mkVn V13 vv' vo' (if last then 0 else tap1_after t1 t2 (amount tok)) (if last then 0 else tap2_after t1 t2 (amount tok)) tt' ps' ch')) /\
    has F' i (o ++ tap_text t1 t2 (amount tok) ++ separator last) (Some line) (Some []).
Proof.
  intros Hl Hh Hd H1 H2 M1 M2.
  destruct (voinuoc_serves F inp l a r 0 0 d m (mkSv S72 (base l) (base l + 1) so gw n p ch) vv vo t1 t2 tt ps vch i o (Some line) tok last)
    as (F' & vv' & vo' & tt' & ps' & ch' & Hrun & Hh'); [lia|done..|].
  exists (<[voinuoc_txt := []]> F'), vv', vo', tt', ps', ch'. assert (Hh2 := has_voinuoc _ _ _ _ _ [] Hh'). split; [|exact Hh2].
  eapply go_sinhvien; [reflexivity|go_file ltac:(eapply eff_close); [unfold base; lia|slot|slot']|]. fields.
  eapply go_sinhvien; [reflexivity|apply perform_signal|]. fields. etransitivity; [exact Hrun|].
  eapply go_sinhvien; [reflexivity|by apply perform_wait|]. fields.
  eapply go_sinhvien; [reflexivity|go_file ltac:(reflexivity)|]. fields. cbn [Z.eqb Service.files].
  eapply go_sinhvien; [reflexivity|go_file ltac:(eapply (eff_open _ _ _ (base l + 1) voinuoc_txt 0 _ eq_refl)); [apply Hh2|apply free_b; lia|unfold base; lia|slot']|]. fields.
  rewrite (proj2 (Z.eqb_neq (base l + 1) (-1))) by (unfold base; lia). reflexivity.
Qed.

(** The line of a time point, and what the station writes for it. *)
Fixpoint line_of (amounts : list (list Z)) : list Z :=
  match amounts with
  | [] => []
  | [a] => a
  | a :: rest => a ++ [32] ++ line_of rest
  end.

Fixpoint serve (t1 t2 : Z) (amounts : list (list Z)) : list Z :=
  match amounts with
  | [] => []
  | a :: rest =>
      a ++ tap_text t1 t2 (amount a) ++ separator (bool_decide (rest = [])) ++
      serve (tap1_after t1 t2 (amount a)) (tap2_after t1 t2 (amount a)) rest
  end.

Definition well_formed (a : list Z) : Prop := a <> [] /\ Forall digit a.
Definition water (amounts : list (list Z)) : Z := foldr (fun a n => amount a + n) 0 amounts.

Lemma water_nonneg amounts : Forall well_formed amounts -> 0 <= water amounts.
Proof. induction 1 as [|a amounts [_ Ha] _ IH]; [done|]. cbn. pose proof (amount_nonneg a Ha). unfold water in IH. lia. Qed.

Lemma line_of_nonempty a rest : well_formed a -> (0 < length (line_of (a :: rest)))%nat.
Proof. intros [Ha _]. destruct a; [done|]. destruct rest; cbn; lia. Qed.

(** On to the next character. *)
Lemma sv_next_char s0 si vo so gw n p c : is_s32 n -> 0 <= p -> p + 1 < n ->
  sv_next (mkSv s0 si vo so gw n p c) = mkSv S43 si vo so false n (p + 1) c.
Proof.
  unfold is_s32. intros Hn Hp Hlt. unfold sv_next, sv_loop. fields. rewrite s32_small by (unfold is_s32; lia). by rewrite (proj2 (Z.ltb_lt _ _)) by lia.
Qed.
Lemma sv_next_end s0 si vo so gw n p c : is_s32 n -> 0 <= p -> p + 1 = n -> sv_next (mkSv s0 si vo so gw n p c) = mkSv S92 si vo so gw n n c.
Proof.
  unfold is_s32. intros Hn Hp Hlt. unfold sv_next, sv_loop. fields. rewrite s32_small by (unfold is_s32; lia). by rewrite (proj2 (Z.ltb_ge _ _)), Hlt by lia.
Qed.
Lemma sv_last_char s0 si vo so gw n p c : is_s32 n -> 0 <= p -> p + 1 < n -> sv_last (mkSv s0 si vo so gw n p c) = sv_turn (mkSv s0 si vo so gw n p c).
Proof. unfold is_s32. intros Hn Hp Hlt. unfold sv_last. fields. rewrite s32_small by (unfold is_s32; lia). by rewrite (proj2 (Z.eqb_neq _ _)) by lia. Qed.
Lemma sv_last_end s0 si vo so gw n p c : is_s32 n -> 0 <= p -> p + 1 = n -> sv_last (mkSv s0 si vo so gw n p c) = mkSv S64 si vo so gw n p c.
Proof. unfold is_s32. intros Hn Hp Hlt. unfold sv_last. fields. rewrite s32_small by (unfold is_s32; lia). by rewrite (proj2 (Z.eqb_eq _ _)) by lia. Qed.

(** The digits of an amount, before the last character of the line. *)
Lemma sinhvien_digits inp l r x y z d m v n i line ds : forall F p so ch o tok, (length l <= 4)%nat -> is_s32 n -> 0 <= p -> p + Z.of_nat (length ds) < n ->
  has F i o (Some line) (Some tok) -> Forall digit ds -> (forall j c, ds !! j = Some c -> line !! (Z.to_nat p + j)%nat = Some c) ->
  exists F' so' ch', rtc step
    (mkSys (W F (sv_table inp l p (Z.of_nat (length tok)) r) x y z d) m (mkSv S43 (base l) (base l + 1) so false n p ch) v)
    (mkSys (W F' (sv_table inp l (p + Z.of_nat (length ds)) (Z.of_nat (length (tok ++ ds))) r) x y z d) m
      (mkSv S43 (base l) (base l + 1) so' false n (p + Z.of_nat (length ds)) ch') v) /\
    has F' i (o ++ ds) (Some line) (Some (tok ++ ds)).
Proof.
  induction ds as [|c ds IH]; intros F p so ch o tok Hl Hn Hp Hlt Hh Hd Hline.
  - exists F, so, ch. cbn [length Z.of_nat]. rewrite !app_nil_r, Z.add_0_r. done.
  - apply Forall_cons_1 in Hd as [Hc Hd]. cbn [length] in Hlt. pose proof (Hline 0%nat c eq_refl) as Hc0. rewrite Nat.add_0_r in Hc0.
    destruct (sinhvien_char F inp l p r x y z d m v so n ch c i o line tok) as (F1 & Hrun1 & Hh1); [done|done|done|done|unfold digit in Hc; lia|].
    destruct (IH F1 (p + 1) (base l + 2) c (o ++ [c]) (tok ++ [c])) as (F2 & so2 & ch2 & Hrun2 & Hh2); [done|done|lia|lia|done|done| |].
    { intros j e Hj. rewrite <- (Hline (S j) e Hj). f_equal. lia. }
    exists F2, so2, ch2. rewrite <- !app_assoc in *. cbn [app length] in *. split; [|exact Hh2]. etransitivity; [exact Hrun1|].
    rewrite sv_last_char by (done || lia). unfold sv_turn. fields. rewrite sv_next_char by (done || lia).
    replace (p + Z.of_nat (S (length ds))) with (p + 1 + Z.of_nat (length ds)) by lia. exact Hrun2.
Qed.

Lemma slice_lookup {A} (pre mid post : list A) j c : mid !! j = Some c -> (pre ++ mid ++ post) !! (length pre + j)%nat = Some c.
Proof. intros Hj. rewrite lookup_app_r by lia. replace (length pre + j - length pre)%nat with j by lia. by apply lookup_app_l_Some. Qed.

(** The last amount of the line. *)
Lemma sinhvien_last F inp l r d m n so ch vv vo t1 t2 tt ps vch i o line pre a : (length l <= 4)%nat -> is_s32 n ->
  has F i o (Some line) (Some []) -> well_formed a -> line = pre ++ a -> n = Z.of_nat (length line) ->
  0 <= t1 -> 0 <= t2 -> t1 + amount a < 2 ^ 31 -> t2 + amount a < 2 ^ 31 ->
  exists F' so' ch' vv' vo' tt' ps' vch', rtc step
    (mkSys (W F (sv_table inp l (Z.of_nat (length pre)) 0 r) 0 0 0 d) m (mkSv S43 (base l) (base l + 1) so false n (Z.of_nat (length pre)) ch) (mkVn V13 vv vo t1 t2 tt ps vch))
    (mkSys (W F' (sv_table inp l n 0 r) 0 0 0 d) m (mkSv S92 (base l) (base l + 1) so' true n n ch') (mkVn V13 vv' vo' 0 0 tt' ps' vch')) /\
    has F' i (o ++ a ++ tap_text t1 t2 (amount a) ++ separator true) (Some line) (Some []).
Proof.
  intros Hl Hn Hh [Hne Hd] Hline En H1 H2 M1 M2. destruct (exists_last Hne) as (ds & c & ->). rewrite Forall_app, Forall_singleton in Hd. destruct Hd as [Hds Hc].
  assert (Hlen : n = Z.of_nat (length pre) + Z.of_nat (length ds) + 1) by (rewrite En, Hline, !length_app; cbn; lia).
  destruct (sinhvien_digits inp l r 0 0 0 d m (mkVn V13 vv vo t1 t2 tt ps vch) n i line ds F (Z.of_nat (length pre)) so ch o [])
    as (F1 & so1 & ch1 & Hrun1 & Hh1); [done|done|lia|lia|done|done| |].
  { intros j e Hj. rewrite Nat2Z.id, Hline. by apply slice_lookup. }
  cbn [app length Z.of_nat] in Hrun1, Hh1. set (p := Z.of_nat (length pre) + Z.of_nat (length ds)) in *.
  destruct (sinhvien_char F1 inp l p r 0 0 0 d m (mkVn V13 vv vo t1 t2 tt ps vch) so1 n ch1 c i (o ++ ds) line ds) as (F2 & Hrun2 & Hh2); [done|lia|done| |unfold digit in Hc; lia|].
  { rewrite Hline, app_assoc. replace (Z.to_nat p) with (length (pre ++ ds)) by (rewrite length_app; lia). by apply list_lookup_middle. }
  assert (Hh3 := has_voinuoc _ _ _ _ _ ((ds ++ [c]) ++ [42]) Hh2).
  destruct (sinhvien_turn (<[voinuoc_txt := (ds ++ [c]) ++ [42]]> F2) inp l (Service.mkD sinhvien_txt (p + 1) 1) (Z.of_nat (length ((ds ++ [c]) ++ [42]))) r d m
    (base l + 2) true n p c vv vo t1 t2 tt ps vch i ((o ++ ds) ++ [c]) line (ds ++ [c]) true) as (F4 & vv' & vo' & tt' & ps' & vch' & Hrun4 & Hh4); [done|done| |done..|].
  { by rewrite Forall_app, Forall_singleton. }
  exists F4, (base l + 2), c, vv', vo', tt', ps', vch'. rewrite <- !app_assoc in *. split; [|exact Hh4].
  etransitivity; [exact Hrun1|]. etransitivity; [exact Hrun2|]. rewrite sv_last_end by (done || lia). unfold sv_table.
  eapply go_sinhvien; [reflexivity|go_file ltac:(eapply (eff_write _ _ _ _ voinuoc_txt (ds ++ [c]))); [unfold base; lia|slot|apply Hh2|done|done|slot']|]. fields.
  rewrite <- app_assoc. etransitivity; [exact Hrun4|]. rewrite sv_next_end by (done || lia). replace (p + 1) with n by lia. reflexivity.
Qed.

(** All students of a line. *)
Lemma sinhvien_serves inp l r d m n i line amounts : forall F pre so ch vv vo t1 t2 tt ps vch o, (length l <= 4)%nat -> is_s32 n ->
  has F i o (Some line) (Some []) -> amounts <> [] -> Forall well_formed amounts -> line = pre ++ line_of amounts -> n = Z.of_nat (length line) ->
  0 <= t1 -> 0 <= t2 -> t1 + water amounts < 2 ^ 31 -> t2 + water amounts < 2 ^ 31 ->
  exists F' so' ch' vv' vo' tt' ps' vch', rtc step
    (mkSys (W F (sv_table inp l (Z.of_nat (length pre)) 0 r) 0 0 0 d) m (mkSv S43 (base l) (base l + 1) so false n (Z.of_nat (length pre)) ch) (mkVn V13 vv vo t1 t2 tt ps vch))
    (mkSys (W F' (sv_table inp l n 0 r) 0 0 0 d) m (mkSv S92 (base l) (base l + 1) so' true n n ch') (mkVn V13 vv' vo' 0 0 tt' ps' vch')) /\
    has F' i (o ++ serve t1 t2 amounts) (Some line) (Some []).
Proof.
  induction amounts as [|a amounts IH]; intros F pre so ch vv vo t1 t2 tt ps vch o Hl Hn Hh Hne Hwf Hline En H1 H2 M1 M2; [done|].
  apply Forall_cons_1 in Hwf as [Ha Hwf]. pose proof Ha as [_ Hd]. pose proof (amount_nonneg a Hd) as Hv. pose proof (water_nonneg amounts Hwf) as Hw. cbn [water foldr] in M1, M2.
  fold (water amounts) in M1, M2. destruct amounts as [|b rest].
  { cbn [serve line_of] in *. rewrite bool_decide_true, app_nil_r by done. apply (sinhvien_last F inp l r d m n so ch vv vo t1 t2 tt ps vch i o line pre a); done || (cbn in *; lia). }
  change (line_of (a :: b :: rest)) with (a ++ [32] ++ line_of (b :: rest)) in Hline. pose proof (line_of_nonempty b rest (Forall_inv Hwf)) as Hpos.
  assert (Hlen : n = Z.of_nat (length pre) + Z.of_nat (length a) + 1 + Z.of_nat (length (line_of (b :: rest)))) by (rewrite En, Hline, !length_app; cbn [length]; lia).
  destruct (sinhvien_digits inp l r 0 0 0 d m (mkVn V13 vv vo t1 t2 tt ps vch) n i line a F (Z.of_nat (length pre)) so ch o [])
    as (F1 & so1 & ch1 & Hrun1 & Hh1); [done|done|lia|lia|done|done| |].
  { intros j e Hj. rewrite Nat2Z.id, Hline. by apply slice_lookup. }
  cbn [app length Z.of_nat] in Hrun1, Hh1. set (p := Z.of_nat (length pre) + Z.of_nat (length a)) in *.
  assert (Hsp : line !! Z.to_nat p = Some 32).
  { rewrite Hline, app_assoc. replace (Z.to_nat p) with (length (pre ++ a)) by (rewrite length_app; lia). by apply list_lookup_middle. }
  destruct (sinhvien_turn F1 inp l (Service.mkD sinhvien_txt (p + 1) 1) (Z.of_nat (length a)) r d m so1 true n p 32 vv vo t1 t2 tt ps vch i (o ++ a) line a false)
    as (F4 & vv4 & vo4 & tt4 & ps4 & vch4 & Hrun4 & Hh4); [done|by rewrite app_nil_r|done|done|done|lia|lia|].
  destruct (IH F4 (pre ++ a ++ [32]) so1 32 vv4 vo4 (tap1_after t1 t2 (amount a)) (tap2_after t1 t2 (amount a)) tt4 ps4 vch4
    ((o ++ a) ++ tap_text t1 t2 (amount a) ++ separator false)) as (F5 & so5 & ch5 & vv5 & vo5 & tt5 & ps5 & vch5 & Hrun5 & Hh5); try done.
  1: by rewrite Hline, <- !app_assoc.
  1-4: unfold tap1_after, tap2_after; destruct (t1 <=? t2); lia.
  exists F5, so5, ch5, vv5, vo5, tt5, ps5, vch5. split; [|by cbn [serve]; rewrite <- !app_assoc in *].
  etransitivity; [exact Hrun1|]. unfold sv_table.
  eapply go_sinhvien; [reflexivity|go_file ltac:(eapply (eff_read _ _ _ _ sinhvien_txt line)); [unfold base; lia|slot|apply Hh1|done|slot']|]. fields. cbn [Z.eqb Pos.eqb negb].
  rewrite sv_last_char by (done || lia). unfold sv_turn. fields. etransitivity; [exact Hrun4|]. rewrite sv_next_char by (done || lia).
  replace (Z.of_nat (length (pre ++ a ++ [32]))) with (p + 1) in Hrun5 by (rewrite !length_app; cbn [length]; lia). exact Hrun5.
Qed.

(** ** A time point *)

(** The main program copies a line of input.txt to sinhvien.txt. *)
Lemma main_copies l r x y z d s v tp i o vn rest : forall F q ch dn, (length l <= 6)%nat -> 0 <= q ->
  has F i o (Some dn) vn -> (forall j c, rest !! j = Some c -> i !! (Z.to_nat q + j)%nat = Some c) -> 10 ∉ rest ->
  i !! (Z.to_nat q + length rest)%nat = Some 10 ->
  exists F', rtc step
    (mkSys (W F (tbl (Some (Service.mkD input_txt q 1)) l (Some (Service.mkD sinhvien_txt (Z.of_nat (length dn)) 0)) None None r) x y z d) (mkMain M56 tp ch 2 (base l)) s v)
    (mkSys (W F' (tbl (Some (Service.mkD input_txt (q + Z.of_nat (length rest) + 1) 1)) l (Some (Service.mkD sinhvien_txt (Z.of_nat (length (dn ++ rest))) 0)) None None r) x y z d)
      (mkMain M61 tp 10 2 (base l)) s v) /\
    has F' i o (Some (dn ++ rest)) vn.
Proof.
  induction rest as [|c rest IH]; intros F q ch dn Hl Hq Hh Hi Hn Hend.
  - exists F. rewrite app_nil_r. split; [|done]. cbn [length] in Hend. rewrite Nat.add_0_r in Hend.
    eapply go_main; [reflexivity|go_file ltac:(eapply (eff_read _ _ _ _ input_txt i)); [lia|slot|apply Hh|done|slot']|]. fields. cbn [length Z.of_nat].
    rewrite Z.add_0_r. reflexivity.
  - apply not_elem_of_cons in Hn as [Hc Hn]. pose proof (Hi 0%nat c eq_refl) as Hc0. rewrite Nat.add_0_r in Hc0. cbn [length] in Hend.
    assert (Hh1 := has_sinhvien _ _ _ _ _ (dn ++ [c]) Hh).
    destruct (IH (<[sinhvien_txt := dn ++ [c]]> F) (q + 1) c (dn ++ [c])) as (F' & Hrun & Hh'); [done|lia|done| |done| |].
    { intros j e Hj. rewrite <- (Hi (S j) e Hj). f_equal. lia. }
    { rewrite <- Hend. f_equal. lia. }
    exists F'. rewrite <- app_assoc in Hh', Hrun. split; [|exact Hh'].
    eapply go_main; [reflexivity|go_file ltac:(eapply (eff_read _ _ _ _ input_txt i)); [lia|slot|apply Hh|done|slot']|]. fields.
    rewrite (proj2 (Z.eqb_neq c 10)) by done. cbn [Z.ltb Z.compare Pos.compare Pos.compare_cont orb].
    eapply go_main; [reflexivity|go_file ltac:(eapply (eff_write _ _ _ _ sinhvien_txt dn)); [unfold base; lia|slot|apply Hh|done|done|slot']|]. fields.
    cbn [length]. replace (q + Z.of_nat (S (length rest)) + 1) with (q + 1 + Z.of_nat (length rest) + 1) by lia. exact Hrun.
Qed.

Lemma digits_no_newline a : Forall digit a -> 10 ∉ a.
Proof. intros Ha Hin. apply (proj1 (list.Forall_forall _ _) Ha) in Hin. unfold digit in Hin. lia. Qed.
Lemma line_no_newline amounts : Forall well_formed amounts -> 10 ∉ line_of amounts.
Proof.
  induction 1 as [|a rest [_ Ha] Hr IH]; [apply not_elem_of_nil|]. apply digits_no_newline in Ha. destruct rest as [|b rest]; [done|].
  change (line_of (a :: b :: rest)) with (a ++ [32] ++ line_of (b :: rest)). rewrite !elem_of_app, list_elem_of_singleton. intros [?|[?|?]]; done.
Qed.

(** [sinhvien] gets the turn and opens its files. *)
Lemma sinhvien_opens F inp l r d m sv0 v i o line vn : (length l <= 6)%nat -> has F i o (Some line) vn -> sv_at sv0 = S14 -> (0 < length line)%nat ->
  exists so ch, rtc step
    (mkSys (W F (tbl (Some inp) l None None None r) 0 1 0 d) m sv0 v)
    (mkSys (W (<[voinuoc_txt := []]> F) (sv_table inp l 0 0 r) 0 0 0 d) m (mkSv S43 (base l) (base l + 1) so false (Z.of_nat (length line)) 0 ch) v).
Proof.
  intros Hl Hh Hat Hpos. assert (Hh1 := has_voinuoc _ _ _ _ _ [] Hh). destruct sv0 as [at0 s1 s2 s3 gw fl fp ch]. cbn [sv_at] in Hat. subst at0. exists s3, ch.
  eapply go_sinhvien; [reflexivity|by apply perform_wait|]. fields.
  eapply go_sinhvien; [reflexivity|go_file ltac:(eapply (eff_open _ _ _ (base l) sinhvien_txt 1 _ eq_refl)); [apply Hh|apply free_a; lia|unfold base; lia|slot']|]. fields.
  rewrite (proj2 (Z.eqb_neq (base l) (-1))) by (unfold base; lia).
  eapply go_sinhvien; [reflexivity|go_file ltac:(eapply (eff_seek_end _ _ _ _ sinhvien_txt line)); [unfold base; lia|slot|apply Hh|slot']|]. fields.
  eapply go_sinhvien; [reflexivity|go_file ltac:(eapply (eff_seek_start _ _ _ _ sinhvien_txt line)); [unfold base; lia|slot|apply Hh|slot']|]. fields.
  eapply go_sinhvien; [reflexivity|go_file ltac:(reflexivity)|]. fields. cbn [Z.eqb Service.files].
  eapply go_sinhvien; [reflexivity|go_file ltac:(eapply (eff_open _ _ _ (base l + 1) voinuoc_txt 0 _ eq_refl)); [apply Hh1|apply free_b; lia|unfold base; lia|slot']|]. fields.
  rewrite (proj2 (Z.eqb_neq (base l + 1) (-1))) by (unfold base; lia). unfold sv_loop. fields. rewrite (proj2 (Z.ltb_lt 0 _)) by lia. reflexivity.
Qed.

Lemma day_line_nonempty amounts : amounts <> [] -> Forall well_formed amounts -> (0 < length (line_of amounts))%nat.
Proof. destruct amounts as [|a rest]; [done|]. intros _ Hwf. exact (line_of_nonempty a rest (Forall_inv Hwf)). Qed.

(** [sinhvien] from the signal of the main program to its answer. *)
Lemma sinhvien_time_point F inp l r d m sv0 vv vo tt ps vch i o amounts vn : (length l <= 4)%nat -> has F i o (Some (line_of amounts)) vn -> sv_at sv0 = S14 ->
  amounts <> [] -> Forall well_formed amounts -> water amounts < 2 ^ 31 -> Z.of_nat (length (line_of amounts)) < 2 ^ 31 ->
  exists F' sv' vv' vo' tt' ps' vch', rtc step
    (mkSys (W F (tbl (Some inp) l None None None r) 0 1 0 d) m sv0 (mkVn V13 vv vo 0 0 tt ps vch))
    (mkSys (W F' (sv_table inp l (Z.of_nat (length (line_of amounts))) 0 r) 1 0 0 d) m sv' (mkVn V13 vv' vo' 0 0 tt' ps' vch')) /\
    sv_at sv' = S14 /\ has F' i (o ++ serve 0 0 amounts) (Some (line_of amounts)) (Some []).
Proof.
  intros Hl Hh Hat Hne Hwf Hw Hlen. set (line := line_of amounts) in *. assert (Hh1 := has_voinuoc _ _ _ _ _ [] Hh).
  destruct (sinhvien_opens F inp l r d m sv0 (mkVn V13 vv vo 0 0 tt ps vch) i o line vn) as (so & ch & Hopen); [lia|done|done|by apply day_line_nonempty|].
  destruct (sinhvien_serves inp l r d m (Z.of_nat (length line)) i line amounts (<[voinuoc_txt := []]> F) [] so ch vv vo 0 0 tt ps vch o)
    as (F' & so' & ch' & vv' & vo' & tt' & ps' & vch' & Hrun & Hh'); [done|unfold is_s32; lia|done|done|done|done|done|lia|lia|lia|lia|].
  cbn [length Z.of_nat] in Hrun. exists F'. eexists _, vv', vo', tt', ps', vch'. split; [|split; [|exact Hh']].
  - etransitivity; [exact Hopen|]. etransitivity; [exact Hrun|]. eapply go_sinhvien; [reflexivity|apply perform_signal|]. fields. reflexivity.
  - reflexivity.
Qed.

(** The main program passes a line on. *)
Lemma main_passes F l r d tp ch ms sv0 v i o line pre post sn vn : (length l <= 6)%nat -> has F i o sn vn -> 10 ∉ line -> i = pre ++ line ++ [10] ++ post ->
  exists F', rtc step
    (mkSys (W F (tbl (Some (Service.mkD input_txt (Z.of_nat (length pre)) 1)) l None None None r) 0 0 0 d) (mkMain M41 tp ch 2 ms) sv0 v)
    (mkSys (W F' (tbl (Some (Service.mkD input_txt (Z.of_nat (length (pre ++ line ++ [10]))) 1)) l None None None r) 0 1 0 d) (mkMain M63 tp 10 2 (base l)) sv0 v) /\
    has F' i o (Some line) vn.
Proof.
  intros Hl Hh Hnl Hi. assert (Hh1 := has_sinhvien _ _ _ _ _ [] Hh). set (q := Z.of_nat (length pre)).
  destruct (main_copies l r 0 0 0 d sv0 v tp i o vn line (<[sinhvien_txt := []]> F) q ch []) as (F1 & Hrun1 & Hh2); [lia|lia|done| |done| |].
  { intros j c Hj. unfold q. rewrite Nat2Z.id, Hi. by apply slice_lookup. }
  { unfold q. rewrite Nat2Z.id, Hi, lookup_app_r by lia. replace (length pre + length line - length pre)%nat with (length line) by lia. by apply list_lookup_middle. }
  cbn [app length Z.of_nat] in Hrun1, Hh2.
  replace (q + Z.of_nat (length line) + 1) with (Z.of_nat (length (pre ++ line ++ [10]))) in Hrun1 by (rewrite !length_app; cbn [length]; lia).
  exists F1. split; [|exact Hh2].
  eapply go_main; [reflexivity|go_file ltac:(reflexivity)|]. fields. cbn [Z.eqb Service.files].
  eapply go_main; [reflexivity|go_file ltac:(eapply (eff_open _ _ _ (base l) sinhvien_txt 0 _ eq_refl)); [apply Hh1|apply free_a; lia|unfold base; lia|slot']|]. fields.
  rewrite (proj2 (Z.eqb_neq (base l) (-1))) by (unfold base; lia). etransitivity; [exact Hrun1|].
  eapply go_main; [reflexivity|go_file ltac:(eapply eff_close); [unfold base; lia|slot|slot']|]. fields.
  eapply go_main; [reflexivity|apply perform_signal|]. fields. reflexivity.
Qed.

(** A time point: the line of [amounts] goes through the three processes, two
    descriptors stay open. *)
Lemma time_point F l r d tp ch ms sv0 vv vo tt ps vch i o amounts pre post sn vn : (length l <= 4)%nat -> has F i o sn vn -> sv_at sv0 = S14 ->
  amounts <> [] -> Forall well_formed amounts -> water amounts < 2 ^ 31 -> Z.of_nat (length (line_of amounts)) < 2 ^ 31 ->
  i = pre ++ line_of amounts ++ [10] ++ post ->
  exists F' sv' vv' vo' tt' ps' vch' y1 y2, rtc step
    (mkSys (W F (tbl (Some (Service.mkD input_txt (Z.of_nat (length pre)) 1)) l None None None (S (S r))) 0 0 0 d) (mkMain M41 tp ch 2 ms) sv0 (mkVn V13 vv vo 0 0 tt ps vch))
    (mkSys (W F' (tbl (Some (Service.mkD input_txt (Z.of_nat (length (pre ++ line_of amounts ++ [10]))) 1)) (l ++ [y1; y2]) None None None r) 0 0 0 d)
      (main_loop (mkMain M63 tp 10 2 (base l))) sv' (mkVn V13 vv' vo' 0 0 tt' ps' vch')) /\
    sv_at sv' = S14 /\ has F' i (o ++ serve 0 0 amounts) (Some (line_of amounts)) (Some []).
Proof.
  intros Hl Hh Hat Hne Hwf Hw Hlen Hi. set (line := line_of amounts) in *. set (inp := Service.mkD input_txt (Z.of_nat (length (pre ++ line ++ [10]))) 1).
  destruct (main_passes F l (S (S r)) d tp ch ms sv0 (mkVn V13 vv vo 0 0 tt ps vch) i o line pre post sn vn) as (F1 & Hrun1 & Hh2); [lia|done|by apply line_no_newline|done|].
  destruct (sinhvien_time_point F1 inp l (S (S r)) d (mkMain M63 tp 10 2 (base l)) sv0 vv vo tt ps vch i o amounts vn)
    as (F' & sv' & vv' & vo' & tt' & ps' & vch' & Hrun2 & Hat' & Hh'); [done..|].
  exists F', sv', vv', vo', tt', ps', vch'. eexists _, _. split; [|split; [exact Hat'|exact Hh']].
  etransitivity; [exact Hrun1|]. etransitivity; [exact Hrun2|].
  unfold sv_table. rewrite tbl_leak. eapply go_main; [reflexivity|by apply perform_wait|]. fields. reflexivity.
Qed.

(** ** The whole input *)

Definition input_of (number : list Z) (days : list (list (list Z))) : list Z :=
  number ++ [10] ++ flat_map (fun amounts => line_of amounts ++ [10]) days.
Definition expected (days : list (list (list Z))) : list Z := flat_map (serve 0 0) days.

Definition day_ok (amounts : list (list Z)) : Prop :=
  amounts <> [] /\ Forall well_formed amounts /\ water amounts < 2 ^ 31 /\ Z.of_nat (length (line_of amounts)) < 2 ^ 31.

(** The loop of the main program, for the first [days] of the time points. *)
Lemma time_points d days : forall F l r k m0 ch ms sv0 vv vo tt ps vch i o pre post sn vn,
  (length l + 2 * length days <= 6)%nat -> is_s32 (Z.of_nat (length days + k)) -> has F i o sn vn -> sv_at sv0 = S14 -> Forall day_ok days ->
  i = pre ++ flat_map (fun amounts => line_of amounts ++ [10]) days ++ post ->
  exists F' l' m' ch' ms' sv' vv' vo' tt' ps' vch' sn' vn', rtc step
    (mkSys (W F (tbl (Some (Service.mkD input_txt (Z.of_nat (length pre)) 1)) l None None None (2 * length days + r)) 0 0 0 d)
      (main_loop (mkMain m0 (Z.of_nat (length days + k)) ch 2 ms)) sv0 (mkVn V13 vv vo 0 0 tt ps vch))
    (mkSys (W F' (tbl (Some (Service.mkD input_txt (Z.of_nat (length (pre ++ flat_map (fun amounts => line_of amounts ++ [10]) days))) 1)) l' None None None r) 0 0 0 d)
      (main_loop (mkMain m' (Z.of_nat k) ch' 2 ms')) sv' (mkVn V13 vv' vo' 0 0 tt' ps' vch')) /\
    length l' = (length l + 2 * length days)%nat /\ sv_at sv' = S14 /\ has F' i (o ++ expected days) sn' vn'.
Proof.
  induction days as [|amounts days IH]; intros F l r k m0 ch ms sv0 vv vo tt ps vch i o pre post sn vn Hl Hk Hh Hat Hok Hi.
  - exists F, l, m0, ch, ms, sv0, vv, vo, tt, ps, vch, sn, vn. cbn [length flat_map expected Nat.mul Nat.add]. rewrite !app_nil_r, Nat.add_0_r. done.
  - apply Forall_cons_1 in Hok as [(Hne & Hwf & Hw & Hlen) Hok]. cbn [length flat_map] in *. unfold is_s32 in Hk.
    destruct (time_point F l (2 * length days + r) d (Z.of_nat (length days + k)) ch ms sv0 vv vo tt ps vch i o amounts pre (flat_map (fun a => line_of a ++ [10]) days ++ post) sn vn)
      as (F1 & sv1 & vv1 & vo1 & tt1 & ps1 & vch1 & y1 & y2 & Hrun1 & Hat1 & Hh1); [lia|done..|by rewrite Hi, <- !app_assoc|].
    destruct (IH F1 (l ++ [y1; y2]) r k M63 10 (base l) sv1 vv1 vo1 tt1 ps1 vch1 i (o ++ serve 0 0 amounts) (pre ++ line_of amounts ++ [10]) post (Some (line_of amounts)) (Some []))
      as (F' & l' & m' & ch' & ms' & sv' & vv' & vo' & tt' & ps' & vch' & sn' & vn' & Hrun & Hl' & Hat' & Hh'); [rewrite length_app; cbn; lia|unfold is_s32; lia|done..|by rewrite Hi, <- !app_assoc|].
    exists F', l', m', ch', ms', sv', vv', vo', tt', ps', vch', sn', vn'. rewrite length_app in Hl'. cbn [length] in Hl'.
    split; [|split; [lia|]; split; [done|]; unfold expected in *; cbn [flat_map]; by rewrite app_assoc].
    replace (pre ++ (line_of amounts ++ [10]) ++ flat_map (fun a => line_of a ++ [10]) days) with ((pre ++ line_of amounts ++ [10]) ++ flat_map (fun a => line_of a ++ [10]) days)
      by (by rewrite <- !app_assoc).
    etransitivity; [|exact Hrun]. unfold main_loop at 1. fields. rewrite (proj2 (Z.eqb_neq (Z.of_nat (S (length days) + k)) 0)) by lia. cbn [negb].
    rewrite s32_small by (unfold is_s32; lia). replace (Z.of_nat (S (length days) + k) - 1) with (Z.of_nat (length days + k)) by lia.
    replace (2 * S (length days) + r)%nat with (S (S (2 * length days + r))) by lia. exact Hrun1.
Qed.

(** Before all processes are started. *)
Definition W0 (F : gmap (list Z) (list Z)) (T : list (option Service.descriptor)) : world := mkWorld (Service.mk F T) (Some 0) (Some 0) (Some 0) false false [] false.

Lemma main_first w m s v cl k w' r bs z : halted w = false -> code_main m = Some (cl, k) -> perform exec w cl = Some (w', r, bs) ->
  rtc step (mkSys w' (k r bs) s v) z -> rtc step (mkSys w m s v) z.
Proof. intros Hh Hc Hp. apply rtc_l. exists Main. unfold step_of. cbn [shared main on negb]. rewrite Hh, Hc. cbn [orb perform_next]. by rewrite Hp. Qed.

Lemma perform_exec w p : exec p <> -1 -> perform exec w (Exec p) = Some (start w p, exec p, []).
Proof. intros He. cbn [perform]. by rewrite (proj2 (Z.eqb_neq _ _) He). Qed.

Lemma perform_files0 F T cl F' T' r bs : effect (Service.mk F T) cl = Some (Service.mk F' T', r, bs) ->
  perform exec (W0 F T) cl = Some (W0 F' T', r, bs).
Proof.
  destruct cl; try done; cbn [effect perform W0 files].
  1-3, 5-6: destruct (Service.CreateFile _ _) || destruct (Service.Open _ _ _) || destruct (Service.Close _ _) || destruct (Service.Write _ _ _)
    || destruct (Service.Seek _ _ _); by intros [= -> <- <-].
  destruct (Service.Read _ _ _) as [[? ?] ?]. by intros [= -> -> ->].
Qed.

(** The number of time points. *)
Lemma main_reads F l r s v ms i o sn vn rest : forall dn ch, (length l <= 9)%nat -> has F i o sn vn -> Forall digit (dn ++ rest) -> amount (dn ++ rest) < 2 ^ 31 ->
  (forall j c, rest !! j = Some c -> i !! (length dn + j)%nat = Some c) -> i !! (length dn + length rest)%nat = Some 10 ->
  rtc step
    (mkSys (W0 F (tbl (Some (Service.mkD input_txt (Z.of_nat (length dn)) 1)) l None None None r)) (mkMain M21 (amount dn) ch 2 ms) s v)
    (mkSys (W0 F (tbl (Some (Service.mkD input_txt (Z.of_nat (length (dn ++ rest)) + 1) 1)) l None None None r)) (mkMain M27 (amount (dn ++ rest)) 10 2 ms) s v).
Proof.
  induction rest as [|c rest IH]; intros dn ch Hl Hh Hd Hm Hi Hend.
  - rewrite app_nil_r. cbn [length] in Hend. rewrite Nat.add_0_r in Hend.
    eapply main_first; [done|reflexivity|apply perform_files0; fields; eapply (eff_read _ _ _ _ input_txt i); [lia|slot|apply Hh|by rewrite Nat2Z.id|slot']|]. fields. reflexivity.
  - replace (dn ++ c :: rest) with ((dn ++ [c]) ++ rest) in * by (by rewrite <- app_assoc). pose proof (Hi 0%nat c eq_refl) as Hc0. rewrite Nat.add_0_r in Hc0.
    assert (Hc : digit c) by (rewrite !Forall_app, Forall_singleton in Hd; apply Hd). unfold digit in Hc.
    assert (Hb : 0 <= amount (dn ++ [c]) <= amount ((dn ++ [c]) ++ rest)).
    { rewrite Forall_app in Hd. destruct Hd as [Hd1 Hd2]. pose proof (amount_nonneg _ Hd1). by split; [|apply amount_prefix]. }
    eapply main_first; [done|reflexivity|apply perform_files0; fields; eapply (eff_read _ _ _ _ input_txt i); [lia|slot|apply Hh|by rewrite Nat2Z.id|slot']|]. fields.
    rewrite (proj2 (Z.eqb_neq c 10)), (proj2 (Z.leb_le 48 c)), (proj2 (Z.leb_le c 57)) by lia. cbn [andb]. rewrite <- amount_app, s32_small by (unfold is_s32; lia).
    replace (Z.of_nat (length dn) + 1) with (Z.of_nat (length (dn ++ [c]))) by (rewrite length_app; cbn; lia).
    apply IH; [done|done|done|done| |].
    + intros j e Hj. rewrite length_app. cbn [length]. rewrite <- (Hi (S j) e Hj). f_equal. lia.
    + rewrite <- Hend, length_app. cbn [length]. f_equal. lia.
Qed.

Definition empty_slots : list (option Service.descriptor) := replicate 15 None.
Definition output (s : system) : option (list Z) := Service.files (files (shared s)) !! output_txt.

Section start.
Context (He1 : exec Sinhvien <> -1) (He2 : exec Voinuoc <> -1).
Context (F : gmap (list Z) (list Z)) (number : list Z) (days : list (list (list Z))).
Context (Hi : F !! input_txt = Some (input_of number days)) (Hd : Forall digit number) (Hn : amount number = Z.of_nat (length days)).
Context (Hs32 : is_s32 (Z.of_nat (length days))).

(** Up to the loop of the main program. *)
Lemma run_to_loop : let F1 := <[output_txt := []]> F in
  has F1 (input_of number days) [] (F !! sinhvien_txt) (F !! voinuoc_txt) /\
  rtc step (initial (Service.mk F empty_slots))
    (mkSys (W F1 (tbl (Some (Service.mkD input_txt (Z.of_nat (length (number ++ [10]))) 1)) [] None None None 9) 0 0 0 [])
      (main_loop (mkMain M33 (Z.of_nat (length days)) 10 2 0)) sinhvien_start voinuoc_start).
Proof.
  intros F1. set (i := input_of number days) in *. unfold is_s32 in Hs32.
  assert (Hh : has F1 i [] (F !! sinhvien_txt) (F !! voinuoc_txt)) by (unfold has, F1; by rewrite lookup_insert_eq, !lookup_insert_ne). split; [exact Hh|].
  assert (Hread := main_reads F1 [] 9 sinhvien_start voinuoc_start 0 i [] (F !! sinhvien_txt) (F !! voinuoc_txt) number [] 48).
  specialize (Hread ltac:(cbn; lia) Hh Hd ltac:(cbn [app]; lia)). cbn [app length Nat.add Z.of_nat] in Hread. change (amount []) with 0 in Hread.
  unfold initial. eapply main_first; [done|reflexivity|reflexivity|]. cbn. eapply main_first; [done|reflexivity|reflexivity|]. cbn.
  eapply main_first; [done|reflexivity|reflexivity|]. cbn [code_main main_goto main_at Z.eqb sem]. fold (W0 F empty_slots).
  eapply main_first; [done|reflexivity|apply perform_files0; reflexivity|]. cbn [Z.eqb Service.files]. fold F1.
  eapply main_first; [done|reflexivity|apply perform_files0; eapply (eff_open F1 empty_slots _ 2 input_txt 1 _ eq_refl); [apply Hh|reflexivity|lia|reflexivity]|]. fields.
  cbn [Z.eqb]. etransitivity; [apply Hread|].
  - intros j c Hj. unfold i, input_of. by apply lookup_app_l_Some.
  - unfold i, input_of. by apply list_lookup_middle.
  - eapply main_first; [done|reflexivity|by apply perform_exec|]. cbn [code_main main_goto main_at]. rewrite (proj2 (Z.eqb_neq _ _) He1).
    eapply main_first; [done|reflexivity|by apply perform_exec|]. fields. rewrite (proj2 (Z.eqb_neq _ _) He2), Hn.
    change (start (start (W0 ?F ?T) Sinhvien) Voinuoc) with (W F T 0 0 0 []).
    replace (Z.of_nat (length number) + 1) with (Z.of_nat (length (number ++ [10]))) by (rewrite length_app; cbn; lia). reflexivity.
Qed.

Context (Hok : Forall day_ok days).

(** The time points that the table of open files has room for. *)
Lemma run_days todo rest : days = todo ++ rest -> (length todo <= 3)%nat ->
  exists F' l m0 ch ms sv' vv vo tt ps vch sn vn,
    rtc step (initial (Service.mk F empty_slots))
      (mkSys (W F' (tbl (Some (Service.mkD input_txt (Z.of_nat (length ((number ++ [10]) ++ flat_map (fun a => line_of a ++ [10]) todo))) 1)) l None None None (9 - 2 * length todo)) 0 0 0 [])
        (main_loop (mkMain m0 (Z.of_nat (length rest)) ch 2 ms)) sv' (mkVn V13 vv vo 0 0 tt ps vch)) /\
    length l = (2 * length todo)%nat /\ sv_at sv' = S14 /\ has F' (input_of number days) (expected todo) sn vn.
Proof.
  intros Et Hl. destruct run_to_loop as [Hh Hrun]. unfold is_s32 in Hs32. rewrite Et, length_app in Hs32.
  destruct (time_points [] todo (<[output_txt := []]> F) [] (9 - 2 * length todo) (length rest) M33 10 0 sinhvien_start 0 0 0 false 48 (input_of number days) []
    (number ++ [10]) (flat_map (fun a => line_of a ++ [10]) rest) (F !! sinhvien_txt) (F !! voinuoc_txt))
    as (F' & l' & m' & ch' & ms' & sv' & vv' & vo' & tt' & ps' & vch' & sn' & vn' & Hrun' & Hl' & Hat' & Hh');
    [cbn; lia|unfold is_s32; lia|exact Hh|done| | |].
  - rewrite Et in Hok. by apply Forall_app in Hok as [? _].
  - unfold input_of. rewrite Et, flat_map_app, <- !app_assoc. done.
  - exists F', l', m', ch', ms', sv', vv', vo', tt', ps', vch', sn', vn'. split; [|done]. etransitivity; [exact Hrun|].
    replace (2 * length todo + (9 - 2 * length todo))%nat with 9%nat in Hrun' by lia. rewrite Et, (length_app todo). exact Hrun'.
Qed.

Lemma whole_run : (length days <= 3)%nat ->
  exists z, rtc step (initial (Service.mk F empty_slots)) z /\ halted (shared z) = true /\ output z = Some (expected days).
Proof.
  intros Hmax. destruct (run_days days [] (eq_sym (app_nil_r days)) Hmax) as (F' & l & m0 & ch & ms & sv' & vv & vo & tt & ps & vch & sn & vn & Hrun & _ & _ & Hh).
  eexists. split; [|split; [|]]. 1: {
    etransitivity; [exact Hrun|]. unfold main_loop. fields. cbn [length Z.of_nat Z.eqb negb].
    eapply go_main; [reflexivity|go_file ltac:(eapply eff_close); [lia|slot|slot']|]. fields.
    eapply go_main; [reflexivity|reflexivity|]. fields. eapply main_first; [done|reflexivity|reflexivity|]. reflexivity. }
  - done.
  - apply Hh.
Qed.

End start.

(** C9: the water station works.  Let input.txt say that there are as many time
    points as lines follow, at most three, and let every line be the amounts of
    the students of a time point, separated by spaces.  Then the three programs,
    however their steps are interleaved, come to the call of [Halt] of the main
    program, and output.txt then has a line for every time point, with every
    student in his place and the tap that had less to do when he came. *)
Theorem water_station_correct F number days : exec Sinhvien <> -1 -> exec Voinuoc <> -1 -> F !! input_txt = Some (input_of number days) ->
  Forall digit number -> amount number = Z.of_nat (length days) -> (length days <= 3)%nat -> Forall day_ok days ->
  exists z, halted (shared z) = true /\ output z = Some (expected days) /\
    forall s, rtc step (initial (Service.mk F empty_slots)) s -> rtc step s z.
Proof.
  intros He1 He2 Hi Hd Hn Hmax Hok. destruct (whole_run He1 He2 F number days Hi Hd Hn ltac:(unfold is_s32; lia) Hok Hmax) as (z & Hz & Hh & Ho).
  exists z. split; [exact Hh|]. split; [exact Ho|]. intros s Hs.
  destruct (runs_converge exec _ s z (turn_initial _) Hs Hz) as [H|H]; [exact H|]. destruct H as [|z z' s [p Hp] _]; [reflexivity|].
  unfold step_of in Hp. by rewrite Hh in Hp.
Qed.

(** ** More than three time points *)

(** Descriptors above 9 are refused. *)
Section refused.
Context (F : gmap (list Z) (list Z)) (T : list (option Service.descriptor)) (id : Z) (Hid : 9 < id).

Lemma transfer_refused : Service.transfer (Service.mk F T) id = None.
Proof. unfold Service.transfer. by rewrite (proj2 (Z.ltb_lt 9 id)), orb_true_r by done. Qed.
Lemma eff_write_refused bs : effect (Service.mk F T) (Write bs id) = Some (Service.mk F T, -1, []).
Proof. cbn [effect]. unfold Service.Write. by rewrite transfer_refused. Qed.
Lemma eff_seek_refused p : effect (Service.mk F T) (Seek p id) = Some (Service.mk F T, Entry.SC_Seek, []).
Proof. cbn [effect]. unfold Service.Seek. by rewrite transfer_refused. Qed.
Lemma eff_close_high T' d : id <= 14 -> T !! Z.to_nat id = Some (Some d) -> <[Z.to_nat id := None]> T = T' -> effect (Service.mk F T) (Close id) = Some (Service.mk F T', 0, []).
Proof.
  intros H14 Hd <-. cbn [effect]. unfold Service.Close, Service.descriptor_of. rewrite (proj2 (Z.leb_le 0 id)), (proj2 (Z.leb_le id 14)) by lia.
  cbn [Service.slots andb]. by rewrite Hd.
Qed.

End refused.

(** A character is lost: nothing is written. *)
Lemma sinhvien_loses F inp l p q r x y z d m v so n ch c i o line vn :
  length l = 6%nat -> 0 <= p -> has F i o (Some line) vn -> line !! Z.to_nat p = Some c -> c <> 32 ->
  rtc step
    (mkSys (W F (sv_table inp l p q r) x y z d) m (mkSv S43 (base l) (base l + 1) so false n p ch) v)
    (mkSys (W F (sv_table inp l (p + 1) q r) x y z d) m (sv_last (mkSv S59 (base l) (base l + 1) (base l + 2) false n p c)) v).
Proof.
  intros Hl Hp Hh Hc Hne. assert (Hb : base l = 9) by (unfold base; lia). unfold sv_table.
  eapply go_sinhvien; [reflexivity|go_file ltac:(eapply (eff_read _ _ _ _ sinhvien_txt line)); [lia|slot|apply Hh|done|slot']|]. fields.
  rewrite (proj2 (Z.eqb_neq c 32)) by done. cbn [negb].
  eapply go_sinhvien; [reflexivity|go_file ltac:(apply eff_write_refused; lia)|]. fields.
  eapply go_sinhvien; [reflexivity|go_file ltac:(eapply (eff_open _ _ _ (base l + 2) output_txt 0 _ eq_refl)); [apply Hh|apply free_c; lia|lia|slot']|]. fields.
  rewrite (proj2 (Z.eqb_neq (base l + 2) (-1))) by lia.
  eapply go_sinhvien; [reflexivity|go_file ltac:(apply eff_seek_refused; lia)|]. fields.
  eapply go_sinhvien; [reflexivity|go_file ltac:(apply eff_write_refused; lia)|]. fields.
  eapply go_sinhvien; [reflexivity|go_file ltac:(eapply eff_close_high); [lia|lia|slot|slot']|]. fields. reflexivity.
Qed.

Lemma sinhvien_loses_digits F inp l q r x y z d m v n i o line vn ds : forall p so ch, length l = 6%nat -> is_s32 n -> 0 <= p -> p + Z.of_nat (length ds) < n ->
  has F i o (Some line) vn -> Forall digit ds -> (forall j c, ds !! j = Some c -> line !! (Z.to_nat p + j)%nat = Some c) ->
  exists so' ch', rtc step
    (mkSys (W F (sv_table inp l p q r) x y z d) m (mkSv S43 (base l) (base l + 1) so false n p ch) v)
    (mkSys (W F (sv_table inp l (p + Z.of_nat (length ds)) q r) x y z d) m (mkSv S43 (base l) (base l + 1) so' false n (p + Z.of_nat (length ds)) ch') v).
Proof.
  induction ds as [|c ds IH]; intros p so ch Hl Hn Hp Hlt Hh Hd Hline.
  - exists so, ch. cbn [length Z.of_nat]. by rewrite Z.add_0_r.
  - apply Forall_cons_1 in Hd as [Hc Hd]. cbn [length] in Hlt. pose proof (Hline 0%nat c eq_refl) as Hc0. rewrite Nat.add_0_r in Hc0.
    destruct (IH (p + 1) (base l + 2) c) as (so2 & ch2 & Hrun2); [done|done|lia|lia|done|done| |].
    { intros j e Hj. rewrite <- (Hline (S j) e Hj). f_equal. lia. }
    exists so2, ch2. etransitivity; [eapply (sinhvien_loses F inp l p q r x y z d m v so n ch c i o line vn); (done || unfold digit in Hc; lia)|].
    rewrite sv_last_char by (done || lia). unfold sv_turn. fields. rewrite sv_next_char by (done || lia). cbn [length].
    replace (p + Z.of_nat (S (length ds))) with (p + 1 + Z.of_nat (length ds)) by lia. exact Hrun2.
Qed.

(** The first amount of the line is lost, and the turn goes to [voinuoc]. *)
Lemma sinhvien_loses_amount F inp l q r x y z d m v n so ch i o vn a rest : length l = 6%nat -> is_s32 n ->
  has F i o (Some (line_of (a :: rest))) vn -> Forall well_formed (a :: rest) -> n = Z.of_nat (length (line_of (a :: rest))) ->
  exists p so' gw ch', rtc step
    (mkSys (W F (sv_table inp l 0 q r) x y z d) m (mkSv S43 (base l) (base l + 1) so false n 0 ch) v)
    (mkSys (W F (sv_table inp l p q r) x y z d) m (mkSv S70 (base l) (base l + 1) so' gw n (p - 1) ch') v).
Proof.
  intros Hl Hn Hh Hwf En. set (line := line_of (a :: rest)) in *. apply Forall_cons_1 in Hwf as [[Hne Hd] Hwf]. assert (Hb : base l = 9) by (unfold base; lia).
  destruct rest as [|b rest].
  - destruct (exists_last Hne) as (ds & c & ->). rewrite Forall_app, Forall_singleton in Hd. destruct Hd as [Hds Hc]. cbn [line_of] in line.
    assert (Hlen : n = Z.of_nat (length ds) + 1) by (rewrite En; unfold line; rewrite length_app; cbn; lia).
    destruct (sinhvien_loses_digits F inp l q r x y z d m v n i o line vn ds 0 so ch) as (so1 & ch1 & Hrun1); [done|done|lia|lia|done|done| |].
    { intros j e Hj. cbn. by apply lookup_app_l_Some. }
    exists (Z.of_nat (length ds) + 1), (base l + 2), true, c. etransitivity; [exact Hrun1|]. rewrite Z.add_0_l.
    etransitivity; [eapply (sinhvien_loses F inp l _ q r x y z d m v so1 n ch1 c i o line vn); [done|lia|done| |unfold digit in Hc; lia]|].
    { rewrite Nat2Z.id. by apply list_lookup_middle. }
    rewrite sv_last_end by (done || lia). eapply go_sinhvien; [reflexivity|go_file ltac:(apply eff_write_refused; lia)|]. fields. unfold sv_turn. fields.
    replace (Z.of_nat (length ds) + 1 - 1) with (Z.of_nat (length ds)) by lia. reflexivity.
  - pose proof (line_of_nonempty b rest (Forall_inv Hwf)) as Hpos. change line with (a ++ [32] ++ line_of (b :: rest)) in *.
    assert (Hlen : n = Z.of_nat (length a) + 1 + Z.of_nat (length (line_of (b :: rest)))) by (rewrite En, !length_app; cbn [length]; lia).
    destruct (sinhvien_loses_digits F inp l q r x y z d m v n i o line vn a 0 so ch) as (so1 & ch1 & Hrun1); [done|done|lia|lia|done|done| |].
    { intros j e Hj. cbn [Z.to_nat Nat.add]. by apply lookup_app_l_Some. }
    exists (Z.of_nat (length a) + 1), so1, true, 32. etransitivity; [exact Hrun1|]. rewrite Z.add_0_l. unfold sv_table.
    eapply go_sinhvien; [reflexivity|go_file ltac:(eapply (eff_read _ _ _ _ sinhvien_txt line)); [lia|slot|apply Hh| |slot']|].
    { rewrite Nat2Z.id. unfold line. by apply list_lookup_middle. }
    fields. cbn [Z.eqb Pos.eqb negb]. rewrite sv_last_char by (done || lia). unfold sv_turn. fields.
    replace (Z.of_nat (length a) + 1 - 1) with (Z.of_nat (length a)) by lia. reflexivity.
Qed.

(** [voinuoc] reads for ever from a descriptor that is refused, and the other
    processes wait for it. *)
Definition spins (s : system) : Prop := exists F T d m sv id vo t1 t2 tt,
  s = mkSys (W F T 0 0 0 d) m sv (mkVn V25 id vo t1 t2 tt false 0) /\ main_at m = M63 /\ sv_at sv = S72 /\ 9 < id.

Lemma spins_step s : spins s -> exists s', step s s' /\ spins s' /\ halted (shared s) = false /\ forall s'', step s s'' -> s'' = s'.
Proof.
  intros (F & T & d & m & sv & id & vo & t1 & t2 & tt & -> & Hm & Hsv & Hid).
  set (s' := mkSys (W F T 0 0 0 d) m sv (mkVn V25 id vo t1 t2 (s32 (tt * 10 + (0 - 48))) false 0)).
  assert (Hv : step_of exec Voinuoc (mkSys (W F T 0 0 0 d) m sv (mkVn V25 id vo t1 t2 tt false 0)) = Some s').
  { assert (Hp : perform exec (W F T 0 0 0 d) (Read id) = Some (W F T 0 0 0 d, -1, [])).
    { apply perform_files. cbn [effect]. unfold Service.Read. by rewrite transfer_refused. }
    unfold step_of. cbn [shared voinuoc W halted on orb negb voinuoc_on]. unfold code_voinuoc. cbn [vn_at perform_next vn_voinuoc]. fold (W F T 0 0 0 d). by rewrite Hp. }
  assert (H1 : step_of exec Main (mkSys (W F T 0 0 0 d) m sv (mkVn V25 id vo t1 t2 tt false 0)) = None) by (unfold step_of, code_main; cbn; by rewrite Hm).
  assert (H2 : step_of exec Sinhvien (mkSys (W F T 0 0 0 d) m sv (mkVn V25 id vo t1 t2 tt false 0)) = None) by (unfold step_of, code_sinhvien; cbn; by rewrite Hsv).
  exists s'. split; [by exists Voinuoc|]. split; [by repeat eexists|]. split; [done|]. intros s'' [[] Hs]; congruence.
Qed.

Lemma spins_for_ever s s' : spins s -> rtc step s s' -> spins s'.
Proof. intros Hs Hr. induction Hr as [|s s1 s' Hstep _ IH]; [done|]. apply IH. destruct (spins_step s Hs) as (s2 & _ & Hs2 & _ & Hu). by rewrite (Hu s1 Hstep). Qed.

(** The fourth time point. *)
Lemma run_to_spin F number days : exec Sinhvien <> -1 -> exec Voinuoc <> -1 -> F !! input_txt = Some (input_of number days) ->
  Forall digit number -> amount number = Z.of_nat (length days) -> is_s32 (Z.of_nat (length days)) -> (4 <= length days)%nat -> Forall day_ok days ->
  exists s, rtc step (initial (Service.mk F empty_slots)) s /\ spins s.
Proof.
  intros He1 He2 Hi Hd Hn Hs32 Hmin Hok. destruct days as [|d1 [|d2 [|d3 [|[|a amounts] days]]]]; try (cbn in Hmin; lia).
  { exfalso. by do 3 apply Forall_cons_1 in Hok as [_ Hok]; apply Forall_cons_1 in Hok as [(? & _) _]. }
  set (all := d1 :: d2 :: d3 :: (a :: amounts) :: days) in *.
  destruct (run_days He1 He2 F number all Hi Hd Hn Hs32 Hok [d1; d2; d3] ((a :: amounts) :: days) eq_refl ltac:(cbn; lia))
    as (F1 & l & m0 & ch & ms & sv1 & vv & vo & tt & ps & vch & sn & vn & Hrun1 & Hl & Hat & Hh1). cbn [length Nat.mul Nat.add] in Hl.
  do 3 apply Forall_cons_1 in Hok as [_ Hok]. apply Forall_cons_1 in Hok as [(_ & Hwf & _ & Hlen) _]. set (line := line_of (a :: amounts)) in *.
  set (pre := (number ++ [10]) ++ flat_map (fun a => line_of a ++ [10]) [d1; d2; d3]) in *. set (r := (9 - 2 * length [d1; d2; d3])%nat) in *. set (k := length days).
  destruct (main_passes F1 l r [] (Z.of_nat k) ch ms sv1 (mkVn V13 vv vo 0 0 tt ps vch) (input_of number all) (expected [d1; d2; d3]) line pre
    (flat_map (fun a => line_of a ++ [10]) days) sn vn) as (F2 & Hrun2 & Hh2); [lia|done|by apply line_no_newline| |].
  { unfold pre, input_of, line. cbn [flat_map all]. by rewrite <- !app_assoc. }
  set (inp := Service.mkD input_txt (Z.of_nat (length (pre ++ line ++ [10]))) 1) in *.
  destruct (sinhvien_opens F2 inp l r [] (mkMain M63 (Z.of_nat k) 10 2 (base l)) sv1 (mkVn V13 vv vo 0 0 tt ps vch) (input_of number all) (expected [d1; d2; d3]) line vn)
    as (so & sch & Hrun3); [lia|done|done|by apply day_line_nonempty|].
  assert (Hh3 := has_voinuoc _ _ _ _ _ [] Hh2).
  destruct (sinhvien_loses_amount (<[voinuoc_txt := []]> F2) inp l 0 r 0 0 0 [] (mkMain M63 (Z.of_nat k) 10 2 (base l)) (mkVn V13 vv vo 0 0 tt ps vch) (Z.of_nat (length line)) so sch
    (input_of number all) (expected [d1; d2; d3]) (Some []) a amounts) as (p & so' & gw & sch' & Hrun4); [done|unfold is_s32; lia|done|done|done|].
  assert (Hb : base l = 9) by (unfold base; lia). eexists. split.
  - etransitivity; [exact Hrun1|]. unfold main_loop. fields. rewrite (proj2 (Z.eqb_neq (Z.of_nat (length ((a :: amounts) :: days))) 0)) by (cbn; lia). cbn [negb].
    rewrite s32_small by (unfold is_s32, all in *; cbn [length] in *; lia).
    replace (Z.of_nat (length ((a :: amounts) :: days)) - 1) with (Z.of_nat k) by (cbn [length]; lia).
    etransitivity; [exact Hrun2|]. etransitivity; [exact Hrun3|]. etransitivity; [exact Hrun4|]. unfold sv_table.
    eapply go_sinhvien; [reflexivity|go_file ltac:(eapply eff_close_high); [lia|lia|slot|slot']|]. fields.
    eapply go_sinhvien; [reflexivity|apply perform_signal|]. fields.
    eapply go_voinuoc; [reflexivity|by apply perform_wait|]. fields.
    eapply go_voinuoc; [reflexivity|go_file ltac:(eapply (eff_open _ _ _ (base l + 1) voinuoc_txt 1 _ eq_refl)); [apply Hh3|apply free_b; lia|lia|slot']|]. fields.
    rewrite (proj2 (Z.eqb_neq (base l + 1) (-1))) by lia. reflexivity.
  - do 10 eexists. split; [reflexivity|]. split; [done|]. split; [done|]. lia.
Qed.

(** C34: with four or more time points the water station does not come to an
    end: [sinhvien] does not close sinhvien.txt and voinuoc.txt after a time
    point, so that in the fourth one voinuoc.txt has descriptor 10, which [Open]
    gives out and [Read] refuses with -1; [voinuoc] tests for -2 and reads for
    ever.  No run ends, and every state can go on. *)
Theorem water_station_hangs F number days : exec Sinhvien <> -1 -> exec Voinuoc <> -1 -> F !! input_txt = Some (input_of number days) ->
  Forall digit number -> amount number = Z.of_nat (length days) -> is_s32 (Z.of_nat (length days)) -> (4 <= length days)%nat -> Forall day_ok days ->
  forall s, rtc step (initial (Service.mk F empty_slots)) s -> halted (shared s) = false /\ exists s', step s s'.
Proof.
  intros He1 He2 Hi Hd Hn Hs32 Hmin Hok s Hs. destruct (run_to_spin F number days He1 He2 Hi Hd Hn Hs32 Hmin Hok) as (s0 & H0 & Hspin).
  assert (Hsp : forall s, spins s -> halted (shared s) = false /\ exists s', step s s') by (intros s1 H1; destruct (spins_step s1 H1) as (s2 & ? & _ & ? & _); eauto).
  destruct (runs_converge exec _ s s0 (turn_initial _) Hs H0) as [H|H]; [|by apply Hsp, (spins_for_ever s0)].
  destruct H as [|s s1 s0 [p Hp] _]; [by apply Hsp|]. split; [|by exists s1, p]. unfold step_of in Hp. by destruct (halted (shared s)).
Qed.

(** The processes of the water station take turns: in every state that a run
    reaches at most one of them can go on, so that the files are never used by
    two of them at a time, and all interleavings are the same run. *)
Theorem one_process_at_a_time f s p q s1 s2 : rtc step (initial f) s -> step_of exec p s = Some s1 -> step_of exec q s = Some s2 -> p = q.
Proof.
  intros Hr H1 H2. assert (Ht : turn s).
  { pose proof (turn_initial f) as Hi. revert Hi. induction Hr as [|x y z Hxy _ IH]; [done|]. intros Hi. by apply IH, (turn_step exec x). }
  by apply (step_process exec s p q s1 s2).
Qed.

End runs.

(** ** input.txt and output.txt of the repository *)

Definition demo_exec (p : name) : Z := match p with Main => 0 | Sinhvien => 1 | Voinuoc => 2 end.

Definition demo_days : list (list (list Z)) := map (map txt) [["4"; "2"; "1"]; ["5"; "3"; "4"; "1"]; ["8"; "5"; "2"]]%string.
Definition demo_input : list Z := txt "3" ++ [10] ++ txt "4 2 1" ++ [10] ++ txt "5 3 4 1" ++ [10] ++ txt "8 5 2" ++ [10].
Definition demo_output : list Z := txt "4 1   2 2   1 2" ++ [13; 10] ++ txt "5 1   3 2   4 2   1 1" ++ [13; 10] ++ txt "8 1   5 2   2 2" ++ [13; 10].

Lemma demo_days_ok : Forall day_ok demo_days.
Proof. repeat (apply list.Forall_cons; split; [split; [done|]; split; [repeat constructor; done|]; split; reflexivity|]). constructor. Qed.

Lemma water_station_correct_witness : exists z, halted (shared z) = true /\ output z = Some demo_output /\
  forall s, rtc (step demo_exec) (initial (Service.mk {[ input_txt := demo_input ]} empty_slots)) s -> rtc (step demo_exec) s z.
Proof.
  apply (water_station_correct demo_exec {[ input_txt := demo_input ]} (txt "3") demo_days); try discriminate.
  - reflexivity.
  - repeat constructor; discriminate.
  - reflexivity.
  - cbn. lia.
  - apply demo_days_ok.
Defined.

(** The same students once more. *)
Lemma water_station_hangs_witness : exists i, i = txt "6" ++ [10] ++ drop 2 demo_input ++ drop 2 demo_input /\ forall s,
  rtc (step demo_exec) (initial (Service.mk {[ input_txt := i ]} empty_slots)) s -> halted (shared s) = false /\ exists s', step demo_exec s s'.
Proof.
  exists (input_of (txt "6") (demo_days ++ demo_days)). split; [reflexivity|].
  apply (water_station_hangs demo_exec {[ input_txt := input_of (txt "6") (demo_days ++ demo_days) ]} (txt "6") (demo_days ++ demo_days)); try discriminate.
  - reflexivity.
  - repeat constructor; discriminate.
  - reflexivity.
  - split; reflexivity || discriminate.
  - cbn. lia.
  - apply Forall_app. split; apply demo_days_ok.
Defined.

Lemma one_process_at_a_time_witness : step_of demo_exec Main (initial Service.demo_service) <> None /\ forall q s2,
  step_of demo_exec q (initial Service.demo_service) = Some s2 -> Main = q.
Proof.
  split; [discriminate|]. intros q s2 H2.
  apply (one_process_at_a_time demo_exec Service.demo_service (initial Service.demo_service) Main q (mkSys (mkWorld Service.demo_service (Some 0) None None false false [] false) (main_goto main_start M11) sinhvien_start voinuoc_start) s2).
  - reflexivity.
  - reflexivity.
  - exact H2.
Defined.

End StationRuns.
