(* ===== verification/UserPrograms.v ===== *)
(** * User programs of test/: bubblesort.c, sort.c, matmult.c, ascii.c, readPrintInt.c, help.c, ping.c, pong.c

    The programs of test/ that compute, or talk to the console.  They are written
    against the class [ConsoleCalls], the stubs of the calls on strings, numbers
    and characters; [ConsoleLaws] says what the calls do to what is typed and
    what is shown, and the programs are verified against it.  The instance
    [kernel_calls] performs a call as the machine does: the number of the call
    and its argument are put into the registers, [ExceptionHandler] runs, and the
    answer is in register 2; the theorems on the handlers discharge the laws.

    A program runs up to its last call, [Halt()] or [Exit(...)]. *)

From S2P Require Import Prelude MachineSim ConsoleDev Syscalls UserStrings FileCalls WaterStation.
From stdpp Require Import strings sorting.
Import Machine Syscall.

Local Open Scope Z_scope.

Module Programs.

Abbreviation txt := Station.txt.

(** ** The calls *)

Class ConsoleCalls (W : Type) := {
  PrintString : list Z -> W -> outcome W;
  PrintInt : Z -> W -> outcome W;
  PrintChar : Z -> W -> outcome W;
  ReadInt : W -> outcome (Z * W);
}.

(** A line that [ReadInt] takes as a whole. *)
Definition is_line (cs : list Z) : Prop := Forall plain cs /\ Z.of_nat (length cs) < MAX_BUFFER.

(** The promises, for a program with the literals [lits]. *)
Class ConsoleLaws (W : Type) `{ConsoleCalls W} (lits : list (list Z)) := {
  ready : W -> Prop;
  typed : W -> list Z;
  shown : W -> list Z;
  PrintString_law w cs : ready w -> cs ∈ lits ->
    exists w', PrintString cs w = Ok w' /\ ready w' /\ typed w' = typed w /\ shown w' = shown w ++ cs ++ [0];
  PrintInt_law w n : ready w -> 0 <= n < 2 ^ 31 ->
    exists w', PrintInt n w = Ok w' /\ ready w' /\ typed w' = typed w /\ shown w' = shown w ++ decimal n;
  PrintChar_law w c : ready w -> is_s32 c ->
    exists w', PrintChar c w = Ok w' /\ ready w' /\ typed w' = typed w /\ shown w' = shown w ++ [s8 c];
  ReadInt_law w cs rest : ready w -> is_line cs -> typed w = cs ++ 10 :: rest ->
    exists w', ReadInt w = Ok (parse_int cs, w') /\ ready w' /\ typed w' = rest /\ shown w' = shown w;
}.

(** ** test/bubblesort.c *)

Definition sort_title : list Z := [10; 10] ++ txt "Sort the interger array with size of n using bubble sort:" ++ [10].
Definition sort_ask : list Z := txt "Enter n (the size of the array): ".
Definition sort_a : list Z := txt "a[".
Definition sort_is : list Z := txt "] = ".
Definition sort_done : list Z := txt "Array after sorted: ".
Definition sort_comma : list Z := txt ", ".
Definition sort_literals : list (list Z) := [sort_title; sort_ask; sort_a; sort_is; sort_done; sort_comma].

(** [if(arr[i]>arr[j])] and the exchange. *)
Definition exchange (i j : Z) (arr : list Z) : outcome (list Z) :=
  x ← rd arr i;
  y ← rd arr j;
  if x >? y then arr ← wr arr i y; wr arr j x else Ok arr.

(** The two nested loops. *)
Definition sort_array (n : Z) (arr : list Z) : outcome (list Z) :=
  for_range 0 (s32 (n - 1)) (fun i arr => for_range (i + 1) n (fun j arr => exchange i j arr) arr) arr.

Section Bubblesort.
Context {W : Type} `{ConsoleCalls W}.

(** The loop that reads the array. *)
Definition read_array (n : Z) (arr : list Z) (w : W) : outcome (list Z * W) :=
  for_range 0 n (fun i '(arr, w) =>
    w ← PrintString sort_a w;
    w ← PrintInt i w;
    w ← PrintString sort_is w;
    '(x, w) ← ReadInt w;
    arr ← wr arr i x;
    Ok (arr, w)) (arr, w).

(** The loop that prints it. *)
Definition print_array (n : Z) (arr : list Z) (w : W) : outcome W :=
  for_range 0 n (fun i w => x ← rd arr i; w ← PrintInt x w; PrintString sort_comma w) w.

(** [arr] is the uninitialised array on the stack. *)
Definition bubblesort_main (arr : list Z) (w : W) : outcome W :=
  w ← PrintString sort_title w;
  w ← PrintString sort_ask w;
  '(n, w) ← ReadInt w;
  '(arr, w) ← read_array n arr w;
  arr ← sort_array n arr;
  w ← PrintString sort_done w;
  print_array n arr w.

End Bubblesort.

(** ** test/sort.c *)

(** [for (i = 0; i < 1024; i++) A[i] = 1024 - i;] *)
Definition sort_fill (A : list Z) : outcome (list Z) :=
  for_range 0 1024 (fun i A => wr A i (1024 - i)) A.

Definition sort_pass (i : Z) (A : list Z) : outcome (list Z) :=
  for_range i (1023 - i) (fun j A =>
    x ← rd A j;
    y ← rd A (j + 1);
    if x >? y then A ← wr A j y; wr A (j + 1) x else Ok A) A.

(** The array at the end, and the argument of [Exit]. *)
Definition sort_main (A : list Z) : outcome (list Z * Z) :=
  A ← sort_fill A;
  A ← for_range 0 1023 sort_pass A;
  r ← rd A 0;
  Ok (A, r).

(** ** test/matmult.c *)

Definition Dim : Z := 20.

Definition get2 (M : list (list Z)) (i j : Z) : outcome Z := row ← rd M i; rd row j.
Definition set2 (M : list (list Z)) (i j x : Z) : outcome (list (list Z)) := row ← rd M i; row ← wr row j x; wr M i row.

Definition matmult_fill (ABC : list (list Z) * list (list Z) * list (list Z)) : outcome (list (list Z) * list (list Z) * list (list Z)) :=
  for_range 0 Dim (fun i => for_range 0 Dim (fun j '(A, B, C) =>
    A ← set2 A i j i;
    B ← set2 B i j j;
    C ← set2 C i j 0;
    Ok (A, B, C))) ABC.

(** [for (k = 0; k < Dim; k++) C[i][j] += A[i][k] * B[k][j];] *)
Definition matmult_cell (A B : list (list Z)) (i j : Z) (C : list (list Z)) : outcome (list (list Z)) :=
  for_range 0 Dim (fun k C =>
    c ← get2 C i j;
    a ← get2 A i k;
    b ← get2 B k j;
    set2 C i j (s32 (c + s32 (a * b)))) C.

Definition matmult_multiply (A B C : list (list Z)) : outcome (list (list Z)) :=
  for_range 0 Dim (fun i => for_range 0 Dim (fun j C => matmult_cell A B i j C)) C.

(** The product, and the argument of [Exit]; the globals are zero at the start. *)
Definition matmult_main : outcome (list (list Z) * Z) :=
  let zero := replicate 20 (replicate 20 0) in
  '(A, B, C) ← matmult_fill (zero, zero, zero);
  C ← matmult_multiply A B C;
  r ← get2 C (Dim - 1) (Dim - 1);
  Ok (C, r).

(** ** test/ascii.c, test/readPrintInt.c *)

Definition ascii_colon : list Z := txt ": ".
Definition ascii_tabs : list Z := [9; 9].
Definition ascii_literals : list (list Z) := [ascii_colon; ascii_tabs].

Definition ask_int : list Z := txt "Input an integer: ".
Definition print_int : list Z := txt "Print the integer: ".
Definition readPrintInt_literals : list (list Z) := [ask_int; print_int].

Definition help_lines : list (list Z) :=
  [[10; 10] ++ txt "This program is to give a breif introduction about our group's member:" ++ [10];
   txt "Group member _  student ID:" ++ [10];
   txt "_ Vo Anh Quan _ 21127147" ++ [10];
   txt "_ Phan Phuoc Hai Nam _ 21127365" ++ [10];
   txt "_ Huynh Cao Minh _ 21127644" ++ [10];
   [10] ++ txt "Breif description about ascii.c:" ++ [10];
   txt "ascii.c is a program to print ascii table" ++ [10] ++ txt "It only prints the readable ascii (from 32 to 126)" ++ [10];
   txt "We combine many system call being built before: " ++ [10];
   txt " - Use PrintChar(i); to print ascii element number i" ++ [10];
   txt " - Use PrintInt(i); and PrintString(char buffer[]); to make a table form (little bit of design to make it looks more like an ascii table)" ++ [10];
   [10] ++ txt "Breif description about bubblesort.c:" ++ [10];
   txt "This is a program to sort an array of interger in increase order" ++ [10];
   txt " - The array has the size of n in which n is a input get from user using ReadInt(); system call" ++ [10];
   txt " - Use a loop to get array's elements from user using ReadInt(); system call" ++ [10];
   txt " - The maximum size of the array is 100 elements" ++ [10];
   txt " - Apply bubblesort algorithm in this program:" ++ [10];
   txt "   - Use 2 loops to compare one element (a[i]) to all of the remaining elements located after that element (a[i])" ++ [10];
   txt "   - If a[i] > a[j] then we swap those 2 numbers" ++ [10];
   txt " - Use another loop and PrintInt system call to print the array after sorted" ++ [10]].

Section Small.
Context {W : Type} `{ConsoleCalls W}.

(** [PrintInt(i); PrintString(": "); PrintChar(i);] *)
Definition ascii_entry (i : Z) (w : W) : outcome W :=
  w ← PrintInt i w; w ← PrintString ascii_colon w; PrintChar i w.

(** [for(;i<=126;i++)] with four entries a row; a row starts at [i]. *)
Fixpoint ascii_rows (fuel : nat) (i : Z) (w : W) : outcome W :=
  match fuel with
  | O => Fault OutOfFuel
  | S fuel' =>
      if i <=? 126 then
        w ← ascii_entry i w; w ← PrintString ascii_tabs w;
        let i := i + 1 in
        w ← ascii_entry i w; w ← PrintString ascii_tabs w;
        let i := i + 1 in
        w ← ascii_entry i w; w ← PrintString ascii_tabs w;
        let i := i + 1 in
        w ← ascii_entry i w; w ← PrintChar 10 w;
        ascii_rows fuel' (i + 1) w
      else Ok w
  end.

(** There are 24 rows, and the test that ends the loop. *)
Definition ascii_main (w : W) : outcome W := ascii_rows 25 32 w.

Definition readPrintInt_main (w : W) : outcome W :=
  w ← PrintString ask_int w;
  '(result, w) ← ReadInt w;
  w ← PrintString print_int w;
  PrintInt result w.

(** ** test/help.c, test/ping.c, test/pong.c *)

(** One call after the other. *)
Fixpoint print_all (ls : list (list Z)) (w : W) : outcome W :=
  match ls with
  | [] => Ok w
  | l :: ls' => w ← PrintString l w; print_all ls' w
  end.

Definition help_main (w : W) : outcome W := print_all help_lines w.

Definition ping_main (w : W) : outcome W := for_range 0 1000 (fun _ w => PrintChar 65 w) w.

Definition pong_main (w : W) : outcome W := for_range 0 1000 (fun _ w => PrintChar 66 w) w.

End Small.

(** ** The calls of the kernel *)

Section Kernel.

(** The other calls, the buffers of the handlers, and where the linker put the
    literals. *)
Context (other : Z -> Syscall.t -> outcome Syscall.t) (raw : list Z) (junk : Z) (addr : list Z -> Z).

(** A call with its number in register 2 and its argument in register 4. *)
Definition entered (code arg : Z) (s : Syscall.t) : Syscall.t :=
  set_machine s (set_registers (machine s) (<[4%nat := arg]> (<[2%nat := code]> (registers (machine s))))).
Definition kernel_call (code arg : Z) (s : Syscall.t) : outcome Syscall.t :=
  ExceptionHandler other raw junk SyscallException (entered code arg s).

#[local] Instance kernel_calls : ConsoleCalls Syscall.t := {
  PrintString := fun cs => kernel_call SC_PrintString (addr cs);
  PrintInt := fun n => kernel_call SC_PrintInt n;
  PrintChar := fun c => kernel_call SC_PrintChar c;
  ReadInt := fun s => s ← kernel_call SC_ReadInt 0 s; v ← ReadRegister (machine s) 2; Ok (v, s);
}.

End Kernel.

(** ** Exchange sort *)

(** The first [i] elements of [xs] are in order and not above those after them. *)
Definition sorted_upto (i : Z) (xs : list Z) : Prop :=
  forall a b x y, Z.of_nat a < i -> (a < b)%nat -> xs !! a = Some x -> xs !! b = Some y -> x <= y.

(** [xs[i]] is the least of [xs[i..j-1]]. *)
Definition least_upto (i j : Z) (xs : list Z) : Prop :=
  forall b x y, i < Z.of_nat b < j -> xs !! Z.to_nat i = Some x -> xs !! b = Some y -> x <= y.

Lemma exchange_ok i j xs xs0 :
  0 <= i < j -> j < Z.of_nat (length xs) -> xs ≡ₚ xs0 -> sorted_upto i xs -> least_upto i j xs ->
  exists xs', (forall junk, exchange i j (xs ++ junk) = Ok (xs' ++ junk)) /\ length xs' = length xs /\
    xs' ≡ₚ xs0 /\ sorted_upto i xs' /\ least_upto i (j + 1) xs'.
Proof.
  intros Hi Hj Hp Hs Hl.
  destruct (lookup_lt_is_Some_2 xs (Z.to_nat i)) as [x Hx]; [lia|].
  destruct (lookup_lt_is_Some_2 xs (Z.to_nat j)) as [y Hy]; [lia|].
  assert (forall junk, exchange i j (xs ++ junk) = if y <? x then
    Ok (<[Z.to_nat j := x]> (<[Z.to_nat i := y]> xs) ++ junk) else Ok (xs ++ junk)) as Hex.
  { intros junk. unfold exchange. rewrite (rd_lookup _ i x), (rd_lookup _ j y) by (lia || by apply lookup_app_l_Some).
    cbn [mbind outcome_bind]. rewrite Z.gtb_ltb. destruct (y <? x); [|done].
    rewrite wr_ok by (rewrite length_app; lia). cbn [mbind outcome_bind].
    rewrite wr_ok by (rewrite length_insert, length_app; lia).
    rewrite !insert_app_l by (rewrite ?length_insert; lia). done. }
  destruct (Z.ltb_spec y x) as [Hlt|Hge].
  - eexists. split; [exact Hex|]. rewrite !length_insert. split; [done|].
    split; [rewrite <- Hp; by apply Permutation_insert_swap|].
    split.
    + intros a b u v Ha Hab. rewrite !list_lookup_insert, !length_insert.
      repeat case_decide; try lia; intros Hu Hv; simplify_eq; first [by eapply (Hs a b)|idtac].
      * apply (Hs a (Z.to_nat i)); (done || lia).
      * apply (Hs a (Z.to_nat j)); (done || lia).
    + intros b u v Hb. rewrite !list_lookup_insert, !length_insert.
      repeat case_decide; try lia; intros Hu Hv; simplify_eq; try lia.
      apply (Hl b x v) in Hv; [lia|lia|done].
  - exists xs. split; [exact Hex|]. split; [done|]. split; [done|]. split; [done|].
    intros b u v Hb Hu Hv. destruct (decide (b = Z.to_nat j)) as [->|]; [congruence|]. apply (Hl b u v); [lia|done|done].
Qed.

(** One round of the outer loop, and all of them. *)
Lemma exchange_round i n xs xs0 junk :
  0 <= i < n -> Z.of_nat (length xs) = n -> xs ≡ₚ xs0 -> sorted_upto i xs ->
  exists xs', for_range (i + 1) n (fun j arr => exchange i j arr) (xs ++ junk) = Ok (xs' ++ junk) /\
    Z.of_nat (length xs') = n /\ xs' ≡ₚ xs0 /\ sorted_upto (i + 1) xs'.
Proof.
  intros Hi Hn Hp Hs.
  destruct (for_range_inv (fun j arr => exists xs', arr = xs' ++ junk /\ Z.of_nat (length xs') = n /\ xs' ≡ₚ xs0 /\
      sorted_upto i xs' /\ least_upto i j xs') (i + 1) n (fun j arr => exchange i j arr) (xs ++ junk))
    as (arr & -> & xs' & -> & Hn' & Hp' & Hs' & Hl').
  - lia.
  - exists xs. do 4 (split; [done|]). intros b x y Hb. lia.
  - intros j arr Hj (xs1 & -> & Hn1 & Hp1 & Hs1 & Hl1).
    destruct (exchange_ok i j xs1 xs0) as (xs2 & E & Hn2 & ?); [lia|lia|done..|].
    rewrite E. eexists. split; [done|]. exists xs2. rewrite Hn2. done.
  - exists xs'. do 3 (split; [done|]). intros a b x y Ha Hab Hx Hy.
    destruct (decide (Z.of_nat a < i)); [by eapply (Hs' a b)|].
    apply (Hl' b x y); [|by replace (Z.to_nat i) with a by lia|done].
    apply lookup_lt_Some in Hy. lia.
Qed.

Lemma sorted_upto_Sorted xs : sorted_upto (Z.of_nat (length xs) - 1) xs -> Sorted Z.le xs.
Proof.
  intros Hs. apply StronglySorted_Sorted.
  induction xs as [|x xs IH]; [constructor|]. constructor.
  - apply IH. intros a b u v Ha Hab Hu Hv. apply (Hs (S a) (S b)); [cbn [length]; lia|lia|done|done].
  - apply Forall_lookup. intros b y Hy. apply (Hs 0%nat (S b)); [|lia|done|done].
    apply lookup_lt_Some in Hy. cbn [length]. lia.
Qed.

(** The nested loops sort the first [n] elements, and leave the others. *)
Lemma sort_array_ok xs junk :
  Z.of_nat (length xs) < 2 ^ 31 ->
  exists xs', sort_array (Z.of_nat (length xs)) (xs ++ junk) = Ok (xs' ++ junk) /\ xs' ≡ₚ xs /\ Sorted Z.le xs'.
Proof.
  intros Hlen. set (n := Z.of_nat (length xs)) in *. unfold sort_array. rewrite s32_small by (unfold is_s32; lia).
  destruct (decide (n = 0)) as [E|Hne].
  { rewrite E. destruct xs; [|cbn in n; lia]. exists []. by split. }
  destruct (for_range_inv (fun i arr => exists xs', arr = xs' ++ junk /\ Z.of_nat (length xs') = n /\ xs' ≡ₚ xs /\
      sorted_upto i xs') 0 (n - 1)
      (fun i arr => for_range (i + 1) n (fun j arr => exchange i j arr) arr) (xs ++ junk))
    as (arr & -> & xs' & -> & Hn' & Hp' & Hs').
  - lia.
  - exists xs. do 3 (split; [done|]). intros a b x y Ha. lia.
  - intros i arr Hi (xs1 & -> & Hn1 & Hp1 & Hs1).
    destruct (exchange_round i n xs1 xs junk) as (xs2 & -> & ?); [lia|done..|]. eexists. split; [done|]. by exists xs2.
  - exists xs'. split; [done|]. split; [done|]. apply sorted_upto_Sorted. by rewrite Hn'.
Qed.

(** ** The programs against the interface *)

(** The lines that are typed. *)
Definition unlines (ls : list (list Z)) : list Z := flat_map (fun cs => cs ++ [10]) ls.

(** What bubblesort.c shows before it reads [a[i]], and for an element. *)
Definition element_prompt (i : nat) : list Z := sort_a ++ [0] ++ decimal (Z.of_nat i) ++ sort_is ++ [0].
Definition element_shown (x : Z) : list Z := decimal x ++ sort_comma ++ [0].

(** The screen of a run that reads [n] elements and sorts them into [xs]. *)
Definition bubblesort_screen (n : nat) (xs : list Z) : list Z :=
  sort_title ++ [0] ++ sort_ask ++ [0] ++ flat_map element_prompt (seq 0 n) ++
  sort_done ++ [0] ++ flat_map element_shown xs.

(** Perform the next call by its law: the next state, that it is ready, and what
    is typed and shown then. *)
Tactic Notation "call" constr(L) "as" ident(w) ident(Hr) ident(Ht) ident(Ho) :=
  destruct L as (w & -> & Hr & Ht & Ho); cbn [mbind outcome_bind].

Lemma unlines_cons cs ls rest : unlines (cs :: ls) ++ rest = cs ++ 10 :: unlines ls ++ rest.
Proof. unfold unlines. cbn [flat_map]. by rewrite <- !app_assoc. Qed.

Lemma flat_map_snoc {A B} (f : A -> list B) l x : flat_map f (l ++ [x]) = flat_map f l ++ f x.
Proof. rewrite flat_map_app. cbn. by rewrite app_nil_r. Qed.

Lemma for_range_split {St} lo mid hi body (s : St) :
  lo <= mid <= hi -> for_range lo hi body s = (s ← for_range lo mid body s; for_range mid hi body s).
Proof.
  intros Hle. unfold for_range. replace (Z.to_nat (hi - lo)) with (Z.to_nat (mid - lo) + Z.to_nat (hi - mid))%nat by lia.
  remember (Z.to_nat (mid - lo)) as n eqn:En. assert (mid = lo + Z.of_nat n) as -> by lia.
  generalize (Z.to_nat (hi - (lo + Z.of_nat n))) as m. clear En Hle. revert lo s.
  induction n as [|n IH]; intros lo s m; cbn [for_loop Nat.add mbind outcome_bind].
  - by replace (lo + Z.of_nat 0) with lo by lia.
  - destruct (body lo s) as [s1|]; [|done]. cbn [mbind outcome_bind]. rewrite IH.
    by replace (lo + 1 + Z.of_nat n) with (lo + Z.of_nat (S n)) by lia.
Qed.

Lemma for_range_step {St} lo hi body (s : St) :
  lo < hi -> for_range lo hi body s = (s ← body lo s; for_range (lo + 1) hi body s).
Proof.
  intros Hlt. unfold for_range. replace (Z.to_nat (hi - lo)) with (S (Z.to_nat (hi - (lo + 1)))) by lia. done.
Qed.

Lemma parse_int_bound cs : parse_int cs < 2 ^ 31.
Proof.
  unfold parse_int. repeat case_decide; try lia; match goal with |- s32 ?z < _ => pose proof (s32_range z) end;
    unfold is_s32 in *; lia.
Qed.

Section Correctness.
Context {W : Type} `{ConsoleLaws W lits}.

Lemma read_array_step lns junk rest w i arr w1 :
  sort_a ∈ lits -> sort_is ∈ lits -> Forall is_line lns -> (length lns <= length junk)%nat ->
  Z.of_nat (length lns) < 2 ^ 31 -> 0 <= i < Z.of_nat (length lns) ->
  ready w1 -> arr = (parse_int <$> take (Z.to_nat i) lns) ++ drop (Z.to_nat i) junk ->
  typed w1 = unlines (drop (Z.to_nat i) lns) ++ rest ->
  shown w1 = shown w ++ flat_map element_prompt (seq 0 (Z.to_nat i)) ->
  exists arr' w', (w ← PrintString sort_a w1; w ← PrintInt i w; w ← PrintString sort_is w;
      '(x, w) ← ReadInt w; arr ← wr arr i x; Ok (arr, w)) = Ok (arr', w') /\
    ready w' /\ arr' = (parse_int <$> take (Z.to_nat (i + 1)) lns) ++ drop (Z.to_nat (i + 1)) junk /\
    typed w' = unlines (drop (Z.to_nat (i + 1)) lns) ++ rest /\
    shown w' = shown w ++ flat_map element_prompt (seq 0 (Z.to_nat (i + 1))).
Proof.
  intros Hla Hlb Hlns Hlen Hmax Hi Hr -> Ht Ho. replace (Z.to_nat (i + 1)) with (S (Z.to_nat i)) by lia.
  destruct (lookup_lt_is_Some_2 lns (Z.to_nat i)) as [cs Hcs]; [lia|].
  pose proof (Forall_lookup_1 _ _ _ _ Hlns Hcs) as Hline.
  rewrite (drop_S _ _ _ Hcs), unlines_cons in Ht.
  call (PrintString_law w1 sort_a Hr Hla) as w2 Hr2 Ht2 Ho2.
  call (PrintInt_law w2 i Hr2 ltac:(lia)) as w3 Hr3 Ht3 Ho3.
  call (PrintString_law w3 sort_is Hr3 Hlb) as w4 Hr4 Ht4 Ho4.
  destruct (ReadInt_law w4 cs (unlines (drop (S (Z.to_nat i)) lns) ++ rest) Hr4 Hline) as (w5 & -> & Hr5 & Ht5 & Ho5); [congruence|].
  cbn [mbind outcome_bind].
  assert (Hl : length (parse_int <$> take (Z.to_nat i) lns) = Z.to_nat i) by (rewrite length_fmap, length_take; lia).
  rewrite wr_ok by (rewrite length_app, Hl, length_drop; lia). cbn [mbind outcome_bind].
  eexists _, _. split; [done|]. split; [done|]. split; [|split; [done|]].
  - rewrite <- Hl at 1. rewrite insert_app_r_alt, Nat.sub_diag by lia.
    destruct (lookup_lt_is_Some_2 junk (Z.to_nat i)) as [x Hx]; [lia|]. rewrite (drop_S _ _ _ Hx). cbn [insert list_insert].
    rewrite (take_S_r _ _ _ Hcs), fmap_app, <- app_assoc. done.
  - rewrite Ho5, Ho4, Ho3, Ho2, Ho, seq_S, flat_map_snoc, <- !app_assoc. cbn [Nat.add]. unfold element_prompt.
    rewrite Z2Nat.id by lia. by rewrite <- ?app_assoc.
Qed.

Lemma read_array_ok lns junk rest w :
  sort_a ∈ lits -> sort_is ∈ lits -> Forall is_line lns -> (length lns <= length junk)%nat ->
  Z.of_nat (length lns) < 2 ^ 31 -> ready w -> typed w = unlines lns ++ rest ->
  exists w', read_array (Z.of_nat (length lns)) junk w = Ok ((parse_int <$> lns) ++ drop (length lns) junk, w') /\
    ready w' /\ typed w' = rest /\ shown w' = shown w ++ flat_map element_prompt (seq 0 (length lns)).
Proof.
  intros Hla Hlb Hlns Hlen Hmax Hr Ht. unfold read_array.
  destruct (for_range_inv (fun i '(arr, w1) => ready w1 /\
      arr = (parse_int <$> take (Z.to_nat i) lns) ++ drop (Z.to_nat i) junk /\
      typed w1 = unlines (drop (Z.to_nat i) lns) ++ rest /\
      shown w1 = shown w ++ flat_map element_prompt (seq 0 (Z.to_nat i))) 0 (Z.of_nat (length lns))
      (fun i '(arr, w) => w ← PrintString sort_a w; w ← PrintInt i w; w ← PrintString sort_is w;
        '(x, w) ← ReadInt w; arr ← wr arr i x; Ok (arr, w)) (junk, w))
    as ([arr w'] & -> & Hr' & -> & Ht' & Ho').
  - lia.
  - split; [done|]. split; [done|]. split; [done|]. by rewrite app_nil_r.
  - intros i [arr w1] Hi (Hr1 & Ha1 & Ht1 & Ho1).
    destruct (read_array_step lns junk rest w i arr w1) as (arr' & w' & E & HP); try done.
    exists (arr', w'). done.
  - rewrite Nat2Z.id in *. rewrite take_ge by lia. rewrite drop_ge in Ht' by lia. by exists w'.
Qed.

Lemma print_array_ok xs junk w :
  sort_comma ∈ lits -> Forall (fun x => 0 <= x < 2 ^ 31) xs -> ready w ->
  exists w', print_array (Z.of_nat (length xs)) (xs ++ junk) w = Ok w' /\ ready w' /\ typed w' = typed w /\
    shown w' = shown w ++ flat_map element_shown xs.
Proof.
  intros Hlc Hxs Hr. unfold print_array.
  destruct (for_range_inv (fun i w1 => ready w1 /\ typed w1 = typed w /\
      shown w1 = shown w ++ flat_map element_shown (take (Z.to_nat i) xs)) 0 (Z.of_nat (length xs))
      (fun i w => x ← rd (xs ++ junk) i; w ← PrintInt x w; PrintString sort_comma w) w)
    as (w' & -> & Hr' & Ht' & Ho').
  - lia.
  - split; [done|]. split; [done|]. by rewrite app_nil_r.
  - intros i w1 Hi (Hr1 & Ht1 & Ho1).
    destruct (lookup_lt_is_Some_2 xs (Z.to_nat i)) as [x Hx]; [lia|]. pose proof (Forall_lookup_1 _ _ _ _ Hxs Hx) as Hxr.
    rewrite (rd_lookup _ i x) by (lia || by apply lookup_app_l_Some). cbn [mbind outcome_bind].
    call (PrintInt_law w1 x Hr1 Hxr) as w2 Hr2 Ht2 Ho2. destruct (PrintString_law w2 sort_comma Hr2 Hlc) as (w3 & -> & Hr3 & Ht3 & Ho3).
    exists w3. split; [done|]. split; [done|]. split; [congruence|].
    rewrite Ho3, Ho2, Ho1. replace (Z.to_nat (i + 1)) with (S (Z.to_nat i)) by lia.
    rewrite (take_S_r _ _ _ Hx), flat_map_snoc. unfold element_shown. by rewrite <- !app_assoc.
  - rewrite Nat2Z.id, take_ge in Ho' by lia. by exists w'.
Qed.

End Correctness.

Section Bubblesort_correct.
Context {W : Type} `{ConsoleLaws W sort_literals}.

(** The start of bubblesort.c: the title, and the number of elements. *)
Lemma bubblesort_start arr ln rest w :
  ready w -> is_line ln -> typed w = ln ++ 10 :: rest ->
  exists w', ready w' /\ typed w' = rest /\ shown w' = shown w ++ sort_title ++ [0] ++ sort_ask ++ [0] /\
    bubblesort_main arr w =
      '(arr, w) ← read_array (parse_int ln) arr w';
      arr ← sort_array (parse_int ln) arr;
      w ← PrintString sort_done w;
      print_array (parse_int ln) arr w.
Proof.
  intros Hr Hline Ht. unfold bubblesort_main.
  call (PrintString_law w sort_title Hr ltac:(set_solver)) as w1 Hr1 Ht1 Ho1.
  call (PrintString_law w1 sort_ask Hr1 ltac:(set_solver)) as w2 Hr2 Ht2 Ho2.
  destruct (ReadInt_law w2 ln rest Hr2 Hline) as (w3 & -> & Hr3 & Ht3 & Ho3); [congruence|]. cbn [mbind outcome_bind].
  exists w3. split; [done|]. split; [done|]. split; [|done]. rewrite Ho3, Ho2, Ho1, <- !app_assoc. done.
Qed.

Lemma bubblesort_ok arr ln lns rest w :
  ready w -> length arr = 100%nat -> is_line ln -> Forall is_line lns ->
  parse_int ln = Z.of_nat (length lns) -> (length lns <= 100)%nat ->
  Forall (fun cs => 0 <= parse_int cs) lns -> typed w = unlines (ln :: lns) ++ rest ->
  exists w' xs, bubblesort_main arr w = Ok w' /\ ready w' /\ typed w' = rest /\
    xs ≡ₚ parse_int <$> lns /\ Sorted Z.le xs /\ shown w' = shown w ++ bubblesort_screen (length lns) xs.
Proof.
  intros Hr Harr Hline Hlns Hn Hmax Hpos Ht. rewrite unlines_cons in Ht.
  destruct (bubblesort_start arr ln (unlines lns ++ rest) w Hr Hline Ht) as (w1 & Hr1 & Ht1 & Ho1 & ->). rewrite Hn.
  destruct (read_array_ok lns arr rest w1) as (w2 & -> & Hr2 & Ht2 & Ho2);
    [set_solver|set_solver|done|lia|lia|done|done|]. cbn [mbind outcome_bind].
  rewrite <- (length_fmap parse_int lns).
  destruct (sort_array_ok (parse_int <$> lns) (drop (length lns) arr)) as (xs & E & Hp & Hs); [rewrite length_fmap; lia|].
  rewrite length_fmap in *. rewrite E. cbn [mbind outcome_bind].
  call (PrintString_law w2 sort_done Hr2 ltac:(set_solver)) as w3 Hr3 Ht3 Ho3.
  assert (length xs = length lns) as Hl by (rewrite Hp; apply length_fmap).
  destruct (print_array_ok xs (drop (length lns) arr) w3) as (w4 & E4 & Hr4 & Ht4 & Ho4); [set_solver| |done|].
  { rewrite Hp. apply Forall_fmap. eapply Forall_impl; [exact Hpos|]. intros cs Hcs. split; [done|]. apply parse_int_bound. }
  rewrite Hl in E4. exists w4, xs. split; [done|]. split; [done|]. split; [congruence|]. split; [done|]. split; [done|].
  rewrite Ho4, Ho3, Ho2, Ho1. unfold bubblesort_screen. by rewrite <- !app_assoc.
Qed.

(** A line with a number above 100, and more than 100 lines after it: the 101st
    element is stored past the end of the array. *)
Lemma bubblesort_overruns arr ln lns l rest w :
  ready w -> length arr = 100%nat -> is_line ln -> Forall is_line lns -> is_line l ->
  100 < parse_int ln -> length lns = 100%nat -> typed w = unlines (ln :: lns ++ [l]) ++ rest ->
  bubblesort_main arr w = Fault BadAccess.
Proof.
  intros Hr Harr Hline Hlns Hl Hn H100 Ht. rewrite unlines_cons in Ht.
  destruct (bubblesort_start arr ln _ w Hr Hline Ht) as (w1 & Hr1 & Ht1 & Ho1 & ->).
  unfold unlines in Ht1. rewrite flat_map_snoc, <- !app_assoc in Ht1.
  destruct (read_array_ok lns arr (l ++ 10 :: rest) w1) as (w2 & E & Hr2 & Ht2 & Ho2);
    [set_solver|set_solver|done|lia|lia|done|done|].
  unfold read_array in *. rewrite H100 in E. rewrite (for_range_split 0 (Z.of_nat 100)) by lia. rewrite E.
  cbn [mbind outcome_bind]. rewrite for_range_step by lia.
  call (PrintString_law w2 sort_a Hr2 ltac:(set_solver)) as w3 Hr3 Ht3 Ho3.
  call (PrintInt_law w3 (Z.of_nat 100) Hr3 ltac:(lia)) as w4 Hr4 Ht4 Ho4.
  call (PrintString_law w4 sort_is Hr4 ltac:(set_solver)) as w5 Hr5 Ht5 Ho5.
  destruct (ReadInt_law w5 l rest Hr5 Hl) as (w6 & -> & _); [congruence|]. cbn [mbind outcome_bind].
  unfold wr. rewrite (proj2 (Z.ltb_ge _ _)), andb_false_r; [done|].
  rewrite length_app, length_fmap, length_drop. lia.
Qed.

End Bubblesort_correct.

(** ** sort.c *)

(** The array [A] holds [f k] at [k]. *)
Definition contents (A : list Z) (f : Z -> Z) : Prop :=
  Z.of_nat (length A) = 1024 /\ forall k, 0 <= k < 1024 -> A !! Z.to_nat k = Some (f k).

Lemma contents_rd A f k : contents A f -> 0 <= k < 1024 -> rd A k = Ok (f k).
Proof. intros [Hl Hf] Hk. apply rd_lookup; [lia|auto]. Qed.

Lemma contents_wr A f i x : contents A f -> 0 <= i < 1024 ->
  exists A', wr A i x = Ok A' /\ contents A' (fun k => if k =? i then x else f k).
Proof.
  intros [Hl Hf] Hi. rewrite wr_ok by lia. eexists. split; [done|]. split; [by rewrite length_insert|].
  intros k Hk. destruct (Z.eqb_spec k i) as [->|Hne].
  - apply list_lookup_insert_eq. lia.
  - rewrite list_lookup_insert_ne by lia. auto.
Qed.

Lemma contents_ext A f g : contents A f -> (forall k, 0 <= k < 1024 -> f k = g k) -> contents A g.
Proof. intros [Hl Hf] E. split; [done|]. intros k Hk. rewrite <- E by done. auto. Qed.

(** The array before the pass [i], and in it when the inner loop is at [j]: the
    greatest element of the window is carried to its end. *)
Definition before_pass (i k : Z) : Z :=
  if k <? i then 1023 - 2 * k else if k <=? 1023 - i then 1024 - i - k else 2 * k - 1022.
Definition in_pass (i j k : Z) : Z :=
  if (i <=? k) && (k <? j) then 1023 - i - k else if k =? j then 1024 - 2 * i else before_pass i k.

Lemma sort_pass_ok i A : 0 <= i <= 511 -> contents A (before_pass i) ->
  exists A', sort_pass i A = Ok A' /\ contents A' (before_pass (i + 1)).
Proof.
  intros Hi HA. unfold sort_pass.
  destruct (for_range_inv (fun j A => contents A (in_pass i j)) i (1023 - i) (fun j A =>
      x ← rd A j; y ← rd A (j + 1); if x >? y then A ← wr A j y; wr A (j + 1) x else Ok A) A)
    as (A' & -> & HA').
  - lia.
  - apply (contents_ext _ _ _ HA). intros k Hk. unfold in_pass, before_pass. bool_cases; lia.
  - intros j A1 Hj H1. rewrite (contents_rd _ _ j H1), (contents_rd _ _ (j + 1) H1) by lia. cbn [mbind outcome_bind].
    assert (in_pass i j j = 1024 - 2 * i /\ in_pass i j (j + 1) = 1023 - i - j) as [-> ->].
    { unfold in_pass, before_pass. split; bool_cases; lia. }
    rewrite Z.gtb_ltb, (proj2 (Z.ltb_lt _ _)) by lia.
    destruct (contents_wr _ _ j (1023 - i - j) H1) as (A2 & -> & H2); [lia|]. cbn [mbind outcome_bind].
    destruct (contents_wr _ _ (j + 1) (1024 - 2 * i) H2) as (A3 & -> & H3); [lia|].
    exists A3. split; [done|]. apply (contents_ext _ _ _ H3). intros k Hk. unfold in_pass, before_pass. bool_cases; lia.
  - exists A'. split; [done|]. apply (contents_ext _ _ _ HA'). intros k Hk. unfold in_pass, before_pass. bool_cases; lia.
Qed.

(** From the 512th pass on there is nothing to do. *)
Lemma sort_pass_late i A : 512 <= i -> sort_pass i A = Ok A.
Proof. intros Hi. unfold sort_pass, for_range. by replace (Z.to_nat (1023 - i - i)) with 0%nat by lia. Qed.

Lemma sort_main_ok A : Z.of_nat (length A) = 1024 ->
  exists A', sort_main A = Ok (A', 1023) /\ contents A' (fun k => if k <? 512 then 1023 - 2 * k else 2 * k - 1022).
Proof.
  intros Hl. unfold sort_main, sort_fill.
  destruct (for_range_inv (fun i A => Z.of_nat (length A) = 1024 /\ forall k, 0 <= k < i -> A !! Z.to_nat k = Some (1024 - k))
      0 1024 (fun i A => wr A i (1024 - i)) A) as (A1 & -> & H1 & H1').
  - lia.
  - split; [done|]. intros k Hk. lia.
  - intros i A1 Hi [Hl1 Hk1]. rewrite wr_ok by lia. eexists. split; [done|]. split; [by rewrite length_insert|].
    intros k Hk. destruct (decide (k = i)) as [->|Hne]; [apply list_lookup_insert_eq; lia|].
    rewrite list_lookup_insert_ne by lia. apply Hk1. lia.
  - cbn [mbind outcome_bind].
    destruct (for_range_inv (fun i A => contents A (before_pass (Z.min i 512))) 0 1023 sort_pass A1) as (A2 & -> & H2).
    + lia.
    + split; [done|]. intros k Hk. rewrite H1' by done. f_equal. unfold before_pass. bool_cases; lia.
    + intros i A2 Hi H2. destruct (decide (i <= 511)) as [Hle|Hgt].
      * destruct (sort_pass_ok i A2) as (A3 & -> & H3); [lia|by replace i with (Z.min i 512) by lia|].
        exists A3. split; [done|]. by replace (Z.min (i + 1) 512) with (i + 1) by lia.
      * rewrite sort_pass_late by lia. exists A2. split; [done|].
        replace (Z.min (i + 1) 512) with (Z.min i 512) by lia. done.
    + cbn [mbind outcome_bind]. rewrite (contents_rd _ _ 0 H2) by lia. cbn [mbind outcome_bind].
      exists A2. split; [done|]. apply (contents_ext _ _ _ H2). intros k Hk. unfold before_pass. bool_cases; lia.
Qed.

(** ** matmult.c *)

(** The product is [C[i][j] = 20 * i * j]. *)
Lemma matmult_main_ok :
  matmult_main = Ok ((fun i => (fun j => 20 * Z.of_nat i * Z.of_nat j) <$> seq 0 20) <$> seq 0 20, 7220).
Proof. vm_compute. reflexivity. Qed.

(** ** ascii.c and readPrintInt.c *)

Definition ascii_entry_shown (i : Z) : list Z := decimal i ++ ascii_colon ++ [0] ++ [s8 i].

(** The row that starts at [i]. *)
Definition ascii_row_shown (i : Z) : list Z :=
  ascii_entry_shown i ++ ascii_tabs ++ [0] ++ ascii_entry_shown (i + 1) ++ ascii_tabs ++ [0] ++
  ascii_entry_shown (i + 2) ++ ascii_tabs ++ [0] ++ ascii_entry_shown (i + 3) ++ [10].

Section Ascii.
Context {W : Type} `{ConsoleLaws W ascii_literals}.

Lemma ascii_entry_ok i w : ready w -> 0 <= i < 2 ^ 31 ->
  exists w', ascii_entry i w = Ok w' /\ ready w' /\ typed w' = typed w /\ shown w' = shown w ++ ascii_entry_shown i.
Proof.
  intros Hr Hi. unfold ascii_entry.
  call (PrintInt_law w i Hr Hi) as w1 Hr1 Ht1 Ho1.
  call (PrintString_law w1 ascii_colon Hr1 ltac:(set_solver)) as w2 Hr2 Ht2 Ho2.
  destruct (PrintChar_law w2 i Hr2) as (w3 & -> & Hr3 & Ht3 & Ho3); [unfold is_s32; lia|].
  exists w3. split; [done|]. split; [done|]. split; [congruence|].
  rewrite Ho3, Ho2, Ho1. unfold ascii_entry_shown. by rewrite <- !app_assoc.
Qed.

(** The rows from 128 - 4 [k] on. *)
Fixpoint row_starts (k : nat) : list Z :=
  match k with O => [] | S k' => 128 - 4 * Z.of_nat k :: row_starts k' end.

Lemma ascii_rows_ok k : forall fuel w, ready w -> (k <= 24)%nat -> (k < fuel)%nat ->
  exists w', ascii_rows fuel (128 - 4 * Z.of_nat k) w = Ok w' /\ ready w' /\ typed w' = typed w /\
    shown w' = shown w ++ flat_map ascii_row_shown (row_starts k).
Proof.
  induction k as [|k IH]; intros [|fuel] w Hr Hk Hf; try lia.
  - exists w. split; [done|]. split; [done|]. split; [done|]. by rewrite app_nil_r.
  - cbn [ascii_rows row_starts flat_map]. set (i := 128 - 4 * Z.of_nat (S k)).
    assert (32 <= i <= 124) as Hi by lia. rewrite (proj2 (Z.leb_le _ _)) by lia.
    call (ascii_entry_ok i w Hr ltac:(lia)) as w1 Hr1 Ht1 Ho1.
    call (PrintString_law w1 ascii_tabs Hr1 ltac:(set_solver)) as w2 Hr2 Ht2 Ho2.
    call (ascii_entry_ok (i + 1) w2 Hr2 ltac:(lia)) as w3 Hr3 Ht3 Ho3.
    call (PrintString_law w3 ascii_tabs Hr3 ltac:(set_solver)) as w4 Hr4 Ht4 Ho4.
    replace (i + 1 + 1) with (i + 2) by lia.
    call (ascii_entry_ok (i + 2) w4 Hr4 ltac:(lia)) as w5 Hr5 Ht5 Ho5.
    call (PrintString_law w5 ascii_tabs Hr5 ltac:(set_solver)) as w6 Hr6 Ht6 Ho6.
    replace (i + 2 + 1) with (i + 3) by lia.
    call (ascii_entry_ok (i + 3) w6 Hr6 ltac:(lia)) as w7 Hr7 Ht7 Ho7.
    call (PrintChar_law w7 10 Hr7 ltac:(unfold is_s32; lia)) as w8 Hr8 Ht8 Ho8.
    replace (i + 3 + 1) with (128 - 4 * Z.of_nat k) by lia.
    destruct (IH fuel w8 Hr8 ltac:(lia) ltac:(lia)) as (w9 & -> & Hr9 & Ht9 & Ho9).
    exists w9. split; [done|]. split; [done|]. split; [congruence|].
    rewrite Ho9, Ho8, Ho7, Ho6, Ho5, Ho4, Ho3, Ho2, Ho1. unfold ascii_row_shown. by rewrite <- !app_assoc.
Qed.

(** ascii.c shows the characters from 32 to 127, four a row. *)
Lemma ascii_main_ok w : ready w ->
  exists w', ascii_main w = Ok w' /\ ready w' /\ typed w' = typed w /\
    shown w' = shown w ++ flat_map ascii_row_shown ((fun r => 32 + 4 * Z.of_nat r) <$> seq 0 24).
Proof. intros Hr. exact (ascii_rows_ok 24 25 w Hr ltac:(lia) ltac:(lia)). Qed.

End Ascii.

Lemma readPrintInt_main_ok {W} `{ConsoleLaws W readPrintInt_literals} cs rest w :
  ready w -> is_line cs -> 0 <= parse_int cs -> typed w = cs ++ 10 :: rest ->
  exists w', readPrintInt_main w = Ok w' /\ ready w' /\ typed w' = rest /\
    shown w' = shown w ++ ask_int ++ [0] ++ print_int ++ [0] ++ decimal (parse_int cs).
Proof.
  intros Hr Hl Hp Ht. unfold readPrintInt_main.
  call (PrintString_law w ask_int Hr ltac:(set_solver)) as w1 Hr1 Ht1 Ho1.
  destruct (ReadInt_law w1 cs rest Hr1 Hl) as (w2 & -> & Hr2 & Ht2 & Ho2); [congruence|]. cbn [mbind outcome_bind].
  call (PrintString_law w2 print_int Hr2 ltac:(set_solver)) as w3 Hr3 Ht3 Ho3.
  destruct (PrintInt_law w3 (parse_int cs) Hr3) as (w4 & -> & Hr4 & Ht4 & Ho4); [split; [done|apply parse_int_bound]|].
  exists w4. split; [done|]. split; [done|]. split; [congruence|]. rewrite Ho4, Ho3, Ho2, Ho1. by rewrite <- !app_assoc.
Qed.

Lemma print_all_ok {W} `{ConsoleLaws W lits} ls : forall w, ls ⊆ lits -> ready w ->
  exists w', print_all ls w = Ok w' /\ ready w' /\ typed w' = typed w /\ shown w' = shown w ++ flat_map (fun l => l ++ [0]) ls.
Proof.
  induction ls as [|l ls IH]; intros w Hl Hr; cbn [print_all flat_map].
  - exists w. by rewrite app_nil_r.
  - call (PrintString_law w l Hr ltac:(set_solver)) as w1 Hr1 Ht1 Ho1.
    destruct (IH w1) as (w' & -> & Hr' & Ht' & Ho'); [set_solver|done|]. exists w'. split; [done|]. split; [done|]. split; [congruence|].
    by rewrite Ho', Ho1, <- !app_assoc.
Qed.

(** [help] shows all its lines. *)
Lemma help_main_ok {W} `{ConsoleLaws W help_lines} w : ready w ->
  exists w', help_main w = Ok w' /\ ready w' /\ typed w' = typed w /\ shown w' = shown w ++ flat_map (fun l => l ++ [0]) help_lines.
Proof. intros Hr. by apply (print_all_ok (lits := help_lines)). Qed.

Lemma repeat_char_ok {W} `{ConsoleLaws W lits} c k w : is_s32 c -> 0 <= k -> ready w ->
  exists w', for_range 0 k (fun _ w => PrintChar c w) w = Ok w' /\ ready w' /\ typed w' = typed w /\
    shown w' = shown w ++ replicate (Z.to_nat k) (s8 c).
Proof.
  intros Hc Hk Hr.
  apply (for_range_inv (fun i w1 => ready w1 /\ typed w1 = typed w /\ shown w1 = shown w ++ replicate (Z.to_nat i) (s8 c))).
  - done.
  - split; [done|]. split; [done|]. by rewrite app_nil_r.
  - intros i w1 Hi (Hr1 & Ht1 & Ho1). destruct (PrintChar_law w1 c Hr1 Hc) as (w2 & -> & Hr2 & Ht2 & Ho2).
    exists w2. split; [done|]. split; [done|]. split; [congruence|]. rewrite Ho2, Ho1, <- app_assoc.
    replace (Z.to_nat (i + 1)) with (S (Z.to_nat i)) by lia. by rewrite replicate_S_end.
Qed.

(** [ping] and [pong] show a letter a thousand times. *)
Lemma ping_pong_ok {W} `{ConsoleLaws W lits} w : ready w ->
  (exists w', ping_main w = Ok w' /\ ready w' /\ shown w' = shown w ++ replicate 1000 65) /\
  (exists w', pong_main w = Ok w' /\ ready w' /\ shown w' = shown w ++ replicate 1000 66).
Proof.
  intros Hr. split.
  - destruct (repeat_char_ok (lits := lits) 65 1000 w) as (w' & E & Hr' & _ & Ho'); [by unfold is_s32|lia|done|]. by exists w'.
  - destruct (repeat_char_ok (lits := lits) 66 1000 w) as (w' & E & Hr' & _ & Ho'); [by unfold is_s32|lia|done|]. by exists w'.
Qed.

(** ** The kernel keeps the promises *)

Section KernelLaws.

(** The page table of the program. *)
Context (pt : list TranslationEntry) (n : Z).
Context (other : Z -> Syscall.t -> outcome Syscall.t) (raw : list Z) (junk : Z) (addr : list Z -> Z).
Context (lits : list (list Z)).
Context (Hraw : Z.of_nat (length raw) = MAX_BUFFER + 1).
Context (Hlits : Forall (fun cs => Forall Strings.is_char cs /\ Z.of_nat (length cs) <= MAX_BUFFER) lits).

(** Between two calls: the program's memory with its literals, the register file
    and a console without an operation in progress. *)
Definition kernel_ready (s : Syscall.t) : Prop :=
  Strings.uses pt n (machine s) /\ has_regs (machine s) /\ SynchConsole.quiet (gSynchConsole s) /\
  forall cs, cs ∈ lits -> Strings.string_at pt n (machine s) (addr cs) cs.

(** [m'] has the memory of [m]. *)
Definition same_memory (m m' : Machine.t) : Prop :=
  Strings.uses pt n m' /\ has_regs m' /\ mainMemory m' = mainMemory m.

Lemma kernel_ready_same s m' c :
  kernel_ready s -> same_memory (machine s) m' -> SynchConsole.quiet c -> kernel_ready (mk m' c).
Proof.
  intros (_ & _ & _ & Hs) (Hu & Hr & Hm) Hq. split; [done|]. split; [done|]. split; [done|].
  intros cs Hcs j x Hj. specialize (Hs cs Hcs j x Hj). unfold Strings.ubyte in *. cbn [machine]. by rewrite Hm.
Qed.

Lemma IncreasePC_same m : has_regs m -> Strings.uses pt n m ->
  exists m', IncreasePC m = Ok m' /\ same_memory m m' /\ registers m' !! 2%nat = registers m !! 2%nat.
Proof.
  intros Hr Hu. unfold IncreasePC.
  assert (Hrd : forall m0 r, has_regs m0 -> 0 <= r < NumTotalRegs -> exists v, ReadRegister m0 r = Ok v).
  { intros m0 r Hm0 Hr0. unfold has_regs in Hm0. destruct (lookup_lt_is_Some_2 (registers m0) (Z.to_nat r)) as [v Hv]; [lia|].
    exists v. by apply ReadRegister_ok. }
  assert (Hset : forall m0 r v, has_regs m0 -> has_regs (set_registers m0 (<[r := v]> (registers m0)))).
  { intros m0 r v Hm0. unfold has_regs. cbn. by rewrite length_insert. }
  destruct (Hrd m PCReg Hr) as [pc ->]; [done|]. cbn [mbind outcome_bind].
  rewrite WriteRegister_ok by done. cbn [mbind outcome_bind].
  destruct (Hrd (set_registers m (<[Z.to_nat PrevPCReg := pc]> (registers m))) NextPCReg) as [npc ->];
    [by apply Hset|done|]. cbn [mbind outcome_bind].
  rewrite WriteRegister_ok by (done || by apply Hset). cbn [mbind outcome_bind].
  rewrite WriteRegister_ok by (done || by apply Hset, Hset). eexists. split; [done|]. split.
  - split; [by repeat apply FileCalls.uses_set_registers|]. split; [by apply Hset, Hset, Hset|done].
  - cbn [registers set_registers]. by rewrite !list_lookup_insert_ne by done.
Qed.

(** The state at the entry of a call. *)
Lemma entered_ok code arg s : kernel_ready s ->
  same_memory (machine s) (machine (entered code arg s)) /\
  registers (machine (entered code arg s)) !! 2%nat = Some code /\
  registers (machine (entered code arg s)) !! 4%nat = Some arg.
Proof.
  intros (Hu & Hr & _). unfold entered, same_memory, has_regs, NumTotalRegs in *. cbn [machine set_machine registers set_registers mainMemory].
  split; [split; [by apply FileCalls.uses_set_registers|by rewrite !length_insert]|].
  split; [rewrite list_lookup_insert_ne by done|]; apply list_lookup_insert_eq; rewrite ?length_insert; lia.
Qed.

(** A call whose handler is [f] and keeps the memory. *)
Lemma kernel_call_ok code arg s (f : Syscall.t -> outcome Syscall.t) s1 :
  kernel_ready s -> f (entered code arg s) = Ok s1 ->
  (forall s0, registers (machine s0) !! 2%nat = Some code ->
     ExceptionHandler other raw junk SyscallException s0 = (s ← f s0; m ← IncreasePC (machine s); Ok (set_machine s m))) ->
  same_memory (machine s) (machine s1) -> SynchConsole.quiet (gSynchConsole s1) ->
  exists s2, kernel_call other raw junk code arg s = Ok s2 /\ kernel_ready s2 /\ gSynchConsole s2 = gSynchConsole s1 /\
    registers (machine s2) !! 2%nat = registers (machine s1) !! 2%nat.
Proof.
  intros Hs E Hf (Hu1 & Hr1 & Hm1) Hq1. destruct (entered_ok code arg s Hs) as (_ & H2 & _).
  unfold kernel_call. rewrite Hf by done. rewrite E. cbn [mbind outcome_bind].
  destruct (IncreasePC_same (machine s1) Hr1 Hu1) as (m' & -> & (Hu' & Hr' & Hm') & H2').
  cbn [mbind outcome_bind]. eexists. split; [done|]. split; [|done].
  apply (kernel_ready_same s); [done| |done]. split; [done|]. split; [done|congruence].
Qed.

(** The dispatch, for a known number. *)
Ltac by_code :=
  let H := fresh in intros ? H; unfold ExceptionHandler; rewrite (ReadRegister_ok _ 2 _ ltac:(done) H); reflexivity.

#[local] Abbreviation screen s := (Console.output (SynchConsole.cons (gSynchConsole s))).
#[local] Abbreviation keys s := (SynchConsole.typed (gSynchConsole s)).

Lemma kernel_PrintString s cs : kernel_ready s -> cs ∈ lits ->
  exists s', kernel_call other raw junk SC_PrintString (addr cs) s = Ok s' /\ kernel_ready s' /\
    keys s' = keys s /\ screen s' = screen s ++ cs ++ [0].
Proof.
  intros Hs Hcs. destruct (entered_ok SC_PrintString (addr cs) s Hs) as ((Hu & Hr & Hm) & _ & H4).
  pose proof Hs as (_ & _ & Hq & Hat). destruct (proj1 (Forall_forall _ _) Hlits cs Hcs) as [Hch Hlen].
  destruct (Strings.PrintString_ok pt n (entered SC_PrintString (addr cs) s) (addr cs) cs)
    as (s1 & E & (Hu1 & Hr1 & Hm1) & Hq1 & Ht1 & Ho1); try done.
  { intros j x Hj. exact (Hat cs Hcs j x Hj). }
  destruct (kernel_call_ok SC_PrintString (addr cs) s PrintStringFunction s1 Hs E) as (s2 & E2 & Hs2 & Hc2 & _);
    [by_code| |done|].
  { split; [done|]. split; [unfold has_regs in *; by rewrite Hr1|congruence]. }
  exists s2. split; [done|]. split; [done|]. by rewrite Hc2.
Qed.

Lemma kernel_PrintInt s v : kernel_ready s -> 0 <= v < 2 ^ 31 ->
  exists s', kernel_call other raw junk SC_PrintInt v s = Ok s' /\ kernel_ready s' /\
    keys s' = keys s /\ screen s' = screen s ++ decimal v.
Proof.
  intros Hs Hv. destruct (entered_ok SC_PrintInt v s Hs) as (Hsame & _ & H4). pose proof Hs as (_ & _ & Hq & _).
  destruct (PrintInt_ok raw (entered SC_PrintInt v s) v) as (c & ds & E & Hqc & _ & _ & -> & Ho & Ht); try done.
  destruct (kernel_call_ok SC_PrintInt v s (PrintIntFunction raw) _ Hs E) as (s2 & E2 & Hs2 & Hc2 & _); [by_code|done|done|].
  exists s2. split; [done|]. split; [done|]. by rewrite Hc2.
Qed.

Lemma kernel_PrintChar s v : kernel_ready s ->
  exists s', kernel_call other raw junk SC_PrintChar v s = Ok s' /\ kernel_ready s' /\
    keys s' = keys s /\ screen s' = screen s ++ [s8 v].
Proof.
  intros Hs. destruct (entered_ok SC_PrintChar v s Hs) as (Hsame & _ & H4). pose proof Hs as (_ & _ & Hq & _).
  destruct (SynchConsole.Write_ok (gSynchConsole s) [s8 v] 1 Hq) as (c & E & Hqc & Ho & Ht); [cbn; lia|].
  destruct (kernel_call_ok SC_PrintChar v s PrintCharFunction (set_console (entered SC_PrintChar v s) c) Hs)
    as (s2 & E2 & Hs2 & Hc2 & _); [|by_code|done|done|].
  { unfold PrintCharFunction. rewrite (ReadRegister_ok _ 4 v) by done. cbn [mbind outcome_bind].
    change (gSynchConsole (entered SC_PrintChar v s)) with (gSynchConsole s). by rewrite E. }
  exists s2. split; [done|]. split; [done|]. by rewrite Hc2.
Qed.

Lemma kernel_ReadInt s cs rest : kernel_ready s -> is_line cs -> keys s = cs ++ 10 :: rest ->
  exists s', (s ← kernel_call other raw junk SC_ReadInt 0 s; v ← ReadRegister (machine s) 2; Ok (v, s)) = Ok (parse_int cs, s') /\
    kernel_ready s' /\ keys s' = rest /\ screen s' = screen s.
Proof.
  intros Hs [Hpl Hlen] Hty. destruct (entered_ok SC_ReadInt 0 s Hs) as ((Hu & Hr & Hm) & _ & _). pose proof Hs as (_ & _ & Hq & _).
  destruct (ReadInt_ok raw (entered SC_ReadInt 0 s) cs rest) as (c & E & Hqc & Ht & Ho); try done.
  destruct (kernel_call_ok SC_ReadInt 0 s (ReadIntFunction raw) _ Hs E) as (s2 & E2 & Hs2 & Hc2 & H2); [by_code| |done|].
  { cbn [machine]. split; [by apply FileCalls.uses_set_registers|]. split; [|done]. unfold has_regs in *. cbn. by rewrite length_insert. }
  exists s2. split; [|split; [done|by rewrite Hc2]]. rewrite E2. cbn [mbind outcome_bind].
  rewrite (ReadRegister_ok _ 2 (parse_int cs)); [done|done|]. etrans; [exact H2|]. cbn [machine registers set_registers].
  apply list_lookup_insert_eq. unfold has_regs, NumTotalRegs in Hr. lia.
Qed.

Definition kernel_laws : @ConsoleLaws Syscall.t (kernel_calls other raw junk addr) lits :=
  @Build_ConsoleLaws Syscall.t (kernel_calls other raw junk addr) lits kernel_ready (fun s => keys s) (fun s => screen s)
    kernel_PrintString kernel_PrintInt (fun s c Hs _ => kernel_PrintChar s c Hs) kernel_ReadInt.

End KernelLaws.

(** The literals of the programs can be copied by [PrintString]. *)
#[local] Instance is_char_dec c : Decision (Strings.is_char c).
Proof. unfold Strings.is_char. apply _. Defined.

Definition printable (lits : list (list Z)) : Prop :=
  Forall (fun cs => Forall Strings.is_char cs /\ Z.of_nat (length cs) <= MAX_BUFFER) lits.

Lemma literals_printable : printable sort_literals /\ printable ascii_literals /\ printable readPrintInt_literals /\ printable help_lines.
Proof. split_and!; apply (bool_decide_unpack _); vm_compute; exact I. Qed.

(** ** A program in memory *)

(** The literals one after the other, and where each of them is. *)
Definition literal_segment (lits : list (list Z)) : list Z := flat_map (fun cs => cs ++ [0]) lits.

Fixpoint place (lits : list (list Z)) (a : Z) (cs : list Z) : Z :=
  match lits with
  | [] => 0
  | l :: lits' => if decide (l = cs) then a else place lits' (a + Z.of_nat (length l) + 1) cs
  end.

Lemma place_ok lits : forall a cs, cs ∈ lits ->
  exists pre post, literal_segment lits = pre ++ (cs ++ [0]) ++ post /\ place lits a cs = a + Z.of_nat (length pre).
Proof.
  induction lits as [|l lits IH]; intros a cs Hcs; [set_solver|]. cbn [place].
  change (literal_segment (l :: lits)) with ((l ++ [0]) ++ literal_segment lits).
  destruct (decide (l = cs)) as [->|Hne].
  - exists [], (literal_segment lits). split; [done|]. cbn. lia.
  - apply elem_of_cons in Hcs as [->|Hcs]; [done|].
    destruct (IH (a + Z.of_nat (length l) + 1) cs Hcs) as (pre & post & E & ->).
    exists ((l ++ [0]) ++ pre), post. split; [by rewrite E, !app_assoc|]. rewrite !length_app. cbn [length]. lia.
Qed.

(** The machine with the literals in page 0, which is in frame 5. *)
Definition loaded (lits : list (list Z)) (m : Machine.t) : Machine.t :=
  set_memory (with_table m demo_table 2) (splice (mainMemory m) 2560 (literal_segment lits)).

Lemma loaded_ready lits m keys : has_regs m -> mem_ok m -> printable lits ->
  (length (literal_segment lits) <= 512)%nat -> Forall is_u8 (literal_segment lits) ->
  kernel_ready demo_table 2 (place lits 0) lits (mk (loaded lits m) (SynchConsole.SynchConsole_new keys)).
Proof.
  intros Hr [Hl Hb] Hp Hlen Hu8. unfold MemorySize, NumPhysPages, PageSize, SectorSize in Hl.
  split; [|split; [exact Hr|split; [done|]]].
  - split; [|by exists demo_table]. unfold mem_ok, loaded. cbn [machine mainMemory set_memory]. rewrite length_splice by lia.
    split; [exact Hl|]. by apply Forall_splice.
  - intros cs Hcs j c Hj. destruct (place_ok lits 0 cs Hcs) as (pre & post & E & ->).
    destruct (proj1 (Forall_forall _ _) Hp cs Hcs) as [Hch _]. pose proof (lookup_lt_Some _ _ _ Hj) as Hlt.
    apply (f_equal length) in E as El. rewrite !length_app in El. rewrite length_app in Hlt. cbn [length] in *.
    rewrite Z.add_0_l, <- Nat2Z.inj_add, s32_small by (unfold is_s32; lia).
    unfold Strings.ubyte. assert (xlate demo_table 2 (Z.of_nat (length pre + j)) 1 false = inr (2560 + Z.of_nat (length pre + j))) as ->.
    { unfold xlate, vpn_of, offset_of, PageSize, SectorSize. rewrite u32_small by (unfold is_u32; lia).
      rewrite Z.div_small, Z.mod_small by lia. done. }
    unfold loaded. cbn [machine mainMemory set_memory]. rewrite lookup_splice_in by lia.
    replace (Z.to_nat (2560 + Z.of_nat (length pre + j)) - 2560)%nat with (length pre + j)%nat by lia.
    rewrite E, lookup_app_r, Nat.add_comm, Nat.add_sub by lia. rewrite lookup_app_l by (rewrite length_app; cbn; lia).
    rewrite Hj. cbn. f_equal. by apply (Strings.text_zero_s8 cs j).
Qed.

Lemma fresh_ready lits keys : printable lits ->
  (length (literal_segment lits) <= 512)%nat -> Forall is_u8 (literal_segment lits) ->
  exists m, m = Machine_new 0 0 false /\
    kernel_ready demo_table 2 (place lits 0) lits (mk (loaded lits m) (SynchConsole.SynchConsole_new keys)).
Proof.
  intros Hp Hlen Hu8. destruct fresh_machine as [m E]. exists m. split; [done|].
  assert (regs_ok m /\ mem_ok m) as [[Hr _] Hm] by (rewrite E; exact (Machine_new_ok 0 0 false)).
  by apply loaded_ready.
Qed.

(** ** Theorems *)

(** C11: bubblesort.c on the kernel sorts what is typed.  The program's calls go
    through [ExceptionHandler], the copies from user memory and the console.
    When the lines that are typed hold a number [n] of at most 100 and [n]
    non-negative numbers, the program runs to its [Halt()], has read exactly
    these lines, and the screen shows its prompts and then the same numbers in
    ascending order.  (A negative number is sorted, too, but [PrintInt] displays
    it wrongly.) *)
Theorem bubblesort_sorts pt n other raw junk addr arr ln lns rest s :
  Z.of_nat (length raw) = MAX_BUFFER + 1 -> kernel_ready pt n addr sort_literals s -> length arr = 100%nat ->
  is_line ln -> Forall is_line lns -> parse_int ln = Z.of_nat (length lns) -> (length lns <= 100)%nat ->
  Forall (fun cs => 0 <= parse_int cs) lns ->
  SynchConsole.typed (gSynchConsole s) = unlines (ln :: lns) ++ rest ->
  exists s' xs, @bubblesort_main _ (kernel_calls other raw junk addr) arr s = Ok s' /\
    SynchConsole.typed (gSynchConsole s') = rest /\
    xs ≡ₚ parse_int <$> lns /\ Sorted Z.le xs /\
    Console.output (SynchConsole.cons (gSynchConsole s')) =
      Console.output (SynchConsole.cons (gSynchConsole s)) ++ bubblesort_screen (length lns) xs.
Proof.
  intros Hraw Hs Harr Hln Hlns Hn Hmax Hpos Ht.
  pose proof (@bubblesort_ok _ _ (kernel_laws pt n other raw junk addr sort_literals Hraw (proj1 literals_printable))
    arr ln lns rest s Hs Harr Hln Hlns Hn Hmax Hpos Ht) as (s' & xs & E & _ & H').
  by exists s', xs.
Qed.

(** Three numbers are typed to a program whose literals are in page 0. *)
Lemma bubblesort_sorts_witness : exists m s' xs,
  m = Machine_new 0 0 false /\
  @bubblesort_main _ (kernel_calls (fun _ s => Ok s) (replicate 256 7) 0 (place sort_literals 0)) (replicate 100 7)
    (mk (loaded sort_literals m) (SynchConsole.SynchConsole_new [51; 10; 53; 10; 49; 50; 10; 52; 10])) = Ok s' /\
  xs ≡ₚ [5; 12; 4] /\ Sorted Z.le xs.
Proof.
  assert (Hu : Forall is_u8 (literal_segment sort_literals)).
  { unfold is_u8. apply (bool_decide_unpack _). vm_compute. exact I. }
  destruct (fresh_ready sort_literals [51; 10; 53; 10; 49; 50; 10; 52; 10]) as (m & E & Hs).
  - exact (proj1 literals_printable).
  - apply Nat.leb_le. vm_compute. reflexivity.
  - exact Hu.
  - destruct (bubblesort_sorts demo_table 2 (fun _ s => Ok s) (replicate 256 7) 0 (place sort_literals 0) (replicate 100 7)
      [51] [[53]; [49; 50]; [52]] [] _ eq_refl Hs eq_refl) as (s' & xs & Em & _ & Hp & Hsort & _).
    + split; [repeat constructor; unfold plain; lia|reflexivity].
    + repeat constructor; unfold plain; lia.
    + reflexivity.
    + cbn. lia.
    + repeat constructor; vm_compute; discriminate.
    + reflexivity.
    + exists m, s', xs. split; [exact E|]. split; [exact Em|]. split; [exact Hp|exact Hsort].
Defined.

(** The program does not check [n]: with more than 100 elements it writes past
    the end of its array. *)
Theorem bubblesort_array_overrun pt n other raw junk addr arr ln lns l rest s :
  Z.of_nat (length raw) = MAX_BUFFER + 1 -> kernel_ready pt n addr sort_literals s -> length arr = 100%nat ->
  is_line ln -> Forall is_line lns -> is_line l -> 100 < parse_int ln -> length lns = 100%nat ->
  SynchConsole.typed (gSynchConsole s) = unlines (ln :: lns ++ [l]) ++ rest ->
  @bubblesort_main _ (kernel_calls other raw junk addr) arr s = Fault BadAccess.
Proof.
  intros Hraw Hs.
  exact (@bubblesort_overruns _ _ (kernel_laws pt n other raw junk addr sort_literals Hraw (proj1 literals_printable))
    arr ln lns l rest s Hs).
Qed.

(** ascii.c on the kernel shows the characters 32 to 127: the last of them, the
    control character 127, is past the bound of the loop. *)
Theorem ascii_shows_table pt n other raw junk addr s :
  Z.of_nat (length raw) = MAX_BUFFER + 1 -> kernel_ready pt n addr ascii_literals s ->
  exists s' rows, @ascii_main _ (kernel_calls other raw junk addr) s = Ok s' /\
    Console.output (SynchConsole.cons (gSynchConsole s')) =
      Console.output (SynchConsole.cons (gSynchConsole s)) ++ rows ++ ascii_entry_shown 127 ++ [10].
Proof.
  intros Hraw Hs.
  destruct (@ascii_main_ok _ _ (kernel_laws pt n other raw junk addr ascii_literals Hraw (proj1 (proj2 literals_printable))) s Hs)
    as (s' & E & _ & _ & Ho).
  exists s', (flat_map ascii_row_shown ((fun r => 32 + 4 * Z.of_nat r) <$> seq 0 23) ++
    ascii_entry_shown 124 ++ ascii_tabs ++ [0] ++ ascii_entry_shown 125 ++ ascii_tabs ++ [0] ++
    ascii_entry_shown 126 ++ ascii_tabs ++ [0]).
  split; [done|]. etrans; [exact Ho|]. f_equal.
Qed.

(** sort.c does not sort: the inner loop starts at [i], so the elements before it
    are never moved again.  The array ends as 1023, 1021, ..., 1, 2, 4, ..., 1024,
    and the program exits with 1023. *)
Theorem sort_c_result A : Z.of_nat (length A) = 1024 ->
  exists A', sort_main A = Ok (A', 1023) /\ ~ Sorted Z.le A' /\
    forall k, 0 <= k < 1024 -> A' !! Z.to_nat k = Some (if k <? 512 then 1023 - 2 * k else 2 * k - 1022).
Proof.
  intros Hl. destruct (sort_main_ok A Hl) as (A' & E & Hl' & Hk). exists A'. split; [done|]. split; [|exact Hk].
  pose proof (Hk 0 ltac:(lia)) as H0. pose proof (Hk 1 ltac:(lia)) as H1.
  destruct A' as [|x [|y A']]; [done|done|]. injection H0 as ->. injection H1 as ->.
  intros Hs. apply Sorted_inv in Hs as [_ Hd]. apply HdRel_inv in Hd. lia.
Qed.

Lemma sort_c_result_witness : exists A', sort_main (replicate 1024 0) = Ok (A', 1023) /\ ~ Sorted Z.le A'.
Proof.
  destruct (sort_c_result (replicate 1024 0)) as (A' & E & Hs & _).
  - rewrite length_replicate. reflexivity.
  - exact (ex_intro _ A' (conj E Hs)).
Defined.

End Programs.
