(* ===== verification/NetworkDev.v ===== *)
(** * machine/network.{h,cc}: the network device

    [Network.t] is class [Network]: an unreliable packet device on top of UNIX
    datagram sockets.  The sockets are a parameter, the class [Sockets] with the
    laws of datagram sockets as the code relies on them; [SocketModel] is an
    instance.  Machine [n] has the socket of the name SOCKET_n, so a name is the
    number in it.  The probability [chanceToWork] is a rational number, and the
    number [Random()] gives is an argument.  A call of a handler is an answer of
    the operation, and [scheduled] is what the device asked of
    [Interrupt::Schedule]. *)

From S2P Require Import Prelude.
From Stdlib Require Import QArith.

Local Open Scope Z_scope.

(** ** UNIX datagram sockets *)

Class Sockets (W : Type) := {
  so_bind : W -> Z -> W * Z;                      (* unlink and bind a name; the result of bind *)
  so_unlink : W -> Z -> W;                        (* close and unlink *)
  so_sendto : W -> Z -> list Z -> W * Z;          (* sendto a name *)
  so_poll : W -> Z -> bool;                       (* select on the socket of a name *)
  so_recvfrom : W -> Z -> Z -> W * Z * list Z;    (* recvfrom with a size *)
  so_queue : W -> Z -> option (list (list Z));    (* the datagrams that wait, if the name is bound *)
}.

Class SocketsLaws (W : Type) `{Sockets W} := {
  so_bind_ok (w : W) a : exists w', so_bind w a = (w', 0) /\ so_queue w' a = Some [] /\
    forall b, b <> a -> so_queue w' b = so_queue w b;
  so_sendto_ok (w : W) a q bs : so_queue w a = Some q -> exists w', so_sendto w a bs = (w', Z.of_nat (length bs)) /\
    so_queue w' a = Some (q ++ [bs]) /\ forall b, b <> a -> so_queue w' b = so_queue w b;
  so_sendto_unbound (w : W) a bs : so_queue w a = None -> so_sendto w a bs = (w, -1);
  so_poll_ok (w : W) a q : so_queue w a = Some q -> so_poll w a = negb (bool_decide (q = []));
  so_recvfrom_ok (w : W) a bs q n : so_queue w a = Some (bs :: q) -> Z.of_nat (length bs) <= n ->
    exists w', so_recvfrom w a n = (w', Z.of_nat (length bs), bs) /\ so_queue w' a = Some q /\
      forall b, b <> a -> so_queue w' b = so_queue w b;
  so_unlink_ok (w : W) a : so_queue (so_unlink w a) a = None /\ forall b, b <> a -> so_queue (so_unlink w a) b = so_queue w b;
}.

Module Network.

(** ** Packets *)

Record PacketHeader := mkPacketHeader { to : Z; from : Z; length_ : Z }.

Definition PacketHeaderSize : Z := 12.
Definition MaxWireSize : Z := 64.
Definition MaxPacketSize : Z := MaxWireSize - PacketHeaderSize.

Definition header_to_bytes (h : PacketHeader) : list Z :=
  le_bytes 4 (to h) ++ le_bytes 4 (from h) ++ le_bytes 4 (length_ h).
Definition header_of_bytes (bs : list Z) : PacketHeader :=
  mkPacketHeader (s32 (le_value (slice bs 0 4))) (s32 (le_value (slice bs 4 4))) (le_value (slice bs 8 4)).

Inductive event := NetworkReadPoll | NetworkSendDone.
#[export] Instance event_eq_dec : EqDecision event.
Proof. solve_decision. Defined.

Record t := mk {
  ident : Z;
  chanceToWork : Q;
  sendBusy : bool;
  inHdr : PacketHeader;
  inbox : list Z;                 (* char inbox[MaxPacketSize] *)
  scheduled : list event;
  numPacketsSent : Z;             (* of stats *)
  numPacketsRecvd : Z;
}.

Definition set_in n h b : t := mk (ident n) (chanceToWork n) (sendBusy n) h b (scheduled n) (numPacketsSent n) (numPacketsRecvd n).
Definition schedule n e : t := mk (ident n) (chanceToWork n) (sendBusy n) (inHdr n) (inbox n) (scheduled n ++ [e]) (numPacketsSent n) (numPacketsRecvd n).
(** An interrupt that was scheduled happens: it is taken off the list. *)
Fixpoint without (e : event) (es : list event) : option (list event) :=
  match es with
  | [] => None
  | e' :: es' => if decide (e' = e) then Some es' else cons e' <$> without e es'
  end.
Definition fire (e : event) n : option t :=
  (fun es => mk (ident n) (chanceToWork n) (sendBusy n) (inHdr n) (inbox n) es (numPacketsSent n) (numPacketsRecvd n)) <$>
    without e (scheduled n).
Definition set_sent n : t := mk (ident n) (chanceToWork n) false (inHdr n) (inbox n) (scheduled n) (numPacketsSent n + 1) (numPacketsRecvd n).
Definition count_recvd n : t := mk (ident n) (chanceToWork n) (sendBusy n) (inHdr n) (inbox n) (scheduled n) (numPacketsSent n) (numPacketsRecvd n + 1).
Definition set_length (h : PacketHeader) (l : Z) : PacketHeader := mkPacketHeader (to h) (from h) l.

Section operations.
Context {W : Type} `{Sockets W}.
Implicit Types w : W.

(** ** The sockets of machine/sysdep.cc *)

Definition AssignNameToSocket w (name : Z) : outcome W :=
  let '(w, retVal) := so_bind w name in
  _ ← ASSERT (retVal >=? 0); Ok w.

Definition PollSocket w (name : Z) : bool := so_poll w name.

Definition ReadFromSocket w (name packetSize : Z) : outcome (W * list Z) :=
  let '(w, retVal, buffer) := so_recvfrom w name packetSize in
  _ ← ASSERT (retVal =? packetSize); Ok (w, buffer).

Definition SendToSocket w (buffer : list Z) (packetSize toName : Z) : outcome W :=
  let '(w, retVal) := so_sendto w toName buffer in
  _ ← ASSERT (retVal =? packetSize); Ok w.

(** ** The device *)

Definition clamp (reliability : Q) : Q :=
  if Qlt_le_dec reliability 0 then 0%Q else if Qlt_le_dec 1 reliability then 1%Q else reliability.

(** [h0] and [raw]: what the fields [inHdr] and [inbox] held. *)
Definition Network_new w (addr : Z) (reliability : Q) (h0 : PacketHeader) (raw : list Z) : outcome (t * W) :=
  w ← AssignNameToSocket w addr;
  Ok (schedule (mk addr (clamp reliability) false (set_length h0 0) raw [] 0 0) NetworkReadPoll, w).

Definition Network_destroy w (n : t) : W := so_unlink w (ident n).

(** The answer tells whether [readHandler] was called. *)
Definition CheckPktAvail w (n : t) : outcome (t * W * bool) :=
  let n := schedule n NetworkReadPoll in
  if negb (length_ (inHdr n) =? 0) then Ok (n, w, false)
  else if negb (PollSocket w (ident n)) then Ok (n, w, false)
  else
    '(w, buffer) ← ReadFromSocket w (ident n) MaxWireSize;
    let h := header_of_bytes buffer in
    _ ← ASSERT ((to h =? ident n) && (length_ h <=? MaxPacketSize));
    let n := set_in n h (splice (inbox n) 0 (slice buffer (Z.to_nat PacketHeaderSize) (Z.to_nat (length_ h)))) in
    Ok (count_recvd n, w, true).

(** [SendDone] calls [writeHandler] always. *)
Definition SendDone (n : t) : t := set_sent n.

(** [Random() % 100 >= chanceToWork * 100] *)
Definition lost (n : t) (random : Z) : bool := Qle_bool (chanceToWork n * 100)%Q (inject_Z (Z.rem random 100)).

(** [bcopy] of the first [n] bytes of an array. *)
Definition bcopy (data : list Z) (n : Z) : outcome (list Z) :=
  if (0 <=? n) && (n <=? Z.of_nat (length data)) then Ok (take (Z.to_nat n) data) else Fault BadAccess.

(** [new char[n]]; [raw] gives what the memory held. *)
Definition new_char (raw : Z -> Z) (n : Z) : list Z := (fun i => u8 (raw i)) <$> seqZ 0 n.

Definition Send w (n : t) (hdr : PacketHeader) (data : list Z) (random : Z) (raw : Z -> Z) : outcome (t * W) :=
  _ ← ASSERT (negb (sendBusy n) && (length_ hdr >? 0) && (length_ hdr <=? MaxPacketSize) && (from hdr =? ident n));
  let n := schedule n NetworkSendDone in
  if lost n random then Ok (n, w)
  else
    payload ← bcopy data (length_ hdr);
    let buffer := splice (splice (new_char raw MaxWireSize) 0 (header_to_bytes hdr)) (Z.to_nat PacketHeaderSize) payload in
    w ← SendToSocket w buffer MaxWireSize (to hdr);
    Ok (n, w).

(** The header, and the bytes copied to [data]. *)
Definition Receive (n : t) : PacketHeader * list Z * t :=
  let hdr := inHdr n in
  let n := set_in n (set_length hdr 0) (inbox n) in
  (hdr, if negb (length_ hdr =? 0) then take (Z.to_nat (length_ hdr)) (inbox n) else [], n).

End operations.

(** ** The packet on the wire *)

Lemma length_new_char raw n : 0 <= n -> Z.of_nat (length (new_char raw n)) = n.
Proof. intros Hn. unfold new_char. rewrite length_fmap, length_seqZ. lia. Qed.

Definition header_ok (h : PacketHeader) : Prop := is_s32 (to h) /\ is_s32 (from h) /\ is_u32 (length_ h).

Lemma length_header h : length (header_to_bytes h) = 12%nat.
Proof. unfold header_to_bytes. by rewrite !length_app, !length_le_bytes. Qed.

Lemma header_roundtrip h rest : header_ok h -> header_of_bytes (header_to_bytes h ++ rest) = h.
Proof.
  intros (Ht & Hf & Hl). unfold header_of_bytes, header_to_bytes. rewrite <- !app_assoc.
  pose proof (length_le_bytes 4 (to h)) as L1. pose proof (length_le_bytes 4 (from h)) as L2. pose proof (length_le_bytes 4 (length_ h)) as L3.
  rewrite slice_app_start, (slice_app_mid (le_bytes 4 (to h)) (le_bytes 4 (from h))) by done.
  rewrite (app_assoc (le_bytes 4 (to h))), (slice_app_mid _ (le_bytes 4 (length_ h)) rest 8 4) by (rewrite ?length_app; lia).
  rewrite !le_value_bytes. destruct h as [a b c]. cbn in *. f_equal.
  - etransitivity; [apply s32_u32|by apply s32_small].
  - etransitivity; [apply s32_u32|by apply s32_small].
  - by apply Z.mod_small.
Qed.

(** The datagram that [Send] makes of a header and its data. *)
Definition packet (hdr : PacketHeader) (payload raw : list Z) : list Z :=
  splice (splice raw 0 (header_to_bytes hdr)) (Z.to_nat PacketHeaderSize) payload.

(** A datagram as it comes off the wire. *)
Definition well_formed (me : Z) (bs : list Z) : Prop :=
  Z.of_nat (length bs) = MaxWireSize /\ to (header_of_bytes bs) = me /\ 0 < length_ (header_of_bytes bs) <= MaxPacketSize.
Definition payload_of (bs : list Z) : list Z :=
  slice bs (Z.to_nat PacketHeaderSize) (Z.to_nat (length_ (header_of_bytes bs))).

Lemma packet_ok hdr payload raw :
  header_ok hdr -> Z.of_nat (length payload) = length_ hdr -> 0 < length_ hdr <= MaxPacketSize -> Z.of_nat (length raw) = MaxWireSize ->
  header_of_bytes (packet hdr payload raw) = hdr /\ payload_of (packet hdr payload raw) = payload /\
  well_formed (to hdr) (packet hdr payload raw).
Proof.
  intros Hh Hp Hl Hr. unfold MaxPacketSize, MaxWireSize, PacketHeaderSize in *. pose proof (length_header hdr) as L12.
  assert (E : packet hdr payload raw = header_to_bytes hdr ++ payload ++ drop (12 + length payload) raw).
  { unfold packet, splice, PacketHeaderSize. change (Z.to_nat 12) with 12%nat. rewrite take_0, L12. cbn [app].
    rewrite take_app_length' by done. f_equal. f_equal. rewrite drop_app_ge by lia. rewrite L12, drop_drop. f_equal. lia. }
  assert (Eh : header_of_bytes (packet hdr payload raw) = hdr) by (rewrite E; by apply header_roundtrip).
  split; [exact Eh|]. unfold payload_of, well_formed. rewrite Eh. split; [|split; [|split; [done|unfold MaxPacketSize, MaxWireSize, PacketHeaderSize; lia]]].
  - rewrite E. apply slice_app_mid; unfold PacketHeaderSize; lia.
  - rewrite E, !length_app, length_drop. unfold MaxWireSize. lia.
Qed.

(** A reliable network loses nothing. *)
Lemma reliable n random : (1 <= chanceToWork n)%Q -> 0 <= random -> lost n random = false.
Proof.
  intros E Hr. unfold lost. apply not_true_iff_false. intros Hle%Qle_bool_iff.
  assert (H100 : (inject_Z 100 <= inject_Z (Z.rem random 100))%Q).
  { eapply Qle_trans; [|exact Hle]. change (inject_Z 100) with (1 * 100)%Q. apply Qmult_le_compat_r; [exact E|]. discriminate. }
  rewrite <- Zle_Qle in H100. pose proof (Z.rem_bound_pos random 100 Hr ltac:(lia)). lia.
Qed.

Section laws.
Context {W : Type} `{SL : SocketsLaws W}.
Implicit Types w : W.

(** A packet that the network may send. *)
Definition sendable (n : t) (hdr : PacketHeader) (data : list Z) : Prop :=
  sendBusy n = false /\ header_ok hdr /\ 0 < length_ hdr <= MaxPacketSize /\ length_ hdr <= Z.of_nat (length data) /\ from hdr = ident n.

Lemma Send_eq w n hdr data random raw : sendable n hdr data ->
  Send w n hdr data random raw =
    if lost n random then Ok (schedule n NetworkSendDone, w)
    else w ← SendToSocket w (packet hdr (take (Z.to_nat (length_ hdr)) data) (new_char raw MaxWireSize)) MaxWireSize (to hdr);
         Ok (schedule n NetworkSendDone, w).
Proof.
  intros (Hb & _ & Hl & Hd & Hf). unfold Send. rewrite Hb, Hf, Z.eqb_refl, Z.gtb_ltb, (proj2 (Z.ltb_lt 0 _)), (proj2 (Z.leb_le _ _)) by lia.
  cbn [negb andb ASSERT mbind outcome_bind]. change (lost (schedule n NetworkSendDone) random) with (lost n random).
  destruct (lost n random); [done|]. unfold bcopy. rewrite !(proj2 (Z.leb_le _ _)) by lia. done.
Qed.

(** A packet that is not lost is appended to the datagrams of its destination;
    without a socket there the assertion on the result of sendto fails. *)
Lemma Send_ok w n hdr data random raw : sendable n hdr data -> lost n random = false ->
  match so_queue w (to hdr) with
  | None => Send w n hdr data random raw = Fault AssertFailed
  | Some q => exists w', Send w n hdr data random raw = Ok (schedule n NetworkSendDone, w') /\
      (forall b, b <> to hdr -> so_queue w' b = so_queue w b) /\
      so_queue w' (to hdr) = Some (q ++ [packet hdr (take (Z.to_nat (length_ hdr)) data) (new_char raw MaxWireSize)])
  end.
Proof.
  intros Hs El. rewrite Send_eq, El by done. destruct Hs as (_ & Hh & Hl & Hd & _). unfold SendToSocket.
  destruct (so_queue w (to hdr)) as [q|] eqn:Eq; [|by rewrite (so_sendto_unbound w _ _ Eq)].
  destruct (packet_ok hdr (take (Z.to_nat (length_ hdr)) data) (new_char raw MaxWireSize) Hh) as (_ & _ & Hlen & _);
    [rewrite length_take; lia|done|by apply length_new_char|].
  destruct (so_sendto_ok w (to hdr) q (packet hdr (take (Z.to_nat (length_ hdr)) data) (new_char raw MaxWireSize)) Eq) as (w' & -> & Hq' & Ho).
  rewrite Hlen, Z.eqb_refl. cbn [ASSERT mbind outcome_bind]. by exists w'.
Qed.

(** The device takes a packet only when it holds none. *)
Lemma CheckPktAvail_ok w n q :
  so_queue w (ident n) = Some q -> Forall (well_formed (ident n)) q -> Z.of_nat (length (inbox n)) = MaxPacketSize ->
  exists w' n' called, CheckPktAvail w n = Ok (n', w', called) /\
    (forall b, b <> ident n -> so_queue w' b = so_queue w b) /\
    match q with
    | bs :: q' =>
        if length_ (inHdr n) =? 0 then
          called = true /\ so_queue w' (ident n) = Some q' /\
          n' = count_recvd (set_in (schedule n NetworkReadPoll) (header_of_bytes bs) (splice (inbox n) 0 (payload_of bs)))
        else called = false /\ w' = w /\ n' = schedule n NetworkReadPoll
    | [] => called = false /\ w' = w /\ n' = schedule n NetworkReadPoll
    end.
Proof.
  intros Hq Hw Hi. unfold CheckPktAvail. change (length_ (inHdr (schedule n NetworkReadPoll))) with (length_ (inHdr n)).
  change (ident (schedule n NetworkReadPoll)) with (ident n). unfold PollSocket. rewrite (so_poll_ok w _ q Hq).
  destruct (length_ (inHdr n) =? 0); cbn [negb]; [|exists w, (schedule n NetworkReadPoll), false; by destruct q].
  destruct q as [|bs q]; [by exists w, (schedule n NetworkReadPoll), false|]. rewrite bool_decide_false by done. cbn [negb].
  apply Forall_cons_1 in Hw as [(Hlen & Hto & Hl) Hw]. unfold ReadFromSocket.
  destruct (so_recvfrom_ok w (ident n) bs q MaxWireSize Hq) as (w' & -> & Hq' & Ho); [lia|]. rewrite Hlen, Z.eqb_refl.
  cbn [ASSERT mbind outcome_bind]. rewrite Hto, Z.eqb_refl, (proj2 (Z.leb_le _ _)) by lia. cbn [andb ASSERT mbind outcome_bind].
  eexists w', _, true. split; [reflexivity|]. done.
Qed.

(** What [Receive] hands over is the packet the device holds, once. *)
Lemma Receive_ok n hdr payload : inHdr n = hdr -> 0 < length_ hdr -> Z.of_nat (length payload) = length_ hdr ->
  take (Z.to_nat (length_ hdr)) (inbox n) = payload ->
  Receive n = (hdr, payload, set_in n (set_length hdr 0) (inbox n)).
Proof.
  intros E Hl _ Hp. unfold Receive. rewrite E. rewrite (proj2 (Z.eqb_neq _ 0)) by lia. cbn [negb]. cbn [inbox set_in]. by rewrite Hp.
Qed.

End laws.

End Network.

(** ** Sockets as queues *)

Module SocketModel.

Definition t : Type := gmap Z (list (list Z)).

#[export] Instance sockets : Sockets t := {|
  so_bind w a := (<[a := []]> w, 0);
  so_unlink w a := delete a w;
  so_sendto w a bs := match w !! a with Some q => (<[a := q ++ [bs]]> w, Z.of_nat (length bs)) | None => (w, -1) end;
  so_poll w a := match w !! a with Some (_ :: _) => true | _ => false end;
  so_recvfrom w a n := match w !! a with
                       | Some (bs :: q) => (<[a := q]> w, Z.of_nat (length (take (Z.to_nat n) bs)), take (Z.to_nat n) bs)
                       | _ => (w, -1, [])
                       end;
  so_queue w a := w !! a |}.

#[export] Instance sockets_laws : SocketsLaws t.
Proof.
  split; cbn.
  - intros w a. eexists. split; [reflexivity|]. split; [apply lookup_insert_eq|]. intros b Hb. by apply lookup_insert_ne.
  - intros w a q bs ->. eexists. split; [reflexivity|]. split; [apply lookup_insert_eq|]. intros b Hb. by apply lookup_insert_ne.
  - by intros w a bs ->.
  - intros w a q ->. by destruct q.
  - intros w a bs q n -> Hn. rewrite take_ge by lia. eexists. split; [reflexivity|]. split; [apply lookup_insert_eq|].
    intros b Hb. by apply lookup_insert_ne.
  - intros w a. split; [apply lookup_delete_eq|]. intros b Hb. by apply lookup_delete_ne.
Qed.

End SocketModel.

#[export] Existing Instance SocketModel.sockets.
#[export] Existing Instance SocketModel.sockets_laws.
