(* ===== verification/PostOffice.v ===== *)
(** * network/post.{h,cc} and threads/synchlist.{h,cc}: the post office

    [SynchList] is the list of threads/list.cc with the lock and the condition of
    threads/synch.cc, which do nothing in this kernel: waiting is an assertion
    that fails.  A [MailBox] is such a list of pointers to [Mail] objects, on a
    heap of its own.  [PostOffice.t] is class [PostOffice]; the value of a
    semaphore is a number, and the operations that wait are cut at the wait:
    [Send] ends before [messageSent->P()], and the loop of the postal worker is
    the pieces after [messageAvailable->P()]. *)

From S2P Require Import Prelude Lists NetworkDev.

Local Open Scope Z_scope.

(** ** The dummies of threads/synch.cc *)

Module Dummy.
Definition Lock_Acquire : outcome unit := Ok tt.
Definition Lock_Release : outcome unit := Ok tt.
Definition Condition_Wait : outcome unit := Fault AssertFailed.
Definition Condition_Signal : outcome unit := Ok tt.
End Dummy.

Module SynchList.

Record t := mk { elems : LinkedList.heap; list_ : LinkedList.t }.

Definition SynchList_new : t := mk ∅ LinkedList.List_new.

Section operations.
Context `{LinkedList.HeapAlloc}.

Definition Append (s : t) (item : Z) : outcome t :=
  _ ← Dummy.Lock_Acquire;
  '(h, l) ← LinkedList.Append (elems s) (list_ s) item;
  _ ← Dummy.Condition_Signal;
  _ ← Dummy.Lock_Release;
  Ok (mk h l).

(** [while (list->IsEmpty()) listEmpty->Wait(lock);] *)
Fixpoint wait_nonempty (fuel : nat) (l : LinkedList.t) : outcome unit :=
  match fuel with
  | O => Fault OutOfFuel
  | S fuel' => if LinkedList.IsEmpty l then _ ← Dummy.Condition_Wait; wait_nonempty fuel' l else Ok tt
  end.

Definition Remove (s : t) : outcome (Z * t) :=
  _ ← Dummy.Lock_Acquire;
  _ ← wait_nonempty 1 (list_ s);
  '(item, h, l) ← LinkedList.Remove (elems s) (list_ s);
  _ ← ASSERT (negb (item =? LinkedList.NULL));
  _ ← Dummy.Lock_Release;
  Ok (item, mk h l).

Definition Mapcar {St} (func : Z -> St -> outcome St) (s : t) (st : St) : outcome St :=
  _ ← Dummy.Lock_Acquire;
  st ← LinkedList.Mapcar func (elems s) (list_ s) st;
  _ ← Dummy.Lock_Release;
  Ok st.

End operations.
End SynchList.

(** ** Mail *)

Module Post.
Import Network.

Record MailHeader := mkMailHeader { mto : Z; mfrom : Z; mlength : Z }.

Definition MailHeaderSize : Z := 12.
Definition MaxMailSize : Z := MaxPacketSize - MailHeaderSize.

(** The two headers have the same layout. *)
Definition mail_to_bytes (h : MailHeader) : list Z := header_to_bytes (mkPacketHeader (mto h) (mfrom h) (mlength h)).
Definition mail_of_bytes (bs : list Z) : MailHeader :=
  let h := header_of_bytes bs in mkMailHeader (to h) (from h) (length_ h).

Record Mail := mkMail { pktHdr : PacketHeader; mailHdr : MailHeader; data : list Z }.

(** [Mail::Mail]; [raw]: what the array [data] held. *)
Definition Mail_new (raw : Z -> Z) (pktH : PacketHeader) (mailH : MailHeader) (msgData : list Z) : outcome Mail :=
  _ ← ASSERT (mlength mailH <=? MaxMailSize);
  bs ← bcopy msgData (mlength mailH);
  Ok (mkMail pktH mailH (splice (new_char raw MaxMailSize) 0 bs)).

Record MailBox := mkBox { messages : SynchList.t; mails : gmap Z Mail; nextmail : Z }.

Definition MailBox_new : MailBox := mkBox SynchList.SynchList_new ∅ 1.

Section boxes.
Context `{LinkedList.HeapAlloc}.

Definition Put (raw : Z -> Z) (b : MailBox) (pktH : PacketHeader) (mailH : MailHeader) (msgData : list Z) : outcome MailBox :=
  mail ← Mail_new raw pktH mailH msgData;
  l ← SynchList.Append (messages b) (nextmail b);
  Ok (mkBox l (<[nextmail b := mail]> (mails b)) (nextmail b + 1)).

(** The headers and the bytes copied to the caller's buffer. *)
Definition Get (b : MailBox) : outcome (PacketHeader * MailHeader * list Z * MailBox) :=
  '(p, l) ← SynchList.Remove (messages b);
  match mails b !! p with
  | None => Fault BadAccess
  | Some mail =>
      bs ← bcopy (data mail) (mlength (mailHdr mail));
      Ok (pktHdr mail, mailHdr mail, bs, mkBox l (delete p (mails b)) (nextmail b))
  end.

(** ** The post office *)

Record t := mk {
  network : Network.t;
  netAddr : Z;
  boxes : list MailBox;
  numBoxes : Z;
  messageAvailable : Z;       (* values of the semaphores *)
  messageSent : Z;
}.

Definition set_network po n : t := mk n (netAddr po) (boxes po) (numBoxes po) (messageAvailable po) (messageSent po).
Definition set_boxes po bs : t := mk (network po) (netAddr po) bs (numBoxes po) (messageAvailable po) (messageSent po).

Definition IncomingPacket po : t := mk (network po) (netAddr po) (boxes po) (numBoxes po) (messageAvailable po + 1) (messageSent po).
Definition PacketSent po : t := mk (network po) (netAddr po) (boxes po) (numBoxes po) (messageAvailable po) (messageSent po + 1).

Context {W : Type} `{Sockets W}.
Implicit Types w : W.

(** The constructor; it also forks the postal worker. *)
Definition PostOffice_new w (addr : Z) (reliability : QArith_base.Q) (nBoxes : Z) (h0 : PacketHeader) (raw : Z -> Z) : outcome (t * W) :=
  '(n, w) ← Network_new w addr reliability h0 (new_char raw MaxPacketSize);
  Ok (mk n addr (replicate (Z.to_nat nBoxes) MailBox_new) nBoxes 0 0, w).

(** [Send] up to [messageSent->P()], after which it only gives its buffer back. *)
Definition Send w po (pktH : PacketHeader) (mailH : MailHeader) (msgData : list Z) (random : Z) (raw : Z -> Z) : outcome (t * W) :=
  _ ← ASSERT (mlength mailH <=? MaxMailSize);
  _ ← ASSERT ((0 <=? mto mailH) && (mto mailH <? numBoxes po));
  let pktH := mkPacketHeader (to pktH) (netAddr po) (u32 (mlength mailH + MailHeaderSize)) in
  let buffer := splice (new_char raw MaxPacketSize) 0 (mail_to_bytes mailH) in
  bs ← bcopy msgData (mlength mailH);
  let buffer := splice buffer (Z.to_nat MailHeaderSize) bs in
  _ ← Dummy.Lock_Acquire;
  '(n, w) ← Network.Send w (network po) pktH buffer random raw;
  Ok (set_network po n, w).

(** [messageSent->P()] in [Send] and [messageAvailable->P()] in the loop of the
    postal worker: [None] when the thread has to wait. *)
Definition P_messageSent po : option t :=
  if messageSent po =? 0 then None
  else Some (mk (network po) (netAddr po) (boxes po) (numBoxes po) (messageAvailable po) (messageSent po - 1)).
Definition P_messageAvailable po : option t :=
  if messageAvailable po =? 0 then None
  else Some (mk (network po) (netAddr po) (boxes po) (numBoxes po) (messageAvailable po - 1) (messageSent po)).

(** The postal worker takes the packet from the network into [buffer]. *)
Definition delivery_receive po (buffer : list Z) : t * PacketHeader * list Z :=
  let '(pktH, bs, n) := Network.Receive (network po) in
  (set_network po n, pktH, splice buffer 0 bs).

(** It puts it into the mailbox. *)
Definition delivery_put (raw : Z -> Z) po (pktH : PacketHeader) (buffer : list Z) : outcome t :=
  let mailH := mail_of_bytes buffer in
  _ ← ASSERT ((0 <=? mto mailH) && (mto mailH <? numBoxes po));
  _ ← ASSERT (mlength mailH <=? MaxMailSize);
  b ← rd (boxes po) (mto mailH);
  b ← Put raw b pktH mailH (drop (Z.to_nat MailHeaderSize) buffer);
  bs ← wr (boxes po) (mto mailH) b;
  Ok (set_boxes po bs).

Definition Receive po (box : Z) : outcome (PacketHeader * MailHeader * list Z * t) :=
  _ ← ASSERT ((box >=? 0) && (box <? numBoxes po));
  b ← rd (boxes po) box;
  '(pktH, mailH, bs, b) ← Get b;
  _ ← ASSERT (mlength mailH <=? MaxMailSize);
  bx ← wr (boxes po) box b;
  Ok (pktH, mailH, bs, set_boxes po bx).

End boxes.

(** The interrupt handlers of the device. *)
Definition CheckPktAvail {W} `{Sockets W} (w : W) po : outcome (t * W) :=
  '(n, w, called) ← Network.CheckPktAvail w (network po);
  let po := set_network po n in
  Ok (if called : bool then IncomingPacket po else po, w).
Definition SendDone po : t := PacketSent (set_network po (Network.SendDone (network po))).

End Post.
