(* ===== verification/PostProtocol.v ===== *)
(** * Mail between machines

    Machines with a post office each, connected by datagram sockets, as a
    transition system: a thread sends or receives, a device polls its socket or
    reports that a packet was sent, the postal worker runs its next piece.  The
    state carries two histories that the code does not have: the messages put on
    the wire to each machine, and the ones taken out of each mailbox.  The theorems
    hold under every interleaving of the pieces. *)

From S2P Require Import Prelude Lists NetworkDev PostOffice.

Local Open Scope Z_scope.

Module Mailing.
Import Network Post.

(** ** Messages *)

Record Msg := mkMsg { m_machine : Z; m_reply : Z; m_box : Z; m_text : list Z }.

(** The message in a packet with header [h]. *)
Definition msg_of (h : PacketHeader) (payload : list Z) : Msg :=
  let mh := mail_of_bytes payload in
  mkMsg (from h) (mfrom mh) (mto mh) (slice payload (Z.to_nat MailHeaderSize) (Z.to_nat (mlength mh))).
Definition msg_of_packet (bs : list Z) : Msg := msg_of (header_of_bytes bs) (payload_of bs).
Definition msg_of_mail (m : Mail) : Msg :=
  mkMsg (from (pktHdr m)) (mfrom (mailHdr m)) (mto (mailHdr m)) (take (Z.to_nat (mlength (mailHdr m))) (data m)).

(** A payload that the post office of [nb] boxes takes. *)
Definition mail_ok (nb : Z) (h : PacketHeader) (payload : list Z) : Prop :=
  let mh := mail_of_bytes payload in
  0 <= mto mh < nb /\ 0 <= mlength mh <= MaxMailSize /\ MailHeaderSize + mlength mh <= Z.of_nat (length payload).

Lemma mail_of_bytes_app p rest : 12 <= Z.of_nat (length p) -> mail_of_bytes (p ++ rest) = mail_of_bytes p.
Proof. intros H. unfold mail_of_bytes, header_of_bytes. by rewrite !slice_app_left by lia. Qed.

(** The buffer of the postal worker is longer than the payload in it. *)
Lemma msg_of_app nb h p rest : mail_ok nb h p -> msg_of h (p ++ rest) = msg_of h p /\ mail_ok nb h (p ++ rest).
Proof.
  intros (Hto & Hl & Hp). unfold msg_of, mail_ok, MailHeaderSize in *.
  rewrite mail_of_bytes_app by lia. split; [f_equal; apply slice_app_left; lia|]. rewrite length_app. lia.
Qed.

(** ** Mailboxes *)

Section boxes.
Context `{HA : LinkedList.HeapAlloc}.

Definition mail_fine (m : Mail) : Prop := 0 <= mlength (mailHdr m) <= MaxMailSize /\ Z.of_nat (length (data m)) = MaxMailSize.

(** The mails of a mailbox, oldest first. *)
Definition box_rep (b : MailBox) (ms : list Mail) : Prop :=
  exists addrs ptrs, LinkedList.rep (SynchList.elems (messages b)) (SynchList.list_ (messages b)) addrs (pair 0 <$> ptrs) /\
    NoDup ptrs /\ Forall (fun p => 0 < p < nextmail b) ptrs /\ 0 < nextmail b /\
    Forall2 (fun p m => mails b !! p = Some m /\ mail_fine m) ptrs ms.

Lemma MailBox_new_rep : box_rep MailBox_new [].
Proof. exists [], []. split; [apply LinkedList.rep_empty|]. split; [constructor|]. split; [constructor|]. by split. Qed.

Lemma Put_ok raw b ms pktH mailH msgData :
  box_rep b ms -> 0 <= mlength mailH <= MaxMailSize -> mlength mailH <= Z.of_nat (length msgData) ->
  exists b' m, Put raw b pktH mailH msgData = Ok b' /\ box_rep b' (ms ++ [m]) /\
    msg_of_mail m = mkMsg (from pktH) (mfrom mailH) (mto mailH) (take (Z.to_nat (mlength mailH)) msgData).
Proof.
  intros (addrs & ptrs & Hr & Hnd & Hlt & Hn & Hms) Hl Hd. unfold Put, Mail_new, bcopy, SynchList.Append.
  rewrite !(proj2 (Z.leb_le _ _)) by lia. cbn [andb ASSERT mbind outcome_bind Dummy.Lock_Acquire Dummy.Lock_Release Dummy.Condition_Signal].
  destruct (LinkedList.Append_spec _ _ _ _ (nextmail b) Hr) as (h' & l' & -> & Hr' & _). cbn [mbind outcome_bind].
  set (m := mkMail _ _ _). eexists _, m. split; [reflexivity|].
  assert (Hraw : Z.of_nat (length (new_char raw MaxMailSize)) = MaxMailSize) by (by apply length_new_char).
  assert (Hfine : mail_fine m).
  { split; [exact Hl|]. cbn [data m]. rewrite length_splice; [exact Hraw|]. rewrite length_take. lia. }
  split.
  - exists (addrs ++ [LinkedList.new_addr (SynchList.elems (messages b))]), (ptrs ++ [nextmail b]).
    cbn [messages mails nextmail SynchList.elems SynchList.list_].
    split; [by rewrite fmap_app|]. split; [|split; [|split; [lia|]]].
    + apply list.NoDup_app. split; [done|]. split; [|apply NoDup_singleton]. intros p Hp ->%list_elem_of_singleton.
      pose proof (proj1 (list.Forall_forall _ _) Hlt _ Hp) as Hp'. cbn in Hp'. lia.
    + apply Forall_app. split; [eapply Forall_impl; [|exact Hlt]; cbn; lia|]. constructor; [lia|constructor].
    + apply Forall2_app; [|constructor; [|constructor]; split; [apply lookup_insert_eq|exact Hfine]].
      rewrite Forall2_lookup in Hms |- *. intros i. specialize (Hms i). destruct (ptrs !! i) as [p|] eqn:Ep; [|inversion Hms; constructor].
      inversion Hms as [? m' [Hp Hm']|]; subst. constructor. split; [|done]. rewrite lookup_insert_ne; [done|].
      pose proof (Forall_lookup_1 _ _ _ _ Hlt Ep) as Hp'. cbn in Hp'. lia.
  - unfold msg_of_mail. cbn [pktHdr mailHdr data m]. f_equal. unfold splice. rewrite take_0. cbn [app].
    rewrite take_app_le by (rewrite length_take; lia). rewrite take_take. f_equal. lia.
Qed.

Lemma Get_ok b m ms : box_rep b (m :: ms) ->
  exists b', Get b = Ok (pktHdr m, mailHdr m, m_text (msg_of_mail m), b') /\ box_rep b' ms /\ mlength (mailHdr m) <= MaxMailSize.
Proof.
  intros (addrs & ptrs & Hr & Hnd & Hlt & Hn & Hms). inversion Hms as [|p ? ptrs' ? [Hp (Hl & Hd)] Hms']; subst.
  unfold Get, SynchList.Remove, LinkedList.Remove. cbn [fmap list_fmap] in Hr. cbn [mbind outcome_bind Dummy.Lock_Acquire SynchList.wait_nonempty].
  rewrite (LinkedList.rep_IsEmpty _ _ _ _ Hr), bool_decide_false by done. cbn [mbind outcome_bind].
  destruct (LinkedList.SortedRemove_cons _ _ _ _ _ _ Hr) as (x & addrs' & l' & -> & -> & Hr'). cbn [mbind outcome_bind].
  apply Forall_cons_1 in Hlt as [Hp0 Hlt]. unfold LinkedList.NULL. rewrite (proj2 (Z.eqb_neq p 0)) by lia.
  cbn [negb ASSERT mbind outcome_bind Dummy.Lock_Release]. rewrite Hp. unfold bcopy. rewrite !(proj2 (Z.leb_le _ _)) by lia.
  cbn [andb mbind outcome_bind]. eexists. split; [reflexivity|]. split; [|lia].
  apply list.NoDup_cons in Hnd as [Hni Hnd]. exists addrs', ptrs'. cbn [messages mails nextmail SynchList.elems SynchList.list_].
  split; [exact Hr'|]. split; [done|]. split; [done|]. split; [done|].
  rewrite Forall2_lookup in Hms' |- *. intros i. specialize (Hms' i). destruct (ptrs' !! i) as [p'|] eqn:Ep; [|inversion Hms'; constructor].
  inversion Hms' as [? m' [Hp' Hm']|]; subst. constructor. split; [|done]. rewrite lookup_delete_ne; [done|].
  intros ->. apply Hni. by eapply list_elem_of_lookup_2.
Qed.

(** There is no way to wait for mail. *)
Lemma Get_empty b : box_rep b [] -> Get b = Fault AssertFailed.
Proof.
  intros (addrs & ptrs & Hr & _ & _ & _ & Hms). inversion Hms; subst. unfold Get, SynchList.Remove.
  cbn [mbind outcome_bind Dummy.Lock_Acquire SynchList.wait_nonempty]. by rewrite (LinkedList.rep_IsEmpty _ _ _ _ Hr).
Qed.

End boxes.

(** ** The machines *)

(** Where the postal worker is: in [messageAvailable->P()], past it, or with a
    packet in its buffer. *)
Inductive wloc := Waiting | Woken | Has (h : PacketHeader).

Record node := mkNode { po : Post.t; worker : wloc; buffer : list Z }.

Record world (W : Type) := mkWorld {
  wire : W;
  nodes : gmap Z node;
  sent : Z -> list Msg;             (* history: put on the wire to a machine *)
  recvd : Z -> Z -> list Msg;       (* history: taken out of a mailbox of a machine *)
}.
Arguments mkWorld {W}. Arguments wire {W}. Arguments nodes {W}. Arguments sent {W}. Arguments recvd {W}.

Definition upd {A} (f : Z -> A) (k : Z) (v : A) : Z -> A := fun x => if decide (x = k) then v else f x.

Lemma upd_eq {A} (f : Z -> A) k v : upd f k v k = v.
Proof. unfold upd. by rewrite decide_True. Qed.
Lemma upd_ne {A} (f : Z -> A) k v x : x <> k -> upd f k v x = f x.
Proof. intros. unfold upd. by rewrite decide_False. Qed.

Definition set_po (nd : node) p : node := mkNode p (worker nd) (buffer nd).

Section protocol.
Context `{HA : LinkedList.HeapAlloc} {W : Type} `{SL : SocketsLaws W} (raw : Z -> Z) (nb : Z) (reliability : QArith_base.Q).
Implicit Types s : world W.

Definition with_node s (a : Z) (nd : node) : world W := mkWorld (wire s) (<[a := nd]> (nodes s)) (sent s) (recvd s).
Definition with_wire s (w : W) : world W := mkWorld w (nodes s) (sent s) (recvd s).

(** Machines start one after the other. *)
Fixpoint boot (h0 : PacketHeader) (addrs : list Z) s : outcome (world W) :=
  match addrs with
  | [] => Ok s
  | a :: addrs' =>
      '(p, w) ← PostOffice_new (wire s) a reliability nb h0 raw;
      boot h0 addrs' (with_node (with_wire s w) a (mkNode p Waiting (new_char raw MaxPacketSize)))
  end.

Inductive step s : world W -> Prop :=
| step_send a nd d h0 mh text random p w :
    nodes s !! a = Some nd -> to h0 = d -> is_s32 d -> is_s32 (mfrom mh) -> 0 <= mlength mh ->
    Post.Send (wire s) (po nd) h0 mh text random raw = Ok (p, w) ->
    step s (mkWorld w (<[a := set_po nd p]> (nodes s))
              (if lost (network (po nd)) random then sent s
               else upd (sent s) d (sent s d ++ [mkMsg a (mfrom mh) (mto mh) (take (Z.to_nat (mlength mh)) text)]))
              (recvd s))
| step_sent a nd n :
    nodes s !! a = Some nd -> fire NetworkSendDone (network (po nd)) = Some n ->
    step s (with_node s a (set_po nd (Post.SendDone (set_network (po nd) n))))
| step_return a nd p :
    nodes s !! a = Some nd -> P_messageSent (po nd) = Some p -> step s (with_node s a (set_po nd p))
| step_poll a nd n p w :
    nodes s !! a = Some nd -> fire NetworkReadPoll (network (po nd)) = Some n ->
    Post.CheckPktAvail (wire s) (set_network (po nd) n) = Ok (p, w) ->
    step s (with_node (with_wire s w) a (set_po nd p))
| step_wake a nd p :
    nodes s !! a = Some nd -> worker nd = Waiting -> P_messageAvailable (po nd) = Some p ->
    step s (with_node s a (mkNode p Woken (buffer nd)))
| step_take a nd p h bs :
    nodes s !! a = Some nd -> worker nd = Woken -> delivery_receive (po nd) (buffer nd) = (p, h, bs) ->
    step s (with_node s a (mkNode p (Has h) bs))
| step_put a nd h p :
    nodes s !! a = Some nd -> worker nd = Has h -> delivery_put raw (po nd) h (buffer nd) = Ok p ->
    step s (with_node s a (mkNode p Waiting (buffer nd)))
| step_receive a nd box h mh text p :
    nodes s !! a = Some nd -> Post.Receive (po nd) box = Ok (h, mh, text, p) ->
    step s (mkWorld (wire s) (<[a := set_po nd p]> (nodes s)) (sent s)
              (upd (recvd s) a (upd (recvd s a) box (recvd s a box ++ [mkMsg (from h) (mfrom mh) (mto mh) text])))).

(** ** The invariant of a machine *)

(** The messages in the hand of the postal worker and in the device. *)
Definition hand (nd : node) : list Msg := match worker nd with Has h => [msg_of h (buffer nd)] | _ => [] end.
Definition held_payload (n : Network.t) : list Z := take (Z.to_nat (length_ (inHdr n))) (inbox n).
Definition held (nd : node) : list Msg :=
  let n := network (po nd) in if length_ (inHdr n) =? 0 then [] else [msg_of (inHdr n) (held_payload n)].

Definition for_box (b : Z) (ms : list Msg) : list Msg := filter (fun m => m_box m = b) ms.

(** [nb] is the number of mailboxes of every machine. *)
Record node_inv (a : Z) (nd : node) (q : list (list Z)) (sa : list Msg) (ra : Z -> list Msg) : Prop := {
  i_addr : netAddr (po nd) = a /\ ident (network (po nd)) = a /\ is_s32 a;
  i_boxes : numBoxes (po nd) = nb /\ Z.of_nat (length (boxes (po nd))) = nb;
  i_busy : sendBusy (network (po nd)) = false /\ chanceToWork (network (po nd)) = clamp reliability;
  i_sizes : Z.of_nat (length (inbox (network (po nd)))) = MaxPacketSize /\ Z.of_nat (length (buffer nd)) = MaxPacketSize;
  i_held : length_ (inHdr (network (po nd))) <> 0 ->
           0 < length_ (inHdr (network (po nd))) <= MaxPacketSize /\
           mail_ok nb (inHdr (network (po nd))) (held_payload (network (po nd)));
  i_worker : match worker nd with
             | Waiting => messageAvailable (po nd) = Z.of_nat (length (held nd))
             | Woken => messageAvailable (po nd) = 0 /\ length (held nd) = 1%nat
             | Has h => messageAvailable (po nd) = Z.of_nat (length (held nd)) /\ mail_ok nb h (buffer nd)
             end;
  i_queue : Forall (fun bs => well_formed a bs /\ mail_ok nb (header_of_bytes bs) (payload_of bs)) q;
  i_mail : forall b box, boxes (po nd) !! b = Some box -> exists ms, box_rep box ms /\
             ra (Z.of_nat b) ++ (msg_of_mail <$> ms) ++ for_box (Z.of_nat b) (hand nd ++ held nd ++ (msg_of_packet <$> q)) =
             for_box (Z.of_nat b) sa;
}.

Definition Inv s : Prop :=
  forall a nd, nodes s !! a = Some nd ->
    exists q, so_queue (wire s) a = Some q /\ node_inv a nd q (sent s a) (recvd s a).

(** What the invariant reads of a post office. *)
Definition agree (p p' : Post.t) : Prop :=
  netAddr p' = netAddr p /\ numBoxes p' = numBoxes p /\ boxes p' = boxes p /\ messageAvailable p' = messageAvailable p /\
  ident (network p') = ident (network p) /\ sendBusy (network p') = false /\ chanceToWork (network p') = chanceToWork (network p) /\
  inHdr (network p') = inHdr (network p) /\ inbox (network p') = inbox (network p).

Lemma held_agree nd p : agree (po nd) p -> held (set_po nd p) = held nd.
Proof. intros (_ & _ & _ & _ & _ & _ & _ & E1 & E2). unfold held, held_payload, set_po. cbn. by rewrite E1, E2. Qed.

Lemma node_inv_agree a nd p q sa ra : agree (po nd) p -> node_inv a nd q sa ra -> node_inv a (set_po nd p) q sa ra.
Proof.
  intros Ha [I1 I2 I3 I4 I5 I6 I7 I8]. pose proof (held_agree nd p Ha) as Eh. destruct Ha as (A1 & A2 & A3 & A4 & A5 & A6 & A6' & A7 & A8).
  assert (Hh : hand (set_po nd p) = hand nd) by done.
  split; unfold set_po in *; cbn [po worker buffer] in *; rewrite ?Eh, ?Hh, ?A1, ?A2, ?A3, ?A4, ?A5, ?A7, ?A8; try assumption.
  - split; [done|]. rewrite A6'. by destruct I3.
  - unfold held_payload in *. by rewrite A7, A8.
Qed.

Lemma for_box_app b l k : for_box b (l ++ k) = for_box b l ++ for_box b k.
Proof. apply list.filter_app. Qed.

(** A datagram arrives at the socket. *)
Lemma node_inv_arrive a nd q sa ra bs :
  node_inv a nd q sa ra -> well_formed a bs -> mail_ok nb (header_of_bytes bs) (payload_of bs) ->
  node_inv a nd (q ++ [bs]) (sa ++ [msg_of_packet bs]) ra.
Proof.
  intros [I1 I2 I3 I4 I5 I6 I7 I8] Hw Hm. split; try assumption.
  - apply Forall_app. split; [done|]. by constructor.
  - intros b box Hb. destruct (I8 b box Hb) as (ms & Hrep & E). exists ms. split; [done|].
    rewrite fmap_app, (for_box_app _ sa), <- E, !for_box_app. cbn [fmap list_fmap]. by rewrite <- !app_assoc.
Qed.

Lemma length_payload a bs : well_formed a bs -> Z.of_nat (length (payload_of bs)) = length_ (header_of_bytes bs).
Proof.
  intros (Hl & _ & Hlen). unfold payload_of, MaxWireSize, MaxPacketSize, PacketHeaderSize, MaxWireSize in *.
  rewrite length_slice; lia.
Qed.

(** The device takes the first datagram. *)
Lemma node_inv_poll a nd n0 bs q sa ra :
  node_inv a nd (bs :: q) sa ra -> length_ (inHdr (network (po nd))) = 0 ->
  ident n0 = a -> sendBusy n0 = false -> chanceToWork n0 = chanceToWork (network (po nd)) -> inbox n0 = inbox (network (po nd)) ->
  node_inv a (set_po nd (IncomingPacket (set_network (po nd)
    (count_recvd (set_in n0 (header_of_bytes bs) (splice (inbox n0) 0 (payload_of bs))))))) q sa ra.
Proof.
  intros [I1 I2 I3 I4 I5 I6 I7 I8] H0 N1 N2 N2' N3. apply Forall_cons_1 in I7 as [[Hw Hm] I7].
  pose proof (length_payload a bs Hw) as Hp. pose proof Hw as (_ & _ & Hlen).
  set (nd' := set_po nd _). destruct I4 as [I4a I4b].
  assert (Epay : held_payload (network (po nd')) = payload_of bs).
  { unfold held_payload. cbn [nd' set_po po IncomingPacket set_network network count_recvd set_in inHdr inbox]. unfold splice. rewrite take_0. cbn [app]. rewrite take_app_le by lia. apply take_ge. lia. }
  assert (Eh0 : held nd = []) by (unfold held; by rewrite H0).
  assert (Eh : held nd' = [msg_of_packet bs]).
  { unfold held. rewrite Epay. cbn [nd' set_po po IncomingPacket set_network network count_recvd set_in inHdr inbox]. by rewrite (proj2 (Z.eqb_neq _ 0)) by lia. }
  split; try assumption; cbn [nd' set_po po worker buffer IncomingPacket set_network network netAddr boxes numBoxes messageAvailable
    count_recvd set_in ident sendBusy inHdr inbox].
  - destruct I1 as (? & _ & ?). by split_and!.
  - destruct I3 as [_ I3]. split; [exact N2|]. change (chanceToWork n0 = clamp reliability). congruence.
  - rewrite N3, length_splice by lia. by split.
  - intros _. split; [done|]. change (mail_ok nb (header_of_bytes bs) (held_payload (network (po nd')))). by rewrite Epay.
  - change (held (set_po nd _)) with (held nd'). rewrite Eh. rewrite Eh0 in I6. cbn [length] in *.
    destruct (worker nd); [lia|destruct I6; lia|]. destruct I6. split; [lia|done].
  - intros b box Hb. destruct (I8 b box Hb) as (ms & Hrep & E). exists ms. split; [done|]. rewrite <- E.
    change (held (set_po nd _)) with (held nd'). rewrite Eh, Eh0. done.
Qed.

Lemma held_one nd : (length (held nd) <= 1)%nat.
Proof. unfold held. destruct (_ =? 0); cbn; lia. Qed.

(** The postal worker wakes up: there is a packet. *)
Lemma node_inv_wake a nd p q sa ra :
  node_inv a nd q sa ra -> worker nd = Waiting -> P_messageAvailable (po nd) = Some p ->
  node_inv a (mkNode p Woken (buffer nd)) q sa ra.
Proof.
  intros [I1 I2 I3 I4 I5 I6 I7 I8] Hw HP. unfold P_messageAvailable in HP. destruct (Z.eqb_spec (messageAvailable (po nd)) 0); [done|].
  injection HP as <-. rewrite Hw in I6. pose proof (held_one nd).
  split; try assumption; cbn [po worker buffer messageAvailable network boxes].
  - change (held (mkNode _ Woken _)) with (held nd). lia.
  - intros b box Hb. destruct (I8 b box Hb) as (ms & Hrep & E). exists ms. split; [done|]. rewrite <- E. unfold hand. rewrite Hw. done.
Qed.

(** It takes the packet into its buffer. *)
Lemma node_inv_take a nd p h bs q sa ra :
  node_inv a nd q sa ra -> worker nd = Woken -> delivery_receive (po nd) (buffer nd) = (p, h, bs) ->
  node_inv a (mkNode p (Has h) bs) q sa ra.
Proof.
  intros [I1 I2 I3 I4 I5 I6 I7 I8] Hw HR. rewrite Hw in I6. destruct I6 as [I6 I6'].
  assert (Hn0 : length_ (inHdr (network (po nd))) <> 0).
  { unfold held in I6'. destruct (Z.eqb_spec (length_ (inHdr (network (po nd)))) 0); done. }
  destruct (I5 Hn0) as [Hl Hm]. destruct I4 as [I4a I4b]. unfold delivery_receive, Network.Receive in HR.
  rewrite (proj2 (Z.eqb_neq _ 0)) in HR by done. cbn [negb] in HR. injection HR as <- <- <-.
  change (inbox (set_in (network (po nd)) (set_length (inHdr (network (po nd))) 0) (inbox (network (po nd))))) with (inbox (network (po nd))) in *.
  fold (held_payload (network (po nd))). set (pl := held_payload (network (po nd))) in *.
  assert (Hlp : Z.of_nat (length pl) = length_ (inHdr (network (po nd)))) by (unfold pl, held_payload; rewrite length_take; lia).
  assert (Es : splice (buffer nd) 0 pl = pl ++ drop (length pl) (buffer nd)) by (unfold splice; by rewrite take_0).
  destruct (msg_of_app nb (inHdr (network (po nd))) pl (drop (length pl) (buffer nd)) Hm) as [Emsg Hm'].
  assert (Eh : held nd = [msg_of (inHdr (network (po nd))) pl]) by (unfold held; by rewrite (proj2 (Z.eqb_neq _ 0))).
  split; try assumption; cbn [po worker buffer set_network network messageAvailable numBoxes boxes netAddr ident set_in sendBusy inbox inHdr].
  - split; [done|]. rewrite length_splice by lia. done.
  - intros Hx. by destruct Hx.
  - rewrite Es. split; [exact I6|exact Hm'].
  - intros b box Hb. destruct (I8 b box Hb) as (ms & Hrep & E). exists ms. split; [done|]. rewrite <- E. unfold hand at 2. rewrite Hw, Eh.
    unfold hand. cbn [worker buffer]. rewrite Es, Emsg. done.
Qed.

(** It puts the mail into its mailbox. *)
Lemma delivery_put_ok a nd h q sa ra :
  node_inv a nd q sa ra -> worker nd = Has h ->
  exists p, delivery_put raw (po nd) h (buffer nd) = Ok p /\ node_inv a (mkNode p Waiting (buffer nd)) q sa ra.
Proof.
  intros [I1 I2 I3 I4 I5 I6 I7 I8] Hw. rewrite Hw in I6. destruct I6 as [I6 (Hto & Hl & Hp)]. destruct I2 as [I2 I2'].
  set (mh := mail_of_bytes (buffer nd)) in *. unfold delivery_put. fold mh.
  rewrite I2, (proj2 (Z.leb_le 0 (mto mh))), (proj2 (Z.ltb_lt _ _)), (proj2 (Z.leb_le (mlength mh) _)) by lia. cbn [andb ASSERT mbind outcome_bind].
  destruct (lookup_lt_is_Some_2 (boxes (po nd)) (Z.to_nat (mto mh))) as [box Hbox]; [lia|].
  rewrite (rd_lookup _ _ box) by (done || lia). cbn [mbind outcome_bind].
  destruct (I8 _ _ Hbox) as (ms & Hrep & E). rewrite Z2Nat.id in E by lia.
  destruct (Put_ok raw box ms h mh (drop (Z.to_nat MailHeaderSize) (buffer nd)) Hrep) as (b' & m & -> & Hrep' & Em);
    [lia|rewrite length_drop; unfold MailHeaderSize in *; lia|]. cbn [mbind outcome_bind].
  rewrite wr_ok by lia. cbn [mbind outcome_bind]. eexists. split; [reflexivity|].
  split; try assumption; cbn [po worker buffer set_boxes network messageAvailable numBoxes boxes netAddr].
  - by rewrite length_insert.
  - intros b box' Hb. destruct (decide (b = Z.to_nat (mto mh))) as [->|Hne].
    + rewrite list_lookup_insert_eq in Hb by lia. injection Hb as <-. exists (ms ++ [m]). split; [done|]. rewrite Z2Nat.id by lia. rewrite <- E.
      unfold hand. rewrite Hw. cbn [worker]. change (held (mkNode _ Waiting _)) with (held nd). rewrite fmap_app. cbn [fmap list_fmap].
      rewrite Em, (for_box_app _ [msg_of h (buffer nd)]). unfold for_box at 2. unfold msg_of. fold mh. rewrite list.filter_cons_True by done.
      rewrite filter_nil, <- !app_assoc. done.
    + rewrite list_lookup_insert_ne in Hb by done. destruct (I8 b box' Hb) as (ms' & Hrep2 & E2). exists ms'. split; [done|]. rewrite <- E2.
      unfold hand. rewrite Hw. cbn [worker]. change (held (mkNode _ Waiting _)) with (held nd).
      rewrite (for_box_app _ [msg_of h (buffer nd)]). unfold for_box at 2. unfold msg_of. fold mh.
      rewrite list.filter_cons_False by (cbn [m_box]; lia). rewrite filter_nil. done.
Qed.

(** A thread takes a message out of a mailbox; without one the assertion in
    [Condition::Wait] fails. *)
Lemma Receive_cases a nd box q sa ra :
  node_inv a nd q sa ra -> 0 <= box < nb ->
  exists b ms, boxes (po nd) !! Z.to_nat box = Some b /\ box_rep b ms /\
    match ms with
    | [] => Post.Receive (po nd) box = Fault AssertFailed
    | m :: _ => exists p, Post.Receive (po nd) box = Ok (pktHdr m, mailHdr m, m_text (msg_of_mail m), p) /\
                  node_inv a (set_po nd p) q sa (upd ra box (ra box ++ [msg_of_mail m]))
    end.
Proof.
  intros [I1 I2 I3 I4 I5 I6 I7 I8] Hb. destruct I2 as [I2 I2'].
  destruct (lookup_lt_is_Some_2 (boxes (po nd)) (Z.to_nat box)) as [b Hbox]; [lia|]. destruct (I8 _ _ Hbox) as (ms & Hrep & E).
  exists b, ms. split; [done|]. split; [done|]. unfold Post.Receive.
  rewrite Z.geb_leb, I2, (proj2 (Z.leb_le 0 box)), (proj2 (Z.ltb_lt _ _)) by lia. cbn [andb ASSERT mbind outcome_bind].
  rewrite (rd_lookup _ _ b) by (done || lia). cbn [mbind outcome_bind].
  destruct ms as [|m ms]; [by rewrite (Get_empty b Hrep)|]. destruct (Get_ok b m ms Hrep) as (b' & -> & Hrep' & Hlen). cbn [mbind outcome_bind].
  rewrite (proj2 (Z.leb_le _ _)) by lia. cbn [ASSERT mbind outcome_bind]. rewrite wr_ok by lia. cbn [mbind outcome_bind].
  eexists. split; [reflexivity|].
  split; try assumption; cbn [set_po po worker buffer set_boxes network messageAvailable numBoxes boxes netAddr].
  - by rewrite length_insert.
  - intros k box' Hk. change (hand (mkNode _ _ _)) with (hand nd). change (held (mkNode _ _ _)) with (held nd).
    destruct (decide (k = Z.to_nat box)) as [->|Hne].
    + rewrite list_lookup_insert_eq in Hk by lia. injection Hk as <-. exists ms. split; [done|]. rewrite <- E, Z2Nat.id by lia.
      rewrite upd_eq. cbn [fmap list_fmap]. by rewrite <- app_assoc.
    + rewrite list_lookup_insert_ne in Hk by done. destruct (I8 k box' Hk) as (ms' & Hrep2 & E2). exists ms'. split; [done|].
      rewrite upd_ne by lia. exact E2.
Qed.

Lemma Receive_range p box r : numBoxes p = nb -> Post.Receive p box = Ok r -> 0 <= box < nb.
Proof.
  intros Hn. unfold Post.Receive. rewrite Hn. destruct ((box >=? 0) && (box <? nb)) eqn:Eb; [|done]. intros _.
  apply andb_true_iff in Eb as [E1 E2]. rewrite Z.geb_leb in E1. apply Z.leb_le in E1. apply Z.ltb_lt in E2. lia.
Qed.

(** ** Sending *)

(** The payload that [Send] hands to the network. *)
Definition mail_payload (mh : MailHeader) (text : list Z) : list Z := mail_to_bytes mh ++ take (Z.to_nat (mlength mh)) text.

Lemma mail_payload_ok (mh : MailHeader) text h :
  0 <= mto mh < nb -> nb < 2 ^ 31 -> is_s32 (mfrom mh) -> 0 <= mlength mh <= MaxMailSize -> mlength mh <= Z.of_nat (length text) ->
  Z.of_nat (length (mail_payload mh text)) = mlength mh + MailHeaderSize /\ mail_ok nb h (mail_payload mh text) /\
  msg_of h (mail_payload mh text) = mkMsg (from h) (mfrom mh) (mto mh) (take (Z.to_nat (mlength mh)) text).
Proof.
  intros Ht Hnb Hf Hl Hd. unfold MaxMailSize, MaxPacketSize, MaxWireSize, PacketHeaderSize, MailHeaderSize in *.
  assert (E : mail_of_bytes (mail_payload mh text) = mh).
  { unfold mail_of_bytes, mail_payload, mail_to_bytes. rewrite header_roundtrip; [by destruct mh|].
    split; [cbn; unfold is_s32; lia|]. split; [exact Hf|]. cbn. unfold is_u32. lia. }
  assert (L : length (mail_payload mh text) = (12 + Z.to_nat (mlength mh))%nat).
  { unfold mail_payload, mail_to_bytes. rewrite length_app, length_header, length_take. lia. }
  unfold mail_ok, msg_of. rewrite E, L. unfold MaxMailSize, MaxPacketSize, MaxWireSize, PacketHeaderSize, MailHeaderSize.
  split; [lia|]. split; [lia|]. f_equal. unfold mail_payload, mail_to_bytes.
  rewrite <- (app_nil_r (take _ text)) at 1. apply slice_app_mid; [by rewrite length_header|]. rewrite length_take. lia.
Qed.

Definition out_header (a d : Z) (mh : MailHeader) : PacketHeader := mkPacketHeader d a (mlength mh + MailHeaderSize).
Definition out_packet (a d : Z) (mh : MailHeader) (text : list Z) : list Z :=
  packet (out_header a d mh) (mail_payload mh text) (new_char raw MaxWireSize).

Lemma out_packet_ok a d (mh : MailHeader) text :
  is_s32 a -> is_s32 d -> 0 <= mto mh < nb -> nb < 2 ^ 31 -> is_s32 (mfrom mh) -> 0 <= mlength mh <= MaxMailSize -> mlength mh <= Z.of_nat (length text) ->
  well_formed d (out_packet a d mh text) /\ mail_ok nb (header_of_bytes (out_packet a d mh text)) (payload_of (out_packet a d mh text)) /\
  msg_of_packet (out_packet a d mh text) = mkMsg a (mfrom mh) (mto mh) (take (Z.to_nat (mlength mh)) text).
Proof.
  intros Ha Hd Ht Hnb Hf Hl Htext. destruct (mail_payload_ok mh text (out_header a d mh) Ht Hnb Hf Hl Htext) as (Hlen & Hok & Hmsg).
  unfold MaxMailSize, MaxPacketSize, MaxWireSize, PacketHeaderSize, MailHeaderSize in *.
  destruct (packet_ok (out_header a d mh) (mail_payload mh text) (new_char raw MaxWireSize)) as (Eh & Ep & Hw).
  - split; [exact Hd|]. split; [exact Ha|]. cbn. unfold is_u32, MailHeaderSize. lia.
  - rewrite Hlen. reflexivity.
  - cbn. unfold MaxPacketSize, MaxWireSize, PacketHeaderSize, MailHeaderSize. lia.
  - by apply length_new_char.
  - unfold msg_of_packet, out_packet. rewrite Eh, Ep. done.
Qed.

(** [Send] is [Network::Send] of that packet. *)
Lemma post_send_eq (w : W) p h0 (mh : MailHeader) text random :
  numBoxes p = nb -> 0 <= mto mh < nb -> 0 <= mlength mh <= MaxMailSize -> mlength mh <= Z.of_nat (length text) ->
  exists buf, Post.Send w p h0 mh text random raw =
      ('(n, w) ← Network.Send w (network p) (out_header (netAddr p) (to h0) mh) buf random raw; Ok (set_network p n, w)) /\
    take (Z.to_nat (mlength mh + MailHeaderSize)) buf = mail_payload mh text /\ Z.of_nat (length buf) = MaxPacketSize.
Proof.
  intros Hn Ht Hl Hd. unfold Post.Send, bcopy.
  rewrite Hn, (proj2 (Z.leb_le (mlength mh) MaxMailSize)), (proj2 (Z.leb_le 0 (mto mh))), (proj2 (Z.ltb_lt _ _)) by lia.
  cbn [andb ASSERT mbind outcome_bind]. rewrite !(proj2 (Z.leb_le _ _)) by lia. cbn [andb mbind outcome_bind Dummy.Lock_Acquire].
  unfold MaxMailSize, MaxPacketSize, MaxWireSize, PacketHeaderSize, MailHeaderSize in *.
  rewrite (u32_small (mlength mh + 12)) by (unfold is_u32; lia). eexists. split; [reflexivity|].
  assert (L12 : length (mail_to_bytes mh) = 12%nat) by apply length_header.
  pose proof (length_new_char raw (64 - 12) ltac:(lia)) as L52. set (r := new_char raw (64 - 12)) in *.
  assert (Et : length (take (Z.to_nat (mlength mh)) text) = Z.to_nat (mlength mh)) by (rewrite length_take; lia).
  split.
  - unfold mail_payload, splice. rewrite take_0, L12. cbn [app]. change (Z.to_nat 12) with 12%nat.
    rewrite (take_app_length' (mail_to_bytes mh) _ 12) by lia. rewrite app_assoc, take_app_le by (rewrite length_app; lia).
    apply take_ge. rewrite length_app. lia.
  - rewrite !length_splice; rewrite ?length_splice; lia.
Qed.

Lemma Send_args (w : W) p h0 mh text random r :
  0 <= mlength mh -> Post.Send w p h0 mh text random raw = Ok r ->
  0 <= mto mh < numBoxes p /\ mlength mh <= MaxMailSize /\ mlength mh <= Z.of_nat (length text).
Proof.
  intros Hl. unfold Post.Send, bcopy.
  destruct (mlength mh <=? MaxMailSize) eqn:E1; [|done]. cbn [ASSERT mbind outcome_bind].
  destruct ((0 <=? mto mh) && (mto mh <? numBoxes p)) eqn:E2; [|done]. cbn [ASSERT mbind outcome_bind].
  destruct ((0 <=? mlength mh) && (mlength mh <=? Z.of_nat (length text))) eqn:E3; [|done]. intros _.
  rewrite andb_true_iff, ?Z.leb_le, ?Z.ltb_lt in *. lia.
Qed.

Lemma out_sendable a nd q sa ra d mh (buf : list Z) :
  node_inv a nd q sa ra -> is_s32 d -> 0 <= mlength mh <= MaxMailSize -> Z.of_nat (length buf) = MaxPacketSize ->
  sendable (network (po nd)) (out_header a d mh) buf.
Proof.
  intros I Hd Hl Hb. destruct (i_addr _ _ _ _ _ I) as (_ & N2 & N3).
  unfold MaxMailSize, MaxPacketSize, MaxWireSize, PacketHeaderSize, MailHeaderSize in *.
  split; [apply (proj1 (i_busy _ _ _ _ _ I))|]. split; [split; [exact Hd|]; split; [exact N3|]; cbn; unfold is_u32, MailHeaderSize; lia|].
  cbn. unfold MailHeaderSize, MaxPacketSize, MaxWireSize, PacketHeaderSize. split; [lia|]. split; [lia|done].
Qed.

(** What [Send] does: the packet is lost, or appended to the datagrams of its
    destination, or there is no such machine. *)
Lemma Post_Send_ok a nd q sa ra (w : W) h0 mh text random :
  node_inv a nd q sa ra -> nb < 2 ^ 31 -> is_s32 (to h0) -> is_s32 (mfrom mh) -> 0 <= mto mh < nb -> 0 <= mlength mh <= MaxMailSize ->
  mlength mh <= Z.of_nat (length text) ->
  exists p, agree (po nd) p /\
  if lost (network (po nd)) random then Post.Send w (po nd) h0 mh text random raw = Ok (p, w)
  else match so_queue w (to h0) with
       | None => Post.Send w (po nd) h0 mh text random raw = Fault AssertFailed
       | Some qd => exists w' bs, Post.Send w (po nd) h0 mh text random raw = Ok (p, w') /\
           (forall b, b <> to h0 -> so_queue w' b = so_queue w b) /\ so_queue w' (to h0) = Some (qd ++ [bs]) /\
           well_formed (to h0) bs /\ mail_ok nb (header_of_bytes bs) (payload_of bs) /\
           msg_of_packet bs = mkMsg a (mfrom mh) (mto mh) (take (Z.to_nat (mlength mh)) text)
       end.
Proof.
  intros I Hnb Hd Hf Ht Hl Htext. destruct (i_addr _ _ _ _ _ I) as (N1 & N2 & N3). destruct (i_boxes _ _ _ _ _ I) as [I2 _].
  destruct (post_send_eq w (po nd) h0 mh text random I2 Ht Hl Htext) as (buf & E & Ebuf & Lbuf). rewrite N1 in E.
  pose proof (out_sendable a nd q sa ra (to h0) mh buf I Hd Hl Lbuf) as Hs.
  exists (set_network (po nd) (schedule (network (po nd)) NetworkSendDone)).
  split; [split_and!; try done; apply (proj1 (i_busy _ _ _ _ _ I))|]. rewrite E. destruct (lost (network (po nd)) random) eqn:El.
  - rewrite Network.Send_eq, El by exact Hs. done.
  - pose proof (Network.Send_ok w (network (po nd)) (out_header a (to h0) mh) buf random raw Hs El) as HS. cbn [to out_header] in HS.
    destruct (so_queue w (to h0)) as [qd|]; [|by rewrite HS]. destruct HS as (w' & -> & Ho & Hq).
    exists w', (out_packet a (to h0) mh text). split; [done|]. split; [exact Ho|]. split; [|by apply out_packet_ok].
    rewrite Hq. cbn [length_ out_header]. rewrite Ebuf. reflexivity.
Qed.

(** ** Every step keeps the invariant *)

Lemma Inv_local s a nd nd' :
  Inv s -> nodes s !! a = Some nd -> (forall q sa ra, node_inv a nd q sa ra -> node_inv a nd' q sa ra) -> Inv (with_node s a nd').
Proof.
  intros HI Ha Hstep b ndb Hb. cbn in Hb. destruct (decide (b = a)) as [->|Hne].
  - rewrite lookup_insert_eq in Hb. injection Hb as <-. destruct (HI a nd Ha) as (q & Hq & I). exists q. split; [done|]. by apply Hstep.
  - rewrite lookup_insert_ne in Hb by done. exact (HI b ndb Hb).
Qed.

Lemma fire_fields e n n' : fire e n = Some n' ->
  ident n' = ident n /\ chanceToWork n' = chanceToWork n /\ sendBusy n' = sendBusy n /\ inHdr n' = inHdr n /\ inbox n' = inbox n.
Proof. unfold fire. intros (es & _ & ->)%fmap_Some. done. Qed.

Lemma agree_fire a nd q sa ra e n :
  node_inv a nd q sa ra -> fire e (network (po nd)) = Some n -> agree (po nd) (set_network (po nd) n).
Proof.
  intros I Hf. apply fire_fields in Hf as (F1 & F2 & F3 & F4 & F5). destruct (i_busy _ _ _ _ _ I) as [B _].
  unfold agree. cbn. rewrite F1, F2, F3, F4, F5. by split_and!.
Qed.

Lemma Inv_poll s a nd n :
  Inv s -> nodes s !! a = Some nd -> fire NetworkReadPoll (network (po nd)) = Some n ->
  exists p w, Post.CheckPktAvail (wire s) (set_network (po nd) n) = Ok (p, w) /\ Inv (with_node (with_wire s w) a (set_po nd p)) /\
    (held nd = [] -> so_queue (wire s) a <> Some [] -> held (set_po nd p) <> []).
Proof.
  intros HI Ha Hf. destruct (HI a nd Ha) as (q & Hq & I). pose proof (agree_fire _ _ _ _ _ _ _ I Hf) as Hagree.
  apply fire_fields in Hf as (F1 & F2 & F3 & F4 & F5). destruct (i_addr _ _ _ _ _ I) as (_ & N2 & _). destruct (i_busy _ _ _ _ _ I) as [B C].
  assert (Hwf : Forall (well_formed (ident n)) q).
  { rewrite F1, N2. eapply Forall_impl; [|exact (i_queue _ _ _ _ _ I)]. by intros bs [? _]. }
  destruct (Network.CheckPktAvail_ok (wire s) n q) as (w & n' & called & E & Ho & Hres);
    [by rewrite F1, N2|exact Hwf|rewrite F5; apply (i_sizes _ _ _ _ _ I)|].
  unfold Post.CheckPktAvail. cbn [network set_network]. rewrite E. cbn [mbind outcome_bind]. eexists _, w. split; [reflexivity|].
  assert (Hid : ident n = a) by congruence. assert (Hsb : sendBusy n = false) by congruence. rewrite Hid in Ho, Hres. rewrite F4 in Hres. destruct q as [|bs q].
  - destruct Hres as (-> & -> & ->). split; [|by intros _ []]. apply (Inv_local s a nd); [done|done|].
    intros q' sa ra. apply node_inv_agree. exact Hagree.
  - destruct (Z.eqb_spec (length_ (inHdr (network (po nd)))) 0) as [H0|H0].
    + destruct Hres as (-> & Hq' & ->). pose proof (node_inv_poll a nd (schedule n NetworkReadPoll) bs q _ _ I H0 Hid Hsb F2 F5) as I'.
      split.
      * intros b ndb Hb. cbn in Hb |- *. destruct (decide (b = a)) as [->|Hne].
        -- rewrite lookup_insert_eq in Hb. injection Hb as <-. exists q. split; [done|]. exact I'.
        -- rewrite lookup_insert_ne in Hb by done. rewrite (Ho b Hne). exact (HI b ndb Hb).
      * intros _ _. unfold held. cbn [set_po po IncomingPacket set_network network count_recvd set_in inHdr].
        pose proof (Forall_inv (i_queue _ _ _ _ _ I)) as [(_ & _ & Hl) _]. by rewrite (proj2 (Z.eqb_neq _ 0)) by lia.
    + destruct Hres as (-> & -> & ->). split; [|].
      * apply (Inv_local s a nd); [done|done|]. intros q' sa ra. apply node_inv_agree. exact Hagree.
      * intros Hh. unfold held in Hh. by rewrite (proj2 (Z.eqb_neq _ 0)) in Hh.
Qed.

Lemma Inv_sender s a nd p w :
  Inv s -> nodes s !! a = Some nd -> agree (po nd) p -> Inv (with_node s a (set_po nd p)) /\
  (w = wire s -> Inv (mkWorld w (<[a := set_po nd p]> (nodes s)) (sent s) (recvd s))).
Proof.
  intros HI Ha Hag. assert (H1 : Inv (with_node s a (set_po nd p))).
  { apply (Inv_local s a nd); [done|done|]. intros q sa ra. by apply node_inv_agree. }
  split; [done|]. by intros ->.
Qed.

(** A datagram for machine [d] is appended to its queue. *)
Lemma Inv_arrive s d w bs qd :
  Inv s -> so_queue (wire s) d = Some qd -> so_queue w d = Some (qd ++ [bs]) -> (forall b, b <> d -> so_queue w b = so_queue (wire s) b) ->
  well_formed d bs -> mail_ok nb (header_of_bytes bs) (payload_of bs) ->
  Inv (mkWorld w (nodes s) (upd (sent s) d (sent s d ++ [msg_of_packet bs])) (recvd s)).
Proof.
  intros HI Hq Hq' Ho Hw Hm b nd Hb. cbn in Hb |- *. destruct (HI b nd Hb) as (q & Hqb & I). destruct (decide (b = d)) as [->|Hne].
  - rewrite Hq in Hqb. injection Hqb as <-. exists (qd ++ [bs]). split; [done|]. rewrite upd_eq. by apply node_inv_arrive.
  - exists q. split; [by rewrite Ho|]. by rewrite upd_ne.
Qed.

Lemma step_Inv s s' : nb < 2 ^ 31 -> Inv s -> step s s' -> Inv s'.
Proof.
  intros Hnb HI Hst. destruct Hst as [a nd d h0 mh text random p w Ha <- Hd Hf Hl E|a nd n Ha Hf|a nd p Ha HP|a nd n p w Ha Hf E
    |a nd p Ha Hw HP|a nd p h bs Ha Hw HR|a nd h p Ha Hw E|a nd box h mh text p Ha E].
  - destruct (HI a nd Ha) as (q & _ & I). destruct (Send_args _ _ _ _ _ _ _ Hl E) as (Ht & Hml & Htext).
    destruct (i_boxes _ _ _ _ _ I) as [I2 _]. rewrite I2 in Ht.
    destruct (Post_Send_ok a nd q _ _ (wire s) h0 mh text random I Hnb Hd Hf Ht ltac:(lia) Htext) as (p' & Hag & HS).
    destruct (Inv_sender s a nd p' w HI Ha Hag) as [HI' HI'']. destruct (lost (network (po nd)) random).
    + rewrite HS in E. injection E as <- <-. by apply HI''.
    + destruct (so_queue (wire s) (to h0)) as [qd|] eqn:Eq; [|congruence]. destruct HS as (w' & bs & E' & Ho & Hq' & Hw & Hm & <-).
      rewrite E' in E. injection E as <- <-. exact (Inv_arrive _ (to h0) w' bs qd HI' Eq Hq' Ho Hw Hm).
  - apply (Inv_local s a nd); [done|done|]. intros q sa ra I. apply node_inv_agree; [|exact I].
    destruct (agree_fire _ _ _ _ _ _ _ I Hf) as (A1 & A2 & A3 & A4 & A5 & A6 & A7 & A8 & A9). by split_and!.
  - apply (Inv_local s a nd); [done|done|]. intros q sa ra I. apply node_inv_agree; [|exact I]. unfold P_messageSent in HP.
    destruct (_ =? 0); [done|]. injection HP as <-. destruct (i_busy _ _ _ _ _ I) as [B _]. by split_and!.
  - destruct (Inv_poll s a nd n HI Ha Hf) as (p' & w' & E' & HI' & _). rewrite E' in E. by injection E as <- <-.
  - apply (Inv_local s a nd); [done|done|]. intros q sa ra I. by apply node_inv_wake.
  - apply (Inv_local s a nd); [done|done|]. intros q sa ra I. by apply (node_inv_take a nd).
  - apply (Inv_local s a nd); [done|done|]. intros q sa ra I. destruct (delivery_put_ok a nd h q sa ra I Hw) as (p' & E' & I').
    rewrite E' in E. by injection E as <-.
  - destruct (HI a nd Ha) as (q & Hq & I). destruct (i_boxes _ _ _ _ _ I) as [I2 _].
    pose proof (Receive_range _ _ _ I2 E) as Hb. destruct (Receive_cases a nd box q _ _ I Hb) as (b & ms & _ & _ & Hc).
    destruct ms as [|m ms]; [congruence|]. destruct Hc as (p' & E' & I'). rewrite E' in E. injection E as <- <- <- <-.
    intros c ndc Hc. cbn in Hc |- *. destruct (decide (c = a)) as [->|Hne].
    + rewrite lookup_insert_eq in Hc. injection Hc as <-. exists q. split; [done|]. rewrite upd_eq. exact I'.
    + rewrite lookup_insert_ne in Hc by done. rewrite upd_ne by done. exact (HI c ndc Hc).
Qed.

(** ** Starting the machines *)

Definition start (w : W) : world W := mkWorld w ∅ (fun _ => []) (fun _ _ => []).

Definition unknown s (a : Z) : Prop := nodes s !! a = None /\ sent s a = [] /\ forall b, recvd s a b = [].

Lemma node_inv_new a h0 : is_s32 a -> 0 <= nb ->
  node_inv a (mkNode (Post.mk (schedule (Network.mk a (clamp reliability) false (set_length h0 0) (new_char raw MaxPacketSize) [] 0 0) NetworkReadPoll)
    a (replicate (Z.to_nat nb) MailBox_new) nb 0 0) Waiting (new_char raw MaxPacketSize)) [] [] (fun _ => []).
Proof.
  intros Ha Hnb. assert (L : Z.of_nat (length (new_char raw MaxPacketSize)) = MaxPacketSize) by (by apply length_new_char).
  split; cbn [po worker buffer network netAddr boxes numBoxes messageAvailable ident sendBusy schedule inHdr inbox]; try done.
  - split; [done|]. rewrite length_replicate. lia.
  - intros b box Hb. apply lookup_replicate in Hb as [-> _]. exists []. split; [apply MailBox_new_rep|]. reflexivity.
Qed.

Lemma boot_ok h0 addrs : 0 <= nb -> forall s, Inv s -> NoDup addrs -> Forall is_s32 addrs -> Forall (unknown s) addrs ->
  exists s', boot h0 addrs s = Ok s' /\ Inv s'.
Proof.
  intros Hnb. induction addrs as [|a addrs IH]; intros s HI Hnd Hs Hu; [by exists s|].
  apply list.NoDup_cons in Hnd as [Hni Hnd]. apply Forall_cons_1 in Hs as [Ha Hs]. apply Forall_cons_1 in Hu as [(Hn & Hsent & Hrecv) Hu].
  cbn [boot]. unfold PostOffice_new, Network_new, AssignNameToSocket.
  destruct (so_bind_ok (wire s) a) as (w & -> & Hq & Ho). cbn [Z.geb Z.compare ASSERT mbind outcome_bind].
  apply IH; [|done|done|].
  - intros b nd Hb. cbn in Hb |- *. destruct (decide (b = a)) as [->|Hne].
    + rewrite lookup_insert_eq in Hb. injection Hb as <-. exists []. split; [done|]. rewrite Hsent.
      pose proof (node_inv_new a h0 Ha Hnb) as I. destruct I. split; try assumption. intros b box Hb. rewrite Hrecv. by apply i_mail0.
    + rewrite lookup_insert_ne in Hb by done. rewrite (Ho b Hne). exact (HI b nd Hb).
  - apply list.Forall_forall. intros b Hb. destruct (proj1 (list.Forall_forall _ _) Hu b Hb) as (Hn' & ? & ?).
    split; [|done]. cbn. rewrite lookup_insert_ne; [done|]. by intros ->.
Qed.

(** The states of machines that were started together. *)
Definition reachable (h0 : PacketHeader) (addrs : list Z) (w : W) s : Prop :=
  exists s0, boot h0 addrs (start w) = Ok s0 /\ rtc step s0 s.

Lemma mailing_reachable_Inv h0 addrs w s :
  0 <= nb < 2 ^ 31 -> NoDup addrs -> Forall is_s32 addrs -> reachable h0 addrs w s -> Inv s.
Proof.
  intros [Hnb Hnb'] Hnd Hs (s0 & E & Hr).
  destruct (boot_ok h0 addrs Hnb (start w)) as (s1 & E1 & HI); [by intros a nd Ha|done|done|by apply Forall_true|].
  rewrite E in E1. injection E1 as <-. clear E. induction Hr as [|s s2 s3 Hst _ IH]; [done|]. apply IH. by apply (step_Inv s).
Qed.

(** C17: mail arrives in order, once and unchanged: in every state that machines
    can reach, under every interleaving of senders, receivers, interrupts and
    postal workers, the messages put on the wire to a mailbox are the ones taken
    out of it, followed by the ones that lie in it, then the one in the hand of
    the postal worker, the one in the device and the ones in the socket.  With a
    reliability of 1 every message that is sent is put on the wire. *)
Theorem mail_in_order h0 addrs w s a nd b box :
  0 <= nb < 2 ^ 31 -> NoDup addrs -> Forall is_s32 addrs -> reachable h0 addrs w s ->
  nodes s !! a = Some nd -> boxes (po nd) !! b = Some box ->
  (exists q ms, so_queue (wire s) a = Some q /\ box_rep box ms /\
     for_box (Z.of_nat b) (sent s a) =
       recvd s a (Z.of_nat b) ++ (msg_of_mail <$> ms) ++ for_box (Z.of_nat b) (hand nd ++ held nd ++ (msg_of_packet <$> q))) /\
  (QArith_base.Qle (QArith_base.inject_Z 1) reliability -> forall random, 0 <= random -> lost (network (po nd)) random = false).
Proof.
  intros Hnb Hnd Hs Hr Ha Hb. destruct (mailing_reachable_Inv h0 addrs w s Hnb Hnd Hs Hr a nd Ha) as (q & Hq & I). split.
  - destruct (i_mail _ _ _ _ _ I b box Hb) as (ms & Hrep & E). by exists q, ms.
  - intros Hrel random Hrandom. apply reliable; [|done]. rewrite (proj2 (i_busy _ _ _ _ _ I)). unfold clamp.
    destruct (QArith_base.Qlt_le_dec reliability _) as [Hlt|]; [|destruct (QArith_base.Qlt_le_dec _ reliability); [apply QArith_base.Qle_refl|done]].
    exfalso. apply (QArith_base.Qlt_not_le _ _ Hlt). eapply QArith_base.Qle_trans; [|exact Hrel]. discriminate.
Qed.

(** C26: delivery never gets stuck and never fails: in every state that machines
    can reach, a poll of the socket returns, and takes a waiting packet when the
    device has none; while the device has a packet the postal worker does not
    wait for one; and the worker puts what it holds into its mailbox.  Taking mail
    out of a mailbox gives its oldest message; out of an empty one the kernel
    stops, since there is no [Condition::Wait]. *)
Theorem delivery_never_stuck h0 addrs w s a nd :
  0 <= nb < 2 ^ 31 -> NoDup addrs -> Forall is_s32 addrs -> reachable h0 addrs w s -> nodes s !! a = Some nd ->
  (forall n, fire NetworkReadPoll (network (po nd)) = Some n ->
     exists p w', Post.CheckPktAvail (wire s) (set_network (po nd) n) = Ok (p, w') /\
       (held nd = [] -> so_queue (wire s) a <> Some [] -> held (set_po nd p) <> [])) /\
  match worker nd with
  | Waiting => held nd <> [] -> exists p, P_messageAvailable (po nd) = Some p
  | Woken => exists m, held nd = [m]
  | Has h => exists p, delivery_put raw (po nd) h (buffer nd) = Ok p
  end /\
  (forall box, 0 <= box < nb -> exists b ms, boxes (po nd) !! Z.to_nat box = Some b /\ box_rep b ms /\
     match ms with
     | [] => Post.Receive (po nd) box = Fault AssertFailed
     | m :: _ => exists p, Post.Receive (po nd) box = Ok (pktHdr m, mailHdr m, m_text (msg_of_mail m), p)
     end).
Proof.
  intros Hnb Hnd Hs Hr Ha. pose proof (mailing_reachable_Inv h0 addrs w s Hnb Hnd Hs Hr) as HI.
  destruct (HI a nd Ha) as (q & Hq & I). split; [|split].
  - intros n Hf. destruct (Inv_poll s a nd n HI Ha Hf) as (p & w' & E & _ & Hh). by exists p, w'.
  - pose proof (i_worker _ _ _ _ _ I) as HW. destruct (worker nd) as [| |h] eqn:Ew.
    + intros Hh. unfold P_messageAvailable. rewrite HW. destruct (held nd); [done|]. by eexists.
    + destruct HW as [_ HW]. destruct (held nd) as [|m [|]]; [done|by exists m|done].
    + destruct (delivery_put_ok a nd h q _ _ I Ew) as (p & E & _). by exists p.
  - intros box Hb. destruct (Receive_cases a nd box q _ _ I Hb) as (b & ms & Hbox & Hrep & Hc). exists b, ms. split; [done|]. split; [done|].
    destruct ms; [done|]. destruct Hc as (p & E & _). by exists p.
Qed.

End protocol.

(** ** Two machines *)

#[local] Existing Instance LinkedList.bump_alloc.

Definition demo_raw (i : Z) : Z := 0.
Definition demo_header : PacketHeader := mkPacketHeader 1 0 0.
Definition demo_mail : MailHeader := mkMailHeader 0 0 2.
Definition demo_world : outcome (world SocketModel.t) :=
  boot demo_raw 1 (QArith_base.inject_Z 1) demo_header [0; 1] (start ∅).

(** Machine 0 sends "hi" to the mailbox of machine 1, which takes it out. *)
Lemma demo_run : exists s, reachable demo_raw 1 (QArith_base.inject_Z 1) demo_header [0; 1] (∅ : SocketModel.t) s /\
  recvd s 1 0 = [mkMsg 0 0 0 [104; 105]] /\ exists nd box, nodes s !! 1 = Some nd /\ boxes (po nd) !! 0%nat = Some box.
Proof.
  eexists. split.
  - eexists. split; [vm_compute; reflexivity|].
    eapply rtc_l; [eapply (step_send _ _ 0 _ 1 demo_header demo_mail [104; 105] 7); [reflexivity|reflexivity|done|done|done|vm_compute; reflexivity]|].
    eapply rtc_l; [eapply (step_poll _ _ 1); [reflexivity|vm_compute; reflexivity|vm_compute; reflexivity]|].
    eapply rtc_l; [eapply (step_wake _ _ 1); [reflexivity|reflexivity|vm_compute; reflexivity]|].
    eapply rtc_l; [eapply (step_take _ _ 1); [reflexivity|reflexivity|vm_compute; reflexivity]|].
    eapply rtc_l; [eapply (step_put _ _ 1); [reflexivity|reflexivity|vm_compute; reflexivity]|].
    eapply rtc_l; [eapply (step_receive _ _ 1 _ 0); [reflexivity|vm_compute; reflexivity]|].
    apply rtc_refl.
  - split; [vm_compute; reflexivity|]. do 2 eexists. split; [vm_compute; reflexivity|vm_compute; reflexivity].
Qed.

(** The first theorem, after the message has been taken out. *)
Lemma mail_in_order_witness : exists s nd box,
  reachable demo_raw 1 (QArith_base.inject_Z 1) demo_header [0; 1] (∅ : SocketModel.t) s /\
  nodes s !! 1 = Some nd /\ boxes (po nd) !! 0%nat = Some box /\ recvd s 1 0 = [mkMsg 0 0 0 [104; 105]] /\
  (exists q ms, so_queue (wire s) 1 = Some q /\ box_rep box ms /\
     for_box 0 (sent s 1) =
       recvd s 1 0 ++ (msg_of_mail <$> ms) ++ for_box 0 (hand nd ++ held nd ++ (msg_of_packet <$> q))) /\
  forall random, 0 <= random -> lost (network (po nd)) random = false.
Proof.
  destruct demo_run as (s & Hr & Erecv & nd & box & Hnd & Hbox). exists s, nd, box.
  split; [exact Hr|]. split; [exact Hnd|]. split; [exact Hbox|]. split; [exact Erecv|].
  destruct (mail_in_order demo_raw 1 (QArith_base.inject_Z 1) demo_header [0; 1] ∅ s 1 nd 0 box) as [H1 H2];
    [lia|apply (bool_decide_unpack _); reflexivity|repeat constructor; done|exact Hr|exact Hnd|exact Hbox|].
  split; [exact H1|]. apply H2. apply QArith_base.Qle_refl.
Defined.

(** The second theorem, in the same state: the mailbox can be asked again. *)
Lemma delivery_never_stuck_witness : exists s nd b ms,
  reachable demo_raw 1 (QArith_base.inject_Z 1) demo_header [0; 1] (∅ : SocketModel.t) s /\
  nodes s !! 1 = Some nd /\ boxes (po nd) !! 0%nat = Some b /\ box_rep b ms /\
  match ms with
  | [] => Post.Receive (po nd) 0 = Fault AssertFailed
  | m :: _ => exists p, Post.Receive (po nd) 0 = Ok (pktHdr m, mailHdr m, m_text (msg_of_mail m), p)
  end.
Proof.
  destruct demo_run as (s & Hr & Erecv & nd & box & Hnd & Hbox).
  destruct (delivery_never_stuck demo_raw 1 (QArith_base.inject_Z 1) demo_header [0; 1] ∅ s 1 nd) as (_ & _ & H);
    [lia|apply (bool_decide_unpack _); reflexivity|repeat constructor; done|exact Hr|exact Hnd|].
  destruct (H 0) as (b & ms & Hb & Hrep & Hc); [lia|]. exists s, nd, b, ms. done.
Defined.

End Mailing.
