(* ===== verification/NetTest.v ===== *)
(** * network/nettest.cc: two machines exchange mail

    [MailTest] on two machines, over the post offices of [PostProtocol.v]: the
    thread of each machine runs from one call of the post office to the next, while
    the devices and the postal workers run in between, in any order.  The comment in
    the source warns that the post office does not work without condition variables,
    which this kernel does not have; the theorems tell what happens without them. *)

From S2P Require Import Prelude Lists NetworkDev PostOffice PostProtocol FileCalls.

Local Open Scope Z_scope.

Module NetTest.
Import Network Post Mailing.

(** "Hello there!" and "Got it!" *)
Definition hello : list Z := [72; 101; 108; 108; 111; 32; 116; 104; 101; 114; 101; 33].
Definition got_it : list Z := [71; 111; 116; 32; 105; 116; 33].
(** The arrays [data] and [ack] of [MailTest], with the zero at their end. *)
Definition data : list Z := hello ++ [0].
Definition ack : list Z := got_it ++ [0].

(** ** The thread *)

(** Before the call of [Send], waiting in it, and before the call of [Receive], twice;
    before [Halt], and after it. *)
Inductive loc := Before1 | Sending1 | Ready0 | Before2 | Sending2 | Ready1 | Finishing | Halted.

(** The variables of [MailTest], and what it printed: the string and the two numbers
    of each line. *)
Record task := mkTask {
  at_loc : loc;
  outPktHdr : PacketHeader; outMailHdr : MailHeader;
  inPktHdr : PacketHeader; inMailHdr : MailHeader;
  tbuffer : list Z;
  output : list (list Z * Z * Z);
}.

Definition goto (t : task) (l : loc) : task := mkTask l (outPktHdr t) (outMailHdr t) (inPktHdr t) (inMailHdr t) (tbuffer t) (output t).

Definition set_out (t : task) (to_ mto_ mfrom_ mlength_ : Z) : task :=
  mkTask (at_loc t) (mkPacketHeader to_ (from (outPktHdr t)) (length_ (outPktHdr t))) (mkMailHeader mto_ mfrom_ mlength_)
    (inPktHdr t) (inMailHdr t) (tbuffer t) (output t).

(** What happens before a call of [Send], and the text. *)
Definition sending (farAddr : Z) (t : task) : option (task * list Z) :=
  match at_loc t with
  | Before1 => Some (goto (set_out t farAddr 0 1 (Z.of_nat (length hello) + 1)) Sending1, data)
  | Before2 => Some (goto (set_out t (from (inPktHdr t)) (mfrom (inMailHdr t)) (mfrom (outMailHdr t)) (Z.of_nat (length got_it) + 1)) Sending2, ack)
  | _ => None
  end.

(** The return of [Send]. *)
Definition send_returns (t : task) : option task :=
  match at_loc t with Sending1 => Some (goto t Ready0) | Sending2 => Some (goto t Ready1) | _ => None end.

Definition receiving (t : task) : option Z :=
  match at_loc t with Ready0 => Some 0 | Ready1 => Some 1 | _ => None end.

(** [Receive] has filled in the headers and the buffer; the line is printed. *)
Definition received (t : task) (h : PacketHeader) (mh : MailHeader) (text : list Z) : task :=
  let buffer := splice (tbuffer t) 0 text in
  mkTask (match at_loc t with Ready0 => Before2 | _ => Finishing end) (outPktHdr t) (outMailHdr t) h mh buffer
    (output t ++ [(FileCalls.c_string buffer, from h, mfrom mh)]).

(** ** The machines *)

Section machines.
Context `{HA : LinkedList.HeapAlloc} {W : Type} `{SL : SocketsLaws W} (raw : Z -> Z) (nb : Z) (reliability : QArith_base.Q).
Implicit Types s : world W.

(** What runs besides the thread. *)
Inductive background s : world W -> Prop :=
| b_sent a nd n :
    nodes s !! a = Some nd -> fire NetworkSendDone (network (po nd)) = Some n ->
    background s (with_node s a (set_po nd (Post.SendDone (set_network (po nd) n))))
| b_poll a nd n p w :
    nodes s !! a = Some nd -> fire NetworkReadPoll (network (po nd)) = Some n ->
    Post.CheckPktAvail (wire s) (set_network (po nd) n) = Ok (p, w) ->
    background s (with_node (with_wire s w) a (set_po nd p))
| b_wake a nd p :
    nodes s !! a = Some nd -> worker nd = Waiting -> P_messageAvailable (po nd) = Some p ->
    background s (with_node s a (mkNode p Woken (buffer nd)))
| b_take a nd p h bs :
    nodes s !! a = Some nd -> worker nd = Woken -> delivery_receive (po nd) (buffer nd) = (p, h, bs) ->
    background s (with_node s a (mkNode p (Has h) bs))
| b_put a nd h p :
    nodes s !! a = Some nd -> worker nd = Has h -> delivery_put raw (po nd) h (buffer nd) = Ok p ->
    background s (with_node s a (mkNode p Waiting (buffer nd))).

Context (far : Z -> Z).

Abbreviation tasks := (gmap Z task).

(** [interrupt->Halt()] ends the process; [Cleanup] deletes the post office, and with
    it the network device, which closes its socket. *)
Definition shut_down s (a : Z) (nd : node) : world W :=
  mkWorld (Network_destroy (wire s) (network (po nd))) (delete a (nodes s)) (sent s) (recvd s).

Inductive tstep : world W * tasks -> world W * tasks -> Prop :=
| t_background s s' ts : background s s' -> tstep (s, ts) (s', ts)
| t_send s ts a nd t t' text random p w :
    nodes s !! a = Some nd -> ts !! a = Some t -> sending (far a) t = Some (t', text) ->
    Post.Send (wire s) (po nd) (outPktHdr t') (outMailHdr t') text random raw = Ok (p, w) ->
    tstep (s, ts)
      (mkWorld w (<[a := set_po nd p]> (nodes s))
         (if lost (network (po nd)) random then sent s
          else upd (sent s) (to (outPktHdr t')) (sent s (to (outPktHdr t')) ++
                 [mkMsg a (mfrom (outMailHdr t')) (mto (outMailHdr t')) (take (Z.to_nat (mlength (outMailHdr t'))) text)]))
         (recvd s), <[a := t']> ts)
| t_return s ts a nd t t' p :
    nodes s !! a = Some nd -> ts !! a = Some t -> send_returns t = Some t' -> P_messageSent (po nd) = Some p ->
    tstep (s, ts) (with_node s a (set_po nd p), <[a := t']> ts)
| t_receive s ts a nd t box h mh text p :
    nodes s !! a = Some nd -> ts !! a = Some t -> receiving t = Some box -> Post.Receive (po nd) box = Ok (h, mh, text, p) ->
    tstep (s, ts)
      (mkWorld (wire s) (<[a := set_po nd p]> (nodes s)) (sent s)
         (upd (recvd s) a (upd (recvd s a) box (recvd s a box ++ [mkMsg (from h) (mfrom mh) (mto mh) text]))),
       <[a := received t h mh text]> ts)
| t_halt s ts a nd t :
    nodes s !! a = Some nd -> ts !! a = Some t -> at_loc t = Finishing ->
    tstep (s, ts) (shut_down s a nd, <[a := goto t Halted]> ts).

(** ** The pieces are steps of the mail protocol *)

Lemma background_step s s' : background s s' -> step raw s s'.
Proof. intros []; [eapply step_sent|eapply step_poll|eapply step_wake|eapply step_take|eapply step_put]; eassumption. Qed.

Lemma background_frame s s' : background s s' ->
  sent s' = sent s /\ recvd s' = recvd s /\ forall a, is_Some (nodes s !! a) -> is_Some (nodes s' !! a).
Proof. intros []; (split; [done|]; split; [done|]; intros b Hb; cbn; rewrite lookup_insert_is_Some; destruct (decide (a = b)); tauto). Qed.

Lemma shut_down_Inv s a nd : Inv nb reliability s -> nodes s !! a = Some nd -> Inv nb reliability (shut_down s a nd).
Proof.
  intros HI Ha b ndb Hb. cbn in Hb. apply lookup_delete_Some in Hb as [Hne Hb]. destruct (HI a nd Ha) as (qa & _ & I).
  destruct (HI b ndb Hb) as (q & Hq & Ib). exists q. split; [|exact Ib]. unfold shut_down, Network_destroy. cbn [wire].
  destruct (i_addr _ _ _ _ _ _ _ I) as (_ & Eid & _). rewrite Eid. by rewrite (proj2 (so_unlink_ok (wire s) a)).
Qed.

(** ** The invariant *)

Context (x y : Z) (Hxy : x <> y) (Hx : is_s32 x) (Hy : is_s32 y) (Hnb : 2 <= nb < 2 ^ 31).
Context (Hfarx : far x = y) (Hfary : far y = x).

Definition pair_ (a : Z) : Prop := a = x \/ a = y.

(** The two messages of machine [a]. *)
Definition hello_msg (a : Z) : Msg := mkMsg a 1 0 data.
Definition ack_msg (a : Z) : Msg := mkMsg a 1 1 ack.

Definition replied (l : loc) : bool := match l with Sending2 | Ready1 | Finishing | Halted => true | _ => false end.
Definition over (l : loc) : bool := match l with Finishing | Halted => true | _ => false end.

(** The lines that a machine has printed when it is at [l]. *)
Definition lines (a : Z) (l : loc) : list (list Z * Z * Z) :=
  match l with
  | Before1 | Sending1 | Ready0 => []
  | Before2 | Sending2 | Ready1 => [(hello, far a, 1)]
  | Finishing | Halted => [(hello, far a, 1); (got_it, far a, 1)]
  end.

Record task_ok (a : Z) (t : task) : Prop := {
  k_output : output t = lines a (at_loc t);
  k_buffer : Z.of_nat (length (tbuffer t)) = MaxMailSize;
  k_out : at_loc t <> Before1 -> mfrom (outMailHdr t) = 1;
  k_in : at_loc t = Before2 -> from (inPktHdr t) = far a /\ mfrom (inMailHdr t) = 1 }.

Definition sent_ok (ts : tasks) (a : Z) (m : Msg) : Prop :=
  m = hello_msg (far a) \/ (m = ack_msg (far a) /\ exists t, ts !! far a = Some t /\ replied (at_loc t) = true).

Record machine_ok s (ts : tasks) (a : Z) : Prop := {
  o_sent : forall m, m ∈ sent s a -> sent_ok ts a m;
  o_task : exists t, ts !! a = Some t /\ task_ok a t /\ (at_loc t <> Halted -> is_Some (nodes s !! a)) /\
             (over (at_loc t) = true -> exists t', ts !! far a = Some t' /\ replied (at_loc t') = true) }.

Definition TInv (c : world W * tasks) : Prop := Inv nb reliability c.1 /\ forall a, pair_ a -> machine_ok c.1 c.2 a.

Lemma far_pair a : pair_ a -> pair_ (far a) /\ far a <> a /\ far (far a) = a /\ is_s32 a.
Proof. intros [-> | ->]; rewrite ?Hfarx, ?Hfary, ?Hfarx, ?Hfary; unfold pair_; split_and!; auto. Qed.

Lemma pair_cases a b : pair_ a -> pair_ b -> b = a \/ b = far a.
Proof. intros [-> | ->] [-> | ->]; rewrite ?Hfarx, ?Hfary; auto. Qed.

(** A machine moves on, and may have put a message on the wire to the other one. *)
Lemma machine_ok_moves s s' ts a t t' :
  (forall b, pair_ b -> machine_ok s ts b) -> pair_ a -> ts !! a = Some t -> task_ok a t' ->
  (forall b, is_Some (nodes s !! b) -> b <> a \/ at_loc t' <> Halted -> is_Some (nodes s' !! b)) ->
  (at_loc t = Halted -> at_loc t' = Halted) ->
  (replied (at_loc t) = true -> replied (at_loc t') = true) ->
  (over (at_loc t') = true -> exists t2, ts !! far a = Some t2 /\ replied (at_loc t2) = true) ->
  sent s' a = sent s a ->
  (forall m, m ∈ sent s' (far a) -> m ∈ sent s (far a) \/ sent_ok (<[a := t']> ts) (far a) m) ->
  forall b, pair_ b -> machine_ok s' (<[a := t']> ts) b.
Proof.
  intros Hok Ha Et Ht' Hnodes Hhalt Hrep Hover Hsa Hsf b Hb. destruct (far_pair a Ha) as (Hfa & Hne & Hff & _).
  assert (Hkeep : forall c, (exists t2, ts !! c = Some t2 /\ replied (at_loc t2) = true) ->
    exists t2, <[a := t']> ts !! c = Some t2 /\ replied (at_loc t2) = true).
  { intros c (t2 & E2 & R2). destruct (decide (c = a)) as [->|Hca]; [|exists t2; by rewrite lookup_insert_ne].
    exists t'. rewrite lookup_insert_eq. split; [done|]. apply Hrep. congruence. }
  assert (Hsent : forall m, sent_ok ts b m -> sent_ok (<[a := t']> ts) b m).
  { intros m [Hm|[Hm Hr]]; [by left|right]. split; [done|]. by apply Hkeep. }
  destruct (Hok b Hb) as [Hs (tb & Etb & Htb & Hnb' & Hob)]. destruct (pair_cases a b Ha Hb) as [->| ->].
  - split.
    + intros m Hm. rewrite Hsa in Hm. by apply Hsent, Hs.
    + exists t'. rewrite lookup_insert_eq. split; [done|]. split; [done|]. split.
      * intros Hh. apply Hnodes; [|by right]. apply Hnb'. assert (tb = t) as -> by congruence. intros E. by apply Hh, Hhalt.
      * intros Ho. apply Hkeep, Hover, Ho.
  - split.
    + intros m Hm. destruct (Hsf m Hm) as [Hm'|Hm']; [by apply Hsent, Hs|done].
    + exists tb. rewrite lookup_insert_ne by done. split; [done|]. split; [done|]. split.
      * intros Hh. apply Hnodes; [by apply Hnb'|by left].
      * intros Ho. by apply Hkeep, Hob.
Qed.

(** What the thread passes to [Send]. *)
Lemma sending_ok a t t' text : task_ok a t -> sending (far a) t = Some (t', text) ->
  task_ok a t' /\ at_loc t <> Halted /\ over (at_loc t') = false /\ replied (at_loc t) = false /\ at_loc t' <> Halted /\
  to (outPktHdr t') = far a /\ mfrom (outMailHdr t') = 1 /\ 0 <= mto (outMailHdr t') < 2 /\
  mlength (outMailHdr t') = Z.of_nat (length text) /\ Z.of_nat (length text) <= MaxMailSize /\
  (mkMsg a 1 (mto (outMailHdr t')) text = hello_msg a \/ (mkMsg a 1 (mto (outMailHdr t')) text = ack_msg a /\ replied (at_loc t') = true)).
Proof.
  intros [K1 K2 K3 K4] E. unfold sending in E. destruct t as [l oh om ih im tb out]. cbn [at_loc output tbuffer inPktHdr inMailHdr outMailHdr] in *.
  destruct l; try discriminate E; injection E as <- <-; cbn [goto set_out at_loc outPktHdr outMailHdr to mto mfrom mlength].
  - split; [split; cbn; done|]. split_and!; try done. by left.
  - destruct (K4 eq_refl) as [E1 E2]. split; [split; cbn; auto; done|]. rewrite E1, E2, K3 by done. split_and!; try done. by right.
Qed.

Lemma send_returns_ok a t t' : task_ok a t -> send_returns t = Some t' ->
  task_ok a t' /\ at_loc t <> Halted /\ over (at_loc t') = false /\ replied (at_loc t') = replied (at_loc t) /\ at_loc t' <> Halted.
Proof.
  intros [K1 K2 K3 K4] E. unfold send_returns in E. destruct t as [l oh om ih im tb out]. cbn [at_loc output tbuffer inPktHdr inMailHdr outMailHdr] in *.
  destruct l; try discriminate E; injection E as <-; cbn [goto at_loc]; (split; [split; cbn; auto; done|done]).
Qed.

(** A message that [Receive] gives was put on the wire to the machine. *)
Lemma receive_sent s a nd box h mh text p : Inv nb reliability s -> nodes s !! a = Some nd -> 0 <= box < nb ->
  Post.Receive (po nd) box = Ok (h, mh, text, p) -> mkMsg (from h) (mfrom mh) (mto mh) text ∈ sent s a /\ mto mh = box.
Proof.
  intros HI Ha Hb E. destruct (HI a nd Ha) as (q & _ & I). destruct (Receive_cases nb reliability a nd box q _ _ I Hb) as (b & ms & Hbox & Hrep & Hc).
  destruct ms as [|m ms]; [congruence|]. destruct Hc as (p' & E' & I'). rewrite E in E'. injection E' as -> -> -> ->.
  assert (Hin : msg_of_mail m ∈ for_box box (sent s a)).
  { destruct (i_mail _ _ _ _ _ _ _ I' (Z.to_nat box) (default MailBox_new (boxes (po (set_po nd p')) !! Z.to_nat box))) as (ms' & _ & Em).
    - destruct (lookup_lt_is_Some_2 (boxes (po (set_po nd p'))) (Z.to_nat box)) as [b' Hb'].
      { destruct (i_boxes _ _ _ _ _ _ _ I') as [_ Hl]. lia. }
      by rewrite Hb'.
    - rewrite Z2Nat.id in Em by lia. rewrite <- Em, upd_eq. apply elem_of_app. left. apply elem_of_app. right. by apply list_elem_of_singleton. }
  unfold for_box in Hin. apply list_elem_of_filter in Hin as [Hbm Hin]. split; [exact Hin|exact Hbm].
Qed.

Lemma c_string_splice b cs : Forall (fun c => c <> 0) cs -> FileCalls.c_string (splice b 0 (cs ++ [0])) = cs.
Proof.
  intros Hcs. unfold splice. rewrite take_0. cbn [app]. rewrite <- app_assoc. generalize (drop (0 + length (cs ++ [0])) b) as r. intros r.
  induction Hcs as [|c cs Hc _ IH]; [done|]. cbn [app FileCalls.c_string] in *. by rewrite (proj2 (Z.eqb_neq c 0)), IH.
Qed.

Lemma received_ok a t box h mh text : task_ok a t -> receiving t = Some box ->
  from h = far a -> mfrom mh = 1 -> text = (if box =? 0 then data else ack) ->
  task_ok a (received t h mh text) /\ at_loc t <> Halted /\ at_loc (received t h mh text) <> Halted /\ 0 <= box < nb /\
  (replied (at_loc t) = true -> replied (at_loc (received t h mh text)) = true) /\ (over (at_loc (received t h mh text)) = true -> box = 1).
Proof.
  intros [K1 K2 K3 K4] E Eh Em ->. unfold receiving in E. destruct t as [l oh om ih im tb out]. cbn [at_loc output tbuffer inPktHdr inMailHdr outMailHdr] in *.
  destruct l; try discriminate E; injection E as <-; unfold received; cbn [at_loc tbuffer output Z.eqb].
  all: (split; [|split_and!; (done || lia)]); split; cbn [at_loc output tbuffer outMailHdr inPktHdr inMailHdr lines over replied]; auto; try done.
  1,3: rewrite K1, Eh, Em; cbn [lines app]; unfold data, ack; rewrite c_string_splice by (repeat constructor; lia); reflexivity.
  all: rewrite length_splice; [exact K2|]; unfold MaxMailSize, MaxPacketSize, MaxWireSize, PacketHeaderSize, MailHeaderSize in K2; cbn [data ack hello got_it app length]; lia.
Qed.

Lemma sent_ok_fields ts a f r b text : sent_ok ts a (mkMsg f r b text) ->
  f = far a /\ r = 1 /\ text = (if b =? 0 then data else ack) /\ (b = 1 -> exists t, ts !! far a = Some t /\ replied (at_loc t) = true).
Proof. intros [[= -> -> -> ->]|[[= -> -> -> ->] Hr]]; split_and!; done. Qed.

Lemma receiving_range t box : receiving t = Some box -> 0 <= box < nb.
Proof. unfold receiving. destruct (at_loc t); try discriminate; intros [= <-]; lia. Qed.

Lemma kept_nodes s a nd nd' : nodes s !! a = Some nd -> forall b, is_Some (nodes s !! b) -> is_Some (<[a := nd']> (nodes s) !! b).
Proof. intros _ b Hb. rewrite lookup_insert_is_Some. destruct (decide (a = b)); tauto. Qed.

(** Only the two machines of the exchange run. *)
Definition only_pair (c : world W * tasks) : Prop := forall a t, c.2 !! a = Some t -> pair_ a.

(** The exchange keeps the invariant, piece by piece. *)
Lemma send_TInv s ts a nd t t' text random p w : TInv (s, ts) -> pair_ a ->
  nodes s !! a = Some nd -> ts !! a = Some t -> sending (far a) t = Some (t', text) ->
  Post.Send (wire s) (po nd) (outPktHdr t') (outMailHdr t') text random raw = Ok (p, w) ->
  TInv (mkWorld w (<[a := set_po nd p]> (nodes s))
     (if lost (network (po nd)) random then sent s
      else upd (sent s) (to (outPktHdr t')) (sent s (to (outPktHdr t')) ++
             [mkMsg a (mfrom (outMailHdr t')) (mto (outMailHdr t')) (take (Z.to_nat (mlength (outMailHdr t'))) text)]))
     (recvd s), <[a := t']> ts).
Proof.
  intros [HI Hok] Hp Ha Et Es ES. cbn [fst snd] in *. destruct (o_task _ _ _ (Hok a Hp)) as (t0 & E0 & Ht & _).
  assert (t0 = t) as -> by congruence. destruct (far_pair a Hp) as (Hpf & Hne & Hff & _). destruct (far_pair _ Hpf) as (_ & _ & _ & Hsf).
  destruct (sending_ok a t t' text Ht Es) as (Ht' & Hh & Hov & Hrp & Hh' & Eto & Efrom & Hbox & Elen & Hmax & Hmsg).
  split; cbn [fst snd].
  - apply (step_Inv raw nb reliability s); [lia|done|]. eapply step_send; try eassumption; [done|by rewrite Eto|by rewrite Efrom|lia].
  - apply (machine_ok_moves s _ ts a t); try done; cbn [nodes sent].
    + intros b Hb _. by apply (kept_nodes s a nd).
    + by rewrite Hrp.
    + by rewrite Hov.
    + destruct (lost _ _); [done|]. by rewrite Eto, upd_ne.
    + intros m Hm. destruct (lost _ _); [by left|]. rewrite Eto, upd_eq in Hm. apply elem_of_app in Hm as [Hm|Hm]; [by left|right].
      apply list_elem_of_singleton in Hm as ->. rewrite Efrom, Elen, take_ge by lia. destruct Hmsg as [->|[-> Hr]]; [left; by rewrite Hff|right].
      rewrite Hff. split; [done|]. exists t'. by rewrite lookup_insert_eq.
Qed.

Lemma receive_TInv s ts a nd t box h mh text p : TInv (s, ts) -> pair_ a ->
  nodes s !! a = Some nd -> ts !! a = Some t -> receiving t = Some box -> Post.Receive (po nd) box = Ok (h, mh, text, p) ->
  TInv (mkWorld (wire s) (<[a := set_po nd p]> (nodes s)) (sent s)
     (upd (recvd s) a (upd (recvd s a) box (recvd s a box ++ [mkMsg (from h) (mfrom mh) (mto mh) text]))), <[a := received t h mh text]> ts).
Proof.
  intros [HI Hok] Hp Ha Et Er ER. cbn [fst snd] in *. pose proof (Hok a Hp) as [Hs (t0 & E0 & Ht & _)].
  assert (t0 = t) as -> by congruence. destruct (receive_sent s a nd box h mh text p HI Ha (receiving_range t box Er) ER) as [Hin Hbox].
  destruct (sent_ok_fields ts a _ _ _ _ (Hs _ Hin)) as (Ef & Em & Etx & Hrep). rewrite Hbox in Etx, Hrep.
  destruct (received_ok a t box h mh text Ht Er Ef Em Etx) as (Ht' & Hh & Hh' & _ & Hr & Ho). split; cbn [fst snd].
  - apply (step_Inv raw nb reliability s); [lia|done|]. by eapply step_receive.
  - apply (machine_ok_moves s _ ts a t); try done; cbn [nodes sent].
    + intros b Hb _. by apply (kept_nodes s a nd).
    + intros Hov. by apply Hrep, Ho.
    + intros m Hm. by left.
Qed.

Lemma tstep_TInv c c' : TInv c -> only_pair c -> tstep c c' -> TInv c' /\ only_pair c'.
Proof.
  intros HT Ho Hst. assert (Hp : forall ts a t s, c = (s, ts) -> ts !! a = Some t -> pair_ a) by (intros ts a t s ->; apply Ho).
  destruct Hst as [s s' ts Hb|s ts a nd t t' text random p w Ha Et Es ES|s ts a nd t t' p Ha Et Es EP|s ts a nd t box h mh text p Ha Et Er ER|s ts a nd t Ha Et El].
  - split; [|exact Ho]. destruct HT as [HI Hok]. cbn [fst snd] in *. destruct (background_frame s s' Hb) as (Es & _ & Hn). split; cbn [fst snd].
    + apply (step_Inv raw nb reliability s); [lia|done|]. by apply background_step.
    + intros a Ha. destruct (Hok a Ha) as [Hs (t & Et & Ht & Hnd & Hov)]. split; [by rewrite Es|]. exists t. split_and!; auto.
  - split; [by eapply send_TInv; eauto|]. intros b tb Hb. cbn in Hb. apply lookup_insert_Some in Hb as [[<- _]|[_ Hb]]; eauto.
  - split; [|intros b tb Hb; cbn in Hb; apply lookup_insert_Some in Hb as [[<- _]|[_ Hb]]; eauto].
    destruct HT as [HI Hok]. cbn [fst snd] in *. pose proof (Hp ts a t s eq_refl Et) as Hpa. destruct (o_task _ _ _ (Hok a Hpa)) as (t0 & E0 & Ht & _).
    assert (t0 = t) as -> by congruence. destruct (send_returns_ok a t t' Ht Es) as (Ht' & Hh & Hov & Hrp & Hh'). split; cbn [fst snd].
    + apply (step_Inv raw nb reliability s); [lia|done|]. by eapply step_return.
    + apply (machine_ok_moves s _ ts a t); try done; cbn [nodes sent with_node].
      * intros b Hb _. by apply (kept_nodes s a nd).
      * by rewrite Hrp.
      * by rewrite Hov.
      * intros m Hm. by left.
  - split; [by eapply receive_TInv; eauto|]. intros b tb Hb. cbn in Hb. apply lookup_insert_Some in Hb as [[<- _]|[_ Hb]]; eauto.
  - split; [|intros b tb Hb; cbn in Hb; apply lookup_insert_Some in Hb as [[<- _]|[_ Hb]]; eauto].
    destruct HT as [HI Hok]. cbn [fst snd] in *. pose proof (Hp ts a t s eq_refl Et) as Hpa. destruct (o_task _ _ _ (Hok a Hpa)) as (t0 & E0 & Ht & _ & Hov).
    assert (t0 = t) as -> by congruence. split; cbn [fst snd]; [by apply shut_down_Inv|].
    apply (machine_ok_moves s _ ts a t); try done; cbn [nodes sent shut_down goto at_loc].
    + destruct Ht as [K1 K2 K3 K4]. rewrite El in *. split; cbn; try done. intros _. by apply K3.
    + intros b Hb [Hne|Hne]; [|done]. by rewrite lookup_delete_ne.
    + intros _. apply Hov. by rewrite El.
    + intros m Hm. by left.
Qed.

(** ** The exchange *)

(** The variables are not initialised when [MailTest] starts. *)
Definition fresh_task (t : task) : Prop := at_loc t = Before1 /\ output t = [] /\ Z.of_nat (length (tbuffer t)) = MaxMailSize.

(** The states that the two machines can reach. *)
Definition exchange (h0 : PacketHeader) (w : W) (tx ty : task) (c : world W * tasks) : Prop :=
  fresh_task tx /\ fresh_task ty /\
  exists s0, boot raw nb reliability h0 [x; y] (start w) = Ok s0 /\ rtc tstep (s0, <[x := tx]> (<[y := ty]> ∅)) c.

Lemma boot_nodes h0 addrs : forall s s', boot raw nb reliability h0 addrs s = Ok s' ->
  sent s' = sent s /\ forall a, a ∈ addrs \/ is_Some (nodes s !! a) -> is_Some (nodes s' !! a).
Proof.
  induction addrs as [|b addrs IH]; intros s s' E; cbn [boot] in E.
  - injection E as <-. split; [done|]. intros a [Ha|Ha]; [by apply elem_of_nil in Ha|done].
  - destruct (PostOffice_new _ _ _ _ _ _) as [[p w]|]; cbn [mbind outcome_bind] in E; [|done]. apply IH in E as [Es Hn]. split; [exact Es|].
    intros a Ha. apply Hn. cbn. rewrite lookup_insert_is_Some. rewrite elem_of_cons in Ha. destruct (decide (b = a)); [tauto|].
    destruct Ha as [[->|Ha]|Ha]; [done|by left|by right; right].
Qed.

Lemma fresh_ok a t : fresh_task t -> task_ok a t.
Proof. intros (E & Eo & Eb). split; rewrite ?E; try done. Qed.

Lemma exchange_TInv h0 w tx ty c : exchange h0 w tx ty c -> TInv c /\ only_pair c.
Proof.
  intros (Htx & Hty & s0 & E & Hr).
  assert (H0 : TInv (s0, <[x := tx]> (<[y := ty]> ∅)) /\ only_pair (s0, <[x := tx]> (<[y := ty]> ∅))).
  { destruct (boot_ok raw nb reliability h0 [x; y] ltac:(lia) (start w)) as (s1 & E1 & HI);
      [by intros a nd Ha|apply list.NoDup_cons; split; [by rewrite list_elem_of_singleton|apply NoDup_singleton]|by apply Forall_cons_2; [|apply Forall_singleton]|by apply Forall_true|].
    rewrite E in E1. injection E1 as <-. destruct (boot_nodes h0 [x; y] _ _ E) as [Es Hn]. split.
    - split; [exact HI|]. intros a Ha. cbn [fst snd]. split; [rewrite Es; intros m Hm; by apply elem_of_nil in Hm|].
      exists (if decide (a = x) then tx else ty). split; [destruct Ha as [->| ->]|].
      + by rewrite lookup_insert_eq, decide_True.
      + by rewrite lookup_insert_ne, lookup_insert_eq, decide_False by congruence.
      + split; [case_decide; by apply fresh_ok|]. split; [|by case_decide; [destruct Htx as (-> & _)|destruct Hty as (-> & _)]].
        intros _. apply Hn. left. rewrite !elem_of_cons. destruct Ha; tauto.
    - intros a t Ha. cbn in Ha. rewrite !lookup_insert_Some in Ha. unfold pair_. destruct Ha as [[<- _]|[_ [[<- _]|[_ Ha]]]]; [by left|by right|done]. }
  clear E. induction Hr as [c|c c1 c2 Hst _ IH]; [done|]. apply IH. by apply (tstep_TInv c c1 (proj1 H0) (proj2 H0)).
Qed.

(** [MailTest] on two machines: in every state that they can reach, each has
    printed the greeting of the other one when it has received from mailbox 0, and the
    acknowledgement when it has received from mailbox 1, and nothing else; [Send]
    always finds the other machine running; and [Receive] gives the message that
    the source expects there if it has arrived.  If it has not, the kernel stops,
    for there is no [Condition::Wait]. *)
Theorem mail_test_exchanges h0 w tx ty s ts a t :
  exchange h0 w tx ty (s, ts) -> pair_ a -> ts !! a = Some t ->
  output t = lines a (at_loc t) /\
  (forall t' text random, sending (far a) t = Some (t', text) ->
     exists nd r, nodes s !! a = Some nd /\ Post.Send (wire s) (po nd) (outPktHdr t') (outMailHdr t') text random raw = Ok r) /\
  (forall box, receiving t = Some box ->
     exists nd b ms, nodes s !! a = Some nd /\ boxes (po nd) !! Z.to_nat box = Some b /\ box_rep b ms /\
       match ms with
       | [] => Post.Receive (po nd) box = Fault AssertFailed
       | m :: _ => exists h mh text p, Post.Receive (po nd) box = Ok (h, mh, text, p) /\
                     mkMsg (from h) (mfrom mh) (mto mh) text = (if box =? 0 then hello_msg else ack_msg) (far a)
       end).
Proof.
  intros Hex Ha Et. destruct (exchange_TInv _ _ _ _ _ Hex) as [[HI Hok] _]. cbn [fst snd] in *.
  pose proof (Hok a Ha) as [Hs (t0 & E0 & Ht & Hnd & _)]. assert (t0 = t) as -> by congruence. split; [apply (k_output _ _ Ht)|]. split.
  - intros t' text random Es. destruct (sending_ok a t t' text Ht Es) as (_ & Hh & _ & Hrp & _ & Eto & Efrom & Hbox & Elen & Hmax & _).
    destruct (Hnd Hh) as [nd Hn]. destruct (HI a nd Hn) as (q & _ & I). exists nd. destruct (far_pair a Ha) as (Hpf & _ & Hff & _).
    destruct (far_pair _ Hpf) as (_ & _ & _ & Hsf).
    destruct (Post_Send_ok raw nb reliability a nd q _ _ (wire s) (outPktHdr t') (outMailHdr t') text random I) as (p & _ & HS);
      [lia|by rewrite Eto|by rewrite Efrom|lia|lia|lia|].
    destruct (lost _ _); [by eexists|]. destruct (Hok _ Hpf) as [_ (tf & Etf & _ & Hnf & Hof)]. rewrite Hff in Hof.
    assert (Hl : at_loc tf <> Halted).
    { intros El. rewrite El in Hof. destruct (Hof eq_refl) as (t2 & E2 & R2). congruence. }
    destruct (Hnf Hl) as [ndf Hf]. destruct (HI _ ndf Hf) as (qf & Hq & _). rewrite Eto, Hq in HS. destruct HS as (w' & bs & -> & _). by eexists.
  - intros box Er. assert (Hh : at_loc t <> Halted) by (intros E; unfold receiving in Er; by rewrite E in Er).
    destruct (Hnd Hh) as [nd Hn]. destruct (HI a nd Hn) as (q & _ & I). pose proof (receiving_range t box Er) as Hb.
    destruct (Receive_cases nb reliability a nd box q _ _ I Hb) as (b & ms & Hbox & Hrep & Hc). exists nd, b, ms. split_and!; try done.
    destruct ms as [|m ms]; [done|]. destruct Hc as (p & ER & _). do 4 eexists. split; [exact ER|].
    destruct (receive_sent s a nd box _ _ _ p HI Hn Hb ER) as [Hin Em].
    destruct (sent_ok_fields ts a _ _ _ _ (Hs _ Hin)) as (-> & -> & -> & _). rewrite Em.
    unfold receiving in Er. destruct (at_loc t); try discriminate Er; by injection Er as <-.
Qed.

End machines.

(** ** Two machines *)

#[local] Existing Instance LinkedList.bump_alloc.

(** Machines 0 and 1 with ten mailboxes and no losses. *)
Abbreviation far01 := (fun a : Z => 1 - a).
Definition demo_task : task :=
  mkTask Before1 (mkPacketHeader 0 0 0) (mkMailHeader 0 0 0) (mkPacketHeader 0 0 0) (mkMailHeader 0 0 0) (replicate 40 7) [].
Abbreviation demo_reach := (exchange demo_raw 10 (QArith_base.inject_Z 1) far01 0 1 demo_header (∅ : SocketModel.t) demo_task demo_task).

Lemma demo_fresh : fresh_task demo_task.
Proof. by vm_compute. Qed.

Ltac settled := match goal with |- rtc _ ?c _ => let c' := eval vm_compute in c in replace c with c' by (vm_compute; reflexivity) end.
Ltac then_ tac := eapply rtc_l; [tac|]; settled.
Ltac now_ := vm_compute; reflexivity.
Ltac sends a := then_ ltac:(eapply (t_send _ _ _ _ a _ _ _ _ 7); [reflexivity|reflexivity|now_|now_]).
Ltac is_sent a := then_ ltac:(eapply t_background, (b_sent _ _ a); [reflexivity|now_]);
  then_ ltac:(eapply (t_return _ _ _ _ a); [reflexivity|reflexivity|now_|now_]).
Ltac delivers a := then_ ltac:(eapply t_background, (b_poll _ _ a); [reflexivity|now_|now_]);
  then_ ltac:(eapply t_background, (b_wake _ _ a); [reflexivity|reflexivity|now_]);
  then_ ltac:(eapply t_background, (b_take _ _ a); [reflexivity|reflexivity|now_]);
  then_ ltac:(eapply t_background, (b_put _ _ a); [reflexivity|reflexivity|now_]).
Ltac receives a := then_ ltac:(eapply (t_receive _ _ _ _ a); [reflexivity|reflexivity|now_|now_]).
Ltac halts a := then_ ltac:(eapply (t_halt _ _ _ _ a); [reflexivity|reflexivity|reflexivity]).

(** The mail arrives in time, and both machines finish. *)
Lemma demo_finishes : exists s ts t0 t1, demo_reach (s, ts) /\ ts !! 0 = Some t0 /\ ts !! 1 = Some t1 /\
  at_loc t0 = Halted /\ at_loc t1 = Halted /\ output t0 = [(hello, 1, 1); (got_it, 1, 1)] /\ output t1 = [(hello, 0, 1); (got_it, 0, 1)].
Proof.
  do 4 eexists. split.
  - split; [exact demo_fresh|]. split; [exact demo_fresh|]. eexists. split; [now_|].
    sends 0. sends 1. is_sent 0. is_sent 1. delivers 0. delivers 1. receives 0. receives 1.
    sends 0. sends 1. is_sent 0. is_sent 1. delivers 0. delivers 1. receives 0. halts 0. receives 1. halts 1. apply rtc_refl.
  - split; [reflexivity|]. split; [reflexivity|]. vm_compute. split_and!; reflexivity.
Qed.

(** Machine 0 asks for the greeting before it is there. *)
Lemma demo_stops : exists s ts t nd, demo_reach (s, ts) /\ ts !! 0 = Some t /\ receiving t = Some 0 /\
  nodes s !! 0 = Some nd /\ Post.Receive (po nd) 0 = Fault AssertFailed.
Proof.
  do 4 eexists. split.
  - split; [exact demo_fresh|]. split; [exact demo_fresh|]. eexists. split; [now_|]. sends 0. sends 1. is_sent 0. apply rtc_refl.
  - split; [reflexivity|]. split; [reflexivity|]. split; [reflexivity|]. now_.
Qed.

End NetTest.
